(* ===== verification/_CoqProject ===== *)
-Q . S2P
Prelude.v
CLib.v
Status.v
CFloat.v
ArrayList.v
CJson.v
CJsonPrint.v
CJsonParse.v
CJsonMinify.v
CJsonType.v
CHeap.v
CJsonHeap.v
CJsonLinks.v
CJsonBuild.v
CJsonParseHeap.v
CJsonClient.v
RbTree.v
TreeMap.v
ParamStore.v
Memory.v
JsonHelpers.v
ErrorCtx.v
Results.v
Url.v
Calendar.v
Timestamp.v
Platform.v
Logger.v
GlobalState.v
PutGet.v
Uuid4.v
Base64.v
CipherStream.v
ThreadPool.v
StreamParts.v
Cpp.v
Jwt.v
FileMetadata.v
FileCrypto.v
S3Client.v
FileAgent.v
Stmt.v
Bind.v
Fetch.v
Columns.v
ColumnText.v
Http.v
Session.v
SessionTotal.v
ChunkDownload.v
ChunkDownloader.v
ChunkLiveness.v
ChunkSetup.v
Connect.v
ConnectTotal.v
Execute.v
ExecuteTotal.v
QueryText.v
ExecuteRows.v
Conversation.v
ChunkRows.v
ExecuteErrors.v
