(* ===== verification/Prelude.v ===== *)
(** * libsnowflakeclient: a verification development of the connector

    The connector (src/lib/*.c, headers in src/lib and src/include/snowflake) logs in to
    Snowflake over HTTPS, sends statements as JSON, reads the answers as JSON and hands
    the rows to the application column by column; large results come in chunks that
    background threads download.  Over it a C++ part (src/cpp) moves files between the
    disk and an S3 stage, encrypted and in parts, and makes JSON Web Tokens.  This library
    models that code function by function and proves what makes it correct.  Definitions keep the names of the source.

    ** How C is modelled

    This file: [outcome], the result of running C code ([Done]; [Undef] for a NULL
    dereference, an access out of bounds, a use after free, a signed overflow; [NoFuel]
    for a loop whose fuel ran out), and the wrap-around of machine integers.  CLib: the
    standard library on strings (strtoll, strtoull, printf of integers, strcmp, strchr).
    CFloat: doubles and floats as IEEE values, strtod, strtof, [%g] and [%f].  Calendar:
    gmtime, localtime, strftime, time zones.  Status: the codes of
    include/snowflake/client.h.  Pointers are options, struct fields record fields;
    aliasing is modelled where the code relies on it (the nodes of the red-black tree,
    the message blocks of errors, the buffers of the user).  Allocation that the code
    checks is an argument and may fail (over the heap of cJSON it gives a fresh address for
    every size that [hooks] serves); SF_CALLOC and SF_REALLOC exit the process when
    they fail, so what follows them runs with memory served.  Cpp: the C++ code that throws,
    as a monad over [outcome] ([Throws]; [Dies], an outcome that is not [Done], or a [throw]
    with nothing to throw again; [Unfinished], a call its schedule of threads did not bring
    to the end), and functions of std::string.

    ** The parts, from the bottom up

    - ArrayList (arraylist.c), RbTree (rbtree.c, nodes in a heap, pointer by pointer),
      TreeMap (treemap.c, against the [Dict] interface that RbTree implements),
      ParamStore (paramstore.c, over both): bind parameters by position and by name.
      Each refines a map; the tree keeps its order, balance and parent links.
    - Memory (memory.c): the table of live blocks behind SF_MALLOC and friends, under
      interleavings; the leak report is exact.
    - ErrorCtx (error.c, snowflake_propagate_error): error structures and who owns their
      messages; they read as plain records, which is how the other files keep an error.
    - CJson, CJsonPrint, CJsonParse, CJsonType (cJSON.c): the JSON tree and its editors;
      printing into a growing or a given buffer, byte by byte, equal to a specification
      text; parsing of the input bytes, safe on every input, total, typed, and inverse
      to printing.  CJsonMinify: minification in place, which undoes formatting.
    - CHeap, CJsonHeap, CJsonLinks, CJsonBuild, CJsonParseHeap, CJsonClient: cJSON.c once
      more over a heap of structs and texts, pointer by pointer, with references, constant
      names and every free.  CHeap has the heap, its monad and [spec], the triples over the
      exact cells a call owns; the next four the code and its specifications; CJsonClient a
      language of clients, which run on the heap as the trees of CJson and CJsonParse say.
    - Platform (platform.c), Logger (logger.c), GlobalState (client.c 100-148, 236-367,
      464-562): comparison without case, paths, the clock of the log; the lines of the
      log; the start and end of the library with its attributes and its log file.
    - JsonHelpers (connection.c 580-763): typed reads of an answer, the receive buffer.
    - Results (results.c): column descriptions, bound values as text.
    - Uuid4 (uuid4.c): the generator of identifiers, its seed and their text.
    - Url (connection.c encode_url), Http (http_perform and the retry context), Session
      and SessionTotal (request, curl_post_call, curl_get_call, renew_session,
      set_tokens): a request with its retries, the renewal of an expired session and the
      polling of a query in progress, as mutually recursive functions of the network's
      answers; every request ends, and an expired session is renewed.
    - Connect, ConnectTotal (client.c 102-234, 373-461, 564-932): the connection, its
      attributes, the parameter check, logging in and out; an attempt to connect returns.
    - PutGet (platform.c _is_put_get_command, client.c 1134-1152, 1664-1737): the commands
      of a file transfer, against a specification of regular expressions by derivatives,
      and the answer to them.
    - ChunkSetup (chunk_downloader.c 123-317): headers and queue of the downloader.
    - ChunkDownload (chunk_downloader.c download_chunk over Http): one chunk, from the
      bytes of the network to the rows.
    - ChunkDownloader, ChunkLiveness (chunk_downloader.c with the consumer's side of
      snowflake_fetch): threads, lock and condition variables as a step relation; chunks
      are delivered once and in order, nothing is used after it is freed, every call of
      the application returns under a fair schedule, and the deadlocks the code has.
    - Timestamp (client.c 2667-2997): timestamps from parts and from the server's text,
      printing, fields.
    - Stmt, Bind, Fetch (client.c 944-1514, 1568-1622, 1849-1950): the statement, its
      parameters and life cycle, the bindings of a request, fetching rows across chunks.
    - Execute (client.c 59-75, 1311-1326, 1426-1463, 1531-1852, 1952-1978): a statement
      sent and its answer read, on every branch; transactions.  Over it ExecuteTotal (an
      execution returns whatever the network answers), QueryText (what the server parses
      of a query with its bindings), ExecuteErrors (what a refused query reports),
      ExecuteRows (a query executed and fetched to the end gives the rows of the answer
      and of its chunks), ChunkRows (those chunks as the threads download them) and
      Conversation (login, query, rows, logout over one network).
    - Columns, ColumnText (client.c 1980-2665): typed reads of a column, text into the
      caller's buffer.
    - Base64 (cpp/util/Base64): both dialects over buffers, against RFC 4648.  CipherStream
      (cpp/crypto/CipherContext, CipherStreamBuf): the stream buffer that encrypts or
      decrypts, over OpenSSL's EVP as the class [EvpLaws].  Jwt (cpp/jwt): tokens, over
      Base64, the cJSON of CJsonPrint and CJsonParse, and signatures as the class [KeyPair].
    - ThreadPool (cpp/util/ThreadPool.hpp): threads, queue and condition variables under any
      schedule; the class [Jobs] says what a client shows of its jobs and [batch_runs],
      [batch_ends] what it gets.  StreamParts (cpp/util/ByteArrayStreamBuf, and the jobs of
      SnowflakeS3Client): its clients, the upload and the download of a file in parts.
    - FileMetadata (cpp/FileCompressionType, FileMetadataInitializer, StatementPutGet,
      FileTransferExecutionResult): the files of a PUT and their compression, the parsed
      answer, the result rows.  FileCrypto (cpp/EncryptionProvider, updateFileDigest): keys
      and digests, over AES as the classes [Aes] and [AesLaws].
    - S3Client (cpp/SnowflakeS3Client, and uploadSingleFile, downloadSingleFile of
      FileTransferAgent): one file to S3 and back, over S3 as [ObjectStore] and [StoreLaws].
    - FileAgent (the rest of cpp/FileTransferAgent, StorageClientFactory): commands over many
      files, by the pool of ThreadPool, with the renewal of tokens and the agent's objects in
      heaps; what it calls is the class [Transfers], which S3Client and FileMetadata discharge.

    ** What the theorems show

    The properties are the theorems whose comment starts with a claim number.  Safety
    and bounds: no out-of-bounds access in parser, printer, URL, buffers of columns and
    timestamps, tree deallocation, downloader.  Functional behaviour and refinement: JSON
    against its specification text, maps and stores against tables, errors against
    records, fetch against a list of rows, timestamps against instants, integer columns
    against the integers of their type; the pointer code of cJSON against the trees, with
    no block leaked, freed twice or used after it is freed.  Round trips: parse after print, bound values,
    the text of a query, a chunk, the calendar; base64, an encrypted stream, a token, a file
    sent to S3 and fetched.  The library as a whole starts, logs and ends
    as an abstract view of it does.  Termination and liveness: the parser, a
    request, a connection and an execution whatever the network brings, the calls of the
    application on the downloader, the parts of a file, a PUT or GET whose tokens do not
    expire for ever.  Where the code does not do
    what it means to, an Example or a theorem exhibits the behaviour.

    ** Fuel and bounds

    The parser's fuel is the nesting limit of cJSON.h and one, since each level of the
    input takes one; printing, comparing and duplicating recurse on the tree.  RbTree's
    loops have the number of nodes, and a search takes at most 2 log2(n+1) of it.  http_perform runs on the attempts the network has in store, and
    SessionTotal shows that a depth linear in them is enough for every call of a request.
    The identifiers of a request are an argument of Session and what is over it; Uuid4
    proves of the generator what they suppose of it.
    ArrayList's doubling loop has 64 rounds, enough for any size below 2^60.  The loops of
    Base64, CipherStream and the digest have the length of their input.  A transfer in parts
    runs on a schedule; StreamParts bounds the steps of every schedule, and shows where none
    can go on; FileAgent shows that some fuel and some schedule end a command.  The size of a part is a parameter of S3Client (DATA_SIZE_THRESHOLD).

    ** Not modelled

    Threads, locks and sockets themselves (platform.c's wrappers, libcurl, OpenSSL, zlib, the
    AWS SDK: their answers are arguments); the log calls of the other files (they change no
    result); of the C++ part the construction of the AWS client, zlib's streams (CompressionUtil), the proxy's
    variables, Windows' listing of a directory, and the thin classes of cpp/lib; deps/, tests
    and examples; the locale's decimal point; libcurl's debug trace. *)

From Stdlib Require Export ZArith Lia Bool Ascii String.
From stdpp Require Export base option list strings gmap.

#[global] Open Scope string_scope.
#[global] Open Scope list_scope.
#[global] Open Scope Z_scope.

(** ** Outcomes of C code

    [Done a]: the code ran and produced [a].  [Undef]: the code dereferenced
    NULL, accessed memory out of bounds or did something else the C standard
    leaves undefined.  [NoFuel]: the fuel of a loop ran out (every use comes with
    a theorem that enough fuel excludes it). *)
Inductive outcome (A : Type) : Type :=
| Done (a : A)
| Undef
| NoFuel.
Arguments Done {A} a.
Arguments Undef {A}.
Arguments NoFuel {A}.

#[export] Instance outcome_ret : MRet outcome := @Done.
#[export] Instance outcome_bind : MBind outcome := fun A B f o =>
  match o with
  | Done a => f a
  | Undef => Undef
  | NoFuel => NoFuel
  end.

#[export] Instance outcome_eq_dec {A} `{EqDecision A} : EqDecision (outcome A).
Proof. unfold EqDecision, Decision in *. decide equality. Defined.

(** Dereferencing a pointer or reading an array cell that may not be there. *)
Definition deref {A} (p : option A) : outcome A :=
  match p with
  | Some a => Done a
  | None => Undef
  end.

Definition is_done {A} (o : outcome A) : bool :=
  match o with Done _ => true | _ => false end.

Lemma bind_Done {A B} (o : outcome A) (f : A -> outcome B) r :
  (o ≫= f) = Done r <-> exists a, o = Done a /\ f a = Done r.
Proof. destruct o; naive_solver. Qed.

Lemma bind_Done_l {A B} (a : A) (f : A -> outcome B) : (Done a ≫= f) = f a.
Proof. reflexivity. Qed.

Lemma deref_Done {A} (p : option A) a : deref p = Done a <-> p = Some a.
Proof. destruct p; naive_solver. Qed.

Declare Scope sf_scope.
Delimit Scope sf_scope with sf.

Create HintDb sf discriminated.
Create Rewrite HintDb sf_rw.
#[export] Hint Rewrite @bind_Done_l : sf_rw.

(** [inv_done H] takes a chain of binds known to be [Done] apart. *)
Ltac inv_done H :=
  repeat match type of H with
  | _ ≫= _ = Done _ =>
      let a := fresh "a" in let E := fresh "E" in
      apply bind_Done in H; destruct H as (a & E & H)
  | Done _ = Done _ => injection H; clear H; intros; subst
  end.

(** ** Machine integers: a [w]-bit value is a [Z] wrapped explicitly. *)
Definition wrapU (w z : Z) : Z := z mod 2 ^ w.
Definition wrapS (w z : Z) : Z := (z + 2 ^ (w - 1)) mod 2 ^ w - 2 ^ (w - 1).

Abbreviation u8 := (wrapU 8).
Abbreviation u32 := (wrapU 32).
Abbreviation u64 := (wrapU 64).
Abbreviation i8 := (wrapS 8).
Abbreviation i32 := (wrapS 32).
Abbreviation i64 := (wrapS 64).

Definition INT_MAX : Z := 2147483647.
Definition INT_MIN : Z := -2147483648.
Definition UINT_MAX : Z := 4294967295.
Definition LLONG_MAX : Z := 9223372036854775807.
Definition LLONG_MIN : Z := -9223372036854775808.
Definition ULLONG_MAX : Z := 18446744073709551615.

Lemma wrapU_range w z : 0 <= w -> 0 <= wrapU w z < 2 ^ w.
Proof. intros. apply Z.mod_pos_bound. lia. Qed.

Lemma wrapU_small w z : 0 <= z < 2 ^ w -> wrapU w z = z.
Proof. intros. by apply Z.mod_small. Qed.

Lemma wrapS_small w z : - 2 ^ (w - 1) <= z < 2 ^ (w - 1) -> 0 < w -> wrapS w z = z.
Proof.
  intros H Hw. unfold wrapS.
  assert (2 ^ w = 2 * 2 ^ (w - 1)) as E.
  { rewrite <- Z.pow_succ_r by lia. f_equal. lia. }
  rewrite Z.mod_small; lia.
Qed.

Lemma wrapS_range w z : 0 < w -> - 2 ^ (w - 1) <= wrapS w z < 2 ^ (w - 1).
Proof.
  intros Hw. unfold wrapS.
  assert (2 ^ w = 2 * 2 ^ (w - 1)) as E.
  { rewrite <- Z.pow_succ_r by lia. f_equal. lia. }
  pose proof (Z.mod_pos_bound (z + 2 ^ (w - 1)) (2 ^ w)). lia.
Qed.
