(* ===== verification/CLib.v ===== *)
(** * The C standard library as the connector uses it: character classes, string
    search, decimal printing ([%d], [%lld], [%0nd]) and [strtoll]/[strtoull].

    A C string is the [string] of its characters up to (not including) the
    terminating NUL. *)

From S2P Require Import Prelude.

#[global] Arguments String.append !_ _ / : simpl nomatch.

(** ** Characters *)

Definition code (c : ascii) : Z := Z.of_N (N_of_ascii c).
Definition chr (z : Z) : ascii := ascii_of_N (Z.to_N z).
Definition schar (c : ascii) : Z := i8 (code c).

Definition is_digit (c : ascii) : bool := (48 <=? code c) && (code c <=? 57).
Definition is_space (c : ascii) : bool := (code c =? 32) || ((9 <=? code c) && (code c <=? 13)).
Definition tolower (c : ascii) : ascii :=
  if (65 <=? code c) && (code c <=? 90) then chr (code c + 32) else c.

Lemma code_range c : 0 <= code c < 256.
Proof. unfold code. pose proof (N_ascii_bounded c). lia. Qed.

Lemma chr_code c : chr (code c) = c.
Proof. unfold chr, code. rewrite N2Z.id. apply ascii_N_embedding. Qed.

Lemma code_chr z : 0 <= z < 256 -> code (chr z) = z.
Proof.
  intros. unfold chr, code. rewrite N_ascii_embedding by lia. lia.
Qed.

Lemma code_inj c d : code c = code d -> c = d.
Proof. intros E. by rewrite <- (chr_code c), E, chr_code. Qed.

#[export] Hint Resolve code_range : sf.

(** ** Strings *)

Fixpoint str_all (p : ascii -> bool) (s : string) : bool :=
  match s with
  | EmptyString => true
  | String c s => p c && str_all p s
  end.

(** A string that C can hold: no embedded NUL. *)
Definition no_nul (s : string) : bool := str_all (fun c => negb (code c =? 0)) s.

Definition strlen (s : string) : Z := Z.of_nat (String.length s).

Fixpoint str_drop (n : nat) (s : string) : string :=
  match n, s with
  | S n, String _ s => str_drop n s
  | _, _ => s
  end.

Fixpoint str_take (n : nat) (s : string) : string :=
  match n, s with
  | S n, String c s => String c (str_take n s)
  | _, _ => EmptyString
  end.

(** [strncpy] followed by the forced terminator at [dest[n-1]]: at most [n - 1]
    characters survive. *)
Definition strncpy_term (src : string) (n : nat) : string := str_take (n - 1) src.

(** [strchr]: the position of the first [c]. *)
Fixpoint strchr (s : string) (c : ascii) : option nat :=
  match s with
  | EmptyString => None
  | String d s => if Ascii.eqb d c then Some O else S <$> strchr s c
  end.

Lemma str_length_app s t : String.length (s +:+ t) = (String.length s + String.length t)%nat.
Proof. induction s; simpl; auto. Qed.

Lemma strlen_app s t : strlen (s +:+ t) = strlen s + strlen t.
Proof. unfold strlen. rewrite str_length_app. lia. Qed.

Lemma str_app_assoc (s t u : string) : (s +:+ t) +:+ u = s +:+ (t +:+ u).
Proof. induction s; simpl; congruence. Qed.

Lemma str_app_nil_r (s : string) : s +:+ EmptyString = s.
Proof. induction s; simpl; congruence. Qed.

Lemma str_all_app p s t : str_all p (s +:+ t) = str_all p s && str_all p t.
Proof. induction s as [|c s IH]; simpl; [done|]. by rewrite IH, andb_assoc. Qed.

Lemma no_nul_app s t : no_nul (s +:+ t) = no_nul s && no_nul t.
Proof. apply str_all_app. Qed.

Lemma list_ascii_length s : length (String.list_ascii_of_string s) = String.length s.
Proof. induction s; cbn; congruence. Qed.

Lemma list_ascii_app s t : String.list_ascii_of_string (s +:+ t) = String.list_ascii_of_string s ++ String.list_ascii_of_string t.
Proof. induction s as [|c s IH]; cbn; [done|]. by f_equal. Qed.

Lemma str_take_length n s : (String.length (str_take n s) <= n)%nat.
Proof. revert s. induction n; intros [|c s]; simpl; try lia. specialize (IHn s). lia. Qed.

Lemma str_take_all n s : (String.length s <= n)%nat -> str_take n s = s.
Proof. revert s. induction n; intros [|c s] H; simpl in *; try done; [lia|]. f_equal. apply IHn. lia. Qed.

(** ** Printing non-negative decimals *)

Definition digit_char (d : Z) : ascii := chr (48 + d).
Definition digit_val (c : ascii) : Z := code c - 48.

Fixpoint dec_digits (fuel : nat) (n : Z) (acc : string) : string :=
  match fuel with
  | O => acc
  | S fuel =>
      let acc := String (digit_char (n mod 10)) acc in
      if n <? 10 then acc else dec_digits fuel (n / 10) acc
  end.

Definition dec_of_nonneg (n : Z) : string := dec_digits (S (Z.to_nat (Z.log2 n))) n EmptyString.

(** [%d] / [%lld] / [%ld]. *)
Definition fmt_d (n : Z) : string :=
  if n <? 0 then String "-" (dec_of_nonneg (- n)) else dec_of_nonneg n.

Fixpoint zeros (n : nat) : string :=
  match n with
  | O => EmptyString
  | S n => String "0" (zeros n)
  end.

(** [%0wd]: zero padding to width [w] (the sign counts). *)
Definition fmt_0d (w : nat) (n : Z) : string :=
  if n <? 0 then
    String "-" (zeros (w - 1 - String.length (dec_of_nonneg (- n))) +:+ dec_of_nonneg (- n))
  else zeros (w - String.length (dec_of_nonneg n)) +:+ dec_of_nonneg n.

(** ** Reading decimals *)

(** The longest run of digits: its value (most significant first, continuing from
    [acc]) and its length. *)
Fixpoint read_digits (s : string) (acc : Z) (n : nat) : Z * nat :=
  match s with
  | String c s' => if is_digit c then read_digits s' (acc * 10 + digit_val c) (S n) else (acc, n)
  | EmptyString => (acc, n)
  end.

Fixpoint skip_spaces (s : string) : nat :=
  match s with
  | String c s' => if is_space c then S (skip_spaces s') else O
  | EmptyString => O
  end.

(** The optional sign: is it a minus, and how many characters it takes. *)
Definition read_sign (s : string) : bool * nat :=
  match s with
  | String c _ => if code c =? 45 then (true, 1%nat) else if code c =? 43 then (false, 1%nat) else (false, O)
  | EmptyString => (false, O)
  end.

Record strto_result := mk_strto {
  st_val : Z;
  st_end : nat;      (* characters consumed; 0 exactly when there was no number *)
  st_erange : bool   (* errno was set to ERANGE *)
}.

(** Sign, magnitude and characters consumed; [None] when there is no digit. *)
Definition read_integer (s : string) : option (bool * Z * nat) :=
  let ws := skip_spaces s in
  let s1 := str_drop ws s in
  let '(neg, sg) := read_sign s1 in
  let '(mag, nd) := read_digits (str_drop sg s1) 0 0 in
  match nd with
  | O => None
  | _ => Some (neg, mag, (ws + sg + nd)%nat)
  end.

(** [strtoll(s, &end, 10)] *)
Definition strtoll (s : string) : strto_result :=
  match read_integer s with
  | None => mk_strto 0 0 false
  | Some (neg, mag, n) =>
      let v := if neg then - mag else mag in
      if v >? LLONG_MAX then mk_strto LLONG_MAX n true
      else if v <? LLONG_MIN then mk_strto LLONG_MIN n true
      else mk_strto v n false
  end.

(** [strtoull(s, &end, 10)]: a minus sign negates modulo 2^64. *)
Definition strtoull (s : string) : strto_result :=
  match read_integer s with
  | None => mk_strto 0 0 false
  | Some (neg, mag, n) =>
      if mag >? ULLONG_MAX then mk_strto ULLONG_MAX n true
      else mk_strto (if neg then u64 (- mag) else mag) n false
  end.

(** ** Facts: printing then reading *)

Lemma digit_char_val d : 0 <= d < 10 -> digit_val (digit_char d) = d.
Proof. intros. unfold digit_val, digit_char. rewrite code_chr by lia. lia. Qed.

Lemma digit_char_is_digit d : 0 <= d < 10 -> is_digit (digit_char d) = true.
Proof. intros. unfold is_digit, digit_char. rewrite code_chr by lia. lia. Qed.

Lemma read_digits_acc s acc n :
  str_all is_digit s = true ->
  forall t, read_digits (s +:+ t) acc n
    = read_digits t (acc * 10 ^ strlen s + fst (read_digits s 0 0)) (n + String.length s)%nat.
Proof.
  unfold strlen. revert acc n. induction s as [|c s IH]; intros acc n Hs t; cbn [String.append read_digits].
  - cbn. f_equal; lia.
  - cbn in Hs. apply andb_true_iff in Hs as [Hc Hs]. rewrite Hc.
    rewrite (IH (acc * 10 + digit_val c) _ Hs t).
    pose proof (IH (0 * 10 + digit_val c) 1%nat Hs EmptyString) as IH2.
    rewrite str_app_nil_r in IH2. rewrite IH2. cbn [read_digits fst].
    f_equal; cbn [String.length]; [|lia].
    rewrite Nat2Z.inj_succ, Z.pow_succ_r by lia. ring.
Qed.

Lemma dec_digits_app fuel n acc : dec_digits fuel n acc = dec_digits fuel n EmptyString +:+ acc.
Proof.
  revert n acc. induction fuel as [|fuel IH]; intros n acc; cbn [dec_digits]; [done|].
  destruct (n <? 10); [done|].
  rewrite (IH _ (String _ acc)), (IH _ (String _ EmptyString)), str_app_assoc. done.
Qed.

Lemma dec_digits_spec fuel n :
  0 <= n < 2 ^ Z.of_nat fuel -> (0 < fuel)%nat ->
  str_all is_digit (dec_digits fuel n EmptyString) = true /\
  fst (read_digits (dec_digits fuel n EmptyString) 0 0) = n /\
  (0 < String.length (dec_digits fuel n EmptyString))%nat.
Proof.
  revert n. induction fuel as [|fuel IH]; intros n Hn Hf; [lia|].
  cbn [dec_digits]. pose proof (Z.mod_pos_bound n 10) as Hm.
  destruct (n <? 10) eqn:E.
  - apply Z.ltb_lt in E. rewrite Z.mod_small by lia. cbn.
    rewrite digit_char_is_digit, digit_char_val by lia. cbn. split_and!; [done|lia|lia].
  - apply Z.ltb_ge in E. rewrite dec_digits_app.
    rewrite Nat2Z.inj_succ, Z.pow_succ_r in Hn by lia.
    assert (0 <= n / 10 < 2 ^ Z.of_nat fuel) as Hq.
    { split; [apply Z.div_pos; lia|]. apply Z.div_lt_upper_bound; lia. }
    destruct fuel as [|fuel']; [cbn in Hn; lia|].
    destruct (IH (n / 10) Hq ltac:(lia)) as (Ha & Hv & Hl).
    rewrite str_all_app, Ha. cbn [str_all]. rewrite digit_char_is_digit by lia.
    split_and!; [done| |rewrite str_length_app; cbn; lia].
    rewrite read_digits_acc by done. rewrite Hv. cbn [read_digits].
    rewrite digit_char_is_digit, digit_char_val by lia. cbn [fst].
    rewrite Z.mul_0_l. pose proof (Z.div_mod n 10). lia.
Qed.

Lemma dec_of_nonneg_spec n :
  0 <= n ->
  str_all is_digit (dec_of_nonneg n) = true /\
  fst (read_digits (dec_of_nonneg n) 0 0) = n /\
  (0 < String.length (dec_of_nonneg n))%nat.
Proof.
  intros Hn. apply dec_digits_spec; [|lia]. split; [done|].
  destruct (decide (n = 0)) as [->|Hne]; [cbn; lia|].
  pose proof (Z.log2_spec n ltac:(lia)) as [_ Hlt].
  pose proof (Z.log2_nonneg n). replace (Z.of_nat (S (Z.to_nat (Z.log2 n)))) with (Z.succ (Z.log2 n)) by lia.
  done.
Qed.

(** The decimal digits of [n], followed by anything that is not a digit, read
    back as [n]. *)
Lemma read_digits_dec n t :
  0 <= n -> match t with String c _ => is_digit c = false | EmptyString => True end ->
  read_digits (dec_of_nonneg n +:+ t) 0 0 = (n, String.length (dec_of_nonneg n)).
Proof.
  intros Hn Ht. destruct (dec_of_nonneg_spec n Hn) as (Ha & Hv & _).
  rewrite read_digits_acc by done. rewrite Hv. rewrite Z.mul_0_l.
  destruct t as [|c t]; cbn; [done|].
  rewrite Ht. done.
Qed.

Lemma digit_not_space c : is_digit c = true -> is_space c = false.
Proof. unfold is_digit, is_space. lia. Qed.

Lemma read_integer_fmt_d n :
  exists k, read_integer (fmt_d n) = Some (n <? 0, Z.abs n, k) /\ k = String.length (fmt_d n).
Proof.
  unfold fmt_d, read_integer.
  destruct (n <? 0) eqn:E.
  - apply Z.ltb_lt in E.
    destruct (dec_of_nonneg_spec (- n) ltac:(lia)) as (_ & _ & Hl).
    pose proof (read_digits_dec (- n) EmptyString ltac:(lia) I) as Hr.
    rewrite str_app_nil_r in Hr. revert Hl Hr. generalize (dec_of_nonneg (- n)). intros d Hl Hr.
    change (skip_spaces (String "-" d)) with 0%nat. cbn [str_drop].
    change (read_sign (String "-" d)) with (true, 1%nat). cbn [str_drop String.length]. rewrite Hr.
    destruct (String.length d) as [|m] eqn:El; [lia|].
    eexists; split; [|done]. do 3 f_equal. lia.
  - apply Z.ltb_ge in E.
    destruct (dec_of_nonneg_spec n E) as (Ha & _ & Hl).
    pose proof (read_digits_dec n EmptyString E I) as Hr.
    rewrite str_app_nil_r in Hr.
    destruct (dec_of_nonneg n) as [|c s] eqn:Es; [cbn in Hl; lia|].
    assert (is_digit c = true) as Hc by (cbn in Ha; by destruct (is_digit c)).
    cbn [skip_spaces str_drop]. rewrite digit_not_space by done. cbn [str_drop read_sign].
    destruct (code c =? 45) eqn:E1; [unfold is_digit in Hc; lia|].
    destruct (code c =? 43) eqn:E2; [unfold is_digit in Hc; lia|].
    cbn [str_drop]. rewrite Hr. cbn [String.length].
    eexists; split; [|done]. repeat f_equal. lia.
Qed.

(** What [%lld] prints, [strtoll] reads back, for every 64-bit integer. *)
Lemma strtoll_fmt_d n :
  LLONG_MIN <= n <= LLONG_MAX -> strtoll (fmt_d n) = mk_strto n (String.length (fmt_d n)) false.
Proof.
  intros Hn. destruct (read_integer_fmt_d n) as (k & Hk & ->). unfold strtoll. rewrite Hk.
  replace (if n <? 0 then - Z.abs n else Z.abs n) with n by (destruct (n <? 0) eqn:E; lia).
  destruct (n >? LLONG_MAX) eqn:E1; [lia|]. destruct (n <? LLONG_MIN) eqn:E2; [lia|]. done.
Qed.

Lemma strtoull_fmt_d n :
  0 <= n <= ULLONG_MAX -> strtoull (fmt_d n) = mk_strto n (String.length (fmt_d n)) false.
Proof.
  intros Hn. destruct (read_integer_fmt_d n) as (k & Hk & ->). unfold strtoull. rewrite Hk.
  destruct (n <? 0) eqn:E; [lia|]. destruct (Z.abs n >? ULLONG_MAX) eqn:E1; [lia|].
  f_equal. lia.
Qed.

Lemma fmt_d_nonempty n : (0 < String.length (fmt_d n))%nat.
Proof.
  unfold fmt_d. destruct (n <? 0) eqn:E; cbn; [lia|].
  destruct (dec_of_nonneg_spec n ltac:(lia)) as (_ & _ & H). done.
Qed.

(** ** [strcmp]: only the sign of the result is specified; bytes compare as
    [unsigned char]. *)

Fixpoint strcmp (s t : string) : Z :=
  match s, t with
  | EmptyString, EmptyString => 0
  | EmptyString, String _ _ => -1
  | String _ _, EmptyString => 1
  | String c s, String d t =>
      if code c <? code d then -1 else if code d <? code c then 1 else strcmp s t
  end.

Lemma strcmp_refl s : strcmp s s = 0.
Proof. induction s as [|c s IH]; cbn; [done|]. by rewrite Z.ltb_irrefl. Qed.

Lemma strcmp_eq s t : strcmp s t = 0 <-> s = t.
Proof.
  split; [|intros ->; apply strcmp_refl]. revert t. induction s as [|c s IH]; intros [|d t]; cbn; try done.
  destruct (code c <? code d) eqn:E1; [done|]. destruct (code d <? code c) eqn:E2; [done|].
  intros H. f_equal; [apply code_inj; lia|by apply IH].
Qed.

Lemma strcmp_antisym s t : strcmp t s = - strcmp s t.
Proof.
  revert t. induction s as [|c s IH]; intros [|d t]; cbn; try done.
  destruct (code c <? code d) eqn:E1, (code d <? code c) eqn:E2; try done; lia.
Qed.

Lemma strcmp_trans s t u : strcmp s t < 0 -> strcmp t u < 0 -> strcmp s u < 0.
Proof.
  revert t u. induction s as [|c s IH]; intros [|d t] [|e u]; cbn; try lia.
  destruct (code c <? code d) eqn:E1, (code d <? code c) eqn:E2, (code d <? code e) eqn:E3,
    (code e <? code d) eqn:E4, (code c <? code e) eqn:E5, (code e <? code c) eqn:E6; try lia.
  apply IH.
Qed.

Lemma strcmp_cases s t : strcmp s t < 0 \/ s = t \/ strcmp t s < 0.
Proof.
  rewrite (strcmp_antisym s t). destruct (decide (strcmp s t = 0)) as [?%strcmp_eq|]; [auto|lia].
Qed.

(** ** Reading a number in front of other text *)

Lemma str_take_app_exact s t : str_take (String.length s) (s +:+ t) = s.
Proof. induction s as [|c s IH]; cbn; [by destruct t|by rewrite IH]. Qed.
Lemma str_drop_app_exact s t n : String.length s = n -> str_drop n (s +:+ t) = t.
Proof. intros <-. induction s as [|c s IH]; cbn; [by destruct t|done]. Qed.

Lemma str_drop_app s t : str_drop (String.length s) (s +:+ t) = t.
Proof. by induction s. Qed.

Lemma strchr_app c s t :
  str_all (fun d => negb (Ascii.eqb d c)) s = true -> strchr (s +:+ String c t) c = Some (String.length s).
Proof.
  induction s as [|d s IH]; cbn; [by rewrite Ascii.eqb_refl|]. intros H.
  apply andb_true_iff in H as [Hd Hs]. destruct (Ascii.eqb d c); [done|]. by rewrite IH.
Qed.

Lemma strchr_none c s : str_all (fun d => negb (Ascii.eqb d c)) s = true -> strchr s c = None.
Proof.
  induction s as [|d s IH]; cbn; [done|]. intros H.
  apply andb_true_iff in H as [Hd Hs]. destruct (Ascii.eqb d c); [done|]. by rewrite IH.
Qed.

Lemma str_all_impl (p q : ascii -> bool) s :
  (forall c, p c = true -> q c = true) -> str_all p s = true -> str_all q s = true.
Proof.
  intros Hpq. induction s as [|c s IH]; cbn; [done|]. intros H.
  apply andb_true_iff in H as [Hc Hs]. by rewrite Hpq, IH.
Qed.

(** Digits are none of the separators. *)
Lemma digits_avoid c s : is_digit c = false -> str_all is_digit s = true -> str_all (fun d => negb (Ascii.eqb d c)) s = true.
Proof.
  intros Hc. apply str_all_impl. intros d Hd. destruct (Ascii.eqb d c) eqn:E; [|done].
  apply Ascii.eqb_eq in E as ->. congruence.
Qed.

Definition stops_digits (t : string) : Prop :=
  match t with String c _ => is_digit c = false | EmptyString => True end.
Definition digits_value (d : string) : Z := fst (read_digits d 0 0).
Definition with_sign (neg : bool) (d : string) : string := if neg then String "-" d else d.

Lemma read_digits_all d t :
  str_all is_digit d = true -> stops_digits t -> read_digits (d +:+ t) 0 0 = (digits_value d, String.length d).
Proof.
  intros Hd Ht. rewrite read_digits_acc by done. fold (digits_value d). rewrite Z.mul_0_l.
  destruct t as [|c t]; cbn [read_digits]; [|rewrite Ht]; f_equal; lia.
Qed.

Lemma read_integer_digits neg d t :
  str_all is_digit d = true -> (0 < String.length d)%nat -> stops_digits t ->
  exists k, read_integer (with_sign neg d +:+ t) = Some (neg, digits_value d, k).
Proof.
  intros Hd Hl Ht. pose proof (read_digits_all d t Hd Ht) as Hr. unfold read_integer.
  destruct d as [|c d]; [cbn in Hl; lia|].
  assert (is_digit c = true) as Hc by (cbn in Hd; by destruct (is_digit c)).
  destruct neg; cbn [with_sign String.append].
  - change (skip_spaces (String "-" ?s)) with 0%nat. cbn [str_drop].
    change (read_sign (String "-" (String c (d +:+ t)))) with (true, 1%nat). cbn [str_drop].
    cbn [String.append] in Hr. rewrite Hr. cbn [String.length]. eauto.
  - cbn [skip_spaces]. rewrite digit_not_space by done. cbn [str_drop read_sign].
    destruct (code c =? 45) eqn:E1; [unfold is_digit in Hc; lia|].
    destruct (code c =? 43) eqn:E2; [unfold is_digit in Hc; lia|].
    cbn [str_drop]. cbn [String.append] in Hr. rewrite Hr. cbn [String.length]. eauto.
Qed.

Lemma strtoll_digits neg d t :
  str_all is_digit d = true -> (0 < String.length d)%nat -> stops_digits t -> digits_value d <= LLONG_MAX ->
  st_val (strtoll (with_sign neg d +:+ t)) = (if neg then - digits_value d else digits_value d) /\
  st_erange (strtoll (with_sign neg d +:+ t)) = false.
Proof.
  intros Hd Hl Ht Hv. destruct (read_integer_digits neg d t Hd Hl Ht) as [k Hk]. unfold strtoll. rewrite Hk.
  assert (0 <= digits_value d) as H0.
  { clear -Hd. unfold digits_value. assert (forall acc n, 0 <= acc -> 0 <= fst (read_digits d acc n)) as H; [|by apply H].
    induction d as [|c d IH]; intros acc n Ha; cbn [read_digits]; [done|]. cbn in Hd. destruct (is_digit c) eqn:E; [|done].
    apply IH; [done|]. unfold is_digit, digit_val in *. lia. }
  unfold LLONG_MAX, LLONG_MIN in *.
  destruct neg; destruct (_ >? _) eqn:E1; try lia; destruct (_ <? _) eqn:E2; try lia; done.
Qed.

Lemma dec_digits_all n : str_all is_digit (dec_of_nonneg n) = true.
Proof.
  unfold dec_of_nonneg. generalize (S (Z.to_nat (Z.log2 n))) as fuel.
  assert (forall fuel m acc, str_all is_digit acc = true -> str_all is_digit (dec_digits fuel m acc) = true) as H; [|auto].
  induction fuel as [|fuel IH]; intros m acc Ha; cbn [dec_digits]; [done|].
  assert (str_all is_digit (String (digit_char (m mod 10)) acc) = true) as Hc.
  { cbn [str_all]. rewrite Ha, digit_char_is_digit; [done|]. apply Z.mod_pos_bound. lia. }
  destruct (m <? 10); [done|]. by apply IH.
Qed.
Lemma dec_digits_value n : 0 <= n -> digits_value (dec_of_nonneg n) = n.
Proof. intros Hn. by destruct (dec_of_nonneg_spec n Hn) as (_ & ? & _). Qed.
Lemma dec_nonempty n : 0 <= n -> (0 < String.length (dec_of_nonneg n))%nat.
Proof. intros Hn. by destruct (dec_of_nonneg_spec n Hn) as (_ & _ & ?). Qed.

Lemma zeros_digits k : str_all is_digit (zeros k) = true.
Proof. by induction k. Qed.
Lemma zeros_value k : digits_value (zeros k) = 0.
Proof.
  unfold digits_value. generalize 0%nat. induction k as [|k IH]; intros m; [done|].
  cbn [zeros read_digits]. change (is_digit "0") with true. cbv iota. change (0 * 10 + digit_val "0") with 0. apply IH.
Qed.

Lemma fmt_0d_digits w n : 0 <= n -> str_all is_digit (fmt_0d w n) = true /\ digits_value (fmt_0d w n) = n /\ (0 < String.length (fmt_0d w n))%nat.
Proof.
  intros Hn. unfold fmt_0d. destruct (n <? 0) eqn:E; [lia|].
  rewrite str_all_app, zeros_digits, dec_digits_all by done. split; [done|].
  pose proof (dec_nonempty n Hn). rewrite str_length_app. split; [|lia].
  unfold digits_value. rewrite read_digits_acc by apply zeros_digits. fold (digits_value (zeros (w - String.length (dec_of_nonneg n)))).
  rewrite zeros_value. cbn. 
  rewrite <- (str_app_nil_r (dec_of_nonneg n)) at 1. by rewrite (read_digits_acc _ 0 _ (dec_digits_all n)), Z.mul_0_l; cbn [read_digits fst]; fold (digits_value (dec_of_nonneg n)); rewrite dec_digits_value.
Qed.

Lemma strtoll_dec n : 0 <= n <= LLONG_MAX -> st_val (strtoll (dec_of_nonneg n)) = n.
Proof.
  intros Hn. replace (dec_of_nonneg n) with (fmt_d n) by (unfold fmt_d; destruct (n <? 0) eqn:?; [lia|done]).
  by rewrite strtoll_fmt_d by (unfold LLONG_MIN; lia).
Qed.

(** ** Lengths of printed numbers *)

Lemma dec_digits_length fuel n k :
  0 <= n < 10 ^ Z.of_nat (S k) -> (String.length (dec_digits fuel n EmptyString) <= S k)%nat.
Proof.
  revert n k. induction fuel as [|fuel IH]; intros n k Hn; cbn [dec_digits]; [cbn; lia|].
  destruct (n <? 10) eqn:E; [cbn; lia|]. rewrite dec_digits_app, str_length_app. cbn [String.length].
  destruct k as [|k]; [cbn in Hn; lia|].
  rewrite (Nat2Z.inj_succ (S k)), Z.pow_succ_r in Hn by lia.
  specialize (IH (n / 10) k ltac:(split; [apply Z.div_pos; lia|apply Z.div_lt_upper_bound; lia])). lia.
Qed.

Lemma dec_length n k : 0 <= n < 10 ^ Z.of_nat (S k) -> (String.length (dec_of_nonneg n) <= S k)%nat.
Proof. apply dec_digits_length. Qed.

Lemma zeros_length n : String.length (zeros n) = n.
Proof. induction n; cbn; auto. Qed.

Lemma fmt_0d_length w n : 0 <= n < 10 ^ Z.of_nat w -> (0 < w)%nat -> String.length (fmt_0d w n) = w.
Proof.
  intros Hn Hw. destruct w as [|k]; [lia|]. pose proof (dec_length n k Hn). unfold fmt_0d. destruct (n <? 0) eqn:E; [lia|].
  rewrite str_length_app, zeros_length. lia.
Qed.
