(* ===== verification/Status.v ===== *)
(** * include/snowflake/client.h: status codes and SQL states. *)

From S2P Require Import Prelude.

Definition SF_STATUS_EOF : Z := -1.
Definition SF_STATUS_SUCCESS : Z := 0.
Definition SF_STATUS_ERROR_GENERAL : Z := 240000.
Definition SF_STATUS_ERROR_OUT_OF_MEMORY : Z := 240001.
Definition SF_STATUS_ERROR_REQUEST_TIMEOUT : Z := 240002.
Definition SF_STATUS_ERROR_DATA_CONVERSION : Z := 240003.
Definition SF_STATUS_ERROR_BAD_DATA_OUTPUT_TYPE : Z := 240004.
Definition SF_STATUS_ERROR_BAD_CONNECTION_PARAMS : Z := 240005.
Definition SF_STATUS_ERROR_STRING_FORMATTING : Z := 240006.
Definition SF_STATUS_ERROR_STRING_COPY : Z := 240007.
Definition SF_STATUS_ERROR_BAD_REQUEST : Z := 240008.
Definition SF_STATUS_ERROR_BAD_RESPONSE : Z := 240009.
Definition SF_STATUS_ERROR_BAD_JSON : Z := 240010.
Definition SF_STATUS_ERROR_RETRY : Z := 240011.
Definition SF_STATUS_ERROR_CURL : Z := 240012.
Definition SF_STATUS_ERROR_BAD_ATTRIBUTE_TYPE : Z := 240013.
Definition SF_STATUS_ERROR_APPLICATION_ERROR : Z := 240014.
Definition SF_STATUS_ERROR_PTHREAD : Z := 240015.
Definition SF_STATUS_ERROR_CONNECTION_NOT_EXIST : Z := 240016.
Definition SF_STATUS_ERROR_STATEMENT_NOT_EXIST : Z := 240017.
Definition SF_STATUS_ERROR_CONVERSION_FAILURE : Z := 240018.
Definition SF_STATUS_ERROR_OUT_OF_BOUNDS : Z := 240019.
Definition SF_STATUS_ERROR_MISSING_COLUMN_IN_ROW : Z := 240020.
Definition SF_STATUS_ERROR_OUT_OF_RANGE : Z := 240021.
Definition SF_STATUS_ERROR_NULL_POINTER : Z := 240022.
Definition SF_STATUS_ERROR_BUFFER_TOO_SMALL : Z := 240023.
Definition SF_STATUS_ERROR_OTHER : Z := 240024.

(** Sizes of the character arrays, the terminator included. *)
Definition SF_SQLSTATE_LEN : nat := 6.
Definition SF_UUID4_LEN : nat := 37.

Definition SF_SQLSTATE_NO_ERROR : string := "00000".
Definition SF_SQLSTATE_UNABLE_TO_CONNECT : string := "08001".
Definition SF_SQLSTATE_APP_REJECT_CONNECTION : string := "08004".
Definition SF_SQLSTATE_GENERAL_ERROR : string := "HY000".
Definition SF_SQLSTATE_NO_DATA : string := "02000".
