(* ===== verification/CFloat.v ===== *)
(** * C [double] and [float] as the connector uses them: IEEE 754 values,
    [strtod]/[strtof], [printf] of [%1.15g]/[%1.17g]/[%f], and casts.

    A [double] is the [spec_float] of Corelib's [SpecFloat] at precision 53 and
    exponent bound 1024 (binary64); a [float] the one at 24 and 128.  Reading and
    printing are exact: a decimal is a rational number, rounded once, to nearest
    with ties to even, which is what glibc does in the default rounding mode. *)

From S2P Require Import Prelude CLib.
From Corelib Require Export SpecFloat.

Abbreviation double := spec_float.

#[export] Instance double_eq_dec : EqDecision double.
Proof. unfold EqDecision. intros. unfold Decision. decide equality; try apply Z.eq_dec; try apply Pos.eq_dec; apply bool_dec. Defined.

Definition double_of_Z (z : Z) : double := binary_normalize 53 1024 z 0 false.

Definition is_inf_or_nan (d : double) : bool :=
  match d with
  | S754_infinity _ | S754_nan => true
  | _ => false
  end.

(** [(int64) d] and the like: truncation towards zero; out of range (or NaN or
    infinity) is undefined in C. *)
Definition double_trunc (d : double) : option Z :=
  match d with
  | S754_zero _ => Some 0
  | S754_finite s m e =>
      let v := if 0 <=? e then Zpos m * 2 ^ e else Zpos m / 2 ^ (- e) in
      Some (if s then - v else v)
  | _ => None
  end.

Definition cast_to_range (lo hi : Z) (d : double) : outcome Z :=
  match double_trunc d with
  | Some z => if (lo <=? z) && (z <=? hi) then Done z else Undef
  | None => Undef
  end.

(** ** Reading *)

(** A nonzero magnitude [m * 10 ^ e] rounded to the format, and whether [errno]
    becomes ERANGE (overflow, or a tiny inexact result). *)
Definition round_decimal (prec emax : Z) (neg : bool) (m e : Z) : double * bool :=
  match m with
  | Zpos p =>
      let nd := Z.log2 m / 3 + 1 in
      if e >? 400 then (S754_infinity neg, true)
      else if nd + e <? -400 then (S754_zero neg, true)
      else
        let d :=
          if 0 <=? e then binary_normalize prec emax (if neg then - (m * 10 ^ e) else m * 10 ^ e) 0 neg
          else SFdiv prec emax (S754_finite neg p 0) (S754_finite false (Z.to_pos (10 ^ (- e))) 0) in
        let erange :=
          match d with
          | S754_infinity _ | S754_zero _ => true
          | S754_finite _ q x =>
              (Z.log2 (Zpos q) + x <? 2 - emax)
              && negb (if 0 <=? e then true else (Zpos q * 10 ^ (- e) =? m * 2 ^ (- x)))
          | S754_nan => false
          end in
        (d, erange)
  | _ => (S754_zero neg, false)
  end.

Definition to_lower_str (s : string) : string :=
  (fix go s := match s with EmptyString => EmptyString | String c s => String (tolower c) (go s) end) s.

Definition has_prefix (p s : string) : bool := String.prefix p (to_lower_str s).

(** The exponent part [e[+-]ddd]: its value and length, (0, 0) when there is none. *)
Definition read_exponent (s : string) : Z * nat :=
  match s with
  | String c s1 =>
      if code (tolower c) =? 101 then
        let '(neg, sg) := read_sign s1 in
        let '(x, nd) := read_digits (str_drop sg s1) 0 0 in
        match nd with
        | O => (0, O)
        | _ => (if neg then - x else x, (1 + sg + nd)%nat)
        end
      else (0, O)
  | EmptyString => (0, O)
  end.

Record strtod_result := mk_strtod {
  sd_val : double;
  sd_end : nat;
  sd_erange : bool
}.

(** The subject sequences [strtod] accepts in the "C" locale: decimal, [inf],
    [infinity] and [nan] (hexadecimal floats are not modelled: their [0] prefix is
    read as a decimal zero). *)
Definition strto_float (prec emax : Z) (s : string) : strtod_result :=
  let ws := skip_spaces s in
  let s1 := str_drop ws s in
  let '(neg, sg) := read_sign s1 in
  let s2 := str_drop sg s1 in
  if has_prefix "infinity" s2 then mk_strtod (S754_infinity neg) (ws + sg + 8) false
  else if has_prefix "inf" s2 then mk_strtod (S754_infinity neg) (ws + sg + 3) false
  else if has_prefix "nan" s2 then mk_strtod S754_nan (ws + sg + 3) false
  else
    let '(ip, ni) := read_digits s2 0 0 in
    let s3 := str_drop ni s2 in
    let '(m, nf, ndot) :=
      match s3 with
      | String c s4 =>
          if code c =? 46 then
            let '(m, nf) := read_digits s4 ip 0 in (m, nf, 1%nat)
          else (ip, O, O)
      | EmptyString => (ip, O, O)
      end in
    match (ni + nf)%nat with
    | O => mk_strtod (S754_zero false) 0 false
    | _ =>
        let '(x, nx) := read_exponent (str_drop (ndot + nf) s3) in
        let '(d, er) := round_decimal prec emax neg m (x - Z.of_nat nf) in
        mk_strtod d (ws + sg + ni + ndot + nf + nx) er
    end.

Definition strtod : string -> strtod_result := strto_float 53 1024.
Definition strtof : string -> strtod_result := strto_float 24 128.

(** ** Printing *)

(** [round(num / den)], ties to even. *)
Definition round_half_even (num den : Z) : Z :=
  let q := num / den in
  let r := num mod den in
  if 2 * r <? den then q
  else if den <? 2 * r then q + 1
  else if Z.even q then q else q + 1.

(** |d| as a fraction. *)
Definition magnitude (m : positive) (e : Z) : Z * Z :=
  if 0 <=? e then (Zpos m * 2 ^ e, 1) else (Zpos m, 2 ^ (- e)).

(** [floor (log10 (num / den))] *)
Fixpoint log10_below (fuel : nat) (num den : Z) (k : Z) : Z :=
  match fuel with
  | O => - k
  | S fuel => if den <=? num then - k else log10_below fuel (num * 10) den (k + 1)
  end.
Definition log10_floor (num den : Z) : Z :=
  if den <=? num then strlen (dec_of_nonneg (num / den)) - 1
  else log10_below 400 num den 0.

(** The [p] significant digits of num/den and their decimal exponent. *)
Definition sig_digits (p num den : Z) : Z * Z :=
  let x := log10_floor num den in
  let k := p - 1 - x in
  let n := if 0 <=? k then round_half_even (num * 10 ^ k) den
           else round_half_even num (den * 10 ^ (- k)) in
  if n =? 10 ^ p then (10 ^ (p - 1), x + 1) else (n, x).

Fixpoint strip_zeros_rev (s : string) : string :=
  match s with
  | EmptyString => EmptyString
  | String c t =>
      match strip_zeros_rev t with
      | EmptyString => if code c =? 48 then EmptyString else String c EmptyString
      | t' => String c t'
      end
  end.

Definition with_fraction (ip fp : string) : string :=
  match strip_zeros_rev fp with
  | EmptyString => ip
  | fp' => ip +:+ String "." fp'
  end.

(** [%1.<p>g] of a finite double. *)
Definition fmt_g (p : Z) (d : double) : string :=
  match d with
  | S754_zero s => if s then "-0" else "0"
  | S754_finite s m e =>
      let '(num, den) := magnitude m e in
      let '(n, x) := sig_digits p num den in
      let ds := dec_of_nonneg n in
      let body :=
        if (x <? -4) || (p <=? x) then
          with_fraction (str_take 1 ds) (str_drop 1 ds)
          +:+ String "e" (String (if x <? 0 then "-"%char else "+"%char) (fmt_0d 2 (Z.abs x)))
        else if x <? 0 then
          with_fraction "0" (zeros (Z.to_nat (- x - 1)) +:+ ds)
        else with_fraction (str_take (Z.to_nat (x + 1)) ds) (str_drop (Z.to_nat (x + 1)) ds) in
      if s then String "-" body else body
  | S754_infinity s => if s then "-inf" else "inf"
  | S754_nan => "nan"
  end.

(** [%f]: six decimals. *)
Definition fmt_f (d : double) : string :=
  let body num den :=
    let n := round_half_even (num * 10 ^ 6) den in
    dec_of_nonneg (n / 10 ^ 6) +:+ String "." (fmt_0d 6 (n mod 10 ^ 6)) in
  match d with
  | S754_zero s => if s then "-0.000000" else "0.000000"
  | S754_finite s m e =>
      let '(num, den) := magnitude m e in
      if s then String "-" (body num den) else body num den
  | S754_infinity s => if s then "-inf" else "inf"
  | S754_nan => "nan"
  end.

(** ** The model on known values *)

Example strtod_ex1 : fmt_g 15 (sd_val (strtod "1e3")) = "1000". Proof. vm_compute. reflexivity. Qed.
Example strtod_ex2 : fmt_g 17 (sd_val (strtod "0.1")) = "0.10000000000000001". Proof. vm_compute. reflexivity. Qed.
Example strtod_ex3 : fmt_g 15 (sd_val (strtod "-1.5e-7xyz")) = "-1.5e-07". Proof. vm_compute. reflexivity. Qed.
Example strtod_ex4 : strtod "1e400" = mk_strtod (S754_infinity false) 5 true. Proof. vm_compute. reflexivity. Qed.
Example strtod_ex5 : sd_end (strtod "abc") = 0%nat. Proof. vm_compute. reflexivity. Qed.
Example strtod_ex6 : fmt_g 15 (sd_val (strtod "123456789012345678")) = "1.23456789012346e+17". Proof. vm_compute. reflexivity. Qed.
Example strtod_ex7 : fmt_g 17 (sd_val (strtod "5e-324")) = "4.9406564584124654e-324". Proof. vm_compute. reflexivity. Qed.
Example strtod_ex8 : sd_erange (strtod "5e-324") = true. Proof. vm_compute. reflexivity. Qed.
Example fmt_f_ex : fmt_f (sd_val (strtod "-123.456")) = "-123.456000". Proof. vm_compute. reflexivity. Qed.
Example trunc_ex : double_trunc (sd_val (strtod "-123.9")) = Some (-123). Proof. vm_compute. reflexivity. Qed.
Example strtof_ex : sd_erange (strtof "1e39") = true. Proof. vm_compute. reflexivity. Qed.

(** ** The characters of printed numbers *)

Definition printf_char (c : ascii) : bool := is_digit c || existsb (Ascii.eqb c) ["+"; "-"; "."; "e"; "i"; "n"; "f"; "a"]%char.

Lemma printf_char_not_nul c : printf_char c = true -> negb (code c =? 0) = true.
Proof.
  unfold printf_char, is_digit. intros [H|H]%orb_prop; [lia|]. apply existsb_exists in H as (d & Hd & ->%Ascii.eqb_eq).
  cbn in Hd. by repeat destruct Hd as [<-|Hd].
Qed.


Lemma str_all_take p n s : str_all p s = true -> str_all p (str_take n s) = true.
Proof.
  revert n. induction s as [|c s IH]; intros [|n]; cbn; auto.
  intros H. apply andb_true_iff in H as [-> H]. by apply IH.
Qed.

Lemma str_all_drop p n s : str_all p s = true -> str_all p (str_drop n s) = true.
Proof.
  revert n. induction s as [|c s IH]; intros [|n]; cbn; auto.
  intros H. apply andb_true_iff in H as [_ H]. by apply IH.
Qed.

Lemma str_all_strip_zeros p s : str_all p s = true -> str_all p (strip_zeros_rev s) = true.
Proof.
  induction s as [|c s IH]; cbn; [done|]. intros H. apply andb_true_iff in H as [Hc H].
  specialize (IH H). destruct (strip_zeros_rev s); cbn in *; [|by rewrite Hc].
  destruct (_ =? _); cbn; [done|]. by rewrite Hc.
Qed.

Lemma dec_chars n : str_all printf_char (dec_of_nonneg n) = true.
Proof. eapply str_all_impl; [|apply dec_digits_all]. unfold printf_char. by intros c ->. Qed.

Lemma zeros_chars n : str_all printf_char (zeros n) = true.
Proof. by induction n. Qed.

Lemma fmt_0d_chars w n : str_all printf_char (fmt_0d w n) = true.
Proof. unfold fmt_0d. destruct (n <? 0); cbn [str_all]; by rewrite str_all_app, zeros_chars, dec_chars. Qed.

Lemma with_fraction_chars ip fp : str_all printf_char ip = true -> str_all printf_char fp = true -> str_all printf_char (with_fraction ip fp) = true.
Proof.
  unfold with_fraction. intros Hi Hf. pose proof (str_all_strip_zeros _ _ Hf) as H.
  destruct (strip_zeros_rev fp); [done|]. rewrite str_all_app, Hi. exact H.
Qed.

Lemma fmt_g_chars p d : str_all printf_char (fmt_g p d) = true.
Proof.
  destruct d as [[]|[]| |s m e]; try done. unfold fmt_g.
  destruct (magnitude m e) as [num den]. destruct (sig_digits p num den) as [n x].
  set (body := if (_ || _) then _ else _).
  assert (str_all printf_char body = true) as Hb.
  { unfold body. pose proof (dec_chars n) as Hn. destruct (_ || _); [|destruct (x <? 0)].
    - rewrite str_all_app, with_fraction_chars by (by first [apply str_all_take|apply str_all_drop]).
      cbn [str_all andb]. rewrite fmt_0d_chars. by destruct (x <? 0).
    - apply with_fraction_chars; [done|]. by rewrite str_all_app, zeros_chars, Hn.
    - by apply with_fraction_chars; [apply str_all_take|apply str_all_drop]. }
  destruct s; [|exact Hb]. cbn [str_all]. by rewrite Hb.
Qed.

(** So they hold no NUL. *)
Lemma dec_no_nul n : no_nul (dec_of_nonneg n) = true.
Proof. eapply str_all_impl; [apply printf_char_not_nul|apply dec_chars]. Qed.
Lemma fmt_0d_no_nul w n : no_nul (fmt_0d w n) = true.
Proof. eapply str_all_impl; [apply printf_char_not_nul|apply fmt_0d_chars]. Qed.
Lemma fmt_g_no_nul p d : no_nul (fmt_g p d) = true.
Proof. eapply str_all_impl; [apply printf_char_not_nul|apply fmt_g_chars]. Qed.

(** ** [strtod] consumes characters that are there *)

Lemma read_digits_len s acc n : (snd (read_digits s acc n) <= n + String.length s)%nat.
Proof.
  revert acc n. induction s as [|c s IH]; intros acc n; cbn; [lia|].
  destruct (is_digit c); cbn; [|lia]. specialize (IH (acc * 10 + digit_val c) (S n)). lia.
Qed.

Lemma read_sign_len s : (snd (read_sign s) <= String.length s)%nat.
Proof. destruct s as [|c s]; cbn; [lia|]. destruct (_ =? _); cbn; [lia|]. destruct (_ =? _); cbn; lia. Qed.

Lemma skip_spaces_len s : (skip_spaces s <= String.length s)%nat.
Proof. induction s as [|c s IH]; cbn; [lia|]. destruct (is_space c); lia. Qed.

Lemma str_drop_length n s : String.length (str_drop n s) = (String.length s - n)%nat.
Proof. revert n. induction s as [|c s IH]; intros [|n]; cbn; auto. Qed.

Lemma read_exponent_len s : (snd (read_exponent s) <= String.length s)%nat.
Proof.
  destruct s as [|c s]; cbn; [lia|]. destruct (_ =? _); cbn; [|lia].
  pose proof (read_sign_len s). destruct (read_sign s) as [neg sg]. cbn in *.
  pose proof (read_digits_len (str_drop sg s) 0 0) as Hd. rewrite str_drop_length in Hd.
  destruct (read_digits _ _ _) as [x [|nd]]; cbn in *; lia.
Qed.

Lemma has_prefix_len p s : has_prefix p s = true -> (String.length p <= String.length s)%nat.
Proof.
  unfold has_prefix, to_lower_str. revert s. induction p as [|c p IH]; intros [|d s]; cbn; try lia; try done.
  destruct (ascii_dec c (tolower d)); [|done]. intros H. apply IH in H. lia.
Qed.

Lemma strto_float_len prec emax s : (sd_end (strto_float prec emax s) <= String.length s)%nat.
Proof.
  unfold strto_float. pose proof (skip_spaces_len s) as H0.
  set (ws := skip_spaces s) in *. pose proof (read_sign_len (str_drop ws s)) as H1.
  destruct (read_sign _) as [neg sg]. cbn in H1. rewrite str_drop_length in H1.
  set (s2 := str_drop sg (str_drop ws s)).
  assert (String.length s2 = String.length s - ws - sg)%nat as H2 by (unfold s2; by rewrite !str_drop_length).
  destruct (has_prefix "infinity" s2) eqn:E1; [apply has_prefix_len in E1; cbn in *; lia|].
  destruct (has_prefix "inf" s2) eqn:E2; [apply has_prefix_len in E2; cbn in *; lia|].
  destruct (has_prefix "nan" s2) eqn:E3; [apply has_prefix_len in E3; cbn in *; lia|].
  pose proof (read_digits_len s2 0 0) as H3. destruct (read_digits s2 0 0) as [ip ni]. cbn in H3.
  set (s3 := str_drop ni s2).
  assert (String.length s3 = String.length s2 - ni)%nat as H4 by (unfold s3; by rewrite str_drop_length).
  clearbody s3.
  set (fr := match s3 with EmptyString => _ | String _ _ => _ end).
  assert (let '(_, nf, nd) := fr in (nd + nf <= String.length s3)%nat) as H5.
  { unfold fr. destruct s3 as [|c s4]; cbn; [lia|]. destruct (_ =? 46); cbn; [|lia].
    pose proof (read_digits_len s4 ip 0) as H6. destruct (read_digits s4 ip 0) as [m nf]. cbn in *. lia. }
  destruct fr as [[m nf] nd]. destruct (ni + nf)%nat eqn:E; [cbn; lia|].
  pose proof (read_exponent_len (str_drop (nd + nf) s3)) as H6. rewrite str_drop_length in H6.
  destruct (read_exponent _) as [x nx]. cbn in H6.
  destruct (round_decimal _ _ _ _ _) as [d er]. cbn. lia.
Qed.
