(* ===== verification/ArrayList.v ===== *)
(** * lib/arraylist.c: the growable pointer array behind positional bind
    parameters and JSON key lists.

    A [void *] slot is an [option A] ([None] is NULL).  [size] and [used] are the
    C fields; [data] is the allocated block.  An access outside the block is
    [Undef]; a doubling loop that never reaches the requested size (it wraps to 0
    first) is [NoFuel]. *)

From S2P Require Import Prelude.

Record ARRAY_LIST (A : Type) := mk_array_list {
  data : list (option A);
  size : Z;
  used : Z
}.
Arguments mk_array_list {A} data size used.
Arguments data {A} a.
Arguments size {A} a.
Arguments used {A} a.

Section ArrayList.
  Context {A : Type}.

Definition sf_array_list_init : ARRAY_LIST A :=
  mk_array_list (replicate 8 None) 8 0.

(** The block and the structure are freed; the pointer of the caller is spent. *)
Definition sf_array_list_deallocate (al : option (ARRAY_LIST A)) : option (ARRAY_LIST A) := None.

(** [while (new_size < min_size) new_size *= 2;] on [size_t]. *)
Fixpoint grow_loop (fuel : nat) (new_size min_size : Z) : outcome Z :=
  if new_size <? min_size then
    match fuel with
    | O => NoFuel
    | S fuel' => grow_loop fuel' (u64 (new_size * 2)) min_size
    end
  else Done new_size.

Definition sf_array_list_grow (al : ARRAY_LIST A) (min_size : Z) : outcome (ARRAY_LIST A) :=
  new_size ← grow_loop 64 (size al) min_size;
  if u64 (8 * new_size) =? 8 * new_size then
    Done (mk_array_list (data al ++ replicate (Z.to_nat (new_size - size al)) None)
            new_size (used al))
  else Undef.

Definition sf_array_list_set (al : ARRAY_LIST A) (item : option A) (index : Z)
  : outcome (ARRAY_LIST A) :=
  al ← (if size al <=? index then sf_array_list_grow al (u64 (index + 1)) else Done al);
  old ← deref (data al !! Z.to_nat index);
  let used' :=
    match old, item with
    | None, Some _ => u64 (used al + 1)
    | Some _, None => u64 (used al - 1)
    | _, _ => used al
    end in
  Done (mk_array_list (<[Z.to_nat index := item]> (data al)) (size al) used').

Definition sf_array_list_get (al : ARRAY_LIST A) (index : Z)
  : outcome (option A * ARRAY_LIST A) :=
  al ← (if size al <=? index then sf_array_list_grow al (u64 (index + 1)) else Done al);
  x ← deref (data al !! Z.to_nat index);
  Done (x, al).

(** ** Well-formedness and the abstraction to a total map of slots *)

(** The number of slots in use. *)
Definition occupied (l : list (option A)) : Z :=
  Z.of_nat (length (filter (fun x => is_Some x) l)).

Record wf (al : ARRAY_LIST A) : Prop := {
  wf_len : Z.of_nat (length (data al)) = size al;
  wf_used : used al = occupied (data al);
  wf_size : exists k : nat, size al = 2 ^ (Z.of_nat k + 3);
  wf_max : size al <= 2 ^ 60
}.

Definition slot (al : ARRAY_LIST A) (i : Z) : option A :=
  data al !! Z.to_nat i ≫= id.

Lemma grow_loop_spec fuel s m :
  0 < s <= 2 ^ 60 -> 0 <= m <= 2 ^ 60 -> (exists k : nat, s = 2 ^ (Z.of_nat k + 3)) ->
  2 ^ 60 <= s * 2 ^ Z.of_nat fuel ->
  exists s', grow_loop fuel s m = Done s' /\ m <= s' /\ s <= s' <= 2 ^ 60
    /\ (exists k : nat, s' = 2 ^ (Z.of_nat k + 3)).
Proof.
  revert s. induction fuel as [|fuel IH]; intros s Hs Hm [k Hk] Hf; simpl.
  - destruct (s <? m) eqn:E; [apply Z.ltb_lt in E; lia|].
    apply Z.ltb_ge in E. exists s. split_and!; eauto; lia.
  - destruct (s <? m) eqn:E.
    + apply Z.ltb_lt in E.
      rewrite wrapU_small by lia.
      assert (s * 2 <= 2 ^ 60) as Hle.
      { subst s. assert (Z.of_nat k + 3 < 60) as Hk'.
        { apply (Z.pow_lt_mono_r_iff 2); lia. }
        replace (2 ^ (Z.of_nat k + 3) * 2) with (2 ^ (Z.of_nat k + 4)).
        2:{ replace (Z.of_nat k + 4) with (Z.succ (Z.of_nat k + 3)) by lia.
            rewrite Z.pow_succ_r by lia. lia. }
        apply Z.pow_le_mono_r; lia. }
      destruct (IH (s * 2)) as (s' & ? & ? & ? & ?); [lia|lia| | |].
      * exists (S k). subst s. rewrite Nat2Z.inj_succ.
        replace (Z.succ (Z.of_nat k) + 3) with (Z.succ (Z.of_nat k + 3)) by lia.
        rewrite Z.pow_succ_r by lia. lia.
      * rewrite Nat2Z.inj_succ, Z.pow_succ_r in Hf by lia. lia.
      * exists s'. split_and!; eauto; lia.
    + apply Z.ltb_ge in E. exists s. split_and!; eauto; lia.
Qed.

Lemma occupied_app l1 l2 : occupied (l1 ++ l2) = occupied l1 + occupied l2.
Proof. unfold occupied. rewrite filter_app, length_app. lia. Qed.

Lemma occupied_replicate n : occupied (replicate n (None : option A)) = 0.
Proof.
  unfold occupied. induction n as [|n IH]; simpl; [done|].
  rewrite (filter_cons_False (fun x : option A => is_Some x)); [done|]. by intros [? [=]].
Qed.

Lemma occupied_bounds l : 0 <= occupied l <= Z.of_nat (length l).
Proof. unfold occupied. pose proof (length_filter (fun x : option A => is_Some x) l). lia. Qed.

Lemma occupied_insert (l : list (option A)) i (old item : option A) :
  l !! i = Some old ->
  occupied (<[i := item]> l) =
    occupied l - (if old then 1 else 0) + (if item then 1 else 0).
Proof.
  intros Hi. pose proof (lookup_lt_Some _ _ _ Hi) as Hlt.
  rewrite insert_take_drop by done.
  rewrite <- (take_drop_middle l i old Hi) at 3.
  rewrite !occupied_app. cbn [app].
  change (item :: drop (S i) l) with ([item] ++ drop (S i) l).
  change (old :: drop (S i) l) with ([old] ++ drop (S i) l).
  rewrite !occupied_app.
  assert (forall o : option A, occupied [o] = if o then 1 else 0) as Hs.
  { intros [o|]; unfold occupied; 
      [rewrite (filter_cons_True (fun x : option A => is_Some x)) by eauto
      |rewrite (filter_cons_False (fun x : option A => is_Some x)) by (by intros [? [=]])];
      done. }
  rewrite !Hs. lia.
Qed.

Lemma grow_wf al m :
  wf al -> 0 <= m <= 2 ^ 60 ->
  exists al', sf_array_list_grow al m = Done al' /\ wf al' /\ m <= size al' /\
    size al <= size al' /\ used al' = used al /\ forall i, slot al' i = slot al i.
Proof.
  intros [Hlen Hused [k Hk] Hmax] Hm. unfold sf_array_list_grow.
  assert (0 < size al) as Hpos by (rewrite Hk; apply Z.pow_pos_nonneg; lia).
  destruct (grow_loop_spec 64 (size al) m) as (s' & -> & Hs'm & Hs' & Hk'); [lia|lia|eauto| |].
  { assert (1 <= size al) by lia. nia. }
  cbn. rewrite wrapU_small by lia. rewrite Z.eqb_refl.
  eexists; split; [done|].
  split_and!; cbn; [split; cbn| lia | lia | done | ].
  - rewrite length_app, length_replicate. lia.
  - rewrite occupied_app, occupied_replicate. lia.
  - done.
  - lia.
  - intros i. unfold slot; cbn.
    destruct (decide (Z.to_nat i < length (data al))%nat).
    + by rewrite lookup_app_l.
    + rewrite lookup_app_r by lia. rewrite (lookup_ge_None_2 (data al)) by lia.
      destruct (replicate _ _ !! _) as [x|] eqn:E; [|done].
      apply lookup_replicate in E as [-> _]. done.
Qed.

Lemma ensure_wf al i :
  wf al -> 0 <= i < 2 ^ 60 ->
  exists al', (if size al <=? i then sf_array_list_grow al (u64 (i + 1)) else Done al) = Done al'
    /\ wf al' /\ i < size al' /\ used al' = used al /\ forall j, slot al' j = slot al j.
Proof.
  intros Hwf Hi. destruct (size al <=? i) eqn:E.
  - rewrite wrapU_small by lia.
    destruct (grow_wf al (i + 1)) as (al' & -> & ? & ? & ? & ? & ?); [done|lia|].
    exists al'. split_and!; auto; lia.
  - apply Z.leb_gt in E. exists al. split_and!; auto.
Qed.

Lemma wf_lookup al i :
  wf al -> 0 <= i < size al -> data al !! Z.to_nat i = Some (slot al i).
Proof.
  intros [Hlen _ _ _] Hi. unfold slot.
  destruct (data al !! Z.to_nat i) as [x|] eqn:E; [done|].
  apply lookup_ge_None in E. lia.
Qed.

Lemma init_wf : wf sf_array_list_init.
Proof. split; [done..| exists 0%nat; done | cbn; lia]. Qed.

Lemma array_set_ok al item i :
  wf al -> 0 <= i < 2 ^ 60 ->
  exists al', sf_array_list_set al item i = Done al' /\ wf al' /\
    slot al' i = item /\ i < size al' /\
    forall j, 0 <= j -> j <> i -> slot al' j = slot al j.
Proof.
  intros Hwf Hi. unfold sf_array_list_set.
  destruct (ensure_wf al i Hwf Hi) as (al1 & -> & Hwf1 & Hsz & Hused & Hslots). cbn.
  rewrite (wf_lookup al1 i) by (auto; lia). cbn.
  eexists; split; [done|].
  pose proof (wf_lookup al1 i Hwf1 ltac:(lia)) as Hl.
  pose proof (occupied_insert _ _ _ item Hl) as Hocc.
  pose proof (occupied_bounds (data al1)) as Hb.
  pose proof (occupied_bounds (<[Z.to_nat i := item]> (data al1))) as Hb'.
  rewrite length_insert in Hb'.
  destruct Hwf1 as [Hlen Hu Hk Hm].
  split_and!; cbn.
  - split; cbn; [by rewrite length_insert | | done | done].
    rewrite Hocc, <- Hu. destruct (slot al1 i), item; rewrite ?wrapU_small; lia.
  - unfold slot; cbn. rewrite list_lookup_insert_eq by lia. done.
  - done.
  - intros j Hj Hne. rewrite <- Hslots. unfold slot; cbn.
    rewrite list_lookup_insert_ne by lia. done.
Qed.

Lemma array_get_ok al i :
  wf al -> 0 <= i < 2 ^ 60 ->
  exists al', sf_array_list_get al i = Done (slot al i, al') /\ wf al' /\
    used al' = used al /\ forall j, slot al' j = slot al j.
Proof.
  intros Hwf Hi. unfold sf_array_list_get.
  destruct (ensure_wf al i Hwf Hi) as (al1 & -> & Hwf1 & Hsz & Hused & Hslots). cbn.
  rewrite (wf_lookup al1 i) by (auto; lia). cbn.
  exists al1. rewrite Hslots. auto.
Qed.

(** A list whose slots are [xs] and then NULL counts the length of [xs]. *)
Lemma used_filled al xs : wf al -> (forall i : nat, slot al (Z.of_nat i) = xs !! i) -> used al = Z.of_nat (length xs).
Proof.
  intros Hwf Hs. rewrite (wf_used al Hwf). assert (forall i : nat, data al !! i ≫= id = xs !! i) as Hd.
  { intros i. rewrite <- Hs. unfold slot. by rewrite Nat2Z.id. }
  clear Hs Hwf. revert xs Hd. induction (data al) as [|x l IH]; intros xs Hd.
  - destruct xs as [|y xs]; [done|]. by specialize (Hd O).
  - destruct x as [x|], xs as [|y xs]; try (by specialize (Hd O)).
    + specialize (IH xs (fun i => Hd (S i))). unfold occupied in *. rewrite filter_cons_True by by eexists. cbn [length]. lia.
    + specialize (IH [] (fun i => Hd (S i))). unfold occupied in *. rewrite filter_cons_False by (by intros [? [=]]). done.
Qed.

(** storing [item] at any index below 2^60 succeeds, keeps the list
    well-formed ([size] = allocated cells = 8 * 2^k, [used] = non-NULL cells),
    makes that slot [item] and leaves every other slot as it was, whether or not
    the array had to grow. *)
Theorem array_list_set_correct al item i :
  wf al -> 0 <= i < 2 ^ 60 ->
  exists al', sf_array_list_set al item i = Done al' /\ wf al' /\
    slot al' i = item /\ i < size al' /\
    forall j, 0 <= j -> j <> i -> slot al' j = slot al j.
Proof. apply array_set_ok. Qed.

(** Reading any index below 2^60 returns that slot (NULL past the end of the
    array); the read may grow the array but changes no slot. *)
Theorem array_list_get_correct al i :
  wf al -> 0 <= i < 2 ^ 60 ->
  exists al', sf_array_list_get al i = Done (slot al i, al') /\ wf al' /\
    used al' = used al /\ forall j, slot al' j = slot al j.
Proof. apply array_get_ok. Qed.

End ArrayList.

Lemma array_list_set_correct_witness :
  wf (@sf_array_list_init Z) /\
  exists al', sf_array_list_set sf_array_list_init (Some 5) 20 = Done al' /\ wf al' /\
    slot al' 20 = Some 5 /\ 20 < size al' /\
    forall j, 0 <= j -> j <> 20 -> slot al' j = slot sf_array_list_init j.
Proof.
  split; [exact init_wf|]. apply array_list_set_correct; [exact init_wf | lia].
Defined.

Lemma array_list_get_correct_witness :
  exists al', sf_array_list_get (@sf_array_list_init Z) 11 = Done (None, al') /\ wf al' /\
    used al' = 0 /\ forall j, slot al' j = slot sf_array_list_init j.
Proof.
  apply (array_list_get_correct (@sf_array_list_init Z) 11); [exact init_wf | lia].
Defined.

(** A doubling loop asked for more than 2^63 slots wraps [new_size] to 0 and
    never ends. *)
Example grow_loop_overflows : grow_loop 1000 8 (2 ^ 63 + 1) = NoFuel.
Proof. vm_compute. reflexivity. Qed.
