(* ===== verification/CJson.v ===== *)
(** * lib/cJSON.c: the JSON tree, its accessors, editors and constructors.

    A node is the C struct without its sibling links: [child] lists the children
    in [next] order, so a [cJSON *] that points at a child is the pair of its
    parent and its position.  [type] keeps the flag bits of cJSON.h.  NULL is
    [None].  [hooks n] tells whether the allocator serves a request of [n] bytes,
    so that every allocation-failure branch is kept. *)

From S2P Require Import Prelude CLib CFloat.

Definition cJSON_Invalid : Z := 0.
Definition cJSON_False : Z := 1.
Definition cJSON_True : Z := 2.
Definition cJSON_NULL : Z := 4.
Definition cJSON_Number : Z := 8.
Definition cJSON_String : Z := 16.
Definition cJSON_Array : Z := 32.
Definition cJSON_Object : Z := 64.
Definition cJSON_Raw : Z := 128.
Definition cJSON_IsReference : Z := 256.
Definition cJSON_StringIsConst : Z := 512.

Inductive cJSON : Type := mk_cJSON {
  type : Z;
  valuestring : option string;
  valueint : Z;
  valuedouble : double;
  key : option string;       (* the C field [string] *)
  child : list cJSON
}.

(** Induction with the hypothesis on every child. *)
Lemma cJSON_ind' (P : cJSON -> Prop) :
  (forall t vs vi vd k ch, Forall P ch -> P (mk_cJSON t vs vi vd k ch)) -> forall j, P j.
Proof.
  intros H. fix IH 1. intros [t vs vi vd k ch]. apply H.
  induction ch as [|c ch IHch]; constructor; [apply IH | exact IHch].
Qed.

(** The number of nodes, the measure of every walk over a tree. *)
Fixpoint nodes (j : cJSON) : nat := S (list_sum (map nodes (child j))).

Lemma nodes_child j c : c ∈ child j -> (nodes c < nodes j)%nat.
Proof.
  destruct j as [t vs vi vd k ch]; simpl. intros Hc.
  induction ch as [|d ch IH]; [by apply not_elem_of_nil in Hc|].
  apply elem_of_cons in Hc as [->|Hc]; simpl; [lia|]. specialize (IH Hc). simpl in IH. lia.
Qed.

Definition set_key (k : option string) (j : cJSON) : cJSON :=
  mk_cJSON (type j) (valuestring j) (valueint j) (valuedouble j) k (child j).
Definition set_type (t : Z) (j : cJSON) : cJSON :=
  mk_cJSON t (valuestring j) (valueint j) (valuedouble j) (key j) (child j).
Definition set_child (ch : list cJSON) (j : cJSON) : cJSON :=
  mk_cJSON (type j) (valuestring j) (valueint j) (valuedouble j) (key j) ch.

(** ** Strings *)

Fixpoint case_cmp (s1 s2 : string) : Z :=
  match s1, s2 with
  | EmptyString, EmptyString => 0
  | EmptyString, String d _ => 0 - code (tolower d)
  | String c _, EmptyString => code (tolower c) - 0
  | String c s1, String d s2 =>
      if code (tolower c) =? code (tolower d) then case_cmp s1 s2
      else code (tolower c) - code (tolower d)
  end.

(** [case_insensitive_strcmp]; the pointer-equality shortcut agrees with the
    character loop. *)
Definition case_insensitive_strcmp (s1 s2 : option string) : Z :=
  match s1, s2 with
  | Some s1, Some s2 => case_cmp s1 s2
  | _, _ => 1
  end.

Definition cJSON_strdup (hooks : Z -> bool) (s : option string) : option string :=
  match s with
  | None => None
  | Some s => if hooks (strlen s + 1) then Some s else None
  end.

(** ** Node constructors *)

Definition zero_double : double := S754_zero false.
Definition sizeof_cJSON : Z := 64.

Definition cJSON_New_Item (hooks : Z -> bool) : option cJSON :=
  if hooks sizeof_cJSON then Some (mk_cJSON 0 None 0 zero_double None []) else None.

Definition with_type (t : Z) (item : option cJSON) : option cJSON := set_type t <$> item.

Definition snowflake_cJSON_CreateNull hooks := with_type cJSON_NULL (cJSON_New_Item hooks).
Definition snowflake_cJSON_CreateTrue hooks := with_type cJSON_True (cJSON_New_Item hooks).
Definition snowflake_cJSON_CreateFalse hooks := with_type cJSON_False (cJSON_New_Item hooks).
Definition snowflake_cJSON_CreateBool hooks (b : bool) :=
  with_type (if b then cJSON_True else cJSON_False) (cJSON_New_Item hooks).
Definition snowflake_cJSON_CreateArray hooks := with_type cJSON_Array (cJSON_New_Item hooks).
Definition snowflake_cJSON_CreateObject hooks := with_type cJSON_Object (cJSON_New_Item hooks).

(** [(int) number] saturated at INT_MAX and INT_MIN; a NaN falls through both
    comparisons to an undefined cast, for which x86 gives INT_MIN. *)
Definition saturate_int (number : double) : Z :=
  if SFleb (double_of_Z INT_MAX) number then INT_MAX
  else if SFleb number (double_of_Z INT_MIN) then INT_MIN
  else default INT_MIN (double_trunc number).

Definition snowflake_cJSON_SetNumberHelper (object : cJSON) (number : double) : cJSON :=
  mk_cJSON (type object) (valuestring object) (saturate_int number) number (key object) (child object).

Definition snowflake_cJSON_CreateNumber hooks (num : double) : option cJSON :=
  (fun item => mk_cJSON cJSON_Number (valuestring item) (saturate_int num) num (key item) (child item))
    <$> cJSON_New_Item hooks.

Definition create_string_of_type (t : Z) (hooks : Z -> bool) (s : option string) : option cJSON :=
  match cJSON_New_Item hooks with
  | Some item =>
      match cJSON_strdup hooks s with
      | Some v => Some (mk_cJSON t (Some v) (valueint item) (valuedouble item) (key item) (child item))
      | None => None
      end
  | None => None
  end.
Definition snowflake_cJSON_CreateString := create_string_of_type cJSON_String.
Definition snowflake_cJSON_CreateRaw := create_string_of_type cJSON_Raw.

(** ** Type tests: [(item->type & 0xFF) == t], false on NULL *)

Definition has_type (t : Z) (item : option cJSON) : bool :=
  match item with
  | None => false
  | Some j => Z.land (type j) 255 =? t
  end.
Definition snowflake_cJSON_IsInvalid := has_type cJSON_Invalid.
Definition snowflake_cJSON_IsFalse := has_type cJSON_False.
Definition snowflake_cJSON_IsTrue := has_type cJSON_True.
Definition snowflake_cJSON_IsBool (item : option cJSON) : bool :=
  match item with
  | None => false
  | Some j => negb (Z.land (type j) (Z.lor cJSON_True cJSON_False) =? 0)
  end.
Definition snowflake_cJSON_IsNull := has_type cJSON_NULL.
Definition snowflake_cJSON_IsNumber := has_type cJSON_Number.
Definition snowflake_cJSON_IsString := has_type cJSON_String.
Definition snowflake_cJSON_IsArray := has_type cJSON_Array.
Definition snowflake_cJSON_IsObject := has_type cJSON_Object.
Definition snowflake_cJSON_IsRaw := has_type cJSON_Raw.

(** ** Reading arrays and objects *)

Definition snowflake_cJSON_GetArraySize (array : option cJSON) : Z :=
  match array with
  | None => 0
  | Some a => i32 (Z.of_nat (length (child a)))
  end.

Definition get_array_item (array : option cJSON) (index : Z) : option cJSON :=
  match array with
  | None => None
  | Some a => child a !! Z.to_nat index
  end.

Definition snowflake_cJSON_GetArrayItem (array : option cJSON) (index : Z) : option cJSON :=
  if index <? 0 then None else get_array_item array index.

(** The position of the first child with the given name.  The case-sensitive walk
    calls [strcmp] on the child's name, undefined when it is NULL. *)
Fixpoint object_index (children : list cJSON) (name : string) (case_sensitive : bool)
  : outcome (option nat) :=
  match children with
  | [] => Done None
  | c :: rest =>
      hit ← (if case_sensitive then
               k ← deref (key c);
               Done (String.eqb name k)
             else Done (case_insensitive_strcmp (Some name) (key c) =? 0));
      if hit : bool then Done (Some O)
      else r ← object_index rest name case_sensitive; Done (option_map S r)
  end.

Definition get_object_item (object : option cJSON) (name : option string) (case_sensitive : bool)
  : outcome (option cJSON) :=
  match object, name with
  | Some o, Some name =>
      r ← object_index (child o) name case_sensitive;
      Done (match r with Some i => child o !! i | None => None end)
  | _, _ => Done None
  end.

(** The case-insensitive lookup never dereferences a missing name. *)
Fixpoint find_ci (children : list cJSON) (name : string) : option nat :=
  match children with
  | [] => None
  | c :: rest =>
      if case_insensitive_strcmp (Some name) (key c) =? 0 then Some O else S <$> find_ci rest name
  end.

Lemma object_index_ci children name : object_index children name false = Done (find_ci children name).
Proof.
  induction children as [|c rest IH]; cbn [object_index find_ci]; [done|].
  destruct (_ =? 0); cbn; [done|]. rewrite IH. done.
Qed.

Definition snowflake_cJSON_GetObjectItem (object : option cJSON) (name : string) : option cJSON :=
  match object with
  | Some o => find_ci (child o) name ≫= fun i => child o !! i
  | None => None
  end.

Lemma GetObjectItem_get_object_item object name :
  get_object_item object (Some name) false = Done (snowflake_cJSON_GetObjectItem object name).
Proof.
  destruct object as [o|]; [|done]. cbn. rewrite object_index_ci. cbn.
  destruct (find_ci _ _); done.
Qed.

Definition snowflake_cJSON_GetObjectItemCaseSensitive (object : option cJSON) (name : option string) :=
  get_object_item object name true.

Definition snowflake_cJSON_HasObjectItem (object : option cJSON) (name : string) : bool :=
  match snowflake_cJSON_GetObjectItem object name with Some _ => true | None => false end.

(** ** Editing: every editor returns the new parent *)

Definition snowflake_cJSON_AddItemToArray (array item : option cJSON) : option cJSON :=
  match item, array with
  | Some it, Some a => Some (set_child (child a ++ [it]) a)
  | _, _ => array
  end.

Definition clear_flag (flag t : Z) : Z := Z.ldiff t flag.

(** [AddItemToObjectCS] borrows the key and sets [StringIsConst]; the item it
    links is returned inside the object. *)
Definition snowflake_cJSON_AddItemToObjectCS (object : option cJSON) (string_ : option string)
    (item : option cJSON) : option cJSON :=
  match item, string_ with
  | Some it, Some s =>
      snowflake_cJSON_AddItemToArray object
        (Some (set_type (Z.lor (type it) cJSON_StringIsConst) (set_key (Some s) it)))
  | _, _ => object
  end.

(** [AddItemToObject] copies the key, links the item through
    [AddItemToObjectCS], then clears [StringIsConst] on the linked item. *)
Definition snowflake_cJSON_AddItemToObject (hooks : Z -> bool) (object : option cJSON)
    (string_ : option string) (item : option cJSON) : option cJSON :=
  match item with
  | None => object
  | Some _ =>
      let k := cJSON_strdup hooks string_ in
      let object' := snowflake_cJSON_AddItemToObjectCS object k item in
      match k, object' with
      | Some _, Some o =>
          Some (set_child
            (match last (child o) with
             | Some it => removelast (child o) ++ [set_type (clear_flag cJSON_StringIsConst (type it)) it]
             | None => child o
             end) o)
      | _, _ => object'
      end
  end.

Definition snowflake_cJSON_AddStringToObject hooks object name (s : option string) :=
  snowflake_cJSON_AddItemToObject hooks object (Some name) (snowflake_cJSON_CreateString hooks s).
Definition snowflake_cJSON_AddBoolToObject hooks object name (b : bool) :=
  snowflake_cJSON_AddItemToObject hooks object (Some name) (snowflake_cJSON_CreateBool hooks b).
Definition snowflake_cJSON_AddNumberToObject hooks object name (n : double) :=
  snowflake_cJSON_AddItemToObject hooks object (Some name) (snowflake_cJSON_CreateNumber hooks n).

(** Unlinks the child at a position: the new parent and the item. *)
Definition snowflake_cJSON_DetachItemViaPointer (parent : option cJSON) (item : option nat)
  : option cJSON * option cJSON :=
  match parent, item with
  | Some p, Some i =>
      match child p !! i with
      | Some c => (Some (set_child (delete i (child p)) p), Some c)
      | None => (parent, None)
      end
  | _, _ => (parent, None)
  end.

Definition snowflake_cJSON_DetachItemFromArray (array : option cJSON) (which : Z) :=
  if which <? 0 then (array, None)
  else snowflake_cJSON_DetachItemViaPointer array (Some (Z.to_nat which)).

Definition snowflake_cJSON_DetachItemFromObject (object : option cJSON) (name : string) :=
  snowflake_cJSON_DetachItemViaPointer object
    (match object with Some o => find_ci (child o) name | None => None end).

Definition snowflake_cJSON_DetachItemFromObjectCaseSensitive (object : option cJSON) (name : string)
  : outcome (option cJSON * option cJSON) :=
  i ← (match object with Some o => object_index (child o) name true | None => Done None end);
  Done (snowflake_cJSON_DetachItemViaPointer object i).

Definition snowflake_cJSON_DeleteItemFromArray (array : option cJSON) (which : Z) : option cJSON :=
  fst (snowflake_cJSON_DetachItemFromArray array which).
Definition snowflake_cJSON_DeleteItemFromObject (object : option cJSON) (name : string) : option cJSON :=
  fst (snowflake_cJSON_DetachItemFromObject object name).

(** Past the end the item is appended; a NULL item elsewhere is dereferenced. *)
Definition snowflake_cJSON_InsertItemInArray (array : option cJSON) (which : Z) (newitem : option cJSON)
  : outcome (option cJSON) :=
  if which <? 0 then Done array
  else
    match array, get_array_item array which with
    | Some a, Some _ =>
        it ← deref newitem;
        Done (Some (set_child (take (Z.to_nat which) (child a) ++ it :: drop (Z.to_nat which) (child a)) a))
    | _, _ => Done (snowflake_cJSON_AddItemToArray array newitem)
    end.

Definition snowflake_cJSON_ReplaceItemViaPointer (parent : option cJSON) (item : option nat)
    (replacement : option cJSON) : bool * option cJSON :=
  match parent, item, replacement with
  | Some p, Some i, Some r => (true, Some (set_child (<[i := r]> (child p)) p))
  | _, _, _ => (false, parent)
  end.

Definition snowflake_cJSON_ReplaceItemInArray (array : option cJSON) (which : Z) (newitem : option cJSON)
  : option cJSON :=
  if which <? 0 then array
  else snd (snowflake_cJSON_ReplaceItemViaPointer array
              (match get_array_item array which with Some _ => Some (Z.to_nat which) | None => None end) newitem).

(** The replacement takes the (copied) name; the status ignores whether the
    member existed. *)
Definition replace_item_in_object (hooks : Z -> bool) (object : option cJSON) (string_ : option string)
    (replacement : option cJSON) (case_sensitive : bool) : outcome (bool * option cJSON) :=
  match replacement, string_ with
  | Some r, Some s =>
      let r' := set_type (clear_flag cJSON_StringIsConst (type r)) (set_key (cJSON_strdup hooks (Some s)) r) in
      i ← (match object with Some o => object_index (child o) s case_sensitive | None => Done None end);
      Done (true, snd (snowflake_cJSON_ReplaceItemViaPointer object i (Some r')))
  | _, _ => Done (false, object)
  end.

(** ** Arrays from C arrays *)

Section CreateArray.
  Context {X : Type} (hooks : Z -> bool) (create : X -> option cJSON).

(** [for (i = 0; a && i < count; i++)]: reading past [xs] is undefined, a failed
    element drops the array. *)
Fixpoint create_loop (xs : list X) (count : nat) : outcome (option (list cJSON)) :=
  match count with
  | O => Done (Some [])
  | S count =>
      match xs with
      | [] => Undef
      | x :: xs =>
          match create x with
          | None => Done None
          | Some n =>
              r ← create_loop xs count;
              Done (match r with Some l => Some (n :: l) | None => None end)
          end
      end
  end.

Definition create_array_of (xs : option (list X)) (count : Z) : outcome (option cJSON) :=
  match xs with
  | Some xs =>
      if count <? 0 then Done None
      else
        match snowflake_cJSON_CreateArray hooks with
        | None => Done None
        | Some a =>
            r ← create_loop xs (Z.to_nat count);
            Done (match r with Some l => Some (set_child l a) | None => None end)
        end
  | None => Done None
  end.
End CreateArray.

Definition snowflake_cJSON_CreateIntArray hooks (numbers : option (list Z)) (count : Z) :=
  create_array_of hooks (fun z => snowflake_cJSON_CreateNumber hooks (double_of_Z z)) numbers count.
Definition snowflake_cJSON_CreateDoubleArray hooks (numbers : option (list double)) (count : Z) :=
  create_array_of hooks (snowflake_cJSON_CreateNumber hooks) numbers count.
(** Floats are the doubles they widen to. *)
Definition snowflake_cJSON_CreateFloatArray hooks (numbers : option (list double)) (count : Z) :=
  create_array_of hooks (snowflake_cJSON_CreateNumber hooks) numbers count.
Definition snowflake_cJSON_CreateStringArray hooks (strings : option (list (option string))) (count : Z) :=
  create_array_of hooks (snowflake_cJSON_CreateString hooks) strings count.

(** ** Duplication *)

Section Duplicate.
  Context (hooks : Z -> bool).

Definition dup_field (copy : bool) (s : option string) : option (option string) :=
  match s with
  | None => Some None
  | Some _ =>
      if copy then match cJSON_strdup hooks s with Some v => Some (Some v) | None => None end
      else Some s
  end.

Fixpoint snowflake_cJSON_Duplicate (item : cJSON) (recurse : bool) : option cJSON :=
  match cJSON_New_Item hooks with
  | None => None
  | Some _ =>
      match dup_field true (valuestring item),
            dup_field (Z.land (type item) cJSON_StringIsConst =? 0) (key item) with
      | Some vs, Some k =>
          let newitem ch := mk_cJSON (clear_flag cJSON_IsReference (type item)) vs (valueint item)
                              (valuedouble item) k ch in
          if recurse then
            newitem <$>
              (fix loop (chs : list cJSON) : option (list cJSON) :=
                 match chs with
                 | [] => Some []
                 | c :: rest =>
                     match snowflake_cJSON_Duplicate c true with
                     | None => None
                     | Some c' => match loop rest with Some l => Some (c' :: l) | None => None end
                     end
                 end) (child item)
          else Some (newitem [])
      | _, _ => None
      end
  end.
End Duplicate.

(** ** Comparison *)

Definition valid_type (t : Z) : bool :=
  existsb (Z.eqb t) [cJSON_False; cJSON_True; cJSON_NULL; cJSON_Number; cJSON_String; cJSON_Raw;
                     cJSON_Array; cJSON_Object].

Section Compare.
  (** The recursive call, on one level less fuel. *)
  Context (cmp : option cJSON -> option cJSON -> outcome bool) (case_sensitive : bool).

Fixpoint compare_arrays (l1 l2 : list cJSON) : outcome bool :=
  match l1, l2 with
  | x :: l1, y :: l2 =>
      r ← cmp (Some x) (Some y);
      if r : bool then compare_arrays l1 l2 else Done false
  | [], [] => Done true
  | _, _ => Done false
  end.

(** Every member of [l] has an equal namesake in [other]. *)
Fixpoint compare_members (l : list cJSON) (other : cJSON) : outcome bool :=
  match l with
  | [] => Done true
  | x :: l =>
      y ← get_object_item (Some other) (key x) case_sensitive;
      match y with
      | None => Done false
      | Some _ =>
          r ← cmp (Some x) y;
          if r : bool then compare_members l other else Done false
      end
  end.
End Compare.

Fixpoint snowflake_cJSON_Compare (fuel : nat) (a b : option cJSON) (case_sensitive : bool) : outcome bool :=
  match fuel with
  | O => NoFuel
  | S fuel =>
      match a, b with
      | Some ja, Some jb =>
          let t := Z.land (type ja) 255 in
          if negb (t =? Z.land (type jb) 255) || snowflake_cJSON_IsInvalid a then Done false
          else if negb (valid_type t) then Done false
          else if (t =? cJSON_False) || (t =? cJSON_True) || (t =? cJSON_NULL) then Done true
          else if t =? cJSON_Number then Done (SFeqb (valuedouble ja) (valuedouble jb))
          else if (t =? cJSON_String) || (t =? cJSON_Raw) then
            Done (match valuestring ja, valuestring jb with
                  | Some s1, Some s2 => String.eqb s1 s2
                  | _, _ => false
                  end)
          else
            let cmp x y := snowflake_cJSON_Compare fuel x y case_sensitive in
            if t =? cJSON_Array then compare_arrays cmp (child ja) (child jb)
            else
              r ← compare_members cmp case_sensitive (child ja) jb;
              if r : bool then compare_members cmp case_sensitive (child jb) ja else Done false
      | _, _ => Done false
      end
  end.

(** ** Facts: lookup, insertion and removal by name *)

Lemma find_ci_Some l name i :
  find_ci l name = Some i ->
  exists l1 c l2, l = l1 ++ c :: l2 /\ i = length l1 /\
    case_insensitive_strcmp (Some name) (key c) = 0 /\
    Forall (fun d => case_insensitive_strcmp (Some name) (key d) <> 0) l1.
Proof.
  revert i. induction l as [|c l IH]; intros i; cbn [find_ci]; [done|].
  destruct (_ =? 0) eqn:E.
  - intros [= <-]. apply Z.eqb_eq in E. by exists [], c, l.
  - apply Z.eqb_neq in E. destruct (find_ci l name) as [k|]; [|done]. intros [= <-].
    destruct (IH k eq_refl) as (l1 & d & l2 & -> & -> & ? & ?).
    exists (c :: l1), d, l2. split_and!; auto.
Qed.

Lemma find_ci_None l name :
  find_ci l name = None <-> Forall (fun d => case_insensitive_strcmp (Some name) (key d) <> 0) l.
Proof.
  induction l as [|c l IH]; cbn [find_ci]; [by split; auto|].
  rewrite Forall_cons, <- IH. destruct (_ =? 0) eqn:E.
  - apply Z.eqb_eq in E. naive_solver.
  - apply Z.eqb_neq in E. destruct (find_ci l name); naive_solver.
Qed.

Lemma find_ci_app l1 l2 name :
  find_ci (l1 ++ l2) name =
    match find_ci l1 name with Some i => Some i | None => Nat.add (length l1) <$> find_ci l2 name end.
Proof.
  induction l1 as [|c l1 IH]; cbn [find_ci app length].
  - by destruct (find_ci l2 name).
  - destruct (_ =? 0); [done|]. rewrite IH. destruct (find_ci l1 name); [done|].
    by destruct (find_ci l2 name).
Qed.

Lemma last_app_one {A} (l : list A) x : last (l ++ [x]) = Some x.
Proof. apply last_snoc. Qed.

Lemma AddItemToObject_child hooks o name it :
  hooks (strlen name + 1) = true ->
  snowflake_cJSON_AddItemToObject hooks (Some o) (Some name) (Some it) =
    Some (set_child (child o ++
      [set_type (clear_flag cJSON_StringIsConst (Z.lor (type it) cJSON_StringIsConst))
         (set_key (Some name) it)]) o).
Proof.
  intros Hh. unfold snowflake_cJSON_AddItemToObject. cbn. rewrite Hh. cbn.
  rewrite last_app_one, removelast_last. done.
Qed.

(** ** Facts: copies and comparison *)

(** The tree with every [IsReference] bit cleared: what a recursive duplicate is. *)
Fixpoint strip (j : cJSON) : cJSON :=
  mk_cJSON (clear_flag cJSON_IsReference (type j)) (valuestring j) (valueint j) (valuedouble j)
    (key j) (map strip (child j)).

Definition members_distinct (case_sensitive : bool) (l : list cJSON) : bool :=
  forallb (fun i =>
    match key <$> l !! i with
    | Some (Some k) => bool_decide (object_index l k case_sensitive = Done (Some i))
    | _ => false
    end) (seq 0 (length l)).

(** A tree [Compare] can find equal to itself: every node has one of the JSON
    types, numbers are not NaN, strings have text, member names are present and
    each is found at its own position. *)
Fixpoint comparable (case_sensitive : bool) (j : cJSON) : bool :=
  let t := Z.land (type j) 255 in
  valid_type t &&
  (if t =? cJSON_Number then SFeqb (valuedouble j) (valuedouble j) else true) &&
  (if (t =? cJSON_String) || (t =? cJSON_Raw)
   then match valuestring j with Some _ => true | None => false end else true) &&
  (if t =? cJSON_Object then
     members_distinct case_sensitive (child j) else true) &&
  forallb (comparable case_sensitive) (child j).

Lemma strip_keys l name cs : object_index (map strip l) name cs = object_index l name cs.
Proof.
  induction l as [|[] l IH]; cbn [map object_index strip key]; [done|]. by rewrite IH.
Qed.

Lemma type_strip j : Z.land (type (strip j)) 255 = Z.land (type j) 255.
Proof.
  destruct j as [t ? ? ? ? ?]; cbn [strip type]. unfold clear_flag.
  apply Z.bits_inj'; intros n Hn. rewrite !Z.land_spec, Z.ldiff_spec.
  destruct (decide (n < 8)).
  - change cJSON_IsReference with (2 ^ 8). rewrite Z.pow2_bits_false by lia. cbn. by rewrite andb_true_r.
  - change 255 with (Z.ones 8). rewrite Z.ones_spec_high by lia. by rewrite !andb_false_r.
Qed.

Lemma strip_type a b : strip a = strip b -> Z.land (type a) 255 = Z.land (type b) 255.
Proof. intros E. by rewrite <- (type_strip a), E, type_strip. Qed.

Lemma strip_fields a b :
  strip a = strip b ->
  valuestring a = valuestring b /\ valuedouble a = valuedouble b /\ key a = key b /\
  map strip (child a) = map strip (child b).
Proof. destruct a, b; cbn [strip]. by intros [= ? -> -> -> -> ?]. Qed.

Section CompareFacts.
  Context (cs : bool) (fuel : nat).
  Context (IH : forall a b, comparable cs a = true -> strip a = strip b -> (nodes a <= fuel)%nat ->
                  snowflake_cJSON_Compare fuel (Some a) (Some b) cs = Done true).

Abbreviation cmp := (fun x y => snowflake_cJSON_Compare fuel x y cs).

Lemma compare_arrays_strip l1 l2 :
  map strip l1 = map strip l2 -> Forall (fun x => comparable cs x = true /\ (nodes x <= fuel)%nat) l1 ->
  compare_arrays cmp l1 l2 = Done true.
Proof.
  revert l2. induction l1 as [|x l1 IHl]; intros [|y l2] E Hl; try discriminate; cbn; [done|].
  injection E as Ex El. apply Forall_cons in Hl as [[Hc Hn] Hl].
  rewrite IH by done. cbn. by apply IHl.
Qed.

Lemma compare_members_strip ja jb l1 l2 pre :
  map strip (child jb) = map strip (child ja) -> members_distinct cs (child ja) = true ->
  child ja = pre ++ l1 -> map strip l1 = map strip l2 ->
  Forall (fun x => comparable cs x = true /\ (nodes x <= fuel)%nat) l2 ->
  compare_members cmp cs l2 jb = Done true.
Proof.
  intros Eb Hd. revert pre l2. induction l1 as [|x l1 IHl]; intros pre [|y l2] Ea E Hl; try discriminate; cbn [compare_members]; [done|].
  injection E as Ex El. apply Forall_cons in Hl as [[Hc Hn] Hl].
  assert (exists k, key x = Some k /\ object_index (child ja) k cs = Done (Some (length pre))) as (k & Hk & Hidx).
  { unfold members_distinct in Hd. rewrite forallb_forall in Hd.
    specialize (Hd (length pre)). rewrite Ea, length_app in Hd. cbn [length] in Hd.
    specialize (Hd ltac:(apply in_seq; lia)).
    rewrite list_lookup_middle in Hd by done. cbn in Hd.
    destruct (key x) as [k|]; [|done]. apply bool_decide_eq_true in Hd. exists k. by rewrite Ea. }
  destruct (strip_fields _ _ Ex) as (_ & _ & Hkey & _).
  rewrite <- Hkey, Hk. cbn [get_object_item].
  rewrite <- (strip_keys (child jb)), Eb, strip_keys, Hidx. cbn.
  assert (exists z, child jb !! length pre = Some z /\ strip z = strip x) as (z & Hz & Ez).
  { assert (map strip (child jb) !! length pre = Some (strip x)) as Hl'.
    { rewrite Eb, Ea, map_app, lookup_app_r; rewrite length_map; [|lia].
      by rewrite Nat.sub_diag. }
    apply list_lookup_fmap_Some in Hl' as (z & -> & ?). by exists z. }
  rewrite Hz. cbn. rewrite IH by congruence. cbn.
  apply (IHl (pre ++ [x])); [|done|done]. by rewrite <- app_assoc.
Qed.
End CompareFacts.

Lemma nodes_strip j : nodes (strip j) = nodes j.
Proof.
  induction j as [t vs vi vd k ch IH] using cJSON_ind'. cbn. do 2 f_equal.
  rewrite map_map. by apply map_ext_Forall.
Qed.

Lemma members_distinct_strip cs l : members_distinct cs (map strip l) = members_distinct cs l.
Proof.
  unfold members_distinct. rewrite length_map.
  assert (forall i, key <$> map strip l !! i = key <$> l !! i) as H.
  { intros i. rewrite list_lookup_fmap. destruct (l !! i) as [[]|]; done. }
  induction (seq 0 (length l)) as [|i ids IHi]; cbn [forallb]; [done|].
  rewrite H, IHi. destruct (key <$> l !! i) as [[k|]|]; [|done..].
  by rewrite strip_keys.
Qed.

Lemma comparable_strip cs j : comparable cs (strip j) = comparable cs j.
Proof.
  induction j as [t vs vi vd k ch IH] using cJSON_ind'.
  pose proof (type_strip (mk_cJSON t vs vi vd k ch)) as Ht. cbn [strip comparable type] in *.
  rewrite Ht. cbn [valuestring valuedouble child].
  rewrite members_distinct_strip. f_equal.
  clear Ht. induction IH as [|c ch Hc _ IHch]; cbn; [done|]. by rewrite Hc, IHch.
Qed.

Lemma nodes_children j : Forall (fun c => (nodes c <= pred (nodes j))%nat) (child j).
Proof. apply Forall_forall. intros c Hc. pose proof (nodes_child j c Hc). lia. Qed.

Lemma Compare_strip cs fuel a b :
  comparable cs a = true -> strip a = strip b -> (nodes a <= fuel)%nat ->
  snowflake_cJSON_Compare fuel (Some a) (Some b) cs = Done true.
Proof.
  revert a b. induction fuel as [|fuel IH]; intros a b Hc E Hn; [destruct a; cbn in Hn; lia|].
  pose proof (strip_type _ _ E) as Ht. destruct (strip_fields _ _ E) as (Evs & Evd & _ & Ech).
  assert (comparable cs b = true) as Hcb by (by rewrite <- comparable_strip, <- E, comparable_strip).
  assert (nodes b <= S fuel)%nat as Hnb by (by rewrite <- nodes_strip, <- E, nodes_strip).
  assert (forall j, comparable cs j = true -> (nodes j <= S fuel)%nat ->
    Forall (fun x => comparable cs x = true /\ (nodes x <= fuel)%nat) (child j)) as Hsub.
  { intros j Hj Hnj. apply Forall_forall. intros x Hx. destruct j as [? ? ? ? ? ch].
    cbn [comparable child] in *. apply andb_true_iff in Hj as [_ Hj]. rewrite forallb_forall in Hj.
    split; [apply Hj; by apply list_elem_of_In|]. pose proof (nodes_child (mk_cJSON type0 valuestring0 valueint0 valuedouble0 key0 ch) x Hx). lia. }
  pose proof (Hsub a Hc Hn) as Ha. pose proof (Hsub b Hcb Hnb) as Hb.
  cbn [snowflake_cJSON_Compare]. rewrite <- Ht, <- Evs, <- Evd, Z.eqb_refl. cbn [negb orb].
  destruct a as [t vs vi vd k ch]. cbn [comparable type valuestring valuedouble child] in *.
  apply andb_true_iff in Hc as [Hc _]. do 3 apply andb_true_iff in Hc as [Hc ?].
  rewrite Hc. cbn [negb]. unfold snowflake_cJSON_IsInvalid, has_type; cbn [type].
  destruct (Z.land t 255 =? cJSON_Invalid) eqn:E0; [apply Z.eqb_eq in E0; by rewrite E0 in Hc|].
  destruct (_ || _ || _) eqn:E1; [done|].
  destruct (_ =? cJSON_Number) eqn:E2; [by f_equal|].
  destruct (_ || _) eqn:E3; [destruct vs; [by rewrite String.eqb_refl|done]|].
  destruct (_ =? cJSON_Array) eqn:EA; [by apply compare_arrays_strip|].
  assert (Z.land t 255 =? cJSON_Object = true) as EO.
  { unfold valid_type in Hc. cbn [existsb] in Hc. lia. }
  rewrite EO in *.
  rewrite (compare_members_strip cs fuel IH (mk_cJSON t vs vi vd k ch) b ch ch []) by done. cbn.
  by apply (compare_members_strip cs fuel IH (mk_cJSON t vs vi vd k ch) (mk_cJSON t vs vi vd k ch) ch (child b) []).
Qed.

Definition all_hooks : Z -> bool := fun _ => true.

Lemma dup_field_all b s : dup_field all_hooks b s = Some s.
Proof. by destruct s, b. Qed.

Lemma Duplicate_strip j : snowflake_cJSON_Duplicate all_hooks j true = Some (strip j).
Proof.
  induction j as [t vs vi vd k ch IH] using cJSON_ind'. cbn [snowflake_cJSON_Duplicate type valuestring key].
  change (cJSON_New_Item all_hooks) with (Some (mk_cJSON 0 None 0 zero_double None [])). cbn [child strip].
  rewrite !dup_field_all. f_equal. set (loop := fix loop (chs : list cJSON) := _).
  assert (loop ch = Some (map strip ch)) as ->; [|done].
  induction IH as [|c ch Hc _ IHch]; cbn; [done|]. by rewrite Hc, IHch.
Qed.

(** Two names that match the same name match each other. *)
Lemma tolower_nul c : code (tolower c) = 0 -> code c = 0.
Proof. by destruct c as [[] [] [] [] [] [] [] []]. Qed.

Lemma case_cmp_common k : forall a b, no_nul a = true -> no_nul b = true -> case_cmp a k = 0 -> case_cmp b k = 0 -> case_cmp a b = 0.
Proof.
  induction k as [|e k IH]; intros [|c a] [|d b] Hna Hnb Ha Hb; cbn [case_cmp] in *; try done.
  all: unfold no_nul in *; cbn [str_all] in *.
  all: try (apply andb_prop in Hna as [Hc Hna]; pose proof (tolower_nul c); lia).
  all: try (apply andb_prop in Hnb as [Hd Hnb]; pose proof (tolower_nul d); lia).
  - destruct (code (tolower d) =? code (tolower e)) eqn:E; lia.
  - destruct (code (tolower c) =? code (tolower e)) eqn:E; lia.
  - apply andb_prop in Hna as [_ Hna]. apply andb_prop in Hnb as [_ Hnb].
    destruct (code (tolower c) =? code (tolower e)) eqn:E1; [|lia]. destruct (code (tolower d) =? code (tolower e)) eqn:E2; [|lia].
    replace (code (tolower c) =? code (tolower d)) with true by lia. by apply IH.
Qed.

(** Detaching one member does not change what another name finds. *)
Lemma get_detach_other o a b : no_nul a = true -> no_nul b = true -> case_cmp a b <> 0 ->
  snowflake_cJSON_GetObjectItem (fst (snowflake_cJSON_DetachItemFromObject (Some o) a)) b = snowflake_cJSON_GetObjectItem (Some o) b.
Proof.
  intros Hna Hnb Hab. unfold snowflake_cJSON_DetachItemFromObject, snowflake_cJSON_DetachItemViaPointer.
  destruct (find_ci (child o) a) as [i|] eqn:E; [|done]. destruct (find_ci_Some _ _ _ E) as (l1 & c & l2 & Ec & -> & Hc & _).
  rewrite Ec, list_lookup_middle by done. rewrite delete_middle. unfold snowflake_cJSON_GetObjectItem. cbn [fst child set_child]. rewrite Ec. clear E Ec.
  assert (case_insensitive_strcmp (Some b) (key c) =? 0 = false) as Hb.
  { unfold case_insensitive_strcmp in *. destruct (key c) as [k|]; [|done]. apply Z.eqb_neq. intros Hb. apply Hab. by apply (case_cmp_common k). }
  induction l1 as [|d l1 IH]; cbn [app find_ci].
  - rewrite Hb. by destruct (find_ci l2 b).
  - destruct (case_insensitive_strcmp (Some b) (key d) =? 0); [done|]. destruct (find_ci (l1 ++ l2) b), (find_ci (l1 ++ c :: l2) b); exact IH.
Qed.

(** ** The properties *)

(** detaching a member by name removes exactly the first child whose name
    matches without regard to case and returns it (the item [GetObjectItem] finds);
    every other child stays, in order; without a match the object is unchanged
    and NULL is returned. *)
Theorem detach_from_object_correct o name :
  match snowflake_cJSON_DetachItemFromObject (Some o) name with
  | (o', Some c) =>
      exists l1 l2, child o = l1 ++ c :: l2 /\ o' = Some (set_child (l1 ++ l2) o) /\
        snowflake_cJSON_GetObjectItem (Some o) name = Some c /\
        case_insensitive_strcmp (Some name) (key c) = 0 /\
        Forall (fun d => case_insensitive_strcmp (Some name) (key d) <> 0) l1
  | (o', None) => o' = Some o /\ snowflake_cJSON_GetObjectItem (Some o) name = None
  end.
Proof.
  unfold snowflake_cJSON_DetachItemFromObject, snowflake_cJSON_DetachItemViaPointer, snowflake_cJSON_GetObjectItem.
  destruct (find_ci (child o) name) as [i|] eqn:E; [|done].
  destruct (find_ci_Some _ _ _ E) as (l1 & c & l2 & Ec & -> & Hc & Hl). cbn.
  rewrite Ec, !list_lookup_middle by done.
  exists l1, l2. split_and!; auto. by rewrite delete_middle.
Qed.

(** after [AddItemToObject] with a served key copy, looking the name up finds
    the old first match if there was one and otherwise the added item with that
    name and an owned key; every name that does not match is looked up as before. *)
Theorem add_item_to_object_correct hooks o name it :
  hooks (strlen name + 1) = true ->
  exists o', snowflake_cJSON_AddItemToObject hooks (Some o) (Some name) (Some it) = Some o' /\
    (forall n, case_insensitive_strcmp (Some n) (Some name) <> 0 ->
       snowflake_cJSON_GetObjectItem (Some o') n = snowflake_cJSON_GetObjectItem (Some o) n) /\
    (forall n, case_insensitive_strcmp (Some n) (Some name) = 0 ->
       match snowflake_cJSON_GetObjectItem (Some o) n with
       | Some c => snowflake_cJSON_GetObjectItem (Some o') n = Some c
       | None => exists c, snowflake_cJSON_GetObjectItem (Some o') n = Some c /\ key c = Some name /\
           valuestring c = valuestring it /\ child c = child it /\ valuedouble c = valuedouble it /\
           Z.testbit (type c) 9 = false
       end).
Proof.
  intros Hh. rewrite AddItemToObject_child by done. eexists. split; [done|].
  set (c := set_type _ _).
  assert (forall n, snowflake_cJSON_GetObjectItem (Some (set_child (child o ++ [c]) o)) n =
    match snowflake_cJSON_GetObjectItem (Some o) n with
    | Some d => Some d
    | None => if case_insensitive_strcmp (Some n) (Some name) =? 0 then Some c else None
    end) as H.
  { intros n. unfold snowflake_cJSON_GetObjectItem; cbn [child set_child]. rewrite find_ci_app.
    destruct (find_ci (child o) n) as [i|] eqn:E.
    - destruct (find_ci_Some _ _ _ E) as (l1 & d & l2 & -> & -> & _).
      cbn [option_bind mbind]. rewrite <- app_assoc. cbn. by rewrite !list_lookup_middle.
    - cbn [find_ci]. change (key c) with (Some name). destruct (_ =? 0); cbn; [|done].
      rewrite Nat.add_0_r. by rewrite list_lookup_middle. }
  split; intros n Hn; rewrite H.
  - apply Z.eqb_neq in Hn. rewrite Hn. by destruct (snowflake_cJSON_GetObjectItem _ _).
  - destruct (snowflake_cJSON_GetObjectItem (Some o) n) as [d|]; [done|].
    rewrite Hn. exists c. split_and!; try done.
    subst c. unfold set_type, clear_flag. cbn [type]. by rewrite Z.ldiff_spec, andb_false_r.
Qed.

(** when every allocation is served, a recursive duplicate is the same tree
    with the [IsReference] bits cleared (keys, strings, numbers and order of
    children included), and [Compare] finds the two equal, in either direction,
    for every tree without NaN numbers, missing strings or names that shadow each
    other. *)
Theorem duplicate_compare_correct case_sensitive j :
  comparable case_sensitive j = true ->
  snowflake_cJSON_Duplicate all_hooks j true = Some (strip j) /\
  snowflake_cJSON_Compare (nodes j) (Some j) (snowflake_cJSON_Duplicate all_hooks j true) case_sensitive = Done true /\
  snowflake_cJSON_Compare (nodes j) (snowflake_cJSON_Duplicate all_hooks j true) (Some j) case_sensitive = Done true.
Proof.
  intros Hc. rewrite Duplicate_strip. split; [done|].
  assert (strip (strip j) = strip j) as E.
  { clear. induction j as [t vs vi vd k ch IH] using cJSON_ind'. cbn. f_equal.
    - unfold clear_flag. apply Z.bits_inj'; intros n Hn. rewrite !Z.ldiff_spec.
      destruct (Z.testbit t n), (Z.testbit cJSON_IsReference n); done.
    - rewrite map_map. by apply map_ext_Forall. }
  split; apply Compare_strip; rewrite ?comparable_strip, ?nodes_strip; auto.
Qed.

Definition sample_object : cJSON :=
  mk_cJSON cJSON_Object None 0 zero_double None
    [mk_cJSON cJSON_Number None 7 (double_of_Z 7) (Some "code") [];
     mk_cJSON (cJSON_Array + cJSON_IsReference) None 0 zero_double (Some "data")
       [mk_cJSON cJSON_String (Some "x") 0 zero_double None [];
        mk_cJSON cJSON_NULL None 0 zero_double None []]].

Lemma add_item_to_object_correct_witness :
  all_hooks (strlen "Success" + 1) = true /\
  exists o', snowflake_cJSON_AddItemToObject all_hooks (Some sample_object) (Some "Success")
      (snowflake_cJSON_CreateTrue all_hooks) = Some o' /\
    snowflake_cJSON_GetObjectItem (Some o') "CODE" = snowflake_cJSON_GetObjectItem (Some sample_object) "CODE".
Proof.
  split; [done|].
  destruct (add_item_to_object_correct all_hooks sample_object "Success"
              (set_type cJSON_True (mk_cJSON 0 None 0 zero_double None [])) eq_refl) as (o' & Ho & H & _).
  exists o'. split; [exact Ho|]. apply H. vm_compute. discriminate.
Defined.

Lemma duplicate_compare_correct_witness :
  comparable true sample_object = true /\
  snowflake_cJSON_Compare (nodes sample_object) (Some sample_object)
    (snowflake_cJSON_Duplicate all_hooks sample_object true) true = Done true.
Proof.
  split; [vm_compute; reflexivity|].
  apply (duplicate_compare_correct true sample_object). vm_compute. reflexivity.
Defined.
