(* ===== verification/CJsonPrint.v ===== *)
(** * lib/cJSON.c: printing a tree into a growing buffer.

    The print buffer is modelled byte by byte: [buffer] is the allocated block
    ([None] in a cell: never written), [plen] the C field [length], and a store or
    read outside the block, a read of an unwritten cell and a second [free] are
    [Undef].  [render] is the specification: the text of a tree. *)

From S2P Require Import Prelude CLib CFloat CJson.

Record internal_hooks := mk_hooks {
  allocate : Z -> bool;             (* is a request of that many bytes served? *)
  reallocate : option (Z -> bool)   (* [None]: the user's hooks have no realloc *)
}.

Record printbuffer := mk_pb {
  buffer : option (list (option ascii));
  plen : nat;
  offset : nat;
  depth : nat;
  noalloc : bool;
  format : bool;
  freed : bool      (* [buffer] was passed to [deallocate] and still points there *)
}.

Definition set_buffer b n p := mk_pb b n (offset p) (depth p) (noalloc p) (format p) (freed p).
Definition set_offset o p := mk_pb (buffer p) (plen p) o (depth p) (noalloc p) (format p) (freed p).
Definition set_depth d p := mk_pb (buffer p) (plen p) (offset p) d (noalloc p) (format p) (freed p).
Definition set_freed p := mk_pb (buffer p) (plen p) (offset p) (depth p) (noalloc p) (format p) true.

(** A step on the print buffer; [None] is the C functions' [false] (or a NULL
    pointer from [ensure]), after which every caller returns [false] too. *)
Definition PM (A : Type) : Type := printbuffer -> outcome (option A * printbuffer).

#[export] Instance PM_ret : MRet PM := fun A a p => Done (Some a, p).
#[export] Instance PM_bind : MBind PM := fun A B f m p =>
  match m p with
  | Done (Some a, p) => f a p
  | Done (None, p) => Done (None, p)
  | Undef => Undef
  | NoFuel => NoFuel
  end.
Definition PM_fail {A} : PM A := fun p => Done (None, p).
Definition modify (f : printbuffer -> printbuffer) : PM unit := fun p => Done (Some tt, f p).
Definition get_pb : PM printbuffer := fun p => Done (Some p, p).

(** ** Bytes *)

Definition nul : ascii := chr 0.
#[global] Arguments nul : simpl never.
Definition bytes (s : string) : list (option ascii) := Some <$> list_ascii_of_string s.

Definition write_at (m : list (option ascii)) (off : nat) (l : list (option ascii))
  : outcome (list (option ascii)) :=
  if (off + length l <=? length m)%nat
  then Done (take off m ++ l ++ drop (off + length l) m)
  else Undef.

(** [strlen]: the characters up to the first NUL. *)
Fixpoint read_cstr (m : list (option ascii)) : outcome string :=
  match m with
  | Some c :: m => if code c =? 0 then Done EmptyString else s ← read_cstr m; Done (String c s)
  | _ => Undef
  end.

Section Print.
  Context (hooks : internal_hooks).

(** [ensure]: at least [needed + 1] bytes from [offset], growing the block if it
    may. *)
Definition ensure (needed : nat) : PM unit := fun p =>
  match buffer p with
  | None => Done (None, p)
  | Some m =>
      if (0 <? plen p)%nat && (plen p <=? offset p)%nat then Done (None, p)
      else if Z.of_nat needed >? INT_MAX then Done (None, p)
      else
        let needed := (needed + (offset p + 1))%nat in
        if (needed <=? plen p)%nat then Done (Some tt, p)
        else if noalloc p then Done (None, p)
        else if (Z.of_nat needed >? INT_MAX / 2) && negb (Z.of_nat needed <=? INT_MAX) then Done (None, p)
        else
          let newsize := if Z.of_nat needed >? INT_MAX / 2 then Z.to_nat INT_MAX else (needed * 2)%nat in
          match reallocate hooks with
          | Some serve =>
              if serve (Z.of_nat newsize)
              then Done (Some tt, set_buffer
                     (Some (take newsize m ++ replicate (newsize - length m) None)) newsize p)
              else Done (None, set_buffer None 0 p)
          | None =>
              if allocate hooks (Z.of_nat newsize) then
                if (offset p + 1 <=? length m)%nat
                then Done (Some tt, set_buffer
                       (Some (take (offset p + 1) m ++ replicate (newsize - (offset p + 1)) None)) newsize p)
                else Undef
              else Done (None, set_buffer None 0 p)
          end
  end.

(** Consecutive stores through the pointer [ensure] returned. *)
Definition store (l : list (option ascii)) : PM unit := fun p =>
  match buffer p with
  | Some m => m' ← write_at m (offset p) l; Done (Some tt, set_buffer (Some m') (plen p) p)
  | None => Undef
  end.

Definition advance (n : nat) : PM unit := modify (fun p => set_offset (offset p + n) p).

(** The shape of every output step: reserve, store, advance [offset]. *)
Definition emit (needed : nat) (l : list (option ascii)) (n : nat) : PM unit :=
  ensure needed ;; store l ;; advance n.

Definition update_offset : PM unit := fun p =>
  match buffer p with
  | None => Done (Some tt, p)
  | Some m =>
      s ← read_cstr (drop (offset p) m);
      Done (Some tt, set_offset (offset p + String.length s) p)
  end.

(** *** Numbers *)

Definition number_text (d : double) : string :=
  if negb (SFeqb (SFmul 53 1024 d zero_double) zero_double) then "null"
  else
    let s := fmt_g 15 d in
    let test := strtod s in
    if (sd_end test =? 0)%nat || negb (SFeqb (sd_val test) d) then fmt_g 17 d else s.

Definition print_number (item : cJSON) : PM unit :=
  let s := number_text (valuedouble item) in
  if (25 <? String.length s)%nat then PM_fail
  else emit (String.length s) (bytes s ++ [Some nul]) (String.length s).

(** *** Strings *)

Definition is_simple_escape (c : ascii) : option ascii :=
  match code c with
  | 34 => Some (chr 34)
  | 92 => Some (chr 92)
  | 8 => Some "b"%char
  | 12 => Some "f"%char
  | 10 => Some "n"%char
  | 13 => Some "r"%char
  | 9 => Some "t"%char
  | _ => None
  end.

(** The counting pass. *)
Fixpoint escape_characters (s : string) : nat :=
  match s with
  | EmptyString => O
  | String c s =>
      ((match is_simple_escape c with Some _ => 1 | None => if (code c <? 32)%Z then 5 else 0 end)
       + escape_characters s)%nat
  end.

Definition hex_digit (z : Z) : ascii := chr (if z <? 10 then 48 + z else 87 + z).
(** [u%04x] of a byte. *)
Definition u_04x (c : ascii) : string :=
  String "u" (String "0" (String "0"
    (String (hex_digit (code c / 16)) (String (hex_digit (code c mod 16)) EmptyString)))).

Definition backslash : ascii := chr 92.
Definition quote : ascii := chr 34.

(** The escaping pass from [pos] on: [sprintf] also stores its NUL, which the
    next store overwrites. *)
Fixpoint escape_loop (s : string) (m : list (option ascii)) (pos : nat)
  : outcome (list (option ascii)) :=
  match s with
  | EmptyString => Done m
  | String c s =>
      if (code c >? 31) && negb (code c =? 34) && negb (code c =? 92) then
        m ← write_at m pos [Some c]; escape_loop s m (pos + 1)
      else
        m ← write_at m pos [Some backslash];
        match is_simple_escape c with
        | Some e => m ← write_at m (pos + 1) [Some e]; escape_loop s m (pos + 2)
        | None =>
            m ← write_at m (pos + 1) (bytes (u_04x c) ++ [Some nul]); escape_loop s m (pos + 6)
        end
  end.

Definition print_string_ptr (input : option string) : PM unit :=
  match input with
  | None => emit 3 [Some quote; Some quote; Some nul] 0
  | Some s =>
      let escapes := escape_characters s in
      let output_length := (String.length s + escapes)%nat in
      ensure (output_length + 3) ;;
      if (escapes =? 0)%nat then store (Some quote :: bytes s ++ [Some quote; Some nul])
      else
        fun p =>
          m ← deref (buffer p);
          m ← write_at m (offset p) [Some quote];
          m ← escape_loop s m (offset p + 1);
          m ← write_at m (offset p + output_length + 1) [Some quote; Some nul];
          Done (Some tt, set_buffer (Some m) (plen p) p)
  end.

Definition print_string (item : cJSON) : PM unit := print_string_ptr (valuestring item).

(** *** Arrays and objects *)

Definition tabs (n : nat) : list (option ascii) := replicate n (Some (chr 9)).

Section Loops.
  Context (print_value : cJSON -> PM unit).

Fixpoint print_elements (l : list cJSON) : PM unit :=
  match l with
  | [] => mret tt
  | x :: rest =>
      print_value x ;;
      update_offset ;;
      match rest with
      | [] => mret tt
      | _ =>
          p ← get_pb;
          let len := if format p then 2%nat else 1%nat in
          emit (len + 1) (Some ","%char :: (if format p then [Some " "%char] else []) ++ [Some nul]) len
      end ;;
      print_elements rest
  end.

Definition print_array (l : list cJSON) : PM unit :=
  emit 1 [Some "["%char] 1 ;;
  modify (fun p => set_depth (depth p + 1) p) ;;
  print_elements l ;;
  emit 2 [Some "]"%char; Some nul] 0 ;;
  modify (fun p => set_depth (depth p - 1) p).

Fixpoint print_members (l : list cJSON) : PM unit :=
  match l with
  | [] => mret tt
  | x :: rest =>
      p ← get_pb;
      (if format p then emit (depth p) (tabs (depth p)) (depth p) else mret tt) ;;
      print_string_ptr (key x) ;;
      update_offset ;;
      (let len := if format p then 2%nat else 1%nat in
       emit len (Some ":"%char :: (if format p then [Some (chr 9)] else [])) len) ;;
      print_value x ;;
      update_offset ;;
      (let comma := match rest with [] => [] | _ => [Some ","%char] end in
       let newline := if format p then [Some (chr 10)] else [] in
       let len := (length newline + length comma)%nat in
       emit (len + 1) (comma ++ newline ++ [Some nul]) len) ;;
      print_members rest
  end.

Definition print_object (l : list cJSON) : PM unit :=
  p ← get_pb;
  (let len := if format p then 2%nat else 1%nat in
   emit (len + 1) (Some "{"%char :: (if format p then [Some (chr 10)] else [])) len) ;;
  modify (fun p => set_depth (depth p + 1) p) ;;
  print_members l ;;
  p ← get_pb;
  emit (if format p then depth p + 1 else 2)%nat
    ((if format p then tabs (depth p - 1) else []) ++ [Some "}"%char; Some nul]) 0 ;;
  modify (fun p => set_depth (depth p - 1) p).
End Loops.

Fixpoint print_value (item : cJSON) : PM unit :=
  let t := Z.land (type item) 255 in
  if t =? cJSON_NULL then emit 5 (bytes "null" ++ [Some nul]) 0
  else if t =? cJSON_False then emit 6 (bytes "false" ++ [Some nul]) 0
  else if t =? cJSON_True then emit 5 (bytes "true" ++ [Some nul]) 0
  else if t =? cJSON_Number then print_number item
  else if t =? cJSON_Raw then
    match valuestring item with
    | None => p ← get_pb; if noalloc p then PM_fail else modify set_freed ;; PM_fail
    | Some s => emit (String.length s + 1) (bytes s ++ [Some nul]) 0
    end
  else if t =? cJSON_String then print_string item
  else if t =? cJSON_Array then print_array print_value (child item)
  else if t =? cJSON_Object then print_object print_value (child item)
  else PM_fail.

(** *** Entry points: the text, or NULL *)

(** [deallocate(p->buffer)] on the failure path. *)
Definition release (p : printbuffer) : outcome (option string) :=
  match buffer p with
  | Some _ => if freed p then Undef else Done None
  | None => Done None
  end.

Definition print (item : cJSON) (fmt : bool) : outcome (option string) :=
  if allocate hooks 256 then
    let p := mk_pb (Some (replicate 256 None)) 0 0 0 false fmt false in
    r ← (print_value item ;; update_offset) p;
    match r with
    | (None, p) => release p
    | (Some _, p) =>
        m ← deref (buffer p);
        match reallocate hooks with
        | Some serve =>
            if serve (Z.of_nat (plen p))
            then s ← read_cstr (take (plen p) m ++ replicate (plen p - length m) None); Done (Some s)
            else Done None
        | None =>
            if allocate hooks (Z.of_nat (offset p + 1)) then
              let n := (if plen p <? offset p + 1 then plen p else offset p + 1)%nat in
              if (n <=? length m)%nat then
                m' ← write_at (take n m ++ replicate (offset p + 1 - n) None) (offset p) [Some nul];
                s ← read_cstr m'; Done (Some s)
              else Undef
            else release p
        end
    end
  else Done None.

Definition snowflake_cJSON_Print (item : cJSON) := print item true.
Definition snowflake_cJSON_PrintUnformatted (item : cJSON) := print item false.

Definition snowflake_cJSON_PrintBuffered (item : cJSON) (prebuffer : Z) (fmt : bool)
  : outcome (option string) :=
  if prebuffer <? 0 then Done None
  else if allocate hooks prebuffer then
    let n := Z.to_nat prebuffer in
    r ← print_value item (mk_pb (Some (replicate n None)) n 0 0 false fmt false);
    match r with
    | (None, p) => release p
    | (Some _, p) => m ← deref (buffer p); s ← read_cstr m; Done (Some s)
    end
  else Done None.

(** [buf] holds [len] bytes: the C function's result and the text in [buf] after
    success. *)
Definition snowflake_cJSON_PrintPreallocated (item : cJSON) (buf : option (list (option ascii))) (len : Z)
    (fmt : bool) : outcome (option string) :=
  match buf with
  | Some m =>
      if len <? 0 then Done None
      else
        r ← print_value item (mk_pb (Some m) (Z.to_nat len) 0 0 true fmt false);
        match r with
        | (None, p) => Done None
        | (Some _, p) => m ← deref (buffer p); s ← read_cstr m; Done (Some s)
        end
  | None => Done None
  end.
End Print.

(** ** Specification: the text of a tree *)

Fixpoint escape (s : string) : string :=
  match s with
  | EmptyString => EmptyString
  | String c s =>
      if (code c >? 31) && negb (code c =? 34) && negb (code c =? 92) then String c (escape s)
      else
        match is_simple_escape c with
        | Some e => String backslash (String e (escape s))
        | None => String backslash (u_04x c +:+ escape s)
        end
  end.

Definition quoted (s : option string) : string :=
  String quote ((match s with Some s => escape s | None => EmptyString end) +:+ String quote EmptyString).

Fixpoint tab_string (n : nat) : string :=
  match n with
  | O => EmptyString
  | S n => String (chr 9) (tab_string n)
  end.

Definition opt_app (a b : option string) : option string :=
  match a, b with Some a, Some b => Some (a +:+ b) | _, _ => None end.
Infix "+?+" := opt_app (right associativity, at level 60) : sf_scope.
#[local] Open Scope sf_scope.

Section Render.
  Context (fmt : bool).
  Abbreviation fmt_only s := (if fmt then s else EmptyString).
Definition tab_s : string := String (chr 9) EmptyString.
Definition newline_s : string := String (chr 10) EmptyString.

Section RenderLoops.
  Context (render : cJSON -> option string).
Fixpoint render_elements (l : list cJSON) : option string :=
  match l with
  | [] => Some ""
  | x :: rest =>
      render x +?+ Some (match rest with [] => "" | _ => "," +:+ fmt_only " " end) +?+ render_elements rest
  end.
Fixpoint render_members (d : nat) (l : list cJSON) : option string :=
  match l with
  | [] => Some ""
  | x :: rest =>
      Some (fmt_only (tab_string d)) +?+ Some (quoted (key x)) +?+ Some (":" +:+ fmt_only tab_s) +?+ render x
      +?+ Some ((match rest with [] => "" | _ => "," end) +:+ fmt_only newline_s) +?+ render_members d rest
  end.
End RenderLoops.

(** [None]: the tree has a node of no JSON type, a raw node without text or a
    number whose text does not fit the printer's 26-byte buffer. *)
Fixpoint render (d : nat) (j : cJSON) : option string :=
  let t := Z.land (type j) 255 in
  if t =? cJSON_NULL then Some "null"
  else if t =? cJSON_False then Some "false"
  else if t =? cJSON_True then Some "true"
  else if t =? cJSON_Number then
    let s := number_text (valuedouble j) in if (25 <? String.length s)%nat then None else Some s
  else if t =? cJSON_Raw then valuestring j
  else if t =? cJSON_String then Some (quoted (valuestring j))
  else if t =? cJSON_Array then
    Some "[" +?+ render_elements (render (d + 1)) (child j) +?+ Some "]"
  else if t =? cJSON_Object then
    Some ("{" +:+ fmt_only newline_s) +?+ render_members (render (d + 1)) (d + 1) (child j)
    +?+ Some (fmt_only (tab_string d) +:+ "}")
  else None.
End Render.

(** The strings of a C tree hold no NUL, and raw nodes have text. *)
Fixpoint c_tree (j : cJSON) : bool :=
  match valuestring j with
  | Some s => no_nul s
  | None => negb (Z.land (type j) 255 =? cJSON_Raw)
  end
  && match key j with Some s => no_nul s | None => true end
  && forallb c_tree (child j).

Definition print_sample : cJSON :=
  mk_cJSON cJSON_Object None 0 zero_double None
    [mk_cJSON cJSON_Number None 0 (sd_val (strtod "0.1")) (Some "a") [];
     mk_cJSON cJSON_Array None 0 zero_double (Some (String (chr 7) (String quote "b")))
       [mk_cJSON cJSON_True None 1 zero_double None [];
        mk_cJSON cJSON_Object None 0 zero_double None []]].
Definition libc_hooks : internal_hooks := mk_hooks (fun _ => true) (Some (fun _ => true)).
Definition copy_hooks : internal_hooks := mk_hooks (fun _ => true) None.

Example print_sample_text : snowflake_cJSON_PrintUnformatted libc_hooks print_sample
  = Done (Some ("{" +:+ quoted (Some "a") +:+ ":0.1,"
       +:+ quoted (Some (String (chr 7) (String quote "b"))) +:+ ":[true,{}]}")).
Proof. vm_compute. reflexivity. Qed.
Example print_sample_fmt : snowflake_cJSON_Print copy_hooks print_sample = Done (render true 0 print_sample).
Proof. vm_compute. reflexivity. Qed.

(** ** Facts: bytes in a block *)

Lemma bytes_length s : length (bytes s) = String.length s.
Proof. unfold bytes. rewrite length_fmap. induction s; cbn; congruence. Qed.

Lemma bytes_app s t : bytes (s +:+ t) = bytes s ++ bytes t.
Proof. induction s; cbn; [done|]. f_equal. exact IHs. Qed.

Lemma tabs_bytes n : tabs n = bytes (tab_string n).
Proof. induction n; cbn; [done|]. by f_equal. Qed.

Lemma tab_string_length n : String.length (tab_string n) = n.
Proof. induction n; cbn; congruence. Qed.

Lemma tab_string_no_nul n : no_nul (tab_string n) = true.
Proof. by induction n. Qed.

Lemma write_at_prefix m off l :
  (off + length l <= length m)%nat ->
  exists rest, write_at m off l = Done (take off m ++ l ++ rest)
    /\ length (take off m ++ l ++ rest) = length m.
Proof.
  intros H. unfold write_at. destruct (_ <=? _)%nat eqn:E; [|apply Nat.leb_gt in E; lia].
  eexists; split; [done|]. rewrite !length_app, length_take, length_drop. lia.
Qed.

Lemma read_cstr_bytes s rest :
  no_nul s = true -> read_cstr (bytes s ++ Some nul :: rest) = Done s.
Proof.
  induction s as [|c s IH]; [done|]. intros H. cbn in H. apply andb_true_iff in H as [Hc Hs].
  change (bytes (String c s)) with (Some c :: bytes s). cbn [app read_cstr].
  destruct (code c =? 0); [done|]. by rewrite IH.
Qed.

Lemma str_app_empty_l (s : string) : "" +:+ s = s.
Proof. reflexivity. Qed.

(** ** The calculus of output steps

    [okp p T]: the first [offset] bytes are the text [T].  [pend p T]: [T] and a
    NUL are in the block, [offset] somewhere before the NUL; [update_offset] turns
    it into [okp]. *)

Definition serves (hooks : internal_hooks) : Prop :=
  match reallocate hooks with
  | Some f => forall n, f n = true
  | None => forall n, allocate hooks n = true
  end.

(** The buffer can come to hold [k] bytes. *)
Definition room (hooks : internal_hooks) (p : printbuffer) (k : nat) : Prop :=
  Z.of_nat k <= INT_MAX /\ ((k <= plen p)%nat \/ (noalloc p = false /\ serves hooks)).

Definition okp (hooks : internal_hooks) (p : printbuffer) (T : string) : Prop :=
  exists m, buffer p = Some m /\ freed p = false /\ offset p = String.length T /\
    no_nul T = true /\ take (offset p) m = bytes T /\
    ((plen p = length m /\ (offset p < plen p)%nat) \/
     (plen p = 0%nat /\ offset p = 0%nat /\ (noalloc p = true \/ reallocate hooks <> None \/ (0 < length m)%nat))).

Definition pend (p : printbuffer) (T : string) : Prop :=
  exists m rest, buffer p = Some m /\ m = bytes T ++ Some nul :: rest /\ (offset p <= String.length T)%nat /\
    plen p = length m /\ freed p = false /\ no_nul T = true.

Definition same (p p' : printbuffer) : Prop :=
  format p' = format p /\ noalloc p' = noalloc p /\ depth p' = depth p.

Section Calculus.
  Context (hooks : internal_hooks).
  Abbreviation okp := (okp hooks).
  Abbreviation room := (room hooks).

Lemma room_le p k k' : (k' <= k)%nat -> room p k -> room p k'.
Proof. unfold CJsonPrint.room. intros H [? Hk]. split; [lia|]. destruct Hk; [left; lia|by right]. Qed.

Lemma ensure_ok p T n :
  okp p T ->
  exists r p', ensure hooks n p = Done (r, p') /\
    match r with
    | Some _ => exists m, buffer p' = Some m /\ plen p' = length m /\ (offset p + n + 1 <= length m)%nat /\
        take (offset p) m = bytes T /\ offset p' = offset p /\ freed p' = false /\ same p p' /\
        (forall k, room p k -> room p' k)
    | None => freed p' = false /\ ~ room p (offset p + n + 1)
    end.
Proof.
  intros (m & Hb & Hf & Ho & Hn & Ht & Hs). unfold ensure. rewrite Hb.
  assert ((0 <? plen p)%nat && (plen p <=? offset p)%nat = false) as ->.
  { apply andb_false_iff. rewrite Nat.ltb_ge, Nat.leb_gt. lia. }
  assert (offset p <= length m)%nat as Hle.
  { destruct Hs as [?|(?&->&?)]; lia. }
  destruct (_ >? INT_MAX) eqn:E1.
  { do 2 eexists; split; [done|]. split; [done|]. intros [? _]. lia. }
  destruct (_ <=? plen p)%nat eqn:E2.
  { apply Nat.leb_le in E2. do 2 eexists; split; [done|]. exists m.
    destruct Hs as [[Hl _]|(Hl & _)]; [|lia]. split_and!; auto; try lia. by unfold same. }
  apply Nat.leb_gt in E2.
  destruct (noalloc p) eqn:En.
  { do 2 eexists; split; [done|]. split; [done|]. unfold CJsonPrint.room. rewrite En. intros [_ [?|[? _]]]; [lia|done]. }
  destruct (_ && _) eqn:E3.
  { apply andb_true_iff in E3 as [_ E3]. apply negb_true_iff, Z.leb_gt in E3.
    do 2 eexists; split; [done|]. split; [done|]. intros [? _]. lia. }
  set (newsize := if _ >? INT_MAX / 2 then _ else _).
  assert (n + (offset p + 1) <= newsize)%nat as Hns.
  { unfold newsize. destruct (_ >? INT_MAX / 2) eqn:E4; [|lia].
    rewrite andb_true_l in E3. apply negb_false_iff, Z.leb_le in E3. lia. }
  assert (forall b k, room p k -> room (set_buffer b newsize p) k) as Hroom.
  { intros b k [? Hk]. split; [done|]. destruct Hk as [?|Hk]; [left; cbn; lia|by right]. }
  destruct (reallocate hooks) as [serve|] eqn:Er.
  - destruct (serve (Z.of_nat newsize)) eqn:Es.
    + do 2 eexists; split; [done|]. eexists. split; [done|].
      assert (length (take newsize m ++ replicate (newsize - length m) None) = newsize) as Hl.
      { rewrite length_app, length_take, length_replicate. lia. }
      rewrite Hl. split_and!; cbn; auto; try lia.
      * rewrite take_app_le by (rewrite length_take; lia). by rewrite take_take, Nat.min_l by lia.
      * by unfold same.
    + do 2 eexists; split; [done|]. split; [done|]. unfold CJsonPrint.room, serves. rewrite Er.
      intros [_ [?|[_ Hall]]]; [lia|]. by rewrite Hall in Es.
  - destruct (allocate hooks (Z.of_nat newsize)) eqn:Es.
    + assert (offset p + 1 <= length m)%nat as Hm.
      { destruct Hs as [?|(?&->&[?|[?|?]])]; [lia|done|done|lia]. }
      destruct (_ <=? length m)%nat eqn:E4; [|apply Nat.leb_gt in E4; lia].
      do 2 eexists; split; [done|]. eexists. split; [done|].
      assert (length (take (offset p + 1) m ++ replicate (newsize - (offset p + 1)) None) = newsize) as Hl.
      { rewrite length_app, length_take, length_replicate. lia. }
      rewrite Hl. split_and!; cbn; auto; try lia.
      * rewrite take_app_le by (rewrite length_take; lia). by rewrite take_take, Nat.min_l by lia.
      * by unfold same.
    + do 2 eexists; split; [done|]. split; [done|]. unfold CJsonPrint.room, serves. rewrite Er.
      intros [_ [?|[_ Hall]]]; [lia|]. by rewrite Hall in Es.
Qed.

(** [step m Pre Post s f d d']: from a buffer in [Pre] with format [f] and depth
    [d], [m] never leaves the block; when it succeeds the text grows by [s] and
    [Post] holds at depth [d']; when it fails nothing is freed and the text (with
    two spare bytes) did not fit. *)
Definition step (m : PM unit) (Pre Post : printbuffer -> string -> Prop) (s : option string)
    (f : bool) (d d' : nat) : Prop :=
  forall p T, Pre p T -> format p = f -> depth p = d ->
  exists r p', m p = Done (r, p') /\
    match r with
    | Some _ => exists s', s = Some s' /\ Post p' (T +:+ s') /\ format p' = f /\ depth p' = d' /\
        noalloc p' = noalloc p /\ forall k, room p k -> room p' k
    | None => freed p' = false /\ forall s', s = Some s' -> ~ room p (String.length T + String.length s' + 2)
    end.

Lemma step_seq m1 m2 P Q R s1 s2 f d1 d2 d3 :
  step m1 P Q s1 f d1 d2 -> step m2 Q R s2 f d2 d3 -> step (m1 ;; m2) P R (s1 +?+ s2) f d1 d3.
Proof.
  intros H1 H2 p T HP Hf Hd. destruct (H1 p T HP Hf Hd) as (r1 & p1 & E1 & Hr1).
  unfold mbind, PM_bind. rewrite E1. destruct r1 as [u|].
  - destruct Hr1 as (t1 & -> & HQ & Hf1 & Hd1 & Hn1 & Hroom1).
    destruct (H2 p1 _ HQ Hf1 Hd1) as (r2 & p2 & E2 & Hr2). rewrite E2.
    exists r2, p2. split; [done|]. destruct r2 as [u2|].
    + destruct Hr2 as (t2 & -> & HR & ? & ? & ? & Hroom2). exists (t1 +:+ t2). cbn.
      rewrite <- str_app_assoc. split_and!; auto. congruence.
    + destruct Hr2 as [? Hr2]. split; [done|]. intros s' Hs'. destruct s2 as [t2|]; [|done].
      injection Hs' as <-. intros Hroom. apply (Hr2 t2 eq_refl), Hroom1.
      rewrite !str_length_app in *. eapply room_le; [|exact Hroom]. lia.
  - destruct Hr1 as [? Hr1]. exists None, p1. split; [done|]. split; [done|].
    intros s' Hs'. destruct s1 as [t1|], s2 as [t2|]; try done. injection Hs' as <-.
    intros Hroom. apply (Hr1 t1 eq_refl). eapply room_le; [|exact Hroom]. rewrite str_length_app. lia.
Qed.

Lemma step_get P Q s f d d' k :
  (forall p0, format p0 = f -> depth p0 = d -> step (k p0) P Q s f d d') ->
  step (get_pb ≫= k) P Q s f d d'.
Proof. intros H p T HP Hf Hd. by apply (H p Hf Hd p T). Qed.

Lemma step_set_depth P g f d d' :
  (forall p T, P p T -> P (set_depth (g p) p) T) -> (forall p, depth p = d -> g p = d') ->
  step (modify (fun p => set_depth (g p) p)) P P (Some "") f d d'.
Proof.
  intros HP Hg p T H Hf Hd. do 2 eexists. split; [done|]. exists "". rewrite str_app_nil_r.
  split_and!; auto. by apply Hg.
Qed.

Lemma step_ret P f d : step (mret tt) P P (Some "") f d d.
Proof.
  intros p T H Hf Hd. do 2 eexists. split; [done|]. exists "". rewrite str_app_nil_r. split_and!; auto.
Qed.

Lemma step_eq m P Q s s' f d d' : step m P Q s f d d' -> s = s' -> step m P Q s' f d d'.
Proof. by intros ? <-. Qed.

Lemma step_fail P Q f d d' :
  (forall p T, P p T -> freed p = false) -> step PM_fail P Q None f d d'.
Proof. intros HP p T H _ _. exists None, p. split; [done|]. split; [by eapply HP|done]. Qed.

Lemma okp_freed p T : okp p T -> freed p = false.
Proof. by intros (m & _ & ? & _). Qed.
Lemma okp_depth d p T : okp p T -> okp (set_depth d p) T.
Proof. done. Qed.
Lemma pend_depth d p T : pend p T -> pend (set_depth d p) T.
Proof. done. Qed.

Lemma emit_unfold p n l k :
  emit hooks n l k p =
    match ensure hooks n p with
    | Done (Some _, p1) => match store l p1 with
                           | Done (Some _, p2) => Done (Some tt, set_offset (offset p2 + k) p2)
                           | o => match o with Done (_, p2) => Done (None, p2) | Undef => Undef | NoFuel => NoFuel end
                           end
    | Done (None, p1) => Done (None, p1)
    | Undef => Undef
    | NoFuel => NoFuel
    end.
Proof.
  unfold emit, mbind, PM_bind. destruct (ensure hooks n p) as [[[u|] p1]| |]; try done.
Qed.

Lemma step_emit n s extra f d :
  (String.length s + length extra <= n + 1)%nat -> (String.length s <= n <= String.length s + 1)%nat -> no_nul s = true ->
  step (emit hooks n (bytes s ++ extra) (String.length s)) okp okp (Some s) f d d.
Proof.
  intros Hx Hn Hs p T Hok Hf Hd. rewrite emit_unfold.
  destruct (ensure_ok p T n Hok) as (r & p1 & -> & Hr).
  destruct Hok as (_ & _ & _ & Ho & HT & _).
  destruct r as [u|].
  2:{ do 2 eexists; split; [done|]. destruct Hr as [? Hr]. split; [done|]. intros ? [= <-] Hroom.
      apply Hr. eapply room_le; [|exact Hroom]. lia. }
  destruct Hr as (m & Hb & Hl & Hle & Ht & Ho1 & Hfr & (Hf1 & Hna & Hd1) & Hroom).
  unfold store. rewrite Hb.
  destruct (write_at_prefix m (offset p1) (bytes s ++ extra)) as (rest & -> & Hl').
  { rewrite length_app, bytes_length. lia. }
  rewrite bind_Done_l. do 2 eexists; split; [done|]. exists s. split; [done|].
  rewrite Ho1, Ht in *. split_and!; cbn; try congruence.
  - eexists. split_and!; [done|done| | | |].
    + cbn. rewrite str_length_app. lia.
    + by rewrite no_nul_app, HT, Hs.
    + cbn. rewrite bytes_app, <- app_assoc, (app_assoc (bytes T)). apply take_app_length'.
      rewrite length_app, !bytes_length. lia.
    + left. cbn. rewrite Hl'. cbn. lia.
  - intros k Hk. apply (Hroom k Hk).
Qed.

Lemma step_emit_pend n s k f d :
  (String.length s <= n <= String.length s + 1)%nat -> (k <= String.length s)%nat -> no_nul s = true ->
  step (emit hooks n (bytes s ++ [Some nul]) k) okp pend (Some s) f d d.
Proof.
  intros Hn Hk Hs p T Hok Hf Hd. rewrite emit_unfold.
  destruct (ensure_ok p T n Hok) as (r & p1 & -> & Hr).
  destruct Hok as (_ & _ & _ & Ho & HT & _).
  destruct r as [u|].
  2:{ do 2 eexists; split; [done|]. destruct Hr as [? Hr]. split; [done|]. intros ? [= <-] Hroom.
      apply Hr. eapply room_le; [|exact Hroom]. lia. }
  destruct Hr as (m & Hb & Hl & Hle & Ht & Ho1 & Hfr & (Hf1 & Hna & Hd1) & Hroom).
  unfold store. rewrite Hb.
  destruct (write_at_prefix m (offset p1) (bytes s ++ [Some nul])) as (rest & -> & Hl').
  { rewrite length_app, bytes_length. cbn. lia. }
  rewrite bind_Done_l. do 2 eexists; split; [done|]. exists s. split; [done|].
  rewrite Ho1, Ht in *. split_and!; try (cbn; congruence).
  - eexists _, rest. split_and!; [done| | |by rewrite Hl'|done|by rewrite no_nul_app, HT, Hs].
    + by rewrite bytes_app, <- !app_assoc.
    + cbn. rewrite str_length_app. lia.
  - intros j Hj. apply (Hroom j Hj).
Qed.

Lemma str_split k T : (k <= String.length T)%nat -> exists T1 T2, T = T1 +:+ T2 /\ String.length T1 = k.
Proof.
  intros H. exists (str_take k T), (str_drop k T). revert k H.
  induction T as [|c T IH]; intros [|k] H; cbn in *; try done; [lia|].
  destruct (IH k ltac:(lia)) as [E ?]. by rewrite <- E; auto.
Qed.

Lemma update_offset_pend p T :
  pend p T -> update_offset p = Done (Some tt, set_offset (String.length T) p).
Proof.
  intros (m & rest & Hb & -> & Ho & Hl & Hfr & Hn). unfold update_offset. rewrite Hb.
  destruct (str_split _ _ Ho) as (T1 & T2 & -> & HT1).
  rewrite no_nul_app in Hn. apply andb_true_iff in Hn as [Hn1 Hn2].
  rewrite bytes_app, <- app_assoc, drop_app_length' by (by rewrite bytes_length).
  rewrite read_cstr_bytes by done. rewrite bind_Done_l. by rewrite str_length_app, HT1.
Qed.

Lemma step_update_offset f d : step update_offset pend okp (Some "") f d d.
Proof.
  intros p T Hp Hf Hd. rewrite (update_offset_pend p T Hp). do 2 eexists; split; [done|].
  exists "". rewrite str_app_nil_r. split_and!; auto.
  destruct Hp as (m & rest & Hb & -> & Ho & Hl & Hfr & Hn).
  exists (bytes T ++ Some nul :: rest). split_and!; [exact Hb|exact Hfr|done|done| |left].
  - change (offset _) with (String.length T). apply take_app_length'. by rewrite bytes_length.
  - change (offset _) with (String.length T). change (plen (set_offset _ p)) with (plen p).
    rewrite Hl. split; [done|]. rewrite length_app, bytes_length. cbn [length]. lia.
Qed.
End Calculus.

(** ** Strings and numbers fit their texts *)

Lemma simple_escape_cases c e :
  is_simple_escape c = Some e ->
  e ∈ [chr 34; chr 92; "b"%char; "f"%char; "n"%char; "r"%char; "t"%char].
Proof.
  unfold is_simple_escape. destruct c as [[] [] [] [] [] [] [] []]; vm_compute; intros [= <-]; set_solver.
Qed.

Lemma escape_no_nul s : no_nul s = true -> no_nul (escape s) = true.
Proof.
  unfold no_nul. induction s as [|c s IH]; cbn [escape str_all]; [done|]. intros H.
  apply andb_true_iff in H as [Hc Hs]. specialize (IH Hs).
  destruct (_ && _ && _); cbn [str_all]; [by rewrite Hc, IH|].
  destruct (is_simple_escape c) as [e|] eqn:E.
  - apply simple_escape_cases in E. cbn [str_all]. rewrite IH.
    repeat (apply elem_of_cons in E as [->|E]; [done|]). by apply not_elem_of_nil in E.
  - cbn [str_all]. rewrite str_all_app, IH. clear. destruct c as [[] [] [] [] [] [] [] []]; vm_compute; done.
Qed.

Lemma quoted_no_nul o : match o with Some s => no_nul s = true | None => True end -> no_nul (quoted o) = true.
Proof.
  intros H. unfold quoted. destruct o as [s|]; [|done].
  change (no_nul (escape s +:+ String quote "") = true). by rewrite no_nul_app, escape_no_nul.
Qed.

Lemma escape_length s : String.length (escape s) = (String.length s + escape_characters s)%nat.
Proof.
  induction s as [|c s IH]; cbn [escape escape_characters String.length]; [done|].
  assert ((code c >? 31) && negb (code c =? 34) && negb (code c =? 92) =
    match is_simple_escape c with Some _ => false | None => negb (code c <? 32) end) as ->.
  { clear. destruct c as [[] [] [] [] [] [] [] []]; vm_compute; done. }
  destruct (is_simple_escape c); cbn [String.length]; [lia|].
  destruct (code c <? 32); cbn [negb String.length]; [|lia].
  rewrite str_length_app. cbn. lia.
Qed.

Lemma quoted_length s : String.length (quoted (Some s)) = (String.length s + escape_characters s + 2)%nat.
Proof. unfold quoted. cbn [String.length]. rewrite str_length_app, escape_length. cbn. lia. Qed.

(** One store of the escaping loop, followed by the rest of the loop. *)
Lemma escape_loop_step m pos l extra :
  (pos + length l + length extra <= length m)%nat ->
  exists m', write_at m pos (l ++ extra) = Done m' /\ length m' = length m /\
    take (pos + length l) m' = take pos m ++ l.
Proof.
  intros H. destruct (write_at_prefix m pos (l ++ extra)) as (rest & -> & Hl).
  { rewrite length_app. lia. }
  eexists; split; [done|]. split; [done|].
  rewrite <- app_assoc, app_assoc. apply take_app_length'. rewrite length_app, length_take. lia.
Qed.

Lemma write_at_cons m pos a w :
  (pos + 1 + length w <= length m)%nat ->
  (m1 ← write_at m pos [a]; write_at m1 (pos + 1) w) = write_at m pos (a :: w).
Proof.
  intros H. unfold write_at.
  destruct (pos + length [a] <=? length m)%nat eqn:E1; [|apply Nat.leb_gt in E1; cbn in E1; lia].
  rewrite bind_Done_l.
  rewrite !length_app, length_take, length_drop. cbn [length].
  destruct (pos + 1 + length w <=? _)%nat eqn:E2; [|apply Nat.leb_gt in E2; cbn in E1; lia].
  destruct (pos + S (length w) <=? length m)%nat eqn:E3; [|apply Nat.leb_gt in E3; lia].
  f_equal.
  rewrite (app_assoc (take pos m)), take_app_length' by (rewrite length_app, length_take; cbn; lia).
  rewrite drop_app_ge by (rewrite length_app, length_take; cbn; lia).
  rewrite drop_drop, length_app, length_take, <- !app_assoc. cbn [app length]. do 3 f_equal. f_equal. lia.
Qed.

Lemma escape_loop_ok s m pos :
  (pos + String.length (escape s) + 1 <= length m)%nat ->
  exists m', escape_loop s m pos = Done m' /\ length m' = length m /\
    take (pos + String.length (escape s)) m' = take pos m ++ bytes (escape s).
Proof.
  revert m pos. induction s as [|c s IH]; intros m pos H.
  { exists m. cbn. rewrite Nat.add_0_r, app_nil_r. done. }
  assert (forall t extra, (pos + String.length (t +:+ escape s) + 1 <= length m)%nat -> (length extra <= 1)%nat ->
     exists m', (m1 ← write_at m pos (bytes t ++ extra); escape_loop s m1 (pos + String.length t)) = Done m' /\
       length m' = length m /\
       take (pos + String.length (t +:+ escape s)) m' = take pos m ++ bytes (t +:+ escape s)) as Hgen.
  { clear H. intros t extra H Hx. rewrite str_length_app in H |- *.
    destruct (escape_loop_step m pos (bytes t) extra) as (m1 & -> & Hl1 & Ht1); [rewrite bytes_length; lia|].
    rewrite bind_Done_l. rewrite bytes_length in Ht1.
    destruct (IH m1 (pos + String.length t)%nat) as (m' & -> & Hl & Ht); [lia|].
    exists m'. split_and!; [done|congruence|].
    rewrite Nat.add_assoc, Ht, Ht1, bytes_app. by rewrite app_assoc. }
  assert (forall w k, (pos + 1 + length w <= length m)%nat ->
    (m1 ← write_at m pos [Some backslash]; m2 ← write_at m1 (pos + 1) w; escape_loop s m2 k) =
    (m2 ← write_at m pos (Some backslash :: w); escape_loop s m2 k)) as Hw.
  { intros w k Hlen. rewrite <- (write_at_cons m pos (Some backslash) w) by done. by destruct (write_at m pos [Some backslash]). }
  revert H. cbn [escape_loop escape]. destruct (_ && _ && _); [|destruct (is_simple_escape c) as [e|]]; intros H.
  - apply (Hgen (String c "") []); [done|cbn; lia].
  - rewrite Hw by (cbn in H |- *; lia). apply (Hgen (String backslash (String e "")) []); [done|cbn; lia].
  - rewrite Hw. 2:{ cbn [String.length] in H. rewrite str_length_app in H. rewrite length_app, bytes_length. cbn in *. lia. }
    apply (Hgen (String backslash (u_04x c)) [Some nul]); [done|cbn; lia].
Qed.

Section Steps.
  Context (hooks : internal_hooks).

Lemma step_print_string o f d :
  match o with Some s => no_nul s = true | None => True end ->
  step hooks (print_string_ptr hooks o) (okp hooks) pend (Some (quoted o)) f d d.
Proof.
  intros Hs. destruct o as [s|]; [|by apply (step_emit_pend hooks 3 (String quote (String quote "")) 0); cbn; try lia].
  intros p T Hok Hf Hd. cbn [print_string_ptr]. unfold mbind at 1, PM_bind at 1.
  destruct (ensure_ok hooks p T (String.length s + escape_characters s + 3) Hok) as (r & p1 & -> & Hr).
  pose proof Hok as (_ & _ & _ & Ho & HT & _).
  pose proof (quoted_length s) as Hq.
  destruct r as [u|].
  2:{ do 2 eexists; split; [done|]. destruct Hr as [? Hr]. split; [done|]. intros ? [= <-] Hroom.
      apply Hr. eapply room_le; [|exact Hroom]. lia. }
  destruct Hr as (m & Hb & Hl & Hle & Ht & Ho1 & Hfr & (Hf1 & Hna & Hd1) & Hroom).
  assert (exists rest, length (bytes (T +:+ quoted (Some s)) ++ Some nul :: rest) = length m /\
    (if (escape_characters s =? 0)%nat then store (Some quote :: bytes s ++ [Some quote; Some nul]) p1
     else m0 ← deref (buffer p1); m1 ← write_at m0 (offset p1) [Some quote];
          m2 ← escape_loop s m1 (offset p1 + 1);
          m3 ← write_at m2 (offset p1 + (String.length s + escape_characters s) + 1) [Some quote; Some nul];
          Done (Some tt, set_buffer (Some m3) (plen p1) p1))
    = Done (Some tt, set_buffer (Some (bytes (T +:+ quoted (Some s)) ++ Some nul :: rest)) (plen p1) p1)) as (rest & Hlr & Heq).
  { assert (forall e, e = escape s -> bytes (T +:+ quoted (Some s)) = bytes T ++ Some quote :: bytes e ++ [Some quote]) as Eq.
    { intros e ->. rewrite bytes_app. unfold quoted. f_equal.
      change (bytes (String quote ?x)) with (Some quote :: bytes x). by rewrite bytes_app. }
    rewrite Ho1. destruct (escape_characters s =? 0)%nat eqn:E0.
    - apply Nat.eqb_eq in E0.
      assert (escape s = s) as Ee.
      { clear -E0. induction s as [|c s IH]; [done|]. cbn [escape escape_characters] in *.
        assert ((code c >? 31) && negb (code c =? 34) && negb (code c =? 92) =
          match is_simple_escape c with Some _ => false | None => negb (code c <? 32) end) as ->.
        { clear. destruct c as [[] [] [] [] [] [] [] []]; vm_compute; done. }
        destruct (is_simple_escape c); [lia|]. destruct (code c <? 32); [lia|]. cbn [negb]. by rewrite IH. }
      unfold store. rewrite Hb.
      destruct (write_at_prefix m (offset p1) (Some quote :: bytes s ++ [Some quote; Some nul])) as (rest & -> & Hl').
      { cbn [length]. rewrite length_app, bytes_length. cbn [length]. lia. }
      exists rest. rewrite bind_Done_l, Ho1, Ht in *. rewrite (Eq s) by done.
      rewrite <- !app_assoc in *. cbn [app] in *. rewrite <- !app_assoc in *. cbn [app] in *. done.
    - rewrite Hb. cbn [deref]. rewrite bind_Done_l.
      destruct (escape_loop_step m (offset p) [Some quote] []) as (m1 & E1 & Hl1 & Ht1); [cbn; lia|].
      cbn [app] in E1. rewrite E1, bind_Done_l.
      destruct (escape_loop_ok s m1 (offset p + 1)) as (m2 & -> & Hl2 & Ht2); [rewrite escape_length; lia|].
      rewrite bind_Done_l. cbn [length] in Ht1. rewrite Ht1, Ht in Ht2. rewrite escape_length in Ht2.
      destruct (write_at_prefix m2 (offset p + (String.length s + escape_characters s) + 1) [Some quote; Some nul]) as (rest & -> & Hl3).
      { cbn [length]. lia. }
      exists rest. rewrite bind_Done_l.
      replace (offset p + (String.length s + escape_characters s) + 1)%nat
        with (offset p + 1 + (String.length s + escape_characters s))%nat in * by lia.
      rewrite Ht2 in *. rewrite (Eq _ eq_refl).
      rewrite <- !app_assoc in *. cbn [app] in *. rewrite <- !app_assoc in *. cbn [app] in *.
      split; [congruence|done]. }
  do 2 eexists. split.
  { instantiate (2 := Some tt). rewrite <- Heq. by destruct (_ =? 0)%nat. }
  eexists. split; [done|]. split_and!; try done; try (cbn; congruence).
  exists (bytes (T +:+ quoted (Some s)) ++ Some nul :: rest), rest. split_and!; try done.
  - cbn [offset set_buffer]. rewrite str_length_app. lia.
  - cbn [plen set_buffer]. congruence.
  - by rewrite no_nul_app, HT, quoted_no_nul.
Qed.
End Steps.

Lemma opt_app_nil_l s : Some "" +?+ s = s.
Proof. by destruct s. Qed.

Lemma opt_app_nil_r s : s +?+ Some "" = s.
Proof. destruct s as [s|]; [|done]. cbn. by rewrite str_app_nil_r. Qed.

Lemma number_text_no_nul d : no_nul (number_text d) = true.
Proof.
  unfold number_text. destruct (negb _); [done|]. destruct (_ || _); apply fmt_g_no_nul.
Qed.

Section Value.
  Context (hooks : internal_hooks).
  Abbreviation okp := (okp hooks).
  Abbreviation stp := (step hooks).
  (** What the recursive call promises for each child. *)
  Context (pv : cJSON -> PM unit) (rv : bool -> nat -> cJSON -> option string).
  Abbreviation good x := (forall f d, stp (pv x) okp pend (rv f d x) f d d).

Lemma step_depth_up f d P : (forall p T n, P p T -> P (set_depth n p) T) ->
  stp (modify (fun p => set_depth (depth p + 1) p)) P P (Some "") f d (d + 1).
Proof. intros. apply step_set_depth; auto. Qed.

Lemma step_depth_down f d P : (forall p T n, P p T -> P (set_depth n p) T) ->
  stp (modify (fun p => set_depth (depth p - 1) p)) P P (Some "") f (d + 1) d.
Proof. intros. apply step_set_depth; auto. intros ? ->. lia. Qed.

Lemma step_emit_s n s extra k f d :
  (length extra <= 1)%nat -> (String.length s <= n <= String.length s + 1)%nat ->
  (String.length s + length extra <= n + 1)%nat -> k = String.length s ->
  no_nul s = true ->
  stp (emit hooks n (bytes s ++ extra) k) okp okp (Some s) f d d.
Proof. intros ? ? ? -> ?. by apply step_emit. Qed.

Lemma print_elements_step l f d :
  Forall (fun x => good x) l ->
  stp (print_elements hooks pv l) okp okp (render_elements f (rv f d) l) f d d.
Proof.
  induction 1 as [|x l Hx _ IH]; cbn [print_elements render_elements]; [apply step_ret|].
  eapply step_eq.
  - eapply step_seq; [apply Hx|]. eapply step_seq; [apply step_update_offset|].
    eapply step_seq with (s1 := Some (match l with [] => "" | _ => "," +:+ (if f then " " else "") end)); [|exact IH].
    destruct l as [|y l]; [apply step_ret|]. apply step_get. intros p0 Hf _. rewrite Hf.
    destruct f.
    + apply (step_emit_s _ ", " [Some nul]); cbn; try done; lia.
    + apply (step_emit_s _ "," [Some nul]); cbn; try done; lia.
  - by rewrite opt_app_nil_l.
Qed.

Lemma print_array_step l f d :
  Forall (fun x => good x) l ->
  stp (print_array hooks pv l) okp pend (Some "[" +?+ render_elements f (rv f (d + 1)) l +?+ Some "]") f d d.
Proof.
  intros Hl. unfold print_array. eapply step_eq.
  - eapply step_seq; [apply (step_emit_s 1 "[" []); cbn; try done; lia|].
    eapply step_seq; [apply step_depth_up; auto|].
    eapply step_seq; [by apply print_elements_step|].
    eapply step_seq; [apply (step_emit_pend hooks 2 "]" 0); cbn; try done; lia|].
    apply step_depth_down. auto.
  - rewrite opt_app_nil_l. by rewrite opt_app_nil_r.
Qed.

Lemma print_members_step l f d :
  Forall (fun x => good x) l -> Forall (fun x => match key x with Some s => no_nul s = true | None => True end) l ->
  stp (print_members hooks pv l) okp okp (render_members f (rv f d) d l) f d d.
Proof.
  induction 1 as [|x l Hx _ IH]; intros Hk; cbn [print_members render_members]; [apply step_ret|].
  apply Forall_cons in Hk as [Hkx Hk]. apply step_get. intros p0 Hf Hd. rewrite Hf, Hd.
  eapply step_eq.
  - eapply step_seq with (s1 := Some (if f then tab_string d else "")).
    { destruct f; [|apply step_ret].
      rewrite tabs_bytes, <- (app_nil_r (bytes _)).
      apply step_emit_s; cbn; rewrite ?tab_string_length; try done; try lia. apply tab_string_no_nul. }
    eapply step_seq; [by apply step_print_string|].
    eapply step_seq; [apply step_update_offset|].
    eapply step_seq with (s1 := Some (":" +:+ (if f then tab_s else ""))).
    { destruct f.
      - apply (step_emit_s _ (":" +:+ tab_s) []); cbn; try done; lia.
      - apply (step_emit_s _ ":" []); cbn; try done; lia. }
    eapply step_seq; [apply Hx|].
    eapply step_seq; [apply step_update_offset|].
    eapply step_seq with (s1 := Some ((match l with [] => "" | _ => "," end) +:+ (if f then newline_s else "")));
      [|exact (IH Hk)].
    destruct l, f.
    + apply (step_emit_s _ newline_s [Some nul]); cbn; try done; lia.
    + apply (step_emit_s _ "" [Some nul]); cbn; try done; lia.
    + apply (step_emit_s _ ("," +:+ newline_s) [Some nul]); cbn; try done; lia.
    + apply (step_emit_s _ "," [Some nul]); cbn; try done; lia.
  - by rewrite !opt_app_nil_l.
Qed.

Lemma print_object_step l (f : bool) d :
  Forall (fun x => good x) l -> Forall (fun x => match key x with Some s => no_nul s = true | None => True end) l ->
  stp (print_object hooks pv l) okp pend
    (Some ("{" +:+ (if f then newline_s else "")) +?+ render_members f (rv f (d + 1)) (d + 1) l
     +?+ Some ((if f then tab_string d else "") +:+ "}")) f d d.
Proof.
  intros Hl Hk. unfold print_object. apply step_get. intros p0 Hf _. rewrite Hf.
  eapply step_eq.
  - eapply step_seq with (s1 := Some ("{" +:+ (if f then newline_s else ""))).
    { destruct f.
      - apply (step_emit_s _ ("{" +:+ newline_s) []); cbn; try done; lia.
      - apply (step_emit_s _ "{" []); cbn; try done; lia. }
    eapply step_seq; [apply step_depth_up; auto|].
    eapply step_seq; [by apply print_members_step|].
    apply step_get. intros p1 Hf1 Hd1. rewrite Hf1, Hd1.
    eapply step_seq with (s1 := Some ((if f then tab_string d else "") +:+ "}")); [|apply step_depth_down; auto].
    destruct f.
    + replace (d + 1 - 1)%nat with d by lia. rewrite tabs_bytes.
      replace (bytes (tab_string d) ++ [Some "}"%char; Some nul])
        with (bytes (tab_string d +:+ "}") ++ [Some nul]) by (by rewrite bytes_app, <- app_assoc).
      apply step_emit_pend.
      * rewrite str_length_app, tab_string_length. cbn. lia.
      * lia.
      * by rewrite no_nul_app, tab_string_no_nul.
    + apply (step_emit_pend hooks 2 "}" 0); cbn; try done; lia.
  - rewrite opt_app_nil_l. by rewrite opt_app_nil_r.
Qed.
End Value.

Lemma print_value_step hooks j :
  c_tree j = true -> forall f d, step hooks (print_value hooks j) (okp hooks) pend (render f d j) f d d.
Proof.
  induction j as [t vs vi vd k ch IH] using cJSON_ind'. intros Hc f d.
  cbn [c_tree valuestring type key child] in Hc.
  apply andb_true_iff in Hc as [Hc Hch]. apply andb_true_iff in Hc as [Hvs _].
  assert (Forall (fun x => forall f d, step hooks (print_value hooks x) (okp hooks) pend (render f d x) f d d) ch) as Hgood.
  { rewrite forallb_forall in Hch. rewrite Forall_forall in IH |- *. intros x Hx. apply IH; [done|].
    apply Hch. by apply list_elem_of_In. }
  assert (Forall (fun x => match key x with Some s => no_nul s = true | None => True end) ch) as Hkeys.
  { rewrite forallb_forall in Hch. apply Forall_forall. intros x Hx.
    specialize (Hch x ltac:(by apply list_elem_of_In)). destruct x as [? ? ? ? k' ?]. cbn in *.
    destruct k'; [|done]. apply andb_true_iff in Hch as [Hch _]. by apply andb_true_iff in Hch as [_ ?]. }
  cbn [print_value render type valuestring child valuedouble].
  destruct (_ =? cJSON_NULL); [apply (step_emit_pend hooks 5 "null" 0); cbn; try done; lia|].
  destruct (_ =? cJSON_False); [apply (step_emit_pend hooks 6 "false" 0); cbn; try done; lia|].
  destruct (_ =? cJSON_True); [apply (step_emit_pend hooks 5 "true" 0); cbn; try done; lia|].
  destruct (_ =? cJSON_Number).
  { unfold print_number. cbn [valuedouble].
    destruct (_ <? _)%nat; [apply step_fail; by apply okp_freed|].
    apply step_emit_pend; [lia|lia|apply number_text_no_nul]. }
  destruct (_ =? cJSON_Raw).
  { destruct vs as [s|]; [|done]. apply step_emit_pend; [lia|lia|done]. }
  destruct (_ =? cJSON_String); [apply step_print_string; by destruct vs|].
  destruct (_ =? cJSON_Array); [by apply (print_array_step hooks _ render)|].
  destruct (_ =? cJSON_Object); [by apply (print_object_step hooks _ render)|].
  apply step_fail. by apply okp_freed.
Qed.

(** A rendered text is a C string. *)
Lemma opt_app_no_nul a b s : a +?+ b = Some s ->
  (forall x, a = Some x -> no_nul x = true) -> (forall y, b = Some y -> no_nul y = true) -> no_nul s = true.
Proof. destruct a as [x|], b as [y|]; try done. intros [= <-] Ha Hb. by rewrite no_nul_app, Ha, Hb. Qed.

Lemma render_elements_no_nul fmt render l : (forall x s, x ∈ l -> render x = Some s -> no_nul s = true) ->
  forall s, render_elements fmt render l = Some s -> no_nul s = true.
Proof.
  induction l as [|x l IH]; intros Hl s; cbn [render_elements]; [by intros [= <-]|]. intros E. apply (opt_app_no_nul _ _ _ E); [intros u Hu; apply (Hl x); [set_solver|done]|].
  intros u Hu. apply (opt_app_no_nul _ _ _ Hu); [intros v [= <-]; by destruct l, fmt|]. apply IH. intros y v Hy. apply Hl. set_solver.
Qed.

Lemma render_members_no_nul fmt render d l : (forall x s, x ∈ l -> render x = Some s -> no_nul s = true) ->
  (forall x, x ∈ l -> match key x with Some k => no_nul k = true | None => True end) ->
  forall s, render_members fmt render d l = Some s -> no_nul s = true.
Proof.
  induction l as [|x l IH]; intros Hl Hk s; cbn [render_members]; [by intros [= <-]|]. intros E.
  apply (opt_app_no_nul _ _ _ E); [intros ? [= <-]; destruct fmt; [apply tab_string_no_nul|done]|]. clear E. intros u1 E.
  apply (opt_app_no_nul _ _ _ E); [intros ? [= <-]; apply quoted_no_nul, Hk; set_solver|]. clear E. intros u2 E.
  apply (opt_app_no_nul _ _ _ E); [intros ? [= <-]; by destruct fmt|]. clear E. intros u3 E.
  apply (opt_app_no_nul _ _ _ E); [intros v Hv; apply (Hl x); [set_solver|done]|]. clear E. intros u4 E.
  apply (opt_app_no_nul _ _ _ E); [intros ? [= <-]; by destruct l, fmt|].
  apply IH; intros y; [intros v Hy; apply Hl; set_solver|intros Hy; apply Hk; set_solver].
Qed.

Lemma render_no_nul fmt j : c_tree j = true -> forall d s, render fmt d j = Some s -> no_nul s = true.
Proof.
  induction j as [t vs vi vd k ch IH] using cJSON_ind'. intros Hc d s. cbn [c_tree valuestring key child type] in Hc.
  apply andb_prop in Hc as [[Hv Hk]%andb_prop Hch]. rewrite forallb_forall in Hch. rewrite Forall_forall in IH.
  assert (forall d x s, x ∈ ch -> render fmt d x = Some s -> no_nul s = true) as Hin.
  { intros d' x s' Hx. apply IH; [done|]. by apply Hch, list_elem_of_In. }
  assert (forall x, x ∈ ch -> match key x with Some k => no_nul k = true | None => True end) as Hkeys.
  { intros x Hx. apply list_elem_of_In, Hch in Hx. destruct x as [? ? ? ? k' ?]. cbn in Hx |- *. destruct k'; [|done]. by apply andb_prop in Hx as [[_ ?]%andb_prop _]. }
  cbn [render type valuestring valuedouble child]. cbv zeta.
  assert ((if (25 <? String.length (number_text vd))%nat then None else Some (number_text vd)) = Some s -> no_nul s = true) as Hnum.
  { destruct (_ <? _)%nat; [done|]. intros [= <-]. apply number_text_no_nul. }
  repeat (destruct (_ =? _); [|]); try exact Hnum; try (by intros [= <-]).
  - intros E. rewrite E in Hv. exact Hv.
  - intros [= <-]. apply quoted_no_nul. by destruct vs.
  - intros E. apply (opt_app_no_nul _ _ _ E); [by intros ? [= <-]|]. clear E. intros u E.
    apply (opt_app_no_nul _ _ _ E); [|by intros ? [= <-]]. apply render_elements_no_nul. intros x v. apply Hin.
  - intros E. apply (opt_app_no_nul _ _ _ E); [intros ? [= <-]; by destruct fmt|]. clear E. intros u E.
    apply (opt_app_no_nul _ _ _ E); [apply render_members_no_nul; [intros x v; apply Hin|done]|].
    intros ? [= <-]. rewrite no_nul_app. destruct fmt; [by rewrite tab_string_no_nul|done].
Qed.

(** ** The properties *)

Definition all_served (hooks : internal_hooks) : Prop :=
  (forall n, allocate hooks n = true) /\
  match reallocate hooks with Some f => forall n, f n = true | None => True end.

Lemma all_served_serves hooks : all_served hooks -> serves hooks.
Proof. unfold all_served, serves. destruct (reallocate hooks); naive_solver. Qed.

Lemma PM_seq {A B} (m1 : PM A) (m2 : PM B) p r p1 :
  m1 p = Done (r, p1) ->
  (m1 ;; m2) p = match r with Some _ => m2 p1 | None => Done (None, p1) end.
Proof. intros E. unfold mbind, PM_bind. by rewrite E. Qed.

Lemma release_ok p : freed p = false -> release p = Done None.
Proof. intros H. unfold release. rewrite H. by destruct (buffer p). Qed.

Lemma print_ok hooks j fmt :
  c_tree j = true ->
  exists r, print hooks j fmt = Done r /\
    (forall s, r = Some s -> render fmt 0 j = Some s) /\
    (forall s, all_served hooks -> render fmt 0 j = Some s -> strlen s + 2 <= INT_MAX -> r = Some s).
Proof.
  intros Hc. unfold print. destruct (allocate hooks 256) eqn:Ea.
  2:{ exists None. split_and!; [done..|]. intros s [Hall _]. congruence. }
  set (p0 := mk_pb _ _ _ _ _ _ _).
  destruct (print_value_step hooks j Hc fmt 0 p0 "") as (r & p & E & Hr); [|done..|].
  { exists (replicate 256 None). split_and!; try done. right. split_and!; [done|done|].
    right; right. rewrite length_replicate. lia. }
  rewrite (PM_seq _ _ _ _ _ E). destruct r as [u|].
  - destruct Hr as (s & Hs & Hp & _). rewrite str_app_empty_l in Hp.
    rewrite (update_offset_pend p s Hp), bind_Done_l.
    destruct Hp as (m & rest & Hb & -> & Ho & Hl & Hfr & Hn). cbn [buffer set_offset plen offset].
    rewrite Hb. cbn [deref]. rewrite bind_Done_l.
    assert (plen p = String.length s + 1 + length rest)%nat as Hlen.
    { rewrite Hl, length_app, bytes_length. cbn [length]. lia. }
    destruct (reallocate hooks) as [serve|] eqn:Er.
    + destruct (serve _) eqn:Es.
      * exists (Some s). rewrite take_ge by lia. rewrite <- app_assoc. cbn [app].
        rewrite read_cstr_bytes by done. split_and!; [done|naive_solver|naive_solver].
      * exists None. split_and!; [done..|]. intros s' [_ Hall]. rewrite Er in Hall. congruence.
    + destruct (allocate hooks (Z.of_nat _)) eqn:Es.
      * exists (Some s).
        assert ((plen p <? String.length s + 1)%nat = false) as -> by (apply Nat.ltb_ge; lia).
        assert ((String.length s + 1 <=? length (bytes s ++ Some nul :: rest))%nat = true) as ->.
        { apply Nat.leb_le. rewrite length_app, bytes_length. cbn [length]. lia. }
        rewrite Nat.sub_diag. cbn [replicate]. rewrite app_nil_r.
        replace (take (String.length s + 1) (bytes s ++ Some nul :: rest)) with (bytes s ++ [Some nul]).
        2:{ rewrite take_app_ge by (rewrite bytes_length; lia). rewrite bytes_length.
            replace (_ - _)%nat with 1%nat by lia. done. }
        unfold write_at. rewrite length_app, bytes_length. cbn [length].
        rewrite (Nat.leb_refl _), bind_Done_l.
        rewrite take_app_length' by (by rewrite bytes_length). cbn [app].
        rewrite read_cstr_bytes by done. split_and!; [done|naive_solver|naive_solver].
      * exists None. rewrite release_ok by done. split_and!; [done..|]. intros s' [Hall _]. congruence.
  - destruct Hr as [Hfr Hno]. exists None. rewrite bind_Done_l, release_ok by done.
    split_and!; [done..|]. intros s Hall Hs Hlen. exfalso. apply (Hno s Hs).
    unfold strlen in Hlen. split; [cbn; lia|]. right. split; [done|by apply all_served_serves].
Qed.

(** C24: printing never leaves the growing block, never reads an unwritten byte and
    never frees twice, whatever the allocator refuses, for every tree whose raw
    nodes have text; what it returns is the text [render] gives, and when the
    allocator serves every request and the text fits an [int], it returns it. *)
Theorem print_correct hooks j fmt :
  c_tree j = true ->
  exists r, print hooks j fmt = Done r /\
    (forall s, r = Some s -> render fmt 0 j = Some s) /\
    (forall s, all_served hooks -> render fmt 0 j = Some s -> strlen s + 2 <= INT_MAX -> r = Some s).
Proof. apply print_ok. Qed.

(** [PrintPreallocated] never writes outside the caller's buffer of [len]
    bytes; it returns [true] only with the whole text in it, and it does so
    whenever the buffer has two bytes more than the text, its NUL included in
    them (the header of cJSON asks for five). *)
Theorem print_preallocated_correct hooks j fmt m :
  c_tree j = true -> Z.of_nat (length m) <= INT_MAX ->
  exists r, snowflake_cJSON_PrintPreallocated hooks j (Some m) (Z.of_nat (length m)) fmt = Done r /\
    (forall s, r = Some s -> render fmt 0 j = Some s) /\
    (forall s, render fmt 0 j = Some s -> strlen s + 2 <= Z.of_nat (length m) -> r = Some s).
Proof.
  intros Hc Hm. unfold snowflake_cJSON_PrintPreallocated.
  destruct (_ <? 0) eqn:E0; [apply Z.ltb_lt in E0; lia|]. rewrite Nat2Z.id.
  destruct (print_value_step hooks j Hc fmt 0 (mk_pb (Some m) (length m) 0 0 true fmt false) "")
    as (r & p & -> & Hr); [|done..|].
  { exists m. split_and!; try done. cbn.
    destruct (decide (length m = 0)%nat) as [->|]; [right; auto|left; lia]. }
  rewrite bind_Done_l. destruct r as [u|].
  - destruct Hr as (s & Hs & (m' & rest & Hb & -> & Ho & Hl & Hfr & Hn) & _).
    rewrite str_app_empty_l in *. rewrite Hb. cbn [deref]. rewrite bind_Done_l, read_cstr_bytes by done.
    exists (Some s). split_and!; [done|naive_solver|naive_solver].
  - destruct Hr as [_ Hno]. exists None. split_and!; [done..|]. intros s Hs Hlen. exfalso.
    apply (Hno s Hs). unfold strlen in Hlen. split; cbn; [lia|left; lia].
Qed.

Lemma print_correct_witness :
  c_tree print_sample = true /\ all_served copy_hooks /\
  exists s, print copy_hooks print_sample false = Done (Some s) /\ render false 0 print_sample = Some s.
Proof.
  split; [done|]. split; [done|].
  destruct (print_correct copy_hooks print_sample false eq_refl) as (r & Hr & _ & H).
  eexists. split; [|vm_compute; reflexivity].
  rewrite Hr. apply (f_equal Done). apply H; [by split|vm_compute; reflexivity|unfold strlen, INT_MAX; cbn; lia].
Defined.

Lemma print_preallocated_correct_witness :
  exists r, snowflake_cJSON_PrintPreallocated libc_hooks print_sample (Some (replicate 64 None)) 64 true = Done r /\
    r <> None.
Proof.
  destruct (print_preallocated_correct libc_hooks print_sample true (replicate 64 None) eq_refl) as (r & Hr & _ & H).
  { vm_compute. discriminate. }
  exists r. split; [exact Hr|]. erewrite H; [done|vm_compute; reflexivity|vm_compute; discriminate].
Defined.

(** A raw node without text is freed by [print_value] and again by [print]. *)
Example raw_double_free :
  print libc_hooks (mk_cJSON cJSON_Raw None 0 zero_double None []) false = Undef.
Proof. vm_compute. reflexivity. Qed.

(** [PrintBuffered] with a prebuffer of 0 and no realloc copies a byte out of an
    empty block. *)
Example print_buffered_empty :
  snowflake_cJSON_PrintBuffered copy_hooks print_sample 0 false = Undef.
Proof. vm_compute. reflexivity. Qed.
