(* ===== verification/CJsonParse.v ===== *)
(** * lib/cJSON.c: parsing.

    The parse buffer holds the input bytes, the terminating NUL included;
    [parse_len] is the C field [length].  A read outside the input and a store
    outside the output block of [parse_string] are [Undef].  The parsers return
    the item ([None] is the C functions' [false]) and the buffer, whose [parse_off]
    is the error position on failure. *)

From S2P Require Import Prelude CLib CFloat CJson CJsonPrint.

#[local] Open Scope sf_scope.

Definition CJSON_NESTING_LIMIT : nat := 1000.

Record parse_buffer := mk_parse {
  content : string;
  parse_len : nat;
  parse_off : nat;
  parse_depth : nat
}.
Definition set_off (o : nat) (b : parse_buffer) := mk_parse (content b) (parse_len b) o (parse_depth b).
Definition set_pdepth (d : nat) (b : parse_buffer) := mk_parse (content b) (parse_len b) (parse_off b) d.

(** [x--] on a [size_t] that must not wrap. *)
Definition dec_size (n : nat) : outcome nat := match n with O => Undef | S n => Done n end.

Definition can_access_at_index (b : parse_buffer) (i : nat) : bool := (parse_off b + i <? parse_len b)%nat.
Definition can_read (b : parse_buffer) (n : nat) : bool := (parse_off b + n <=? parse_len b)%nat.

(** The rest of the input from [offset]. *)
Definition here (b : parse_buffer) : string := str_drop (parse_off b) (content b).

Definition char_at (s : string) (i : nat) : outcome ascii := deref (String.get i s).

(** [can_access_at_index(b, 0) && buffer_at_offset(b)[0] == c] *)
Definition at_char (b : parse_buffer) (c : ascii) : outcome bool :=
  if can_access_at_index b 0 then d ← char_at (here b) 0; Done (Ascii.eqb d c) else Done false.

Section Parse.
  Context (hooks : Z -> bool).

(** ** White space and BOM *)

Fixpoint skip_loop (s : string) (n : nat) : nat :=
  match n, s with
  | S n, String c s => if code c <=? 32 then S (skip_loop s n) else O
  | _, _ => O
  end.

Definition buffer_skip_whitespace (b : parse_buffer) : outcome parse_buffer :=
  let off := (parse_off b + skip_loop (here b) (parse_len b - parse_off b))%nat in
  if (off =? parse_len b)%nat then o ← dec_size off; Done (set_off o b) else Done (set_off off b).

Definition bom : string := String (chr 239) (String (chr 187) (String (chr 191) "")).

Definition skip_utf8_bom (b : parse_buffer) : option parse_buffer :=
  if (parse_off b =? 0)%nat then
    Some (if can_access_at_index b 4 && String.prefix bom (here b) then set_off (parse_off b + 3) b else b)
  else None.

(** ** Numbers *)

Definition is_number_char (c : ascii) : bool :=
  is_digit c || (code c =? 43) || (code c =? 45) || (code c =? 46) || (code c =? 69) || (code c =? 101).

(** At most [n] number characters. *)
Fixpoint number_chars (s : string) (n : nat) : string :=
  match n, s with
  | S n, String c s => if is_number_char c then String c (number_chars s n) else EmptyString
  | _, _ => EmptyString
  end.

Definition parse_number (item : cJSON) (b : parse_buffer) : outcome (option cJSON * parse_buffer) :=
  let number_c_string := number_chars (here b) (Nat.min 63 (parse_len b - parse_off b)) in
  let r := strtod number_c_string in
  if (sd_end r =? 0)%nat then Done (None, b)
  else Done (Some (mk_cJSON cJSON_Number (valuestring item) (saturate_int (sd_val r)) (sd_val r)
                     (key item) (child item)),
             set_off (parse_off b + sd_end r) b).

(** ** Strings *)

Definition hex_value (c : ascii) : option Z :=
  let z := code c in
  if (48 <=? z) && (z <=? 57) then Some (z - 48)
  else if (65 <=? z) && (z <=? 70) then Some (10 + z - 65)
  else if (97 <=? z) && (z <=? 102) then Some (10 + z - 97)
  else None.

(** Four hexadecimal digits; anything else gives 0. *)
Fixpoint hex4_loop (s : string) (n : nat) (h : Z) : outcome Z :=
  match n with
  | O => Done h
  | S n =>
      c ← char_at s 0;
      match hex_value c with
      | None => Done 0
      | Some v => hex4_loop (str_drop 1 s) n (if (n =? 0)%nat then h + v else Z.shiftl (h + v) 4)
      end
  end.
Definition parse_hex4 (input : string) : outcome Z := hex4_loop input 4 0.

(** The continuation bytes, last one first, then the first byte. *)
Fixpoint utf8_tail (n : nat) (codepoint : Z) (acc : string) : Z * string :=
  match n with
  | O => (codepoint, acc)
  | S n => utf8_tail n (Z.shiftr codepoint 6) (String (chr (Z.land (Z.lor codepoint 128) 191)) acc)
  end.
Definition utf8_bytes (utf8_length : nat) (first_byte_mark codepoint : Z) : string :=
  let '(cp, tail) := utf8_tail (utf8_length - 1) codepoint "" in
  String (chr (if (1 <? utf8_length)%nat then Z.land (Z.lor cp first_byte_mark) 255 else Z.land cp 127)) tail.

(** The code point of the escape and its length, the second half of a surrogate
    pair included. *)
Definition code_point (input : string) (n : nat) (first_code : Z) : outcome (option (nat * Z)) :=
  if (55296 <=? first_code) && (first_code <=? 56319) then
    let second := str_drop 6 input in
    if (n - 6 <? 6)%nat then Done None
    else
      c0 ← char_at second 0;
      c1 ← (if Ascii.eqb c0 backslash then char_at second 1 else Done c0);
      if negb (Ascii.eqb c0 backslash) || negb (Ascii.eqb c1 "u"%char) then Done None
      else
        second_code ← parse_hex4 (str_drop 2 second);
        if (second_code <? 56320) || (second_code >? 57343) then Done None
        else Done (Some (12%nat, 65536 + Z.lor (Z.shiftl (Z.land first_code 1023) 10)
                                              (Z.land second_code 1023)))
  else Done (Some (6%nat, first_code)).

(** The length of the escape and the bytes it stands for; [None] is the C
    function's 0.  [n] is [input_end - input_pointer]. *)
Definition utf16_literal_to_utf8 (input : string) (n : nat) : outcome (option (nat * string)) :=
  if (n <? 6)%nat then Done None
  else
    first_code ← parse_hex4 (str_drop 2 input);
    if (56320 <=? first_code) && (first_code <=? 57343) then Done None
    else
      r ← code_point input n first_code;
      match r with
      | None => Done None
      | Some (sequence_length, codepoint) =>
          if codepoint <? 128 then Done (Some (sequence_length, utf8_bytes 1 0 codepoint))
          else if codepoint <? 2048 then Done (Some (sequence_length, utf8_bytes 2 192 codepoint))
          else if codepoint <? 65536 then Done (Some (sequence_length, utf8_bytes 3 224 codepoint))
          else if codepoint <=? 1114111 then Done (Some (sequence_length, utf8_bytes 4 240 codepoint))
          else Done None
      end.

(** The first pass over a literal: its length and the number of escapes, or
    [None] when the input ends first. *)
Fixpoint scan_literal (s : string) : option (nat * nat) :=
  match s with
  | EmptyString => None
  | String c s1 =>
      if Ascii.eqb c quote then Some (0, 0)%nat
      else if Ascii.eqb c backslash then
        match s1 with
        | EmptyString => None
        | String _ s2 => (fun '(n, k) => (n + 2, k + 1)%nat) <$> scan_literal s2
        end
      else (fun '(n, k) => (n + 1, k)%nat) <$> scan_literal s1
  end.

(** A store of [l] at the output pointer, the block holding [cap] bytes. *)
Definition put (cap : nat) (out l : string) : outcome string :=
  if (String.length out + String.length l <=? cap)%nat then Done (out +:+ l) else Undef.

Definition unescape_char (c : ascii) : option ascii :=
  if Ascii.eqb c "b" then Some (chr 8)
  else if Ascii.eqb c "f" then Some (chr 12)
  else if Ascii.eqb c "n" then Some (chr 10)
  else if Ascii.eqb c "r" then Some (chr 13)
  else if Ascii.eqb c "t" then Some (chr 9)
  else if Ascii.eqb c quote || Ascii.eqb c backslash || Ascii.eqb c "/" then Some c
  else None.

(** The second pass: [input] is the text at [input_pointer], [n] is
    [input_end - input_pointer] (0 when the pointer has passed the end).  Returns
    the output, or [None] and the [n] at which it gave up. *)
Fixpoint unescape_loop (fuel : nat) (input : string) (n : nat) (cap : nat) (out : string)
  : outcome (option string * nat) :=
  match n with
  | O => Done (Some out, O)
  | S _ =>
      match fuel with
      | O => NoFuel
      | S fuel =>
          c ← char_at input 0;
          if negb (Ascii.eqb c backslash) then
            out ← put cap out (String c "");
            unescape_loop fuel (str_drop 1 input) (n - 1) cap out
          else
            c1 ← char_at input 1;
            match unescape_char c1 with
            | Some e =>
                out ← put cap out (String e "");
                unescape_loop fuel (str_drop 2 input) (n - 2) cap out
            | None =>
                if Ascii.eqb c1 "u" then
                  r ← utf16_literal_to_utf8 input n;
                  match r with
                  | None => Done (None, n)
                  | Some (len, l) =>
                      out ← put cap out l;
                      unescape_loop fuel (str_drop len input) (n - len) cap out
                  end
                else Done (None, n)
            end
      end
  end.

(** The characters of a block up to its first NUL, which is the C string. *)
Fixpoint cstr (s : string) : string :=
  match s with
  | EmptyString => EmptyString
  | String c s => if code c =? 0 then EmptyString else String c (cstr s)
  end.

Definition parse_string (item : cJSON) (b : parse_buffer) : outcome (option cJSON * parse_buffer) :=
  let fail n := Done (None, set_off n b) in
  c ← char_at (here b) 0;
  if negb (Ascii.eqb c quote) then fail (parse_off b + 1)%nat
  else
    let input := str_drop 1 (here b) in
    match scan_literal input with
    | None => fail (parse_off b + 1)%nat
    | Some (len, skipped_bytes) =>
        (* input_end - buffer_at_offset(input_buffer) is len + 1 *)
        let allocation_length := (len + 1 - skipped_bytes)%nat in
        if hooks (Z.of_nat (allocation_length + 1)) then
          r ← unescape_loop len input len (allocation_length + 1) "";
          match r with
          | (None, n) => fail (parse_off b + 1 + (len - n))%nat
          | (Some out, _) =>
              out ← put (allocation_length + 1) out (String nul "");
              Done (Some (mk_cJSON cJSON_String (Some (cstr out)) (valueint item) (valuedouble item)
                            (key item) (child item)),
                    set_off (parse_off b + 1 + len + 1) b)
          end
        else fail (parse_off b + 1)%nat
    end.

(** ** Values *)

Section Loops.
  Context (parse_value : cJSON -> parse_buffer -> outcome (option cJSON * parse_buffer)).

(** The [do ... while] loop over the elements, from the character in front of the
    next one; [head] lists the items so far. *)
Fixpoint parse_elements (fuel : nat) (head : list cJSON) (b : parse_buffer)
  : outcome (option (list cJSON) * parse_buffer) :=
  match fuel with
  | O => NoFuel
  | S fuel =>
      match cJSON_New_Item hooks with
      | None => Done (None, b)
      | Some new_item =>
          b ← buffer_skip_whitespace (set_off (parse_off b + 1) b);
          r ← parse_value new_item b;
          match r with
          | (None, b) => Done (None, b)
          | (Some x, b) =>
              b ← buffer_skip_whitespace b;
              more ← at_char b ","%char;
              if more : bool then parse_elements fuel (head ++ [x]) b
              else Done (Some (head ++ [x]), b)
          end
      end
  end.

(** What [parse_array] and [parse_object] share: the depth check, the brackets,
    the empty case, and the step back before the loop. *)
Definition parse_bracketed (open close : ascii) (checked : bool)
    (loop : parse_buffer -> outcome (option (list cJSON) * parse_buffer))
    (t : Z) (item : cJSON) (b : parse_buffer) : outcome (option cJSON * parse_buffer) :=
  if (CJSON_NESTING_LIMIT <=? parse_depth b)%nat then Done (None, b)
  else
    let b := set_pdepth (parse_depth b + 1) b in
    ok ← (if checked then at_char b open else c ← char_at (here b) 0; Done (Ascii.eqb c open));
    if negb ok then Done (None, b)
    else
      b ← buffer_skip_whitespace (set_off (parse_off b + 1) b);
      empty ← at_char b close;
      let success ch b :=
        Done (Some (mk_cJSON t (valuestring item) (valueint item) (valuedouble item) (key item) ch),
              set_off (parse_off b + 1) (set_pdepth (parse_depth b - 1) b)) in
      if empty : bool then success [] b
      else if negb (can_access_at_index b 0) then o ← dec_size (parse_off b); Done (None, set_off o b)
      else
        o ← dec_size (parse_off b);
        r ← loop (set_off o b);
        match r with
        | (None, b) => Done (None, b)
        | (Some ch, b) =>
            closed ← at_char b close;
            if closed : bool then success ch b else Done (None, b)
        end.

Definition parse_array (item : cJSON) (b : parse_buffer) : outcome (option cJSON * parse_buffer) :=
  parse_bracketed "[" "]" false (fun b => parse_elements (parse_len b) [] b) cJSON_Array item b.

Fixpoint parse_members (fuel : nat) (head : list cJSON) (b : parse_buffer)
  : outcome (option (list cJSON) * parse_buffer) :=
  match fuel with
  | O => NoFuel
  | S fuel =>
      match cJSON_New_Item hooks with
      | None => Done (None, b)
      | Some new_item =>
          b ← buffer_skip_whitespace (set_off (parse_off b + 1) b);
          r ← parse_string new_item b;
          match r with
          | (None, b) => Done (None, b)
          | (Some x, b) =>
              b ← buffer_skip_whitespace b;
              (* swap valuestring and string *)
              let x := mk_cJSON (type x) None (valueint x) (valuedouble x) (valuestring x) (child x) in
              colon ← at_char b ":"%char;
              if negb colon then Done (None, b)
              else
                b ← buffer_skip_whitespace (set_off (parse_off b + 1) b);
                r ← parse_value x b;
                match r with
                | (None, b) => Done (None, b)
                | (Some x, b) =>
                    b ← buffer_skip_whitespace b;
                    more ← at_char b ","%char;
                    if more : bool then parse_members fuel (head ++ [x]) b
                    else Done (Some (head ++ [x]), b)
                end
          end
      end
  end.

Definition parse_object (item : cJSON) (b : parse_buffer) : outcome (option cJSON * parse_buffer) :=
  parse_bracketed "{" "}" true (fun b => parse_members (parse_len b) [] b) cJSON_Object item b.
End Loops.

Definition retype (t vi : Z) (item : cJSON) : cJSON :=
  mk_cJSON t (valuestring item) vi (valuedouble item) (key item) (child item).

Fixpoint parse_value (fuel : nat) (item : cJSON) (b : parse_buffer)
  : outcome (option cJSON * parse_buffer) :=
  match fuel with
  | O => NoFuel
  | S fuel =>
      if can_read b 4 && String.prefix "null" (here b) then
        Done (Some (retype cJSON_NULL (valueint item) item), set_off (parse_off b + 4) b)
      else if can_read b 5 && String.prefix "false" (here b) then
        Done (Some (retype cJSON_False (valueint item) item), set_off (parse_off b + 5) b)
      else if can_read b 4 && String.prefix "true" (here b) then
        Done (Some (retype cJSON_True 1 item), set_off (parse_off b + 4) b)
      else if negb (can_access_at_index b 0) then Done (None, b)
      else
        c ← char_at (here b) 0;
        if Ascii.eqb c quote then parse_string item b
        else if (code c =? 45) || is_digit c then parse_number item b
        else if Ascii.eqb c "[" then parse_array (parse_value fuel) item b
        else if Ascii.eqb c "{" then parse_object (parse_value fuel) item b
        else Done (None, b)
  end.

(** The recursion of [parse_value] never exceeds the nesting limit. *)
Definition parse_fuel : nat := S CJSON_NESTING_LIMIT.

(** The result and the offset of [*return_parse_end] (on failure, the error
    position). *)
Definition snowflake_cJSON_ParseWithOpts (value : option string) (require_null_terminated : bool)
  : outcome (option cJSON * nat) :=
  match value with
  | None => Done (None, O)
  | Some value =>
      let len := (String.length value + 1)%nat in
      let b := mk_parse (value +:+ String nul "") len 0 0 in
      let fail b := Done (None, if (parse_off b <? len)%nat then parse_off b else (len - 1)%nat) in
      match cJSON_New_Item hooks with
      | None => fail b
      | Some item =>
          match skip_utf8_bom b with
          | None => fail b
          | Some b1 =>
              b2 ← buffer_skip_whitespace b1;
              r ← parse_value parse_fuel item b2;
              match r with
              | (None, b3) => fail b3
              | (Some item, b3) =>
                  if require_null_terminated then
                    b4 ← buffer_skip_whitespace b3;
                    if (parse_len b4 <=? parse_off b4)%nat then fail b4
                    else
                      c ← char_at (here b4) 0;
                      if negb (code c =? 0) then fail b4 else Done (Some item, parse_off b4)
                  else Done (Some item, parse_off b3)
              end
          end
      end
  end.

Definition snowflake_cJSON_Parse (value : option string) : outcome (option cJSON) :=
  r ← snowflake_cJSON_ParseWithOpts value false; Done (fst r).
End Parse.

Example parse_print_sample :
  snowflake_cJSON_Parse all_hooks (render true 0 print_sample)
  = Done (Some (mk_cJSON cJSON_Object None 0 zero_double None
    [mk_cJSON cJSON_Number None 0 (sd_val (strtod "0.1")) (Some "a") [];
     mk_cJSON cJSON_Array None 0 zero_double (Some (String (chr 7) (String quote "b")))
       [mk_cJSON cJSON_True None 1 zero_double None [];
        mk_cJSON cJSON_Object None 0 zero_double None []]])).
Proof. vm_compute. reflexivity. Qed.
Example parse_error_position :
  snowflake_cJSON_ParseWithOpts all_hooks (Some "[1, 2, x]") false = Done (None, 7%nat).
Proof. vm_compute. reflexivity. Qed.

(** ** Facts: positions in the input *)

Lemma get_drop k s i : String.get i (str_drop k s) = String.get (k + i) s.
Proof. revert s. induction k as [|k IH]; intros [|c s]; cbn; auto; by destruct i. Qed.

Lemma get_Some s i : (i < String.length s)%nat -> exists c, String.get i s = Some c.
Proof. revert i. induction s as [|c s IH]; intros [|i] H; cbn in *; eauto; try lia. apply IH. lia. Qed.

Lemma str_drop_drop a b s : str_drop a (str_drop b s) = str_drop (b + a) s.
Proof. revert s. induction b as [|b IH]; intros [|c s]; cbn; auto; by destruct a. Qed.

Lemma str_drop_app_lt k s t : (k <= String.length s)%nat -> str_drop k (s +:+ t) = str_drop k s +:+ t.
Proof. revert s. induction k as [|k IH]; intros [|c s] H; cbn in *; auto; [lia|]. apply IH. lia. Qed.

(** ** Escapes fit the block of [parse_string]

    [allow esc s n]: how many of the first [n] characters do not open an escape,
    when the first pass enters them inside an escape iff [esc]. *)
Fixpoint allow (esc : bool) (s : string) (n : nat) : nat :=
  match n, s with
  | S n, String c s =>
      if esc then S (allow false s n)
      else if Ascii.eqb c backslash then allow true s n else S (allow false s n)
  | _, _ => O
  end.

Definition next_esc (esc : bool) (c : ascii) : bool := negb esc && Ascii.eqb c backslash.

(** The first pass stops at a quote after [n] characters, not inside an escape. *)
Fixpoint literal (esc : bool) (s : string) (n : nat) : Prop :=
  match s with
  | EmptyString => False
  | String c s =>
      match n with
      | O => esc = false /\ c = quote
      | S n => literal (next_esc esc c) s n
      end
  end.

Lemma scan_literal_ok s n k :
  scan_literal s = Some (n, k) -> literal false s n /\ (allow false s n + k = n)%nat.
Proof.
  remember (String.length s) as m eqn:Em. assert (String.length s <= m)%nat as Hm by lia. clear Em.
  revert s n k Hm. induction m as [|m IH]; intros [|c s] n k Hm; cbn [scan_literal]; try done; [cbn in Hm; lia|].
  destruct (Ascii.eqb c quote) eqn:Eq.
  { apply Ascii.eqb_eq in Eq as ->. intros [= <- <-]. done. }
  destruct (Ascii.eqb c backslash) eqn:Eb.
  - destruct s as [|d s]; [done|]. destruct (scan_literal s) as [[n' k']|] eqn:E; [|done].
    intros [= <- <-]. destruct (IH s n' k') as [Hl Ha]; [cbn in Hm; lia|done|].
    rewrite !(Nat.add_comm _ 2). cbn [literal allow Nat.add]. unfold next_esc. rewrite Eb. cbn.
    split; [done|lia].
  - destruct (scan_literal s) as [[n' k']|] eqn:E; [|done].
    intros [= <- <-]. destruct (IH s n' k') as [Hl Ha]; [cbn in Hm; lia|done|].
    rewrite !(Nat.add_comm _ 1). cbn [literal allow Nat.add]. unfold next_esc. rewrite Eb. cbn.
    split; [done|lia].
Qed.

Lemma literal_length esc s n : literal esc s n -> (n < String.length s)%nat.
Proof. revert esc n. induction s as [|c s IH]; intros esc [|n]; cbn; try done; [lia|]. intros H%IH. lia. Qed.

Lemma literal_drop esc s n k :
  literal esc s n -> (k <= n)%nat ->
  exists esc', literal esc' (str_drop k s) (n - k) /\ (allow esc' (str_drop k s) (n - k) + k / 2 <= allow esc s n)%nat.
Proof.
  remember (k / 2)%nat as h eqn:Eh. revert esc s n k Eh. induction h as [|h IH]; intros esc s n k Eh H Hk.
  - assert (k = 0 \/ k = 1)%nat as [-> | ->].
    { destruct k as [|[|k]]; auto. exfalso. rewrite (Nat.div_mod_eq (S (S k)) 2) in Hk. 
      pose proof (Nat.mod_upper_bound (S (S k)) 2 ltac:(lia)). pose proof (Nat.div_mod_eq (S (S k)) 2). lia. }
    + exists esc. rewrite Nat.sub_0_r. cbn. split; [done|lia].
    + destruct s as [|c s]; [done|]. destruct n as [|n]; [lia|]. cbn in H.
      exists (next_esc esc c). cbn [allow str_drop Nat.sub]. rewrite Nat.sub_0_r. split; [done|].
      unfold next_esc. destruct esc, (Ascii.eqb c backslash); cbn; lia.
  - pose proof (Nat.div_mod_eq k 2). pose proof (Nat.mod_upper_bound k 2 ltac:(lia)).
    assert (exists k', k = S (S k')) as [k' ->] by (exists (k - 2)%nat; lia).
    destruct s as [|c s]; [done|]. destruct n as [|n]; [lia|]. cbn in H.
    destruct s as [|d s]; [done|]. destruct n as [|n]; [lia|]. cbn in H.
    assert (h = k' / 2)%nat as Eh'.
    { replace (S (S k')) with (k' + 1 * 2)%nat in Eh by lia. rewrite Nat.div_add in Eh; lia. }
    destruct (IH _ s n k' Eh' H) as (esc' & Hl & Ha); [lia|].
    exists esc'. cbn [str_drop Nat.sub]. split; [done|].
    unfold next_esc in Ha. cbn [allow]. destruct esc, (Ascii.eqb c backslash), (Ascii.eqb d backslash); cbn in *; lia.
Qed.

Lemma char_at_Done s i : (i < String.length s)%nat -> exists c, char_at s i = Done c.
Proof. intros H. destruct (get_Some s i H) as [c E]. exists c. unfold char_at. by rewrite E. Qed.

Lemma hex_value_range c v : hex_value c = Some v -> 0 <= v < 16.
Proof.
  unfold hex_value. repeat case_match; try done; intros [= <-];
  repeat match goal with H : _ && _ = true |- _ => apply andb_true_iff in H as [?%Z.leb_le ?%Z.leb_le] end; lia.
Qed.

Lemma hex4_loop_ok s n h :
  (n <= String.length s)%nat -> 0 <= h ->
  exists v, hex4_loop s n h = Done v /\ 0 <= v /\
    (v <= 0 \/ (n = 0%nat /\ v = h) \/ v < (h + 16) * 16 ^ (Z.of_nat n - 1)).
Proof.
  revert s h. induction n as [|n IH]; intros s h Hn Hh; cbn [hex4_loop]; [exists h; eauto 10|].
  destruct (char_at_Done s 0) as [c ->]; [lia|]. rewrite bind_Done_l.
  destruct (hex_value c) as [v|] eqn:E; [|exists 0; split_and!; auto; lia].
  apply hex_value_range in E.
  destruct (n =? 0)%nat eqn:E0.
  - apply Nat.eqb_eq in E0 as ->. cbn [hex4_loop]. exists (h + v). split_and!; [done|lia|].
    right; right. change (Z.of_nat 1 - 1) with 0. lia.
  - apply Nat.eqb_neq in E0.
    destruct (IH (str_drop 1 s) (Z.shiftl (h + v) 4)) as (w & -> & Hw0 & Hw).
    { rewrite str_drop_length. lia. } { rewrite Z.shiftl_mul_pow2 by lia. lia. }
    exists w. split_and!; [done|lia|]. destruct Hw as [?|[[? _]|Hw]]; [by left|lia|].
    right; right. rewrite Z.shiftl_mul_pow2 in Hw by lia. change (2 ^ 4) with 16 in Hw.
    replace (Z.of_nat (S n) - 1) with (Z.succ (Z.of_nat n - 1)) by lia.
    rewrite Z.pow_succ_r by lia.
    assert (0 < 16 ^ (Z.of_nat n - 1)) by (apply Z.pow_pos_nonneg; lia). nia.
Qed.

Lemma parse_hex4_ok s :
  (4 <= String.length s)%nat -> exists v, parse_hex4 s = Done v /\ 0 <= v < 65536.
Proof.
  intros H. destruct (hex4_loop_ok s 4 0) as (v & E & Hv0 & Hv); [lia|lia|].
  exists v. split; [done|]. change (16 ^ (Z.of_nat 4 - 1)) with 4096 in Hv. lia.
Qed.

Lemma utf8_bytes_length n mark cp : (1 <= n)%nat -> String.length (utf8_bytes n mark cp) = n.
Proof.
  intros Hn. unfold utf8_bytes.
  assert (forall k c acc, String.length (snd (utf8_tail k c acc)) = (k + String.length acc)%nat) as H.
  { induction k as [|k IH]; intros c acc; cbn [utf8_tail]; [done|]. rewrite IH. cbn. lia. }
  specialize (H (n - 1)%nat cp ""). destruct (utf8_tail _ _ _) as [c t]. cbn in *. lia.
Qed.

Lemma utf16_ok input n :
  (n <= String.length input)%nat ->
  exists r, utf16_literal_to_utf8 input n = Done r /\
    forall len l, r = Some (len, l) -> (6 <= len <= n)%nat /\ (String.length l <= len / 2)%nat.
Proof.
  intros Hn. unfold utf16_literal_to_utf8. destruct (n <? 6)%nat eqn:E6; [eexists; split; [done|]; done|].
  apply Nat.ltb_ge in E6.
  destruct (parse_hex4_ok (str_drop 2 input)) as (v & -> & Hv); [rewrite str_drop_length; lia|].
  rewrite bind_Done_l. destruct (_ && _); [eexists; split; [done|]; done|].
  assert (exists r', code_point input n v = Done r' /\ forall len cp, r' = Some (len, cp) ->
    (len = 6%nat /\ cp < 65536) \/ (len = 12%nat /\ (12 <= n)%nat)) as (r' & -> & Hr).
  { unfold code_point. destruct (_ && _); [|eexists; split; [done|]; intros ? ? [= <- <-]; left; lia].
    destruct (n - 6 <? 6)%nat eqn:E12; [eexists; split; [done|]; done|]. apply Nat.ltb_ge in E12.
    destruct (char_at_Done (str_drop 6 input) 0) as [c0 ->]; [rewrite str_drop_length; lia|]. rewrite bind_Done_l.
    assert (exists c1, (if Ascii.eqb c0 backslash then char_at (str_drop 6 input) 1 else Done c0) = Done c1) as [c1 ->].
    { destruct (Ascii.eqb _ _); [|eauto]. apply char_at_Done. rewrite str_drop_length. lia. }
    rewrite bind_Done_l. destruct (_ || _); [eexists; split; [done|]; done|].
    destruct (parse_hex4_ok (str_drop 2 (str_drop 6 input))) as (w & -> & Hw).
    { rewrite !str_drop_length. lia. }
    rewrite bind_Done_l. destruct (_ || _); [eexists; split; [done|]; done|].
    eexists; split; [done|]. intros ? ? [= <- <-]. right. lia. }
  rewrite bind_Done_l. destruct r' as [[len cp]|]; [|eexists; split; [done|]; done].
  specialize (Hr len cp eq_refl).
  assert (6 <= len <= n /\ (3 <= len / 2))%nat as [Hlen H3].
  { destruct Hr as [[-> _]|[-> ?]]; cbn; lia. }
  assert (forall k mark, (1 <= k <= len / 2)%nat ->
    exists r, Done (Some (len, utf8_bytes k mark cp)) = Done r /\
      forall len' l, r = Some (len', l) -> (6 <= len' <= n)%nat /\ (String.length l <= len' / 2)%nat) as Hgo.
  { intros k mark Hk. eexists; split; [done|]. intros ? ? [= <- <-]. rewrite utf8_bytes_length; lia. }
  destruct (cp <? 128); [apply Hgo; lia|]. destruct (cp <? 2048); [apply Hgo; lia|].
  destruct (cp <? 65536) eqn:E3; [apply Hgo; lia|].
  apply Z.ltb_ge in E3; destruct Hr as [[_ ?]|[-> ?]]; [lia|].
  destruct (_ <=? _); [apply Hgo; cbn; lia|]. eexists; split; [done|]; done.
Qed.

Lemma allow_pos esc s n c : literal esc (String c s) (S n) ->
  (Ascii.eqb c backslash = false \/ n = O) -> (1 <= allow esc (String c s) (S n))%nat.
Proof.
  intros H Hc. cbn [allow]. destruct esc; [lia|]. destruct (Ascii.eqb c backslash) eqn:E; [|lia].
  destruct Hc as [?| ->]; [done|]. cbn [literal] in H. unfold next_esc in H. rewrite E in H.
  destruct s; [done|]. destruct H as [H _]. done.
Qed.

Lemma put_ok cap out l : (String.length out + String.length l <= cap)%nat -> put cap out l = Done (out +:+ l).
Proof. intros H. unfold put. by apply Nat.leb_le in H as ->. Qed.

Lemma unescape_char_u c e : unescape_char c = Some e -> Ascii.eqb c "u" = false.
Proof. destruct (Ascii.eqb c "u") eqn:E; [|done]. apply Ascii.eqb_eq in E as ->. by vm_compute. Qed.

Lemma unescape_loop_ok fuel esc input n cap out :
  (n <= fuel)%nat -> literal esc input n -> (String.length out + allow esc input n + 1 <= cap)%nat ->
  exists r m, unescape_loop fuel input n cap out = Done (r, m) /\ (m <= n)%nat /\
    forall out', r = Some out' -> (String.length out' + 1 <= cap)%nat.
Proof.
  revert esc input n out. induction fuel as [|fuel IH]; intros esc input n out Hf Hl Hc.
  { assert (n = O) as -> by lia. do 2 eexists. split; [done|]. split; [lia|]. intros ? [= <-]. lia. }
  destruct n as [|n].
  { do 2 eexists. split; [done|]. split; [lia|]. intros ? [= <-]. lia. }
  (* the rest of the loop, after a token of [k] characters *)
  assert (forall k out1, (1 <= k)%nat -> (String.length out1 + 1 <= cap)%nat ->
       (exists esc', literal esc' (str_drop k input) (S n - k) /\
         (String.length out1 + allow esc' (str_drop k input) (S n - k) + 1 <= cap)%nat) \/ (S n - k = 0)%nat ->
       exists r m, unescape_loop fuel (str_drop k input) (S n - k) cap out1 = Done (r, m) /\ (m <= S n)%nat /\
         forall out', r = Some out' -> (String.length out' + 1 <= cap)%nat) as Hrec.
  { intros k out1 Hk Ho Hnext.
    destruct Hnext as [(esc' & Hl' & Ha)|E0].
    - destruct (IH esc' (str_drop k input) (S n - k)%nat out1) as (r & m & E & Hm & Hr); [lia|done|done|].
      exists r, m. split_and!; auto; lia.
    - rewrite E0. exists (Some out1), O. split; [by destruct fuel|]. split; [lia|]. by intros ? [= <-]. }
  pose proof (literal_length _ _ _ Hl) as Hlen.
  destruct input as [|c input']; [done|]. cbn [unescape_loop char_at String.get deref]. 
  change (char_at (String c input') 0) with (Done c). rewrite bind_Done_l.
  set (input := String c input') in *.
  destruct (negb (Ascii.eqb c backslash)) eqn:Ec.
  - apply negb_true_iff in Ec. pose proof (allow_pos esc input' n c Hl (or_introl Ec)) as Hp. fold input in Hp.
    rewrite put_ok by (cbn [String.length]; lia). rewrite bind_Done_l.
    apply (Hrec 1%nat _ ltac:(lia)); [rewrite str_length_app; cbn [String.length]; lia|].
    left. rewrite str_length_app. cbn [String.length].
    exists (next_esc esc c). replace (S n - 1)%nat with n by lia. split; [exact Hl|].
    revert Hc. subst input. clear -Ec. cbn [str_drop allow].
    unfold next_esc. rewrite Ec. destruct esc; cbn [negb andb]; lia.
  - apply negb_false_iff in Ec.
    destruct (char_at_Done input 1) as [c1 Ec1]; [lia|]. rewrite Ec1, bind_Done_l.
    assert (forall l len, (2 <= len)%nat -> (String.length l <= len / 2)%nat -> (len <= S n)%nat \/ (n = O /\ len = 2%nat) ->
      exists r m, (out1 ← put cap out l; unescape_loop fuel (str_drop len input) (S n - len) cap out1) = Done (r, m) /\
        (m <= S n)%nat /\ forall out', r = Some out' -> (String.length out' + 1 <= cap)%nat) as Htok.
    { intros l len Hlen2 Hll Hle. destruct Hle as [Hle|[-> ->]].
      - destruct (literal_drop esc input (S n) len Hl Hle) as (esc' & Hl' & Ha).
        rewrite put_ok by lia. rewrite bind_Done_l. apply (Hrec len _ ltac:(lia)); rewrite str_length_app; [lia|].
        left. exists esc'. split; [done|]. lia.
      - pose proof (allow_pos esc input' 0 c Hl (or_intror eq_refl)). cbn in Hll.
        rewrite put_ok by (subst input; lia). rewrite bind_Done_l.
        apply (Hrec 2%nat _ ltac:(lia)); rewrite ?str_length_app; [subst input; lia|]. by right. }
    destruct (unescape_char c1) as [e|].
    + apply (Htok (String e "") 2%nat); [lia|cbn; lia|lia].
    + destruct (Ascii.eqb c1 "u").
      * destruct (utf16_ok input (S n)) as (r & -> & Hr); [lia|]. rewrite bind_Done_l.
        destruct r as [[len l]|]; [|do 2 eexists; split; [done|]; split; [lia|done]].
        destruct (Hr len l eq_refl) as [? ?]. apply Htok; lia.
      * do 2 eexists; split; [done|]; split; [lia|done].
Qed.

(** ** The parser stays inside the input *)

Section Safety.
  Context (hooks : Z -> bool) (s : string) (Hs : no_nul s = true).

(** The buffer holds [s] and its NUL. *)
Definition holds (b : parse_buffer) : Prop :=
  content b = s +:+ String nul "" /\ parse_len b = (String.length s + 1)%nat.
Definition inside (b : parse_buffer) : Prop := holds b /\ (parse_off b <= String.length s)%nat.

(** A parser step that returns, advances on success and stays inside. *)
Definition advances (b : parse_buffer) (o : outcome (option cJSON * parse_buffer)) : Prop :=
  exists r b', o = Done (r, b') /\ holds b' /\
    (r <> None -> (parse_off b < parse_off b' <= String.length s)%nat /\ parse_depth b' = parse_depth b).

Lemma here_inside b : inside b -> here b = str_drop (parse_off b) s +:+ String nul "".
Proof. intros [[Hc _] Ho]. unfold here. rewrite Hc. by apply str_drop_app_lt. Qed.

Lemma char_here b : inside b -> exists c, char_at (here b) 0 = Done c.
Proof. intros H. apply char_at_Done. rewrite here_inside by done. rewrite str_length_app. cbn. lia. Qed.

Lemma at_char_ok b c : inside b -> exists r, at_char b c = Done r.
Proof.
  intros H. unfold at_char. destruct (can_access_at_index b 0); [|eauto].
  destruct (char_here b H) as [d ->]. rewrite bind_Done_l. eauto.
Qed.

Lemma can_access_inside b : inside b -> can_access_at_index b 0 = true.
Proof. intros [[_ Hl] Ho]. unfold can_access_at_index. apply Nat.ltb_lt. lia. Qed.

Lemma char_here_inside b c : inside b -> c <> nul -> char_at (here b) 0 = Done c -> (parse_off b < String.length s)%nat.
Proof.
  intros Hin Hc. rewrite here_inside by done.
  destruct Hin as [_ Ho]. pose proof (str_drop_length (parse_off b) s).
  destruct (str_drop (parse_off b) s) as [|d t] eqn:E; [|cbn in H; lia].
  change (char_at ("" +:+ String nul "") 0) with (Done nul). intros [= Heq]. by subst.
Qed.

Lemma at_char_true b c : inside b -> c <> nul -> at_char b c = Done true -> (parse_off b < String.length s)%nat.
Proof.
  intros Hin Hc. unfold at_char. rewrite can_access_inside by done.
  destruct (char_here b Hin) as [d Ed]. rewrite Ed, bind_Done_l. intros H.
  destruct (Ascii.eqb d c) eqn:E; [|done]. apply Ascii.eqb_eq in E as ->. by eapply char_here_inside.
Qed.

Lemma skip_loop_le t n : (skip_loop t n <= n)%nat.
Proof. revert t. induction n as [|n IH]; intros [|c t]; cbn; try lia. destruct (_ <=? _); [|lia]. specialize (IH t). lia. Qed.

Lemma skip_ok b :
  holds b -> (parse_off b <= String.length s + 1)%nat ->
  exists o, buffer_skip_whitespace b = Done (set_off o b) /\ (o <= String.length s)%nat /\
    (Nat.min (parse_off b) (String.length s) <= o)%nat.
Proof.
  intros [Hc Hl] Ho. unfold buffer_skip_whitespace.
  pose proof (skip_loop_le (here b) (parse_len b - parse_off b)).
  destruct (_ =? _)%nat eqn:E.
  - apply Nat.eqb_eq in E. rewrite E, Hl, Nat.add_1_r. cbn [dec_size]. rewrite bind_Done_l.
    eexists; split; [done|]. lia.
  - apply Nat.eqb_neq in E. eexists; split; [done|]. lia.
Qed.

Lemma inside_set o b : holds b -> (o <= String.length s)%nat -> inside (set_off o b).
Proof. by intros [? ?] ?. Qed.

(** Text without NUL found at the offset lies before the NUL. *)
Lemma prefix_inside p b : inside b -> no_nul p = true -> String.prefix p (here b) = true ->
  (parse_off b + String.length p <= String.length s)%nat.
Proof.
  intros Hin Hp. rewrite here_inside by done. destruct Hin as [_ Ho].
  intros H. assert (String.length p <= String.length (str_drop (parse_off b) s))%nat as Hle.
  { revert H. generalize (str_drop (parse_off b) s). clear -Hp.
    induction p as [|c p IH]; intros t; cbn [String.length]; [lia|].
    cbn in Hp. apply andb_true_iff in Hp as [Hc Hp]. destruct t as [|d t]; cbn.
    - destruct (ascii_dec c _) as [->|]; [by vm_compute in Hc|done].
    - destruct (ascii_dec c d); [|done]. intros H. specialize (IH Hp t H). lia. }
  rewrite str_drop_length in Hle. lia.
Qed.

Lemma number_chars_len t n : (String.length (number_chars (t +:+ String nul "") n) <= String.length t)%nat.
Proof.
  revert n. induction t as [|c t IH]; intros [|n]; cbn; try lia.
  - by destruct n.
  - destruct (is_number_char c); cbn; [|lia]. specialize (IH n). lia.
Qed.

Lemma parse_number_ok item b : inside b -> advances b (parse_number item b).
Proof.
  intros Hin. unfold parse_number, advances. rewrite here_inside by done.
  set (t := number_chars _ _).
  pose proof (number_chars_len (str_drop (parse_off b) s) (Nat.min 63 (parse_len b - parse_off b))) as Hl.
  pose proof (strto_float_len 53 1024 t) as He. fold strtod in He. fold t in Hl.
  rewrite str_drop_length in Hl. destruct Hin as [Hh Ho].
  destruct (sd_end (strtod t) =? 0)%nat eqn:E; do 2 eexists; (split; [done|]).
  - done.
  - apply Nat.eqb_neq in E. split; [done|]. intros _. cbn. split; [lia|done].
Qed.

Lemma literal_quote esc t n : literal esc (t +:+ String nul "") n -> (n < String.length t)%nat.
Proof.
  revert esc n. induction t as [|c t IH]; intros esc [|n]; cbn; try done; try lia.
  - intros [_ H]. discriminate.
  - intros H%IH. lia.
Qed.

Lemma parse_string_ok item b : inside b -> advances b (parse_string hooks item b).
Proof.
  intros Hin. unfold parse_string. destruct (char_here b Hin) as [c Ec]. rewrite Ec, bind_Done_l.
  assert (forall n, advances b (Done (None, set_off n b))) as Hfail.
  { intros n. do 2 eexists; split; [done|]. split; [by destruct Hin as [? _]|done]. }
  destruct (Ascii.eqb c quote) eqn:Eq; cbn [negb]; [|apply Hfail].
  apply Ascii.eqb_eq in Eq as ->.
  destruct (scan_literal _) as [[len k]|] eqn:Es; [|apply Hfail].
  apply scan_literal_ok in Es as [Hlit Hallow].
  destruct (hooks _); [|apply Hfail].
  destruct (unescape_loop_ok len false (str_drop 1 (here b)) len (len + 1 - k + 1) "") as (r & m & -> & Hm & Hr);
    [done|done|cbn [String.length]; lia|].
  rewrite bind_Done_l. destruct r as [out|]; [|apply Hfail].
  specialize (Hr out eq_refl). rewrite put_ok by (cbn; lia). rewrite bind_Done_l.
  do 2 eexists; split; [done|]. split; [by destruct Hin as [? _]|]. intros _. cbn. split; [|done].
  assert (exists t, str_drop 1 (here b) = t +:+ String nul "" /\ (parse_off b + 1 + String.length t <= String.length s)%nat) as (t & Et & Ht).
  { rewrite here_inside in Ec |- * by done. pose proof (str_drop_length (parse_off b) s) as Hd.
    destruct Hin as [_ Ho].
    destruct (str_drop (parse_off b) s) as [|d t]; [discriminate|]. exists t. cbn in *. split; [done|lia]. }
  rewrite Et in Hlit. apply literal_quote in Hlit. lia.
Qed.

Section Recursive.
  (** The recursive call, one level deeper. *)
  Context (pv : cJSON -> parse_buffer -> outcome (option cJSON * parse_buffer)) (d : nat).
  Context (Hpv : forall item b, inside b -> parse_depth b = d -> advances b (pv item b)).

(** What the element and member loops guarantee: they return, and on success they
    stop inside the input, past the start. *)
Definition loop_ok (b : parse_buffer) (o : outcome (option (list cJSON) * parse_buffer)) : Prop :=
  exists r b', o = Done (r, b') /\ holds b' /\
    (r <> None -> (parse_off b < parse_off b' <= String.length s)%nat /\ parse_depth b' = parse_depth b).

(** After an item, at a comma, a closing bracket or garbage. *)
Lemma loop_tail (rest : list cJSON -> parse_buffer -> outcome (option (list cJSON) * parse_buffer)) head b0 b :
  inside b -> (parse_off b0 < parse_off b)%nat -> parse_depth b = d -> parse_depth b0 = d ->
  (forall b' h, inside b' -> (parse_off b <= parse_off b')%nat -> parse_depth b' = d -> loop_ok b' (rest h b')) ->
  loop_ok b0 (b1 ← buffer_skip_whitespace b; more ← at_char b1 ","%char;
              if more : bool then rest head b1 else Done (Some head, b1)).
Proof.
  intros Hin Hlt Hd Hd0 Hrest. destruct (skip_ok b) as (o & -> & Ho & Hmin); [by destruct Hin|destruct Hin; lia|].
  rewrite bind_Done_l. assert (inside (set_off o b)) as Hin' by (apply inside_set; [by destruct Hin|done]).
  assert (parse_off b <= o)%nat as Hle by (destruct Hin; lia).
  destruct (at_char_ok (set_off o b) ",") as [[] ->]; [done|rewrite bind_Done_l..].
  - destruct (Hrest (set_off o b) head Hin' Hle Hd) as (r & b' & E & Hh & Hr).
    exists r, b'. split_and!; [done|done|]. intros Hne. destruct (Hr Hne) as [? ?]. cbn in *. split; [lia|congruence].
  - do 2 eexists; split; [done|]. split; [by destruct Hin'|]. intros _. cbn. split; [lia|congruence].
Qed.

Lemma step_in b : inside b ->
  exists o, buffer_skip_whitespace (set_off (parse_off b + 1) b) = Done (set_off o b) /\ (o <= String.length s)%nat /\
    (parse_off b <= o)%nat /\ ((parse_off b < String.length s)%nat -> (parse_off b < o)%nat).
Proof.
  intros [Hh Ho]. destruct (skip_ok (set_off (parse_off b + 1) b)) as (o & -> & ? & Hm); [done|cbn; lia|].
  exists o. cbn in Hm. split_and!; [done|lia|lia|lia].
Qed.

Lemma parse_elements_ok fuel head b :
  inside b -> parse_depth b = d -> (String.length s < fuel + parse_off b)%nat ->
  loop_ok b (parse_elements hooks pv fuel head b).
Proof.
  revert head b. induction fuel as [|fuel IH]; intros head b Hin Hd Hf; [destruct Hin; lia|].
  cbn [parse_elements]. destruct (cJSON_New_Item hooks) as [it|].
  2:{ do 2 eexists; split; [done|]. split; [by destruct Hin|done]. }
  destruct (step_in b Hin) as (o & -> & Ho & Hle & Hlt). rewrite bind_Done_l.
  assert (inside (set_off o b)) as Hin1 by (apply inside_set; [by destruct Hin|done]).
  destruct (Hpv it (set_off o b) Hin1 Hd) as (r & b1 & -> & Hh1 & Hr). rewrite bind_Done_l.
  destruct r as [x|]; [|do 2 eexists; split; [done|]; by split].
  destruct Hr as [[Hlo Hhi] Hd1]; [done|]. cbn in Hlo, Hd1.
  apply (loop_tail (parse_elements hooks pv fuel)); [by split|lia|congruence|done|].
  intros b' h Hin' Hle' Hd'. apply IH; [done|done|lia].
Qed.

Lemma parse_members_ok fuel head b :
  inside b -> parse_depth b = d -> (String.length s < fuel + parse_off b)%nat ->
  loop_ok b (parse_members hooks pv fuel head b).
Proof.
  revert head b. induction fuel as [|fuel IH]; intros head b Hin Hd Hf; [destruct Hin; lia|].
  cbn [parse_members]. destruct (cJSON_New_Item hooks) as [it|].
  2:{ do 2 eexists; split; [done|]. split; [by destruct Hin|done]. }
  destruct (step_in b Hin) as (o & -> & Ho & Hle & Hlt). rewrite bind_Done_l.
  assert (inside (set_off o b)) as Hin1 by (apply inside_set; [by destruct Hin|done]).
  destruct (parse_string_ok it (set_off o b) Hin1) as (r & b1 & -> & Hh1 & Hr). rewrite bind_Done_l.
  destruct r as [x|]; [|do 2 eexists; split; [done|]; by split].
  destruct Hr as [[Hlo Hhi] Hd1]; [done|]. cbn in Hlo, Hd1.
  destruct (skip_ok b1 Hh1) as (o2 & -> & Ho2 & Hm2); [lia|]. rewrite bind_Done_l.
  assert (inside (set_off o2 b1)) as Hin2 by (by apply inside_set).
  destruct (at_char_ok (set_off o2 b1) ":") as [colon ->]; [done|]. rewrite bind_Done_l.
  destruct colon; cbn [negb]; [|do 2 eexists; split; [done|]; by split].
  destruct (step_in (set_off o2 b1) Hin2) as (o3 & E3 & Ho3 & Hle3 & _). rewrite E3, bind_Done_l. cbn in Hle3.
  change (set_off o3 (set_off o2 b1)) with (set_off o3 b1).
  assert (inside (set_off o3 b1)) as Hin3 by (by apply inside_set).
  destruct (Hpv (mk_cJSON (type x) None (valueint x) (valuedouble x) (valuestring x) (child x)) (set_off o3 b1) Hin3)
    as (r & b2 & -> & Hh2 & Hr2); [cbn; congruence|]. rewrite bind_Done_l.
  destruct r as [y|]; [|do 2 eexists; split; [done|]; by split].
  destruct Hr2 as [[Hlo2 Hhi2] Hd2]; [done|]. cbn in Hlo2, Hd2.
  apply (loop_tail (parse_members hooks pv fuel)); [by split|lia|congruence|done|].
  intros b' h Hin' Hle' Hd'. apply IH; [done|done|lia].
Qed.

Lemma parse_bracketed_ok open close checked loop t item b :
  inside b -> (parse_depth b + 1 = d)%nat -> open <> nul -> close <> nul ->
  (forall b', inside b' -> parse_depth b' = d -> loop_ok b' (loop b')) ->
  advances b (parse_bracketed open close checked loop t item b).
Proof.
  intros Hin Hd Hopen Hclose Hloop. unfold parse_bracketed. destruct (_ <=? _)%nat.
  { do 2 eexists; split; [done|]. split; [by destruct Hin|done]. }
  set (b0 := set_pdepth (parse_depth b + 1) b).
  assert (inside b0) as Hin0 by done.
  assert (exists ok, (if checked then at_char b0 open else c ← char_at (here b0) 0; Done (Ascii.eqb c open)) = Done ok
    /\ (ok = true -> (parse_off b < String.length s)%nat)) as (ok & -> & Hok).
  { destruct checked.
    - destruct (at_char_ok b0 open Hin0) as [ok E]. exists ok. split; [done|].
      intros ->. by apply (at_char_true b0 open).
    - destruct (char_here b0 Hin0) as [c E]. rewrite E, bind_Done_l. eexists; split; [done|].
      intros ->%Ascii.eqb_eq. by apply (char_here_inside b0 open). }
  rewrite bind_Done_l. destruct ok; cbn [negb]; [|do 2 eexists; split; [done|]; split; [by destruct Hin0|done]].
  specialize (Hok eq_refl).
  destruct (step_in b0 Hin0) as (o & -> & Ho & _ & Hlt). rewrite bind_Done_l. specialize (Hlt Hok). cbn in Hlt.
  assert (inside (set_off o b0)) as Hin1 by (apply inside_set; [by destruct Hin0|done]).
  destruct (at_char_ok (set_off o b0) close) as [empty Eempty]; [done|]. rewrite Eempty, bind_Done_l.
  assert (forall ch b', inside b' -> (parse_off b <= parse_off b')%nat -> parse_depth b' = d ->
    at_char b' close = Done true -> advances b (Done (Some (mk_cJSON t (valuestring item) (valueint item)
      (valuedouble item) (key item) ch), set_off (parse_off b' + 1) (set_pdepth (parse_depth b' - 1) b')))) as Hsuccess.
  { intros ch b' Hin' Hle' Hd' Hat. do 2 eexists; split; [done|]. split; [by destruct Hin'|]. intros _. cbn.
    pose proof (at_char_true b' close Hin' Hclose Hat). split; [lia|]. lia. }
  destruct empty; [apply Hsuccess; [done|cbn; lia|cbn; lia|done]|].
  rewrite can_access_inside by done. cbn [negb].
  cbn [parse_off set_off]. destruct o as [|o]; [lia|]. cbn [dec_size]. rewrite bind_Done_l.
  destruct (Hloop (set_off o (set_off (S o) b0))) as (r & b1 & -> & Hh1 & Hr).
  { apply inside_set; [by destruct Hin1|lia]. } { cbn. lia. }
  rewrite bind_Done_l. destruct r as [ch|]; [|do 2 eexists; split; [done|]; by split].
  destruct Hr as [[Hlo Hhi] Hd1]; [done|]. cbn in Hlo, Hd1.
  destruct (at_char_ok b1 close) as [closed Ecl]; [by split|]. rewrite Ecl, bind_Done_l.
  destruct closed; [apply Hsuccess; [by split|lia|lia|done]|]. do 2 eexists; split; [done|]; by split.
Qed.
End Recursive.

Lemma parse_value_ok fuel item b :
  inside b -> (CJSON_NESTING_LIMIT < fuel + parse_depth b)%nat -> (parse_depth b <= CJSON_NESTING_LIMIT)%nat ->
  advances b (parse_value hooks fuel item b).
Proof.
  revert item b. induction fuel as [|fuel IH]; intros item b Hin Hf Hd; [lia|]. cbn [parse_value].
  assert (forall p n x, no_nul p = true -> String.length p = n -> (0 < n)%nat -> String.prefix p (here b) = true ->
    advances b (Done (Some x, set_off (parse_off b + n) b))) as Hlit.
  { intros p n x Hp <- Hn Hpre. pose proof (prefix_inside p b Hin Hp Hpre).
    do 2 eexists; split; [done|]. split; [by destruct Hin|]. cbn. intros _. split; [lia|done]. }
  destruct (_ && String.prefix "null" _) eqn:E1; [apply andb_true_iff in E1 as [_ E1]; apply (Hlit "null" 4%nat); [done|done|lia|done]|].
  destruct (_ && String.prefix "false" _) eqn:E2; [apply andb_true_iff in E2 as [_ E2]; apply (Hlit "false" 5%nat); [done|done|lia|done]|].
  destruct (_ && String.prefix "true" _) eqn:E3; [apply andb_true_iff in E3 as [_ E3]; apply (Hlit "true" 4%nat); [done|done|lia|done]|].
  rewrite can_access_inside by done. cbn [negb].
  destruct (char_here b Hin) as [c Ec]. rewrite Ec, bind_Done_l.
  destruct (Ascii.eqb c quote); [by apply parse_string_ok|].
  destruct (_ || _); [by apply parse_number_ok|].
  destruct (decide (parse_depth b = CJSON_NESTING_LIMIT)) as [Elim|].
  { unfold parse_array, parse_object, parse_bracketed. rewrite Elim, Nat.leb_refl.
    destruct (Ascii.eqb c "["), (Ascii.eqb c "{"); do 2 eexists; (split; [done|]); split; try done; by destruct Hin. }
  assert (forall it b', inside b' -> (parse_depth b' = parse_depth b + 1)%nat -> advances b' (parse_value hooks fuel it b')) as Hpv.
  { intros it b' Hin' Hd'. apply IH; [done|lia|lia]. }
  destruct (Ascii.eqb c "[").
  { apply (parse_bracketed_ok (parse_depth b + 1)); [done|done|done|done|]. intros b' Hin' Hd'.
    apply (parse_elements_ok _ (parse_depth b + 1)); [done|done|done|]. destruct Hin' as [[_ ->] _]. lia. }
  destruct (Ascii.eqb c "{").
  { apply (parse_bracketed_ok (parse_depth b + 1)); [done|done|done|done|]. intros b' Hin' Hd'.
    apply (parse_members_ok _ (parse_depth b + 1)); [done|done|done|]. destruct Hin' as [[_ ->] _]. lia. }
  do 2 eexists; split; [done|]. split; [by destruct Hin|done].
Qed.
End Safety.

Lemma parse_returns hooks s require_null_terminated :
  no_nul s = true ->
  exists r pos, snowflake_cJSON_ParseWithOpts hooks (Some s) require_null_terminated = Done (r, pos) /\
    (pos <= String.length s)%nat.
Proof.
  intros Hs. unfold snowflake_cJSON_ParseWithOpts.
  set (len := (String.length s + 1)%nat). set (b := mk_parse (s +:+ String nul "") len 0 0).
  assert (inside s b) as Hin by (split; [done|cbn; lia]).
  assert (forall b' : parse_buffer, exists (r : option cJSON) pos,
    Done (None, if (parse_off b' <? len)%nat then parse_off b' else (len - 1)%nat) = Done (r, pos) /\
    (pos <= String.length s)%nat) as Hfail.
  { intros b'. do 2 eexists; split; [done|]. unfold len. destruct (_ <? _)%nat eqn:E; [apply Nat.ltb_lt in E|]; lia. }
  destruct (cJSON_New_Item hooks) as [it|]; [|apply Hfail].
  assert (exists b1, skip_utf8_bom b = Some b1 /\ inside s b1 /\ parse_depth b1 = O) as (b1 & -> & Hin1 & Hd1).
  { unfold skip_utf8_bom. cbn [parse_off b Nat.eqb]. eexists; split; [done|].
    destruct (_ && _) eqn:E; [|done]. apply andb_true_iff in E as [_ E].
    pose proof (prefix_inside s bom b Hin eq_refl E). split; [|done]. split; [by destruct Hin|]. cbn in *. lia. }
  destruct (skip_ok s b1) as (o & -> & Ho & _); [by destruct Hin1|destruct Hin1; lia|]. rewrite bind_Done_l.
  destruct (parse_value_ok hooks s parse_fuel it (set_off o b1)) as (r & b3 & -> & Hh3 & Hr).
  { split; [by destruct Hin1|done]. } { unfold parse_fuel. lia. } { cbn. rewrite Hd1. lia. }
  rewrite bind_Done_l. destruct r as [x|]; [|apply Hfail]. destruct Hr as [[_ Hhi] _]; [done|].
  destruct require_null_terminated; [|by do 2 eexists].
  destruct (skip_ok s b3) as (o4 & -> & Ho4 & _); [done|lia|]. rewrite bind_Done_l.
  cbn [parse_len parse_off set_off]. destruct (_ <=? _)%nat; [apply (Hfail (set_off o4 b3))|].
  destruct (char_here s (set_off o4 b3)) as [c ->]; [by split|]. rewrite bind_Done_l.
  destruct (negb _); [apply (Hfail (set_off o4 b3))|]. by do 2 eexists.
Qed.

(** C22: on every C string, whatever the allocator refuses, the parser ends (the
    nesting limit bounds its recursion), reads only the string and its NUL and
    stores only inside the blocks it allocated for unescaped strings, malformed
    and truncated escapes included; the position it reports, after the value or
    of the error, lies within the string. *)
Theorem parse_safe hooks s require_null_terminated :
  no_nul s = true ->
  exists r pos, snowflake_cJSON_ParseWithOpts hooks (Some s) require_null_terminated = Done (r, pos) /\
    (pos <= String.length s)%nat.
Proof. apply parse_returns. Qed.

Lemma parse_safe_witness :
  no_nul "[1, [2" = true /\
  exists r pos, snowflake_cJSON_ParseWithOpts all_hooks (Some "[1, [2") true = Done (r, pos) /\ (pos <= 6)%nat.
Proof. split; [done|]. apply (parse_safe all_hooks "[1, [2" true). reflexivity. Defined.

(** ** What the parser makes of printed text *)

(** The tree a text stands for: what [render] does not print (the numbers of
    non-numbers, names of array elements, flag bits) is what the parser leaves
    there. *)
Fixpoint norm (k : option string) (j : cJSON) : cJSON :=
  let t := Z.land (type j) 255 in
  mk_cJSON t
    (if t =? cJSON_String then Some (default "" (valuestring j)) else None)
    (if t =? cJSON_True then 1 else if t =? cJSON_Number then saturate_int (valuedouble j) else 0)
    (if t =? cJSON_Number then valuedouble j else zero_double) k
    (if t =? cJSON_Array then map (norm None) (child j)
     else if t =? cJSON_Object then map (fun c => norm (Some (default "" (key c))) c) (child j) else []).

(** The printed number is read back as the same double. *)
Definition reads_back (d : double) : bool :=
  let s := number_text d in
  str_all is_number_char s && (String.length s <=? 25)%nat
  && match s with String c _ => (code c =? 45) || is_digit c | EmptyString => false end
  && (sd_end (strtod s) =? String.length s)%nat
  && bool_decide (sd_val (strtod s) = d).

Fixpoint height (j : cJSON) : nat := S (list_max (map height (child j))).

(** Trees that can be printed and parsed: JSON types but no raw text, readable
    numbers, at most [n] levels of arrays and objects. *)
Fixpoint json_tree (n : nat) (j : cJSON) {struct j} : bool :=
  let t := Z.land (type j) 255 in
  match valuestring j with Some s => no_nul s | None => true end
  && match key j with Some s => no_nul s | None => true end
  && (if (t =? cJSON_NULL) || (t =? cJSON_False) || (t =? cJSON_True) || (t =? cJSON_String) then true
      else if t =? cJSON_Number then reads_back (valuedouble j)
      else if (t =? cJSON_Array) || (t =? cJSON_Object) then
        match n with O => false | S n => forallb (json_tree n) (child j) end
      else false).

(** ** Facts: strings *)

Lemma u_04x_hex c t : code c < 32 -> parse_hex4 (str_drop 1 (u_04x c) +:+ t) = Done (code c).
Proof.
  intros H. destruct c as [[] [] [] [] [] [] [] []]; try (exfalso; revert H; vm_compute; discriminate);
  vm_compute; reflexivity.
Qed.

Lemma u_04x_unescape c t n :
  code c < 32 -> (6 <= n)%nat ->
  utf16_literal_to_utf8 (String backslash (u_04x c +:+ t)) n = Done (Some (6%nat, String c "")).
Proof.
  intros H Hn. unfold utf16_literal_to_utf8. destruct (n <? 6)%nat eqn:E; [apply Nat.ltb_lt in E; lia|].
  change (str_drop 2 (String backslash (u_04x c +:+ t))) with (str_drop 1 (u_04x c) +:+ t).
  rewrite u_04x_hex, bind_Done_l by done.
  destruct (_ && _) eqn:E1; [lia|]. unfold code_point.
  replace (55296 <=? code c) with false by (symmetry; apply Z.leb_gt; lia). cbn [andb]. rewrite bind_Done_l.
  destruct (code c <? 128) eqn:E3; [|lia]. do 3 f_equal. unfold utf8_bytes. cbn [Nat.sub utf8_tail Nat.ltb Nat.leb].
  f_equal. rewrite <- (chr_code c) at 2. f_equal. change 127 with (Z.ones 7).
  rewrite Z.land_ones by lia. apply Z.mod_small. pose proof (code_range c). lia.
Qed.

Lemma simple_escape_unescape c e :
  is_simple_escape c = Some e -> unescape_char e = Some c /\ Ascii.eqb e quote = Ascii.eqb c quote.
Proof.
  destruct c as [[] [] [] [] [] [] [] []]; vm_compute; try discriminate; intros [= <-]; done.
Qed.

Lemma plain_char c :
  (code c >? 31) && negb (code c =? 34) && negb (code c =? 92) = true ->
  Ascii.eqb c quote = false /\ Ascii.eqb c backslash = false.
Proof. destruct c as [[] [] [] [] [] [] [] []]; vm_compute; done. Qed.

Lemma not_plain_char c :
  (code c >? 31) && negb (code c =? 34) && negb (code c =? 92) = false -> is_simple_escape c = None -> code c < 32.
Proof. destruct c as [[] [] [] [] [] [] [] []]; vm_compute; done. Qed.

Lemma scan_escape s t :
  exists k, scan_literal (escape s +:+ String quote t) = Some (String.length (escape s), k) /\
    (String.length s + k <= String.length (escape s))%nat.
Proof.
  induction s as [|c s (k & IH & Hk)]; [by exists O|]. cbn [escape].
  destruct (_ && _ && _) eqn:Ep.
  - destruct (plain_char c Ep) as [Eq Eb]. exists k. cbn [String.append scan_literal]. rewrite Eq, Eb, IH. cbn.
    split; [do 2 f_equal; lia|lia].
  - destruct (is_simple_escape c) as [e|] eqn:Ee.
    + exists (S k). cbn [String.append scan_literal]. change (Ascii.eqb backslash quote) with false.
      change (Ascii.eqb backslash backslash) with true. rewrite IH. cbn. split; [do 2 f_equal; lia|lia].
    + exists (S k). pose proof (not_plain_char c Ep Ee) as Hc.
      assert (forall u, scan_literal (String backslash (u_04x c +:+ u)) =
        (fun '(n, k) => (n + 6, k + 1)%nat) <$> scan_literal u) as E.
      { intros u. clear -Hc. destruct c as [[] [] [] [] [] [] [] []]; try (exfalso; revert Hc; vm_compute; discriminate);
          match goal with |- context [u_04x ?c] => let w := eval vm_compute in (u_04x c) in change (u_04x c) with w end;
          cbn; destruct (scan_literal u) as [[? ?]|]; cbn; try done; do 2 f_equal; lia. }
      cbn [String.append]. rewrite str_app_assoc, E, IH. cbn [fmap option_fmap option_map].
      rewrite str_length_app || cbn [String.length]. cbn. rewrite ?str_length_app. cbn. split; [do 2 f_equal; lia|lia].
Qed.

Lemma unescape_escape s fuel t cap out :
  (String.length (escape s) <= fuel)%nat -> (String.length out + String.length s <= cap)%nat ->
  unescape_loop fuel (escape s +:+ t) (String.length (escape s)) cap out = Done (Some (out +:+ s), O).
Proof.
  revert fuel out. induction s as [|c s IH]; intros fuel out Hf Hc.
  { rewrite str_app_nil_r. by destruct fuel. }
  assert (forall f, (String.length (escape s) <= f)%nat ->
    (out1 ← put cap out (String c ""); unescape_loop f (escape s +:+ t) (String.length (escape s)) cap out1) =
    Done (Some (out +:+ String c s), O)) as Hrec.
  { intros f Hf'. cbn in Hc. rewrite put_ok by (cbn; lia). rewrite bind_Done_l, IH by (rewrite ?str_length_app; cbn; lia).
    by rewrite str_app_assoc. }
  revert Hf. cbn [escape]. destruct (_ && _ && _) eqn:Ep; [|destruct (is_simple_escape c) as [e|] eqn:Ee].
  - intros Hf. destruct (plain_char c Ep) as [Eq Eb]. cbn [String.length] in *. destruct fuel as [|fuel]; [lia|].
    cbn [String.append unescape_loop]. change (char_at (String c ?x) 0) with (Done c). rewrite bind_Done_l, Eb. cbn [negb].
    change (str_drop 1 (String c ?x)) with x. replace (S (String.length (escape s)) - 1)%nat with (String.length (escape s)) by lia.
    apply Hrec. lia.
  - intros Hf. destruct (simple_escape_unescape c e Ee) as [Eu _]. cbn [String.length] in *. destruct fuel as [|fuel]; [lia|].
    cbn [String.append unescape_loop]. change (char_at (String backslash ?x) 0) with (Done backslash). rewrite bind_Done_l.
    change (negb (Ascii.eqb backslash backslash)) with false. cbv iota.
    change (char_at (String backslash (String e ?x)) 1) with (Done e). rewrite bind_Done_l, Eu.
    change (str_drop 2 (String backslash (String e ?x))) with x.
    replace (S (S (String.length (escape s))) - 2)%nat with (String.length (escape s)) by lia.
    apply Hrec. lia.
  - intros Hf. pose proof (not_plain_char c Ep Ee) as Hc'.
    assert (String.length (String backslash (u_04x c +:+ escape s)) = 6 + String.length (escape s))%nat as El by done.
    rewrite El in *. destruct fuel as [|fuel]; [lia|]. cbn [Nat.add].
    cbn [String.append unescape_loop]. change (char_at (String backslash ?x) 0) with (Done backslash). rewrite bind_Done_l.
    change (negb (Ascii.eqb backslash backslash)) with false. cbv iota.
    change (char_at (String backslash ((u_04x c +:+ escape s) +:+ t)) 1) with (Done "u"%char). rewrite bind_Done_l.
    change (unescape_char "u") with (@None ascii). cbv iota. change (Ascii.eqb "u" "u") with true. cbv iota.
    rewrite str_app_assoc. rewrite u_04x_unescape by (done || lia). rewrite bind_Done_l.
    change (str_drop 6 (String backslash (u_04x c +:+ ?x))) with x.
    replace (S (S (S (S (S (S (String.length (escape s)))))))  - 6)%nat with (String.length (escape s)) by lia.
    apply Hrec. lia.
Qed.

(** ** Facts: parsing printed values *)

Ltac set_offs := repeat change (set_off ?a (set_off ?c ?b)) with (set_off a b).

Definition blank (s : string) : bool := str_all (fun c => code c <=? 32) s.

(** The rest of the input is exactly [t]. *)
Definition rest_is (b : parse_buffer) (t : string) : Prop :=
  here b = t /\ parse_len b = (parse_off b + String.length t)%nat.

Lemma rest_advance b w t o :
  rest_is b (w +:+ t) -> o = (parse_off b + String.length w)%nat -> rest_is (set_off o b) t.
Proof.
  intros [Hh Hl] ->. split.
  - unfold here in *. cbn [parse_off set_off content]. rewrite <- str_drop_drop, Hh. apply str_drop_app.
  - cbn [parse_off set_off parse_len]. rewrite Hl, str_length_app. lia.
Qed.

Lemma skip_blank b w c t :
  rest_is b (w +:+ String c t) -> blank w = true -> 32 < code c ->
  buffer_skip_whitespace b = Done (set_off (parse_off b + String.length w) b).
Proof.
  intros [Hh Hl] Hw Hc. unfold buffer_skip_whitespace. rewrite Hh, Hl.
  assert (forall n, (String.length w <= n)%nat -> skip_loop (w +:+ String c t) n = String.length w) as ->.
  { clear -Hw Hc. unfold blank in Hw. induction w as [|a w IH]; intros n Hn; cbn [String.append String.length] in *.
    - destruct n; cbn; [done|]. destruct (code c <=? 32) eqn:E; [lia|done].
    - destruct n as [|n]; [lia|]. cbn in Hw |- *. apply andb_true_iff in Hw as [-> Hw]. rewrite IH by (done || lia). done. }
  2:{ rewrite str_length_app. lia. }
  rewrite str_length_app. cbn [String.length].
  destruct (_ =? _)%nat eqn:E; [apply Nat.eqb_eq in E; lia|]. done.
Qed.

Lemma at_char_rest b c t d : rest_is b (String c t) -> at_char b d = Done (Ascii.eqb c d).
Proof.
  intros [Hh Hl]. unfold at_char, can_access_at_index. rewrite Hl, Hh. cbn [String.length].
  destruct (_ <? _)%nat eqn:E; [done|apply Nat.ltb_ge in E; lia].
Qed.

Lemma cstr_nul s : no_nul s = true -> cstr (s +:+ String nul "") = s.
Proof.
  unfold no_nul. induction s as [|c s IH]; [done|]. cbn. intros H. apply andb_true_iff in H as [Hc Hs].
  destruct (code c =? 0); [done|]. by rewrite IH.
Qed.

Lemma quoted_default o : quoted o = quoted (Some (default "" o)).
Proof. by destruct o. Qed.

Lemma parse_string_rt item b s t :
  rest_is b (quoted (Some s) +:+ t) -> no_nul s = true ->
  parse_string all_hooks item b =
    Done (Some (mk_cJSON cJSON_String (Some s) (valueint item) (valuedouble item) (key item) (child item)),
          set_off (parse_off b + String.length (quoted (Some s))) b).
Proof.
  intros [Hh Hl] Hs. unfold parse_string. rewrite Hh.
  assert (quoted (Some s) +:+ t = String quote (escape s +:+ String quote t)) as Eq.
  { unfold quoted. cbn [String.append]. by rewrite str_app_assoc. }
  rewrite Eq. change (char_at (String quote ?x) 0) with (Done quote). rewrite bind_Done_l.
  change (negb (Ascii.eqb quote quote)) with false. cbv iota.
  change (str_drop 1 (String quote ?x)) with x.
  destruct (scan_escape s t) as (k & -> & Hk). cbn [all_hooks].
  change (all_hooks _) with true. cbv iota.
  rewrite unescape_escape by (cbn; lia). rewrite bind_Done_l. cbn [String.append].
  rewrite put_ok by (cbn; lia). rewrite bind_Done_l. rewrite cstr_nul by done.
  do 3 f_equal. rewrite quoted_length. rewrite escape_length. lia.
Qed.

Lemma parse_number_rt item b d c t :
  rest_is b (number_text d +:+ String c t) -> reads_back d = true -> is_number_char c = false ->
  parse_number item b =
    Done (Some (mk_cJSON cJSON_Number (valuestring item) (saturate_int d) d (key item) (child item)),
          set_off (parse_off b + String.length (number_text d)) b).
Proof.
  intros [Hh Hl] Hr Hc. unfold parse_number. rewrite Hh, Hl. unfold reads_back in Hr.
  set (s := number_text d) in *. clearbody s.
  apply andb_true_iff in Hr as [Hr Hval%bool_decide_eq_true]. apply andb_true_iff in Hr as [Hr Hend%Nat.eqb_eq].
  apply andb_true_iff in Hr as [Hr Hhd]. apply andb_true_iff in Hr as [Hall Hlen%Nat.leb_le].
  assert (number_chars (s +:+ String c t) (Nat.min 63 (parse_off b + String.length (s +:+ String c t) - parse_off b)) = s) as ->.
  { rewrite str_length_app. cbn [String.length].
    assert (forall n, (String.length s < n)%nat -> number_chars (s +:+ String c t) n = s) as H; [|apply H; lia].
    clear -Hall Hc. induction s as [|a s IH]; intros n Hn; cbn [String.append String.length] in *.
    - destruct n; [lia|]. cbn. by rewrite Hc.
    - destruct n; [lia|]. cbn in Hall |- *. apply andb_true_iff in Hall as [-> Hall]. by rewrite IH by (done || lia). }
  rewrite Hend. destruct s as [|a s]; [done|]. cbn [String.length Nat.eqb]. rewrite Hval. done.
Qed.

Lemma prefix_cons a p c x : String.prefix (String a p) (String c x) = Ascii.eqb a c && String.prefix p x.
Proof.
  cbn. destruct (ascii_dec a c) as [->|H]; [by rewrite Ascii.eqb_refl|].
  by apply Ascii.eqb_neq in H as ->.
Qed.

(** A printed value starts with a visible ASCII character, not a closing bracket. *)
Definition head_ok (c : ascii) : bool := (32 <? code c) && (code c <? 127) && negb (Ascii.eqb c "]").

Lemma number_head_ok c : (code c =? 45) || is_digit c = true -> head_ok c = true.
Proof. destruct c as [[] [] [] [] [] [] [] []]; vm_compute; done. Qed.

Lemma render_head_ok f d j text n :
  render f d j = Some text -> json_tree n j = true -> exists c t, text = String c t /\ head_ok c = true.
Proof.
  destruct j as [ty vs vi vd k ch]. cbn [render json_tree type valuestring valuedouble child key].
  intros H Ht. apply andb_true_iff in Ht as [_ Ht].
  destruct (_ =? cJSON_NULL); [injection H as <-; by do 2 eexists|].
  destruct (_ =? cJSON_False); [injection H as <-; by do 2 eexists|].
  destruct (_ =? cJSON_True); [injection H as <-; by do 2 eexists|].
  cbn [orb] in Ht. destruct (Z.land ty 255 =? cJSON_Number) eqn:EN.
  { destruct (Z.land ty 255 =? cJSON_String) eqn:ES; [apply Z.eqb_eq in EN, ES; rewrite EN in ES; done|].
    cbn in Ht. unfold reads_back in Ht. destruct (_ <? _)%nat; [done|]. injection H as <-.
    apply andb_true_iff in Ht as [Ht _]. apply andb_true_iff in Ht as [Ht _]. apply andb_true_iff in Ht as [_ Ht].
    destruct (number_text vd) as [|c t]; [done|]. exists c, t. split; [done|by apply number_head_ok]. }
  destruct (Z.land ty 255 =? cJSON_Raw) eqn:ER.
  { apply Z.eqb_eq in ER. rewrite ER in Ht. by vm_compute in Ht. }
  destruct (_ =? cJSON_String); [injection H as <-; by do 2 eexists|].
  destruct (_ =? cJSON_Array).
  { destruct (render_elements _ _ _); [|done]. cbn in H. injection H as <-. by do 2 eexists. }
  destruct (_ =? cJSON_Object); [|done].
  destruct (render_members _ _ _ _); [|done]. cbn in H. injection H as <-. by do 2 eexists.
Qed.

Lemma head_ok_spec c : head_ok c = true -> 32 < code c < 127 /\ Ascii.eqb c "]" = false.
Proof.
  unfold head_ok. intros H. apply andb_true_iff in H as [H1 H2]. apply negb_true_iff in H2. split; [lia|done].
Qed.

Definition fresh (k : option string) (t : Z) : cJSON := mk_cJSON t None 0 zero_double k [].

Lemma opt_app_Some a b s : a +?+ b = Some s -> exists x y, a = Some x /\ b = Some y /\ s = x +:+ y.
Proof. destruct a, b; cbn; try done. intros [= <-]. eauto. Qed.

Section LoopsRT.
  Context (pv : cJSON -> parse_buffer -> outcome (option cJSON * parse_buffer)) (f : bool) (d dep : nat).

  (** The recursive call reads back what [render] prints for [x]. *)
Definition reads (x : cJSON) : Prop :=
    forall k t0 b text c t, render f d x = Some text -> rest_is b (text +:+ String c t) -> is_number_char c = false ->
      parse_depth b = dep ->
      pv (fresh k t0) b = Done (Some (norm k x), set_off (parse_off b + String.length text) b).
Definition visible (x : cJSON) : Prop :=
    forall text, render f d x = Some text -> exists c t, text = String c t /\ head_ok c = true.

Lemma rest_shift b w t : rest_is b (w +:+ t) -> rest_is (set_off (parse_off b + String.length w) b) t.
Proof. intros H. by eapply rest_advance. Qed.

Lemma parse_elements_rt l head fuel b w text t :
  Forall reads l -> Forall visible l -> l <> [] -> (length l <= fuel)%nat -> parse_depth b = dep ->
  render_elements f (render f d) l = Some text -> blank w = true ->
  rest_is (set_off (parse_off b + 1) b) (w +:+ text +:+ String "]" t) ->
  parse_elements all_hooks pv fuel head b =
    Done (Some (head ++ map (norm None) l), set_off (parse_off b + 1 + String.length w + String.length text) b).
Proof.
  intros Hr. revert head fuel b w text. induction Hr as [|x l Hx _ IH]; intros head fuel b w text Hv Hne Hf Hd Ht Hw Hb; [done|].
  apply Forall_cons in Hv as [Hvx Hv]. destruct fuel as [|fuel]; [cbn in Hf; lia|].
  cbn [render_elements] in Ht. apply opt_app_Some in Ht as (tx & tr & Ex & Er & ->).
  destruct (Hvx tx Ex) as (c0 & tx' & Etx & [[Hc0 _] _]%head_ok_spec).
  cbn [parse_elements]. change (cJSON_New_Item all_hooks) with (Some (fresh None 0)).
  rewrite (skip_blank _ w c0 (tx' +:+ tr +:+ String "]" t)).
  2:{ rewrite Etx in Hb. rewrite !str_app_assoc in Hb. exact Hb. } 2:{ done. } 2:{ done. }
  rewrite bind_Done_l. cbn [parse_off set_off].
  set_offs.
  set (o1 := (parse_off b + 1 + String.length w)%nat).
  assert (rest_is (set_off o1 b) (tx +:+ (tr +:+ String "]" t))) as Hb1.
  { rewrite <- str_app_assoc. exact (rest_shift _ _ _ Hb). }
  destruct l as [|y l].
  - cbn in Er. injection Er as <-.
    rewrite (Hx None 0 (set_off o1 b) tx "]"%char t Ex Hb1 eq_refl Hd), bind_Done_l. cbn [parse_off set_off].
    pose proof (rest_shift _ _ _ Hb1) as Hb2. cbn [parse_off set_off String.append] in Hb2.
    change (set_off ?a (set_off ?c b)) with (set_off a b) in Hb2 |- *.
    rewrite (skip_blank _ "" "]"%char t Hb2) by done. rewrite bind_Done_l. cbn [parse_off set_off String.length].
    rewrite Nat.add_0_r. set_offs.
    rewrite (at_char_rest _ "]"%char t) by exact Hb2. rewrite bind_Done_l.
    change (Ascii.eqb "]" ",") with false. cbv iota. cbn [map]. do 3 f_equal. rewrite str_app_nil_r. unfold o1. lia.
  - apply opt_app_Some in Er as (sep & tl & Esep & Etl & ->).
    assert (exists w', sep = String "," w' /\ blank w' = true) as (w' & -> & Hw').
    { injection Esep as <-. destruct f; by eexists. }
    rewrite (Hx None 0 (set_off o1 b) tx ","%char ((w' +:+ tl) +:+ String "]" t) Ex Hb1 eq_refl Hd), bind_Done_l.
    cbn [parse_off set_off].
    pose proof (rest_shift _ _ _ Hb1) as Hb2. cbn [parse_off set_off String.append] in Hb2.
    change (set_off ?a (set_off ?c b)) with (set_off a b) in Hb2 |- *.
    rewrite (skip_blank _ "" ","%char _ Hb2) by done. rewrite bind_Done_l. cbn [parse_off set_off String.length].
    rewrite Nat.add_0_r. set_offs.
    rewrite (at_char_rest _ _ _ _ Hb2). rewrite bind_Done_l.
    change (Ascii.eqb "," ",") with true. cbv iota.
    rewrite (IH (head ++ [norm None x]) fuel (set_off (o1 + String.length tx) b) w' tl);
      [|done|done|cbn in Hf |- *; lia|done|done|done|].
    2:{ cbn [parse_off set_off]. rewrite <- str_app_assoc.
        exact (rest_advance (set_off (o1 + String.length tx) b) "," _ _ Hb2 eq_refl). }
    rewrite <- app_assoc. cbn [map app parse_off set_off].
    set_offs. do 3 f_equal.
    rewrite str_length_app. cbn [String.length]. rewrite ?str_length_app. unfold o1. cbn [String.append String.length]. rewrite ?str_length_app. lia.
Qed.

Lemma blank_first w c t : blank w = true -> is_number_char c = false ->
  exists c' t', w +:+ String c t = String c' t' /\ is_number_char c' = false.
Proof.
  destruct w as [|a w]; cbn [String.append]; [eauto|]. intros Hw _. do 2 eexists; split; [done|].
  cbn in Hw. apply andb_true_iff in Hw as [Hw _]. unfold is_number_char, is_digit. lia.
Qed.

Lemma blank_app w1 w2 : blank (w1 +:+ w2) = blank w1 && blank w2.
Proof. apply str_all_app. Qed.

Lemma tab_string_blank n : blank (tab_string n) = true.
Proof. by induction n. Qed.

Lemma str_app_cancel (u v w : string) : u +:+ v = u +:+ w -> v = w.
Proof. induction u as [|c u IH]; cbn; [done|]. intros [= H]. auto. Qed.

(** [indent] is the part of the text the white-space skip takes before the name. *)
Lemma render_members_indent dd l text :
  render_members f (render f d) dd l = Some text -> l <> [] ->
  exists body, text = (if f then tab_string dd else "") +:+ String quote body.
Proof.
  destruct l as [|x l]; [done|]. intros H _. cbn [render_members] in H.
  apply opt_app_Some in H as (ind & r1 & [= <-] & H & ->). apply opt_app_Some in H as (q & r2 & [= <-] & H & ->).
  eexists. reflexivity.
Qed.

Lemma parse_members_rt l dd head fuel b w w2 text t :
  Forall reads l -> Forall visible l -> Forall (fun x => no_nul (default "" (key x)) = true) l -> l <> [] ->
  (length l <= fuel)%nat -> parse_depth b = dep ->
  render_members f (render f d) dd l = Some ((if f then tab_string dd else "") +:+ text) ->
  blank w = true -> blank w2 = true ->
  rest_is (set_off (parse_off b + 1) b) (w +:+ text +:+ w2 +:+ String "}" t) ->
  parse_members all_hooks pv fuel head b =
    Done (Some (head ++ map (fun c => norm (Some (default "" (key c))) c) l),
          set_off (parse_off b + 1 + String.length w + String.length text + String.length w2) b).
Proof.
  intros Hr. revert head fuel b w text.
  induction Hr as [|x l Hx _ IH]; intros head fuel b w text Hv Hk Hne Hf Hd Ht Hw Hw2 Hb; [done|].
  apply Forall_cons in Hv as [Hvx Hv]. apply Forall_cons in Hk as [Hkx Hk]. destruct fuel as [|fuel]; [cbn in Hf; lia|].
  cbn [render_members] in Ht. rewrite quoted_default in Ht.
  set (name := default "" (key x)) in *.
  apply opt_app_Some in Ht as (ind & r1 & [= <-] & Ht & Etext). apply str_app_cancel in Etext as ->. apply opt_app_Some in Ht as (q & r2 & [= <-] & Ht & ->).
  apply opt_app_Some in Ht as (col & r3 & [= <-] & Ht & ->). apply opt_app_Some in Ht as (tx & r4 & Ex & Ht & ->).
  apply opt_app_Some in Ht as (sep & tl & [= <-] & Etl & ->).
  destruct (Hvx tx Ex) as (c0 & tx' & Etx & [[Hc0 _] _]%head_ok_spec).
  set (ind := if f then tab_string dd else "").
  assert (blank ind = true) as Hind by (unfold ind; destruct f; [apply tab_string_blank|done]).
  set (nl := if f then newline_s else ""). assert (blank nl = true) as Hnl by (unfold nl; by destruct f).
  set (tb := if f then tab_s else ""). assert (blank tb = true) as Htb by (unfold tb; by destruct f).
  set (sep := (match l with [] => "" | _ => "," end) +:+ nl) in *.
  set (tail := tl +:+ w2 +:+ String "}" t).
  assert (rest_is (set_off (parse_off b + 1) b)
    (w +:+ quoted (Some name) +:+ String ":" (tb +:+ tx +:+ sep +:+ tail))) as Hb1.
  { unfold tail. fold nl in Hb. fold sep in Hb. change (":" +:+ (if f then tab_s else "")) with (String ":" tb) in Hb.
    repeat rewrite str_app_assoc in Hb. repeat rewrite str_app_assoc. exact Hb. }
  clear Hb. cbn [parse_members]. change (cJSON_New_Item all_hooks) with (Some (fresh None 0)).
  assert (exists q', quoted (Some name) = String quote q') as [q' Eq] by (by eexists).
  rewrite (skip_blank _ w quote (q' +:+ String ":" (tb +:+ tx +:+ sep +:+ tail)));
    [|rewrite Eq in Hb1; exact Hb1|done|done].
  rewrite bind_Done_l. cbn [parse_off set_off]. set_offs.
  set (o1 := (parse_off b + 1 + String.length w)%nat).
  pose proof (rest_advance (set_off (parse_off b + 1) b) w _ o1 Hb1 eq_refl) as Hb2.
  change (set_off ?a (set_off ?c b)) with (set_off a b) in Hb2.
  rewrite (parse_string_rt _ _ _ _ Hb2 Hkx), bind_Done_l. cbn [parse_off set_off].
  set_offs.
  set (o2 := (o1 + String.length (quoted (Some name)))%nat).
  pose proof (rest_advance (set_off o1 b) _ _ o2 Hb2 eq_refl) as Hb3.
  change (set_off ?a (set_off ?c b)) with (set_off a b) in Hb3.
  rewrite (skip_blank _ "" ":"%char _ Hb3) by done. rewrite bind_Done_l. cbn [parse_off set_off String.length].
  rewrite Nat.add_0_r. set_offs.
  rewrite (at_char_rest _ _ _ _ Hb3), bind_Done_l. change (Ascii.eqb ":" ":") with true. cbn [negb].
  cbn [fresh type valueint valuedouble valuestring child].
  pose proof (rest_advance (set_off o2 b) ":" _ (o2 + 1) Hb3 eq_refl) as Hb4.
  change (set_off ?a (set_off ?c b)) with (set_off a b) in Hb4.
  rewrite (skip_blank _ tb c0 (tx' +:+ sep +:+ tail)) by (done || (rewrite Etx in Hb4; exact Hb4)).
  rewrite bind_Done_l. cbn [parse_off set_off]. set_offs.
  set (o3 := (o2 + 1 + String.length tb)%nat).
  pose proof (rest_advance (set_off (o2 + 1) b) tb _ o3 Hb4 eq_refl) as Hb5.
  change (set_off ?a (set_off ?c b)) with (set_off a b) in Hb5.
  change (mk_cJSON cJSON_String None 0 zero_double (Some name) []) with (fresh (Some name) cJSON_String).
  assert (exists c1 t1, sep +:+ tail = String c1 t1 /\ is_number_char c1 = false) as (c1 & t1 & Esep & Hc1).
  { unfold sep, tail. destruct l; [|by do 2 eexists]. injection Etl as <-. cbn [String.append].
    rewrite <- str_app_assoc. apply blank_first; [by rewrite blank_app, Hnl, Hw2|done]. }
  rewrite Esep in Hb5.
  rewrite (Hx (Some name) cJSON_String (set_off o3 b) tx c1 t1 Ex Hb5 Hc1 Hd), bind_Done_l.
  rewrite <- Esep in Hb5. cbn [parse_off set_off]. set_offs.
  set (o4 := (o3 + String.length tx)%nat).
  pose proof (rest_advance (set_off o3 b) tx _ o4 Hb5 eq_refl) as Hb6.
  change (set_off ?a (set_off ?c b)) with (set_off a b) in Hb6. unfold sep, tail in Hb6.
  destruct l as [|y l].
  - injection Etl as <-. cbn [String.append] in Hb6. rewrite <- str_app_assoc in Hb6.
    rewrite (skip_blank _ (nl +:+ w2) "}"%char t Hb6) by (done || by rewrite blank_app, Hnl, Hw2).
    rewrite bind_Done_l. cbn [parse_off set_off]. set_offs.
    pose proof (rest_advance (set_off o4 b) (nl +:+ w2) _ _ Hb6 eq_refl) as Hb7.
    change (set_off ?a (set_off ?c b)) with (set_off a b) in Hb7.
    rewrite (at_char_rest _ _ _ _ Hb7), bind_Done_l. change (Ascii.eqb "}" ",") with false. cbv iota.
    cbn [map]. do 3 f_equal. unfold o4, o3, o2, o1, sep. rewrite !str_length_app. cbn [String.length String.append].
    rewrite ?str_length_app. cbn [String.length]. unfold tb. lia.
  - rewrite str_app_assoc in Hb6. cbn [String.append] in Hb6.
    rewrite (skip_blank _ "" ","%char _ Hb6) by done. rewrite bind_Done_l. cbn [parse_off set_off String.length].
    rewrite Nat.add_0_r. set_offs.
    rewrite (at_char_rest _ _ _ _ Hb6), bind_Done_l. change (Ascii.eqb "," ",") with true. cbv iota.
    destruct (render_members_indent dd (y :: l) tl Etl) as (body & Ebody); [done|].
    change (if f then tab_string dd else "") with ind in Ebody.
    rewrite (IH (head ++ [norm (Some name) x]) fuel (set_off o4 b) (nl +:+ ind) (String quote body));
      [|done|done|done|cbn in Hf |- *; lia|done|rewrite Etl; by f_equal|by rewrite blank_app, Hnl, Hind|done|].
    2:{ rewrite Ebody in Hb6. pose proof (rest_advance (set_off o4 b) "," _ _ Hb6 eq_refl) as Hb7.
        rewrite !str_app_assoc in Hb7 |- *. exact Hb7. }
    rewrite <- app_assoc. cbn [map app parse_off set_off].
    change (set_off ?a (set_off ?c b)) with (set_off a b). do 3 f_equal.
    unfold o4, o3, o2, o1, sep. rewrite Ebody, !str_length_app. cbn [String.length String.append].
    rewrite ?str_length_app. cbn [String.length]. unfold tb. lia.
Qed.
End LoopsRT.

Lemma prefix_app p t : String.prefix p (p +:+ t) = true.
Proof.
  induction p as [|c p IH]; [by destruct t|]. cbn [String.append].
  rewrite prefix_cons, Ascii.eqb_refl. exact IH.
Qed.

Lemma can_read_rest b w t : rest_is b (w +:+ t) -> can_read b (String.length w) = true.
Proof. intros [_ Hl]. unfold can_read. apply Nat.leb_le. rewrite Hl, str_length_app. lia. Qed.

(** The head of [parse_value], once the three words are excluded. *)
Lemma parse_value_head fuel item b c t :
  rest_is b (String c t) -> Ascii.eqb "n" c = false -> Ascii.eqb "f" c = false -> Ascii.eqb "t" c = false ->
  parse_value all_hooks (S fuel) item b =
    (if Ascii.eqb c quote then parse_string all_hooks item b
     else if (code c =? 45) || is_digit c then parse_number item b
     else if Ascii.eqb c "[" then parse_array all_hooks (parse_value all_hooks fuel) item b
     else if Ascii.eqb c "{" then parse_object all_hooks (parse_value all_hooks fuel) item b
     else Done (None, b)).
Proof.
  intros [Hh Hl] En Ef Et. cbn [parse_value]. rewrite Hh.
  rewrite !prefix_cons, En, Ef, Et, !andb_false_r.
  unfold can_access_at_index. rewrite Hl. cbn [String.length].
  destruct (_ <? _)%nat eqn:E; [|apply Nat.ltb_ge in E; lia]. cbn [negb].
  change (char_at (String c t) 0) with (Done c). by rewrite bind_Done_l.
Qed.

(** A non-empty array or object, once the loop over its items is known. *)
Lemma parse_bracketed_rt open close checked loop ty item b u c0 v w t items :
  (parse_depth b < CJSON_NESTING_LIMIT)%nat ->
  rest_is b (String open (u +:+ String c0 v)) -> blank u = true -> 32 < code c0 -> Ascii.eqb c0 close = false ->
  rest_is (set_off w b) (String close t) ->
  (forall b0, b0 = set_off (parse_off b + String.length u) (set_pdepth (parse_depth b + 1) b) ->
     loop b0 = Done (Some items, set_off w b0)) ->
  parse_bracketed open close checked loop ty item b =
    Done (Some (mk_cJSON ty (valuestring item) (valueint item) (valuedouble item) (key item) items),
          set_off (w + 1) b).
Proof.
  intros Hd Hb Hu Hc0 Hclose Hb2 Hloop. unfold parse_bracketed.
  destruct (_ <=? _)%nat eqn:E; [apply Nat.leb_le in E; lia|]. clear E.
  set (b0 := set_pdepth (parse_depth b + 1) b).
  assert (rest_is b0 (String open (u +:+ String c0 v))) as Hb0 by exact Hb.
  assert ((if checked then at_char b0 open else c ← char_at (here b0) 0; Done (Ascii.eqb c open)) = Done true) as ->.
  { destruct checked; [rewrite (at_char_rest _ _ _ _ Hb0); by rewrite Ascii.eqb_refl|].
    destruct Hb0 as [-> _]. change (char_at (String open ?x) 0) with (Done open). rewrite bind_Done_l. by rewrite Ascii.eqb_refl. }
  rewrite bind_Done_l. cbn [negb].
  pose proof (rest_advance b0 (String open "") _ _ Hb0 eq_refl) as Hb1. cbn [String.length] in Hb1.
  rewrite (skip_blank _ u c0 v Hb1 Hu Hc0), bind_Done_l. cbn [parse_off set_off]. set_offs.
  pose proof (rest_advance (set_off (parse_off b0 + 1) b0) u _ _ Hb1 eq_refl) as Hb3.
  change (set_off ?a (set_off ?c b0)) with (set_off a b0) in Hb3.
  rewrite (at_char_rest _ _ _ _ Hb3), bind_Done_l, Hclose.
  assert (can_access_at_index (set_off (parse_off b0 + 1 + String.length u) b0) 0 = true) as ->.
  { destruct Hb3 as [_ Hl]. unfold can_access_at_index. cbn [parse_off set_off parse_len] in Hl |- *. rewrite Hl.
    cbn [String.length]. apply Nat.ltb_lt. lia. }
  cbn [negb parse_off set_off].
  replace (parse_off b0 + 1 + String.length u)%nat with (S (parse_off b + String.length u)) by (cbn; lia).
  cbn [dec_size]. rewrite bind_Done_l. set_offs.
  rewrite Hloop by done. rewrite bind_Done_l. set_offs.
  rewrite (at_char_rest (set_off w b0) close t close Hb2), bind_Done_l, Ascii.eqb_refl.
  do 2 f_equal. unfold set_off, set_pdepth. cbn. f_equal. lia.
Qed.

Lemma parse_bracketed_nil open close checked loop ty item b u t :
  (parse_depth b < CJSON_NESTING_LIMIT)%nat ->
  rest_is b (String open (u +:+ String close t)) -> blank u = true -> 32 < code close ->
  parse_bracketed open close checked loop ty item b =
    Done (Some (mk_cJSON ty (valuestring item) (valueint item) (valuedouble item) (key item) []),
          set_off (parse_off b + 1 + String.length u + 1) b).
Proof.
  intros Hd Hb Hu Hc0. unfold parse_bracketed.
  destruct (_ <=? _)%nat eqn:E; [apply Nat.leb_le in E; lia|]. clear E.
  set (b0 := set_pdepth (parse_depth b + 1) b).
  assert (rest_is b0 (String open (u +:+ String close t))) as Hb0 by exact Hb.
  assert ((if checked then at_char b0 open else c ← char_at (here b0) 0; Done (Ascii.eqb c open)) = Done true) as ->.
  { destruct checked; [rewrite (at_char_rest _ _ _ _ Hb0); by rewrite Ascii.eqb_refl|].
    destruct Hb0 as [-> _]. change (char_at (String open ?x) 0) with (Done open). rewrite bind_Done_l. by rewrite Ascii.eqb_refl. }
  rewrite bind_Done_l. cbn [negb].
  pose proof (rest_advance b0 (String open "") _ _ Hb0 eq_refl) as Hb1. cbn [String.length] in Hb1.
  rewrite (skip_blank _ u close t Hb1 Hu Hc0), bind_Done_l. cbn [parse_off set_off]. set_offs.
  pose proof (rest_advance (set_off (parse_off b0 + 1) b0) u _ _ Hb1 eq_refl) as Hb3.
  change (set_off ?a (set_off ?c b0)) with (set_off a b0) in Hb3.
  rewrite (at_char_rest _ _ _ _ Hb3), bind_Done_l, Ascii.eqb_refl.
  do 2 f_equal. unfold set_off, set_pdepth. cbn. f_equal. lia.
Qed.

Lemma json_tree_child n j x :
  json_tree n j = true -> (Z.land (type j) 255 =? cJSON_Array) || (Z.land (type j) 255 =? cJSON_Object) = true ->
  x ∈ child j -> exists m, n = S m /\ json_tree m x = true.
Proof.
  destruct j as [ty vs vi vd k ch]. cbn [json_tree type child]. intros H Ht Hx.
  apply andb_true_iff in H as [_ H]. rewrite Ht in H.
  assert (Z.land ty 255 = cJSON_Array \/ Z.land ty 255 = cJSON_Object) as Hty.
  { apply orb_true_iff in Ht as [Ht|Ht]; apply Z.eqb_eq in Ht; auto. }
  assert (exists m, n = S m /\ forallb (json_tree m) ch = true) as (m & -> & Hall).
  { destruct Hty as [E|E]; rewrite E in H; cbn in H; (destruct n; [done|eauto]). }
  exists m. split; [done|]. rewrite forallb_forall in Hall. apply Hall. by apply list_elem_of_In.
Qed.

Lemma json_tree_key n j : json_tree n j = true -> no_nul (default "" (key j)) = true.
Proof.
  destruct j as [ty vs vi vd k ch]. cbn [json_tree key]. intros H.
  apply andb_true_iff in H as [H _]. apply andb_true_iff in H as [_ H]. by destruct k.
Qed.

Lemma render_elements_length f d l text :
  Forall (visible f d) l -> render_elements f (render f d) l = Some text -> (length l <= String.length text)%nat.
Proof.
  intros Hv. revert text. induction Hv as [|x l Hx _ IH]; intros text H; [cbn; lia|].
  apply opt_app_Some in H as (tx & r & Ex & H & ->). apply opt_app_Some in H as (sep & tl & _ & Etl & ->).
  specialize (IH tl Etl). destruct (Hx tx Ex) as (c & t & -> & _). rewrite !str_length_app. cbn. lia.
Qed.

Lemma render_members_length f d dd l text :
  render_members f (render f d) dd l = Some text -> (length l <= String.length text)%nat.
Proof.
  revert text. induction l as [|x l IH]; intros text H; [cbn; lia|].
  cbn [render_members] in H. rewrite quoted_default in H.
  apply opt_app_Some in H as (ind & r1 & _ & H & ->). apply opt_app_Some in H as (q & r2 & [= <-] & H & ->).
  apply opt_app_Some in H as (col & r3 & _ & H & ->). apply opt_app_Some in H as (tx & r4 & _ & H & ->).
  apply opt_app_Some in H as (sep & tl & _ & Etl & ->). specialize (IH tl Etl).
  rewrite !str_length_app, quoted_length. cbn [length]. lia.
Qed.

Lemma render_elements_head f d x l text :
  visible f d x -> render_elements f (render f d) (x :: l) = Some text -> exists c t, text = String c t /\ head_ok c = true.
Proof.
  intros Hv H. apply opt_app_Some in H as (tx & r & Ex & _ & ->). destruct (Hv tx Ex) as (c & t & -> & Hc).
  exists c, (t +:+ r). eauto.
Qed.

Lemma number_head d c t :
  reads_back d = true -> number_text d = String c t ->
  Ascii.eqb "n" c = false /\ Ascii.eqb "f" c = false /\ Ascii.eqb "t" c = false /\ Ascii.eqb c quote = false /\
  (code c =? 45) || is_digit c = true.
Proof.
  unfold reads_back. intros H E. rewrite E in H.
  apply andb_true_iff in H as [H _]. apply andb_true_iff in H as [H _]. apply andb_true_iff in H as [_ H].
  split_and!; try done; apply Ascii.eqb_neq; intros Hc; subst c; by vm_compute in H.
Qed.

Lemma parse_value_rt j : forall n fuel f d, json_tree n j = true -> (n < fuel)%nat ->
  forall dep, (n + dep <= CJSON_NESTING_LIMIT)%nat -> reads (parse_value all_hooks fuel) f d dep j.
Proof.
  induction j as [ty vs vi vd k ch IH] using cJSON_ind'. intros n fuel f d Hj Hf dep Hdep k' t0 b text c t Hr Hb Hc Hd.
  pose proof Hj as Hj0. destruct fuel as [|fuel]; [lia|].
  assert (forall x, x ∈ ch -> (Z.land ty 255 =? cJSON_Array) || (Z.land ty 255 =? cJSON_Object) = true ->
    reads (parse_value all_hooks fuel) f (d + 1) (dep + 1) x /\ visible f (d + 1) x /\
    (exists m, json_tree m x = true) /\ (1 <= n)%nat) as Hch.
  { intros x Hx Ht. destruct (json_tree_child _ _ x Hj0 Ht Hx) as (m & -> & Hm). split_and!; [|..|eauto|lia].
    - rewrite Forall_forall in IH. apply (IH x Hx m); [done|lia|lia].
    - intros text' Ex. by eapply render_head_ok. }
  cbn [json_tree type valuestring valuedouble child key] in Hj.
  cbn [render type valuestring valuedouble child] in Hr. cbn [norm type valuestring valuedouble child].
  apply andb_true_iff in Hj as [Hj Ht]. apply andb_true_iff in Hj as [Hvs _].
  destruct (Z.land ty 255 =? cJSON_NULL) eqn:EN0.
  { apply Z.eqb_eq in EN0. rewrite EN0. injection Hr as <-. cbn [parse_value].
    pose proof (can_read_rest b "null" _ Hb) as Hcr. cbn [String.length] in Hcr. rewrite Hcr. destruct Hb as [-> _]. by rewrite prefix_app. }
  destruct (Z.land ty 255 =? cJSON_False) eqn:EN1.
  { apply Z.eqb_eq in EN1. rewrite EN1. injection Hr as <-. cbn [parse_value].
    pose proof (can_read_rest b "false" _ Hb) as Hcr. cbn [String.length] in Hcr. rewrite Hcr. destruct Hb as [-> _].
    change ("false" +:+ String c t) with (String "f" ("alse" +:+ String c t)) at 1.
    rewrite (prefix_cons "n" "ull"), andb_false_r. by rewrite prefix_app. }
  destruct (Z.land ty 255 =? cJSON_True) eqn:EN2.
  { apply Z.eqb_eq in EN2. rewrite EN2. injection Hr as <-. cbn [parse_value].
    pose proof (can_read_rest b "true" _ Hb) as Hcr. cbn [String.length] in Hcr. rewrite Hcr. destruct Hb as [-> _].
    change ("true" +:+ String c t) with (String "t" ("rue" +:+ String c t)) at 1 2.
    rewrite (prefix_cons "n" "ull"), (prefix_cons "f" "alse"), !andb_false_r. by rewrite prefix_app. }
  cbn [orb] in Ht. destruct (Z.land ty 255 =? cJSON_Number) eqn:EN3.
  { apply Z.eqb_eq in EN3. rewrite EN3 in Ht |- *. cbn in Ht. change (cJSON_Number =? cJSON_String) with false.
    destruct (_ <? _)%nat; [done|]. injection Hr as <-.
    destruct (number_text vd) as [|c0 s0] eqn:Etx; [by unfold reads_back in Ht; rewrite Etx in Ht|].
    destruct (number_head vd c0 s0 Ht Etx) as (H1 & H2 & H3 & H4 & H5).
    rewrite (parse_value_head fuel _ b c0 (s0 +:+ String c t)) by done. rewrite H4, H5.
    rewrite <- Etx in Hb |- *. by rewrite (parse_number_rt _ b vd c t). }
  destruct (Z.land ty 255 =? cJSON_Raw) eqn:EN4.
  { apply Z.eqb_eq in EN4. rewrite EN4 in Ht. by vm_compute in Ht. }
  destruct (Z.land ty 255 =? cJSON_String) eqn:EN5.
  { apply Z.eqb_eq in EN5. rewrite EN5. injection Hr as <-. rewrite quoted_default in Hb |- *.
    rewrite (parse_value_head fuel _ b quote _) by exact Hb || done. change (Ascii.eqb quote quote) with true. cbv iota.
    rewrite (parse_string_rt _ _ _ _ Hb) by (by destruct vs). done. }
  destruct (Z.land ty 255 =? cJSON_Array) eqn:EN6.
  { apply Z.eqb_eq in EN6. rewrite EN6 in Ht |- *. cbn [orb] in Hch.
    assert (1 <= n)%nat as Hn by (cbn in Ht; destruct n; [done|lia]).
    apply opt_app_Some in Hr as (a & r & [= <-] & Hr & ->). apply opt_app_Some in Hr as (tx & r2 & Ex & [= <-] & ->).
    cbn [String.append] in Hb. rewrite str_app_assoc in Hb. cbn [String.append] in Hb.
    rewrite (parse_value_head fuel _ b "["%char _) by exact Hb || done.
    change (Ascii.eqb "[" quote) with false. change ((code "[" =? 45) || is_digit "[") with false.
    change (Ascii.eqb "[" "[") with true. cbv iota. unfold parse_array. cbn [key fresh valueint valuedouble valuestring].
    destruct ch as [|x l].
    { injection Ex as <-. cbn [String.append] in Hb |- *.
      rewrite (parse_bracketed_nil _ _ _ _ _ _ _ "" (String c t)) by (done || exact Hb || lia).
      do 2 f_equal. apply (f_equal (fun o => set_off o b)). cbn. lia. }
    destruct (Hch x ltac:(set_solver) eq_refl) as (_ & Hvx & _).
    assert (Forall (visible f (d + 1)) (x :: l)) as Hvis by (apply Forall_forall; intros y Hy; by apply Hch).
    pose proof (render_elements_length _ _ _ _ Hvis Ex) as Hlen.
    destruct (render_elements_head _ _ _ _ _ Hvx Ex) as (c0 & v & Etx & [Hc0 Hcl]%head_ok_spec).
    rewrite Etx in Hb.
    rewrite (parse_bracketed_rt _ _ _ _ _ _ _ "" c0 (v +:+ String "]" (String c t))
               (parse_off b + 1 + String.length tx) (String c t) (map (norm None) (x :: l)));
      [|lia|exact Hb|done|lia|done|..].
    - cbn [fresh valuestring valueint valuedouble key]. do 2 f_equal. apply (f_equal (fun o => set_off o b)). rewrite !str_length_app. cbn. lia.
    - rewrite <- Etx in Hb.
      pose proof (rest_advance b "[" (tx +:+ String "]" (String c t)) _ Hb eq_refl) as Hb2.
      exact (rest_advance _ tx _ _ Hb2 eq_refl).
    - intros b0 ->. rewrite <- Etx in Hb.
      rewrite (parse_elements_rt _ f (d + 1) (dep + 1) (x :: l) [] _ _ "" tx (String c t)).
      + cbn [app parse_off set_off String.length]. set_offs. do 3 f_equal. cbn. lia.
      + apply Forall_forall. intros y Hy. by apply Hch.
      + done.
      + done.
      + cbn [parse_len set_off set_pdepth]. destruct Hb as [_ ->]. cbn [String.length]. rewrite str_length_app. lia.
      + cbn. lia.
      + done.
      + done.
      + cbn [String.append].
        pose proof (rest_advance b "[" (tx +:+ String "]" (String c t)) (parse_off b + 1) Hb eq_refl) as Hb2.
        cbn [parse_off set_off set_pdepth String.length]. rewrite Nat.add_0_r. exact Hb2. }
  destruct (Z.land ty 255 =? cJSON_Object) eqn:EN7; [|done].
  apply Z.eqb_eq in EN7. rewrite EN7. cbn [orb] in Hch.
  assert (1 <= n)%nat as Hn by (cbn in Ht; destruct n; [done|lia]).
  apply opt_app_Some in Hr as (a & r & [= <-] & Hr & ->). apply opt_app_Some in Hr as (tx & r2 & Ex & [= <-] & ->).
  set (nl := if f then newline_s else "") in *. assert (blank nl = true) as Hnl by (unfold nl; by destruct f).
  set (ind2 := if f then tab_string d else "") in *.
  assert (blank ind2 = true) as Hind2 by (unfold ind2; destruct f; [apply tab_string_blank|done]).
  assert (rest_is b (String "{" (nl +:+ tx +:+ ind2 +:+ String "}" (String c t)))) as Hb0.
  { cbn [String.append] in Hb. repeat rewrite str_app_assoc in Hb. exact Hb. }
  assert (String.length ((String "{" ("" +:+ nl)) +:+ tx +:+ ind2 +:+ "}")
    = 1 + String.length nl + String.length tx + String.length ind2 + 1)%nat as Hlen.
  { rewrite !str_length_app. cbn. lia. }
  change ("{" +:+ nl) with (String "{" ("" +:+ nl)). rewrite Hlen.
  rewrite (parse_value_head fuel _ b "{"%char _) by exact Hb0 || done.
  change (Ascii.eqb "{" quote) with false. change ((code "{" =? 45) || is_digit "{") with false.
  change (Ascii.eqb "{" "[") with false. change (Ascii.eqb "{" "{") with true. cbv iota. unfold parse_object.
  destruct ch as [|x l].
  { injection Ex as <-. cbn [String.append] in Hb0. rewrite <- str_app_assoc in Hb0.
    rewrite (parse_bracketed_nil _ _ _ _ _ _ _ (nl +:+ ind2) (String c t));
      [|lia|exact Hb0|by rewrite blank_app, Hnl, Hind2|done].
    rewrite str_length_app. do 2 f_equal. apply (f_equal (fun o => set_off o b)). cbn. lia. }
  pose proof (render_members_length _ _ _ _ _ Ex) as Hlm.
  destruct (render_members_indent f (d + 1) (d + 1) (x :: l) tx Ex) as (body & Ebody); [done|].
  set (ind := if f then tab_string (d + 1) else "") in *.
  assert (blank ind = true) as Hind by (unfold ind; destruct f; [apply tab_string_blank|done]).
  assert (rest_is b (String "{" ((nl +:+ ind) +:+ String quote body +:+ ind2 +:+ String "}" (String c t)))) as Hb1.
  { rewrite Ebody in Hb0. repeat rewrite str_app_assoc in Hb0. repeat rewrite str_app_assoc. exact Hb0. }
  rewrite (parse_bracketed_rt _ _ _ _ _ _ _ (nl +:+ ind) quote (body +:+ ind2 +:+ String "}" (String c t))
             (parse_off b + 1 + String.length nl + String.length tx + String.length ind2) (String c t)
             (map (fun c => norm (Some (default "" (key c))) c) (x :: l)));
    [|lia|exact Hb1|by rewrite blank_app, Hnl, Hind|done|done|..].
  - cbn [fresh valuestring valueint valuedouble key]. do 2 f_equal. apply (f_equal (fun o => set_off o b)). lia.
  - pose proof (rest_advance b ("{" +:+ nl +:+ tx +:+ ind2) (String "}" (String c t))
      (parse_off b + 1 + String.length nl + String.length tx + String.length ind2)) as Hb2.
    apply Hb2; [cbn [String.append]; repeat rewrite str_app_assoc; exact Hb0|].
    cbn [String.append String.length]. rewrite !str_length_app. lia.
  - intros b0 ->.
    pose proof (rest_advance b ("{" +:+ nl +:+ ind) (String quote body +:+ ind2 +:+ String "}" (String c t))
      (parse_off b + String.length (nl +:+ ind) + 1)) as Hb2.
    rewrite (parse_members_rt _ f (d + 1) (dep + 1) (x :: l) (d + 1) [] _ _ "" ind2 (String quote body) (String c t)).
    + cbn [app parse_off set_off String.length]. set_offs. do 3 f_equal. rewrite Ebody, !str_length_app. cbn. lia.
    + apply Forall_forall. intros y Hy. by apply Hch.
    + apply Forall_forall. intros y Hy. by apply Hch.
    + apply Forall_forall. intros y Hy. destruct (Hch y Hy eq_refl) as (_ & _ & (m & Hm) & _). by eapply json_tree_key.
    + done.
    + cbn [parse_len set_off set_pdepth]. destruct Hb0 as [_ ->]. cbn [String.length]. rewrite !str_length_app. lia.
    + cbn. lia.
    + change (if f then tab_string (d + 1) else "") with ind. by rewrite <- Ebody.
    + done.
    + done.
    + cbn [String.append]. cbn [parse_off set_off set_pdepth]. apply Hb2.
      * cbn [String.append]. exact Hb1.
      * cbn [String.append String.length]. lia.
Qed.

(** Parsing the text of a tree gives back the tree. *)
Lemma parse_rendered j fmt s :
  json_tree CJSON_NESTING_LIMIT j = true -> render fmt 0 j = Some s ->
  snowflake_cJSON_Parse all_hooks (Some s) = Done (Some (norm None j)).
Proof.
  intros Hj Hr.
  unfold snowflake_cJSON_Parse, snowflake_cJSON_ParseWithOpts.
  change (cJSON_New_Item all_hooks) with (Some (fresh None 0)).
  set (b := mk_parse _ _ _ _).
  assert (rest_is b (s +:+ String nul "")) as Hb.
  { split; [done|]. cbn. rewrite str_length_app. done. }
  destruct (render_head_ok _ _ _ _ _ Hr Hj) as (c & t & Es & [Hcc _]%head_ok_spec).
  assert (skip_utf8_bom b = Some b) as ->.
  { unfold skip_utf8_bom. cbn [parse_off b Nat.eqb]. destruct Hb as [-> _].
    destruct (_ && _) eqn:Eb; [|done]. exfalso. apply andb_true_iff in Eb as [_ Eb]. rewrite Es in Eb.
    unfold bom in Eb. cbn [String.append] in Eb. rewrite prefix_cons in Eb.
    apply andb_true_iff in Eb as [Eb _]. apply Ascii.eqb_eq in Eb. subst c.
    rewrite code_chr in Hcc; lia. }
  rewrite (skip_blank b "" c (t +:+ String nul "")); [|by rewrite Es in Hb|done|lia].
  rewrite bind_Done_l. cbn [String.length]. rewrite Nat.add_0_r.
  rewrite (parse_value_rt j CJSON_NESTING_LIMIT parse_fuel fmt 0 Hj ltac:(unfold parse_fuel; lia) 0%nat ltac:(lia)
             None 0 (set_off (parse_off b) b) s nul "" Hr Hb eq_refl eq_refl).
  done.
Qed.

(** C23: parsing what the printer prints (formatted or not) gives back the tree:
    for every tree without raw nodes, nested at most 1000 deep, whose numbers are
    read back by [strtod], [Parse] of the text of [Print] is the same tree, names,
    strings (escapes and control characters included), numbers and order. *)
Theorem parse_print_roundtrip hooks j fmt s :
  json_tree CJSON_NESTING_LIMIT j = true -> c_tree j = true -> print hooks j fmt = Done (Some s) ->
  snowflake_cJSON_Parse all_hooks (Some s) = Done (Some (norm None j)).
Proof.
  intros Hj Hc Hp. destruct (print_ok hooks j fmt Hc) as (r & E & Hr & _).
  rewrite E in Hp. injection Hp as ->. by apply (parse_rendered j fmt), Hr.
Qed.

Lemma parse_print_roundtrip_witness :
  json_tree CJSON_NESTING_LIMIT print_sample = true /\ c_tree print_sample = true /\
  exists s, print libc_hooks print_sample true = Done (Some s) /\
    snowflake_cJSON_Parse all_hooks (Some s) = Done (Some (norm None print_sample)).
Proof.
  split; [vm_compute; reflexivity|]. split; [reflexivity|].
  eexists. split; [vm_compute; reflexivity|].
  apply (parse_print_roundtrip libc_hooks print_sample true); vm_compute; reflexivity.
Defined.

(** An escape with invalid hexadecimal digits is read as U+0000, which cuts the C
    string short instead of failing. *)
Example invalid_hex_truncates :
  snowflake_cJSON_Parse all_hooks (Some (String quote ("ab\uZZZZcd" +:+ String quote "")))
  = Done (Some (mk_cJSON cJSON_String (Some "ab") 0 zero_double None [])).
Proof. vm_compute. reflexivity. Qed.

Fixpoint brackets (n : nat) : string := match n with O => "" | S n => String "[" (brackets n +:+ "]") end.
Example nesting_limit :
  is_done (snowflake_cJSON_Parse all_hooks (Some (brackets 40))) = true /\
  snowflake_cJSON_Parse all_hooks (Some (brackets 1001)) = Done None.
Proof. vm_compute. split; reflexivity. Qed.
