(* ===== verification/CJsonMinify.v ===== *)
(** * lib/cJSON.c 2496-2564: minification.

    The caller's buffer is rewritten in place: [r] is where the code reads ([json]), [w]
    where it writes ([into]).  Reading beyond the block is [Undef].  [minified] is the
    same on a text that is read from front to back. *)

From S2P Require Import Prelude CLib CFloat CJson CJsonPrint CJsonParse.

Definition blank_char (c : ascii) : bool := (code c =? 32) || (code c =? 9) || (code c =? 13) || (code c =? 10).
Definition is_NUL (c : ascii) : bool := code c =? 0.

(** To the end of the line. *)
Fixpoint skip_line (fuel r : nat) (b : list ascii) : outcome nat :=
  match fuel with
  | O => NoFuel
  | S fuel => c ← deref (b !! r); if negb (is_NUL c) && negb (code c =? 10) then skip_line fuel (S r) b else Done r
  end.

(** To the end of a comment; the second byte is read after a star only. *)
Fixpoint skip_comment (fuel r : nat) (b : list ascii) : outcome nat :=
  match fuel with
  | O => NoFuel
  | S fuel =>
      c ← deref (b !! r);
      if is_NUL c then Done r
      else if Ascii.eqb c "*" then
        d ← deref (b !! S r);
        if Ascii.eqb d "/" then Done r else skip_comment fuel (S r) b
      else skip_comment fuel (S r) b
  end.

(** [*into++ = *json++] *)
Definition move_byte (r w : nat) (b : list ascii) : outcome (nat * nat * list ascii) :=
  c ← deref (b !! r);
  if (w <? length b)%nat then Done (S r, S w, <[w := c]> b) else Undef.

(** The characters of a string literal. *)
Fixpoint move_literal (fuel r w : nat) (b : list ascii) : outcome (nat * nat * list ascii) :=
  match fuel with
  | O => NoFuel
  | S fuel =>
      c ← deref (b !! r);
      if negb (is_NUL c) && negb (Ascii.eqb c quote) then
        '(r, w, b) ← (if Ascii.eqb c backslash then move_byte r w b else Done (r, w, b));
        '(r, w, b) ← move_byte r w b;
        move_literal fuel r w b
      else Done (r, w, b)
  end.

Fixpoint minify_loop (fuel r w : nat) (b : list ascii) : outcome (list ascii) :=
  match fuel with
  | O => NoFuel
  | S fuel =>
      c ← deref (b !! r);
      if is_NUL c then (if (w <? length b)%nat then Done (<[w := chr 0]> b) else Undef)
      else if blank_char c then minify_loop fuel (S r) w b
      else
        next ← (if Ascii.eqb c "/" then d ← deref (b !! S r); Done (Some d) else Done None);
        if match next with Some d => Ascii.eqb d "/" | None => false end then
          r ← skip_line fuel r b; minify_loop fuel r w b
        else if match next with Some d => Ascii.eqb d "*" | None => false end then
          r ← skip_comment fuel r b; minify_loop fuel (r + 2) w b
        else if Ascii.eqb c quote then
          '(r, w, b) ← move_byte r w b;
          '(r, w, b) ← move_literal fuel r w b;
          '(r, w, b) ← move_byte r w b;
          minify_loop fuel r w b
        else
          '(r, w, b) ← move_byte r w b;
          minify_loop fuel r w b
  end.

Definition snowflake_cJSON_Minify (json : option (list ascii)) : outcome (option (list ascii)) :=
  match json with
  | None => Done None
  | Some b => b ← minify_loop (S (length b)) 0 0 b; Done (Some b)
  end.

(** ** The text that comes out *)

Inductive scan := Outside | Line | Comment | Literal | Escaped.
Definition put (c : ascii) (o : option string) : option string := option_map (String c) o.

(** [None]: the code runs past the terminator, inside a comment or a literal that is not
    closed. *)
Fixpoint minified (m : scan) (s : string) : option string :=
  match m, s with
  | Outside, EmptyString | Line, EmptyString => Some EmptyString
  | _, EmptyString => None
  | Outside, String c s =>
      if blank_char c then minified Outside s
      else if Ascii.eqb c "/" then
        match s with
        | String d _ =>
            if Ascii.eqb d "/" then minified Line s else if Ascii.eqb d "*" then minified Comment s else put c (minified Outside s)
        | EmptyString => put c (minified Outside s)
        end
      else if Ascii.eqb c quote then put c (minified Literal s)
      else put c (minified Outside s)
  | Line, String c s => if code c =? 10 then minified Outside s else minified Line s
  | Comment, String c s =>
      match s with
      | String d s' => if Ascii.eqb c "*" && Ascii.eqb d "/" then minified Outside s' else minified Comment s
      | EmptyString => None
      end
  | Literal, String c s =>
      if Ascii.eqb c quote then put c (minified Outside s)
      else if Ascii.eqb c backslash then put c (minified Escaped s)
      else put c (minified Literal s)
  | Escaped, String c s => put c (minified Literal s)
  end.

(** ** The loop gives that text

    [rest] is what the block holds after the terminator. *)

Section InPlace.
Context (rest : list ascii).

Definition suffix (r : nat) (s : string) (b : list ascii) : Prop := drop r b = String.list_ascii_of_string s ++ chr 0 :: rest.
(** [b] with the bytes of [t] from [w] on. *)
Definition splice (w : nat) (t : string) (b : list ascii) : list ascii := take w b ++ String.list_ascii_of_string t ++ drop (w + String.length t) b.
Definition terminated (t : string) : string := t +:+ String (chr 0) EmptyString.
Definition ends (o : outcome (list ascii)) (m : option string) (w : nat) (b : list ascii) : Prop :=
  match m with Some t => o = Done (splice w (terminated t) b) | None => rest = [] -> o = Undef end.

Lemma splice_nil w b : splice w EmptyString b = b.
Proof. unfold splice. cbn. by rewrite Nat.add_0_r, take_drop. Qed.

Lemma splice_cons w c t b : (w < length b)%nat -> splice (S w) t (<[w := c]> b) = splice w (String c t) b.
Proof.
  intros Hw. unfold splice. cbn [String.list_ascii_of_string String.length app]. rewrite (take_S_r _ w c) by (by rewrite list_lookup_insert_eq).
  rewrite take_insert_ge, <- app_assoc by lia. cbn [app]. do 3 f_equal. rewrite drop_insert_lt by lia. f_equal. lia.
Qed.

Lemma ends_put o m w c b : (w < length b)%nat -> ends o m (S w) (<[w := c]> b) -> ends o (put c m) w b.
Proof. intros Hw. destruct m as [t|]; [|done]. cbn. intros ->. by rewrite splice_cons. Qed.

Lemma suffix_head r c s b : suffix r (String c s) b -> b !! r = Some c /\ suffix (S r) s b /\ (r < length b)%nat.
Proof.
  unfold suffix. cbn [String.list_ascii_of_string app]. intros E. assert (b !! r = Some c) as H by (by rewrite <- (Nat.add_0_r r), <- lookup_drop, E).
  split_and!; [done| |by eapply lookup_lt_Some]. change (S r) with (1 + r)%nat. by rewrite Nat.add_comm, <- drop_drop, E.
Qed.
Lemma suffix_end r b : suffix r EmptyString b -> b !! r = Some (chr 0) /\ drop (S r) b = rest /\ (r < length b)%nat.
Proof.
  unfold suffix. cbn [String.list_ascii_of_string app]. intros E. assert (b !! r = Some (chr 0)) as H by (by rewrite <- (Nat.add_0_r r), <- lookup_drop, E).
  split_and!; [done| |by eapply lookup_lt_Some]. change (S r) with (1 + r)%nat. by rewrite Nat.add_comm, <- drop_drop, E.
Qed.
Lemma suffix_insert r w c s b : (w < r)%nat -> suffix r s b -> suffix r s (<[w := c]> b).
Proof. unfold suffix. intros Hw <-. by apply drop_insert_lt. Qed.

(** Past the terminator there is nothing. *)
Lemma beyond r b k : suffix r EmptyString b -> rest = [] -> (r < k)%nat -> b !! k = None.
Proof.
  intros (_ & E & _)%suffix_end Hr Hk. rewrite Hr in E. apply lookup_ge_None. apply (f_equal length) in E. rewrite length_drop in E. cbn in E. lia.
Qed.

Lemma move_byte_ok r w b c : b !! r = Some c -> (w <= r)%nat -> move_byte r w b = Done (S r, S w, <[w := c]> b).
Proof.
  intros E Hw. unfold move_byte. rewrite E. cbn [deref]. rewrite bind_Done_l. apply lookup_lt_Some in E.
  by rewrite (proj2 (Nat.ltb_lt _ _)) by lia.
Qed.

Lemma not_nul c s : no_nul (String c s) = true -> is_NUL c = false /\ no_nul s = true.
Proof. unfold no_nul, is_NUL. cbn [str_all]. intros [Hc Hs]%andb_prop. by apply negb_true_iff in Hc. Qed.

Section Inner.
Context (fuel : nat).
Context (outside : forall s r w b, no_nul s = true -> (String.length s + 1 < fuel)%nat -> suffix r s b -> (w <= r)%nat ->
  ends (minify_loop fuel r w b) (minified Outside s) w b).

Lemma line_ends lf : forall s r w b, no_nul s = true -> (String.length s < lf)%nat -> (String.length s + 1 < fuel)%nat -> suffix r s b -> (w <= r)%nat ->
  ends (r ← skip_line lf r b; minify_loop fuel r w b) (minified Line s) w b.
Proof.
  induction lf as [|lf IH]; intros s r w b Hn Hl Hf Hs Hw; [lia|]. cbn [skip_line]. destruct s as [|c s].
  - destruct (suffix_end _ _ Hs) as (-> & _ & _). cbn [deref]. rewrite bind_Done_l. change (is_NUL (chr 0)) with true. cbn [negb andb]. rewrite bind_Done_l.
    by apply (outside EmptyString).
  - destruct (suffix_head _ _ _ _ Hs) as (-> & Hs' & _). destruct (not_nul c s Hn) as [Hc Hn']. cbn [deref]. rewrite bind_Done_l, Hc. cbn [negb andb minified].
    cbn [String.length] in Hl, Hf. destruct (code c =? 10) eqn:E; cbn [negb].
    + rewrite bind_Done_l. pose proof (outside (String c s) r w b Hn Hf Hs Hw) as H. cbn [minified] in H. unfold blank_char in H. rewrite E, !orb_true_r in H. done.
    + apply IH; (done || lia).
Qed.

Lemma comment_ends lf : forall s r w b, no_nul s = true -> (String.length s < lf)%nat -> (String.length s + 1 < fuel)%nat -> suffix r s b -> (w <= r)%nat ->
  ends (r ← skip_comment lf r b; minify_loop fuel (r + 2) w b) (minified Comment s) w b.
Proof.
  assert (forall r w b, suffix r EmptyString b -> rest = [] -> (1 < fuel)%nat -> minify_loop fuel (r + 2) w b = Undef) as Hend.
  { intros r w b Hs Hr Hf. destruct fuel as [|f]; [lia|]. cbn [minify_loop]. by rewrite (beyond r b (r + 2) Hs Hr) by lia. }
  induction lf as [|lf IH]; intros s r w b Hn Hl Hf Hs Hw; [lia|]. cbn [skip_comment]. destruct s as [|c s].
  - destruct (suffix_end _ _ Hs) as (-> & _ & _). cbn [deref]. rewrite bind_Done_l. change (is_NUL (chr 0)) with true. cbv iota. rewrite bind_Done_l.
    intros Hr. apply Hend; (done || lia).
  - destruct (suffix_head _ _ _ _ Hs) as (-> & Hs' & _). destruct (not_nul c s Hn) as [Hc Hn']. cbn [deref]. rewrite bind_Done_l, Hc. cbn [String.length] in Hl, Hf.
    assert (ends (r ← skip_comment lf (S r) b; minify_loop fuel (r + 2) w b) (minified Comment s) w b) as Hgo by (apply IH; (done || lia)).
    destruct s as [|d s].
    + destruct (suffix_end _ _ Hs') as (-> & _ & _). cbn [deref minified]. rewrite bind_Done_l. change (Ascii.eqb (chr 0) "/") with false. by destruct (Ascii.eqb c "*").
    + change (minified Comment (String c (String d s))) with (if Ascii.eqb c "*" && Ascii.eqb d "/" then minified Outside s else minified Comment (String d s)).
      destruct (suffix_head _ _ _ _ Hs') as (-> & Hs'' & _). cbn [deref]. rewrite bind_Done_l. destruct (Ascii.eqb c "*"); [|exact Hgo]. cbn [andb].
      destruct (Ascii.eqb d "/"); [|exact Hgo]. rewrite bind_Done_l. cbn [String.length] in *. rewrite Nat.add_comm. destruct (not_nul d s Hn') as [_ Hn''].
      apply outside; (done || lia).
Qed.

Abbreviation finish := (fun '(r, w, b) => '(r, w, b) ← move_byte r w b; minify_loop fuel r w b).

Lemma literal_ends lf : forall s r w b, no_nul s = true -> (String.length s < lf)%nat -> (String.length s + 1 < fuel)%nat -> suffix r s b -> (w <= r)%nat ->
  ends (move_literal lf r w b ≫= finish) (minified Literal s) w b.
Proof.
  assert (forall lf k w b, b !! k = None -> (0 < lf)%nat -> move_literal lf k w b = Undef) as Hend.
  { intros l k w b Hk Hl. destruct l as [|l]; [lia|]. cbn [move_literal]. by rewrite Hk. }
  induction lf as [|lf IH]; intros s r w b Hn Hl Hf Hs Hw; [lia|]. cbn [move_literal]. destruct s as [|c s].
  - destruct (suffix_end _ _ Hs) as (Hr & _ & Hrl). rewrite Hr. cbn [deref]. rewrite bind_Done_l. change (is_NUL (chr 0)) with true. cbn [negb andb]. rewrite bind_Done_l.
    rewrite (move_byte_ok _ _ _ _ Hr Hw), bind_Done_l. intros Hrest. destruct fuel as [|f]; [lia|]. cbn [minify_loop].
    by rewrite (list_lookup_insert_ne b w (S r)), (beyond r b (S r) Hs Hrest) by lia.
  - destruct (suffix_head _ _ _ _ Hs) as (Hr & Hs' & Hrl). destruct (not_nul c s Hn) as [Hc Hn']. rewrite Hr. cbn [deref]. rewrite bind_Done_l, Hc. cbn [String.length] in Hl, Hf.
    cbn [negb andb minified]. destruct (Ascii.eqb c quote) eqn:Eq; cbn [negb].
    + rewrite bind_Done_l. rewrite (move_byte_ok _ _ _ _ Hr Hw), bind_Done_l. apply ends_put; [lia|]. apply outside; [done|lia|apply suffix_insert; (done || lia)|lia].
    + destruct (Ascii.eqb c backslash) eqn:Eb.
      * rewrite (move_byte_ok _ _ _ _ Hr Hw), bind_Done_l. apply ends_put; [lia|]. destruct s as [|d s].
        -- intros Hrest. destruct (suffix_end _ _ Hs') as (Hr' & _ & _). rewrite (move_byte_ok (S r) (S w) _ (chr 0)); [|rewrite list_lookup_insert_ne by lia; exact Hr'|lia].
           rewrite bind_Done_l. rewrite Hend; [done| |cbn in Hl; lia].
           rewrite !list_lookup_insert_ne by lia. apply (beyond (S r) b (S (S r)) Hs' Hrest). lia.
        -- destruct (suffix_head _ _ _ _ Hs') as (Hr' & Hs'' & Hrl'). destruct (not_nul d s Hn') as [_ Hn'']. cbn [minified String.length] in *.
           rewrite (move_byte_ok (S r) (S w) _ d); [|rewrite list_lookup_insert_ne by lia; exact Hr'|lia]. rewrite bind_Done_l.
           apply ends_put; [rewrite length_insert; lia|]. apply IH; [done|lia|lia|do 2 (apply suffix_insert; [lia|]); exact Hs''|lia].
      * rewrite bind_Done_l, (move_byte_ok _ _ _ _ Hr Hw), bind_Done_l. apply ends_put; [lia|]. apply IH; [done|lia|lia|apply suffix_insert; (done || lia)|lia].
Qed.
End Inner.

Lemma loop_ends fuel : forall s r w b, no_nul s = true -> (String.length s + 1 < fuel)%nat -> suffix r s b -> (w <= r)%nat ->
  ends (minify_loop fuel r w b) (minified Outside s) w b.
Proof.
  induction fuel as [|fuel IH]; intros s r w b Hn Hf Hs Hw; [lia|]. cbn [minify_loop]. destruct s as [|c s].
  - destruct (suffix_end _ _ Hs) as (Hr & _ & Hrl). rewrite Hr. cbn [deref]. rewrite bind_Done_l. change (is_NUL (chr 0)) with true. cbv iota.
    rewrite (proj2 (Nat.ltb_lt _ _)) by lia. cbn. by rewrite <- splice_cons, splice_nil by lia.
  - destruct (suffix_head _ _ _ _ Hs) as (Hr & Hs' & Hrl). destruct (not_nul c s Hn) as [Hc Hn']. rewrite Hr. cbn [deref]. rewrite bind_Done_l, Hc. cbv iota. cbn [String.length] in Hf.
    assert (ends ('(r, w, b) ← move_byte r w b; minify_loop fuel r w b) (put c (minified Outside s)) w b) as Hcopy.
    { rewrite (move_byte_ok _ _ _ _ Hr Hw), bind_Done_l. apply ends_put; [lia|]. apply IH; [done|lia|apply suffix_insert; (done || lia)|lia]. }
    cbn [minified]. destruct (blank_char c); [apply IH; (done || lia)|]. destruct (Ascii.eqb c "/") eqn:Es.
    + apply Ascii.eqb_eq in Es as ->. change (Ascii.eqb "/" quote) with false. destruct s as [|d s].
      * destruct (suffix_end _ _ Hs') as (-> & _ & _). cbn [deref]. rewrite !bind_Done_l. exact Hcopy.
      * destruct (suffix_head _ _ _ _ Hs') as (-> & _ & _). cbn [deref]. rewrite !bind_Done_l. cbn [String.length] in *. destruct (Ascii.eqb d "/") eqn:Ed.
        -- replace (skip_line fuel r b) with (skip_line (pred fuel) (S r) b) by (destruct fuel; [lia|]; cbn [skip_line pred]; by rewrite Hr).
           apply (line_ends fuel IH); first [done|cbn [String.length]; lia].
        -- destruct (Ascii.eqb d "*") eqn:Ed'; [|exact Hcopy].
           replace (skip_comment fuel r b) with (skip_comment (pred fuel) (S r) b) by (destruct fuel; [lia|]; cbn [skip_comment pred]; by rewrite Hr).
           apply (comment_ends fuel IH); first [done|cbn [String.length]; lia].
    + rewrite bind_Done_l. destruct (Ascii.eqb c quote); [|exact Hcopy].
      rewrite (move_byte_ok _ _ _ _ Hr Hw), bind_Done_l. apply ends_put; [lia|].
      apply (literal_ends fuel IH); [done|lia|lia|apply suffix_insert; (done || lia)|lia].
Qed.
End InPlace.

(** What minification makes of a C string in a block: the text of [minified] and its NUL,
    the rest of the block as it was. *)
Lemma minify_ok s rest : no_nul s = true ->
  ends rest (minify_loop (S (length (String.list_ascii_of_string s ++ chr 0 :: rest))) 0 0 (String.list_ascii_of_string s ++ chr 0 :: rest))
    (minified Outside s) 0 (String.list_ascii_of_string s ++ chr 0 :: rest).
Proof.
  intros Hn. apply loop_ends; [done| |by unfold suffix|lia]. rewrite length_app, list_ascii_length. cbn. lia.
Qed.

Lemma minified_length m s : forall t, minified m s = Some t -> (String.length t <= String.length s)%nat.
Proof.
  assert (forall n s m t, (String.length s < n)%nat -> minified m s = Some t -> (String.length t <= String.length s)%nat) as H; [|intros t; apply (H (S (String.length s))); lia].
  induction n as [|n IH]; intros u k t Hn; [lia|]. destruct u as [|c u]; [destruct k; cbn; by intros [= <-]|]. cbn [String.length] in Hn.
  assert (forall k t, minified k u = Some t -> (String.length t <= S (String.length u))%nat) as Hk by (intros k' t' Ht; apply IH in Ht; lia).
  assert (forall k t, put c (minified k u) = Some t -> (String.length t <= S (String.length u))%nat) as Hp.
  { intros k' t' Ht. destruct (minified k' u) as [v|] eqn:E; [|done]. injection Ht as <-. apply IH in E; cbn; lia. }
  destruct k; cbn [minified String.length].
  - destruct (blank_char c); [apply Hk|]. destruct (Ascii.eqb c "/"); [|destruct (Ascii.eqb c quote); apply Hp].
    destruct u as [|d u]; [apply Hp|]. destruct (Ascii.eqb d "/"); [apply Hk|]. destruct (Ascii.eqb d "*"); [apply Hk|apply Hp].
  - destruct (code c =? 10); apply Hk.
  - destruct u as [|d u]; [done|]. destruct (_ && _); [|apply Hk]. intros Ht. apply IH in Ht; cbn in *; lia.
  - destruct (Ascii.eqb c quote); [apply Hp|]. destruct (Ascii.eqb c backslash); apply Hp.
  - apply Hp.
Qed.

(** ** Minification of a printed text *)

(** Nothing that opens a literal or a comment, and no space: what numbers and words are
    made of. *)
Definition solid (c : ascii) : bool := negb (blank_char c) && negb (Ascii.eqb c "/") && negb (Ascii.eqb c quote).

Definition put_text (t : string) (o : option string) : option string := option_map (String.append t) o.

Lemma minified_solid s u : str_all solid s = true -> minified Outside (s +:+ u) = put_text s (minified Outside u).
Proof.
  induction s as [|c s IH]; cbn [String.append]; [by destruct (minified Outside u)|]. cbn [str_all minified]. unfold solid.
  intros [[[->%negb_true_iff ->%negb_true_iff]%andb_prop ->%negb_true_iff]%andb_prop Hs]%andb_prop. rewrite IH by done. by destruct (minified Outside u).
Qed.

Lemma minified_blank s u : str_all blank_char s = true -> minified Outside (s +:+ u) = minified Outside u.
Proof. induction s as [|c s IH]; [done|]. cbn [str_all String.append minified]. intros [-> Hs]%andb_prop. by apply IH. Qed.

Lemma put_text_app s t o : put_text s (put_text t o) = put_text (s +:+ t) o.
Proof. destruct o as [u|]; [|done]. cbn. by rewrite str_app_assoc. Qed.
Lemma put_text_cons c t o : put c (put_text t o) = put_text (String c t) o.
Proof. by destruct o. Qed.

Lemma literal_plain c s : code c <> 34 -> code c <> 92 -> minified Literal (String c s) = put c (minified Literal s).
Proof.
  intros H1 H2. cbn [minified]. destruct (Ascii.eqb c quote) eqn:E1; [apply Ascii.eqb_eq in E1; by subst|].
  destruct (Ascii.eqb c backslash) eqn:E2; [apply Ascii.eqb_eq in E2; by subst|]. done.
Qed.
Lemma literal_escape e s : minified Literal (String backslash (String e s)) = put backslash (put e (minified Literal s)).
Proof. done. Qed.

Lemma minified_escape s u : minified Literal (escape s +:+ String quote u) = put_text (escape s +:+ String quote EmptyString) (minified Outside u).
Proof.
  assert (forall z, 0 <= z < 16 -> code (hex_digit z) <> 34 /\ code (hex_digit z) <> 92) as Hhex.
  { intros z Hz. unfold hex_digit. destruct (z <? 10) eqn:E; rewrite code_chr by lia; lia. }
  induction s as [|c s IH]; cbn [escape String.append].
  - change (minified Literal (String quote u)) with (put quote (minified Outside u)). by destruct (minified Outside u).
  - destruct ((code c >? 31) && negb (code c =? 34) && negb (code c =? 92)) eqn:E.
    + cbn [String.append]. rewrite literal_plain by lia. by rewrite IH, put_text_cons.
    + destruct (is_simple_escape c) as [e|]; cbn [u_04x String.append]; rewrite literal_escape; [by rewrite IH, !put_text_cons|].
      pose proof (code_range c) as Hc. pose proof (Z.mod_pos_bound (code c) 16 ltac:(lia)).
      assert (0 <= code c / 16 < 16) by (split; [apply Z.div_pos; lia|apply Z.div_lt_upper_bound; lia]).
      rewrite !literal_plain by first [by apply Hhex|done]. by rewrite IH, !put_text_cons.
Qed.

Lemma minified_quoted s u : minified Outside (quoted s +:+ u) = put_text (quoted s) (minified Outside u).
Proof.
  unfold quoted. cbn [String.append]. rewrite str_app_assoc. cbn [String.append].
  change (minified Outside (String quote ?x)) with (put quote (minified Literal x)). rewrite <- put_text_cons. f_equal.
  destruct s as [s|]; [apply minified_escape|exact (minified_escape EmptyString u)].
Qed.

Lemma printf_char_solid c : printf_char c = true -> solid c = true.
Proof.
  unfold printf_char, is_digit. intros [H|H]%orb_prop.
  - unfold solid, blank_char. destruct (Ascii.eqb c "/") eqn:E1; [apply Ascii.eqb_eq in E1; by subst|].
    destruct (Ascii.eqb c quote) eqn:E2; [apply Ascii.eqb_eq in E2; by subst|]. lia.
  - apply existsb_exists in H as (d & Hd & ->%Ascii.eqb_eq). cbn in Hd. by repeat destruct Hd as [<-|Hd].
Qed.

Lemma number_text_solid d : str_all solid (number_text d) = true.
Proof.
  unfold number_text. destruct (negb _); [done|].
  destruct (_ || _); (eapply str_all_impl; [apply printf_char_solid|apply fmt_g_chars]).
Qed.

(** [s] minifies to [s0] wherever it stands outside literals and comments. *)
Definition compacts (s0 s : string) : Prop := forall u, minified Outside (s +:+ u) = put_text s0 (minified Outside u).

Lemma compacts_app s0 s t0 t : compacts s0 s -> compacts t0 t -> compacts (s0 +:+ t0) (s +:+ t).
Proof. intros Hs Ht u. by rewrite str_app_assoc, Hs, Ht, put_text_app. Qed.
Lemma compacts_solid s : str_all solid s = true -> compacts s s.
Proof. intros Hs u. by apply minified_solid. Qed.
Lemma compacts_blank s : str_all blank_char s = true -> compacts EmptyString s.
Proof. intros Hs u. rewrite minified_blank by done. by destruct (minified Outside u). Qed.
Lemma compacts_quoted k : compacts (quoted k) (quoted k).
Proof. intros u. apply minified_quoted. Qed.

(** The same of texts that may not be there. *)
Definition compact_opt (o0 o : option string) : Prop := forall s, o = Some s -> exists s0, o0 = Some s0 /\ compacts s0 s.
Lemma compact_opt_app a0 a b0 b : compact_opt a0 a -> compact_opt b0 b -> compact_opt (opt_app a0 b0) (opt_app a b).
Proof.
  intros Ha Hb s (x & y & Ex & Ey & ->)%opt_app_Some. destruct (Ha x Ex) as (x0 & -> & Hx), (Hb y Ey) as (y0 & -> & Hy).
  eexists. split; [done|]. by apply compacts_app.
Qed.
Lemma compact_opt_Some s0 s : compacts s0 s -> compact_opt (Some s0) (Some s).
Proof. intros H ? [= <-]. by exists s0. Qed.
Lemma compacts_space (f : bool) s : str_all blank_char s = true -> compacts EmptyString (if f then s else EmptyString).
Proof. intros H. apply compacts_blank. by destruct f. Qed.
Lemma tab_string_blanks n : str_all blank_char (tab_string n) = true.
Proof. by induction n. Qed.

#[local] Hint Resolve compact_opt_app compact_opt_Some compacts_app compacts_quoted compacts_space tab_string_blanks : compact.

Section Loops.
Context (fmt : bool) (g f : cJSON -> option string).

Lemma elements_compact l : Forall (fun x => compact_opt (g x) (f x)) l -> compact_opt (render_elements false g l) (render_elements fmt f l).
Proof.
  induction 1 as [|x l Hx Hl IH]; cbn [render_elements]; [by apply compact_opt_Some, compacts_solid|].
  apply compact_opt_app; [done|]. apply compact_opt_app; [|done]. apply compact_opt_Some. destruct l; [by apply compacts_solid|].
  apply (compacts_app "," "," EmptyString); [by apply compacts_solid|]. by apply compacts_space.
Qed.

Lemma members_compact d0 d l : Forall (fun x => compact_opt (g x) (f x)) l -> compact_opt (render_members false g d0 l) (render_members fmt f d l).
Proof.
  induction 1 as [|x l Hx Hl IH]; cbn [render_members]; [by apply compact_opt_Some, compacts_solid|].
  apply compact_opt_app; [auto with compact|]. apply compact_opt_app; [auto with compact|].
  apply compact_opt_app; [apply compact_opt_Some, (compacts_app ":" ":" EmptyString); [by apply compacts_solid|by apply compacts_space]|].
  apply compact_opt_app; [done|]. apply compact_opt_app; [|done]. apply compact_opt_Some, compacts_app; [destruct l; by apply compacts_solid|by apply compacts_space].
Qed.
End Loops.

(** No raw nodes: their text is printed as it is and may be anything. *)
Fixpoint no_raw (j : cJSON) : bool := negb (Z.land (type j) 255 =? cJSON_Raw) && forallb no_raw (child j).

Lemma render_compact j : no_raw j = true -> forall fmt d0 d, compact_opt (render false d0 j) (render fmt d j).
Proof.
  induction j as [t vs vi vd k ch IH] using cJSON_ind'. intros [Hr Hch]%andb_prop fmt d0 d. cbn [type child] in Hr, Hch. apply negb_true_iff in Hr.
  assert (Forall (fun x => forall fmt d0 d, compact_opt (render false d0 x) (render fmt d x)) ch) as Hin.
  { rewrite forallb_forall in Hch. rewrite Forall_forall in IH |- *. intros x Hx. by apply IH, Hch, list_elem_of_In. }
  clear IH Hch. cbn [render type valuestring valuedouble child]. cbv zeta. rewrite Hr.
  repeat (match goal with |- compact_opt (if ?c then _ else _) _ => destruct c end; try (by apply compact_opt_Some, compacts_solid)); [done|..|done].
  - apply compact_opt_Some, compacts_solid, number_text_solid.
  - auto with compact.
  - apply compact_opt_app; [by apply compact_opt_Some, compacts_solid|]. apply compact_opt_app; [|by apply compact_opt_Some, compacts_solid].
    apply elements_compact. eapply Forall_impl; [exact Hin|]. auto.
  - apply compact_opt_app; [apply compact_opt_Some, (compacts_app "{" "{" EmptyString); [by apply compacts_solid|by apply compacts_space]|].
    apply compact_opt_app; [apply members_compact; eapply Forall_impl; [exact Hin|auto]|].
    apply compact_opt_Some, (compacts_app EmptyString); [auto with compact|by apply compacts_solid].
Qed.

(** Minification undoes formatting.  Of any tree without raw nodes, what Print gives
    (indented, or not) becomes in the block it stands in, without a byte read or written
    outside of it, the text that PrintUnformatted gives, with a NUL behind it; what comes
    after that in the block stays as it was. *)
Theorem minify_formatted j fmt s rest : no_raw j = true -> c_tree j = true -> render fmt 0 j = Some s ->
  exists s0, render false 0 j = Some s0 /\ (String.length s0 <= String.length s)%nat /\
    snowflake_cJSON_Minify (Some (String.list_ascii_of_string s ++ chr 0 :: rest)) =
      Done (Some (String.list_ascii_of_string s0 ++ chr 0 :: drop (S (String.length s0)) (String.list_ascii_of_string s ++ chr 0 :: rest))).
Proof.
  intros Hr Hc Hs. destruct (render_compact j Hr fmt 0%nat 0%nat s Hs) as (s0 & Hs0 & Hcomp). exists s0. split; [done|].
  pose proof (minify_ok s rest (render_no_nul fmt j Hc 0 s Hs)) as H. specialize (Hcomp EmptyString). rewrite str_app_nil_r in Hcomp. rewrite Hcomp in H. cbn [minified put_text option_map ends] in H.
  rewrite str_app_nil_r in H. split; [apply (minified_length Outside s); by rewrite Hcomp; cbn; rewrite str_app_nil_r|].
  cbn [snowflake_cJSON_Minify]. rewrite H, bind_Done_l. unfold splice, terminated. cbn [take app Nat.add]. rewrite list_ascii_app, str_length_app, <- app_assoc. cbn [String.length String.list_ascii_of_string app].
  by rewrite Nat.add_1_r.
Qed.

Lemma minify_formatted_witness :
  exists s, snowflake_cJSON_Print copy_hooks print_sample = Done (Some s) /\ String.length s = 42%nat /\
    exists s0, snowflake_cJSON_PrintUnformatted copy_hooks print_sample = Done (Some s0) /\ String.length s0 = 31%nat /\
      snowflake_cJSON_Minify (Some (String.list_ascii_of_string s ++ chr 0 :: [])) =
        Done (Some (String.list_ascii_of_string s0 ++ chr 0 :: drop 32 (String.list_ascii_of_string s ++ chr 0 :: []))).
Proof.
  assert (exists s, render true 0 print_sample = Some s /\ String.length s = 42%nat /\ snowflake_cJSON_Print copy_hooks print_sample = Done (Some s)) as (s & Hs & Hl & Hp)
    by (eexists; split_and!; [vm_compute; reflexivity..]).
  exists s. split; [exact Hp|]. split; [exact Hl|]. destruct (minify_formatted print_sample true s [] eq_refl eq_refl Hs) as (s0 & Hs0 & _ & H).
  exists s0. vm_compute in Hs0. injection Hs0 as <-. split; [vm_compute; reflexivity|]. split; [reflexivity|exact H].
Defined.

Definition in_block (s : string) : list ascii := String.list_ascii_of_string s ++ [chr 0].

(** Comments go, those of one line with it. *)
Example minify_comments : minified Outside ("[1, /* two */ 2]// end") = Some "[1,2]".
Proof. reflexivity. Qed.
(** [/*/] is taken for a whole comment. *)
Example minify_slash_comment : minified Outside "[1/*/,2]" = Some "[1,2]".
Proof. reflexivity. Qed.

(** A comment or a literal that is not closed, or an escape at the end, takes the code
    beyond the terminator of the block. *)
Example minify_open_comment : snowflake_cJSON_Minify (Some (in_block "1/*")) = Undef.
Proof. reflexivity. Qed.
Example minify_open_literal : snowflake_cJSON_Minify (Some (in_block (String quote "a"))) = Undef.
Proof. reflexivity. Qed.
Example minify_open_escape : snowflake_cJSON_Minify (Some (in_block (String quote (String backslash EmptyString)))) = Undef.
Proof. reflexivity. Qed.
