(* ===== verification/CJsonType.v ===== *)
(** * Trees the parser returns are well-typed

    What every reader of a parsed response relies on: a node has one of the seven
    JSON types, text exactly when it is a string, children only when it is an array
    or an object, and a name exactly when its parent is an object; no text holds a
    NUL or is longer than the input. *)

From S2P Require Import Prelude CLib CFloat CJson CJsonPrint CJsonParse.

Definition json_type (t : Z) : bool :=
  (t =? cJSON_False) || (t =? cJSON_True) || (t =? cJSON_NULL) || (t =? cJSON_Number) || (t =? cJSON_String)
  || (t =? cJSON_Array) || (t =? cJSON_Object).

Definition text_ok (N : nat) (s : string) : bool := no_nul s && (String.length s <=? N)%nat.
Definition named (c : cJSON) : bool := match key c with Some _ => true | None => false end.

Fixpoint well_typed (N : nat) (j : cJSON) : bool :=
  json_type (type j)
  && match valuestring j with Some s => (type j =? cJSON_String) && text_ok N s | None => negb (type j =? cJSON_String) end
  && match key j with Some s => text_ok N s | None => true end
  && (if type j =? cJSON_Object then forallb named (child j)
      else if type j =? cJSON_Array then forallb (fun c => negb (named c)) (child j)
      else match child j with [] => true | _ => false end)
  && forallb (well_typed N) (child j).

(** A node the parser is about to fill in. *)
Definition blank (N : nat) (item : cJSON) : Prop :=
  valuestring item = None /\ child item = [] /\ match key item with Some s => text_ok N s = true | None => True end.

Section Typed.
  Context (hooks : Z -> bool) (N : nat).

Definition typed_as (item : cJSON) (r : option cJSON) : Prop :=
  forall j, r = Some j -> well_typed N j = true /\ key j = key item.

Definition reads (b : parse_buffer) : Prop := (String.length (content b) <= N)%nat.

Lemma new_item_blank it : cJSON_New_Item hooks = Some it -> blank N it /\ key it = None.
Proof. unfold cJSON_New_Item. case_match; [|done]. by intros [= <-]. Qed.

Lemma skip_content b b' : buffer_skip_whitespace b = Done b' -> content b' = content b.
Proof.
  unfold buffer_skip_whitespace. destruct (_ =? _)%nat; [|by intros [= <-]]. intros H. inv_done H. done.
Qed.

Lemma leaf_typed t vi item vd : blank N item -> json_type t = true ->
  (t =? cJSON_String) = false -> (t =? cJSON_Object) = false -> (t =? cJSON_Array) = false ->
  typed_as item (Some (mk_cJSON t (valuestring item) vi vd (key item) (child item))).
Proof.
  intros (Hv & Hc & Hk) Ht H1 H2 H3 j [= <-]. split; [|done]. cbn. rewrite Ht, Hv, Hc, H1, H2, H3. cbn. destruct (key item); [|done].
  by rewrite Hk.
Qed.

Lemma cstr_ok s : no_nul (cstr s) = true /\ (String.length (cstr s) <= String.length s)%nat.
Proof.
  induction s as [|c s [IH1 IH2]]; cbn; [done|]. destruct (code c =? 0) eqn:E; cbn; [split; [done|lia]|]. rewrite E. split; [done|lia].
Qed.

Lemma put_length cap out l out' : put cap out l = Done out' -> out' = out +:+ l /\ (String.length out + String.length l <= cap)%nat.
Proof. unfold put. destruct (_ <=? _)%nat eqn:E; [|done]. intros [= <-]. apply Nat.leb_le in E. done. Qed.

Lemma parse_string_typed item b r b' :
  blank N item -> reads b -> parse_string hooks item b = Done (r, b') ->
  content b' = content b /\
  forall j, r = Some j -> key j = key item /\ type j = cJSON_String /\ child j = [] /\ exists s, valuestring j = Some s /\ text_ok N s = true.
Proof.
  intros (Hv & Hc & Hk) Hr H. unfold parse_string in H. inv_done H. destruct (negb _); [by simplify_eq|].
  destruct (scan_literal _) as [[len k]|] eqn:Es; [|by simplify_eq]. apply scan_literal_ok in Es as [Hl%literal_length _].
  unfold here in Hl. rewrite !str_drop_length in Hl.
  destruct (hooks _); [|by simplify_eq]. inv_done H. destruct a0 as [[out|] n]; [|by simplify_eq]. inv_done H.
  match goal with Hp : put _ _ _ = Done _ |- _ => apply put_length in Hp as [Eo Hp] end. simplify_eq. split; [done|]. intros j [= <-].
  cbn. split_and!; [done..|]. eexists. split; [done|]. unfold text_ok. match goal with |- context [cstr ?o] => destruct (cstr_ok o) as [-> Hlen] end. cbn [andb].
  apply Nat.leb_le. unfold reads in Hr. rewrite str_length_app in Hlen. cbn in *. lia.
Qed.

Lemma string_typed item j : blank N item -> key j = key item -> type j = cJSON_String -> child j = [] ->
  (exists s, valuestring j = Some s /\ text_ok N s = true) -> well_typed N j = true.
Proof.
  intros (_ & _ & Hk) Ek Et Ec (s & Ev & Es). destruct j. cbn in *. subst. rewrite Es. cbn. destruct (key item); [|done]. by rewrite Hk.
Qed.

Section Loops.
  Context (pv : cJSON -> parse_buffer -> outcome (option cJSON * parse_buffer)).
  Context (Hpv : forall item b r b', blank N item -> reads b -> pv item b = Done (r, b') -> content b' = content b /\ typed_as item r).

Definition all_typed (has_name : bool) (l : list cJSON) : Prop :=
  forallb (well_typed N) l = true /\ forallb (fun c => Bool.eqb (named c) has_name) l = true.

Lemma all_typed_snoc has_name l x : all_typed has_name l -> well_typed N x = true -> named x = has_name -> all_typed has_name (l ++ [x]).
Proof. intros [H1 H2] Hx Hn. split; rewrite forallb_app, ?H1, ?H2; cbn; rewrite ?Hx, ?Hn, ?eqb_reflx; done. Qed.

Lemma at_char_buffer b b' c (more : bool) : at_char b c = Done more -> buffer_skip_whitespace b' = Done b -> content b = content b'.
Proof. intros _. apply skip_content. Qed.

Lemma parse_elements_typed fuel : forall head b r b',
  all_typed false head -> reads b -> parse_elements hooks pv fuel head b = Done (r, b') ->
  content b' = content b /\ forall ch, r = Some ch -> all_typed false ch.
Proof.
  induction fuel as [|fuel IH]; intros head b r b' Hh Hr H; [done|]. cbn [parse_elements] in H.
  destruct (cJSON_New_Item hooks) as [it|] eqn:Ei; [|by simplify_eq]. apply new_item_blank in Ei as [Hb Hk].
  inv_done H. apply skip_content in E. destruct a0 as [o b1]. apply Hpv in E0 as [E0 Ht]; [|done|unfold reads in *; cbn in E; congruence].
  destruct o as [x|]; [|simplify_eq; split; [cbn in *; congruence|done]]. destruct (Ht x eq_refl) as [Hx Hkx].
  inv_done H. apply skip_content in E1. assert (named x = false) as Hn by (unfold named; by rewrite Hkx, Hk).
  match goal with H : (if ?m then _ else _) = _ |- _ => destruct m end.
  - apply IH in H as [H Hch]; [|by apply all_typed_snoc|unfold reads in *; cbn in *; congruence]. split; [cbn in *; congruence|done].
  - simplify_eq. split; [cbn in *; congruence|]. intros ch [= <-]. by apply all_typed_snoc.
Qed.

Lemma parse_members_typed fuel : forall head b r b',
  all_typed true head -> reads b -> parse_members hooks pv fuel head b = Done (r, b') ->
  content b' = content b /\ forall ch, r = Some ch -> all_typed true ch.
Proof.
  induction fuel as [|fuel IH]; intros head b r b' Hh Hr H; [done|]. cbn [parse_members] in H.
  destruct (cJSON_New_Item hooks) as [it|] eqn:Ei; [|by simplify_eq]. apply new_item_blank in Ei as [Hb Hk].
  inv_done H. apply skip_content in E. destruct a0 as [o b1]. apply parse_string_typed in E0 as [E0 Ht]; [|done|unfold reads in *; cbn in E; congruence].
  destruct o as [x|]; [|simplify_eq; split; [cbn in *; congruence|done]]. destruct (Ht x eq_refl) as (Hkx & Htx & Hcx & s & Hvx & Hs).
  inv_done H. apply skip_content in E1. destruct a1; cbn [negb] in H; [|simplify_eq; split; [cbn in *; congruence|done]].
  inv_done H. apply skip_content in E3. destruct a2 as [o b2].
  apply Hpv in E4 as [E4 Hy]; [|split_and!; [done|done|by rewrite Hvx]|unfold reads in *; cbn in *; congruence].
  destruct o as [y|]; [|simplify_eq; split; [cbn in *; congruence|done]]. destruct (Hy y eq_refl) as [Hwy Hky]. cbn in Hky.
  inv_done H. apply skip_content in E5. assert (named y = true) as Hn by (unfold named; by rewrite Hky, Hvx).
  match goal with H : (if ?m then _ else _) = _ |- _ => destruct m end.
  - apply IH in H as [H Hch]; [|by apply all_typed_snoc|unfold reads in *; cbn in *; congruence]. split; [cbn in *; congruence|done].
  - simplify_eq. split; [cbn in *; congruence|]. intros ch [= <-]. by apply all_typed_snoc.
Qed.
End Loops.

Lemma bracketed_typed open close checked loop t (has_name : bool) item b r b' :
  (t = if has_name then cJSON_Object else cJSON_Array) ->
  (forall b1 r b2, reads b1 -> loop b1 = Done (r, b2) -> content b2 = content b1 /\ forall ch, r = Some ch -> all_typed has_name ch) ->
  blank N item -> reads b -> parse_bracketed open close checked loop t item b = Done (r, b') ->
  content b' = content b /\ typed_as item r.
Proof.
  intros Ht Hloop (Hv & Hc & Hk) Hr H. unfold parse_bracketed in H. destruct (_ <=? _)%nat; [by simplify_eq|]. inv_done H.
  destruct (negb _); [by simplify_eq|]. inv_done H. apply skip_content in E0.
  assert (forall ch, all_typed has_name ch ->
    typed_as item (Some (mk_cJSON t (valuestring item) (valueint item) (valuedouble item) (key item) ch))) as Hok.
  { intros ch [Hch Hn] j [= <-]. split; [|done]. cbn. rewrite Hv, Hch, !andb_true_r.
    assert ((if t =? cJSON_Object then forallb named ch else if t =? cJSON_Array then forallb (fun c => negb (named c)) ch
      else match ch with [] => true | _ => false end) = true) as Hkids.
    { rewrite Ht. clear -Hn. destruct has_name; cbn; (etransitivity; [|exact Hn]); clear; induction ch as [|c ch IH]; cbn; rewrite ?IH; [done|by destruct (named c)|done|by destruct (named c)]. }
    rewrite Hkids, andb_true_r, Ht. destruct (key item); [rewrite Hk|]; by destruct has_name. }
  match goal with H : (if ?m then _ else _) = _ |- _ => destruct m end.
  - simplify_eq. split; [cbn in *; congruence|]. apply Hok. done.
  - match type of H with (if ?m then _ else _) = _ => destruct m end; [inv_done H; simplify_eq; split; [cbn in *; congruence|done]|].
    inv_done H. match goal with Hl : loop _ = Done ?p |- _ => destruct p as [o b2]; apply Hloop in Hl as [Eb Hch] end;
      [|unfold reads in *; cbn in *; congruence].
    destruct o as [ch|]; [|simplify_eq; split; [cbn in *; congruence|done]]. inv_done H.
    match type of H with (if ?m then _ else _) = _ => destruct m end; simplify_eq; (split; [cbn in *; congruence|]); [|done].
    apply Hok. by apply Hch.
Qed.

Lemma parse_value_typed fuel : forall item b r b',
  blank N item -> reads b -> parse_value hooks fuel item b = Done (r, b') -> content b' = content b /\ typed_as item r.
Proof.
  induction fuel as [|fuel IH]; intros item b r b' Hb Hr H; [done|]. cbn [parse_value] in H.
  destruct (_ && String.prefix "null" _); [simplify_eq; split; [done|by apply leaf_typed]|].
  destruct (_ && String.prefix "false" _); [simplify_eq; split; [done|by apply leaf_typed]|].
  destruct (_ && String.prefix "true" _); [simplify_eq; split; [done|by apply leaf_typed]|].
  destruct (negb _); [by simplify_eq|]. inv_done H.
  destruct (Ascii.eqb _ quote).
  { apply parse_string_typed in H as [Ec Hj]; [|done..]. split; [done|]. intros j Hs. destruct (Hj j Hs) as (Hk & Ht & Hch & Hx).
    split; [by eapply string_typed|done]. }
  destruct (_ || _).
  { unfold parse_number in H. destruct (_ =? _)%nat; simplify_eq; split; try done. by apply leaf_typed. }
  destruct (Ascii.eqb _ "[").
  { eapply (bracketed_typed _ _ _ _ _ false) in H; [done|done| |done|done]. intros b1 r1 b2 Hr1 H1.
    by eapply parse_elements_typed in H1. }
  destruct (Ascii.eqb _ "{"); [|by simplify_eq].
  eapply (bracketed_typed _ _ _ _ _ true) in H; [done|done| |done|done]. intros b1 r1 b2 Hr1 H1.
  by eapply parse_members_typed in H1.
Qed.
End Typed.

Lemma parse_typed hooks s j :
  snowflake_cJSON_Parse hooks (Some s) = Done (Some j) -> well_typed (String.length s + 1) j = true /\ key j = None.
Proof.
  intros H. unfold snowflake_cJSON_Parse in H. inv_done H. destruct a as [r pos]. cbn in H. simplify_eq.
  unfold snowflake_cJSON_ParseWithOpts in E. destruct (cJSON_New_Item hooks) as [it|] eqn:Ei; [|by simplify_eq].
  apply (new_item_blank hooks (String.length s + 1)) in Ei as [Hb Hk].
  destruct (skip_utf8_bom _) as [b1|] eqn:Es; [|by simplify_eq]. inv_done E. apply skip_content in E0.
  assert (content b1 = s +:+ String nul "") as Ec.
  { unfold skip_utf8_bom in Es. cbn [parse_off Nat.eqb] in Es. injection Es as <-. by destruct (_ && _). }
  destruct a0 as [[x|] b3]; [|by simplify_eq]. apply (parse_value_typed hooks (String.length s + 1)) in E1 as [_ Ht]; [|done|].
  - destruct (Ht x eq_refl) as [Hw Hx]. inv_done E. simplify_eq. split; [done|congruence].
  - unfold reads. rewrite E0, Ec, str_length_app. done.
Qed.

(** Every tree the parser returns is well-typed: types, text, children and names
    fit together at every node, and no text is longer than the input. *)
Theorem parse_well_typed hooks s j :
  snowflake_cJSON_Parse hooks (Some s) = Done (Some j) -> well_typed (String.length s + 1) j = true /\ key j = None.
Proof. apply parse_typed. Qed.

Lemma parse_well_typed_witness :
  exists j, snowflake_cJSON_Parse all_hooks (render true 0 print_sample) = Done (Some j) /\ well_typed 63 j = true.
Proof.
  eexists. split; [vm_compute; reflexivity|].
  match goal with |- well_typed _ ?j = _ =>
    refine (proj1 (parse_well_typed all_hooks (default EmptyString (render true 0 print_sample)) j _)) end.
  vm_compute. reflexivity.
Defined.
