(* ===== verification/CHeap.v ===== *)
(** * A heap of C blocks, and specifications of code that runs on it.

    Blocks are structs of a type [N] or NUL-terminated texts; a text that is a string
    literal of the program cannot be freed.  [M A] is code over the heap: it returns a
    value and the new heap, or is undefined (NULL, a freed block, a free of a literal).
    An assertion is the list of the cells a piece of code owns, and [spec P c Q] says
    that [c], run where exactly the cells [P], some read-only cells [ro] and any frame
    are live, returns, leaves the frame alone and ends with cells that satisfy [Q]: no
    cell is leaked and none is freed twice. *)

From S2P Require Import Prelude CLib.

Section Heap.
  Context {N : Type}.

Inductive block : Type :=
| Struct (n : N)
| Text (static : bool) (s : string).

Local Abbreviation heap := (gmap positive block).
Definition M (A : Type) : Type := heap -> outcome (A * heap).

#[export] Instance M_ret : MRet M := fun A a h => Done (a, h).
#[export] Instance M_bind : MBind M := fun A B f c h =>
  match c h with
  | Done (a, h) => f a h
  | Undef => Undef
  | NoFuel => NoFuel
  end.

Definition no_fuel {A} : M A := fun _ => NoFuel.

(** Reading a struct, changing it, reading a text: undefined on NULL and on a block
    that is not live. *)
Definition load (p : option positive) : M N := fun h =>
  match p ≫= (h !!.) with Some (Struct n) => Done (n, h) | _ => Undef end.
Definition modify (p : option positive) (f : N -> N) : M unit := fun h =>
  match p with
  | Some a => match h !! a with Some (Struct n) => Done (tt, <[a := Struct (f n)]> h) | _ => Undef end
  | None => Undef
  end.
Definition text (p : option positive) : M string := fun h =>
  match p ≫= (h !!.) with Some (Text _ s) => Done (s, h) | _ => Undef end.

(** The bytes of a text block that is being filled. *)
Definition fill (p : option positive) (s : string) : M unit := fun h =>
  match p with
  | Some a => match h !! a with Some (Text false _) => Done (tt, <[a := Text false s]> h) | _ => Undef end
  | None => Undef
  end.

(** Code that does not look at the heap. *)
Definition lift {A} (o : outcome A) : M A := fun h =>
  match o with Done a => Done (a, h) | Undef => Undef | NoFuel => NoFuel end.

(** [free]: nothing for NULL, undefined for a literal or a block already freed. *)
Definition freeable (b : block) : bool := match b with Text true _ => false | _ => true end.
Definition dealloc (p : option positive) : M unit := fun h =>
  match p with
  | None => Done (tt, h)
  | Some a =>
      match h !! a with
      | Some b => if freeable b then Done (tt, delete a h) else Undef
      | None => Undef
      end
  end.

(** [malloc h n]: what the allocator answers to a request of [n] bytes. *)
Definition alloc (malloc : heap -> Z -> option positive) (n : Z) (b : block) : M (option positive) :=
  fun h => match malloc h n with Some a => Done (Some a, <[a := b]> h) | None => Done (None, h) end.

(** A loop gets the number of live blocks as its fuel. *)
Definition with_fuel {A} (c : nat -> M A) : M A := fun h => c (S (size h)) h.

(** ** Assertions *)

Definition cells : Type := list (positive * block).

(** The live blocks are exactly the cells of [L]. *)
Definition live (h : heap) (L : cells) : Prop := NoDup L.*1 /\ h = list_to_map L.

#[export] Instance live_proper h : Proper ((≡ₚ) ==> iff) (live h).
Proof.
  assert (forall L L' : cells, L ≡ₚ L' -> live h L -> live h L') as H.
  { intros L L' E [Hn ->]. split; [by rewrite <- E|]. by apply list_to_map_proper. }
  intros L L' E. split; apply H; [done|by symmetry].
Qed.

Lemma live_lookup h L a b : live h L -> (a, b) ∈ L -> h !! a = Some b.
Proof. intros [Hn ->] Hin. by apply elem_of_list_to_map_1. Qed.

Lemma live_size h L : live h L -> size h = length L.
Proof.
  intros [Hn ->]. induction L as [|[a b] L IH]; [apply map_size_empty|].
  apply NoDup_cons in Hn as [Ha Hn]. rewrite list_to_map_cons, map_size_insert_None.
  - by rewrite IH.
  - by apply not_elem_of_list_to_map_1.
Qed.

Lemma live_insert h L a b : live h L -> h !! a = None -> live (<[a := b]> h) ((a, b) :: L).
Proof.
  intros [Hn ->] Ha. split; [|done]. cbn. apply NoDup_cons. split; [|done].
  by apply not_elem_of_list_to_map.
Qed.

Lemma live_update h L a b b' : live h ((a, b) :: L) -> live (<[a := b']> h) ((a, b') :: L).
Proof. intros [Hn ->]. split; [done|]. rewrite !list_to_map_cons. by rewrite insert_insert_eq. Qed.

Lemma live_delete h L a b : live h ((a, b) :: L) -> live (delete a h) L.
Proof.
  intros [Hn ->]. apply NoDup_cons in Hn as [Ha Hn]. split; [done|]. rewrite list_to_map_cons.
  rewrite delete_insert_eq, delete_id; [done|]. by apply not_elem_of_list_to_map_1.
Qed.

Lemma live_same h h' L : live h L -> live h' L -> h = h'.
Proof. by intros [_ ->] [_ ->]. Qed.

(** ** Specifications *)

Section Spec.
  Context (ro : cells).

Definition spec {A} (P : cells) (c : M A) (Q : A -> cells -> Prop) : Prop :=
  forall F h, live h (P ++ ro ++ F) ->
    exists a P' h', c h = Done (a, h') /\ live h' (P' ++ ro ++ F) /\ Q a P'.

Lemma spec_ret {A} P (a : A) (Q : A -> cells -> Prop) : Q a P -> spec P (mret a) Q.
Proof. intros HQ F h Hh. by exists a, P, h. Qed.

Lemma spec_bind {A B} P (c : M A) (k : A -> M B) (Q : A -> cells -> Prop) Q' :
  spec P c Q -> (forall a P', Q a P' -> spec P' (k a) Q') -> spec P (c ≫= k) Q'.
Proof.
  intros Hc Hk F h Hh. destruct (Hc F h Hh) as (a & P' & h' & E & Hh' & Ha).
  unfold mbind, M_bind. rewrite E. by apply (Hk a P' Ha).
Qed.

Lemma spec_perm {A} P P' (c : M A) Q : P ≡ₚ P' -> spec P' c Q -> spec P c Q.
Proof. intros E Hc F h Hh. apply Hc. by rewrite <- E. Qed.

#[export] Instance spec_proper {A} : Proper ((≡ₚ) ==> eq ==> eq ==> iff) (@spec A).
Proof. intros P P' E c _ <- Q _ <-. split; apply spec_perm; [by symmetry|done]. Qed.

Lemma spec_post {A} P (c : M A) (Q Q' : A -> cells -> Prop) :
  spec P c Q -> (forall a P', Q a P' -> Q' a P') -> spec P c Q'.
Proof.
  intros Hc HQ F h Hh. destruct (Hc F h Hh) as (a & P' & h' & ? & ? & ?).
  exists a, P', h'. auto.
Qed.

Lemma spec_frame {A} P R (c : M A) Q :
  spec P c Q -> spec (P ++ R) c (fun a P' => exists P0, P' = P0 ++ R /\ Q a P0).
Proof.
  intros Hc F h Hh. destruct (Hc (R ++ F) h) as (a & P' & h' & ? & Hh' & ?).
  { assert ((P ++ R) ++ ro ++ F ≡ₚ P ++ ro ++ R ++ F) as E by solve_Permutation. by rewrite <- E. }
  exists a, (P' ++ R), h'. split_and!; [done| |by exists P'].
  assert ((P' ++ R) ++ ro ++ F ≡ₚ P' ++ ro ++ R ++ F) as E by solve_Permutation. by rewrite E.
Qed.

(** A call on part of the cells. *)
Lemma spec_call {A B} P P0 R (c : M A) (k : A -> M B) (Q0 : A -> cells -> Prop) Q :
  spec P0 c Q0 -> P ≡ₚ P0 ++ R -> (forall a P', Q0 a P' -> spec (P' ++ R) (k a) Q) ->
  spec P (c ≫= k) Q.
Proof.
  intros Hc E Hk. apply (spec_perm _ _ _ _ E). eapply spec_bind; [by apply spec_frame|].
  intros a P' (P1 & -> & Ha). by apply Hk.
Qed.

(** A call that takes none of the cells. *)
Lemma spec_new {A B} P (c : M A) (k : A -> M B) (Q0 : A -> cells -> Prop) Q :
  spec [] c Q0 -> (forall a P', Q0 a P' -> spec (P' ++ P) (k a) Q) -> spec P (c ≫= k) Q.
Proof. intros Hc. by apply (spec_call P [] P). Qed.

Lemma spec_nodup {A} P (c : M A) Q : (NoDup (P.*1 ++ ro.*1) -> spec P c Q) -> spec P c Q.
Proof.
  intros H F h Hh. apply H; [|done]. destruct Hh as [Hn _]. rewrite !fmap_app in Hn.
  rewrite app_assoc in Hn. by apply NoDup_app in Hn as [? _].
Qed.

Lemma spec_fuel {A} P (c : nat -> M A) Q :
  (forall n, (length P < n)%nat -> spec P (c n) Q) -> spec P (with_fuel c) Q.
Proof.
  intros H F h Hh. unfold with_fuel. apply (H (S (size h))); [|done].
  rewrite (live_size _ _ Hh), length_app. lia.
Qed.

Lemma spec_fuel_bind {A B} P (c : nat -> M A) (k : A -> M B) Q :
  (forall n, (length P < n)%nat -> spec P (c n ≫= k) Q) -> spec P (with_fuel c ≫= k) Q.
Proof. exact (spec_fuel P (fun n => c n ≫= k) Q). Qed.

(** Two blocks in sight at one address are the same block. *)
Lemma spec_agree {A} P (c : M A) Q a b b' :
  (a, b) ∈ P ++ ro -> (a, b') ∈ P ++ ro -> (b = b' -> spec P c Q) -> spec P c Q.
Proof.
  intros H1 H2 H F h Hh. apply H; [|done].
  assert (forall b0, (a, b0) ∈ P ++ ro -> h !! a = Some b0) as Hl.
  { intros b0 Hin. apply (live_lookup _ _ _ _ Hh). rewrite app_assoc. apply elem_of_app. by left. }
  apply Hl in H1, H2. congruence.
Qed.

Lemma spec_load {B} P a n (k : N -> M B) Q :
  (a, Struct n) ∈ P -> spec P (k n) Q -> spec P (load (Some a) ≫= k) Q.
Proof.
  intros Hin Hk F h Hh. unfold mbind, M_bind, load. cbn.
  rewrite (live_lookup _ _ _ _ Hh) by (apply elem_of_app; by left). by apply Hk.
Qed.

Lemma spec_text {B} P a st s (k : string -> M B) Q :
  (a, Text st s) ∈ P ++ ro -> spec P (k s) Q -> spec P (text (Some a) ≫= k) Q.
Proof.
  intros Hin Hk F h Hh. unfold mbind, M_bind, text. cbn.
  rewrite (live_lookup h (P ++ ro ++ F) a (Text st s)); [by apply Hk|done|].
  rewrite app_assoc. apply elem_of_app. by left.
Qed.

Lemma spec_modify {B} P R a n f (k : unit -> M B) Q :
  P ≡ₚ (a, Struct n) :: R -> spec ((a, Struct (f n)) :: R) (k tt) Q ->
  spec P (modify (Some a) f ≫= k) Q.
Proof.
  intros E Hk. apply (spec_perm _ _ _ _ E). intros F h Hh. unfold mbind, M_bind, modify. cbn in *.
  rewrite (live_lookup _ _ _ _ Hh) by left. apply Hk. by eapply live_update in Hh.
Qed.

Lemma spec_fill {B} P R a s0 s (k : unit -> M B) Q :
  P ≡ₚ (a, Text false s0) :: R -> spec ((a, Text false s) :: R) (k tt) Q ->
  spec P (fill (Some a) s ≫= k) Q.
Proof.
  intros E Hk. apply (spec_perm _ _ _ _ E). intros F h Hh. unfold mbind, M_bind, fill. cbn in *.
  rewrite (live_lookup _ _ _ _ Hh) by left. apply Hk. by eapply live_update in Hh.
Qed.

Lemma spec_lift {A B} P (o : outcome A) a (k : A -> M B) Q :
  o = Done a -> spec P (k a) Q -> spec P (lift o ≫= k) Q.
Proof. intros -> Hk F h Hh. apply (Hk F h Hh). Qed.

Lemma spec_dealloc {B} P R a b (k : unit -> M B) Q :
  P ≡ₚ (a, b) :: R -> freeable b = true -> spec R (k tt) Q -> spec P (dealloc (Some a) ≫= k) Q.
Proof.
  intros E Hb Hk. apply (spec_perm _ _ _ _ E). intros F h Hh. unfold mbind, M_bind, dealloc. cbn in *.
  rewrite (live_lookup _ _ _ _ Hh) by left. rewrite Hb. apply Hk. by apply live_delete in Hh.
Qed.

Lemma spec_alloc {B} malloc (served : bool) P n b (k : option positive -> M B) Q :
  (forall h, if served then exists a, malloc h n = Some a /\ h !! a = None else malloc h n = None) ->
  (if served then forall a, spec ((a, b) :: P) (k (Some a)) Q else spec P (k None) Q) ->
  spec P (alloc malloc n b ≫= k) Q.
Proof.
  intros Hm Hk F h Hh. unfold mbind, M_bind, alloc. specialize (Hm h). destruct served.
  - destruct Hm as (a & -> & Ha). apply (Hk a). by apply (live_insert _ _ a b) in Hh.
  - rewrite Hm. by apply Hk.
Qed.

(** A specification read on a whole heap: nothing else is live before or after. *)
Lemma spec_run {A} P (c : M A) Q h :
  spec P c Q -> live h (P ++ ro) -> exists a P' h', c h = Done (a, h') /\ live h' (P' ++ ro) /\ Q a P'.
Proof.
  intros Hc Hh. destruct (Hc [] h) as (a & P' & h' & ? & Hh' & ?); [by rewrite app_nil_r|].
  rewrite app_nil_r in Hh'. by exists a, P', h'.
Qed.
End Spec.
End Heap.

Arguments block : clear implicits.
Arguments cells : clear implicits.
Arguments M : clear implicits.
Abbreviation heap N := (gmap positive (block N)).

(** Code whose binds are nested to the left. *)
Lemma spec_assoc {N A B C} ro P (c : M N A) (k : A -> M N B) (k' : B -> M N C) Q :
  spec ro P (c ≫= fun a => k a ≫= k') Q -> spec ro P ((c ≫= k) ≫= k') Q.
Proof.
  intros H F h Hh. destruct (H F h Hh) as (a & P' & h' & E & Hh' & HQ). exists a, P', h'. split; [|done].
  revert E. unfold mbind, M_bind. by destruct (c h) as [[? ?]| |].
Qed.

(** A call in tail position. *)
Lemma spec_tail {N A} ro P (c : M N A) Q : spec ro P (c ≫= mret) Q -> spec ro P c Q.
Proof.
  intros H F h Hh. destruct (H F h Hh) as (a & P' & h' & E & Hh' & HQ). exists a, P', h'. split; [|done].
  revert E. unfold mbind, M_bind, mret, M_ret. by destruct (c h) as [[? ?]| |].
Qed.

Lemma spec_ret_bind {N A B} ro P (a : A) (k : A -> M N B) Q :
  spec ro P (k a) Q -> spec ro P (mret a ≫= k) Q.
Proof. intros H F h Hh. apply (H F h Hh). Qed.
