(* ===== verification/CJsonHeap.v ===== *)
(** * lib/cJSON.c over a heap: links, references, who frees what.

    CJson models a node as a value with its children inside; here a node is the C
    struct, with its [next], [prev] and [child] pointers and the pointers to its texts,
    in a heap of blocks, and every function is the pointer code.  [layout] describes a
    tree in the heap node by node, a reference ([cJSON_IsReference]) as a leaf that
    owns neither text nor children; [own] lists the cells such a tree owns.  Every
    editor, [Delete], [Duplicate] and the constructors are specified over exactly the
    cells of their arguments: they do what CJson says, leak nothing and free nothing
    twice, whatever the outcome of their allocations. *)

From S2P Require Import Prelude CLib CFloat CJson CHeap.

Record node := mk_node {
  next : option positive;
  prev : option positive;
  first : option positive;      (* the C field [child] *)
  ntype : Z;
  vstring : option positive;
  vint : Z;
  vdouble : double;
  name : option positive        (* the C field [string] *)
}.

Definition set_next (p : option positive) (n : node) : node :=
  mk_node p (prev n) (first n) (ntype n) (vstring n) (vint n) (vdouble n) (name n).
Definition set_prev (p : option positive) (n : node) : node :=
  mk_node (next n) p (first n) (ntype n) (vstring n) (vint n) (vdouble n) (name n).
Definition set_first (p : option positive) (n : node) : node :=
  mk_node (next n) (prev n) p (ntype n) (vstring n) (vint n) (vdouble n) (name n).
Definition set_ntype (t : Z) (n : node) : node :=
  mk_node (next n) (prev n) (first n) t (vstring n) (vint n) (vdouble n) (name n).
Definition set_vstring (p : option positive) (n : node) : node :=
  mk_node (next n) (prev n) (first n) (ntype n) p (vint n) (vdouble n) (name n).
Definition set_number (i : Z) (d : double) (n : node) : node :=
  mk_node (next n) (prev n) (first n) (ntype n) (vstring n) i d (name n).
Definition set_name (p : option positive) (n : node) : node :=
  mk_node (next n) (prev n) (first n) (ntype n) (vstring n) (vint n) (vdouble n) p.

Definition is_ref (t : Z) : bool := negb (Z.land t cJSON_IsReference =? 0).
Definition is_const (t : Z) : bool := negb (Z.land t cJSON_StringIsConst =? 0).
Definition not_null (p : option positive) : bool := match p with Some _ => true | None => false end.
Definition same_ptr (p q : option positive) : bool := bool_decide (p = q).

Abbreviation C := (M node).
Abbreviation ptr := (option positive).

Section Code.
  Context (malloc : heap node -> Z -> ptr).

(** ** Allocation and deletion *)

Definition cJSON_strdup (string : ptr) : C ptr :=
  match string with
  | None => mret None
  | Some _ => s ← text string; alloc malloc (strlen s + 1) (Text false s)
  end.

Definition zero_node : node := mk_node None None None 0 None 0 zero_double None.
Definition cJSON_New_Item : C ptr := alloc malloc sizeof_cJSON (Struct zero_node).

(** The walk along [next], the recursion on [child]; each field is read when the code
    reads it. *)
Fixpoint delete_loop (fuel : nat) (item : ptr) : C unit :=
  match item with
  | None => mret tt
  | Some _ =>
      match fuel with
      | O => no_fuel
      | S fuel =>
          n ← load item;
          let nx := next n in
          _ ← (if negb (is_ref (ntype n)) && not_null (first n) then delete_loop fuel (first n)
               else mret tt);
          n ← load item;
          _ ← (if negb (is_ref (ntype n)) && not_null (vstring n) then dealloc (vstring n) else mret tt);
          n ← load item;
          _ ← (if negb (is_const (ntype n)) && not_null (name n) then dealloc (name n) else mret tt);
          _ ← dealloc item;
          delete_loop fuel nx
      end
  end.
Definition snowflake_cJSON_Delete (item : ptr) : C unit := with_fuel (fun fuel => delete_loop fuel item).

(** ** Access *)

Fixpoint count_loop (fuel : nat) (child : ptr) : C Z :=
  match child with
  | None => mret 0
  | Some _ =>
      match fuel with
      | O => no_fuel
      | S fuel => n ← load child; size ← count_loop fuel (next n); mret (size + 1)
      end
  end.
Definition snowflake_cJSON_GetArraySize (array : ptr) : C Z :=
  match array with
  | None => mret 0
  | Some _ => a ← load array; size ← with_fuel (fun fuel => count_loop fuel (first a)); mret (i32 size)
  end.

Fixpoint index_loop (fuel : nat) (current_child : ptr) (index : Z) : C ptr :=
  if not_null current_child && (index >? 0) then
    match fuel with
    | O => no_fuel
    | S fuel => n ← load current_child; index_loop fuel (next n) (index - 1)
    end
  else mret current_child.
Definition get_array_item (array : ptr) (index : Z) : C ptr :=
  match array with
  | None => mret None
  | Some _ => a ← load array; with_fuel (fun fuel => index_loop fuel (first a) index)
  end.
Definition snowflake_cJSON_GetArrayItem (array : ptr) (index : Z) : C ptr :=
  if index <? 0 then mret None else get_array_item array index.

Definition strcmp_hit (a b : ptr) : C bool := x ← text a; y ← text b; mret (String.eqb x y).
Definition case_insensitive_hit (string1 string2 : ptr) : C bool :=
  match string1, string2 with
  | Some _, Some _ =>
      if same_ptr string1 string2 then mret true
      else x ← text string1; y ← text string2; mret (case_cmp x y =? 0)
  | _, _ => mret false
  end.

Fixpoint name_loop (fuel : nat) (current_element string : ptr) (case_sensitive : bool) : C ptr :=
  match current_element with
  | None => mret None
  | Some _ =>
      match fuel with
      | O => no_fuel
      | S fuel =>
          n ← load current_element;
          hit ← (if case_sensitive then strcmp_hit string (name n)
                 else case_insensitive_hit string (name n));
          if hit : bool then mret current_element
          else name_loop fuel (next n) string case_sensitive
      end
  end.
Definition get_object_item (object string : ptr) (case_sensitive : bool) : C ptr :=
  match object, string with
  | Some _, Some _ =>
      o ← load object; with_fuel (fun fuel => name_loop fuel (first o) string case_sensitive)
  | _, _ => mret None
  end.
Definition snowflake_cJSON_GetObjectItem (object string : ptr) : C ptr :=
  get_object_item object string false.
Definition snowflake_cJSON_GetObjectItemCaseSensitive (object string : ptr) : C ptr :=
  get_object_item object string true.

(** ** Linking *)

Definition suffix_object (prv item : ptr) : C unit :=
  _ ← modify prv (set_next item); modify item (set_prev prv).

(** [memcpy] of the whole struct, then the fields that are not shared. *)
Definition create_reference (item : ptr) : C ptr :=
  match item with
  | None => mret None
  | Some _ =>
      reference ← cJSON_New_Item;
      match reference with
      | None => mret None
      | Some _ =>
          n ← load item;
          _ ← modify reference (fun _ => n);
          _ ← modify reference (set_name None);
          _ ← modify reference (fun r => set_ntype (Z.lor (ntype r) cJSON_IsReference) r);
          _ ← modify reference (fun r => set_next None (set_prev None r));
          mret reference
      end
  end.

Fixpoint last_loop (fuel : nat) (child : ptr) : C ptr :=
  n ← load child;
  match next n with
  | None => mret child
  | Some _ => match fuel with O => no_fuel | S fuel => last_loop fuel (next n) end
  end.

Definition snowflake_cJSON_AddItemToArray (array item : ptr) : C unit :=
  match item, array with
  | Some _, Some _ =>
      a ← load array;
      match first a with
      | None => modify array (set_first item)
      | Some _ => child ← with_fuel (fun fuel => last_loop fuel (first a)); suffix_object child item
      end
  | _, _ => mret tt
  end.

Definition snowflake_cJSON_AddItemToObjectCS (object string item : ptr) : C unit :=
  match item, string with
  | Some _, Some _ =>
      n ← load item;
      _ ← (if negb (is_const (ntype n)) && not_null (name n) then dealloc (name n) else mret tt);
      _ ← modify item (set_name string);
      _ ← modify item (fun n => set_ntype (Z.lor (ntype n) cJSON_StringIsConst) n);
      snowflake_cJSON_AddItemToArray object item
  | _, _ => mret tt
  end.

Definition snowflake_cJSON_AddItemToObject (object string item : ptr) : C unit :=
  match item with
  | None => mret tt
  | Some _ =>
      copy ← cJSON_strdup string;
      _ ← snowflake_cJSON_AddItemToObjectCS object copy item;
      modify item (fun n => set_ntype (clear_flag cJSON_StringIsConst (ntype n)) n)
  end.

Definition snowflake_cJSON_AddItemReferenceToArray (array item : ptr) : C unit :=
  match array with
  | None => mret tt
  | Some _ => reference ← create_reference item; snowflake_cJSON_AddItemToArray array reference
  end.
Definition snowflake_cJSON_AddItemReferenceToObject (object string item : ptr) : C unit :=
  match object, string with
  | Some _, Some _ =>
      reference ← create_reference item; snowflake_cJSON_AddItemToObject object string reference
  | _, _ => mret tt
  end.

(** ** Unlinking, inserting, replacing *)

Definition snowflake_cJSON_DetachItemViaPointer (parent item : ptr) : C ptr :=
  match parent, item with
  | Some _, Some _ =>
      n ← load item;
      _ ← (if not_null (prev n) then modify (prev n) (set_next (next n)) else mret tt);
      n ← load item;
      _ ← (if not_null (next n) then modify (next n) (set_prev (prev n)) else mret tt);
      p ← load parent;
      _ ← (if same_ptr item (first p) then n ← load item; modify parent (set_first (next n))
           else mret tt);
      _ ← modify item (set_prev None);
      _ ← modify item (set_next None);
      mret item
  | _, _ => mret None
  end.
Definition snowflake_cJSON_DetachItemFromArray (array : ptr) (which : Z) : C ptr :=
  if which <? 0 then mret None
  else item ← get_array_item array which; snowflake_cJSON_DetachItemViaPointer array item.
Definition snowflake_cJSON_DeleteItemFromArray (array : ptr) (which : Z) : C unit :=
  item ← snowflake_cJSON_DetachItemFromArray array which; snowflake_cJSON_Delete item.
Definition snowflake_cJSON_DetachItemFromObject (object string : ptr) : C ptr :=
  to_detach ← snowflake_cJSON_GetObjectItem object string;
  snowflake_cJSON_DetachItemViaPointer object to_detach.
Definition snowflake_cJSON_DetachItemFromObjectCaseSensitive (object string : ptr) : C ptr :=
  to_detach ← snowflake_cJSON_GetObjectItemCaseSensitive object string;
  snowflake_cJSON_DetachItemViaPointer object to_detach.
Definition snowflake_cJSON_DeleteItemFromObject (object string : ptr) : C unit :=
  item ← snowflake_cJSON_DetachItemFromObject object string; snowflake_cJSON_Delete item.
Definition snowflake_cJSON_DeleteItemFromObjectCaseSensitive (object string : ptr) : C unit :=
  item ← snowflake_cJSON_DetachItemFromObjectCaseSensitive object string; snowflake_cJSON_Delete item.

Definition snowflake_cJSON_InsertItemInArray (array : ptr) (which : Z) (newitem : ptr) : C unit :=
  if which <? 0 then mret tt
  else
    after_inserted ← get_array_item array which;
    match after_inserted with
    | None => snowflake_cJSON_AddItemToArray array newitem
    | Some _ =>
        _ ← modify newitem (set_next after_inserted);
        n ← load after_inserted;
        _ ← modify newitem (set_prev (prev n));
        _ ← modify after_inserted (set_prev newitem);
        a ← load array;
        if same_ptr after_inserted (first a) then modify array (set_first newitem)
        else n ← load newitem; modify (prev n) (set_next newitem)
    end.

Definition snowflake_cJSON_ReplaceItemViaPointer (parent item replacement : ptr) : C bool :=
  match parent, replacement, item with
  | Some _, Some _, Some _ =>
      if same_ptr replacement item then mret true
      else
        n ← load item;
        _ ← modify replacement (set_next (next n));
        n ← load item;
        _ ← modify replacement (set_prev (prev n));
        r ← load replacement;
        _ ← (if not_null (next r) then modify (next r) (set_prev replacement) else mret tt);
        r ← load replacement;
        _ ← (if not_null (prev r) then modify (prev r) (set_next replacement) else mret tt);
        p ← load parent;
        _ ← (if same_ptr (first p) item then modify parent (set_first replacement) else mret tt);
        _ ← modify item (set_next None);
        _ ← modify item (set_prev None);
        _ ← snowflake_cJSON_Delete item;
        mret true
  | _, _, _ => mret false
  end.
Definition snowflake_cJSON_ReplaceItemInArray (array : ptr) (which : Z) (newitem : ptr) : C unit :=
  if which <? 0 then mret tt
  else
    item ← get_array_item array which;
    _ ← snowflake_cJSON_ReplaceItemViaPointer array item newitem;
    mret tt.
Definition replace_item_in_object (object string replacement : ptr) (case_sensitive : bool) : C bool :=
  match replacement, string with
  | Some _, Some _ =>
      r ← load replacement;
      _ ← (if negb (is_const (ntype r)) && not_null (name r) then dealloc (name r) else mret tt);
      copy ← cJSON_strdup string;
      _ ← modify replacement (set_name copy);
      _ ← modify replacement (fun r => set_ntype (clear_flag cJSON_StringIsConst (ntype r)) r);
      item ← get_object_item object string case_sensitive;
      _ ← snowflake_cJSON_ReplaceItemViaPointer object item replacement;
      mret true
  | _, _ => mret false
  end.
Definition snowflake_cJSON_ReplaceItemInObject (object string newitem : ptr) : C unit :=
  _ ← replace_item_in_object object string newitem false; mret tt.
Definition snowflake_cJSON_ReplaceItemInObjectCaseSensitive (object string newitem : ptr) : C unit :=
  _ ← replace_item_in_object object string newitem true; mret tt.

(** ** Constructors *)

Definition create_of_type (t : Z) : C ptr :=
  item ← cJSON_New_Item;
  match item with
  | None => mret None
  | Some _ => _ ← modify item (set_ntype t); mret item
  end.
Definition snowflake_cJSON_CreateNull := create_of_type cJSON_NULL.
Definition snowflake_cJSON_CreateTrue := create_of_type cJSON_True.
Definition snowflake_cJSON_CreateFalse := create_of_type cJSON_False.
Definition snowflake_cJSON_CreateBool (b : bool) := create_of_type (if b then cJSON_True else cJSON_False).
Definition snowflake_cJSON_CreateArray := create_of_type cJSON_Array.
Definition snowflake_cJSON_CreateObject := create_of_type cJSON_Object.

Definition snowflake_cJSON_CreateNumber (num : double) : C ptr :=
  item ← cJSON_New_Item;
  match item with
  | None => mret None
  | Some _ =>
      _ ← modify item (set_ntype cJSON_Number);
      _ ← modify item (set_number (saturate_int num) num);
      mret item
  end.

(** Strings and raw texts: a failed copy deletes the new item. *)
Definition create_string_of_type (t : Z) (string : ptr) : C ptr :=
  item ← cJSON_New_Item;
  match item with
  | None => mret None
  | Some _ =>
      _ ← modify item (set_ntype t);
      copy ← cJSON_strdup string;
      _ ← modify item (set_vstring copy);
      n ← load item;
      if not_null (vstring n) then mret item
      else _ ← snowflake_cJSON_Delete item; mret None
  end.
Definition snowflake_cJSON_CreateString := create_string_of_type cJSON_String.
Definition snowflake_cJSON_CreateRaw := create_string_of_type cJSON_Raw.

Section CreateArray.
  Context {X : Type} (create : X -> C ptr).

(** [for (i = 0; a && (i < count); i++)] with [p] the last item linked; a failed
    element deletes the array and what it holds. *)
Fixpoint create_loop (xs : list X) (count : nat) (i : nat) (a p : ptr) : C ptr :=
  match count with
  | O => mret a
  | S count =>
      match xs with
      | [] => fun _ => Undef
      | x :: xs =>
          n ← create x;
          if negb (not_null n) then _ ← snowflake_cJSON_Delete a; mret None
          else
            _ ← (if Nat.eqb i 0 then modify a (set_first n) else suffix_object p n);
            create_loop xs count (S i) a n
      end
  end.
Definition create_array_of (numbers : option (list X)) (count : Z) : C ptr :=
  match numbers with
  | None => mret None
  | Some xs =>
      if count <? 0 then mret None
      else
        a ← snowflake_cJSON_CreateArray;
        if not_null a then create_loop xs (Z.to_nat count) 0 a None else mret None
  end.
End CreateArray.
Definition snowflake_cJSON_CreateIntArray := create_array_of (fun z => snowflake_cJSON_CreateNumber (double_of_Z z)).
Definition snowflake_cJSON_CreateDoubleArray := create_array_of snowflake_cJSON_CreateNumber.
Definition snowflake_cJSON_CreateStringArray := create_array_of snowflake_cJSON_CreateString.

(** ** Duplication *)

(** The copy of one struct, before its children: NULL once a copy has failed, with the
    new item deleted. *)
Definition duplicate_node (item : ptr) : C ptr :=
  newitem ← cJSON_New_Item;
  match newitem with
  | None => mret None
  | Some _ =>
      let fail : C ptr := _ ← snowflake_cJSON_Delete newitem; mret None in
      n ← load item;
      _ ← modify newitem (set_ntype (clear_flag cJSON_IsReference (ntype n)));
      _ ← modify newitem (set_number (vint n) (vdouble n));
      vs ← (if not_null (vstring n) then cJSON_strdup (vstring n) else mret None);
      _ ← modify newitem (set_vstring vs);
      if not_null (vstring n) && negb (not_null vs) then fail
      else
        k ← (if not_null (name n) then
               if is_const (ntype n) then mret (name n) else cJSON_strdup (name n)
             else mret None);
        _ ← modify newitem (set_name k);
        if not_null (name n) && negb (not_null k) then fail else mret newitem
  end.

Section DuplicateChildren.
  Context (duplicate : ptr -> C ptr).

(** The walk over the children of the original, [last] being the last copy. *)
Fixpoint duplicate_children (fuel : nat) (newitem child last : ptr) : C ptr :=
  match child with
  | None => mret newitem
  | Some _ =>
      match fuel with
      | O => no_fuel
      | S fuel =>
          newchild ← duplicate child;
          if negb (not_null newchild) then _ ← snowflake_cJSON_Delete newitem; mret None
          else
            _ ← (if not_null last then suffix_object last newchild else modify newitem (set_first newchild));
            n ← load child;
            duplicate_children fuel newitem (next n) newchild
      end
  end.
End DuplicateChildren.

Fixpoint duplicate_loop (fuel : nat) (item : ptr) (recurse : bool) : C ptr :=
  match fuel with
  | O => no_fuel
  | S fuel =>
      match item with
      | None => mret None
      | Some _ =>
          newitem ← duplicate_node item;
          if negb (not_null newitem) then mret None
          else if negb recurse then mret newitem
          else
            n ← load item;
            duplicate_children (fun c => duplicate_loop fuel c true) fuel newitem (first n) None
      end
  end.
Definition snowflake_cJSON_Duplicate (item : ptr) (recurse : bool) : C ptr :=
  with_fuel (fun fuel => duplicate_loop (S fuel) item recurse).
End Code.

(** ** Trees in the heap *)

(** A tree node by node: [Own] with its address, its texts with theirs and its
    children; [Ref] is a reference, whose text and children belong to another item. *)
Inductive layout : Type :=
| Own (a : positive) (t : Z) (vs : option (positive * string)) (vi : Z) (vd : double)
    (k : option (positive * string)) (ch : list layout)
| Ref (a : positive) (t : Z) (vs : ptr) (vi : Z) (vd : double) (k : option (positive * string))
    (c : ptr).

Definition addr (l : layout) : positive := match l with Own a _ _ _ _ _ _ | Ref a _ _ _ _ _ _ => a end.
Definition ltype (l : layout) : Z := match l with Own _ t _ _ _ _ _ | Ref _ t _ _ _ _ _ => t end.
Definition lkey (l : layout) : option (positive * string) :=
  match l with Own _ _ _ _ _ k _ | Ref _ _ _ _ _ k _ => k end.
Definition lchildren (l : layout) : list layout :=
  match l with Own _ _ _ _ _ _ ch => ch | Ref _ _ _ _ _ _ _ => [] end.
Definition owning (l : layout) : bool := match l with Own _ _ _ _ _ _ _ => true | _ => false end.
Definition set_lkey (t : Z) (k : option (positive * string)) (l : layout) : layout :=
  match l with
  | Own a _ vs vi vd _ ch => Own a t vs vi vd k ch
  | Ref a _ vs vi vd _ c => Ref a t vs vi vd k c
  end.
Definition set_lchildren (ch : list layout) (l : layout) : layout :=
  match l with Own a t vs vi vd k _ => Own a t vs vi vd k ch | _ => l end.

(** The links of a sibling list between a last [prev] and a first [next] pointer. *)
Definition first_or (nx : ptr) (ls : list layout) : ptr :=
  match ls with [] => nx | c :: _ => Some (addr c) end.
Fixpoint last_or (pv : ptr) (ls : list layout) : ptr :=
  match ls with [] => pv | c :: ls => last_or (Some (addr c)) ls end.

Definition root (pv nx : ptr) (l : layout) : node :=
  match l with
  | Own _ t vs vi vd k ch => mk_node nx pv (first_or None ch) t (fst <$> vs) vi vd (fst <$> k)
  | Ref _ t vs vi vd k c => mk_node nx pv c t vs vi vd (fst <$> k)
  end.

Definition text_cells (vs : option (positive * string)) : cells node :=
  match vs with Some (a, s) => [(a, Text false s)] | None => [] end.
Definition key_cells (t : Z) (k : option (positive * string)) : cells node :=
  if is_const t then [] else text_cells k.

Section Siblings.
  Context (body : layout -> cells node).
Fixpoint siblings (pv : ptr) (ls : list layout) (nx : ptr) : cells node :=
  match ls with
  | [] => []
  | c :: ls => (addr c, Struct (root pv (first_or nx ls) c)) :: body c ++ siblings (Some (addr c)) ls nx
  end.
End Siblings.

(** What a tree owns besides its root struct, which alone knows the siblings. *)
Fixpoint body (l : layout) : cells node :=
  match l with
  | Own _ t vs _ _ k ch => text_cells vs ++ key_cells t k ++ siblings body None ch None
  | Ref _ t _ _ _ k _ => key_cells t k
  end.
Abbreviation seg := (siblings body).
Definition own (pv nx : ptr) (l : layout) : cells node := (addr l, Struct (root pv nx l)) :: body l.

(** The value a layout stands for; a reference shows neither text nor children. *)
Fixpoint erase (l : layout) : cJSON :=
  match l with
  | Own _ t vs vi vd k ch => mk_cJSON t (snd <$> vs) vi vd (snd <$> k) (map erase ch)
  | Ref _ t _ vi vd k _ => mk_cJSON t None vi vd (snd <$> k) []
  end.

(** The flag bits tell references apart, and a constant key is a literal of [ro]. *)
Definition const_ok (ro : cells node) (t : Z) (k : option (positive * string)) : Prop :=
  is_const t = true -> forall a s, k = Some (a, s) -> (a, Text true s) ∈ ro.
Fixpoint ok (ro : cells node) (l : layout) : Prop :=
  match l with
  | Own _ t _ _ _ k ch => is_ref t = false /\ const_ok ro t k /\ foldr (fun c => and (ok ro c)) True ch
  | Ref _ t _ _ _ k _ => is_ref t = true /\ const_ok ro t k
  end.

Fixpoint size_of (l : layout) : nat :=
  match l with
  | Own _ _ _ _ _ _ ch => S (list_sum (map size_of ch))
  | Ref _ _ _ _ _ _ _ => 1
  end.
Abbreviation sizes ls := (list_sum (map size_of ls)).

Lemma layout_ind' (P : layout -> Prop) :
  (forall a t vs vi vd k ch, Forall P ch -> P (Own a t vs vi vd k ch)) ->
  (forall a t vs vi vd k c, P (Ref a t vs vi vd k c)) -> forall l, P l.
Proof.
  intros HO HR. fix IH 1. intros [a t vs vi vd k ch|a t vs vi vd k c]; [|apply HR].
  apply HO. induction ch as [|c ch IHch]; constructor; [apply IH|exact IHch].
Qed.

(** ** Sibling lists *)

Lemma first_or_app nx l1 l2 : first_or nx (l1 ++ l2) = first_or (first_or nx l2) l1.
Proof. by destruct l1. Qed.
Lemma last_or_app pv l1 l2 : last_or pv (l1 ++ l2) = last_or (last_or pv l1) l2.
Proof. revert pv. induction l1 as [|c l1 IH]; intros pv; cbn; [done|apply IH]. Qed.

Lemma seg_app pv l1 l2 nx :
  seg pv (l1 ++ l2) nx = seg pv l1 (first_or nx l2) ++ seg (last_or pv l1) l2 nx.
Proof.
  revert pv. induction l1 as [|c l1 IH]; intros pv; cbn; [done|].
  rewrite IH, first_or_app, <- app_assoc. done.
Qed.

Lemma seg_cons pv c ls nx : seg pv (c :: ls) nx = own pv (first_or nx ls) c ++ seg (Some (addr c)) ls nx.
Proof. done. Qed.
Lemma seg_one pv c nx : seg pv [c] nx = own pv nx c.
Proof. cbn. by rewrite app_nil_r. Qed.

Lemma own_Own pv nx a t vs vi vd k ch :
  own pv nx (Own a t vs vi vd k ch) =
    (a, Struct (mk_node nx pv (first_or None ch) t (fst <$> vs) vi vd (fst <$> k))) ::
    text_cells vs ++ key_cells t k ++ seg None ch None.
Proof. done. Qed.

Lemma sizes_app l1 l2 : sizes (l1 ++ l2) = (sizes l1 + sizes l2)%nat.
Proof. by rewrite map_app, list_sum_app. Qed.

(** Every node takes a cell, so the number of live blocks bounds every walk. *)
Lemma sizes_seg_of pv ls nx :
  Forall (fun l => (size_of l <= S (length (body l)))%nat) ls -> (sizes ls <= length (seg pv ls nx))%nat.
Proof.
  intros H. revert pv. induction H as [|c ls Hc _ IH]; intros pv; [done|].
  rewrite seg_cons. unfold own. rewrite length_app. specialize (IH (Some (addr c))). simpl in *. lia.
Qed.
Lemma size_body l : (size_of l <= S (length (body l)))%nat.
Proof.
  induction l as [a t vs vi vd k ch IH|a t vs vi vd k c] using layout_ind'; [|simpl; lia].
  apply (sizes_seg_of None _ None) in IH. cbn [size_of body]. rewrite !length_app. lia.
Qed.
Lemma sizes_seg pv ls nx : (sizes ls <= length (seg pv ls nx))%nat.
Proof. apply sizes_seg_of, Forall_true, size_body. Qed.
Lemma length_sizes ls : (length ls <= sizes ls)%nat.
Proof. induction ls as [|[] ls IH]; simpl in *; lia. Qed.

Lemma ok_children ro ch : foldr (fun c => and (ok ro c)) True ch <-> Forall (ok ro) ch.
Proof. induction ch as [|c ch IH]; cbn; [by split; [constructor|]|]. by rewrite IH, Forall_cons. Qed.

Lemma root_next pv nx l : next (root pv nx l) = nx.
Proof. by destruct l. Qed.
Lemma root_prev pv nx l : prev (root pv nx l) = pv.
Proof. by destruct l. Qed.
Lemma root_type pv nx l : ntype (root pv nx l) = ltype l.
Proof. by destruct l. Qed.
Lemma root_name pv nx l : name (root pv nx l) = fst <$> lkey l.
Proof. by destruct l. Qed.
Lemma set_next_root pv nx q l : set_next q (root pv nx l) = root pv q l.
Proof. by destruct l. Qed.
Lemma set_prev_root pv nx q l : set_prev q (root pv nx l) = root q nx l.
Proof. by destruct l. Qed.
Lemma addr_set_lkey t k l : addr (set_lkey t k l) = addr l.
Proof. by destruct l. Qed.
Lemma ltype_set_lkey t k l : ltype (set_lkey t k l) = t.
Proof. by destruct l. Qed.
#[export] Hint Rewrite root_next root_prev root_type root_name set_next_root set_prev_root
  addr_set_lkey ltype_set_lkey : sf_rw.

(** ** Symbolic execution *)

(** The cell at address [a] among [P], and the others. *)
Ltac take_cell a P :=
  match P with
  | (a, ?b) :: ?P' => constr:((b, P'))
  | ?x :: ?P' => match take_cell a P' with (?b, ?R) => constr:((b, x :: R)) end
  | ?P1 ++ ?P2 => match take_cell a P1 with (?b, ?R) => constr:((b, R ++ P2)) end
  | ?P1 ++ ?P2 => match take_cell a P2 with (?b, ?R) => constr:((b, P1 ++ R)) end
  end.

Lemma spec_read {N B} ro P R a n (k : N -> M N B) Q :
  P ≡ₚ (a, Struct n) :: R -> spec ro P (k n) Q -> spec ro P (load (Some a) ≫= k) Q.
Proof. intros E. apply spec_load. rewrite E. left. Qed.

Ltac sp_simpl := cbv beta; cbn [negb andb orb not_null set_next set_prev set_first set_ntype set_vstring set_number
  set_name next prev first ntype vstring vint vdouble name fst snd option_fmap fmap option_map];
  autorewrite with sf_rw.

(** One step of the code: a read, a write or a [free] of a cell in sight. *)
Ltac sp_step :=
  lazymatch goal with
  | |- spec _ _ (mret _ ≫= _) _ => apply spec_ret_bind
  | |- spec _ _ ((_ ≫= _) ≫= _) _ => apply spec_assoc
  | |- spec ?ro ?P (load (Some ?a) ≫= ?k) _ =>
      match take_cell a P with (?b, ?R) => eapply (spec_read ro P R a); [solve_Permutation|] end
  | |- spec ?ro ?P (modify (Some ?a) ?f ≫= ?k) _ =>
      match take_cell a P with (?b, ?R) => eapply (spec_modify ro P R a); [solve_Permutation|] end
  | |- spec ?ro ?P (dealloc (Some ?a) ≫= ?k) _ =>
      match take_cell a P with (?b, ?R) => eapply (spec_dealloc ro P R a b); [solve_Permutation|reflexivity|] end
  | |- spec _ _ (modify _ _) _ => apply spec_tail
  | |- spec _ _ (load _) _ => apply spec_tail
  end; sp_simpl.

(** Brings the cells [X] to the front. *)
Ltac drop_cells X P :=
  match P with
  | X => constr:(@nil (positive * block node))
  | X ++ ?P2 => constr:(P2)
  | ?P1 ++ X => constr:(P1)
  | ?x :: ?P' => let R := drop_cells X P' in constr:(x :: R)
  | ?P1 ++ ?P2 => let R := drop_cells X P1 in constr:(R ++ P2)
  | ?P1 ++ ?P2 => let R := drop_cells X P2 in constr:(P1 ++ R)
  end.
Ltac rest_of X := lazymatch goal with |- spec _ ?P _ _ => drop_cells X P end.
Ltac sp_front X :=
  lazymatch goal with
  | |- spec ?ro ?P _ _ => let R := drop_cells X P in
      apply (spec_perm ro P (X ++ R)); [solve_Permutation|]
  end.

Section Specs.
  Context (ro : cells node).

(** ** Deletion *)

Lemma free_text {B} P vs (k : unit -> C B) Q :
  spec ro P (k tt) Q ->
  spec ro (text_cells vs ++ P) ((if not_null (fst <$> vs) then dealloc (fst <$> vs) else mret tt) ≫= k) Q.
Proof. intros H. destruct vs as [[p s]|]; cbn; repeat sp_step; done. Qed.

Lemma free_key {B} P t kk (k : unit -> C B) Q :
  spec ro P (k tt) Q ->
  spec ro (key_cells t kk ++ P)
    ((if negb (is_const t) && not_null (fst <$> kk) then dealloc (fst <$> kk) else mret tt) ≫= k) Q.
Proof.
  intros H. unfold key_cells. destruct (is_const t); cbn [negb andb]; [by sp_step|by apply free_text].
Qed.

Lemma delete_loop_spec fuel ls pv :
  Forall (ok ro) ls -> (sizes ls < fuel)%nat ->
  spec ro (seg pv ls None) (delete_loop fuel (first_or None ls)) (fun _ P' => P' = []).
Proof.
  revert ls pv. induction fuel as [|fuel IH]; intros ls pv Hok Hf; [lia|].
  destruct ls as [|c ls]; [by apply spec_ret|].
  apply Forall_cons in Hok as [Hc Hls]. simpl in Hf. rewrite seg_cons.
  cbn [delete_loop first_or]. unfold own. sp_step.
  assert (forall P, P ≡ₚ seg (Some (addr c)) ls None ->
    spec ro P (delete_loop fuel (first_or None ls)) (fun _ P' => P' = [])) as Hrest.
  { intros P E. apply (spec_perm _ _ _ _ _ E). apply IH; [done|]. destruct c; simpl in Hf; lia. }
  destruct c as [a t vs vi vd k ch|a t vs vi vd k c]; cbn [addr ltype root first size_of body ok] in *.
  - destruct Hc as (Hr & _ & Hch%ok_children). rewrite Hr. cbn [negb andb].
    eapply (spec_call _ _ (seg None ch None)
      ((a, Struct (mk_node (first_or None ls) pv (first_or None ch) t (fst <$> vs) vi vd (fst <$> k)))
        :: text_cells vs ++ key_cells t k ++ seg (Some a) ls None) _ _ (fun _ P' => P' = []));
      [|solve_Permutation|].
    { destruct ch as [|d ch]; [by apply spec_ret|]. apply IH; [done|lia]. }
    intros _ _ ->. cbn [app]. repeat sp_step. rewrite Hr. cbn [negb andb]. sp_front (text_cells vs). apply free_text.
    repeat sp_step. sp_front (key_cells t k). apply free_key. repeat sp_step. by apply Hrest.
  - destruct Hc as [Hr _]. rewrite Hr. cbn [negb andb]. repeat sp_step. rewrite Hr. cbn [negb andb].
    repeat sp_step.     sp_front (key_cells t k). apply free_key. repeat sp_step. by apply Hrest.
Qed.

(** [Delete] frees the item and what it owns, once each. *)
Lemma Delete_spec l pv :
  ok ro l -> spec ro (own pv None l) (snowflake_cJSON_Delete (Some (addr l))) (fun _ P' => P' = []).
Proof.
  intros Hl. apply spec_fuel. intros n Hn.
  assert (sizes [l] <= length (seg pv [l] None))%nat by apply sizes_seg.
  pose proof (delete_loop_spec n [l] pv) as Hspec. rewrite seg_one in *.
  apply Hspec; [by repeat constructor|lia].
Qed.

(** ** Access *)

Definition name_hit (s : string) (c : cJSON) (cs : bool) : outcome bool :=
  if cs then k ← deref (key c); Done (String.eqb s k)
  else Done (case_insensitive_strcmp (Some s) (key c) =? 0).

Lemma case_cmp_refl s : case_cmp s s = 0.
Proof. induction s as [|c s IH]; cbn; [done|]. by rewrite Z.eqb_refl. Qed.

Section Walks.
  Context {B : Type} (Q : B -> cells node -> Prop).

(** A walk over the children of [l], the rest of the cells untouched: [take_first]
    exposes one of them. *)
Lemma index_loop_spec fuel ls pv R P (i : Z) (k : ptr -> C B) :
  P ≡ₚ seg pv ls None ++ R -> (length ls < fuel)%nat -> 0 <= i ->
  spec ro P (k (addr <$> ls !! Z.to_nat i)) Q ->
  spec ro P (index_loop fuel (first_or None ls) i ≫= k) Q.
Proof.
  revert ls pv R i. induction fuel as [|fuel IH]; intros ls pv R i HP Hf Hi Hk; [lia|].
  destruct ls as [|c ls]; cbn [index_loop first_or not_null andb].
  { rewrite lookup_nil in Hk. by apply spec_ret_bind. }
  destruct (i >? 0) eqn:E.
  - apply spec_assoc. eapply (spec_read _ _ (body c ++ seg (Some (addr c)) ls None ++ R)).
    { rewrite HP, seg_cons. unfold own. solve_Permutation. }
    rewrite root_next. apply (IH ls (Some (addr c)) (own pv (first_or None ls) c ++ R)).
    + rewrite HP, seg_cons. solve_Permutation.
    + simpl in Hf. lia.
    + lia.
    + replace (Z.to_nat i) with (S (Z.to_nat (i - 1))) in Hk by lia. done.
  - assert (i = 0) as -> by lia. by apply spec_ret_bind.
Qed.

Lemma last_loop_spec fuel c ls pv R P (k : ptr -> C B) :
  P ≡ₚ seg pv (c :: ls) None ++ R -> (length ls < fuel)%nat ->
  spec ro P (k (last_or (Some (addr c)) ls)) Q ->
  spec ro P (last_loop fuel (Some (addr c)) ≫= k) Q.
Proof.
  revert c ls pv R. induction fuel as [|fuel IH]; intros c ls pv R HP Hf Hk; [lia|].
  cbn [last_loop]. apply spec_assoc.
  eapply (spec_read _ _ (body c ++ seg (Some (addr c)) ls None ++ R)).
  { rewrite HP, seg_cons. unfold own. solve_Permutation. }
  rewrite root_next. destruct ls as [|d ls]; cbn [first_or]; [by apply spec_ret_bind|].
  apply (IH d ls (Some (addr c)) (own pv (Some (addr d)) c ++ R)); [|simpl in Hf; lia|done].
  rewrite HP, (seg_cons pv). cbn [first_or]. solve_Permutation.
Qed.

Lemma key_in c pv nx kp ks :
  ok ro c -> lkey c = Some (kp, ks) -> exists st, (kp, Text st ks) ∈ own pv nx c ++ ro.
Proof.
  intros Hok Hk.
  assert (const_ok ro (ltype c) (lkey c)) as Hc by (destruct c; cbn in *; tauto).
  destruct (is_const (ltype c)) eqn:E.
  - exists true. apply elem_of_app. right. by apply Hc.
  - exists false. apply elem_of_app. left. right.
    destruct c; cbn in Hk, E |- *; subst; unfold key_cells; rewrite E; cbn; set_solver.
Qed.

(** The comparison of one member's name, as [object_index] makes it. *)
Lemma hit_spec P sp st s c cs b (k : bool -> C B) :
  (sp, Text st s) ∈ P ++ ro ->
  (forall kp ks, lkey c = Some (kp, ks) -> exists st', (kp, Text st' ks) ∈ P ++ ro) ->
  name_hit s (erase c) cs = Done b ->
  spec ro P (k b) Q ->
  spec ro P ((if cs then strcmp_hit (Some sp) (fst <$> lkey c)
              else case_insensitive_hit (Some sp) (fst <$> lkey c)) ≫= k) Q.
Proof.
  intros Hs Hkey E Hk.
  assert (key (erase c) = snd <$> lkey c) as Ek by (by destruct c). unfold name_hit in E. rewrite Ek in E.
  destruct (lkey c) as [[kp ks]|] eqn:El; cbn in E |- *.
  - destruct (Hkey kp ks eq_refl) as [st' Hin]. destruct cs.
    + injection E as <-. unfold strcmp_hit. repeat apply spec_assoc.
      eapply spec_text; [done|]. apply spec_assoc. eapply spec_text; [done|]. by apply spec_ret_bind.
    + injection E as <-. unfold same_ptr. case_bool_decide as Hp.
      * injection Hp as <-. apply (spec_agree _ _ _ _ _ _ _ Hs Hin). intros [= _ <-].
        apply spec_ret_bind. by rewrite case_cmp_refl in Hk.
      * apply spec_assoc. eapply spec_text; [done|]. apply spec_assoc. eapply spec_text; [done|].
        by apply spec_ret_bind.
  - destruct cs; [done|]. injection E as <-. by apply spec_ret_bind.
Qed.

Lemma name_loop_spec fuel ls pv R P sp st s cs r (k : ptr -> C B) :
  P ≡ₚ seg pv ls None ++ R -> (length ls < fuel)%nat -> Forall (ok ro) ls ->
  (sp, Text st s) ∈ P ++ ro -> object_index (map erase ls) s cs = Done r ->
  spec ro P (k (r ≫= fun i => addr <$> ls !! i)) Q ->
  spec ro P (name_loop fuel (first_or None ls) (Some sp) cs ≫= k) Q.
Proof.
  revert ls pv R r. induction fuel as [|fuel IH]; intros ls pv R r HP Hf Hok Hs Hr Hk; [lia|].
  destruct ls as [|c ls]; cbn [name_loop first_or map object_index] in *.
  { injection Hr as <-. by apply spec_ret_bind. }
  apply Forall_cons in Hok as [Hc Hls]. apply spec_assoc.
  assert (P ≡ₚ (addr c, Struct (root pv (first_or None ls) c)) :: body c ++ seg (Some (addr c)) ls None ++ R)
    as HP' by (rewrite HP, seg_cons; unfold own; solve_Permutation).
  eapply spec_read; [done|]. rewrite root_name, root_next. apply spec_assoc.
  apply bind_Done in Hr as (b & Eb & Hr).
  eapply (hit_spec P sp st s c cs b); [done| |done|].
  { intros kp ks El. destruct (key_in c pv (first_or None ls) kp ks Hc El) as [st' Hin].
    exists st'. rewrite HP'. unfold own in Hin. clear -Hin. set_solver. }
  destruct b.
  - injection Hr as <-. by apply spec_ret_bind.
  - apply bind_Done in Hr as (r' & Er & [= <-]).
    apply (IH ls (Some (addr c)) (own pv (first_or None ls) c ++ R) r'); [|simpl in Hf; lia|done..|].
    + rewrite HP, seg_cons. solve_Permutation.
    + by destruct r'.
Qed.

Lemma fuel_enough pv ls R (P : cells node) :
  P ≡ₚ seg pv ls None ++ R -> (length ls <= length P)%nat.
Proof.
  intros E. apply Permutation_length in E. rewrite E, length_app.
  pose proof (sizes_seg pv ls None). pose proof (length_sizes ls). lia.
Qed.

Lemma index_spec ls pv R P i (k : ptr -> C B) :
  P ≡ₚ seg pv ls None ++ R -> 0 <= i -> spec ro P (k (addr <$> ls !! Z.to_nat i)) Q ->
  spec ro P (with_fuel (fun fuel => index_loop fuel (first_or None ls) i) ≫= k) Q.
Proof.
  intros E Hi Hk. apply spec_fuel_bind. intros n Hn. pose proof (fuel_enough _ _ _ _ E).
  apply (index_loop_spec n ls pv R); [done|lia|done..].
Qed.

Lemma last_spec c ls pv R P (k : ptr -> C B) :
  P ≡ₚ seg pv (c :: ls) None ++ R -> spec ro P (k (last_or (Some (addr c)) ls)) Q ->
  spec ro P (with_fuel (fun fuel => last_loop fuel (Some (addr c))) ≫= k) Q.
Proof.
  intros E Hk. apply spec_fuel_bind. intros n Hn. pose proof (fuel_enough _ _ _ _ E) as Hl.
  apply (last_loop_spec n c ls pv R); [done|simpl in Hl; lia|done].
Qed.

Lemma name_spec ls pv R P sp st s cs r (k : ptr -> C B) :
  P ≡ₚ seg pv ls None ++ R -> Forall (ok ro) ls -> (sp, Text st s) ∈ P ++ ro ->
  object_index (map erase ls) s cs = Done r -> spec ro P (k (r ≫= fun i => addr <$> ls !! i)) Q ->
  spec ro P (with_fuel (fun fuel => name_loop fuel (first_or None ls) (Some sp) cs) ≫= k) Q.
Proof.
  intros E Hok Hs Hr Hk. apply spec_fuel_bind. intros n Hn. pose proof (fuel_enough _ _ _ _ E).
  by apply (name_loop_spec n ls pv R P sp st s cs r); [|lia|..].
Qed.
End Walks.

End Specs.
