(* ===== verification/CJsonLinks.v ===== *)
(** * lib/cJSON.c over a heap: what each editor does to the cells of its arguments.

    Adding, inserting, unlinking, replacing, naming and referring, specified over exactly
    the cells of the parent and of the item: the parent ends with the children CJson
    says, the cells of an unlinked item are those of a tree of its own, a replaced item
    is freed with all it owns. *)

From S2P Require Import Prelude CLib CFloat CJson CHeap CJsonHeap.

Section Links.
  Context (malloc : heap node -> Z -> ptr) (hooks : Z -> bool) (ro : cells node).
  Hypothesis malloc_ok : forall h n,
    if hooks n then exists a, malloc h n = Some a /\ h !! a = None else malloc h n = None.

(** ** Linking and unlinking *)

Lemma snoc_of c ls : exists l1 d, c :: ls = l1 ++ [d] /\ last_or (Some (addr c)) ls = Some (addr d).
Proof.
  revert c. induction ls as [|e ls IH]; intros c; [by exists [], c|].
  destruct (IH e) as (l1 & d & E & El). exists (c :: l1), d. split; [by rewrite E|done].
Qed.

(** The head struct of a parent with children [ch], for rewriting. *)
Abbreviation parent pv nx t vs vi vd k ch :=
  (Struct (mk_node nx pv (first_or None ch) t (fst <$> vs) vi vd (fst <$> k))).

Lemma AddItemToArray_spec pv nx a t vs vi vd k ch it :
  spec ro (own pv nx (Own a t vs vi vd k ch) ++ own None None it)
    (snowflake_cJSON_AddItemToArray (Some a) (Some (addr it)))
    (fun _ P' => P' ≡ₚ own pv nx (Own a t vs vi vd k (ch ++ [it]))).
Proof.
  unfold snowflake_cJSON_AddItemToArray. rewrite !own_Own. unfold own at 1. sp_step.
  destruct ch as [|c0 ls].
  - cbn [first_or app]. repeat sp_step. apply spec_ret. rewrite seg_one. unfold own. solve_Permutation.
  - destruct (snoc_of c0 ls) as (l1 & d & E & Elast). cbn [first_or].
    let R := rest_of (seg None (c0 :: ls) None) in apply (last_spec _ _ c0 ls None R); [solve_Permutation|].
    rewrite Elast. unfold suffix_object.
    change (Some (addr c0)) with (first_or None (c0 :: ls)).
    rewrite E, <- app_assoc, !first_or_app, !seg_app, seg_one. cbn [app first_or].
    unfold own. repeat sp_step. apply spec_ret. rewrite seg_cons, seg_one. unfold own. cbn [first_or].
    solve_Permutation.
Qed.

(** No block is the first of the list before it. *)
Lemma first_other {A} P x b pv l1 nx R (c : C A) Q :
  P ≡ₚ (x, b) :: seg pv l1 nx ++ R ->
  ((forall nx', same_ptr (Some x) (first_or nx' l1) = bool_decide (l1 = [] /\ nx' = Some x)) -> spec ro P c Q) ->
  spec ro P c Q.
Proof.
  intros E H. apply spec_nodup. intros Hn. apply H. intros nx'. unfold same_ptr.
  destruct l1 as [|d l1]; cbn [first_or]; apply bool_decide_ext; [naive_solver|].
  split; [intros [= ->]|by intros [? _]]. exfalso. rewrite E in Hn. rewrite seg_cons in Hn. cbn in Hn.
  apply NoDup_cons in Hn as [Hn _]. apply Hn. left.
Qed.

Ltac sp_first x l :=
  lazymatch goal with
  | |- spec ?ro ?P _ _ =>
      match take_cell x P with (?b, ?R0) =>
        match R0 with context [seg ?pv l ?nx] =>
          let R := drop_cells (seg pv l nx) R0 in
          apply (first_other P x b pv l nx R); [solve_Permutation|]
        end
      end
  end.

(** The neighbours of an item, when there are any, get a new link. *)
Lemma relink_prev {B} l1 pv q x P R (k : unit -> C B) Q :
  P ≡ₚ seg pv l1 x ++ R -> spec ro (seg pv l1 q ++ R) (k tt) Q -> (l1 = [] -> pv = None) ->
  spec ro P ((if not_null (last_or pv l1) then modify (last_or pv l1) (set_next q) else mret tt) ≫= k) Q.
Proof.
  intros E Hk Hpv. apply (spec_perm _ _ _ _ _ E). destruct l1 as [|c l1 _] using rev_ind.
  - rewrite Hpv by done. by apply spec_ret_bind.
  - rewrite last_or_app, seg_app, seg_one in *. cbn [last_or not_null first_or] in *. unfold own in *.
    sp_step. eapply spec_perm; [|done]. solve_Permutation.
Qed.
Lemma relink_next {B} l2 q y P R (k : unit -> C B) Q :
  P ≡ₚ seg y l2 None ++ R -> spec ro (seg q l2 None ++ R) (k tt) Q ->
  spec ro P ((if not_null (first_or None l2) then modify (first_or None l2) (set_prev q) else mret tt) ≫= k) Q.
Proof.
  intros E Hk. apply (spec_perm _ _ _ _ _ E). destruct l2 as [|e l2]; cbn [first_or not_null].
  - by apply spec_ret_bind.
  - rewrite seg_cons in *. unfold own in *. sp_step. done.
Qed.
Ltac sp_relink_prev l1 :=
  lazymatch goal with
  | |- spec _ ?P _ _ =>
      match P with context [seg ?pv l1 ?x] =>
        let R := drop_cells (seg pv l1 x) P in
        eapply (relink_prev l1 pv _ x P R); [solve_Permutation| |done]
      end
  end.
Ltac sp_relink_next l2 :=
  lazymatch goal with
  | |- spec _ ?P _ _ =>
      match P with context [seg ?y l2 ?x] =>
        let R := drop_cells (seg y l2 x) P in
        eapply (relink_next l2 _ y P R); [solve_Permutation|]
      end
  end.

Lemma Detach_spec pv nx a t vs vi vd k l1 d l2 :
  spec ro (own pv nx (Own a t vs vi vd k (l1 ++ d :: l2)))
    (snowflake_cJSON_DetachItemViaPointer (Some a) (Some (addr d)))
    (fun r P' => r = Some (addr d) /\
       P' ≡ₚ own pv nx (Own a t vs vi vd k (l1 ++ l2)) ++ own None None d).
Proof.
  unfold snowflake_cJSON_DetachItemViaPointer. rewrite !own_Own, !first_or_app, !seg_app, seg_cons.
  cbn [first_or]. unfold own.
  sp_first (addr d) l1. intros Hsame.
  repeat sp_step. sp_relink_prev l1. sp_step. sp_relink_next l2. sp_step.
  rewrite Hsame. destruct l1 as [|c l1]; cbn [first_or last_or app].
  - rewrite bool_decide_true by done. repeat sp_step. apply spec_ret. split; [done|]. solve_Permutation.
  - rewrite bool_decide_false by naive_solver. repeat sp_step. apply spec_ret. split; [done|].
    solve_Permutation.
Qed.

(** Finding a child of a parent in sight. *)
Lemma get_array_item_spec {B} P pv nx a t vs vi vd k ch R i (c : ptr -> C B) Q :
  P ≡ₚ own pv nx (Own a t vs vi vd k ch) ++ R -> 0 <= i ->
  spec ro P (c (addr <$> ch !! Z.to_nat i)) Q -> spec ro P (get_array_item (Some a) i ≫= c) Q.
Proof.
  intros E Hi Hc. apply (spec_perm _ _ _ _ _ E). rewrite own_Own. unfold get_array_item. repeat sp_step.
  let R := rest_of (seg None ch None) in eapply (index_spec _ _ ch None R); [solve_Permutation|done|].
  apply (spec_perm _ _ P); [by rewrite E, own_Own|done].
Qed.

Lemma get_object_item_spec {B} P pv nx a t vs vi vd k ch R sp st s cs r (c : ptr -> C B) Q :
  P ≡ₚ own pv nx (Own a t vs vi vd k ch) ++ R -> Forall (ok ro) ch -> (sp, Text st s) ∈ P ++ ro ->
  object_index (map erase ch) s cs = Done r ->
  spec ro P (c (r ≫= fun i => addr <$> ch !! i)) Q ->
  spec ro P (get_object_item (Some a) (Some sp) cs ≫= c) Q.
Proof.
  intros E Hok Hs Hr Hc. rewrite E in Hs. apply (spec_perm _ _ _ _ _ E). rewrite own_Own in *.
  unfold get_object_item. repeat sp_step.
  let R := rest_of (seg None ch None) in
    eapply (name_spec _ _ ch None R _ sp st s cs r); [solve_Permutation|done|done|done|].
  apply (spec_perm _ _ P); [by rewrite E|done].
Qed.

Lemma split_at {A} (l : list A) i x : l !! i = Some x -> l = take i l ++ x :: drop (S i) l.
Proof. intros H. symmetry. by apply take_drop_middle. Qed.

Lemma Insert_spec pv nx a t vs vi vd k ch it which :
  0 <= which ->
  let i := Z.to_nat which in
  spec ro (own pv nx (Own a t vs vi vd k ch) ++ own None None it)
    (snowflake_cJSON_InsertItemInArray (Some a) which (Some (addr it)))
    (fun _ P' => P' ≡ₚ own pv nx (Own a t vs vi vd k (take i ch ++ it :: drop i ch))).
Proof.
  intros Hw i. unfold snowflake_cJSON_InsertItemInArray.
  assert ((which <? 0) = false) as -> by lia.
  eapply get_array_item_spec; [reflexivity|done|]. fold i.
  destruct (ch !! i) as [d|] eqn:Ed; cbn [fmap option_fmap option_map].
  - rewrite (drop_S _ _ _ Ed). pose proof (split_at _ _ _ Ed) as E.
    revert E. generalize (take i ch) as l1, (drop (S i) ch) as l2. intros l1 l2 ->.
    rewrite !own_Own, !first_or_app, !seg_app, !seg_cons. cbn [first_or]. unfold own.
    sp_first (addr d) l1. intros Hsame. repeat sp_step. rewrite Hsame.
    destruct l1 as [|c l1 _] using rev_ind; cbn [first_or last_or app].
    + rewrite bool_decide_true by done. repeat sp_step. apply spec_ret. cbn. solve_Permutation.
    + rewrite bool_decide_false by (by intros [[_ [=]]%app_nil _]). rewrite !last_or_app, !seg_app, !seg_one.
      cbn [last_or first_or]. unfold own. repeat sp_step. apply spec_ret.
      rewrite !first_or_app. cbn [first_or]. solve_Permutation.
  - apply lookup_ge_None in Ed. rewrite take_ge, drop_ge by lia. apply AddItemToArray_spec.
Qed.

Lemma apart {A} x b y b' R P (c : C A) Q :
  P ≡ₚ (x, b) :: (y, b') :: R -> (same_ptr (Some x) (Some y) = false -> spec ro P c Q) -> spec ro P c Q.
Proof.
  intros E H. apply spec_nodup. intros Hn. apply H. unfold same_ptr. apply bool_decide_eq_false.
  intros [= ->]. rewrite E in Hn. cbn in Hn. apply NoDup_cons in Hn as [Hn _]. apply Hn. left.
Qed.
Ltac sp_apart x y :=
  lazymatch goal with
  | |- spec ?ro ?P _ _ =>
      match take_cell x P with (?b, ?R0) =>
        match take_cell y R0 with (?b', ?R) => apply (apart x b y b' R P); [solve_Permutation|] end
      end
  end.

(** [Delete] of an item in sight. *)
Ltac sp_delete d :=
  lazymatch goal with
  | |- spec ?ro ?P _ _ =>
      match take_cell (addr d) P with
      | (Struct (root ?pv ?nx d), ?R0) =>
          let R := drop_cells (body d) R0 in
          apply (spec_call ro P (own pv nx d) R _ _ (fun _ P' => P' = []));
          [apply Delete_spec|unfold own; solve_Permutation|intros _ _ ->; cbn [app]]
      end
  end.

Lemma Replace_spec pv nx a t vs vi vd k l1 d l2 it :
  ok ro d ->
  spec ro (own pv nx (Own a t vs vi vd k (l1 ++ d :: l2)) ++ own None None it)
    (snowflake_cJSON_ReplaceItemViaPointer (Some a) (Some (addr d)) (Some (addr it)))
    (fun r P' => r = true /\ P' ≡ₚ own pv nx (Own a t vs vi vd k (l1 ++ it :: l2))).
Proof.
  intros Hd. unfold snowflake_cJSON_ReplaceItemViaPointer.
  rewrite !own_Own, !first_or_app, !seg_app, !seg_cons. cbn [first_or]. unfold own.
  sp_first (addr d) l1. intros Hsame. sp_apart (addr it) (addr d). intros ->. repeat sp_step.
  sp_relink_next l2. sp_step. autorewrite with sf_rw. sp_relink_prev l1. sp_step.
  assert (same_ptr (first_or (Some (addr d)) l1) (Some (addr d)) = bool_decide (l1 = [] /\ Some (addr d) = Some (addr d))) as ->.
  { rewrite <- Hsame. unfold same_ptr. apply bool_decide_ext. naive_solver. }
  destruct l1 as [|c l1]; cbn [first_or last_or app].
  1: rewrite bool_decide_true by done. 2: rewrite bool_decide_false by naive_solver.
  all: repeat sp_step; sp_delete d; [done|]; apply spec_ret; split; [done|]; cbn [app]; solve_Permutation.
Qed.

(** ** Names *)

(** What an item owns besides its struct and its name. *)
Definition others (l : layout) : cells node :=
  match l with
  | Own _ _ vs _ _ _ ch => text_cells vs ++ seg None ch None
  | Ref _ _ _ _ _ _ _ => []
  end.
Lemma body_split l : body l ≡ₚ key_cells (ltype l) (lkey l) ++ others l.
Proof. destruct l; cbn [body others ltype lkey]; [solve_Permutation|by rewrite app_nil_r]. Qed.
Lemma others_set_lkey t k l : others (set_lkey t k l) = others l.
Proof. by destruct l. Qed.
Lemma root_set_lkey pv nx t k l :
  root pv nx (set_lkey t k l) = set_ntype t (set_name (fst <$> k) (root pv nx l)).
Proof. by destruct l. Qed.
Lemma own_set_lkey pv nx t k l :
  own pv nx (set_lkey t k l) ≡ₚ
    (addr l, Struct (set_ntype t (set_name (fst <$> k) (root pv nx l)))) :: key_cells t k ++ others l.
Proof.
  unfold own. rewrite addr_set_lkey, root_set_lkey, body_split. destruct l; done.
Qed.
Lemma lkey_set_lkey t k l : lkey (set_lkey t k l) = k.
Proof. by destruct l. Qed.

Lemma is_const_set t : is_const (Z.lor t cJSON_StringIsConst) = true.
Proof.
  unfold is_const, cJSON_StringIsConst. change 512 with (2 ^ 9).
  apply negb_true_iff, Z.eqb_neq. intros E. apply (f_equal (fun z => Z.testbit z 9)) in E.
  rewrite Z.land_spec, Z.lor_spec, Z.pow2_bits_true, orb_true_r in E by lia. done.
Qed.
Lemma is_const_clear t : is_const (clear_flag cJSON_StringIsConst t) = false.
Proof.
  unfold is_const, clear_flag, cJSON_StringIsConst. apply negb_false_iff, Z.eqb_eq.
  apply Z.bits_inj'. intros n Hn. rewrite Z.land_spec, Z.ldiff_spec, Z.bits_0.
  destruct (Z.testbit 512 n); cbn; by rewrite ?andb_false_r.
Qed.
Lemma clear_set t : clear_flag cJSON_StringIsConst (Z.lor t cJSON_StringIsConst) = clear_flag cJSON_StringIsConst t.
Proof.
  apply Z.bits_inj'. intros n Hn. unfold clear_flag. rewrite !Z.ldiff_spec, Z.lor_spec.
  by destruct (Z.testbit t n), (Z.testbit cJSON_StringIsConst n).
Qed.

(** The copy of a text: a new block, or none when the allocator refuses. *)
Lemma strdup_spec {B} P sp st s (k : ptr -> C B) Q :
  (sp, Text st s) ∈ P ++ ro ->
  (if hooks (strlen s + 1) then forall p, spec ro ((p, Text false s) :: P) (k (Some p)) Q
   else spec ro P (k None) Q) ->
  spec ro P (cJSON_strdup malloc (Some sp) ≫= k) Q.
Proof.
  intros Hs Hk. unfold cJSON_strdup. apply spec_assoc. eapply spec_text; [done|].
  eapply (spec_alloc _ _ (hooks (strlen s + 1))); [|done]. intros h. apply malloc_ok.
Qed.

Lemma New_Item_spec {B} P (k : ptr -> C B) Q :
  (if hooks sizeof_cJSON then forall p, spec ro ((p, Struct zero_node) :: P) (k (Some p)) Q
   else spec ro P (k None) Q) ->
  spec ro P (cJSON_New_Item malloc ≫= k) Q.
Proof.
  intros Hk. eapply (spec_alloc _ _ (hooks sizeof_cJSON)); [|done]. intros h. apply malloc_ok.
Qed.

(** The item takes the name: its old one is freed unless it was a constant. *)
Lemma rename_spec {B} it P sp s (k : unit -> C B) Q :
  let t := Z.lor (ltype it) cJSON_StringIsConst in
  spec ro (own None None (set_lkey t (Some (sp, s)) it) ++ P) (k tt) Q ->
  spec ro (own None None it ++ P)
    (n ← load (Some (addr it));
     _ ← (if negb (is_const (ntype n)) && not_null (name n) then dealloc (name n) else mret tt);
     _ ← modify (Some (addr it)) (set_name (Some sp));
     _ ← modify (Some (addr it)) (fun n => set_ntype (Z.lor (ntype n) cJSON_StringIsConst) n);
     k tt) Q.
Proof.
  intros t Hk. unfold own. apply (spec_perm _ _ (key_cells (ltype it) (lkey it) ++
    (addr it, Struct (root None None it)) :: others it ++ P)).
  { rewrite body_split. solve_Permutation. }
  sp_step. apply free_key. repeat sp_step. eapply spec_perm; [|exact Hk].
  rewrite own_set_lkey. unfold key_cells, t. rewrite is_const_set. cbn [app fst].
  done.
Qed.

Definition named_const (p : positive) (s : string) (it : layout) : layout :=
  set_lkey (Z.lor (ltype it) cJSON_StringIsConst) (Some (p, s)) it.
Definition named_copy (p : positive) (s : string) (it : layout) : layout :=
  set_lkey (clear_flag cJSON_StringIsConst (ltype it)) (Some (p, s)) it.

Lemma own_named_const pv nx p s it :
  own pv nx (named_const p s it) ≡ₚ
    (addr it, Struct (set_ntype (Z.lor (ltype it) cJSON_StringIsConst) (set_name (Some p) (root pv nx it)))) ::
    others it.
Proof. unfold named_const. rewrite own_set_lkey. unfold key_cells. by rewrite is_const_set. Qed.
Lemma own_named_copy pv nx p s it :
  own pv nx (named_copy p s it) ≡ₚ
    (addr it, Struct (set_ntype (clear_flag cJSON_StringIsConst (ltype it)) (set_name (Some p) (root pv nx it)))) ::
    (p, Text false s) :: others it.
Proof. unfold named_copy. rewrite own_set_lkey. unfold key_cells. by rewrite is_const_clear. Qed.

Lemma AddItemToObjectCS_spec pv nx a t vs vi vd k ch it sp s :
  spec ro (own pv nx (Own a t vs vi vd k ch) ++ own None None it)
    (snowflake_cJSON_AddItemToObjectCS (Some a) (Some sp) (Some (addr it)))
    (fun _ P' => P' ≡ₚ own pv nx (Own a t vs vi vd k (ch ++ [named_const sp s it]))).
Proof.
  unfold snowflake_cJSON_AddItemToObjectCS. sp_front (own None None it).
  apply (rename_spec it _ sp s (fun _ => snowflake_cJSON_AddItemToArray (Some a) (Some (addr it)))).
  fold (named_const sp s it). replace (addr it) with (addr (named_const sp s it)) by apply addr_set_lkey.
  eapply spec_perm; [apply Permutation_app_comm|]. apply AddItemToArray_spec.
Qed.

(** The flag is cleared on an item in place. *)
Lemma clear_const_spec it pv nx P R :
  (is_const (ltype it) = true -> lkey it = None) ->
  P ≡ₚ own pv nx it ++ R ->
  spec ro P (modify (Some (addr it)) (fun n => set_ntype (clear_flag cJSON_StringIsConst (ntype n)) n))
    (fun _ P' => P' ≡ₚ own pv nx (set_lkey (clear_flag cJSON_StringIsConst (ltype it)) (lkey it) it) ++ R).
Proof.
  intros Hk E. apply (spec_perm _ _ _ _ _ E). unfold own at 1. repeat sp_step. apply spec_ret.
  rewrite own_set_lkey, body_split. unfold key_cells. rewrite is_const_clear.
  replace (set_name (fst <$> lkey it) (root pv nx it)) with (root pv nx it) by (by destruct it).
  destruct (is_const (ltype it)); [rewrite Hk by done; cbn|]; solve_Permutation.
Qed.

(** Copying the name, naming, linking: when the copy fails the item stays with the
    caller. *)
Lemma AddItemToObject_spec pv nx a t vs vi vd k ch it sp st s :
  (sp, Text st s) ∈ ro -> (is_const (ltype it) = true -> lkey it = None \/ hooks (strlen s + 1) = true) ->
  spec ro (own pv nx (Own a t vs vi vd k ch) ++ own None None it)
    (snowflake_cJSON_AddItemToObject malloc (Some a) (Some sp) (Some (addr it)))
    (fun _ P' =>
       if hooks (strlen s + 1) then
         exists p, P' ≡ₚ own pv nx (Own a t vs vi vd k (ch ++ [named_copy p s it]))
       else P' ≡ₚ own pv nx (Own a t vs vi vd k ch) ++
              own None None (set_lkey (clear_flag cJSON_StringIsConst (ltype it)) (lkey it) it)).
Proof.
  intros Hs Hk. unfold snowflake_cJSON_AddItemToObject.
  eapply (strdup_spec _ sp st s); [by apply elem_of_app; right|].
  destruct (hooks (strlen s + 1)) eqn:Eh.
  - intros p. eapply (spec_call _ _ (own pv nx (Own a t vs vi vd k ch) ++ own None None it) [(p, Text false s)]);
      [apply (AddItemToObjectCS_spec pv nx a t vs vi vd k ch it p s)|solve_Permutation|].
    intros a0 P' E. cbv beta in E. apply spec_tail. eapply spec_perm.
    { rewrite E, own_Own, first_or_app, seg_app, seg_one, own_named_const. cbn [first_or]. reflexivity. }
    unfold named_const at 1. rewrite addr_set_lkey. repeat sp_step. apply spec_ret. exists p.
    rewrite own_Own, first_or_app, seg_app, seg_one, own_named_copy. cbn [first_or].
    unfold named_const, named_copy. rewrite !addr_set_lkey, clear_set.
    change (set_ntype ?x (set_ntype ?y ?r)) with (set_ntype x r). solve_Permutation.
  - unfold snowflake_cJSON_AddItemToObjectCS. apply spec_ret_bind. sp_front (own None None it).
    eapply spec_post; [eapply clear_const_spec; [|reflexivity]|].
    { intros Hc. destruct (Hk Hc); congruence. }
    intros a0 P' E. cbv beta in E. rewrite E. apply Permutation_app_comm.
Qed.

(** ** References *)

(** The struct a reference to [l] starts from: its fields without links and name. *)
Definition reference (p : positive) (l : layout) : layout :=
  let t := Z.lor (ltype l) cJSON_IsReference in
  match l with
  | Own _ _ vs vi vd _ ch => Ref p t (fst <$> vs) vi vd None (first_or None ch)
  | Ref _ _ vs vi vd _ c => Ref p t vs vi vd None c
  end.

Lemma addr_reference p l : addr (reference p l) = p.
Proof. by destruct l. Qed.
Lemma body_reference p l : body (reference p l) = [].
Proof. destruct l; cbn [reference body]; unfold key_cells; by destruct (is_const _). Qed.

Lemma create_reference_spec {B} P R pv nx l (k : ptr -> C B) Q :
  P ≡ₚ own pv nx l ++ R ->
  (if hooks sizeof_cJSON then forall p, spec ro (P ++ own None None (reference p l)) (k (Some p)) Q
   else spec ro P (k None) Q) ->
  spec ro P (create_reference malloc (Some (addr l)) ≫= k) Q.
Proof.
  intros E Hk. unfold create_reference. apply spec_assoc. apply New_Item_spec.
  destruct (hooks sizeof_cJSON); [|by apply spec_ret_bind].
  intros p. specialize (Hk p). apply spec_assoc. eapply spec_perm; [by rewrite E|].
  unfold own at 1. repeat sp_step. eapply spec_perm; [|exact Hk]. rewrite E. unfold own.
  rewrite body_reference, addr_reference.
  replace (root None None (reference p l)) with (set_next None (set_prev None
    (set_ntype (Z.lor (ltype l) cJSON_IsReference) (set_name None (root pv nx l))))) by (by destruct l).
  solve_Permutation.
Qed.

(** A reference added to an array: the item it refers to is not touched. *)
Lemma AddItemReferenceToArray_spec pv nx a t vs vi vd k ch pv' nx' l :
  spec ro (own pv nx (Own a t vs vi vd k ch) ++ own pv' nx' l)
    (snowflake_cJSON_AddItemReferenceToArray malloc (Some a) (Some (addr l)))
    (fun _ P' =>
       if hooks sizeof_cJSON then
         exists p, P' ≡ₚ own pv nx (Own a t vs vi vd k (ch ++ [reference p l])) ++ own pv' nx' l
       else P' ≡ₚ own pv nx (Own a t vs vi vd k ch) ++ own pv' nx' l).
Proof.
  unfold snowflake_cJSON_AddItemReferenceToArray.
  eapply create_reference_spec; [apply Permutation_app_comm|].
  destruct (hooks sizeof_cJSON); [|by apply spec_ret].
  intros p. apply spec_tail.
  pose proof (AddItemToArray_spec pv nx a t vs vi vd k ch (reference p l)) as Hadd.
  rewrite addr_reference in Hadd.
  eapply (spec_call _ _ _ (own pv' nx' l)); [exact Hadd|solve_Permutation|].
  intros a0 P' E. cbv beta in E. apply spec_ret. exists p. by rewrite E.
Qed.

(** Added to an object, the reference is lost when the copy of its name fails: it is
    neither linked nor freed. *)
Lemma AddItemReferenceToObject_spec pv nx a t vs vi vd k ch pv' nx' l sp st s :
  (sp, Text st s) ∈ ro ->
  spec ro (own pv nx (Own a t vs vi vd k ch) ++ own pv' nx' l)
    (snowflake_cJSON_AddItemReferenceToObject malloc (Some a) (Some sp) (Some (addr l)))
    (fun _ P' =>
       if hooks sizeof_cJSON then
         exists p,
           if hooks (strlen s + 1) then
             exists q, P' ≡ₚ own pv nx (Own a t vs vi vd k (ch ++ [named_copy q s (reference p l)])) ++ own pv' nx' l
           else exists lost, addr lost = p /\
             P' ≡ₚ own pv nx (Own a t vs vi vd k ch) ++ own None None lost ++ own pv' nx' l
       else P' ≡ₚ own pv nx (Own a t vs vi vd k ch) ++ own pv' nx' l).
Proof.
  intros Hs. unfold snowflake_cJSON_AddItemReferenceToObject.
  eapply create_reference_spec; [apply Permutation_app_comm|].
  destruct (hooks sizeof_cJSON); [|by apply spec_ret].
  intros p. apply spec_tail.
  pose proof (AddItemToObject_spec pv nx a t vs vi vd k ch (reference p l) sp st s Hs) as Hadd.
  rewrite addr_reference in Hadd.
  eapply (spec_call _ _ _ (own pv' nx' l)); [apply Hadd; intros _; left; by destruct l|solve_Permutation|].
  intros a0 P' E. cbv beta in E. apply spec_ret. exists p. destruct (hooks (strlen s + 1)).
  - destruct E as [q E]. exists q. by rewrite E.
  - eexists. split; [|by rewrite E, <- app_assoc]. by rewrite addr_set_lkey, addr_reference.
Qed.

(** ** Replacing by name *)

Lemma object_index_lt cs s js i : object_index js s cs = Done (Some i) -> (i < length js)%nat.
Proof.
  revert i. induction js as [|j js IH]; intros i; cbn [object_index length]; [done|].
  intros E. apply bind_Done in E as ([|] & _ & E); [injection E as <-; lia|].
  apply bind_Done in E as ([r|] & E & [= <-]); apply IH in E; lia.
Qed.

Lemma replace_item_in_object_spec pv nx a t vs vi vd k ch it sp st s cs r :
  (sp, Text st s) ∈ ro -> Forall (ok ro) ch -> object_index (map erase ch) s cs = Done r ->
  spec ro (own pv nx (Own a t vs vi vd k ch) ++ own None None it)
    (replace_item_in_object malloc (Some a) (Some sp) (Some (addr it)) cs)
    (fun b P' => b = true /\ exists kk,
       snd <$> kk = CJson.cJSON_strdup hooks (Some s) /\
       let it' := set_lkey (clear_flag cJSON_StringIsConst (ltype it)) kk it in
       match r with
       | Some i => P' ≡ₚ own pv nx (Own a t vs vi vd k (<[i := it']> ch))
       | None => P' ≡ₚ own pv nx (Own a t vs vi vd k ch) ++ own None None it'
       end).
Proof.
  intros Hs Hok Hr. unfold replace_item_in_object.
  eapply (spec_perm _ _ (key_cells (ltype it) (lkey it) ++ (addr it, Struct (root None None it)) ::
    others it ++ own pv nx (Own a t vs vi vd k ch))).
  { unfold own. rewrite (body_split it). solve_Permutation. }
  sp_step. apply free_key.
  assert (forall kk, snd <$> kk = CJson.cJSON_strdup hooks (Some s) ->
    let it' := set_lkey (clear_flag cJSON_StringIsConst (ltype it)) kk it in
    spec ro (text_cells kk ++ (addr it, Struct (root None None it)) :: others it ++ own pv nx (Own a t vs vi vd k ch))
      (_ ← modify (Some (addr it)) (set_name (fst <$> kk));
       _ ← modify (Some (addr it)) (fun r => set_ntype (clear_flag cJSON_StringIsConst (ntype r)) r);
       item ← get_object_item (Some a) (Some sp) cs;
       _ ← snowflake_cJSON_ReplaceItemViaPointer (Some a) item (Some (addr it));
       mret true)
      (fun b P' => b = true /\ exists kk,
         snd <$> kk = CJson.cJSON_strdup hooks (Some s) /\
         let it' := set_lkey (clear_flag cJSON_StringIsConst (ltype it)) kk it in
         match r with
         | Some i => P' ≡ₚ own pv nx (Own a t vs vi vd k (<[i := it']> ch))
         | None => P' ≡ₚ own pv nx (Own a t vs vi vd k ch) ++ own None None it'
         end)) as Hrest.
  { intros kk Hkk it'. repeat sp_step.
    eapply (spec_perm _ _ (own pv nx (Own a t vs vi vd k ch) ++ own None None it')).
    { unfold it'. rewrite own_set_lkey. unfold key_cells. rewrite is_const_clear.
      solve_Permutation. }
    eapply (get_object_item_spec _ pv nx a t vs vi vd k ch _ sp st s cs r);
      [reflexivity|done|by apply elem_of_app; right|done|].
    replace (addr it) with (addr it') by apply addr_set_lkey.
    destruct r as [i|]; cbn [mbind option_bind].
    - assert (i < length ch)%nat as Hi by (apply object_index_lt in Hr; by rewrite length_map in Hr).
      destruct (lookup_lt_is_Some_2 _ _ Hi) as [d Ed]. rewrite Ed. cbn [fmap option_fmap option_map].
      pose proof (Replace_spec pv nx a t vs vi vd k (take i ch) d (drop (S i) ch) it') as Hrep.
      rewrite <- (split_at ch i d Ed) in Hrep.
      eapply spec_bind; [apply Hrep; rewrite Forall_forall in Hok; by apply Hok, (list_elem_of_lookup_2 _ i)|].
      intros b P' [-> E]. apply spec_ret. split; [done|]. exists kk. split; [done|].
      by rewrite (insert_take_drop _ _ _ Hi).
    - apply spec_ret_bind, spec_ret. split; [done|]. by exists kk. }
  eapply (strdup_spec _ sp st s); [by apply elem_of_app; right|].
  destruct (hooks (strlen s + 1)) eqn:Eh.
  - intros p. apply (Hrest (Some (p, s))). cbn. by rewrite Eh.
  - apply (Hrest None). cbn. by rewrite Eh.
Qed.
End Links.
