(* ===== verification/CJsonBuild.v ===== *)
(** * lib/cJSON.c over a heap: constructors, arrays and duplication.

    A constructor makes the tree CJson says out of new blocks, or returns NULL with
    every block it had taken freed again. *)

From S2P Require Import Prelude CLib CFloat CJson CHeap CJsonHeap CJsonLinks.

(** No node of the tree is a reference. *)
Fixpoint no_refs (l : layout) : bool :=
  match l with
  | Own _ _ _ _ _ _ ch => forallb no_refs ch
  | Ref _ _ _ _ _ _ _ => false
  end.

(** What a constructor returns: the address of a new tree of value [j] that owns the
    cells [P], or NULL and nothing. *)
Definition makes (ro : cells node) (o : option cJSON) (r : ptr) (P : cells node) : Prop :=
  match o with
  | Some j => exists l, r = Some (addr l) /\ erase l = j /\ ok ro l /\ no_refs l = true /\ P ≡ₚ own None None l
  | None => r = None /\ P = []
  end.

Section Build.
  Context (malloc : heap node -> Z -> ptr) (hooks : Z -> bool) (ro : cells node).
  Hypothesis malloc_ok : forall h n,
    if hooks n then exists a, malloc h n = Some a /\ h !! a = None else malloc h n = None.

Lemma not_const_ok t k : is_const t = false -> const_ok ro t k.
Proof. intros H H'. congruence. Qed.

Lemma key_cells_None t : key_cells t None = [].
Proof. unfold key_cells. by destruct (is_const t). Qed.

(** ** Leaves *)

Lemma create_of_type_spec t :
  is_ref t = false ->
  spec ro [] (create_of_type malloc t) (makes ro (with_type t (CJson.cJSON_New_Item hooks))).
Proof.
  intros Ht. unfold create_of_type. eapply New_Item_spec; [done|]. unfold CJson.cJSON_New_Item.
  destruct (hooks sizeof_cJSON); [|by apply spec_ret].
  intros p. repeat sp_step. apply spec_ret. exists (Own p t None 0 zero_double None []).
  split_and!; [done..| |done|]; [by repeat split|].
  by rewrite own_Own, key_cells_None.
Qed.

Lemma CreateNumber_spec num :
  spec ro [] (snowflake_cJSON_CreateNumber malloc num) (makes ro (CJson.snowflake_cJSON_CreateNumber hooks num)).
Proof.
  unfold snowflake_cJSON_CreateNumber, CJson.snowflake_cJSON_CreateNumber. eapply New_Item_spec; [done|].
  unfold CJson.cJSON_New_Item. destruct (hooks sizeof_cJSON); [|by apply spec_ret].
  intros p. repeat sp_step. apply spec_ret. exists (Own p cJSON_Number None (saturate_int num) num None []).
  split_and!; [done..| |done|done]. by repeat split.
Qed.

(** A string whose copy fails: the new item is deleted. *)
Lemma create_string_of_type_spec t sp st s :
  is_ref t = false -> is_const t = false -> (sp, Text st s) ∈ ro ->
  spec ro [] (create_string_of_type malloc t (Some sp)) (makes ro (CJson.create_string_of_type t hooks (Some s))).
Proof.
  intros Ht Hc Hs. unfold create_string_of_type, CJson.create_string_of_type.
  eapply New_Item_spec; [done|]. unfold CJson.cJSON_New_Item.
  destruct (hooks sizeof_cJSON); [|by apply spec_ret].
  intros p. repeat sp_step. eapply (strdup_spec _ _ _ malloc_ok _ sp st s).
  { apply elem_of_app. by right. }
  unfold CJson.cJSON_strdup. destruct (hooks (strlen s + 1)).
  - intros q. repeat sp_step. apply spec_ret.
    set (l := Own p t (Some (q, s)) 0 zero_double None []).
    exists l. split_and!; [done..| |done|].
    + repeat split; [done|by apply not_const_ok].
    + unfold l. rewrite own_Own, key_cells_None. simpl. solve_Permutation.
  - repeat sp_step. set (l := Own p t None 0 zero_double None []).
    apply (spec_call _ _ (own None None l) [] _ _ (fun _ P' => P' = [])).
    + apply (Delete_spec ro l). repeat split; [done|by apply not_const_ok].
    + unfold l. by rewrite own_Own, key_cells_None.
    + intros _ _ ->. by apply spec_ret.
Qed.

(** ** Arrays *)

(** The next child is linked after the last, or becomes the first. *)
Lemma append_link {B} P R pv nx a t vs vi vd k ch it (c : unit -> C B) Q :
  P ≡ₚ own pv nx (Own a t vs vi vd k ch) ++ own None None it ++ R ->
  spec ro (own pv nx (Own a t vs vi vd k (ch ++ [it])) ++ R) (c tt) Q ->
  spec ro P ((if not_null (last_or None ch) then suffix_object (last_or None ch) (Some (addr it))
              else modify (Some a) (set_first (Some (addr it)))) ≫= c) Q.
Proof.
  intros E Hc. apply (spec_perm _ _ _ _ _ E). rewrite own_Own in *. rewrite first_or_app, seg_app, seg_one in Hc.
  destruct ch as [|d ch _] using rev_ind; cbn [last_or not_null].
  - unfold own in *. repeat sp_step. eapply spec_perm; [|exact Hc]. cbn [first_or app]. solve_Permutation.
  - rewrite last_or_app in *. cbn [last_or not_null first_or] in *. unfold suffix_object.
    rewrite seg_app, seg_one in *. cbn [first_or] in *. unfold own in *. repeat sp_step.
    eapply spec_perm; [|exact Hc]. rewrite !first_or_app. cbn [first_or]. solve_Permutation.
Qed.

Section Arrays.
  Context {X : Type} (create : X -> C ptr) (model : X -> option cJSON).
  Context (readable : X -> Prop).
  Hypothesis create_ok : forall x, readable x -> spec ro [] (create x) (makes ro (model x)).

(** The array under construction; a failed element deletes it with its elements. *)
Lemma create_loop_spec xs count a t ch js :
  is_ref t = false -> is_const t = false -> Forall (ok ro) ch -> forallb no_refs ch = true ->
  Forall readable xs ->
  CJson.create_loop model xs count = Done js ->
  spec ro (own None None (Own a t None 0 zero_double None ch))
    (create_loop create xs count (length ch) (Some a) (last_or None ch))
    (makes ro ((fun js => mk_cJSON t None 0 zero_double None (map erase ch ++ js)) <$> js)).
Proof.
  intros Ht Hc. revert xs ch js. induction count as [|count IH]; intros xs ch js Hok Hno Hxs Hjs;
    cbn [create_loop CJson.create_loop] in *.
  - assert (js = Some []) as -> by (destruct xs; cbn in Hjs; congruence).
    assert (create_loop create xs 0 (length ch) (Some a) (last_or None ch) = mret (Some a)) as E
      by (by destruct xs).
    rewrite E. apply spec_ret. exists (Own a t None 0 zero_double None ch).
    cbn [fmap option_fmap option_map]. rewrite app_nil_r.
    split_and!; [done..| |done|done]. split_and!; [done|by apply not_const_ok|by apply ok_children].
  - destruct xs as [|x xs]; [done|]. apply Forall_cons in Hxs as [Hx Hxs]. cbn [CJson.create_loop] in Hjs.
    eapply spec_new; [by apply create_ok|]. intros r P1 Hm.
    destruct (model x) as [j|].
    + apply bind_Done in Hjs as (js' & Hjs & Ejs). injection Ejs as <-.
      destruct Hm as (it & -> & <- & Hit & Hnit & EP). cbn [not_null negb].
      assert (forall A (y z : A), (if Nat.eqb (length ch) 0 then y else z) = (if not_null (last_or None ch) then z else y)) as El.
      { destruct ch as [|d ch _] using rev_ind; [done|]. rewrite last_or_app, length_app. cbn. by rewrite Nat.add_1_r. }
      rewrite El. apply (append_link _ [] None None a t None 0 zero_double None ch it).
      { rewrite EP. solve_Permutation. }
      rewrite app_nil_r. specialize (IH xs (ch ++ [it]) js'). rewrite length_app, last_or_app, Nat.add_1_r in IH.
      eapply spec_post; [apply IH|]; [by apply Forall_app; split; [|repeat constructor]
        |by rewrite forallb_app, Hno; cbn; rewrite Hnit|done|done|].
      intros r P' Hm. destruct js' as [js'|]; [|done]. cbn [fmap option_fmap option_map] in *.
      by rewrite map_app, <- app_assoc in Hm.
    + injection Hjs as <-. destruct Hm as [-> ->]. cbn [not_null negb app].
      eapply spec_bind; [apply (Delete_spec ro (Own a t None 0 zero_double None ch))|].
      * split_and!; [done|by apply not_const_ok|by apply ok_children].
      * intros _ P' ->. by apply spec_ret.
Qed.

Lemma create_array_spec xs count o :
  Forall readable (default [] xs) -> CJson.create_array_of hooks model xs count = Done o ->
  spec ro [] (create_array_of malloc create xs count) (makes ro o).
Proof.
  intros Hxs Ho. unfold create_array_of, CJson.create_array_of in *.
  destruct xs as [xs|]; [|injection Ho as <-; by apply spec_ret].
  destruct (count <? 0); [injection Ho as <-; by apply spec_ret|].
  eapply spec_bind; [by apply create_of_type_spec|]. intros r P' Hm.
  unfold CJson.snowflake_cJSON_CreateArray in Ho.
  destruct (with_type cJSON_Array (CJson.cJSON_New_Item hooks)) as [j|] eqn:Ej.
  - destruct Hm as (l & -> & <- & _ & Hno & E). cbn [not_null]. apply (spec_perm _ _ _ _ _ E).
    unfold CJson.cJSON_New_Item in Ej. destruct (hooks sizeof_cJSON); [|done].
    injection Ej as Ej. apply bind_Done in Ho as (js & Hjs & Ho). injection Ho as <-.
    destruct l as [a t vs vi vd k ch|]; [|done]. cbn [erase] in Ej. injection Ej as <- Evs <- <- Ek Ech.
    destruct vs, k, ch; try done. cbn [addr].
    eapply spec_post; [apply (create_loop_spec _ _ _ _ [] js); auto|].
    intros r P'' Hr. by destruct js.
  - injection Ho as <-. destruct Hm as [-> ->]. by apply spec_ret.
Qed.
End Arrays.

Definition readable_text (p : ptr) (s : option string) : Prop :=
  match p, s with Some p, Some s => exists st, (p, Text st s) ∈ ro | None, None => True | _, _ => False end.

(** ** Duplication *)

(** The copies of a list of children, as [CJson] makes them. *)
Fixpoint dup_all (js : list cJSON) : option (list cJSON) :=
  match js with
  | [] => Some []
  | j :: js =>
      match CJson.snowflake_cJSON_Duplicate hooks j true with
      | None => None
      | Some j' => match dup_all js with Some l => Some (j' :: l) | None => None end
      end
  end.

Definition dup_node (j : cJSON) : option cJSON :=
  match CJson.cJSON_New_Item hooks with
  | None => None
  | Some _ =>
      match dup_field hooks true (valuestring j),
            dup_field hooks (Z.land (type j) cJSON_StringIsConst =? 0) (key j) with
      | Some vs, Some k =>
          Some (mk_cJSON (clear_flag cJSON_IsReference (type j)) vs (valueint j) (valuedouble j) k [])
      | _, _ => None
      end
  end.

Lemma Duplicate_node_eq j recurse :
  CJson.snowflake_cJSON_Duplicate hooks j recurse =
    match dup_node j with
    | None => None
    | Some n => if recurse then (fun js => set_child js n) <$> dup_all (child j) else Some n
    end.
Proof.
  unfold dup_node. destruct j as [t vs vi vd k ch]; cbn [CJson.snowflake_cJSON_Duplicate].
  destruct (CJson.cJSON_New_Item hooks); [|done]. cbn [type valuestring key child valueint valuedouble].
  destruct (dup_field hooks true vs); [|done]. case_match; [|done]. by destruct recurse.
Qed.

Lemma is_ref_clear t : is_ref (clear_flag cJSON_IsReference t) = false.
Proof.
  unfold is_ref, clear_flag. apply negb_false_iff, Z.eqb_eq.
  apply Z.bits_inj'. intros n Hn. rewrite Z.land_spec, Z.ldiff_spec, Z.bits_0.
  destruct (Z.testbit cJSON_IsReference n); cbn; by rewrite ?andb_false_r.
Qed.
Lemma is_const_clear_ref t : is_const (clear_flag cJSON_IsReference t) = is_const t.
Proof.
  unfold is_const, clear_flag. do 2 f_equal. apply Z.bits_inj'. intros n Hn.
  rewrite !Z.land_spec, Z.ldiff_spec. destruct (decide (n = 9)) as [->|Hne].
  - by rewrite (eq_refl : Z.testbit cJSON_IsReference 9 = false), andb_true_r.
  - replace (Z.testbit cJSON_StringIsConst n) with false; [by rewrite !andb_false_r|].
    change cJSON_StringIsConst with (2 ^ 9). by rewrite Z.pow2_bits_false by lia.
Qed.

Abbreviation copy_node t vs vi vd := (Struct (mk_node None None None t (fst <$> vs) vi vd None)).

(** A new item that has failed half way is deleted with the text it has. *)
Lemma delete_copy p t vs vi vd P :
  is_ref t = false ->
  spec ro ((p, copy_node t vs vi vd) :: text_cells vs ++ P)
    (_ ← snowflake_cJSON_Delete (Some p); mret (None : ptr)) (fun r P' => r = None /\ P' ≡ₚ P).
Proof.
  intros Ht. apply (spec_call _ _ (own None None (Own p t vs vi vd None [])) P _ _ (fun _ P' => P' = [])).
  - apply (Delete_spec ro (Own p t vs vi vd None [])). by repeat split.
  - rewrite own_Own, key_cells_None. cbn [siblings app fmap option_fmap option_map fst first_or].
    by rewrite app_nil_r.
  - intros _ _ ->. by apply spec_ret.
Qed.

(** The new item gets its name and is complete. *)
Lemma name_copy p t vs vi vd k (wanted : bool) L :
  is_ref t = false -> const_ok ro t k -> not_null (fst <$> k) = wanted ->
  spec ro (key_cells t k ++ (p, copy_node t vs vi vd) :: text_cells vs ++ L)
    (_ ← modify (Some p) (set_name (fst <$> k));
     if wanted && negb (not_null (fst <$> k)) then _ ← snowflake_cJSON_Delete (Some p); mret None
     else mret (Some p))
    (fun r P' => exists P1, P' ≡ₚ P1 ++ L /\ makes ro (Some (mk_cJSON t (snd <$> vs) vi vd (snd <$> k) [])) r P1).
Proof.
  intros Ht Hk <-. repeat sp_step. rewrite andb_negb_r. apply spec_ret.
  exists (own None None (Own p t vs vi vd k [])). split.
  - rewrite own_Own. cbn [first_or siblings set_name]. rewrite app_nil_r. solve_Permutation.
  - exists (Own p t vs vi vd k []). by split_and!.
Qed.

(** The copy of an optional text. *)
Lemma copy_text {B} vs P (c : ptr -> C B) Q :
  (forall a s, vs = Some (a, s) -> exists st, (a, Text st s) ∈ P ++ ro) ->
  match dup_field hooks true (snd <$> vs) with
  | Some v => forall vs', snd <$> vs' = v -> not_null (fst <$> vs') = not_null (fst <$> vs) ->
      spec ro (text_cells vs' ++ P) (c (fst <$> vs')) Q
  | None => not_null (fst <$> vs) = true -> spec ro P (c None) Q
  end ->
  spec ro P ((if not_null (fst <$> vs) then cJSON_strdup malloc (fst <$> vs) else mret None) ≫= c) Q.
Proof.
  intros Hin Hc. destruct vs as [[a s]|]; cbn [fmap option_fmap option_map fst snd not_null] in *.
  - destruct (Hin a s eq_refl) as [st Ha]. eapply strdup_spec; [done..|].
    unfold dup_field, CJson.cJSON_strdup in Hc. destruct (hooks (strlen s + 1)); [|by apply Hc].
    intros p. by apply (Hc (Some (p, s))).
  - apply spec_ret_bind. by apply (Hc None).
Qed.

Lemma duplicate_node_spec a t vs vi vd k ch pv nx :
  let l := Own a t vs vi vd k ch in
  ok ro l ->
  spec ro (own pv nx l) (duplicate_node malloc (Some a))
    (fun r P' => exists P1, P' ≡ₚ P1 ++ own pv nx l /\ makes ro (dup_node (erase l)) r P1).
Proof.
  intros l (_ & Hkey & _). unfold duplicate_node. eapply New_Item_spec; [done|].
  unfold dup_node, CJson.cJSON_New_Item. destruct (hooks sizeof_cJSON); [|apply spec_ret; by exists []].
  intros p. unfold l. cbn [erase type valuestring key valueint valuedouble].
  set (t' := clear_flag cJSON_IsReference t). rewrite own_Own.
  repeat sp_step. apply copy_text.
  { intros b s ->. exists false. apply elem_of_app. left. do 2 right. cbn. left. }
  destruct (dup_field hooks true (snd <$> vs)) as [v|].
  2: { intros ->. repeat sp_step. eapply spec_post; [apply (delete_copy p t' None vi vd), is_ref_clear|].
       intros r P' [-> E]. exists []. by rewrite E. }
  intros vs' <- En. repeat sp_step. rewrite En, andb_negb_r.
  replace (Z.land t cJSON_StringIsConst =? 0) with (negb (is_const t)) by apply negb_involutive.
  destruct (is_const t) eqn:Ec; cbn [negb].
  - replace (if not_null (fst <$> k) then mret (fst <$> k) else mret None) with (mret (fst <$> k) : C ptr)
      by (by destruct k). sp_step.
    replace (dup_field hooks false (snd <$> k)) with (Some (snd <$> k)) by (by destruct k as [[]|]).
    apply (spec_perm _ _ (key_cells t' k ++ (p, copy_node t' vs' vi vd) :: text_cells vs' ++
      own pv nx (Own a t vs vi vd k ch))).
    { rewrite own_Own. unfold key_cells, t'. rewrite is_const_clear_ref, Ec. cbn [app]. solve_Permutation. }
    apply name_copy; [apply is_ref_clear|by intros _; apply Hkey|done].
  - apply copy_text.
    { intros b s ->. exists false. unfold key_cells. rewrite Ec. cbn. set_solver. }
    destruct (dup_field hooks true (snd <$> k)) as [v|].
    + intros k' <- Ek. apply (spec_perm _ _ (key_cells t' k' ++ (p, copy_node t' vs' vi vd) :: text_cells vs' ++
        own pv nx (Own a t vs vi vd k ch))).
      { rewrite own_Own. unfold key_cells, t'. rewrite is_const_clear_ref, Ec. solve_Permutation. }
      apply name_copy; [apply is_ref_clear|intros H; unfold t' in H; by rewrite is_const_clear_ref, Ec in H|done].
    + intros ->. repeat sp_step. eapply spec_post; [apply (delete_copy p t' vs' vi vd), is_ref_clear|].
      intros r P' [-> E]. exists []. by rewrite E.
Qed.

(** [c] copies the tree [l]: the original is as before, the copy is made of new blocks. *)
Definition copies (recurse : bool) (l : layout) (c : C ptr) : Prop :=
  forall pv nx, spec ro (own pv nx l) c (fun r P' => exists P1,
    P' ≡ₚ P1 ++ own pv nx l /\ makes ro (CJson.snowflake_cJSON_Duplicate hooks (erase l) recurse) r P1).

Lemma duplicate_children_spec dup fuel todo pv p t vs vi vd k ch :
  (length todo <= fuel)%nat -> Forall (fun c => copies true c (dup (Some (addr c)))) todo ->
  let new := Own p t vs vi vd k in
  ok ro (new ch) -> no_refs (new ch) = true ->
  spec ro (own None None (new ch) ++ seg pv todo None)
    (duplicate_children dup fuel (Some p) (first_or None todo) (last_or None ch))
    (fun r P' => exists P1, P' ≡ₚ P1 ++ seg pv todo None /\
       makes ro ((fun js => mk_cJSON t (snd <$> vs) vi vd (snd <$> k) (map erase ch ++ js))
                   <$> dup_all (map erase todo)) r P1).
Proof.
  intros Hf Hdup new. revert fuel pv ch Hf.
  induction Hdup as [|c todo Hc _ IH]; intros fuel pv ch Hf Hok Hno.
  - assert (duplicate_children dup fuel (Some p) (first_or None []) (last_or None ch) = mret (Some p)) as ->
      by (by destruct fuel).
    apply spec_ret. exists (own None None (new ch)). split; [done|]. exists (new ch).
    cbn [map dup_all fmap option_fmap option_map erase new]. by rewrite app_nil_r.
  - destruct fuel as [|fuel]; [simpl in Hf; lia|]. cbn [first_or duplicate_children map dup_all].
    rewrite seg_cons. set (c0 := own pv (first_or None todo) c). set (rest := seg (Some (addr c)) todo None).
    eapply (spec_call _ _ c0 (own None None (new ch) ++ rest)); [apply Hc|solve_Permutation|].
    intros r P' (P1 & EP & Hm). apply (spec_perm _ _ (P1 ++ own None None (new ch) ++ c0 ++ rest)).
    { rewrite EP. fold c0. solve_Permutation. }
    destruct (CJson.snowflake_cJSON_Duplicate hooks (erase c) true) as [j|].
    + destruct Hm as (it & -> & <- & Hit & Hnit & E1). cbn [not_null negb].
      apply (append_link _ (c0 ++ rest) None None p t vs vi vd k ch it); [rewrite E1; solve_Permutation|].
      unfold c0 at 1. unfold own at 2. rewrite <- app_comm_cons. sp_step.
      assert (ok ro (new (ch ++ [it])) /\ no_refs (new (ch ++ [it])) = true) as [Hok' Hno'].
      { cbn [new ok no_refs] in *. rewrite ok_children in *. rewrite forallb_app, Forall_app. cbn.
        rewrite Hno, Hnit. naive_solver. }
      specialize (IH fuel (Some (addr c)) (ch ++ [it]) ltac:(simpl in Hf; lia) Hok' Hno').
      rewrite last_or_app in IH. apply spec_tail.
      eapply (spec_call _ _ (own None None (new (ch ++ [it])) ++ rest) c0); [apply IH|unfold c0, own; solve_Permutation|].
      intros r P2' (P2 & EP2 & Hm). apply spec_ret. exists P2. split; [rewrite EP2; fold rest; solve_Permutation|].
      destruct (dup_all (map erase todo)); [|done]. cbn [fmap option_fmap option_map] in *.
      by rewrite map_app, <- app_assoc in Hm.
    + destruct Hm as [-> ->]. cbn [not_null negb app].
      apply (spec_call _ _ (own None None (new ch)) (c0 ++ rest) _ _ (fun _ P' => P' = []));
        [by apply (Delete_spec ro (new ch))|done|].
      intros _ _ ->. apply spec_ret. by exists [].
Qed.

Lemma size_in c ch : c ∈ ch -> (size_of c <= sizes ch)%nat.
Proof.
  intros H. induction ch as [|d ch IH]; [by apply not_elem_of_nil in H|]. simpl.
  apply elem_of_cons in H as [->|H]; [lia|]. specialize (IH H). lia.
Qed.

Lemma duplicate_loop_spec fuel l recurse :
  (size_of l <= fuel)%nat -> ok ro l -> no_refs l = true ->
  copies recurse l (duplicate_loop malloc fuel (Some (addr l)) recurse).
Proof.
  revert l recurse. induction fuel as [|fuel IH]; intros l recurse Hf Hok Hno pv nx; [destruct l; simpl in Hf; lia|].
  destruct l as [a t vs vi vd k ch|]; [|done]. cbn [duplicate_loop addr].
  eapply spec_bind; [by apply duplicate_node_spec|]. intros r P' (P1 & EP & Hm).
  apply (spec_perm _ _ _ _ _ EP). rewrite Duplicate_node_eq.
  destruct (dup_node (erase (Own a t vs vi vd k ch))) as [n|] eqn:En.
  2: { destruct Hm as [-> ->]. apply spec_ret. by exists []. }
  destruct Hm as (new & -> & <- & Hnew & Hnnew & E1). cbn [not_null negb].
  destruct recurse; cbn [negb].
  2: { apply spec_ret. exists P1. split; [done|]. by exists new. }
  rewrite E1, own_Own. sp_step. rewrite <- own_Own.
  destruct new as [p t' vs' vi' vd' k' ch'|]; [|done].
  assert (ch' = []) as ->.
  { apply (f_equal (fmap child)) in En. unfold dup_node in En. repeat case_match; try done.
    cbn in En. injection En as En. by destruct ch'. }
  apply spec_tail. eapply (spec_call _ _ (own None None (Own p t' vs' vi' vd' k' []) ++ seg None ch None)
    ((a, Struct (root pv nx (Own a t vs vi vd k ch))) :: text_cells vs ++ key_cells t k)).
  - apply (duplicate_children_spec _ fuel ch None p t' vs' vi' vd' k' []); [| |done..].
    + simpl in Hf. pose proof (length_sizes ch). lia.
    + destruct Hok as (_ & _ & Hok%ok_children). cbn [no_refs] in Hno. rewrite forallb_forall in Hno.
      apply Forall_forall. intros c Hc. apply IH.
      * simpl in Hf. pose proof (size_in c ch Hc). lia.
      * rewrite Forall_forall in Hok. by apply Hok.
      * by apply Hno, list_elem_of_In.
  - rewrite (own_Own pv nx). solve_Permutation.
  - intros r P2' (P2 & EP2 & Hm). apply spec_ret. exists P2. split.
    + rewrite EP2, own_Own. solve_Permutation.
    + cbn [erase child]. by destruct (dup_all (map erase ch)).
Qed.

(** [Duplicate]: the copy CJson describes, from new blocks, or NULL with none left. *)
Lemma Duplicate_spec l recurse :
  ok ro l -> no_refs l = true -> copies recurse l (snowflake_cJSON_Duplicate malloc (Some (addr l)) recurse).
Proof.
  intros Hok Hno pv nx. apply spec_fuel. intros n Hn. apply duplicate_loop_spec; [|done..].
  pose proof (size_body l). unfold own in Hn. simpl in Hn. lia.
Qed.
End Build.
