(* ===== verification/CJsonParseHeap.v ===== *)
(** * lib/cJSON.c over a heap: the parser.

    The parser of CJsonParse with the items as structs: an element is linked into its
    list before it is parsed, a name is parsed as a text and moved, and a failure
    deletes the list so far.  It gives the tree of CJsonParse or, when that gives none,
    leaves no block behind. *)

From S2P Require Import Prelude CLib CFloat CJson CJsonPrint CJsonParse CHeap CJsonHeap CJsonLinks CJsonBuild.

Section Code.
  Context (malloc : heap node -> Z -> ptr).

Definition parse_number (item : ptr) (b : parse_buffer) : C (bool * parse_buffer) :=
  let number_c_string := number_chars (here b) (Nat.min 63 (parse_len b - parse_off b)) in
  let r := strtod number_c_string in
  if (sd_end r =? 0)%nat then mret (false, b)
  else
    _ ← modify item (set_number (saturate_int (sd_val r)) (sd_val r));
    _ ← modify item (set_ntype cJSON_Number);
    mret (true, set_off (parse_off b + sd_end r) b).

(** The output block is filled by the second pass; a failure there frees it. *)
Definition parse_string (item : ptr) (b : parse_buffer) : C (bool * parse_buffer) :=
  let fail n := mret (false, set_off n b) in
  c ← lift (char_at (here b) 0);
  if negb (Ascii.eqb c quote) then fail (parse_off b + 1)%nat
  else
    let input := str_drop 1 (here b) in
    match scan_literal input with
    | None => fail (parse_off b + 1)%nat
    | Some (len, skipped_bytes) =>
        let allocation_length := (len + 1 - skipped_bytes)%nat in
        output ← alloc malloc (Z.of_nat (allocation_length + 1)) (Text false "");
        match output with
        | None => fail (parse_off b + 1)%nat
        | Some _ =>
            r ← lift (unescape_loop len input len (allocation_length + 1) "");
            match r with
            | (None, n) => _ ← dealloc output; fail (parse_off b + 1 + (len - n))%nat
            | (Some out, _) =>
                out ← lift (put (allocation_length + 1) out (String nul ""));
                _ ← fill output (cstr out);
                _ ← modify item (set_ntype cJSON_String);
                _ ← modify item (set_vstring output);
                mret (true, set_off (parse_off b + 1 + len + 1) b)
            end
        end
    end.

(** [new_item] starts the list or is linked after [current_item]. *)
Definition attach (head current_item new_item : ptr) : C ptr :=
  match head with
  | None => mret new_item
  | Some _ =>
      _ ← modify current_item (set_next new_item);
      _ ← modify new_item (set_prev current_item);
      mret head
  end.

Section Loops.
  Context (parse_value : ptr -> parse_buffer -> C (bool * parse_buffer)).

Fixpoint parse_elements (fuel : nat) (head current_item : ptr) (b : parse_buffer)
  : C (bool * ptr * parse_buffer) :=
  match fuel with
  | O => no_fuel
  | S fuel =>
      new_item ← cJSON_New_Item malloc;
      match new_item with
      | None => mret (false, head, b)
      | Some _ =>
          head ← attach head current_item new_item;
          b ← lift (buffer_skip_whitespace (set_off (parse_off b + 1) b));
          r ← parse_value new_item b;
          if negb (fst r) then mret (false, head, snd r)
          else
            b ← lift (buffer_skip_whitespace (snd r));
            more ← lift (at_char b ","%char);
            if more : bool then parse_elements fuel head new_item b else mret (true, head, b)
      end
  end.

Fixpoint parse_members (fuel : nat) (head current_item : ptr) (b : parse_buffer)
  : C (bool * ptr * parse_buffer) :=
  match fuel with
  | O => no_fuel
  | S fuel =>
      new_item ← cJSON_New_Item malloc;
      match new_item with
      | None => mret (false, head, b)
      | Some _ =>
          head ← attach head current_item new_item;
          b ← lift (buffer_skip_whitespace (set_off (parse_off b + 1) b));
          r ← parse_string new_item b;
          if negb (fst r) then mret (false, head, snd r)
          else
            b ← lift (buffer_skip_whitespace (snd r));
            n ← load new_item;
            _ ← modify new_item (set_name (vstring n));
            _ ← modify new_item (set_vstring None);
            colon ← lift (at_char b ":"%char);
            if negb colon then mret (false, head, b)
            else
              b ← lift (buffer_skip_whitespace (set_off (parse_off b + 1) b));
              r ← parse_value new_item b;
              if negb (fst r) then mret (false, head, snd r)
              else
                b ← lift (buffer_skip_whitespace (snd r));
                more ← lift (at_char b ","%char);
                if more : bool then parse_members fuel head new_item b else mret (true, head, b)
      end
  end.

Definition parse_bracketed (open close : ascii) (checked : bool)
    (loop : parse_buffer -> C (bool * ptr * parse_buffer)) (t : Z) (item : ptr) (b : parse_buffer)
  : C (bool * parse_buffer) :=
  if (CJSON_NESTING_LIMIT <=? parse_depth b)%nat then mret (false, b)
  else
    let b := set_pdepth (parse_depth b + 1) b in
    ok ← lift (if checked then at_char b open else c ← char_at (here b) 0; Done (Ascii.eqb c open));
    if negb ok then mret (false, b)
    else
      b ← lift (buffer_skip_whitespace (set_off (parse_off b + 1) b));
      empty ← lift (at_char b close);
      let success head b :=
        _ ← modify item (set_ntype t);
        _ ← modify item (set_first head);
        mret (true, set_off (parse_off b + 1) (set_pdepth (parse_depth b - 1) b)) in
      if empty : bool then success None b
      else if negb (can_access_at_index b 0) then o ← lift (dec_size (parse_off b)); mret (false, set_off o b)
      else
        o ← lift (dec_size (parse_off b));
        r ← loop (set_off o b);
        let fail b := _ ← (if not_null (snd (fst r)) then snowflake_cJSON_Delete (snd (fst r)) else mret tt);
                      mret (false, b) in
        if negb (fst (fst r)) then fail (snd r)
        else
          closed ← lift (at_char (snd r) close);
          if closed : bool then success (snd (fst r)) (snd r) else fail (snd r).

Definition parse_array (item : ptr) (b : parse_buffer) : C (bool * parse_buffer) :=
  parse_bracketed "[" "]" false (fun b => parse_elements (parse_len b) None None b) cJSON_Array item b.
Definition parse_object (item : ptr) (b : parse_buffer) : C (bool * parse_buffer) :=
  parse_bracketed "{" "}" true (fun b => parse_members (parse_len b) None None b) cJSON_Object item b.
End Loops.

Fixpoint parse_value (fuel : nat) (item : ptr) (b : parse_buffer) : C (bool * parse_buffer) :=
  match fuel with
  | O => no_fuel
  | S fuel =>
      if can_read b 4 && String.prefix "null" (here b) then
        _ ← modify item (set_ntype cJSON_NULL); mret (true, set_off (parse_off b + 4) b)
      else if can_read b 5 && String.prefix "false" (here b) then
        _ ← modify item (set_ntype cJSON_False); mret (true, set_off (parse_off b + 5) b)
      else if can_read b 4 && String.prefix "true" (here b) then
        _ ← modify item (set_ntype cJSON_True);
        _ ← modify item (fun n => set_number 1 (vdouble n) n);
        mret (true, set_off (parse_off b + 4) b)
      else if negb (can_access_at_index b 0) then mret (false, b)
      else
        c ← lift (char_at (here b) 0);
        if Ascii.eqb c quote then parse_string item b
        else if (code c =? 45) || is_digit c then parse_number item b
        else if Ascii.eqb c "[" then parse_array (parse_value fuel) item b
        else if Ascii.eqb c "{" then parse_object (parse_value fuel) item b
        else mret (false, b)
  end.

Definition snowflake_cJSON_ParseWithOpts (value : option string) (require_null_terminated : bool)
  : C (ptr * nat) :=
  match value with
  | None => mret (None, O)
  | Some value =>
      let len := (String.length value + 1)%nat in
      let b := mk_parse (value +:+ String nul "") len 0 0 in
      let stop b := if (parse_off b <? len)%nat then parse_off b else (len - 1)%nat in
      item ← cJSON_New_Item malloc;
      match item with
      | None => mret (None, stop b)
      | Some _ =>
          let fail b := _ ← snowflake_cJSON_Delete item; mret (None, stop b) in
          match skip_utf8_bom b with
          | None => fail b
          | Some b1 =>
              b2 ← lift (buffer_skip_whitespace b1);
              r ← parse_value parse_fuel item b2;
              if negb (fst r) then fail (snd r)
              else if require_null_terminated then
                b4 ← lift (buffer_skip_whitespace (snd r));
                if (parse_len b4 <=? parse_off b4)%nat then fail b4
                else
                  c ← lift (char_at (here b4) 0);
                  if negb (code c =? 0) then fail b4 else mret (item, parse_off b4)
              else mret (item, parse_off (snd r))
          end
      end
  end.
Definition snowflake_cJSON_Parse (value : option string) : C ptr :=
  r ← snowflake_cJSON_ParseWithOpts value false; mret (fst r).
End Code.

Section Specs.
  Context (malloc : heap node -> Z -> ptr) (hooks : Z -> bool) (ro : cells node).
  Hypothesis malloc_ok : forall h n,
    if hooks n then exists a, malloc h n = Some a /\ h !! a = None else malloc h n = None.

(** A flag-free item with a name of its own and nothing else yet. *)
Definition blank (a : positive) (t vi : Z) (vd : double) (k : option (positive * string)) : layout :=
  Own a t None vi vd k [].

Lemma own_plain pv nx a t vs vi vd k ch :
  is_const t = false ->
  own pv nx (Own a t vs vi vd k ch) =
    (a, Struct (mk_node nx pv (first_or None ch) t (fst <$> vs) vi vd (fst <$> k))) ::
    text_cells vs ++ text_cells k ++ seg None ch None.
Proof. intros H. rewrite own_Own. unfold key_cells. by rewrite H. Qed.

Definition tree (l : layout) : Prop := ok ro l /\ no_refs l = true.
Lemma tree_plain a t vs vi vd k ch :
  is_ref t = false -> is_const t = false -> Forall tree ch -> tree (Own a t vs vi vd k ch).
Proof.
  intros Hr Hc Hch. unfold tree in *. cbn [ok no_refs]. rewrite ok_children, forallb_forall.
  split_and!; [done|by apply not_const_ok| |].
  - eapply Forall_impl; [exact Hch|]. by intros x [? _].
  - intros x Hx%list_elem_of_In. rewrite Forall_forall in Hch. by apply Hch.
Qed.

(** The item at [a] now holds the value CJsonParse gives, or the call failed and it is
    still a tree; the buffer is where CJsonParse leaves it. *)
Definition parses (pv nx : ptr) (a : positive) (r : option cJSON * parse_buffer) (x : bool * parse_buffer)
    (P : cells node) : Prop :=
  snd x = snd r /\ exists l, P ≡ₚ own pv nx l /\ addr l = a /\ tree l /\
    match fst r with Some j => fst x = true /\ erase l = j | None => fst x = false end.

Lemma parses_failed pv nx l b P :
  tree l -> P ≡ₚ own pv nx l -> parses pv nx (addr l) (None, b) (false, b) P.
Proof. intros Hl E. split; [done|]. by exists l. Qed.

Lemma parse_number_spec pv nx a t vi vd k b r :
  is_ref t = false -> is_const t = false ->
  let l := blank a t vi vd k in
  CJsonParse.parse_number (erase l) b = Done r ->
  spec ro (own pv nx l) (parse_number (Some a) b) (parses pv nx a r).
Proof.
  intros Hr Hc l Hm. unfold parse_number, CJsonParse.parse_number in *. cbn zeta in *.
  set (d := strtod _) in *. destruct (sd_end d =? 0)%nat.
  - injection Hm as <-. apply spec_ret. apply (parses_failed pv nx l); [by apply tree_plain|done].
  - injection Hm as <-. unfold l, blank. rewrite own_plain by done. repeat sp_step. apply spec_ret. split; [done|].
    exists (Own a cJSON_Number None (saturate_int (sd_val d)) (sd_val d) k []). rewrite own_plain by done.
    by split_and!; [reflexivity|done|apply tree_plain|].
Qed.

Lemma parse_string_spec pv nx a t vi vd k b r :
  is_ref t = false -> is_const t = false ->
  let l := blank a t vi vd k in
  CJsonParse.parse_string hooks (erase l) b = Done r ->
  spec ro (own pv nx l) (parse_string malloc (Some a) b) (parses pv nx a r).
Proof.
  intros Hr Hc l Hm. unfold parse_string, CJsonParse.parse_string in *. cbn zeta in *.
  assert (forall b P, P ≡ₚ own pv nx l -> parses pv nx a (None, b) (false, b) P) as Hfail
    by (intros b' P E; apply (parses_failed pv nx l); [by apply tree_plain|done]).
  apply bind_Done in Hm as (c & Ec & Hm). eapply spec_lift; [exact Ec|].
  destruct (negb (Ascii.eqb c quote)); [injection Hm as <-; by apply spec_ret, Hfail|].
  destruct (scan_literal _) as [[len skipped]|]; [|injection Hm as <-; by apply spec_ret, Hfail].
  eapply (spec_alloc _ _ (hooks _)); [intros h; apply malloc_ok|].
  destruct (hooks _); [|injection Hm as <-; by apply spec_ret, Hfail].
  intros p. apply bind_Done in Hm as ([[out|] n] & Eu & Hm); (eapply spec_lift; [exact Eu|]).
  - apply bind_Done in Hm as (out' & Eo & Hm). injection Hm as <-. eapply spec_lift; [exact Eo|].
    unfold l, blank. rewrite own_plain by done. eapply spec_fill; [reflexivity|]. repeat sp_step.
    apply spec_ret. split; [done|]. exists (Own a cJSON_String (Some (p, cstr out')) vi vd k []).
    rewrite own_plain by done. by split_and!; [cbn; solve_Permutation|done|apply tree_plain|].
  - injection Hm as <-. repeat sp_step. by apply spec_ret, Hfail.
Qed.

(** ** Lists under construction *)

Lemma seg_snoc ls l : seg None (ls ++ [l]) None = seg None ls (Some (addr l)) ++ own (last_or None ls) None l.
Proof. by rewrite seg_app, seg_one. Qed.

Abbreviation fresh_item p := (blank p 0 0 zero_double None).

Lemma attach_spec {B} p ls (c : ptr -> C B) Q :
  spec ro (own (last_or None ls) None (fresh_item p) ++ seg None ls (Some p)) (c (first_or (Some p) ls)) Q ->
  spec ro ((p, Struct zero_node) :: seg None ls None)
    (attach (first_or None ls) (last_or None ls) (Some p) ≫= c) Q.
Proof.
  intros Hc. destruct ls as [|d ls _] using rev_ind; [by apply spec_ret_bind|].
  rewrite !first_or_app, last_or_app, !seg_app, !seg_one in *. cbn [first_or last_or] in *.
  assert (exists q, first_or (Some (addr d)) ls = Some q) as [q Eq] by (destruct ls; by eexists).
  rewrite Eq in *. cbn [attach]. unfold own in *. repeat sp_step.
  eapply spec_perm; [|exact Hc]. cbn. solve_Permutation.
Qed.

Definition listed (r : option (list cJSON) * parse_buffer) (x : bool * ptr * parse_buffer) (P : cells node) : Prop :=
  snd x = snd r /\ exists ls, P ≡ₚ seg None ls None /\ snd (fst x) = first_or None ls /\ Forall tree ls /\
    match fst r with Some js => fst (fst x) = true /\ map erase ls = js | None => fst (fst x) = false end.

(** The list ends in an item at which the parser gave up. *)
Lemma listed_failed ls l b P :
  Forall tree ls -> tree l -> P ≡ₚ own (last_or None ls) None l ++ seg None ls (Some (addr l)) ->
  listed (None, b) (false, first_or (Some (addr l)) ls, b) P.
Proof.
  intros Hls Hl E. split; [done|]. exists (ls ++ [l]).
  split_and!; [rewrite E, seg_snoc; solve_Permutation|by rewrite first_or_app|by apply Forall_app; split; [|constructor]|done].
Qed.

Section Loops.
  Context (model : cJSON -> parse_buffer -> outcome (option cJSON * parse_buffer))
    (code : ptr -> parse_buffer -> C (bool * parse_buffer)).
  Hypothesis value_ok : forall pv nx a t vi vd k b r,
    is_ref t = false -> is_const t = false -> model (erase (blank a t vi vd k)) b = Done r ->
    spec ro (own pv nx (blank a t vi vd k)) (code (Some a) b) (parses pv nx a r).

Lemma parse_string_value item b j b' :
  CJsonParse.parse_string hooks item b = Done (Some j, b') ->
  exists s, j = mk_cJSON cJSON_String (Some s) (valueint item) (valuedouble item) (key item) (child item).
Proof.
  unfold CJsonParse.parse_string. intros H. apply bind_Done in H as (c & _ & H).
  destruct (negb _); [done|]. destruct (scan_literal _) as [[len sk]|]; [|done]. cbn zeta in H.
  destruct (hooks _); [|done]. apply bind_Done in H as ([[out|] n] & _ & H); [|done].
  apply bind_Done in H as (out' & _ & H). injection H as <- <-. by eexists.
Qed.

(** The element after the last, which is linked already: its value is parsed and the list goes on or ends. *)
Lemma member_value (next_step : ptr -> parse_buffer -> C (bool * ptr * parse_buffer)) ls p t vi vd k b r
    (step_model : list cJSON -> parse_buffer -> outcome (option (list cJSON) * parse_buffer)) :
  is_ref t = false -> is_const t = false -> Forall tree ls ->
  (r0 ← model (erase (blank p t vi vd k)) b;
   match r0 with
   | (None, b) => Done (None, b)
   | (Some x, b) =>
       b ← buffer_skip_whitespace b;
       more ← at_char b ","%char;
       if more : bool then step_model (map erase ls ++ [x]) b else Done (Some (map erase ls ++ [x]), b)
   end) = Done r ->
  (forall ls' b r, Forall tree ls' -> step_model (map erase ls') b = Done r -> last_or None ls' = Some p ->
     spec ro (seg None ls' None) (next_step (first_or None ls') b) (listed r)) ->
  spec ro (own (last_or None ls) None (blank p t vi vd k) ++ seg None ls (Some p))
    (r ← code (Some p) b;
     if negb (fst r) then mret (false, first_or (Some p) ls, snd r)
     else
       b ← lift (buffer_skip_whitespace (snd r));
       more ← lift (at_char b ","%char);
       if more : bool then next_step (first_or (Some p) ls) b else mret (true, first_or (Some p) ls, b))
    (listed r).
Proof.
  intros Hr Hc Hls Hm Hnext. apply bind_Done in Hm as ([o b2] & E2 & Hm).
  eapply (spec_call _ _ (own (last_or None ls) None (blank p t vi vd k)) (seg None ls (Some p)));
    [eapply value_ok; [done|done|exact E2]|done|].
  intros [ok b'] P' (Eb & l & EP & <- & Hl & Ho). cbn [fst snd] in *. subst b'.
  assert (P' ++ seg None ls (Some (addr l)) ≡ₚ own (last_or None ls) None l ++ seg None ls (Some (addr l))) as EP'
    by (by rewrite EP).
  destruct o as [x|].
  - destruct Ho as [-> <-]. cbn [negb].
    apply bind_Done in Hm as (b3 & E3 & Hm). eapply spec_lift; [exact E3|].
    apply bind_Done in Hm as (more & E4 & Hm). eapply spec_lift; [exact E4|].
    assert (Forall tree (ls ++ [l])) as Hls' by (by apply Forall_app; split; [|constructor]).
    rewrite EP'. rewrite Permutation_app_comm, <- seg_snoc.
    replace (first_or (Some (addr l)) ls) with (first_or None (ls ++ [l])) by (by rewrite first_or_app).
    replace (map erase ls ++ [erase l]) with (map erase (ls ++ [l])) in Hm by (by rewrite map_app).
    destruct more.
    + apply Hnext; [done|done|by rewrite last_or_app].
    + injection Hm as <-. apply spec_ret. split; [done|]. by exists (ls ++ [l]).
  - subst ok. injection Hm as <-. apply spec_ret. by apply listed_failed.
Qed.

Lemma parse_elements_spec fuel ls b r :
  Forall tree ls -> CJsonParse.parse_elements hooks model fuel (map erase ls) b = Done r ->
  spec ro (seg None ls None) (parse_elements malloc code fuel (first_or None ls) (last_or None ls) b) (listed r).
Proof.
  revert ls b r. induction fuel as [|fuel IH]; intros ls b r Hls Hm; [done|].
  cbn [CJsonParse.parse_elements parse_elements] in *. eapply New_Item_spec; [done|].
  unfold CJson.cJSON_New_Item in Hm. destruct (hooks sizeof_cJSON).
  2: { injection Hm as <-. apply spec_ret. split; [done|]. by exists ls. }
  intros p. apply attach_spec. apply bind_Done in Hm as (b1 & E1 & Hm). eapply spec_lift; [exact E1|].
  eapply (member_value (fun h b => parse_elements malloc code fuel h (Some p) b)); [done|done|done|exact Hm|].
  intros ls' b' r' Hls' Hm' El. rewrite <- El. by apply IH.
Qed.

Lemma parse_members_spec fuel ls b r :
  Forall tree ls -> CJsonParse.parse_members hooks model fuel (map erase ls) b = Done r ->
  spec ro (seg None ls None) (parse_members malloc code fuel (first_or None ls) (last_or None ls) b) (listed r).
Proof.
  revert ls b r. induction fuel as [|fuel IH]; intros ls b r Hls Hm; [done|].
  cbn [CJsonParse.parse_members parse_members] in *. eapply New_Item_spec; [done|].
  unfold CJson.cJSON_New_Item in Hm. destruct (hooks sizeof_cJSON).
  2: { injection Hm as <-. apply spec_ret. split; [done|]. by exists ls. }
  intros p. apply attach_spec. apply bind_Done in Hm as (b1 & E1 & Hm). eapply spec_lift; [exact E1|].
  apply bind_Done in Hm as ([o b2] & E2 & Hm).
  eapply (spec_call _ _ (own (last_or None ls) None (fresh_item p)) (seg None ls (Some p)));
    [by apply (parse_string_spec _ _ p 0 0 zero_double None b1 (o, b2))|done|].
  intros [ok b'] P' (Eb & l & EP & Ea & Hl & Ho). cbn [fst snd] in *. subst b'.
  destruct o as [x|].
  2: { subst ok. injection Hm as <-. apply spec_ret. rewrite <- Ea. apply listed_failed; [done..|]. by rewrite EP, Ea. }
  destruct Ho as [-> <-]. cbn [negb]. apply parse_string_value in E2 as (s & E2).
  destruct l as [a t vs vi vd k ch|]; [|by destruct Hl]. cbn [erase fresh_item blank] in E2. cbn in Ea. subst a.
  injection E2 as -> Evs -> -> Ek Ech. destruct vs as [[q s']|]; [|done]. injection Evs as ->.
  destruct k; [done|]. destruct ch; [|done].
  apply bind_Done in Hm as (b3 & E3 & Hm). eapply spec_lift; [exact E3|].
  rewrite EP, own_plain by done. cbn [app]. repeat sp_step.
  cbn [erase type valuestring valueint valuedouble child] in Hm.
  set (l := blank p cJSON_String 0 zero_double (Some (q, s))).
  eapply (spec_perm _ _ (own (last_or None ls) None l ++ seg None ls (Some p))).
  { unfold l, blank. rewrite own_plain by done. cbn. solve_Permutation. }
  apply bind_Done in Hm as (colon & E4 & Hm). eapply spec_lift; [exact E4|].
  destruct colon; cbn [negb] in *.
  2: { injection Hm as <-. apply spec_ret. by apply (listed_failed ls l); [|apply tree_plain|]. }
  apply bind_Done in Hm as (b4 & E5 & Hm). eapply spec_lift; [exact E5|].
  eapply (member_value (fun h b => parse_members malloc code fuel h (Some p) b)); [done|done|done|exact Hm|].
  intros ls' b' r' Hls' Hm' El. rewrite <- El. by apply IH.
Qed.
End Loops.

(** ** Brackets and values *)

Lemma Delete_list ls : Forall tree ls ->
  spec ro (seg None ls None) (snowflake_cJSON_Delete (first_or None ls)) (fun _ P' => P' = []).
Proof.
  intros Hls. apply spec_fuel. intros n Hn. pose proof (sizes_seg None ls None). apply delete_loop_spec; [|lia].
  eapply Forall_impl; [exact Hls|]. by intros x [? _].
Qed.

Lemma parse_bracketed_spec open close checked model code ty pv nx a t vi vd k b r :
  is_ref t = false -> is_const t = false -> is_ref ty = false -> is_const ty = false ->
  (forall b r, model b = Done r -> spec ro [] (code b) (listed r)) ->
  CJsonParse.parse_bracketed open close checked model ty (erase (blank a t vi vd k)) b = Done r ->
  spec ro (own pv nx (blank a t vi vd k)) (parse_bracketed open close checked code ty (Some a) b) (parses pv nx a r).
Proof.
  intros Hr Hc Hr' Hc' Hloop Hm. unfold parse_bracketed, CJsonParse.parse_bracketed in *.
  set (l := blank a t vi vd k) in *. cbn zeta in *.
  assert (forall b P, P ≡ₚ own pv nx l -> parses pv nx a (None, b) (false, b) P) as Hfail
    by (intros b' P E; apply (parses_failed pv nx l); [by apply tree_plain|done]).
  assert (forall ls b, Forall tree ls -> spec ro (own pv nx l ++ seg None ls None)
    (_ ← modify (Some a) (set_ntype ty); _ ← modify (Some a) (set_first (first_or None ls));
     mret (true, set_off (parse_off b + 1) (set_pdepth (parse_depth b - 1) b)))
    (parses pv nx a (Some (mk_cJSON ty None vi vd (snd <$> k) (map erase ls)),
                     set_off (parse_off b + 1) (set_pdepth (parse_depth b - 1) b)))) as Hsuccess.
  { intros ls b' Hls. unfold l, blank. rewrite own_plain by done. repeat sp_step. apply spec_ret. split; [done|].
    exists (Own a ty None vi vd k ls). rewrite own_plain by done.
    by split_and!; [cbn; solve_Permutation|done|apply tree_plain|]. }
  destruct (CJSON_NESTING_LIMIT <=? parse_depth b)%nat; [injection Hm as <-; by apply spec_ret, Hfail|].
  apply bind_Done in Hm as (ok & E1 & Hm). eapply spec_lift; [exact E1|].
  destruct (negb ok); [injection Hm as <-; by apply spec_ret, Hfail|].
  apply bind_Done in Hm as (b1 & E2 & Hm). eapply spec_lift; [exact E2|].
  apply bind_Done in Hm as (empty & E3 & Hm). eapply spec_lift; [exact E3|].
  destruct empty.
  { injection Hm as <-. specialize (Hsuccess [] b1 ltac:(constructor)). by rewrite app_nil_r in Hsuccess. }
  destruct (negb (can_access_at_index b1 0)).
  { apply bind_Done in Hm as (o & E4 & Hm). injection Hm as <-. eapply spec_lift; [exact E4|]. by apply spec_ret, Hfail. }
  apply bind_Done in Hm as (o & E4 & Hm). eapply spec_lift; [exact E4|].
  apply bind_Done in Hm as ([js b2] & E5 & Hm). eapply spec_new; [by apply Hloop|].
  intros [[lok head] b'] P' (Eb & ls & EP & Eh & Hls & Ho). cbn [fst snd] in *. subst b' head.
  assert (forall b, spec ro (P' ++ own pv nx l)
    (_ ← (if not_null (first_or None ls) then snowflake_cJSON_Delete (first_or None ls) else mret tt); mret (false, b))
    (parses pv nx a (None, b))) as Hcleanup.
  { intros b'. rewrite EP. destruct ls as [|d ls]; [apply spec_ret_bind, spec_ret; by apply Hfail|].
    eapply (spec_call _ _ (seg None (d :: ls) None) (own pv nx l)); [by apply Delete_list|done|].
    intros _ P1 ->. by apply spec_ret, Hfail. }
  destruct js as [js|].
  - destruct Ho as [-> <-]. cbn [negb]. apply bind_Done in Hm as (closed & E6 & Hm). eapply spec_lift; [exact E6|].
    destruct closed; injection Hm as <-; [|by apply Hcleanup].
    rewrite EP, Permutation_app_comm. by apply Hsuccess.
  - subst lok. injection Hm as <-. by apply Hcleanup.
Qed.

Lemma blank_parses pv nx a t vi vd k b :
  is_ref t = false -> is_const t = false ->
  parses pv nx a (Some (mk_cJSON t None vi vd (snd <$> k) []), b) (true, b) (own pv nx (blank a t vi vd k)).
Proof. intros Hr Hc. split; [done|]. exists (blank a t vi vd k). by repeat (split; [by try apply tree_plain|]). Qed.

Lemma parse_value_spec fuel pv nx a t vi vd k b r :
  is_ref t = false -> is_const t = false ->
  CJsonParse.parse_value hooks fuel (erase (blank a t vi vd k)) b = Done r ->
  spec ro (own pv nx (blank a t vi vd k)) (parse_value malloc fuel (Some a) b) (parses pv nx a r).
Proof.
  revert pv nx a t vi vd k b r.
  induction fuel as [|fuel IH]; intros pv nx a t vi vd k b r Hr Hc Hm; [done|].
  cbn [CJsonParse.parse_value parse_value] in *.
  assert (parses pv nx a (None, b) (false, b) (own pv nx (blank a t vi vd k))) as Hfail
    by (apply (parses_failed pv nx (blank a t vi vd k)); [by apply tree_plain|done]).
  assert (forall b r, CJsonParse.parse_elements hooks (CJsonParse.parse_value hooks fuel) (parse_len b) [] b = Done r ->
    spec ro [] (parse_elements malloc (parse_value malloc fuel) (parse_len b) None None b) (listed r)) as Hel
    by (intros b' r' H; by apply (parse_elements_spec _ _ IH _ [])).
  assert (forall b r, CJsonParse.parse_members hooks (CJsonParse.parse_value hooks fuel) (parse_len b) [] b = Done r ->
    spec ro [] (parse_members malloc (parse_value malloc fuel) (parse_len b) None None b) (listed r)) as Hmem
    by (intros b' r' H; by apply (parse_members_spec _ _ IH _ [])).
  assert (forall t' vi' n, is_ref t' = false -> is_const t' = false ->
    spec ro ((a, Struct (mk_node nx pv None t' None vi' vd (fst <$> k))) :: text_cells k)
      (mret (true, set_off n b))
      (parses pv nx a (Some (mk_cJSON t' None vi' vd (snd <$> k) []), set_off n b))) as Hleaf.
  { intros t' vi' n Hr' Hc'. apply spec_ret. pose proof (blank_parses pv nx a t' vi' vd k (set_off n b) Hr' Hc') as H.
    unfold blank in H. rewrite own_plain in H by done. cbn in H. by rewrite app_nil_r in H. }
  destruct (can_read b 4 && String.prefix "null" (here b)); [|
  destruct (can_read b 5 && String.prefix "false" (here b)); [|
  destruct (can_read b 4 && String.prefix "true" (here b)); [|
  destruct (negb (can_access_at_index b 0)); [injection Hm as <-; by apply spec_ret|]]]].
  1-3: injection Hm as <-; unfold blank; rewrite own_plain by done; cbn [text_cells app seg siblings first_or];
    rewrite app_nil_r; repeat sp_step; by apply Hleaf.
  apply bind_Done in Hm as (c & Ec & Hm). eapply spec_lift; [exact Ec|].
  destruct (Ascii.eqb c quote); [by apply parse_string_spec|].
  destruct ((code c =? 45) || is_digit c); [by apply parse_number_spec|].
  destruct (Ascii.eqb c "["); [by eapply parse_bracketed_spec; [..|apply Hel|exact Hm]|].
  destruct (Ascii.eqb c "{"); [by eapply parse_bracketed_spec; [..|apply Hmem|exact Hm]|].
  injection Hm as <-. by apply spec_ret.
Qed.

(** The text is a program constant or a buffer of the caller, which the parser only reads. *)
Lemma ParseWithOpts_spec value terminated r :
  CJsonParse.snowflake_cJSON_ParseWithOpts hooks value terminated = Done r ->
  spec ro [] (snowflake_cJSON_ParseWithOpts malloc value terminated)
    (fun x P' => snd x = snd r /\ makes ro (fst r) (fst x) P').
Proof.
  intros Hm. unfold snowflake_cJSON_ParseWithOpts, CJsonParse.snowflake_cJSON_ParseWithOpts in *.
  destruct value as [value|]; [|injection Hm as <-; by apply spec_ret]. cbn zeta in *.
  set (len := (String.length value + 1)%nat) in *. set (b0 := mk_parse _ _ _ _) in *.
  eapply New_Item_spec; [done|]. unfold CJson.cJSON_New_Item in Hm.
  destruct (hooks sizeof_cJSON); [|injection Hm as <-; by apply spec_ret]. intros p.
  assert (forall l P (e : nat), tree l -> addr l = p -> P ≡ₚ own None None l -> spec ro P
    (_ ← snowflake_cJSON_Delete (Some p); mret (None : ptr, e))
    (fun x P' => snd x = e /\ makes ro None (fst x) P')) as Hfail.
  { intros l P e Hl <- E. apply (spec_perm _ _ _ _ _ E). eapply spec_bind; [by apply Delete_spec, Hl|].
    intros _ P' ->. by apply spec_ret. }
  assert (tree (fresh_item p)) as Hfresh by (by apply tree_plain).
  destruct (skip_utf8_bom b0) as [b1|]; [|injection Hm as <-; by apply (Hfail (fresh_item p))].
  apply bind_Done in Hm as (b2 & E2 & Hm). eapply spec_lift; [exact E2|].
  apply bind_Done in Hm as ([o b3] & E3 & Hm).
  eapply spec_bind; [by apply (parse_value_spec _ None None p 0 0 zero_double None b2 (o, b3))|].
  intros [ok b'] P (Eb & l & EP & Ea & Hl & Ho). cbn [fst snd] in *. subst b'.
  destruct o as [j|].
  2: { subst ok. injection Hm as <-. by apply (Hfail l). }
  destruct Ho as [-> <-]. cbn [negb].
  assert (makes ro (Some (erase l)) (Some p) P) as Hdone.
  { exists l. destruct Hl as [? ?]. by rewrite Ea. }
  destruct terminated; [|injection Hm as <-; by apply spec_ret].
  apply bind_Done in Hm as (b4 & E4 & Hm). eapply spec_lift; [exact E4|].
  destruct (parse_len b4 <=? parse_off b4)%nat; [injection Hm as <-; by apply (Hfail l)|].
  apply bind_Done in Hm as (c & E5 & Hm). eapply spec_lift; [exact E5|].
  destruct (negb (code c =? 0)); injection Hm as <-; [by apply (Hfail l)|by apply spec_ret].
Qed.

Lemma Parse_spec value o :
  CJsonParse.snowflake_cJSON_Parse hooks value = Done o ->
  spec ro [] (snowflake_cJSON_Parse malloc value) (makes ro o).
Proof.
  intros Hm. unfold CJsonParse.snowflake_cJSON_Parse in Hm. apply bind_Done in Hm as (r & E & Hm). injection Hm as <-.
  eapply spec_bind; [by apply ParseWithOpts_spec|]. intros x P [_ Hx]. by apply spec_ret.
Qed.
End Specs.
