(* ===== verification/CJsonClient.v ===== *)
(** * Programs that use cJSON: the heap code refines the trees of CJson.

    A client keeps its items in variables, reaches into them by indices, and owns every
    item until it is linked, replaced or deleted.  [run] runs such a client on the heap
    code of CJsonHeap and CJsonParseHeap; [arun] runs it on the trees and functions of CJson and refuses a
    client that uses an item it no longer owns.  What the second accepts the first
    executes without touching a block that is not live, each variable reads as its
    tree, and the blocks alive at the end are those of the trees. *)

From S2P Require Import Prelude CLib CFloat CJson CJsonPrint CJsonParse CHeap CJsonHeap CJsonLinks CJsonBuild CJsonParseHeap.

(** ** Reading a tree back from the heap *)

Definition read_text (p : ptr) : C (option string) :=
  match p with None => mret None | Some _ => s ← text p; mret (Some s) end.

(** The items from [item] on, along [next]. *)
Fixpoint read_list (fuel : nat) (item : ptr) : C (list cJSON) :=
  match item with
  | None => mret []
  | Some _ =>
      match fuel with
      | O => no_fuel
      | S fuel =>
          n ← load item;
          vs ← read_text (vstring n);
          k ← read_text (name n);
          ch ← read_list fuel (first n);
          rest ← read_list fuel (next n);
          mret (mk_cJSON (ntype n) vs (vint n) (vdouble n) k ch :: rest)
      end
  end.
Definition read (item : ptr) : C (option cJSON) := js ← with_fuel (fun fuel => read_list fuel item); mret (head js).

(** The blocks a tree takes: one per node, text and name that is not a constant. *)
Fixpoint blocks (j : cJSON) : nat :=
  S ((if valuestring j then 1 else 0) +
     (if key j then if is_const (type j) then 0 else 1 else 0) +
     list_sum (map blocks (child j))).

(** ** Places in a tree *)

Fixpoint at_path (j : cJSON) (path : list Z) : option cJSON :=
  match path with
  | [] => Some j
  | i :: path => c ← CJson.snowflake_cJSON_GetArrayItem (Some j) i; at_path c path
  end.
Fixpoint set_path (j : cJSON) (path : list Z) (e : cJSON) : cJSON :=
  match path with
  | [] => e
  | i :: path =>
      match CJson.snowflake_cJSON_GetArrayItem (Some j) i with
      | Some c => set_child (<[Z.to_nat i := set_path c path e]> (child j)) j
      | None => j
      end
  end.

Fixpoint locate (path : list Z) (item : ptr) : C ptr :=
  match path with
  | [] => mret item
  | i :: path => c ← snowflake_cJSON_GetArrayItem item i; locate path c
  end.

(** ** Clients *)

(** Constructors; the texts are addresses of string literals of the client. *)
Inductive create :=
| NewNull | NewBool (b : bool) | NewNumber (d : double) | NewString (text : positive)
| NewArray | NewObject | NewInts (numbers : list Z) | NewParsed (text : positive).
(** What is done to one item, which may yield another. *)
Inductive edit1 :=
| DetachAt (which : Z) | DetachMember (string : positive) (case_sensitive : bool)
| DeleteAt (which : Z) | DeleteMember (string : positive) (case_sensitive : bool)
| Copy (recurse : bool).
(** What is done to an item with another, which is handed over. *)
Inductive edit2 :=
| AddArray | AddObject (string : positive) | AddObjectCS (string : positive)
| InsertAt (which : Z) | ReplaceAt (which : Z) | ReplaceMember (string : positive) (case_sensitive : bool).
Inductive command :=
| New (c : create)
| Edit1 (o : edit1) (v : nat) (path : list Z)
| Edit2 (o : edit2) (v : nat) (path : list Z) (w : nat)
| Drop (v : nat).

Section Client.
  Context (malloc : heap node -> Z -> ptr) (hooks : Z -> bool) (lits : list (positive * string)).

(** *** On the heap *)

Definition run_create (c : create) : C ptr :=
  match c with
  | NewNull => snowflake_cJSON_CreateNull malloc
  | NewBool b => snowflake_cJSON_CreateBool malloc b
  | NewNumber d => snowflake_cJSON_CreateNumber malloc d
  | NewString s => snowflake_cJSON_CreateString malloc (Some s)
  | NewArray => snowflake_cJSON_CreateArray malloc
  | NewObject => snowflake_cJSON_CreateObject malloc
  | NewInts l => snowflake_cJSON_CreateIntArray malloc (Some l) (Z.of_nat (length l))
  | NewParsed p => s ← text (Some p); snowflake_cJSON_Parse malloc (Some s)
  end.
Definition run_edit1 (o : edit1) (e : ptr) : C ptr :=
  match o with
  | DetachAt i => snowflake_cJSON_DetachItemFromArray e i
  | DetachMember s false => snowflake_cJSON_DetachItemFromObject e (Some s)
  | DetachMember s true => snowflake_cJSON_DetachItemFromObjectCaseSensitive e (Some s)
  | DeleteAt i => _ ← snowflake_cJSON_DeleteItemFromArray e i; mret None
  | DeleteMember s false => _ ← snowflake_cJSON_DeleteItemFromObject e (Some s); mret None
  | DeleteMember s true => _ ← snowflake_cJSON_DeleteItemFromObjectCaseSensitive e (Some s); mret None
  | Copy recurse => snowflake_cJSON_Duplicate malloc e recurse
  end.
Definition run_edit2 (o : edit2) (e it : ptr) : C unit :=
  match o with
  | AddArray => snowflake_cJSON_AddItemToArray e it
  | AddObject s => snowflake_cJSON_AddItemToObject malloc e (Some s) it
  | AddObjectCS s => snowflake_cJSON_AddItemToObjectCS e (Some s) it
  | InsertAt i => snowflake_cJSON_InsertItemInArray e i it
  | ReplaceAt i => snowflake_cJSON_ReplaceItemInArray e i it
  | ReplaceMember s false => snowflake_cJSON_ReplaceItemInObject malloc e (Some s) it
  | ReplaceMember s true => snowflake_cJSON_ReplaceItemInObjectCaseSensitive malloc e (Some s) it
  end.

(** A variable that has lost its item keeps its pointer. *)
Definition var (env : list ptr) (v : nat) : ptr := default None (env !! v).
Definition run_command (c : command) (env : list ptr) : C (list ptr) :=
  match c with
  | New c => p ← run_create c; mret (env ++ [p])
  | Edit1 o v path => e ← locate path (var env v); r ← run_edit1 o e; mret (env ++ [r])
  | Edit2 o v path w => e ← locate path (var env v); _ ← run_edit2 o e (var env w); mret env
  | Drop v => _ ← snowflake_cJSON_Delete (var env v); mret env
  end.
Fixpoint run (cs : list command) (env : list ptr) : C (list ptr) :=
  match cs with [] => mret env | c :: cs => env ← run_command c env; run cs env end.

(** *** On trees

    A variable has been moved from, holds NULL or holds a tree.  [None]: the client
    breaks the rules (a place that is not there, an item that is not its own, NULL where
    the code dereferences it). *)

Inductive slot (A : Type) := Moved | Holds (o : option A).
Arguments Moved {A}.
Arguments Holds {A} o.
Definition slot_map {A B} (f : A -> B) (s : slot A) : slot B :=
  match s with Moved => Moved | Holds o => Holds (f <$> o) end.

Definition lit (p : positive) : option string := (list_to_map lits : gmap positive string) !! p.

Definition model_create (c : create) : option (option cJSON) :=
  match c with
  | NewNull => Some (CJson.snowflake_cJSON_CreateNull hooks)
  | NewBool b => Some (CJson.snowflake_cJSON_CreateBool hooks b)
  | NewNumber d => Some (CJson.snowflake_cJSON_CreateNumber hooks d)
  | NewString p => s ← lit p; Some (CJson.snowflake_cJSON_CreateString hooks (Some s))
  | NewArray => Some (CJson.snowflake_cJSON_CreateArray hooks)
  | NewObject => Some (CJson.snowflake_cJSON_CreateObject hooks)
  | NewInts l =>
      match CJson.snowflake_cJSON_CreateIntArray hooks (Some l) (Z.of_nat (length l)) with
      | Done o => Some o | _ => None
      end
  | NewParsed p =>
      s ← lit p; match CJsonParse.snowflake_cJSON_Parse hooks (Some s) with Done o => Some o | _ => None end
  end.

(** The changed item and what the call returns. *)
Definition pair_some (r : option cJSON * option cJSON) : option (cJSON * option cJSON) :=
  match r with (Some e, o) => Some (e, o) | _ => None end.
Definition drop_item (r : option (cJSON * option cJSON)) : option (cJSON * option cJSON) :=
  (fun '(e, _) => (e, None)) <$> r.
Definition detach_member (e : cJSON) (p : positive) (cs : bool) : option (cJSON * option cJSON) :=
  s ← lit p;
  if cs then
    match CJson.snowflake_cJSON_DetachItemFromObjectCaseSensitive (Some e) s with
    | Done r => pair_some r | _ => None
    end
  else pair_some (CJson.snowflake_cJSON_DetachItemFromObject (Some e) s).
Definition model1 (o : edit1) (e : cJSON) : option (cJSON * option cJSON) :=
  match o with
  | DetachAt i => pair_some (CJson.snowflake_cJSON_DetachItemFromArray (Some e) i)
  | DetachMember p cs => detach_member e p cs
  | DeleteAt i => drop_item (pair_some (CJson.snowflake_cJSON_DetachItemFromArray (Some e) i))
  | DeleteMember p cs => drop_item (detach_member e p cs)
  | Copy recurse => Some (e, CJson.snowflake_cJSON_Duplicate hooks e recurse)
  end.

(** A new name for an item that the call does not link. *)
Definition renamed (k : option string) (it : cJSON) : cJSON :=
  set_type (clear_flag cJSON_StringIsConst (type it)) (set_key k it).

(** The changed item and what is left of the variable with the other. *)
Definition model2 (o : edit2) (e it : cJSON) : option (cJSON * slot cJSON) :=
  match o with
  | AddArray => e' ← CJson.snowflake_cJSON_AddItemToArray (Some e) (Some it); Some (e', Moved)
  | AddObject p =>
      s ← lit p;
      e' ← CJson.snowflake_cJSON_AddItemToObject hooks (Some e) (Some s) (Some it);
      if hooks (strlen s + 1) then Some (e', Moved)
      else if is_const (type it) && (if key it then true else false) then None
      else Some (e', Holds (Some (renamed (key it) it)))
  | AddObjectCS p =>
      s ← lit p; e' ← CJson.snowflake_cJSON_AddItemToObjectCS (Some e) (Some s) (Some it); Some (e', Moved)
  | InsertAt i =>
      match CJson.snowflake_cJSON_InsertItemInArray (Some e) i (Some it) with
      | Done (Some e') => Some (e', if i <? 0 then Holds (Some it) else Moved)
      | _ => None
      end
  | ReplaceAt i =>
      e' ← CJson.snowflake_cJSON_ReplaceItemInArray (Some e) i (Some it);
      Some (e', match CJson.snowflake_cJSON_GetArrayItem (Some e) i with
                | Some _ => Moved | None => Holds (Some it) end)
  | ReplaceMember p cs =>
      s ← lit p;
      match CJson.replace_item_in_object hooks (Some e) (Some s) (Some it) cs,
            CJson.get_object_item (Some e) (Some s) cs with
      | Done (_, Some e'), Done found =>
          Some (e', match found with
                    | Some _ => Moved
                    | None => Holds (Some (renamed (CJson.cJSON_strdup hooks (Some s)) it)) end)
      | _, _ => None
      end
  end.

Definition held (js : list (slot cJSON)) (v : nat) : option cJSON :=
  match js !! v with Some (Holds (Some j)) => Some j | _ => None end.
Definition arun_command (c : command) (js : list (slot cJSON)) : option (list (slot cJSON)) :=
  match c with
  | New c => o ← model_create c; Some (js ++ [Holds o])
  | Edit1 o v path =>
      j ← held js v; e ← at_path j path; '(e', r) ← model1 o e;
      Some (<[v := Holds (Some (set_path j path e'))]> js ++ [Holds r])
  | Edit2 o v path w =>
      if Nat.eqb v w then None
      else
        j ← held js v; it ← held js w; e ← at_path j path; '(e', s) ← model2 o e it;
        Some (<[w := s]> (<[v := Holds (Some (set_path j path e'))]> js))
  | Drop v => _ ← held js v; Some (<[v := Moved]> js)
  end.
Fixpoint arun (cs : list command) (js : list (slot cJSON)) : option (list (slot cJSON)) :=
  match cs with [] => Some js | c :: cs => js ← arun_command c js; arun cs js end.

(** ** The layouts behind the variables *)

Definition lit_cells : cells node := map (fun '(p, s) => (p, Text true s)) lits.
Definition tree_ok (l : layout) : Prop := ok lit_cells l /\ no_refs l = true.
Definition slot_cells (s : slot layout) : cells node :=
  match s with Holds (Some l) => own None None l | _ => [] end.
Definition owns (ls : list (slot layout)) : cells node := concat (map slot_cells ls).
Definition slot_ok (s : slot layout) : Prop := match s with Holds (Some l) => tree_ok l | _ => True end.
Definition agrees (p : ptr) (s : slot layout) : Prop :=
  match s with Moved => True | Holds o => p = addr <$> o end.

Hypothesis malloc_ok : forall h n,
  if hooks n then exists a, malloc h n = Some a /\ h !! a = None else malloc h n = None.

Lemma lit_readable p s : lit p = Some s -> (p, Text true s) ∈ lit_cells.
Proof.
  unfold lit. intros H. apply elem_of_list_to_map_2 in H. apply list_elem_of_fmap. by exists (p, s).
Qed.

Lemma create_spec c o : model_create c = Some o -> spec lit_cells [] (run_create c) (makes lit_cells o).
Proof.
  destruct c as [|b|d|p| | |l|p]; cbn [model_create run_create]; intros H.
  1,2,5,6: injection H as <-; apply create_of_type_spec; try done; by destruct b.
  - injection H as <-. by apply CreateNumber_spec.
  - destruct (lit p) as [s|] eqn:E; [|done]. injection H as <-.
    by eapply create_string_of_type_spec; [done..|apply lit_readable].
  - destruct (CJson.snowflake_cJSON_CreateIntArray hooks (Some l) _) eqn:E; try done. injection H as <-.
    apply (create_array_spec _ hooks _ malloc_ok _ (fun z => CJson.snowflake_cJSON_CreateNumber hooks (double_of_Z z)) (fun _ => True));
      [|by apply Forall_true|done].
    intros z _. by apply CreateNumber_spec.
  - apply bind_Some in H as (s & Hs & H).
    destruct (CJsonParse.snowflake_cJSON_Parse hooks (Some s)) eqn:E; try done. injection H as <-.
    eapply spec_text; [by apply lit_readable|]. by apply (Parse_spec _ hooks).
Qed.

(** ** Editing one item *)

Lemma tree_ok_Own l : tree_ok l -> exists a t vs vi vd k ch, l = Own a t vs vi vd k ch.
Proof. intros [_ H]. destruct l; [|done]. by eauto 8. Qed.
Lemma tree_ok_children a t vs vi vd k ch :
  tree_ok (Own a t vs vi vd k ch) <->
    is_ref t = false /\ const_ok lit_cells t k /\ Forall tree_ok ch.
Proof.
  unfold tree_ok. cbn [ok no_refs]. rewrite ok_children, forallb_forall, !Forall_forall.
  setoid_rewrite <- list_elem_of_In. naive_solver.
Qed.
Lemma tree_ok_replace a t vs vi vd k ch ch' :
  tree_ok (Own a t vs vi vd k ch) -> Forall tree_ok ch' -> tree_ok (Own a t vs vi vd k ch').
Proof. rewrite !tree_ok_children. tauto. Qed.

(** The postcondition of an edit of [e] that also yields [jr]. *)
Definition edited (pv nx : ptr) (e : layout) (je : cJSON) (jr : slot cJSON) (ok_slot : slot layout -> Prop)
    (P : cells node) : Prop :=
  exists e' s, P ≡ₚ own pv nx e' ++ slot_cells s /\ addr e' = addr e /\ erase e' = je /\
    slot_map erase s = jr /\ tree_ok e' /\ slot_ok s /\ ok_slot s.

Lemma map_delete {A B} (f : A -> B) l i : map f (delete i l) = delete i (map f l).
Proof. apply list_fmap_delete. Qed.
Lemma map_insert {A B} (f : A -> B) l i x : map f (<[i := x]> l) = <[i := f x]> (map f l).
Proof. apply list_fmap_insert. Qed.
Lemma map_lookup {A B} (f : A -> B) (l : list A) i : map f l !! i = f <$> l !! i.
Proof. apply list_lookup_fmap. Qed.

Lemma detach_edited pv nx a t vs vi vd k ch i c :
  tree_ok (Own a t vs vi vd k ch) -> ch !! i = Some c ->
  let e := Own a t vs vi vd k ch in
  spec lit_cells (own pv nx e) (snowflake_cJSON_DetachItemViaPointer (Some a) (Some (addr c)))
    (fun r P' => edited pv nx e (set_child (delete i (child (erase e))) (erase e)) (Holds (Some (erase c)))
                   (fun s => s = Holds (Some c) /\ r = Some (addr c)) P').
Proof.
  intros Hok Hc e. pose proof (Detach_spec lit_cells pv nx a t vs vi vd k (take i ch) c (drop (S i) ch)) as Hd.
  rewrite <- (split_at ch i c Hc) in Hd. eapply spec_post; [exact Hd|]. intros r P' [-> E].
  exists (Own a t vs vi vd k (delete i ch)), (Holds (Some c)). apply tree_ok_children in Hok as (Ht & Hk & Hch).
  assert (tree_ok c) by (rewrite Forall_forall in Hch; by apply Hch, (list_elem_of_lookup_2 _ i)).
  split_and!; [by rewrite delete_take_drop|done| |done| |done..].
  - unfold e, set_child. cbn. by rewrite map_delete.
  - apply tree_ok_children. split_and!; [done..|by apply Forall_delete].
Qed.

(** What a call returned is the item the slot holds. *)
Definition returned (r : ptr) (s : slot layout) : Prop := exists ol, s = Holds ol /\ r = addr <$> ol.

Definition child_at (e : layout) (io : option nat) : ptr := i ← io; addr <$> lchildren e !! i.

(** Detaching at a position, found or not. *)
Lemma detach_spec pv nx e io je jr :
  tree_ok e ->
  pair_some (CJson.snowflake_cJSON_DetachItemViaPointer (Some (erase e)) io) = Some (je, jr) ->
  spec lit_cells (own pv nx e) (snowflake_cJSON_DetachItemViaPointer (Some (addr e)) (child_at e io))
    (fun r => edited pv nx e je (Holds jr) (returned r)).
Proof.
  intros He Hm. destruct (tree_ok_Own e He) as (a & t & vs & vi & vd & k & ch & ->).
  assert (forall P, P ≡ₚ own pv nx (Own a t vs vi vd k ch) -> je = erase (Own a t vs vi vd k ch) -> jr = None ->
    edited pv nx (Own a t vs vi vd k ch) je (Holds jr) (returned None) P) as Hnone.
  { intros P E -> ->. exists (Own a t vs vi vd k ch), (Holds None).
    split_and!; [by rewrite E, app_nil_r|done|done|done|done|done|by exists None]. }
  destruct io as [i|]; cbn [child_at mbind option_bind addr lchildren].
  2: { injection Hm as <- <-. apply spec_ret. by apply Hnone. }
  cbn [CJson.snowflake_cJSON_DetachItemViaPointer child erase] in Hm. rewrite map_lookup in Hm.
  destruct (ch !! i) as [c|] eqn:Ec; cbn [fmap option_fmap option_map] in *; injection Hm as <- <-.
  - eapply spec_post; [by apply detach_edited|]. intros r P' (e' & s & E & Ha & Hj & Hs & Hok & Hso & [-> ->]).
    exists e', (Holds (Some c)). split_and!; try done. by exists (Some c).
  - apply spec_ret. by apply Hnone.
Qed.

Lemma delete_spec pv nx e je jr (c : C ptr) :
  spec lit_cells (own pv nx e) c (fun r => edited pv nx e je (Holds jr) (returned r)) ->
  spec lit_cells (own pv nx e) (r ← c; _ ← snowflake_cJSON_Delete r; mret None)
    (fun r => edited pv nx e je (Holds None) (returned r)).
Proof.
  intros Hc. eapply spec_bind; [exact Hc|].
  intros r P (e' & s & E & Ha & Hj & _ & Hok & Hso & ol & -> & ->). rewrite E.
  assert (forall P, P ≡ₚ own pv nx e' -> edited pv nx e je (Holds None) (returned None) P) as Hend.
  { intros P' E'. exists e', (Holds None). split_and!; [by rewrite E', app_nil_r|done..|by exists None]. }
  destruct ol as [c'|]; cbn [slot_cells fmap option_fmap option_map].
  - apply (spec_call _ _ (own None None c') (own pv nx e') _ _ (fun _ P' => P' = []));
      [apply Delete_spec, Hso|solve_Permutation|].
    intros _ _ ->. apply spec_ret. by apply Hend.
  - unfold snowflake_cJSON_Delete. rewrite app_nil_r. apply spec_fuel_bind. intros [|n] _; apply spec_ret_bind, spec_ret;
      by apply Hend.
Qed.

(** The functions that find the item first. *)
Lemma array_item_bind {B} pv nx e i (c : ptr -> C B) Q :
  tree_ok e -> 0 <= i ->
  spec lit_cells (own pv nx e) (c (child_at e (Some (Z.to_nat i)))) Q ->
  spec lit_cells (own pv nx e) (get_array_item (Some (addr e)) i ≫= c) Q.
Proof.
  intros He Hi Hc. destruct (tree_ok_Own e He) as (a & t & vs & vi & vd & k & ch & ->).
  apply (get_array_item_spec _ _ pv nx a t vs vi vd k ch []); [by rewrite app_nil_r|done..].
Qed.

Lemma object_item_bind {B} P pv nx e R p s cs io (c : ptr -> C B) Q :
  P ≡ₚ own pv nx e ++ R -> tree_ok e -> lit p = Some s -> object_index (child (erase e)) s cs = Done io ->
  spec lit_cells P (c (child_at e io)) Q ->
  spec lit_cells P (get_object_item (Some (addr e)) (Some p) cs ≫= c) Q.
Proof.
  intros E He Hp Hio Hc. destruct (tree_ok_Own e He) as (a & t & vs & vi & vd & k & ch & ->).
  apply (get_object_item_spec _ _ pv nx a t vs vi vd k ch R p true s cs io); [done| |by apply elem_of_app; right; apply lit_readable|done|].
  - apply tree_ok_children in He as (_ & _ & Hch). eapply Forall_impl; [exact Hch|]. by intros x [? _].
  - by destruct io.
Qed.

Lemma detach_array_spec pv nx e i je jr :
  tree_ok e -> pair_some (CJson.snowflake_cJSON_DetachItemFromArray (Some (erase e)) i) = Some (je, jr) ->
  spec lit_cells (own pv nx e) (snowflake_cJSON_DetachItemFromArray (Some (addr e)) i)
    (fun r => edited pv nx e je (Holds jr) (returned r)).
Proof.
  intros He Hm. unfold snowflake_cJSON_DetachItemFromArray, CJson.snowflake_cJSON_DetachItemFromArray in *.
  destruct (i <? 0) eqn:Ei.
  - apply (detach_spec pv nx e None); [done|exact Hm].
  - apply array_item_bind; [done|lia|]. by apply detach_spec.
Qed.

Lemma detach_member_spec pv nx e p cs je jr :
  tree_ok e -> detach_member (erase e) p cs = Some (je, jr) ->
  spec lit_cells (own pv nx e)
    (to_detach ← get_object_item (Some (addr e)) (Some p) cs;
     snowflake_cJSON_DetachItemViaPointer (Some (addr e)) to_detach)
    (fun r => edited pv nx e je (Holds jr) (returned r)).
Proof.
  intros He Hm. unfold detach_member in Hm. destruct (lit p) as [s|] eqn:Hp; [|done]. cbn in Hm.
  assert (exists io, object_index (child (erase e)) s cs = Done io /\
            pair_some (CJson.snowflake_cJSON_DetachItemViaPointer (Some (erase e)) io) = Some (je, jr)) as (io & Hio & Hm').
  { destruct cs.
    - unfold CJson.snowflake_cJSON_DetachItemFromObjectCaseSensitive in Hm.
      destruct (object_index (child (erase e)) s true) as [io| |] eqn:E; [|done..]. by exists io.
    - exists (find_ci (child (erase e)) s). by rewrite object_index_ci. }
  eapply (object_item_bind _ pv nx e []); [by rewrite app_nil_r|done..|]. by apply detach_spec.
Qed.

Lemma edit1_spec o pv nx e je jr :
  tree_ok e -> model1 o (erase e) = Some (je, jr) ->
  spec lit_cells (own pv nx e) (run_edit1 o (Some (addr e)))
    (fun r => edited pv nx e je (Holds jr) (returned r)).
Proof.
  intros He Hm. destruct o as [i|p cs|i|p cs|recurse]; cbn [model1 run_edit1] in *.
  - by apply detach_array_spec.
  - pose proof (detach_member_spec pv nx e p cs je jr He Hm). by destruct cs.
  - unfold drop_item in Hm. destruct (pair_some _) as [[je' jr']|] eqn:E; [|done]. injection Hm as <- <-.
    unfold snowflake_cJSON_DeleteItemFromArray. apply spec_assoc.
    by eapply delete_spec, detach_array_spec.
  - unfold drop_item in Hm. destruct (detach_member _ p cs) as [[je' jr']|] eqn:E; [|done]. injection Hm as <- <-.
    pose proof (delete_spec _ _ _ _ _ _ (detach_member_spec pv nx e p cs _ _ He E)).
    destruct cs; apply spec_assoc; done.
  - injection Hm as <- <-. destruct He as [Hok Hno].
    eapply spec_post; [by apply (Duplicate_spec malloc hooks)|].
    intros r P' (P1 & E & Hm). destruct (CJson.snowflake_cJSON_Duplicate hooks (erase e) recurse) as [j|].
    + destruct Hm as (l & -> & <- & ? & ? & E1). exists e, (Holds (Some l)).
      split_and!; [rewrite E, E1; solve_Permutation|done..|by exists (Some l)].
    + destruct Hm as [-> ->]. exists e, (Holds None). split_and!; [by rewrite E, app_nil_r|done..|by exists None].
Qed.

(** ** Editing with a second item *)

(** The variable of the second item has lost it, or still holds it (under a new name). *)
Definition kept (it : layout) (s : slot layout) : Prop :=
  s = Moved \/ exists it', s = Holds (Some it') /\ addr it' = addr it.

Lemma erase_type l : type (erase l) = ltype l.
Proof. by destruct l. Qed.
Lemma erase_key l : key (erase l) = snd <$> lkey l.
Proof. by destruct l. Qed.
Lemma erase_set_lkey t k l : no_refs l = true -> erase (set_lkey t k l) = set_type t (set_key (snd <$> k) (erase l)).
Proof. by destruct l. Qed.

Lemma flag_other t f g : 0 <= f -> 0 <= g -> f <> g -> Z.land (Z.ldiff t (2 ^ f)) (2 ^ g) = Z.land t (2 ^ g).
Proof.
  intros Hf Hg Hne. apply Z.bits_inj'. intros n Hn. rewrite !Z.land_spec, Z.ldiff_spec, !Z.pow2_bits_eqb by lia.
  destruct (Z.eqb_spec g n), (Z.eqb_spec f n); subst; try lia; by rewrite ?andb_false_r, ?andb_true_r.
Qed.
Lemma flag_other_set t f g : 0 <= f -> 0 <= g -> f <> g -> Z.land (Z.lor t (2 ^ f)) (2 ^ g) = Z.land t (2 ^ g).
Proof.
  intros Hf Hg Hne. apply Z.bits_inj'. intros n Hn. rewrite !Z.land_spec, Z.lor_spec, !Z.pow2_bits_eqb by lia.
  destruct (Z.eqb_spec g n), (Z.eqb_spec f n); subst; try lia; by rewrite ?andb_false_r, ?orb_false_r.
Qed.

Lemma tree_ok_rename t k it :
  tree_ok it -> is_ref t = is_ref (ltype it) -> const_ok lit_cells t k -> tree_ok (set_lkey t k it).
Proof.
  intros Hit Ht Hk. destruct (tree_ok_Own it Hit) as (a & t' & vs & vi & vd & k' & ch & ->).
  cbn [set_lkey ltype] in *. rewrite tree_ok_children in *. destruct Hit as (? & _ & ?).
  split_and!; [congruence|done..].
Qed.
Lemma is_ref_const t : is_ref (Z.lor t cJSON_StringIsConst) = is_ref t.
Proof. unfold is_ref. do 2 f_equal. by apply (flag_other_set t 9 8). Qed.
Lemma is_ref_unconst t : is_ref (clear_flag cJSON_StringIsConst t) = is_ref t.
Proof. unfold is_ref. do 2 f_equal. by apply (flag_other t 9 8). Qed.

Lemma tree_ok_const p s it : tree_ok it -> lit p = Some s -> tree_ok (named_const p s it).
Proof.
  intros Hit Hp. apply tree_ok_rename; [done|apply is_ref_const|].
  intros _ a s' [= <- <-]. by apply lit_readable.
Qed.
Lemma tree_ok_unconst k it :
  tree_ok it -> tree_ok (set_lkey (clear_flag cJSON_StringIsConst (ltype it)) k it).
Proof.
  intros Hit. apply tree_ok_rename; [done|apply is_ref_unconst|]. apply not_const_ok, is_const_clear.
Qed.

(** The parent with new children, and the item handed over. *)
Lemma linked_edited pv nx a t vs vi vd k ch ch' it P :
  let e := Own a t vs vi vd k ch in
  tree_ok e -> Forall tree_ok ch' -> P ≡ₚ own pv nx (Own a t vs vi vd k ch') ->
  edited pv nx e (set_child (map erase ch') (erase e)) Moved (kept it) P.
Proof.
  intros e He Hch' E. exists (Own a t vs vi vd k ch'), Moved.
  split_and!; [by rewrite E, app_nil_r|done|done|done|by eapply tree_ok_replace|done|by left].
Qed.
(** The parent as it was, the item still with the caller. *)
Lemma kept_edited pv nx e it it' P :
  tree_ok e -> tree_ok it' -> addr it' = addr it -> P ≡ₚ own pv nx e ++ own None None it' ->
  edited pv nx e (erase e) (Holds (Some (erase it'))) (kept it) P.
Proof.
  intros He Hit' Ha E. exists e, (Holds (Some it')). split_and!; try done. right. by exists it'.
Qed.

Section Edit2.
  Context (pv nx : ptr) (a : positive) (t : Z) (vs : option (positive * string)) (vi : Z) (vd : double)
    (k : option (positive * string)) (ch : list layout) (it : layout).
  Abbreviation e := (Own a t vs vi vd k ch).
  Hypotheses (He : tree_ok e) (Hit : tree_ok it).
  Abbreviation implements o je s :=
    (spec lit_cells (own pv nx e ++ own None None it) (run_edit2 o (Some a) (Some (addr it)))
      (fun _ => edited pv nx e je s (kept it))).

Lemma children_ok : Forall tree_ok ch.
Proof. apply tree_ok_children in He as (_ & _ & H). exact H. Qed.

(** The new child [it'] is linked last. *)
Lemma appended_edited it' P :
  tree_ok it' -> P ≡ₚ own pv nx (Own a t vs vi vd k (ch ++ [it'])) ->
  edited pv nx e (set_child (child (erase e) ++ [erase it']) (erase e)) Moved (kept it) P.
Proof.
  intros Hit' E. pose proof (linked_edited pv nx a t vs vi vd k ch (ch ++ [it']) it P He) as H.
  rewrite map_app in H. apply H; [|done]. apply Forall_app. split; [apply children_ok|by constructor].
Qed.

Lemma add_array_spec je s : model2 AddArray (erase e) (erase it) = Some (je, s) -> implements AddArray je s.
Proof.
  intros [= <- <-]. eapply spec_post; [apply AddItemToArray_spec|]. intros a0 P' E; cbv beta in E; clear a0.
  by apply appended_edited.
Qed.

Lemma add_object_cs_spec p je s :
  model2 (AddObjectCS p) (erase e) (erase it) = Some (je, s) -> implements (AddObjectCS p) je s.
Proof.
  intros Hm. cbn [model2] in Hm. destruct (lit p) as [str|] eqn:Hp; [|done]. injection Hm as <- <-.
  eapply spec_post; [apply (AddItemToObjectCS_spec _ _ _ _ _ _ _ _ _ _ it p str)|]. intros a0 P' E; cbv beta in E; clear a0.
  pose proof (appended_edited (named_const p str it) P' (tree_ok_const _ _ _ Hit Hp) E) as H.
  unfold named_const in H. rewrite erase_set_lkey in H by apply Hit. by rewrite erase_type.
Qed.

Lemma add_object_spec p je s :
  model2 (AddObject p) (erase e) (erase it) = Some (je, s) -> implements (AddObject p) je s.
Proof.
  intros Hm. cbn [model2] in Hm. destruct (lit p) as [str|] eqn:Hp; [|done]. cbn [mbind option_bind] in Hm.
  apply bind_Some in Hm as (e' & Ee & Hm). rewrite erase_type, erase_key in Hm. cbn [run_edit2].
  eapply spec_post; [apply (AddItemToObject_spec malloc hooks _ malloc_ok pv nx a t vs vi vd k ch it p true str)|].
  { by apply lit_readable. }
  { intros Hc. destruct (hooks (strlen str + 1)); [by right|left]. rewrite Hc in Hm. by destruct (lkey it). }
  intros a0 P' E; cbv beta in E; clear a0. destruct (hooks (strlen str + 1)) eqn:Eh.
  - destruct E as [q E]. rewrite AddItemToObject_child in Ee by done. injection Ee as <-. injection Hm as <- <-.
    pose proof (appended_edited (named_copy q str it) P' (tree_ok_unconst _ _ Hit) E) as H.
    unfold named_copy in H. rewrite erase_set_lkey in H by apply Hit. by rewrite erase_type, clear_set.
  - unfold CJson.snowflake_cJSON_AddItemToObject in Ee. cbn in Ee. rewrite Eh in Ee. injection Ee as <-.
    destruct (_ && _) in Hm; [done|]. injection Hm as <- <-.
    pose proof (kept_edited pv nx e it _ P' He (tree_ok_unconst (lkey it) it Hit) (addr_set_lkey _ _ _) E) as H.
    rewrite erase_set_lkey in H by apply Hit. unfold renamed. by rewrite erase_type.
Qed.

Lemma insert_spec i je s :
  model2 (InsertAt i) (erase e) (erase it) = Some (je, s) -> implements (InsertAt i) je s.
Proof.
  intros Hm. cbn [model2 run_edit2] in *. destruct (i <? 0) eqn:Ei.
  - unfold snowflake_cJSON_InsertItemInArray, CJson.snowflake_cJSON_InsertItemInArray in *. rewrite Ei in *.
    injection Hm as <- <-. apply spec_ret. by apply kept_edited.
  - assert (je = set_child (map erase (take (Z.to_nat i) ch ++ it :: drop (Z.to_nat i) ch)) (erase e) /\ s = Moved)
      as [-> ->].
    { unfold CJson.snowflake_cJSON_InsertItemInArray in Hm. rewrite Ei in Hm.
      cbn [CJson.get_array_item erase child] in Hm. rewrite map_lookup in Hm.
      destruct (ch !! Z.to_nat i) eqn:El; cbn in Hm; injection Hm as <- <-; (split; [|done]);
        rewrite map_app; cbn [map].
      - by rewrite firstn_map, skipn_map.
      - apply lookup_ge_None in El. by rewrite take_ge, drop_ge by lia. }
    eapply spec_post; [apply Insert_spec; lia|]. intros a0 P' E; cbv beta in E; clear a0. apply linked_edited; [done| |done].
    pose proof children_ok as Hch. apply Forall_app. split; [by apply Forall_take|].
    constructor; [done|by apply Forall_drop].
Qed.

(** The child at [i] gives way to [it']. *)
Lemma replaced_edited i it' P :
  tree_ok it' -> P ≡ₚ own pv nx (Own a t vs vi vd k (<[i := it']> ch)) ->
  edited pv nx e (set_child (<[i := erase it']> (child (erase e))) (erase e)) Moved (kept it) P.
Proof.
  intros Hit' E. pose proof (linked_edited pv nx a t vs vi vd k ch (<[i := it']> ch) it P He) as H.
  rewrite map_insert in H. apply H; [|done]. apply Forall_insert; [apply children_ok|done].
Qed.

Lemma replace_at_spec i je s :
  model2 (ReplaceAt i) (erase e) (erase it) = Some (je, s) -> implements (ReplaceAt i) je s.
Proof.
  intros Hm. cbn [model2 run_edit2] in *. unfold snowflake_cJSON_ReplaceItemInArray,
    CJson.snowflake_cJSON_ReplaceItemInArray, CJson.snowflake_cJSON_GetArrayItem in *.
  destruct (i <? 0) eqn:Ei.
  { injection Hm as <- <-. apply spec_ret. by apply kept_edited. }
  eapply get_array_item_spec; [reflexivity|lia|].
  cbn [CJson.get_array_item erase child] in Hm. rewrite map_lookup in Hm.
  destruct (ch !! Z.to_nat i) as [d|] eqn:Ed; cbn [fmap option_fmap option_map] in *; injection Hm as <- <-.
  - pose proof (Replace_spec lit_cells pv nx a t vs vi vd k (take (Z.to_nat i) ch) d (drop (S (Z.to_nat i)) ch) it) as Hr.
    rewrite <- (split_at ch (Z.to_nat i) d Ed) in Hr. eapply spec_bind; [apply Hr|].
    { pose proof children_ok as Hch. rewrite Forall_forall in Hch. by apply Hch, (list_elem_of_lookup_2 _ (Z.to_nat i)). }
    intros b P' [_ E]. apply spec_ret. apply (replaced_edited (Z.to_nat i) it); [done|].
    rewrite insert_take_drop by (by eapply lookup_lt_Some). done.
  - apply spec_ret_bind, spec_ret. by apply kept_edited.
Qed.

Lemma replace_member_spec p cs je s :
  model2 (ReplaceMember p cs) (erase e) (erase it) = Some (je, s) -> implements (ReplaceMember p cs) je s.
Proof.
  intros Hm. cbn [model2] in Hm. destruct (lit p) as [str|] eqn:Hp; [|done]. cbn [mbind option_bind] in Hm.
  unfold CJson.replace_item_in_object, CJson.get_object_item in Hm.
  destruct (object_index (child (erase e)) str cs) as [io| |] eqn:Hio; [|done..]. rewrite !bind_Done_l in Hm.
  assert (forall c : C bool, spec lit_cells (own pv nx e ++ own None None it) c (fun _ => edited pv nx e je s (kept it)) ->
    spec lit_cells (own pv nx e ++ own None None it) (_ ← c; mret tt) (fun _ => edited pv nx e je s (kept it))) as Hret.
  { intros c Hc. eapply spec_bind; [exact Hc|]. intros b P' H. by apply spec_ret. }
  assert (spec lit_cells (own pv nx e ++ own None None it)
    (replace_item_in_object malloc (Some a) (Some p) (Some (addr it)) cs) (fun _ => edited pv nx e je s (kept it))) as Hrep.
  2: { destruct cs; by apply Hret. }
  eapply spec_post; [apply (replace_item_in_object_spec malloc hooks _ malloc_ok pv nx a t vs vi vd k ch it p true str cs io)|].
  { by apply lit_readable. }
  { eapply Forall_impl; [apply children_ok|]. by intros x [? _]. }
  { done. }
  intros b P' (_ & kk & Hkk & E). cbn zeta in E.
  pose proof (tree_ok_unconst kk it Hit) as Hit'.
  assert (erase (set_lkey (clear_flag cJSON_StringIsConst (ltype it)) kk it) =
            renamed (CJson.cJSON_strdup hooks (Some str)) (erase it)) as Eit.
  { rewrite erase_set_lkey by apply Hit. unfold renamed. by rewrite Hkk, erase_type. }
  destruct io as [i|].
  - destruct (lookup_lt_is_Some_2 (child (erase e)) i) as [d Ed]; [by eapply object_index_lt|].
    rewrite Ed in Hm. injection Hm as <- <-. pose proof (replaced_edited i _ P' Hit' E) as H.
    rewrite Eit in H. exact H.
  - injection Hm as <- <-. pose proof (kept_edited pv nx e it _ P' He Hit' (addr_set_lkey _ _ _) E) as H.
    rewrite Eit in H. exact H.
Qed.

Lemma edit2_own_spec o je s : model2 o (erase e) (erase it) = Some (je, s) -> implements o je s.
Proof.
  destruct o; auto using add_array_spec, add_object_spec, add_object_cs_spec, insert_spec, replace_at_spec,
    replace_member_spec.
Qed.
End Edit2.

Lemma edit2_spec o pv nx e it je s :
  tree_ok e -> tree_ok it -> model2 o (erase e) (erase it) = Some (je, s) ->
  spec lit_cells (own pv nx e ++ own None None it) (run_edit2 o (Some (addr e)) (Some (addr it)))
    (fun _ => edited pv nx e je s (kept it)).
Proof.
  intros He Hit Hm. destruct (tree_ok_Own e He) as (a & t & vs & vi & vd & k & ch & ->).
  by apply edit2_own_spec.
Qed.

(** ** Reaching into a tree *)

(** The item at a path, the cells around it, and the tree with another item there. *)
Definition place (l : layout) (path : list Z) (e : layout) (fill : layout -> layout) : Prop :=
  forall pv nx, exists pv' nx' around,
    (forall e', addr e' = addr e -> own pv nx (fill e') ≡ₚ own pv' nx' e' ++ around) /\
    fill e = l /\
    (forall e', addr e' = addr e -> addr (fill e') = addr l /\ erase (fill e') = set_path (erase l) path (erase e')) /\
    (forall e', addr e' = addr e -> tree_ok e' -> tree_ok (fill e')) /\
    (forall R, spec lit_cells (own pv nx l ++ R) (locate path (Some (addr l)))
                 (fun r P => r = Some (addr e) /\ P ≡ₚ own pv nx l ++ R)).

(** The cells around a child of a parent do not depend on the child. *)
Lemma own_child pv nx a t vs vi vd k ch i c x :
  ch !! i = Some c -> addr x = addr c ->
  own pv nx (Own a t vs vi vd k (<[i := x]> ch)) ≡ₚ
    own (last_or None (take i ch)) (first_or None (drop (S i) ch)) x ++
    (a, Struct (root pv nx (Own a t vs vi vd k ch))) :: text_cells vs ++ key_cells t k ++
    seg None (take i ch) (Some (addr c)) ++ seg (Some (addr c)) (drop (S i) ch) None.
Proof.
  intros Hc Hx. rewrite insert_take_drop by (by eapply lookup_lt_Some).
  rewrite own_Own, first_or_app, seg_app, seg_cons. cbn [first_or root]. rewrite Hx.
  replace (first_or None ch) with (first_or (Some (addr c)) (take i ch)); [solve_Permutation|].
  rewrite (split_at ch i c Hc) at 2. by rewrite first_or_app.
Qed.

Lemma place_child a t vs vi vd k ch i c path e fill :
  let l := Own a t vs vi vd k ch in
  tree_ok l -> 0 <= i -> ch !! Z.to_nat i = Some c -> place c path e fill ->
  place l (i :: path) e (fun e' => Own a t vs vi vd k (<[Z.to_nat i := fill e']> ch)).
Proof.
  intros l Hl Hi Hc Hplace pv nx.
  destruct (Hplace (last_or None (take (Z.to_nat i) ch)) (first_or None (drop (S (Z.to_nat i)) ch)))
    as (pv' & nx' & around & Hown & Hfill & Hset & Hok & Hloc).
  assert ((i <? 0) = false) as Ei by lia.
  pose proof (own_child pv nx a t vs vi vd k ch (Z.to_nat i) c c Hc eq_refl) as Ec.
  rewrite list_insert_id in Ec by done.
  eexists pv', nx', _. split_and!.
  - intros e' He'. destruct (Hset e' He') as [Ha _]. rewrite (own_child _ _ _ _ _ _ _ _ _ _ c) by done.
    rewrite (Hown e' He'), <- app_assoc. reflexivity.
  - unfold l. f_equal. rewrite Hfill. by apply list_insert_id.
  - intros e' He'. destruct (Hset e' He') as [_ Hj]. split; [done|]. cbn [set_path erase l].
    unfold CJson.snowflake_cJSON_GetArrayItem. rewrite Ei. cbn [CJson.get_array_item child]. rewrite map_lookup, Hc.
    cbn [fmap option_fmap option_map]. unfold set_child. cbn. by rewrite map_insert, Hj.
  - intros e' He' Hok'. eapply tree_ok_replace; [exact Hl|]. apply Forall_insert; [|by apply Hok].
    by apply tree_ok_children in Hl as (_ & _ & Hch).
  - intros R. unfold l. cbn [locate addr]. unfold snowflake_cJSON_GetArrayItem. rewrite Ei.
    eapply get_array_item_spec; [reflexivity|lia|]. rewrite Hc. cbn [fmap option_fmap option_map].
    rewrite Ec, <- app_assoc. eapply spec_post; [apply Hloc|]. intros r P' [-> E]. split; [done|].
    by rewrite E, Ec, <- app_assoc.
Qed.

Lemma place_exists l path je :
  tree_ok l -> at_path (erase l) path = Some je -> exists e fill, place l path e fill /\ erase e = je /\ tree_ok e.
Proof.
  revert l. induction path as [|i path IH]; intros l Hl Hp; cbn [at_path] in Hp.
  - injection Hp as <-. exists l, (fun e => e). split; [|done]. intros pv nx. exists pv, nx, [].
    split_and!; [intros e' _; by rewrite app_nil_r|done|by intros e' ->|done|].
    intros R. by apply spec_ret.
  - destruct (tree_ok_Own l Hl) as (a & t & vs & vi & vd & k & ch & ->).
    pose proof Hl as (_ & _ & Hch)%tree_ok_children. apply bind_Some in Hp as (c0 & Hc & Hp).
    unfold CJson.snowflake_cJSON_GetArrayItem in Hc. destruct (i <? 0) eqn:Ei; [done|].
    cbn [CJson.get_array_item erase child] in Hc. rewrite map_lookup in Hc.
    destruct (ch !! Z.to_nat i) as [c|] eqn:Ec; [|done]. injection Hc as <-.
    assert (tree_ok c) as Hcok by (rewrite Forall_forall in Hch; by apply Hch, (list_elem_of_lookup_2 _ (Z.to_nat i))).
    destruct (IH c Hcok Hp) as (e & fill & Hplace & <- & He).
    exists e, (fun e' => Own a t vs vi vd k (<[Z.to_nat i := fill e']> ch)). split; [|done].
    apply place_child with c; [done|lia|done..].
Qed.

(** ** Commands *)

Definition state_ok (env : list ptr) (ls : list (slot layout)) (js : list (slot cJSON)) : Prop :=
  Forall2 agrees env ls /\ Forall slot_ok ls /\ js = map (slot_map erase) ls.

Lemma owns_update ls v s0 :
  ls !! v = Some s0 ->
  exists others, owns ls ≡ₚ slot_cells s0 ++ others /\ forall s, owns (<[v := s]> ls) ≡ₚ slot_cells s ++ others.
Proof.
  intros Hv. exists (owns (take v ls) ++ owns (drop (S v) ls)). unfold owns.
  split; [|intros s; rewrite insert_take_drop by (by eapply lookup_lt_Some)].
  - rewrite (split_at ls v s0 Hv) at 1. rewrite map_app, concat_app. cbn. solve_Permutation.
  - rewrite map_app, concat_app. cbn. solve_Permutation.
Qed.

Lemma held_slot env ls js v j :
  state_ok env ls js -> held js v = Some j ->
  exists l, ls !! v = Some (Holds (Some l)) /\ erase l = j /\ tree_ok l /\ var env v = Some (addr l).
Proof.
  intros (Henv & Hok & ->) Hj. unfold held in Hj. rewrite map_lookup in Hj.
  destruct (ls !! v) as [[|[l|]]|] eqn:El; try done. injection Hj as <-. exists l. split_and!; [done..| |].
  - rewrite Forall_forall in Hok. by apply (Hok (Holds (Some l))), (list_elem_of_lookup_2 _ v).
  - destruct (Forall2_lookup_r _ _ _ _ _ Henv El) as (p & Hp & ->). unfold var. by rewrite Hp.
Qed.

Lemma state_push env ls js p s :
  state_ok env ls js -> agrees p s -> slot_ok s -> state_ok (env ++ [p]) (ls ++ [s]) (js ++ [slot_map erase s]).
Proof.
  intros (Henv & Hok & ->) Hp Hs. split_and!; [by apply Forall2_app; [|constructor]|by apply Forall_app; split; [|constructor]|].
  by rewrite map_app.
Qed.

Lemma state_set env ls js v s s0 :
  state_ok env ls js -> ls !! v = Some s0 -> (forall p, agrees p s0 -> agrees p s) -> slot_ok s ->
  state_ok env (<[v := s]> ls) (<[v := slot_map erase s]> js).
Proof.
  intros (Henv & Hok & ->) Hv Hp Hs. split_and!; [|by apply Forall_insert|by rewrite map_insert].
  destruct (Forall2_lookup_r _ _ _ _ _ Henv Hv) as (p & Hpv & Ha).
  rewrite <- (list_insert_id env v p Hpv). by apply Forall2_insert; [|apply Hp].
Qed.

(** What a command does to the variables, on cells and on trees at once. *)
Definition steps_to (js' : list (slot cJSON)) (env' : list ptr) (P' : cells node) : Prop :=
  exists ls', P' ≡ₚ owns ls' /\ state_ok env' ls' js'.

Lemma new_command env ls js c js' :
  state_ok env ls js -> arun_command (New c) js = Some js' ->
  spec lit_cells (owns ls) (run_command (New c) env) (steps_to js').
Proof.
  intros Hst Hrun. cbn [arun_command run_command] in *. apply bind_Some in Hrun as (o & Ho & Hrun).
  injection Hrun as <-. eapply spec_new; [by apply create_spec|]. intros r P Hm. apply spec_ret.
  destruct o as [j|].
  - destruct Hm as (l & -> & <- & Hl & Hno & E). exists (ls ++ [Holds (Some l)]). split.
    + unfold owns. rewrite map_app, concat_app. cbn. rewrite app_nil_r, E. apply Permutation_app_comm.
    + by apply (state_push env ls js (Some (addr l)) (Holds (Some l))).
  - destruct Hm as [-> ->]. exists (ls ++ [Holds None]). split.
    + unfold owns. rewrite map_app, concat_app. cbn. by rewrite app_nil_r.
    + by apply (state_push env ls js None (Holds None)).
Qed.

(** The variable that holds the tree around the edited item. *)
Lemma refill env ls js v l path e fill e' :
  state_ok env ls js -> ls !! v = Some (Holds (Some l)) -> place l path e fill -> addr e' = addr e -> tree_ok e' ->
  state_ok env (<[v := Holds (Some (fill e'))]> ls) (<[v := Holds (Some (set_path (erase l) path (erase e')))]> js).
Proof.
  intros Hst Hv Hplace Ha He'. destruct (Hplace None None) as (_ & _ & _ & _ & _ & Hset & Hok & _).
  destruct (Hset e' Ha) as [Hfa Hfe].
  pose proof (state_set env ls js v (Holds (Some (fill e'))) _ Hst Hv) as H. cbn in H. rewrite Hfe in H.
  apply H; [|by apply Hok]. intros p. by rewrite Hfa.
Qed.

Lemma edit1_command env ls js o v path js' :
  state_ok env ls js -> arun_command (Edit1 o v path) js = Some js' ->
  spec lit_cells (owns ls) (run_command (Edit1 o v path) env) (steps_to js').
Proof.
  intros Hst Hrun. cbn [arun_command run_command] in *.
  apply bind_Some in Hrun as (j & Hj & Hrun). apply bind_Some in Hrun as (je & Hje & Hrun).
  apply bind_Some in Hrun as ([je' jr] & Hm & Hrun). injection Hrun as <-.
  destruct (held_slot env ls js v j Hst Hj) as (l & Hv & <- & Hl & ->).
  destruct (place_exists l path je Hl Hje) as (e & fill & Hplace & <- & He).
  destruct (owns_update ls v _ Hv) as (others & Eo & Eset). cbn [slot_cells] in Eo. rewrite Eo.
  pose proof (Hplace None None) as (pv & nx & around & Hown & Hfill & Hset & Hok & Hloc).
  eapply spec_bind; [apply Hloc|]. intros r P [-> E]. rewrite E. rewrite <- Hfill, (Hown e eq_refl).
  apply (spec_call _ _ (own pv nx e) (around ++ others) _ _
    (fun r => edited pv nx e je' (Holds jr) (returned r))); [by apply edit1_spec|solve_Permutation|].
  intros r P1 (e' & s & E1 & Ha & <- & Hjs & He' & Hs & ol & -> & ->). apply spec_ret.
  pose proof (refill env ls js v l path e fill e' Hst Hv Hplace Ha He') as Hst'.
  exists (<[v := Holds (Some (fill e'))]> ls ++ [Holds ol]). split.
  - unfold owns. rewrite map_app, concat_app. fold (owns (<[v := Holds (Some (fill e'))]> ls)).
    rewrite Eset. cbn [map concat slot_cells]. rewrite (Hown e' Ha), E1, app_nil_r. cbn [slot_cells]. solve_Permutation.
  - injection Hjs as <-. rewrite Hfill. by apply (state_push _ _ _ _ (Holds ol)).
Qed.

Lemma owns_update2 ls v w s1 s2 :
  v <> w -> ls !! v = Some s1 -> ls !! w = Some s2 ->
  exists others, owns ls ≡ₚ slot_cells s1 ++ slot_cells s2 ++ others /\
    forall s1 s2, owns (<[w := s2]> (<[v := s1]> ls)) ≡ₚ slot_cells s1 ++ slot_cells s2 ++ others.
Proof.
  intros Hvw Hv Hw. set (base := <[v := Moved]> ls).
  assert (base !! w = Some s2) as Hbw by (unfold base; by rewrite list_lookup_insert_ne).
  destruct (owns_update base w s2 Hbw) as (others & _ & Hset).
  assert (forall x y, owns (<[w := y]> (<[v := x]> ls)) ≡ₚ slot_cells x ++ slot_cells y ++ others) as H.
  { intros x y. assert (<[w := y]> base !! v = Some Moved) as Hbv.
    { rewrite list_lookup_insert_ne by done. unfold base. apply list_lookup_insert_eq. by eapply lookup_lt_Some. }
    destruct (owns_update _ v _ Hbv) as (o & E1 & E2). specialize (E2 x).
    rewrite (list_insert_insert_ne _ v w) in E2 by done. unfold base in E2. rewrite list_insert_insert_eq in E2.
    rewrite E2. rewrite <- Hset. fold base in E1. by rewrite E1. }
  exists others. split; [|exact H].
  rewrite <- (H s1 s2), (list_insert_id ls v) by done. by rewrite list_insert_id.
Qed.

Lemma edit2_command env ls js o v path w js' :
  state_ok env ls js -> arun_command (Edit2 o v path w) js = Some js' ->
  spec lit_cells (owns ls) (run_command (Edit2 o v path w) env) (steps_to js').
Proof.
  intros Hst Hrun. cbn [arun_command run_command] in *. destruct (Nat.eqb_spec v w) as [|Hvw]; [done|].
  apply bind_Some in Hrun as (j & Hj & Hrun). apply bind_Some in Hrun as (jit & Hjit & Hrun).
  apply bind_Some in Hrun as (je & Hje & Hrun). apply bind_Some in Hrun as ([je' js1] & Hm & Hrun).
  injection Hrun as <-.
  destruct (held_slot env ls js v j Hst Hj) as (l & Hv & <- & Hl & ->).
  destruct (held_slot env ls js w jit Hst Hjit) as (it & Hw & <- & Hit & ->).
  destruct (place_exists l path je Hl Hje) as (e & fill & Hplace & <- & He).
  destruct (owns_update2 ls v w _ _ Hvw Hv Hw) as (others & Eo & Eset). cbn [slot_cells] in Eo. rewrite Eo.
  pose proof (Hplace None None) as (pv & nx & around & Hown & Hfill & Hset & Hok & Hloc).
  eapply spec_bind; [apply Hloc|]. intros r P [-> E]. rewrite E. rewrite <- Hfill, (Hown e eq_refl).
  apply (spec_call _ _ (own pv nx e ++ own None None it) (around ++ others) _ _
    (fun _ => edited pv nx e je' js1 (kept it))); [by apply edit2_spec|solve_Permutation|].
  intros a0 P1 (e' & s & E1 & Ha & <- & <- & He' & Hs & Hkept). apply spec_ret.
  pose proof (refill env ls js v l path e fill e' Hst Hv Hplace Ha He') as Hst'. rewrite <- Hfill in Hst'.
  assert (<[v := Holds (Some (fill e'))]> ls !! w = Some (Holds (Some it))) as Hw' by (by rewrite list_lookup_insert_ne).
  exists (<[w := s]> (<[v := Holds (Some (fill e'))]> ls)). split.
  - rewrite Eset. cbn [slot_cells]. rewrite (Hown e' Ha), E1. solve_Permutation.
  - apply (state_set _ _ _ _ _ _ Hst' Hw'); [|done]. intros p Hp.
    destruct Hkept as [->|(it' & -> & Hit')]; [done|]. cbn in *. by rewrite Hit'.
Qed.

Lemma drop_command env ls js v js' :
  state_ok env ls js -> arun_command (Drop v) js = Some js' ->
  spec lit_cells (owns ls) (run_command (Drop v) env) (steps_to js').
Proof.
  intros Hst Hrun. cbn [arun_command run_command] in *. apply bind_Some in Hrun as (j & Hj & Hrun).
  injection Hrun as <-. destruct (held_slot env ls js v j Hst Hj) as (l & Hv & <- & Hl & ->).
  destruct (owns_update ls v _ Hv) as (others & Eo & Eset). cbn [slot_cells] in Eo.
  apply (spec_call _ _ (own None None l) others _ _ (fun _ P' => P' = [])); [apply Delete_spec, Hl|done|].
  intros _ _ ->. apply spec_ret. exists (<[v := Moved]> ls). split; [by rewrite Eset|].
  by apply (state_set env ls js v Moved _ Hst Hv).
Qed.

Lemma run_spec cs env ls js js' :
  state_ok env ls js -> arun cs js = Some js' -> spec lit_cells (owns ls) (run cs env) (steps_to js').
Proof.
  revert env ls js. induction cs as [|c cs IH]; intros env ls js Hst Hrun; cbn [arun run] in *.
  - injection Hrun as <-. apply spec_ret. by exists ls.
  - apply bind_Some in Hrun as (js1 & Hc & Hrun). eapply spec_bind.
    + destruct c; [by eapply new_command|by eapply edit1_command|by eapply edit2_command|by eapply drop_command].
    + intros env' P' (ls' & -> & Hst'). by eapply IH.
Qed.

(** ** Reading back *)

Lemma read_text_spec {B} P vs (c : option string -> C B) Q :
  (forall a s, vs = Some (a, s) -> exists st, (a, Text st s) ∈ P ++ lit_cells) ->
  spec lit_cells P (c (snd <$> vs)) Q -> spec lit_cells P (read_text (fst <$> vs) ≫= c) Q.
Proof.
  intros Hin Hc. destruct vs as [[a s]|]; cbn; [|by apply spec_ret_bind].
  destruct (Hin a s eq_refl) as [st Ha]. apply spec_assoc. eapply spec_text; [done|]. by apply spec_ret_bind.
Qed.

Lemma read_list_spec fuel ls pv :
  Forall tree_ok ls -> (sizes ls < fuel)%nat ->
  spec lit_cells (seg pv ls None) (read_list fuel (first_or None ls))
    (fun js P' => js = map erase ls /\ P' ≡ₚ seg pv ls None).
Proof.
  revert ls pv. induction fuel as [|fuel IH]; intros ls pv Hok Hf; [lia|].
  destruct ls as [|c ls]; [by apply spec_ret|].
  apply Forall_cons in Hok as [Hc Hls]. rewrite seg_cons. cbn [read_list first_or].
  destruct (tree_ok_Own c Hc) as (a & t & vs & vi & vd & k & ch & ->). simpl in Hf.
  assert (forall kp ks, k = Some (kp, ks) -> exists st, (kp, Text st ks) ∈
    own pv (first_or None ls) (Own a t vs vi vd k ch) ++ lit_cells) as Hkey
    by (intros kp ks ->; apply key_in; [apply Hc|done]).
  apply tree_ok_children in Hc as (_ & _ & Hch). rewrite own_Own in *. cbn [addr]. sp_step.
  apply read_text_spec.
  { intros b s ->. exists false. apply elem_of_app. left. cbn. set_solver. }
  apply read_text_spec.
  { intros kp ks E. destruct (Hkey kp ks E) as [st Hin]. exists st. set_solver. }
  eapply (spec_call _ _ (seg None ch None) ((a, Struct (root pv (first_or None ls) (Own a t vs vi vd k ch))) ::
    text_cells vs ++ key_cells t k ++ seg (Some a) ls None)); [by apply IH; [|lia]|solve_Permutation|].
  intros js P' [-> E]. rewrite E.
  eapply (spec_call _ _ (seg (Some a) ls None) ((a, Struct (root pv (first_or None ls) (Own a t vs vi vd k ch))) ::
    text_cells vs ++ key_cells t k ++ seg None ch None)); [by apply IH; [|lia]|solve_Permutation|].
  intros js P2 [-> E2]. apply spec_ret. split; [done|]. rewrite E2. solve_Permutation.
Qed.

Lemma read_spec l : tree_ok l ->
  spec lit_cells (own None None l) (read (Some (addr l))) (fun o P' => o = Some (erase l) /\ P' ≡ₚ own None None l).
Proof.
  intros Hl. unfold read. apply spec_fuel_bind. intros n Hn.
  pose proof (read_list_spec n [l] None) as Hr. rewrite seg_one in Hr.
  eapply spec_bind; [apply Hr; [by constructor|]|].
  - pose proof (sizes_seg None [l] None) as Hs. rewrite seg_one in Hs. lia.
  - intros js P' [-> E]. by apply spec_ret.
Qed.

Lemma length_blocks l : tree_ok l -> length (body l) = pred (blocks (erase l)).
Proof.
  induction l as [a t vs vi vd k ch IH|] using layout_ind'; [|by intros [_ ?]].
  intros (_ & _ & Hch)%tree_ok_children. cbn [body erase blocks valuestring key type child pred].
  rewrite !length_app.
  assert (forall pv, length (seg pv ch None) = list_sum (map blocks (map erase ch))) as ->.
  { induction IH as [|c ch Hc _ IHch]; intros pv; [done|]. apply Forall_cons in Hch as [Hcok Hch].
    rewrite seg_cons. unfold own. simpl. rewrite length_app, IHch, Hc by done. destruct c; simpl; lia. }
  unfold key_cells. destruct vs as [[]|], k as [[]|], (is_const t); simpl; lia.
Qed.

Lemma length_own l : tree_ok l -> length (own None None l) = blocks (erase l).
Proof. intros Hl. unfold own. simpl. rewrite length_blocks by done. by destruct l. Qed.

Definition slot_blocks (s : slot cJSON) : nat := match s with Holds (Some j) => blocks j | _ => 0 end.

Lemma length_owns ls :
  Forall slot_ok ls -> length (owns ls) = list_sum (map slot_blocks (map (slot_map erase) ls)).
Proof.
  intros H. induction H as [|s ls Hs _ IH]; [done|]. unfold owns in *. simpl. rewrite length_app, IH.
  f_equal. destruct s as [|[l|]]; [done| |done]. by apply length_own.
Qed.

(** ** The refinement *)

(** A variable of the client, seen on the heap; reading changes nothing. *)
Definition shows (h : heap node) (p : ptr) (s : slot cJSON) : Prop :=
  match s with
  | Moved => True
  | Holds None => p = None
  | Holds (Some j) => read p h = Done (Some j, h)
  end.

Lemma owns_shown env ls js h :
  state_ok env ls js -> live h (owns ls ++ lit_cells) -> Forall2 (shows h) env js.
Proof.
  intros Hst Hlive. pose proof Hst as (Henv & Hok & ->). apply Forall2_fmap_r.
  apply Forall2_same_length_lookup. split; [by eapply Forall2_length|]. intros v p s Hp Hs.
  pose proof (Forall2_lookup_lr _ _ _ _ _ _ Henv Hp Hs) as Ha. destruct s as [|[l|]]; cbn in *; [done| |done].
  rewrite Forall_forall in Hok. pose proof (Hok _ (list_elem_of_lookup_2 _ _ _ Hs)) as Hl. cbn in Hl. subst p.
  destruct (owns_update ls v _ Hs) as (others & Eo & _). cbn [slot_cells] in Eo.
  destruct (read_spec l Hl others h) as (o & P' & h' & E & Hlive' & -> & EP).
  { eapply live_proper; [|exact Hlive]. rewrite Eo. solve_Permutation. }
  rewrite E. do 2 f_equal. apply (live_same h' h (owns ls ++ lit_cells)); [|done].
  eapply live_proper; [|exact Hlive']. rewrite Eo, EP. solve_Permutation.
Qed.

Definition program_heap : heap node := list_to_map lit_cells.

Lemma program_heap_live : NoDup lits.*1 -> live program_heap lit_cells.
Proof.
  intros Hn. split; [|done]. unfold lit_cells.
  replace (map _ lits).*1 with lits.*1; [done|]. clear. induction lits as [|[p s] l IH]; [done|]. cbn. by f_equal.
Qed.

End Client.

Arguments Moved {A}.
Arguments Holds {A} o.

(** ** An allocator, a client, and clients that break *)

(** The lowest address above those in use, while [hooks] serves the request. *)
Definition bump (hooks : Z -> bool) (h : heap node) (n : Z) : ptr :=
  if hooks n then Some (Pos.succ (foldr Pos.max 1%positive (map fst (map_to_list h)))) else None.

Lemma bump_ok (hooks : Z -> bool) (h : heap node) (n : Z) :
  if hooks n then exists a, bump hooks h n = Some a /\ h !! a = None else bump hooks h n = None.
Proof.
  unfold bump. destruct (hooks n); [|done]. eexists. split; [done|].
  destruct (h !! _) eqn:E; [|done]. exfalso.
  assert (forall l : list positive, Forall (fun p => p <= foldr Pos.max 1 l)%positive l) as Hmax.
  { induction l as [|p l IH]; constructor; cbn; [lia|]. eapply Forall_impl; [exact IH|]. cbn. lia. }
  specialize (Hmax (map fst (map_to_list h))). rewrite Forall_forall in Hmax.
  apply elem_of_map_to_list in E. specialize (Hmax _ (list_elem_of_fmap_2 fst _ _ E)). cbn in Hmax. lia.
Qed.

(** [{"a": [1, "x"], "b": null}] is built, its array copied, the copy edited, the
    member [b] replaced by it, and what is left over dropped; then two texts are parsed, the
    second of which is cut off, and a part of the first is moved. *)
Definition sample_lits : list (positive * string) :=
  [(1, "a"); (2, "b"); (3, "x"); (4, "[true, [2]]"); (5, "[true, [2")]%positive.
Definition sample : list command :=
  [New NewObject; New NewArray; New (NewNumber (double_of_Z 1)); New (NewString 3%positive);
   Edit2 AddArray 1 [] 2; Edit2 (InsertAt 9) 1 [] 3; Edit2 (AddObject 1%positive) 0 [] 1;
   New NewNull; Edit2 (AddObjectCS 2%positive) 0 [] 4;
   Edit1 (Copy true) 0 [0]; Edit1 (DetachAt 1) 5 []; Edit1 (DeleteMember 1%positive false) 0 [];
   Edit2 (ReplaceMember 2%positive true) 0 [] 5; Drop 6;
   New (NewParsed 4%positive); New (NewParsed 5%positive);
   Edit1 (DetachAt 1) 8 []; Edit2 (InsertAt 0) 0 [0] 10].

Definition sample_result : list (slot cJSON) :=
  [Holds (Some (mk_cJSON cJSON_Object None 0 zero_double None
     [mk_cJSON cJSON_Array None 0 zero_double (Some "b")
        [mk_cJSON cJSON_Array None 0 zero_double None
           [mk_cJSON cJSON_Number None 2 (sd_val (strtod "2")) None []];
         mk_cJSON cJSON_Number None 1 (double_of_Z 1) None []]]));
   Moved; Moved; Moved; Moved; Moved; Moved; Holds None;
   Holds (Some (mk_cJSON cJSON_Array None 0 zero_double None [mk_cJSON cJSON_True None 1 zero_double None []]));
   Holds None; Moved].


(** *** What the rules exclude *)

Definition undefined {A} (o : outcome A) : bool := match o with Undef => true | _ => false end.
Definition after {A} (c : C A) : outcome (A * heap node) := c (program_heap sample_lits).

(** A reference shares the children of its item: once the item is deleted, reading or
    printing the reference reads freed blocks. *)
Example reference_outlives_item :
  undefined (after (
    item ← snowflake_cJSON_CreateArray (bump all_hooks);
    n ← snowflake_cJSON_CreateNull (bump all_hooks);
    _ ← snowflake_cJSON_AddItemToArray item n;
    root ← snowflake_cJSON_CreateArray (bump all_hooks);
    _ ← snowflake_cJSON_AddItemReferenceToArray (bump all_hooks) root item;
    _ ← snowflake_cJSON_Delete item;
    read root)) = true.
Proof. vm_compute. reflexivity. Qed.

(** Deleted in the other order both are freed, the shared child once. *)
Example reference_deleted_first :
  (fun '(_, h) => size h) <$> (match after (
    item ← snowflake_cJSON_CreateArray (bump all_hooks);
    n ← snowflake_cJSON_CreateNull (bump all_hooks);
    _ ← snowflake_cJSON_AddItemToArray item n;
    root ← snowflake_cJSON_CreateArray (bump all_hooks);
    _ ← snowflake_cJSON_AddItemReferenceToArray (bump all_hooks) root item;
    _ ← snowflake_cJSON_Delete root;
    snowflake_cJSON_Delete item) with Done r => Some r | _ => None end) = Some 5%nat.
Proof. vm_compute. reflexivity. Qed.

(** An item added to an empty array through a reference to it is linked to the reference
    alone, which does not free it: a leak. *)
Example added_through_reference_leaks :
  (fun '(_, h) => size h) <$> (match after (
    item ← snowflake_cJSON_CreateArray (bump all_hooks);
    root ← snowflake_cJSON_CreateArray (bump all_hooks);
    _ ← snowflake_cJSON_AddItemReferenceToArray (bump all_hooks) root item;
    reference ← snowflake_cJSON_GetArrayItem root 0;
    n ← snowflake_cJSON_CreateNull (bump all_hooks);
    _ ← snowflake_cJSON_AddItemToArray reference n;
    _ ← snowflake_cJSON_Delete root;
    snowflake_cJSON_Delete item) with Done r => Some r | _ => None end) = Some 6%nat.
Proof. vm_compute. reflexivity. Qed.

(** ReplaceItemInObject frees the replacement's name before it copies the new one: passing
    that very name is a use after free. *)
Example replace_by_own_name :
  undefined (after (
    object ← snowflake_cJSON_CreateObject (bump all_hooks);
    a ← snowflake_cJSON_CreateNull (bump all_hooks);
    _ ← snowflake_cJSON_AddItemToObject (bump all_hooks) object (Some 1%positive) a;
    copy ← snowflake_cJSON_Duplicate (bump all_hooks) a true;
    n ← load copy;
    snowflake_cJSON_ReplaceItemInObject (bump all_hooks) object (name n) copy)) = true.
Proof. vm_compute. reflexivity. Qed.

(** AddItemToObject whose copy of the name fails clears the flag of a constant name all
    the same: the item then passes a literal to [free]. *)
Definition no_copies (n : Z) : bool := n =? sizeof_cJSON.
Example failed_copy_frees_literal :
  undefined (after (
    object ← snowflake_cJSON_CreateObject (bump no_copies);
    a ← snowflake_cJSON_CreateNull (bump no_copies);
    _ ← snowflake_cJSON_AddItemToObjectCS object (Some 1%positive) a;
    a ← snowflake_cJSON_DetachItemFromArray object 0;
    _ ← snowflake_cJSON_AddItemToObject (bump no_copies) object (Some 2%positive) a;
    snowflake_cJSON_Delete a)) = true.
Proof. vm_compute. reflexivity. Qed.
