(* ===== verification/RbTree.v ===== *)
(** * lib/rbtree.c: the red-black tree of named bind parameters.

    The nodes live in a heap, a finite map from addresses to the C struct, and the
    code is translated pointer by pointer: [store] is that heap with [*T], the
    caller's root pointer.  Dereferencing NULL or an address that is not a node is
    [Undef]. *)

From Stdlib Require Import Sorted.
From S2P Require Import Prelude CLib.

Inductive Color := RED | BLACK.
#[export] Instance Color_eq_dec : EqDecision Color.
Proof. solve_decision. Defined.

Abbreviation loc := positive.

Inductive SF_INT_RET_CODE :=
| SF_INT_RET_CODE_SUCCESS
| SF_INT_RET_CODE_ERROR
| SF_INT_RET_CODE_BAD_INDEX
| SF_INT_RET_CODE_NODE_NOT_FOUND
| SF_INT_RET_CODE_DUPLICATES.

Section RbTree.
  Context {E : Type}.

Record RedBlackNode := mk_node {
  color : Color;
  elem : option E;
  key : option string;
  left : option loc;
  right : option loc;
  parent : option loc
}.
Definition set_node_color c n := mk_node c (elem n) (key n) (left n) (right n) (parent n).
Definition set_entry e k n := mk_node (color n) e k (left n) (right n) (parent n).
Definition set_left p n := mk_node (color n) (elem n) (key n) p (right n) (parent n).
Definition set_right p n := mk_node (color n) (elem n) (key n) (left n) p (parent n).
Definition set_parent p n := mk_node (color n) (elem n) (key n) (left n) (right n) p.

Record store := mk_store {
  heap : gmap loc RedBlackNode;
  root : option loc       (* [*T] *)
}.

Definition load (s : store) (l : loc) : outcome RedBlackNode := deref (heap s !! l).
Definition update (l : loc) (f : RedBlackNode -> RedBlackNode) (s : store) : outcome store :=
  n ← load s l; Done (mk_store (<[l := f n]> (heap s)) (root s)).

(** ** Translation *)

(** SF_CALLOC: a zeroed node ([RED] is 0); [served] tells whether the allocation
    succeeds. *)
Definition calloc_node (served : bool) (s : store) : option (loc * store) :=
  if served then
    let l := fresh (dom (heap s)) in
    Some (l, mk_store (<[l := mk_node RED None None None None None]> (heap s)) (root s))
  else None.

Definition rbtree_init (served : bool) (s : store) : option (loc * store) :=
  match calloc_node served s with
  | None => None
  | Some (l, s) => Some (l, mk_store (<[l := mk_node BLACK None None None None None]> (heap s)) (root s))
  end.

Definition rbtree_get_uncle (s : store) (target : loc) : outcome (option loc) :=
  t ← load s target;
  p ← deref (parent t);
  pn ← load s p;
  match parent pn with
  | None => Done None
  | Some g =>
      gn ← load s g;
      Done (if decide (right gn = Some p) then left gn else right gn)
  end.

Definition rbtree_set_color (node : option loc) (c : Color) (s : store) : outcome store :=
  match node with
  | Some l => update l (set_node_color c) s
  | None => Done s
  end.

Definition rbtree_get_color (s : store) (node : option loc) : outcome Color :=
  match node with
  | None => Done BLACK
  | Some l => n ← load s l; Done (color n)
  end.

(** The last statement of both rotations: [node]'s old parent (or the root
    pointer) now points to [child]. *)
Definition replace_child (par : option loc) (node child : loc) (s : store) : outcome store :=
  match par with
  | None => Done (mk_store (heap s) (Some child))
  | Some p =>
      pn ← load s p;
      if decide (right pn = Some node) then update p (set_right (Some child)) s
      else update p (set_left (Some child)) s
  end.

Definition rbtree_rotate_left (node : loc) (s : store) : outcome store :=
  n ← load s node;
  rchild ← deref (right n);
  s ← update rchild (set_parent (parent n)) s;
  rc ← load s rchild;
  s ← update node (set_right (left rc)) s;
  s ← (match left rc with Some b => update b (set_parent (Some node)) s | None => Done s end);
  s ← update rchild (set_left (Some node)) s;
  s ← update node (set_parent (Some rchild)) s;
  replace_child (parent n) node rchild s.

Definition rbtree_rotate_right (node : loc) (s : store) : outcome store :=
  n ← load s node;
  lchild ← deref (left n);
  s ← update lchild (set_parent (parent n)) s;
  lc ← load s lchild;
  s ← update node (set_left (right lc)) s;
  s ← (match right lc with Some b => update b (set_parent (Some node)) s | None => Done s end);
  s ← update lchild (set_right (Some node)) s;
  s ← update node (set_parent (Some lchild)) s;
  replace_child (parent n) node lchild s.

Definition parent_of (s : store) (l : loc) : outcome loc := n ← load s l; deref (parent n).

Fixpoint fix_loop (fuel : nat) (target : loc) (s : store) : outcome store :=
  if decide (Some target = root s) then Done s
  else
    t ← load s target;
    pc ← rbtree_get_color s (parent t);
    match pc with
    | BLACK => Done s
    | RED =>
        match fuel with
        | O => NoFuel
        | S fuel =>
            p ← deref (parent t);
            g ← parent_of s p;
            gn ← load s g;
            if decide (left gn = Some p) then
              uncle ← rbtree_get_uncle s target;
              uc ← rbtree_get_color s uncle;
              match uc with
              | RED =>
                  s ← rbtree_set_color (Some p) BLACK s;
                  s ← rbtree_set_color uncle BLACK s;
                  s ← rbtree_set_color (Some g) RED s;
                  fix_loop fuel g s
              | BLACK =>
                  pn ← load s p;
                  '(target, s) ← (if decide (right pn = Some target)
                                  then s ← rbtree_rotate_left p s; Done (p, s) else Done (target, s));
                  p ← parent_of s target;
                  s ← rbtree_set_color (Some p) BLACK s;
                  g ← parent_of s p;
                  s ← rbtree_set_color (Some g) RED s;
                  s ← rbtree_rotate_right g s;
                  fix_loop fuel target s
              end
            else
              uncle ← rbtree_get_uncle s target;
              uc ← rbtree_get_color s uncle;
              match uc with
              | RED =>
                  s ← rbtree_set_color (Some p) BLACK s;
                  s ← rbtree_set_color uncle BLACK s;
                  s ← rbtree_set_color (Some g) RED s;
                  fix_loop fuel g s
              | BLACK =>
                  pn ← load s p;
                  '(target, s) ← (if decide (left pn = Some target)
                                  then s ← rbtree_rotate_right p s; Done (p, s) else Done (target, s));
                  p ← parent_of s target;
                  s ← rbtree_set_color (Some p) BLACK s;
                  g ← parent_of s p;
                  s ← rbtree_set_color (Some g) RED s;
                  s ← rbtree_rotate_left g s;
                  fix_loop fuel target s
              end
        end
    end.

Definition rbtree_fix_tree (fuel : nat) (target : option loc) (s : store) : outcome (SF_INT_RET_CODE * store) :=
  match target with
  | None => Done (SF_INT_RET_CODE_ERROR, s)
  | Some target =>
      s ← fix_loop fuel target s;
      r ← deref (root s);
      s ← update r (set_node_color BLACK) s;
      Done (SF_INT_RET_CODE_SUCCESS, s)
  end.

(** A new red leaf below [node], on the side [side] sets, then the repair. *)
Definition attach (fuel : nat) (served : bool) (node : loc)
    (side : option loc -> RedBlackNode -> RedBlackNode) (param : E) (name : string) (s : store)
  : outcome (SF_INT_RET_CODE * store) :=
  match calloc_node served s with
  | None => Done (SF_INT_RET_CODE_ERROR, s)
  | Some (l, s) =>
      s ← update node (side (Some l)) s;
      s ← update l (set_entry (Some param) (Some name)) s;
      s ← update l (set_parent (Some node)) s;
      s ← update l (set_node_color RED) s;
      r ← rbtree_fix_tree fuel (Some l) s;
      Done (SF_INT_RET_CODE_SUCCESS, snd r)
  end.

Fixpoint insert_loop (fuel : nat) (served : bool) (node : loc) (param : E) (name : string) (s : store)
  : outcome (SF_INT_RET_CODE * store) :=
  match fuel with
  | O => NoFuel
  | S fuel' =>
      n ← load s node;
      k ← deref (key n);
      let cmp := strcmp name k in
      if cmp =? 0 then
        s ← update node (set_entry (Some param) (Some name)) s;
        Done (SF_INT_RET_CODE_DUPLICATES, s)
      else if cmp >? 0 then
        match right n with
        | Some r => insert_loop fuel' served r param name s
        | None => attach (size (heap s) + 1) served node set_right param name s
        end
      else
        match left n with
        | Some l => insert_loop fuel' served l param name s
        | None => attach (size (heap s) + 1) served node set_left param name s
        end
  end.

Definition rbtree_insert (served : bool) (param : option E) (name : option string) (s : store)
  : outcome (SF_INT_RET_CODE * store) :=
  match root s, param, name with
  | Some r, Some param, Some name =>
      n ← load s r;
      match elem n with
      | None => s ← update r (set_entry (Some param) (Some name)) s; Done (SF_INT_RET_CODE_SUCCESS, s)
      | Some _ => insert_loop (size (heap s)) served r param name s
      end
  | _, _, _ => Done (SF_INT_RET_CODE_ERROR, s)
  end.

Fixpoint search_loop (fuel : nat) (s : store) (node : loc) (name : string) : outcome (option E) :=
  match fuel with
  | O => NoFuel
  | S fuel =>
      n ← load s node;
      k ← deref (key n);
      let cmp := strcmp name k in
      if cmp =? 0 then Done (elem n)
      else
        match (if cmp <? 0 then left n else right n) with
        | None => Done None
        | Some c => search_loop fuel s c name
        end
  end.

Definition rbtree_search_node (s : store) (tree : option loc) (name : option string) : outcome (option E) :=
  match tree with
  | None => Done None
  | Some r =>
      n ← load s r;
      match elem n, name with
      | Some _, Some name => search_loop (size (heap s)) s r name
      | _, _ => Done None
      end
  end.

(** [free]: the address must hold a node. *)
Definition free_node (l : loc) (s : store) : outcome store :=
  _ ← load s l; Done (mk_store (delete l (heap s)) (root s)).

Fixpoint rbtree_deallocate (fuel : nat) (node : option loc) (s : store) : outcome store :=
  match node with
  | None => Done s
  | Some l =>
      match fuel with
      | O => NoFuel
      | S fuel =>
          n ← load s l;
          s ← rbtree_deallocate fuel (left n) s;
          n ← load s l;
          s ← rbtree_deallocate fuel (right n) s;
          s ← update l (set_left None) s;
          s ← update l (set_right None) s;
          free_node l s
      end
  end.
End RbTree.
Arguments RedBlackNode E : clear implicits.
Arguments store E : clear implicits.

(** ** The shape of the heap: trees and contexts *)

Section Shape.
  Context {E : Type}.

Inductive tree :=
| Leaf
| Node (l : loc) (c : Color) (k : string) (e : E) (a b : tree).

Definition ptr (t : tree) : option loc := match t with Leaf => None | Node l _ _ _ _ _ => Some l end.

(** A frame is an ancestor of the focus: the focus is its left or right child. *)
Inductive frame :=
| InLeft (l : loc) (c : Color) (k : string) (e : E) (sibling : tree)
| InRight (l : loc) (c : Color) (k : string) (e : E) (sibling : tree).

Definition floc (f : frame) : loc := match f with InLeft l _ _ _ _ | InRight l _ _ _ _ => l end.
Definition fcolor (f : frame) : Color := match f with InLeft _ c _ _ _ | InRight _ c _ _ _ => c end.
Definition fsib (f : frame) : tree := match f with InLeft _ _ _ _ b | InRight _ _ _ _ b => b end.
Definition fill (f : frame) (t : tree) : tree :=
  match f with
  | InLeft l c k e b => Node l c k e t b
  | InRight l c k e a => Node l c k e a t
  end.

(** The context of a focus, innermost frame first. *)
Fixpoint plug (ctx : list frame) (t : tree) : tree :=
  match ctx with
  | [] => t
  | f :: ctx => plug ctx (fill f t)
  end.
Definition up (ctx : list frame) : option loc := floc <$> head ctx.

Fixpoint locs (t : tree) : list loc :=
  match t with Leaf => [] | Node l _ _ _ a b => l :: locs a ++ locs b end.
Definition flocs (f : frame) : list loc := floc f :: locs (fsib f).
Definition clocs (ctx : list frame) : list loc := concat (map flocs ctx).

Definition cell (c : Color) (k : string) (e : E) (a b par : option loc) : RedBlackNode E :=
  mk_node c (Some e) (Some k) a b par.

(** The heap holds the tree, below the parent [par]. *)
Fixpoint rep (h : gmap loc (RedBlackNode E)) (par : option loc) (t : tree) : Prop :=
  match t with
  | Leaf => True
  | Node l c k e a b =>
      h !! l = Some (cell c k e (ptr a) (ptr b) par) /\ rep h (Some l) a /\ rep h (Some l) b
  end.

(** The heap holds the context, around a focus at [p]. *)
Fixpoint rep_ctx (h : gmap loc (RedBlackNode E)) (p : option loc) (ctx : list frame) : Prop :=
  match ctx with
  | [] => True
  | f :: ctx =>
      match f with
      | InLeft l c k e b => h !! l = Some (cell c k e p (ptr b) (up ctx)) /\ rep h (Some l) b
      | InRight l c k e a => h !! l = Some (cell c k e (ptr a) p (up ctx)) /\ rep h (Some l) a
      end /\ rep_ctx h (Some (floc f)) ctx
  end.

Definition top (p : option loc) (ctx : list frame) : option loc :=
  match last ctx with Some f => Some (floc f) | None => p end.

(** The store holds [plug ctx t], with the focus at [t]. *)
Definition holds (s : store E) (ctx : list frame) (t : tree) : Prop :=
  rep (heap s) (up ctx) t /\ rep_ctx (heap s) (ptr t) ctx /\ NoDup (locs t ++ clocs ctx) /\
  root s = top (ptr t) ctx.

(** ** Moving the focus *)

Lemma rep_insert h par t l n : l ∉ locs t -> rep h par t -> rep (<[l := n]> h) par t.
Proof.
  revert par. induction t as [|l' c k e a IHa b IHb]; intros par; cbn; [done|].
  intros Hl (H & Ha & Hb). rewrite not_elem_of_cons, not_elem_of_app in Hl. destruct Hl as (? & ? & ?).
  rewrite lookup_insert_ne by done. auto.
Qed.

Lemma rep_ctx_insert h p ctx l n : l ∉ clocs ctx -> rep_ctx h p ctx -> rep_ctx (<[l := n]> h) p ctx.
Proof.
  revert p. induction ctx as [|f ctx IH]; intros p; cbn; [done|].
  intros Hl [Hf Hc]. rewrite not_elem_of_cons, not_elem_of_app in Hl. destruct Hl as (? & ? & ?).
  split; [|auto]. destruct f; cbn in *; rewrite lookup_insert_ne by done; split; try apply rep_insert; naive_solver.
Qed.

Lemma top_cons p f ctx : top p (f :: ctx) = top (Some (floc f)) ctx.
Proof. unfold top. rewrite last_cons. by destruct (last ctx). Qed.

Lemma ptr_fill f t : ptr (fill f t) = Some (floc f).
Proof. by destruct f. Qed.

Lemma locs_fill f t : locs (fill f t) ≡ₚ locs t ++ flocs f.
Proof. destruct f; unfold flocs; cbn; solve_Permutation. Qed.

Lemma holds_up s f ctx t : holds s (f :: ctx) t <-> holds s ctx (fill f t).
Proof.
  unfold holds. rewrite top_cons, ptr_fill, locs_fill. cbn [clocs map concat]. rewrite app_assoc.
  change (concat (map flocs ctx)) with (clocs ctx).
  assert (rep (heap s) (up (f :: ctx)) t /\ rep_ctx (heap s) (ptr t) (f :: ctx) <->
          rep (heap s) (up ctx) (fill f t) /\ rep_ctx (heap s) (Some (floc f)) ctx); [|naive_solver].
  destruct f; cbn; unfold up; cbn; naive_solver.
Qed.

Lemma holds_plug s ctx t : holds s ctx t <-> holds s [] (plug ctx t).
Proof. revert t. induction ctx as [|f ctx IH]; intros t; cbn; [done|]. by rewrite holds_up, IH. Qed.

(** Two ways to focus the same tree. *)
Lemma holds_refocus s ctx1 t1 ctx2 t2 : plug ctx1 t1 = plug ctx2 t2 -> holds s ctx1 t1 -> holds s ctx2 t2.
Proof. intros H. rewrite holds_plug, H, <- holds_plug. done. Qed.

Lemma holds_load s ctx l c k e a b :
  holds s ctx (Node l c k e a b) -> load s l = Done (cell c k e (ptr a) (ptr b) (up ctx)).
Proof. intros [[H _] _]. unfold load. by rewrite H. Qed.
End Shape.
Arguments tree E : clear implicits.
Arguments frame E : clear implicits.

(** ** The heap operations on focused trees *)

Section Ops.
  Context {E : Type}.

Lemma update_ok (s : store E) l f n : heap s !! l = Some n -> update l f s = Done (mk_store (<[l := f n]> (heap s)) (root s)).
Proof. intros H. unfold update, load. by rewrite H. Qed.

(** Distinct addresses, from [NoDup] in the context. *)
Ltac split_nodup H :=
  repeat (rewrite ?NoDup_cons, ?NoDup_app, ?not_elem_of_cons, ?not_elem_of_app, ?elem_of_cons, ?elem_of_app in H;
          cbn [app locs clocs flocs floc fsib map concat] in H).

Ltac lkup := repeat first [rewrite lookup_insert_eq | rewrite lookup_insert_ne by congruence].

Lemma set_color_holds (s : store E) ctx l c c' k e a b :
  holds s ctx (Node l c k e a b) ->
  exists s', rbtree_set_color (Some l) c' s = Done s' /\ holds s' ctx (Node l c' k e a b).
Proof.
  intros ((Hl & Ha & Hb) & Hc & Hn & Hr). cbn in Hn, Hc, Hr. cbn [rbtree_set_color].
  rewrite (update_ok _ _ _ _ Hl). eexists; split; [done|].
  apply NoDup_cons in Hn as Hn'. destruct Hn' as [Hnot _]. rewrite !not_elem_of_app in Hnot. destruct Hnot as [[? ?] ?].
  unfold holds. cbn [heap root rep ptr locs]. split_and!; auto using rep_insert, rep_ctx_insert.
  by rewrite lookup_insert_eq.
Qed.

(** What the rotations do to the node above, or to the root pointer. *)
Lemma replace_child_holds (s : store E) ctx node child :
  rep_ctx (heap s) (Some node) ctx -> root s = top (Some node) ctx -> NoDup (node :: clocs ctx) ->
  exists s', replace_child (up ctx) node child s = Done s' /\
    rep_ctx (heap s') (Some child) ctx /\ root s' = top (Some child) ctx /\
    (forall l, l ∉ clocs ctx -> heap s' !! l = heap s !! l).
Proof.
  destruct ctx as [|f ctx]; cbn [up head fmap option_fmap option_map replace_child]; intros Hc Hr Hn.
  - eexists; split; [done|]. done.
  - cbn in Hc. destruct Hc as [Hf Hc].
    apply NoDup_cons in Hn as [Hnode Hn]. cbn in Hnode, Hn. rewrite not_elem_of_cons, not_elem_of_app in Hnode.
    apply NoDup_cons in Hn as [Hfl Hn]. rewrite not_elem_of_app in Hfl. destruct Hfl, Hnode as (? & Hns & ?).
    rewrite top_cons in *. unfold load.
    destruct f as [l c k e b|l c k e a]; cbn [floc fsib] in *; destruct Hf as [Hl Hb]; rewrite Hl; cbn [deref];
      rewrite bind_Done_l; cbn [right cell].
    + destruct (decide (ptr b = Some node)) as [Eb|].
      { exfalso. destruct b; [done|]. injection Eb as ->. cbn in Hns. set_solver. }
      rewrite (update_ok _ _ _ _ Hl). eexists; split; [done|]. cbn. split_and!; auto using rep_insert, rep_ctx_insert.
      * by rewrite lookup_insert_eq.
      * intros l' Hl'. apply lookup_insert_ne. cbn in Hl'. set_solver.
    + destruct (decide (Some node = Some node)) as [_|]; [|done].
      rewrite (update_ok _ _ _ _ Hl). eexists; split; [done|]. cbn. split_and!; auto using rep_insert, rep_ctx_insert.
      * by rewrite lookup_insert_eq.
      * intros l' Hl'. apply lookup_insert_ne. cbn in Hl'. set_solver.
Qed.

Lemma rep_frame (h h' : gmap loc (RedBlackNode E)) par t :
  (forall l, l ∈ locs t -> h' !! l = h !! l) -> rep h par t -> rep h' par t.
Proof.
  revert par. induction t as [|l c k e a IHa b IHb]; intros par Hl; cbn; [done|].
  intros (H & Ha & Hb). rewrite Hl by (cbn; set_solver). split_and!; [done| |].
  - apply IHa; [|done]. intros l' ?. apply Hl. cbn. set_solver.
  - apply IHb; [|done]. intros l' ?. apply Hl. cbn. set_solver.
Qed.

Lemma rep_ctx_frame (h h' : gmap loc (RedBlackNode E)) p ctx :
  (forall l, l ∈ clocs ctx -> h' !! l = h !! l) -> rep_ctx h p ctx -> rep_ctx h' p ctx.
Proof.
  revert p. induction ctx as [|f ctx IH]; intros p Hx; cbn; [done|].
  intros [Hf Hc]. split; [|apply IH; [intros l Hl; apply Hx; cbn; set_solver|done]].
  destruct f; cbn in *; destruct Hf as [Hf Hs]; rewrite Hx by set_solver; (split; [done|]);
    (eapply rep_frame; [|exact Hs]); intros l' ?; apply Hx; set_solver.
Qed.

Lemma NoDup_perm {A} (l1 l2 : list A) : l1 ≡ₚ l2 -> NoDup l1 -> NoDup l2.
Proof. by intros ->. Qed.

Lemma reparent_ok (s : store E) par np t :
  rep (heap s) par t -> NoDup (locs t) ->
  exists s', match ptr t with Some b => update b (set_parent (Some np)) s | None => Done s end = Done s' /\
    rep (heap s') (Some np) t /\ root s' = root s /\ (forall l, l ∉ locs t -> heap s' !! l = heap s !! l).
Proof.
  destruct t as [|l c k e a b]; cbn [ptr].
  - intros _ _. by exists s.
  - intros (Hl & Ha & Hb) Hn. rewrite (update_ok _ _ _ _ Hl). eexists; split; [done|].
    cbn in Hn. apply NoDup_cons in Hn as [Hn _]. rewrite not_elem_of_app in Hn. destruct Hn.
    cbn. split_and!; auto using rep_insert.
    + by rewrite lookup_insert_eq.
    + intros l' Hl'. apply lookup_insert_ne. cbn in Hl'. set_solver.
Qed.

Lemma rotate_left_holds (s : store E) ctx ln cn kn en A lr cr kr er B C :
  holds s ctx (Node ln cn kn en A (Node lr cr kr er B C)) ->
  exists s', rbtree_rotate_left ln s = Done s' /\ holds s' ctx (Node lr cr kr er (Node ln cn kn en A B) C).
Proof.
  intros ((Hln & HA & (Hlr & HB & HC)) & Hctx & Hnd & Hroot). cbn [ptr] in *.
  assert (NoDup (ln :: lr :: locs A ++ locs B ++ locs C ++ clocs ctx)) as Hp.
  { eapply NoDup_perm; [|exact Hnd]. cbn. solve_Permutation. }
  pose proof Hp as Hd. apply NoDup_cons in Hd as [Hnot1 Hd]. apply NoDup_cons in Hd as [Hnot2 Hd].
  apply NoDup_app in Hd as (HnA & HdA & Hd). apply NoDup_app in Hd as (HnB & HdB & Hd).
  apply NoDup_app in Hd as (HnC & HdC & HnX).
  rewrite not_elem_of_cons, !not_elem_of_app in Hnot1. destruct Hnot1 as (Hne & ? & ? & ? & ?).
  rewrite !not_elem_of_app in Hnot2. destruct Hnot2 as (? & ? & ? & ?).
  assert (forall l, l ∈ locs B -> l ∉ locs A /\ l ∉ locs C /\ l ∉ clocs ctx) as HB'.
  { intros l Hl. split_and!; [set_solver|..]; specialize (HdB l Hl); set_solver. }
  unfold rbtree_rotate_left, load. rewrite Hln. cbn [deref]. rewrite bind_Done_l. cbn [deref right parent cell]. rewrite bind_Done_l.
  rewrite (update_ok _ _ _ _ Hlr), bind_Done_l. cbn [heap root]. rewrite lookup_insert_eq. cbn [deref]. rewrite bind_Done_l.
  cbn [left set_parent cell].
  rewrite (update_ok _ ln _ (cell cn kn en (ptr A) (Some lr) (up ctx))) by (cbn; rewrite lookup_insert_ne by congruence; done).
  rewrite bind_Done_l. cbn [heap root].
  match goal with |- context [mk_store ?h (root s)] => set (h2 := h) end.
  destruct (reparent_ok (mk_store h2 (root s)) (Some lr) ln B) as (s3 & -> & HB3 & Hr3 & Hs3); [by repeat apply rep_insert|done|].
  cbn [heap root] in Hs3, Hr3. rewrite bind_Done_l.
  rewrite (update_ok s3 lr _ (cell cr kr er (ptr B) (ptr C) (up ctx))).
  2:{ rewrite Hs3 by done. unfold h2. rewrite lookup_insert_ne by congruence. by rewrite lookup_insert_eq. }
  rewrite bind_Done_l.
  rewrite (update_ok _ ln _ (cell cn kn en (ptr A) (ptr B) (up ctx))).
  2:{ cbn [heap]. rewrite lookup_insert_ne by congruence. rewrite Hs3 by done. unfold h2. by rewrite lookup_insert_eq. }
  rewrite bind_Done_l. cbn [heap root].
  match goal with |- context [mk_store ?h (root s3)] => set (h5 := h) end.
  assert (forall l, l <> ln -> l <> lr -> l ∉ locs B -> h5 !! l = heap s !! l) as Hh5.
  { intros l ???. unfold h5. rewrite !lookup_insert_ne by congruence. rewrite Hs3 by done. unfold h2.
    by rewrite !lookup_insert_ne by congruence. }
  destruct (replace_child_holds (mk_store h5 (root s3)) ctx ln lr) as (s6 & -> & Hctx6 & Hroot6 & Hs6).
  { cbn [heap]. unfold h5. do 2 (apply rep_ctx_insert; [done|]).
    assert (forall l, l ∈ clocs ctx -> heap s3 !! l = heap s !! l) as Hx.
    { intros l Hl. rewrite Hs3 by (intros Hb; by apply HB' in Hb as (_ & _ & ?)). unfold h2.
      rewrite !lookup_insert_ne by congruence. done. }
    by eapply rep_ctx_frame. }
  { cbn [root]. by rewrite Hr3. }
  { constructor; done. }
  exists s6. split; [done|]. cbn [heap root] in *. unfold holds. cbn [rep ptr].
  split_and!; try done.
  - rewrite Hs6 by done. unfold h5. rewrite lookup_insert_ne by congruence. by rewrite lookup_insert_eq.
  - rewrite Hs6 by done. unfold h5. by rewrite lookup_insert_eq.
  - eapply rep_frame; [|exact HA]. intros l Hl. rewrite Hs6 by (intros ?; eapply HdA; [exact Hl|set_solver]).
    apply Hh5; [by intros ->|by intros ->|intros Hb; by apply HB' in Hb as (? & _)].
  - eapply rep_frame; [|exact HB3]. intros l Hl. rewrite Hs6 by (by apply HB').
    unfold h5. rewrite !lookup_insert_ne by (intros ->; done). done.
  - eapply rep_frame; [|exact HC]. intros l Hl. rewrite Hs6 by (by apply HdC).
    apply Hh5; [by intros ->|by intros ->|intros Hb; by apply HB' in Hb as (_ & ? & _)].
  - eapply NoDup_perm; [|exact Hp]. cbn. solve_Permutation.
Qed.

Lemma rotate_right_holds (s : store E) ctx ln cn kn en A lr cr kr er B C :
  holds s ctx (Node ln cn kn en (Node lr cr kr er C B) A) ->
  exists s', rbtree_rotate_right ln s = Done s' /\ holds s' ctx (Node lr cr kr er C (Node ln cn kn en B A)).
Proof.
  intros ((Hln & (Hlr & HC & HB) & HA) & Hctx & Hnd & Hroot). cbn [ptr] in *.
  assert (NoDup (ln :: lr :: locs A ++ locs B ++ locs C ++ clocs ctx)) as Hp.
  { eapply NoDup_perm; [|exact Hnd]. cbn. solve_Permutation. }
  pose proof Hp as Hd. apply NoDup_cons in Hd as [Hnot1 Hd]. apply NoDup_cons in Hd as [Hnot2 Hd].
  apply NoDup_app in Hd as (HnA & HdA & Hd). apply NoDup_app in Hd as (HnB & HdB & Hd).
  apply NoDup_app in Hd as (HnC & HdC & HnX).
  rewrite not_elem_of_cons, !not_elem_of_app in Hnot1. destruct Hnot1 as (Hne & ? & ? & ? & ?).
  rewrite !not_elem_of_app in Hnot2. destruct Hnot2 as (? & ? & ? & ?).
  assert (forall l, l ∈ locs B -> l ∉ locs A /\ l ∉ locs C /\ l ∉ clocs ctx) as HB'.
  { intros l Hl. split_and!; [set_solver|..]; specialize (HdB l Hl); set_solver. }
  unfold rbtree_rotate_right, load. rewrite Hln. cbn [deref]. rewrite bind_Done_l. cbn [deref left parent cell]. rewrite bind_Done_l.
  rewrite (update_ok _ _ _ _ Hlr), bind_Done_l. cbn [heap root]. rewrite lookup_insert_eq. cbn [deref]. rewrite bind_Done_l.
  cbn [right set_parent cell].
  rewrite (update_ok _ ln _ (cell cn kn en (Some lr) (ptr A) (up ctx))) by (cbn; rewrite lookup_insert_ne by congruence; done).
  rewrite bind_Done_l. cbn [heap root].
  match goal with |- context [mk_store ?h (root s)] => set (h2 := h) end.
  destruct (reparent_ok (mk_store h2 (root s)) (Some lr) ln B) as (s3 & -> & HB3 & Hr3 & Hs3); [by repeat apply rep_insert|done|].
  cbn [heap root] in Hs3, Hr3. rewrite bind_Done_l.
  rewrite (update_ok s3 lr _ (cell cr kr er (ptr C) (ptr B) (up ctx))).
  2:{ rewrite Hs3 by done. unfold h2. rewrite lookup_insert_ne by congruence. by rewrite lookup_insert_eq. }
  rewrite bind_Done_l.
  rewrite (update_ok _ ln _ (cell cn kn en (ptr B) (ptr A) (up ctx))).
  2:{ cbn [heap]. rewrite lookup_insert_ne by congruence. rewrite Hs3 by done. unfold h2. by rewrite lookup_insert_eq. }
  rewrite bind_Done_l. cbn [heap root].
  match goal with |- context [mk_store ?h (root s3)] => set (h5 := h) end.
  assert (forall l, l <> ln -> l <> lr -> l ∉ locs B -> h5 !! l = heap s !! l) as Hh5.
  { intros l ???. unfold h5. rewrite !lookup_insert_ne by congruence. rewrite Hs3 by done. unfold h2.
    by rewrite !lookup_insert_ne by congruence. }
  destruct (replace_child_holds (mk_store h5 (root s3)) ctx ln lr) as (s6 & -> & Hctx6 & Hroot6 & Hs6).
  { cbn [heap]. unfold h5. do 2 (apply rep_ctx_insert; [done|]).
    assert (forall l, l ∈ clocs ctx -> heap s3 !! l = heap s !! l) as Hx.
    { intros l Hl. rewrite Hs3 by (intros Hb; by apply HB' in Hb as (_ & _ & ?)). unfold h2.
      rewrite !lookup_insert_ne by congruence. done. }
    by eapply rep_ctx_frame. }
  { cbn [root]. by rewrite Hr3. }
  { constructor; done. }
  exists s6. split; [done|]. cbn [heap root] in *. unfold holds. cbn [rep ptr].
  split_and!; try done.
  - rewrite Hs6 by done. unfold h5. rewrite lookup_insert_ne by congruence. by rewrite lookup_insert_eq.
  - eapply rep_frame; [|exact HC]. intros l Hl. rewrite Hs6 by (by apply HdC).
    apply Hh5; [by intros ->|by intros ->|intros Hb; by apply HB' in Hb as (_ & ? & _)].
  - rewrite Hs6 by done. unfold h5. by rewrite lookup_insert_eq.
  - eapply rep_frame; [|exact HB3]. intros l Hl. rewrite Hs6 by (by apply HB').
    unfold h5. rewrite !lookup_insert_ne by (intros ->; done). done.
  - eapply rep_frame; [|exact HA]. intros l Hl. rewrite Hs6 by (intros ?; eapply HdA; [exact Hl|set_solver]).
    apply Hh5; [by intros ->|by intros ->|intros Hb; by apply HB' in Hb as (? & _)].
  - eapply NoDup_perm; [|exact Hp]. cbn. solve_Permutation.
Qed.
End Ops.

(** ** The repair loop as a function on focused trees *)

Section Fix.
  Context {E : Type}.

Definition tcolor (t : tree E) : Color := match t with Leaf => BLACK | Node _ c _ _ _ _ => c end.
Definition recolor (c : Color) (t : tree E) : tree E :=
  match t with Leaf => Leaf | Node l _ k e a b => Node l c k e a b end.
Definition recolor_frame (c : Color) (f : frame E) : frame E :=
  match f with
  | InLeft l _ k e b => InLeft l c k e b
  | InRight l _ k e a => InRight l c k e a
  end.
Definition recolor_sib (c : Color) (f : frame E) : frame E :=
  match f with
  | InLeft l d k e b => InLeft l d k e (recolor c b)
  | InRight l d k e a => InRight l d k e (recolor c a)
  end.

(** The rotations: parent [f1] and grandparent [f2] of the focus [t]. *)
Definition rotated (f1 f2 : frame E) (t : tree E) : tree E :=
  match f2, f1, t with
  | InLeft g _ gk ge u, InLeft p _ pk pe sib, _ => Node p BLACK pk pe t (Node g RED gk ge sib u)
  | InLeft g _ gk ge u, InRight p pc pk pe sib, Node l _ k e a b =>
      Node l BLACK k e (Node p pc pk pe sib a) (Node g RED gk ge b u)
  | InRight g _ gk ge u, InRight p _ pk pe sib, _ => Node p BLACK pk pe (Node g RED gk ge u sib) t
  | InRight g _ gk ge u, InLeft p pc pk pe sib, Node l _ k e a b =>
      Node l BLACK k e (Node g RED gk ge u a) (Node p pc pk pe b sib)
  | _, _, Leaf => Leaf
  end.

Fixpoint fix_up (ctx : list (frame E)) (t : tree E) : tree E :=
  match ctx with
  | f1 :: f2 :: ctx' =>
      match fcolor f1 with
      | BLACK => recolor BLACK (plug ctx t)
      | RED =>
          match tcolor (fsib f2) with
          | RED => fix_up ctx' (fill (recolor_frame RED (recolor_sib BLACK f2)) (fill (recolor_frame BLACK f1) t))
          | BLACK => recolor BLACK (plug ctx' (rotated f1 f2 t))
          end
      end
  | _ => recolor BLACK (plug ctx t)
  end.

Definition black_root (ctx : list (frame E)) : Prop := forall f, last ctx = Some f -> fcolor f = BLACK.

Definition frame_cell (f : frame E) (p par : option loc) : RedBlackNode E :=
  match f with
  | InLeft l c k e b => cell c k e p (ptr b) par
  | InRight l c k e a => cell c k e (ptr a) p par
  end.

Lemma load_frame (s : store E) f ctx t :
  holds s (f :: ctx) t -> load s (floc f) = Done (frame_cell f (ptr t) (up ctx)).
Proof. intros (_ & [H _] & _). unfold load. destruct f; cbn in *; destruct H as [-> _]; done. Qed.

Lemma frame_not_root (s : store E) f ctx l c k e a b : holds s (f :: ctx) (Node l c k e a b) -> Some l <> root s.
Proof.
  intros (_ & _ & Hn & ->). cbn [ptr]. rewrite top_cons. unfold top. cbn [locs app] in Hn.
  apply NoDup_cons in Hn as [Hn _]. rewrite not_elem_of_app in Hn. destruct Hn as [_ Hn].
  intros Heq. apply Hn. clear Hn. destruct (last ctx) as [f'|] eqn:El.
  - injection Heq as ->. apply last_Some in El as [ctx' ->]. cbn. unfold clocs.
    rewrite map_app, concat_app. cbn. set_solver.
  - injection Heq as ->. cbn. set_solver.
Qed.

Lemma color_ptr (s : store E) par t : rep (heap s) par t -> rbtree_get_color s (ptr t) = Done (tcolor t).
Proof. destruct t; [done|]. cbn. intros [H _]. unfold load. by rewrite H. Qed.

(** Recolouring a frame, and the sibling in a frame. *)
Lemma set_color_frame (s : store E) c f ctx t :
  holds s (f :: ctx) t ->
  exists s', rbtree_set_color (Some (floc f)) c s = Done s' /\ holds s' (recolor_frame c f :: ctx) t.
Proof.
  rewrite holds_up. intros H. destruct f as [l d k e b|l d k e b]; cbn [fill floc] in *;
    apply (set_color_holds _ _ _ _ c) in H as (s' & -> & H); exists s'; split; try done; by rewrite holds_up.
Qed.

Lemma set_color_sib (s : store E) c f ctx t :
  holds s (f :: ctx) t ->
  exists s', rbtree_set_color (ptr (fsib f)) c s = Done s' /\ holds s' (recolor_sib c f :: ctx) t.
Proof.
  intros H. destruct (fsib f) as [|l d k e a b] eqn:Es.
  { exists s. split; [done|]. destruct f; cbn in *; by subst. }
  destruct f as [fl fc fk fe sib|fl fc fk fe sib]; cbn in Es; subst sib.
  - apply (holds_refocus _ _ _ (InRight fl fc fk fe t :: ctx) (Node l d k e a b)) in H; [|done].
    apply (set_color_holds _ _ _ _ c) in H as (s' & E1 & H). exists s'. split; [exact E1|].
    revert H. by apply holds_refocus.
  - apply (holds_refocus _ _ _ (InLeft fl fc fk fe t :: ctx) (Node l d k e a b)) in H; [|done].
    apply (set_color_holds _ _ _ _ c) in H as (s' & E1 & H). exists s'. split; [exact E1|].
    revert H. by apply holds_refocus.
Qed.

(** The uncle, read through the parent. *)
Lemma uncle_ok (s : store E) f1 f2 ctx l c k e a b :
  holds s (f1 :: f2 :: ctx) (Node l c k e a b) ->
  rbtree_get_uncle s l = Done (ptr (fsib f2)) /\ rbtree_get_color s (ptr (fsib f2)) = Done (tcolor (fsib f2)).
Proof.
  intros H. pose proof (holds_load _ _ _ _ _ _ _ _ H) as Hl. pose proof (load_frame _ _ _ _ H) as Hp.
  cbn [ptr] in Hp. rewrite holds_up in H. pose proof (load_frame _ _ _ _ H) as Hg.
  destruct H as (_ & [Hf _] & Hn & _). rewrite ptr_fill in Hg, Hf.
  assert (ptr (fsib f2) <> Some (floc f1)) as Hne.
  { rewrite locs_fill in Hn. intros Heq. destruct (fsib f2) as [|l' ? ? ? ? ?] eqn:Es; [done|]. injection Heq as ->.
    unfold flocs, clocs in Hn. cbn in Hn. unfold flocs in Hn. rewrite Es in Hn. cbn in Hn.
    rewrite <- app_assoc in Hn. cbn in Hn. apply NoDup_cons in Hn as [_ Hn]. apply NoDup_app in Hn as (_ & _ & Hn).
    apply NoDup_cons in Hn as [Hn _]. set_solver. }
  split.
  - unfold rbtree_get_uncle. rewrite Hl, bind_Done_l. cbn [parent cell up head fmap option_fmap option_map deref].
    rewrite bind_Done_l, Hp, bind_Done_l.
    assert (parent (frame_cell f1 (Some l) (up (f2 :: ctx))) = Some (floc f2)) as -> by (by destruct f1).
    rewrite Hg, bind_Done_l. destruct f2; cbn [frame_cell right left cell fsib] in *.
    + rewrite decide_False by done. done.
    + rewrite decide_True by done. done.
  - destruct f2; cbn [fsib] in *; destruct Hf as [_ Hs]; by eapply color_ptr.
Qed.

(** At a focus below a black parent the loop stops. *)
Lemma fix_loop_stop fuel (s : store E) f ctx l c k e a b :
  holds s (f :: ctx) (Node l c k e a b) -> fcolor f = BLACK -> fix_loop fuel l s = Done s.
Proof.
  intros H Hf. pose proof (frame_not_root _ _ _ _ _ _ _ _ _ H) as Hne.
  pose proof (holds_load _ _ _ _ _ _ _ _ H) as Hl. pose proof (load_frame _ _ _ _ H) as Hp.
  destruct fuel; cbn [fix_loop]; rewrite decide_False by done; rewrite Hl, bind_Done_l;
    cbn [parent cell up head fmap option_fmap option_map]; unfold rbtree_get_color; rewrite Hp, bind_Done_l;
    destruct f; cbn in *; subst; done.
Qed.

Lemma parent_of_frame (s : store E) f ctx l c k e a b :
  holds s (f :: ctx) (Node l c k e a b) -> parent_of s l = Done (floc f).
Proof. intros H. unfold parent_of. by rewrite (holds_load _ _ _ _ _ _ _ _ H). Qed.

(** The outer case of the repair: blacken the parent, redden the grandparent and
    rotate it away. *)
Lemma finish_right fuel (s : store E) p pc pk pe sib g gc gk ge u ctx l c k e a b :
  let t := Node l c k e a b in
  holds s (InLeft p pc pk pe sib :: InLeft g gc gk ge u :: ctx) t ->
  exists s', (p ← parent_of s l;
              s ← rbtree_set_color (Some p) BLACK s;
              g ← parent_of s p;
              s ← rbtree_set_color (Some g) RED s;
              s ← rbtree_rotate_right g s;
              fix_loop fuel l s) = Done s' /\
    holds s' ctx (Node p BLACK pk pe t (Node g RED gk ge sib u)).
Proof.
  intros t H. rewrite (parent_of_frame _ _ _ _ _ _ _ _ _ H), bind_Done_l.
  destruct (set_color_frame _ BLACK _ _ _ H) as (s1 & -> & H1). rewrite bind_Done_l. rewrite holds_up in H1.
  cbn [floc]. rewrite (parent_of_frame _ _ _ _ _ _ _ _ _ H1), bind_Done_l.
  destruct (set_color_frame _ RED _ _ _ H1) as (s2 & -> & H2). rewrite bind_Done_l. rewrite holds_up in H2.
  destruct (rotate_right_holds _ _ _ _ _ _ _ _ _ _ _ _ _ H2) as (s3 & E3 & H3). cbn [floc] in E3 |- *. rewrite E3, bind_Done_l.
  exists s3. split; [|done].
  eapply (fix_loop_stop _ _ (InLeft p BLACK pk pe (Node g RED gk ge sib u)) ctx l c k e a b); [by rewrite holds_up|done].
Qed.

Lemma finish_left fuel (s : store E) p pc pk pe sib g gc gk ge u ctx l c k e a b :
  let t := Node l c k e a b in
  holds s (InRight p pc pk pe sib :: InRight g gc gk ge u :: ctx) t ->
  exists s', (p ← parent_of s l;
              s ← rbtree_set_color (Some p) BLACK s;
              g ← parent_of s p;
              s ← rbtree_set_color (Some g) RED s;
              s ← rbtree_rotate_left g s;
              fix_loop fuel l s) = Done s' /\
    holds s' ctx (Node p BLACK pk pe (Node g RED gk ge u sib) t).
Proof.
  intros t H. rewrite (parent_of_frame _ _ _ _ _ _ _ _ _ H), bind_Done_l.
  destruct (set_color_frame _ BLACK _ _ _ H) as (s1 & -> & H1). rewrite bind_Done_l. rewrite holds_up in H1.
  cbn [floc]. rewrite (parent_of_frame _ _ _ _ _ _ _ _ _ H1), bind_Done_l.
  destruct (set_color_frame _ RED _ _ _ H1) as (s2 & -> & H2). rewrite bind_Done_l. rewrite holds_up in H2.
  destruct (rotate_left_holds _ _ _ _ _ _ _ _ _ _ _ _ _ H2) as (s3 & E3 & H3). cbn [floc] in E3 |- *. rewrite E3, bind_Done_l.
  exists s3. split; [|done].
  eapply (fix_loop_stop _ _ (InRight p BLACK pk pe (Node g RED gk ge u sib)) ctx l c k e a b); [by rewrite holds_up|done].
Qed.

(** The flip of a red uncle. *)
Lemma flip_ok (s : store E) f1 f2 ctx t (cont : store E -> outcome (store E)) :
  holds s (f1 :: f2 :: ctx) t ->
  exists s', (s ← rbtree_set_color (Some (floc f1)) BLACK s;
              s ← rbtree_set_color (ptr (fsib f2)) BLACK s;
              s ← rbtree_set_color (Some (floc f2)) RED s;
              cont s) = cont s' /\
    holds s' ctx (fill (recolor_frame RED (recolor_sib BLACK f2)) (fill (recolor_frame BLACK f1) t)).
Proof.
  intros H. destruct (set_color_frame _ BLACK _ _ _ H) as (s1 & -> & H1). rewrite bind_Done_l. rewrite holds_up in H1.
  destruct (set_color_sib _ BLACK _ _ _ H1) as (s2 & -> & H2). rewrite bind_Done_l.
  assert (floc f2 = floc (recolor_sib BLACK f2)) as -> by (by destruct f2).
  destruct (set_color_frame _ RED _ _ _ H2) as (s3 & -> & H3). rewrite bind_Done_l.
  exists s3. split; [done|]. by rewrite holds_up in H3.
Qed.

Lemma sib_not_focus (s : store E) f ctx l c k e a b :
  holds s (f :: ctx) (Node l c k e a b) -> ptr (fsib f) <> Some l.
Proof.
  intros (_ & _ & Hn & _) Heq. destruct (fsib f) eqn:Es; [done|]. injection Heq as ->.
  cbn in Hn. unfold flocs in Hn. rewrite Es in Hn. cbn in Hn. apply NoDup_cons in Hn as [Hn _]. set_solver.
Qed.

Lemma fix_loop_ok fuel (s : store E) ctx l c k e a b :
  let t := Node l c k e a b in
  holds s ctx t -> black_root ctx -> (length ctx <= fuel)%nat ->
  exists s' t', fix_loop fuel l s = Done s' /\ holds s' [] t' /\ recolor BLACK t' = fix_up ctx t.
Proof.
  remember (length ctx) as n eqn:En. assert (length ctx <= n)%nat as Hlen by lia. clear En.
  revert s ctx l c k e a b fuel Hlen. induction n as [|n IH]; intros s ctx l c k e a b fuel Hlen t H Hb Hf.
  { destruct ctx; [|cbn in Hlen; lia]. exists s, t. split_and!; [|done|done].
    destruct H as (_ & _ & _ & Hr). destruct fuel; cbn [fix_loop]; by rewrite Hr, decide_True. }
  destruct ctx as [|f1 ctx].
  { exists s, t. split_and!; [|done|done]. destruct H as (_ & _ & _ & Hr).
    destruct fuel; cbn [fix_loop]; by rewrite Hr, decide_True. }
  destruct (fcolor f1) eqn:Ec1.
  2:{ exists s, (plug (f1 :: ctx) t). split_and!.
      - by eapply fix_loop_stop.
      - by rewrite <- holds_plug.
      - cbn [fix_up]. destruct ctx; [done|]. by rewrite Ec1. }
  destruct ctx as [|f2 ctx]; [by rewrite (Hb f1 eq_refl) in Ec1|].
  destruct fuel as [|fuel]; [cbn in Hlen; lia|].
  pose proof (frame_not_root _ _ _ _ _ _ _ _ _ H) as Hne.
  pose proof (holds_load _ _ _ _ _ _ _ _ H) as Hl. pose proof (load_frame _ _ _ _ H) as Hp.
  destruct (uncle_ok _ _ _ _ _ _ _ _ _ _ H) as [Hun Huc].
  pose proof (sib_not_focus _ _ _ _ _ _ _ _ _ H) as Hsib.
  pose proof H as Hup. rewrite holds_up in Hup. pose proof (load_frame _ _ _ _ Hup) as Hg. rewrite ptr_fill in Hg.
  assert (ptr (fsib f2) <> Some (floc f1)) as Hsib2.
  { destruct f1; by apply (sib_not_focus _ _ _ _ _ _ _ _ _ Hup). }
  cbn [fix_loop]. rewrite decide_False by done. rewrite Hl, bind_Done_l.
  change (parent (cell c k e (ptr a) (ptr b) (up (f1 :: f2 :: ctx)))) with (Some (floc f1)).
  assert (rbtree_get_color s (Some (floc f1)) = Done RED) as ->.
  { unfold rbtree_get_color. rewrite Hp, bind_Done_l. by destruct f1; cbn in *; subst. }
  rewrite bind_Done_l. cbn [deref]. rewrite bind_Done_l.
  assert (parent_of s (floc f1) = Done (floc f2)) as ->.
  { unfold parent_of. rewrite Hp, bind_Done_l. by destruct f1. }
  rewrite bind_Done_l, Hg, bind_Done_l, Hun, !bind_Done_l, Huc, !bind_Done_l.
  assert (black_root ctx) as Hb'.
  { intros f E1. apply Hb. rewrite !last_cons. by rewrite E1. }
  assert (forall s', holds s' ctx (fill (recolor_frame RED (recolor_sib BLACK f2)) (fill (recolor_frame BLACK f1) t)) ->
    tcolor (fsib f2) = RED ->
    exists s'' t', fix_loop fuel (floc f2) s' = Done s'' /\ holds s'' [] t' /\ recolor BLACK t' = fix_up (f1 :: f2 :: ctx) t) as Hflip.
  { intros s' Hs' Hred. cbn [fix_up]. rewrite Ec1, Hred.
    destruct f2; cbn [recolor_frame recolor_sib fill floc] in *; apply IH; try done; cbn in *; lia. }
  assert (forall s' t1, holds s' ctx t1 -> tcolor (fsib f2) = BLACK -> t1 = rotated f1 f2 t ->
    exists s'' t', Done s' = Done s'' /\ holds s'' [] t' /\ recolor BLACK t' = fix_up (f1 :: f2 :: ctx) t) as Hrot.
  { intros s' t1 Hs' Hblack ->. exists s', (plug ctx (rotated f1 f2 t)). split_and!; [done|by rewrite <- holds_plug|].
    cbn [fix_up]. by rewrite Ec1, Hblack. }
  destruct f2 as [g gc gk ge u|g gc gk ge u]; cbn [frame_cell left floc fsib] in *.
  - rewrite decide_True by done. destruct (tcolor u) eqn:Eu.
    + edestruct (flip_ok s f1 (InLeft g gc gk ge u)) as (s' & -> & Hs'); [exact H|]. by apply Hflip.
    + rewrite Hp, bind_Done_l. destruct f1 as [p pc pk pe sib|p pc pk pe sib]; cbn [frame_cell right floc fsib] in *.
      * rewrite decide_False by done. rewrite bind_Done_l.
        edestruct finish_right as (s' & -> & Hs'); [exact H|]. by eapply Hrot.
      * rewrite decide_True by done. rewrite holds_up in H.
        destruct (rotate_left_holds _ _ _ _ _ _ _ _ _ _ _ _ _ H) as (s1 & -> & H1). rewrite !bind_Done_l.
        rewrite <- (holds_up _ (InLeft l c k e b)) in H1 || apply (holds_refocus _ _ _ (InLeft l c k e b :: InLeft g gc gk ge u :: ctx) (Node p pc pk pe sib a)) in H1; try done.
        edestruct finish_right as (s' & -> & Hs'); [exact H1|]. by eapply Hrot.
  - rewrite decide_False by done. destruct (tcolor u) eqn:Eu.
    + edestruct (flip_ok s f1 (InRight g gc gk ge u)) as (s' & -> & Hs'); [exact H|]. by apply Hflip.
    + rewrite Hp, bind_Done_l. destruct f1 as [p pc pk pe sib|p pc pk pe sib]; cbn [frame_cell left floc fsib] in *.
      * rewrite decide_True by done. rewrite holds_up in H.
        destruct (rotate_right_holds _ _ _ _ _ _ _ _ _ _ _ _ _ H) as (s1 & -> & H1). rewrite !bind_Done_l.
        apply (holds_refocus _ _ _ (InRight l c k e a :: InRight g gc gk ge u :: ctx) (Node p pc pk pe b sib)) in H1; try done.
        edestruct finish_left as (s' & -> & Hs'); [exact H1|]. by eapply Hrot.
      * rewrite decide_False by done. rewrite bind_Done_l.
        edestruct finish_left as (s' & -> & Hs'); [exact H|]. by eapply Hrot.
Qed.
End Fix.

(** ** Contents: the entries in order, and the map they are *)

Section Pure.
  Context {E : Type}.

Fixpoint elements (t : tree E) : list (string * E) :=
  match t with
  | Leaf => []
  | Node _ _ k e a b => elements a ++ (k, e) :: elements b
  end.
Definition fleft (f : frame E) : list (string * E) :=
  match f with InLeft _ _ _ _ _ => [] | InRight _ _ k e a => elements a ++ [(k, e)] end.
Definition fright (f : frame E) : list (string * E) :=
  match f with InLeft _ _ k e b => (k, e) :: elements b | InRight _ _ _ _ _ => [] end.
Fixpoint cleft (ctx : list (frame E)) : list (string * E) :=
  match ctx with [] => [] | f :: ctx => cleft ctx ++ fleft f end.
Fixpoint cright (ctx : list (frame E)) : list (string * E) :=
  match ctx with [] => [] | f :: ctx => fright f ++ cright ctx end.

Lemma elements_fill f t : elements (fill f t) = fleft f ++ elements t ++ fright f.
Proof. destruct f; cbn; by rewrite ?app_nil_r, <- ?app_assoc. Qed.

Lemma elements_plug ctx t : elements (plug ctx t) = cleft ctx ++ elements t ++ cright ctx.
Proof.
  revert t. induction ctx as [|f ctx IH]; intros t; cbn; [by rewrite app_nil_r|].
  by rewrite IH, elements_fill, <- !app_assoc.
Qed.

Lemma elements_recolor c t : elements (recolor c t) = elements t.
Proof. by destruct t. Qed.

Lemma fill_recolor c1 c2 f t : elements (fill (recolor_frame c1 (recolor_sib c2 f)) t) = elements (fill f t).
Proof. destruct f; cbn; by rewrite elements_recolor. Qed.

Lemma fill_recolor_frame c f t : elements (fill (recolor_frame c f) t) = elements (fill f t).
Proof. by destruct f. Qed.

Lemma elements_rotated f1 f2 l c k e a b :
  elements (rotated f1 f2 (Node l c k e a b)) = elements (fill f2 (fill f1 (Node l c k e a b))).
Proof. destruct f1, f2; cbn; by rewrite <- ?app_assoc; cbn; rewrite <- ?app_assoc. Qed.

Lemma fix_up_elements ctx l c k e a b :
  let t := Node l c k e a b in elements (fix_up ctx t) = elements (plug ctx t).
Proof.
  remember (length ctx) as n eqn:En. assert (length ctx <= n)%nat as Hlen by lia. clear En.
  revert ctx l c k e a b Hlen. induction n as [|n IH]; intros ctx l c k e a b Hlen t.
  { destruct ctx; [|cbn in Hlen; lia]. done. }
  destruct ctx as [|f1 [|f2 ctx]]; cbn [fix_up]; [done|by rewrite elements_recolor|].
  destruct (fcolor f1); [|by rewrite elements_recolor].
  destruct (tcolor (fsib f2)).
  - destruct f2 as [l2 c2 k2 e2 s2|l2 c2 k2 e2 s2]; cbn [recolor_frame recolor_sib fill];
      rewrite IH by (cbn in Hlen; lia); cbn [plug]; rewrite !elements_plug; cbn [fill elements];
      by rewrite elements_recolor, fill_recolor_frame.
  - rewrite elements_recolor. cbn [plug]. rewrite !elements_plug. unfold t. by rewrite elements_rotated.
Qed.

Definition klt (x y : string * E) : Prop := strcmp (fst x) (fst y) < 0.
Definition sorted (l : list (string * E)) : Prop := StronglySorted klt l.

Lemma sorted_app l1 l2 :
  sorted (l1 ++ l2) <-> sorted l1 /\ sorted l2 /\ (forall x y, x ∈ l1 -> y ∈ l2 -> klt x y).
Proof.
  unfold sorted. induction l1 as [|x l1 IH]; cbn.
  - split; [|naive_solver]. intros H. split_and!; [constructor|done|]. intros ? ? H1. by apply not_elem_of_nil in H1.
  - split.
    + intros H. apply StronglySorted_inv in H as [H Hx]. apply IH in H as (H1 & H2 & H3).
      apply Forall_app in Hx as [Hx1 Hx2]. split_and!; [by constructor|done|].
      intros y z [->|Hy]%elem_of_cons Hz; [|auto]. rewrite Forall_forall in Hx2. auto.
    + intros (H1 & H2 & H3). apply StronglySorted_inv in H1 as [H1 Hx]. constructor.
      * apply IH. split_and!; [done|done|]. intros y z Hy Hz. apply H3; [|done]. by apply list_elem_of_further.
      * apply Forall_app. split; [done|]. apply Forall_forall. intros z Hz. apply H3; [|done]. apply list_elem_of_here.
Qed.

(** The entry list as a map. *)
Definition to_map (l : list (string * E)) : gmap string E := list_to_map l.

Lemma sorted_not_elem l1 k e l2 : sorted (l1 ++ (k, e) :: l2) -> k ∉ l1.*1 /\ k ∉ l2.*1.
Proof.
  intros H. apply sorted_app in H as (_ & H2 & H3). apply StronglySorted_inv in H2 as [_ H2].
  split; intros ([k' e'] & Ek & Hin)%list_elem_of_fmap; cbn in Ek; subst k'.
  - assert (klt (k, e') (k, e)) as Hk by (apply H3; [done|apply list_elem_of_here]).
    unfold klt in Hk. cbn in Hk. rewrite strcmp_refl in Hk. lia.
  - rewrite Forall_forall in H2. specialize (H2 _ Hin). unfold klt in H2. cbn in H2. rewrite strcmp_refl in H2. lia.
Qed.

Lemma to_map_insert l1 k e l2 : k ∉ l1.*1 -> to_map (l1 ++ (k, e) :: l2) = <[k := e]> (to_map (l1 ++ l2)).
Proof.
  intros H. unfold to_map. rewrite !list_to_map_app. cbn.
  rewrite insert_union_r; [done|]. by apply not_elem_of_list_to_map_1.
Qed.

Lemma to_map_lookup l1 k e l2 : k ∉ l1.*1 -> to_map (l1 ++ (k, e) :: l2) !! k = Some e.
Proof. intros H. rewrite to_map_insert by done. apply lookup_insert_eq. Qed.

Lemma to_map_lookup_None l k : (forall x, x ∈ l -> fst x <> k) -> to_map l !! k = None.
Proof.
  intros H. apply not_elem_of_list_to_map_1. intros (x & -> & Hx)%list_elem_of_fmap. by apply (H x).
Qed.

(** ** Red-black balance *)

(** [rb p n t]: below a parent of colour [p], [t] has no red node with a red parent
    and [n] black nodes on every path. *)
Fixpoint rb (p : Color) (n : nat) (t : tree E) : Prop :=
  match t with
  | Leaf => n = O
  | Node _ RED _ _ a b => p = BLACK /\ rb RED n a /\ rb RED n b
  | Node _ BLACK _ _ a b => exists m, n = S m /\ rb BLACK m a /\ rb BLACK m b
  end.

Definition ccolor (ctx : list (frame E)) : Color := match ctx with f :: _ => fcolor f | [] => BLACK end.

(** The context is balanced around a focus with [n] black nodes on every path. *)
Fixpoint rb_ctx (n : nat) (ctx : list (frame E)) : Prop :=
  match ctx with
  | [] => True
  | f :: ctx =>
      rb (fcolor f) n (fsib f) /\
      match fcolor f with
      | RED => ccolor ctx = BLACK /\ ctx <> [] /\ rb_ctx n ctx
      | BLACK => rb_ctx (S n) ctx
      end
  end.

Lemma rb_BLACK p n t : rb p n t -> rb BLACK n t.
Proof. destruct t as [|l [] k e a b]; cbn; naive_solver. Qed.

Lemma rb_RED n t : rb BLACK n t -> tcolor t = BLACK -> rb RED n t.
Proof. destruct t as [|l [] k e a b]; cbn; naive_solver. Qed.

Lemma rb_fill n f t ctx :
  rb_ctx n (f :: ctx) -> rb (fcolor f) n t ->
  exists m, rb (ccolor ctx) m (fill f t) /\ rb_ctx m ctx.
Proof.
  intros [Hs Hc] Ht. destruct f as [l [] k e b|l [] k e a]; cbn in *.
  - exists n. naive_solver.
  - exists (S n). naive_solver.
  - exists n. naive_solver.
  - exists (S n). naive_solver.
Qed.

Lemma rb_plug n ctx t : rb_ctx n ctx -> rb (ccolor ctx) n t -> exists m, rb BLACK m (plug ctx t).
Proof.
  revert n t. induction ctx as [|f ctx IH]; intros n t Hc Ht; cbn [plug]; [eauto|].
  destruct (rb_fill n f t ctx Hc Ht) as (m & Hm & Hcm). by eapply IH.
Qed.

Lemma rb_recolor n t : rb BLACK n t -> t <> Leaf -> exists m, rb RED m (recolor BLACK t).
Proof.
  destruct t as [|l [] k e a b]; cbn; [done| |].
  - intros (_ & Ha & Hb) _. exists (S n), n. eauto using rb_BLACK.
  - intros (m & -> & Ha & Hb) _. eauto.
Qed.

(** Splitting a balanced tree at its left or right child. *)
Lemma rb_frame_left n ctx l c k e a b :
  rb_ctx n ctx -> rb (ccolor ctx) n (Node l c k e a b) -> (c = RED -> ctx <> []) ->
  exists m, rb_ctx m (InLeft l c k e b :: ctx) /\ rb c m a.
Proof.
  intros Hc H Hne. destruct c; cbn in H |- *.
  - destruct H as (? & ? & ?). exists n. split_and!; auto.
  - destruct H as (m & -> & ? & ?). exists m. auto.
Qed.
Lemma rb_frame_right n ctx l c k e a b :
  rb_ctx n ctx -> rb (ccolor ctx) n (Node l c k e a b) -> (c = RED -> ctx <> []) ->
  exists m, rb_ctx m (InRight l c k e a :: ctx) /\ rb c m b.
Proof.
  intros Hc H Hne. destruct c; cbn in H |- *.
  - destruct H as (? & ? & ?). exists n. split_and!; auto.
  - destruct H as (m & -> & ? & ?). exists m. auto.
Qed.

(** The repair restores the balance around a red focus. *)
Lemma fix_up_rb n ctx l k e a b :
  rb_ctx n ctx -> rb RED n a -> rb RED n b ->
  exists m, rb RED m (fix_up ctx (Node l RED k e a b)).
Proof.
  remember (length ctx) as len eqn:En. assert (length ctx <= len)%nat as Hlen by lia. clear En.
  revert n ctx l k e a b Hlen. induction len as [|len IH]; intros n ctx l k e a b Hlen Hc Ha Hb.
  { destruct ctx; [|cbn in Hlen; lia]. exists (S n), n. eauto using rb_BLACK. }
  destruct ctx as [|f1 ctx]; [exists (S n), n; eauto using rb_BLACK|].
  destruct (fcolor f1) eqn:E1.
  2:{ destruct (rb_plug n (f1 :: ctx) (Node l RED k e a b)) as (m & Hm); [done|by cbn; rewrite E1|].
      assert (fix_up (f1 :: ctx) (Node l RED k e a b) = recolor BLACK (plug (f1 :: ctx) (Node l RED k e a b))) as ->.
      { cbn [fix_up]. destruct ctx; [done|]. by rewrite E1. }
      apply (rb_recolor m); [done|]. intros Heq. apply (f_equal elements) in Heq. rewrite elements_plug in Heq.
      cbn in Heq. by destruct (cleft ctx), (fleft f1), (elements a). }
  cbn [rb_ctx] in Hc. rewrite E1 in Hc. destruct Hc as (Hs1 & Hcc & Hne & Hc).
  destruct ctx as [|f2 ctx]; [done|]. cbn in Hcc. cbn [rb_ctx] in Hc. rewrite Hcc in Hc. destruct Hc as [Hs2 Hc].
  cbn [fix_up]. rewrite E1. destruct (tcolor (fsib f2)) eqn:Eu.
  - assert (rb BLACK (S n) (recolor BLACK (fsib f2))) as Hu.
    { destruct (fsib f2) as [|l2 [] k2 e2 a2 b2]; cbn in *; try done. exists n. naive_solver eauto using rb_BLACK. }
    assert (rb RED (S n) (fill (recolor_frame BLACK f1) (Node l RED k e a b))) as Hf1.
    { destruct f1; cbn in *; exists n; naive_solver eauto using rb_BLACK. }
    assert (rb RED (S n) (recolor BLACK (fsib f2))) as Hu' by (apply rb_RED; [done|by destruct (fsib f2)]).
    destruct f2 as [l2 c2 k2 e2 s2|l2 c2 k2 e2 s2]; cbn [recolor_frame recolor_sib fill fsib] in *;
      (apply (IH (S n)); [cbn in Hlen; lia|done|done|done]).
  - assert (exists m, rb BLACK m (plug ctx (rotated f1 f2 (Node l RED k e a b)))) as (m & Hm).
    { apply (rb_plug (S n) ctx); [done|]. apply rb_RED in Hs2 as Hs2'; [|done].
      assert (rb BLACK (S n) (rotated f1 f2 (Node l RED k e a b)) /\ tcolor (rotated f1 f2 (Node l RED k e a b)) = BLACK) as [Hr Hrc].
      { destruct f1 as [l1 c1 k1 e1 s1|l1 c1 k1 e1 s1], f2 as [l2 c2 k2 e2 s2|l2 c2 k2 e2 s2]; cbn in *; subst; split; try done;
          exists n; naive_solver. }
      destruct (ccolor ctx); [by apply rb_RED|done]. }
    apply (rb_recolor m); [done|]. intros Heq. apply (f_equal elements) in Heq. rewrite elements_plug, elements_rotated in Heq.
    rewrite !elements_fill in Heq. cbn in Heq. by destruct (cleft ctx), (fleft f2), (fleft f1), (elements a).
Qed.
End Pure.

(** ** Insertion and search on the heap *)

Section Insert.
  Context {E : Type}.

Fixpoint height (t : tree E) : nat :=
  match t with Leaf => O | Node _ _ _ _ a b => S (Nat.max (height a) (height b)) end.

Lemma rep_dom (h : gmap loc (RedBlackNode E)) par t l : rep h par t -> l ∈ locs t -> l ∈ dom h.
Proof.
  revert par. induction t as [|l' c k e a IHa b IHb]; intros par; cbn; [set_solver|].
  intros (H & Ha & Hb) [->|Hl]%elem_of_cons; [by apply elem_of_dom|].
  apply elem_of_app in Hl as [?|?]; eauto.
Qed.

Lemma holds_size (s : store E) ctx t :
  holds s ctx t -> (length (locs t) + length (clocs ctx) <= size (heap s))%nat.
Proof.
  intros H. pose proof H as (_ & _ & Hn & _). rewrite <- length_app.
  assert (forall l, l ∈ locs t ++ clocs ctx -> l ∈ dom (heap s)) as Hd.
  { intros l Hl. apply holds_plug in H as (H & _). apply (rep_dom _ _ _ l H).
    revert t Hn H Hl. clear. induction ctx as [|f ctx IH]; intros t Hn H Hl; cbn in *; [by rewrite app_nil_r in Hl|].
    change (concat (map flocs ctx)) with (clocs ctx) in *.
    apply (IH (fill f t)); [|done|]; rewrite locs_fill, <- app_assoc; [exact Hn|exact Hl]. }
  rewrite <- size_dom. rewrite <- (size_list_to_set (C := gset loc) _ Hn).
  apply subseteq_size. intros l. rewrite elem_of_list_to_set. auto.
Qed.

Lemma height_le (t : tree E) : (height t <= length (locs t))%nat.
Proof. induction t; cbn; [lia|]. rewrite length_app. lia. Qed.

Lemma clocs_length (ctx : list (frame E)) : (length ctx <= length (clocs ctx))%nat.
Proof. induction ctx as [|f ctx IH]; cbn; [lia|]. rewrite length_app. unfold clocs in IH. lia. Qed.

Lemma set_entry_holds (s : store E) ctx l c k e k' e' a b :
  holds s ctx (Node l c k e a b) ->
  exists s', update l (set_entry (Some e') (Some k')) s = Done s' /\ holds s' ctx (Node l c k' e' a b).
Proof.
  intros ((Hl & Ha & Hb) & Hc & Hn & Hr). cbn in Hn, Hc, Hr.
  rewrite (update_ok _ _ _ _ Hl). eexists; split; [done|].
  apply NoDup_cons in Hn as Hn'. destruct Hn' as [Hnot _]. rewrite !not_elem_of_app in Hnot. destruct Hnot as [[? ?] ?].
  unfold holds. cbn [heap root rep ptr locs]. split_and!; auto using rep_insert, rep_ctx_insert.
  by rewrite lookup_insert_eq.
Qed.

Lemma fix_tree_ok fuel (s : store E) ctx l c k e a b :
  let t := Node l c k e a b in
  holds s ctx t -> black_root ctx -> (length ctx <= fuel)%nat ->
  exists s', rbtree_fix_tree fuel (Some l) s = Done (SF_INT_RET_CODE_SUCCESS, s') /\ holds s' [] (fix_up ctx t).
Proof.
  intros t H Hb Hf. destruct (fix_loop_ok fuel s ctx l c k e a b H Hb Hf) as (s1 & t1 & E1 & H1 & Et).
  unfold rbtree_fix_tree. rewrite E1, bind_Done_l.
  destruct t1 as [|l1 c1 k1 e1 a1 b1].
  { exfalso. apply (f_equal elements) in Et. unfold t in Et. rewrite fix_up_elements, elements_plug in Et. cbn in Et.
    by destruct (cleft ctx), (elements a). }
  pose proof H1 as (_ & _ & _ & Hr). rewrite Hr. unfold top. cbn [last ptr deref]. rewrite bind_Done_l.
  destruct (set_color_holds _ _ _ _ BLACK _ _ _ _ H1) as (s2 & E2 & H2). cbn [rbtree_set_color] in E2. rewrite E2, bind_Done_l.
  exists s2. split; [done|]. unfold t. by rewrite <- Et.
Qed.

(** A fresh red leaf in an empty slot. *)
Lemma attach_ok (s : store E) f ctx name param side fuel :
  holds s ctx (fill f Leaf) -> black_root (f :: ctx) -> (S (length ctx) <= fuel)%nat ->
  (forall p n, side p n = match f with InLeft _ _ _ _ _ => set_left p n | InRight _ _ _ _ _ => set_right p n end) ->
  exists s' new, attach fuel true (floc f) side param name s = Done (SF_INT_RET_CODE_SUCCESS, s') /\
    holds s' [] (fix_up (f :: ctx) (Node new RED name param Leaf Leaf)).
Proof.
  intros H Hb Hf Hside. unfold attach, calloc_node. cbn [heap root].
  set (new := fresh (dom (heap s))). assert (new ∉ dom (heap s)) as Hnew by apply is_fresh.
  assert (heap s !! new = None) as Hnone by (by apply not_elem_of_dom).
  rewrite <- holds_up in H.
  pose proof H as (_ & Hc & Hn & Hr). cbn [locs app] in Hn. cbn [ptr] in Hc, Hr.
  assert (forall l, l ∈ clocs (f :: ctx) -> l <> new) as Hne.
  { intros l Hl ->. apply Hnew. apply holds_plug in H as (H & _). apply (rep_dom _ _ _ _ H). cbn [plug].
    clear -Hl. revert Hl. generalize (Leaf : tree E). cbn [clocs map concat]. intros t Hl.
    assert (new ∈ locs (fill f t) ++ clocs ctx) as Hl'.
    { rewrite locs_fill. rewrite <- app_assoc. apply elem_of_app. by right. }
    revert Hl'. generalize (fill f t). clear. induction ctx as [|g ctx IH]; intros t Hl; cbn [plug]; [by rewrite app_nil_r in Hl|].
    apply IH. rewrite locs_fill. cbn in Hl. rewrite <- app_assoc. exact Hl. }
  assert (heap s !! floc f = Some (frame_cell f None (up ctx))) as Hfl.
  { cbn in Hc. destruct Hc as [Hc _]. by destruct f as [? ? ? ? ?|? ? ? ? ?]; cbn in *; destruct Hc as [-> _]. }
  rewrite (update_ok _ _ _ (frame_cell f None (up ctx))).
  2:{ cbn [heap]. rewrite lookup_insert_ne; [done|]. apply not_eq_sym, Hne. cbn. apply list_elem_of_here. }
  rewrite bind_Done_l. cbn [heap root].
  assert (floc f <> new) as Hfn by (apply Hne; cbn; apply list_elem_of_here).
  rewrite (update_ok _ _ _ (mk_node RED None None None None None)).
  2:{ cbn [heap]. rewrite lookup_insert_ne by done. by rewrite lookup_insert_eq. }
  rewrite bind_Done_l. cbn [heap root]. rewrite (update_ok _ _ _ (set_entry (Some param) (Some name) (mk_node RED None None None None None)))
    by (cbn [heap]; by rewrite lookup_insert_eq).
  rewrite bind_Done_l. cbn [heap root].
  rewrite (update_ok _ _ _ (set_parent (Some (floc f)) (set_entry (Some param) (Some name) (mk_node RED None None None None None))))
    by (cbn [heap]; by rewrite lookup_insert_eq).
  rewrite bind_Done_l. cbn [heap root].
  match goal with |- context [rbtree_fix_tree _ _ ?st] => set (s1 := st) end.
  assert (forall l, l <> new -> l <> floc f -> heap s1 !! l = heap s !! l) as Hs1.
  { intros l ? ?. unfold s1. cbn [heap]. by rewrite !lookup_insert_ne by done. }
  assert (holds s1 (f :: ctx) (Node new RED name param Leaf Leaf)) as H1.
  { unfold holds. split_and!.
    - cbn. split_and!; [|done|done]. by rewrite lookup_insert_eq.
    - cbn [rep_ctx ptr]. cbn in Hc. destruct Hc as [Hc1 Hc2]. split.
      + assert (heap s1 !! floc f = Some (frame_cell f (Some new) (up ctx))) as Hf1.
        { unfold s1. cbn [heap]. rewrite !(lookup_insert_ne _ new) by done. rewrite lookup_insert_eq, Hside. by destruct f. }
        cbn in Hn. apply NoDup_cons in Hn as [Hn _]. rewrite not_elem_of_app in Hn. destruct Hn as [Hn _].
        destruct f as [fl fc fk fe sib|fl fc fk fe sib]; cbn in Hf1, Hc1, Hn |- *; (split; [done|]); destruct Hc1 as [_ Hsib];
          (eapply rep_frame; [|exact Hsib]); intros l Hl; apply Hs1;
          try (apply Hne; cbn; set_solver); intros ->; done.
      + eapply rep_ctx_frame; [|exact Hc2]. intros l Hl. apply Hs1; [apply Hne; cbn; set_solver|].
        intros ->. cbn in Hn. apply NoDup_cons in Hn as [Hn _]. apply Hn. set_solver.
    - cbn [locs app]. apply NoDup_cons. split; [|exact Hn]. intros Hin. by apply (Hne new).
    - cbn [ptr root s1]. rewrite Hr. by rewrite !top_cons. }
  destruct (fix_tree_ok fuel s1 (f :: ctx) new RED name param Leaf Leaf H1 Hb) as (s2 & -> & H2); [cbn; lia|].
  rewrite bind_Done_l. cbn [snd]. eauto.
Qed.

Definition bounds (name : string) (ctx : list (frame E)) : Prop :=
  (forall x, x ∈ cleft ctx -> strcmp (fst x) name < 0) /\ (forall x, x ∈ cright ctx -> strcmp name (fst x) < 0).

(** What an insertion does to the list of entries. *)
Definition inserted (l : list (string * E)) (name : string) (e : E) (l' : list (string * E)) (code : SF_INT_RET_CODE) : Prop :=
  exists l1 l2, l' = l1 ++ (name, e) :: l2 /\
    (forall x, x ∈ l1 -> strcmp (fst x) name < 0) /\ (forall x, x ∈ l2 -> strcmp name (fst x) < 0) /\
    ((code = SF_INT_RET_CODE_DUPLICATES /\ exists old, l = l1 ++ (name, old) :: l2) \/
     (code = SF_INT_RET_CODE_SUCCESS /\ l = l1 ++ l2)).

Lemma bounds_sorted name ctx l c k e a b :
  sorted (elements (plug ctx (Node l c k e a b))) -> bounds name ctx ->
  (strcmp name k > 0 -> bounds name (InRight l c k e a :: ctx)) /\
  (strcmp name k < 0 -> bounds name (InLeft l c k e b :: ctx)) /\
  (name = k -> (forall x, x ∈ cleft ctx ++ elements a -> strcmp (fst x) name < 0) /\
               (forall x, x ∈ elements b ++ cright ctx -> strcmp name (fst x) < 0)).
Proof.
  rewrite elements_plug. cbn [elements]. intros Hs [Hl Hr].
  apply sorted_app in Hs as (_ & Hs & _). apply sorted_app in Hs as (Hs & _ & _).
  apply sorted_app in Hs as (_ & Hs & Hak). apply StronglySorted_inv in Hs as [_ Hkb]. rewrite Forall_forall in Hkb.
  assert (forall x, x ∈ elements a -> strcmp (fst x) k < 0) as Ha by (intros x Hx; apply (Hak x (k, e) Hx), list_elem_of_here).
  assert (forall x, x ∈ elements b -> strcmp k (fst x) < 0) as Hb by (intros x Hx; apply (Hkb x Hx)).
  assert (strcmp k name = - strcmp name k) as Hanti by apply strcmp_antisym.
  split_and!; unfold bounds; cbn [cleft cright fleft fright].
  - intros Hc. split; [|intros x Hx; by apply Hr]. intros x Hx.
    rewrite !elem_of_app in Hx. destruct Hx as [Hx|[Hx|Hx]]; [by apply Hl|..].
    + apply (strcmp_trans _ k); [by apply Ha|lia].
    + apply list_elem_of_singleton in Hx as ->. cbn. lia.
  - intros Hc. split; [intros x Hx; rewrite app_nil_r in Hx; by apply Hl|]. intros x Hx.
    rewrite elem_of_app, elem_of_cons in Hx. destruct Hx as [[->|Hx]|Hx]; [done| |by apply Hr].
    apply (strcmp_trans _ k); [lia|by apply Hb].
  - intros ->. split; intros x Hx; apply elem_of_app in Hx as [Hx|Hx]; auto.
Qed.

Lemma tcolor_plug ctx (t : tree E) : black_root ctx -> (ctx = [] -> tcolor t = BLACK) -> tcolor (plug ctx t) = BLACK.
Proof.
  revert t. induction ctx as [|f ctx IH]; intros t Hb Ht; cbn [plug]; [auto|]. apply IH.
  - intros g Hg. apply Hb. rewrite last_cons. by rewrite Hg.
  - intros ->. specialize (Hb f eq_refl). by destruct f.
Qed.

Lemma black_root_cons f (ctx : list (frame E)) :
  black_root ctx -> (ctx = [] -> fcolor f = BLACK) -> black_root (f :: ctx).
Proof.
  intros Hb Hf g. rewrite last_cons. destruct (last ctx) eqn:El; [intros [= <-]; by apply Hb|].
  apply last_None in El. intros [= <-]. auto.
Qed.

Lemma insert_loop_ok name param (t : tree E) : forall s fuel ctx n l c k e a b,
  t = Node l c k e a b -> holds s ctx t -> black_root ctx -> (ctx = [] -> c = BLACK) ->
  rb_ctx n ctx -> rb (ccolor ctx) n t -> sorted (elements (plug ctx t)) -> bounds name ctx -> (height t <= fuel)%nat ->
  exists code s' t', insert_loop fuel true l param name s = Done (code, s') /\ holds s' [] t' /\
    (exists m, rb RED m t') /\ inserted (elements (plug ctx t)) name param (elements t') code.
Proof.
  induction t as [|l0 c0 k0 e0 a0 IHa b0 IHb]; intros s fuel ctx n l c k e a b Et H Hbr Hroot Hrc Hrb Hs Hbd Hf; [done|].
  injection Et as -> -> -> -> -> ->. destruct fuel as [|fuel]; [cbn in Hf; lia|]. cbn [insert_loop].
  rewrite (holds_load _ _ _ _ _ _ _ _ H), bind_Done_l. cbn [key cell deref]. rewrite bind_Done_l.
  destruct (bounds_sorted _ _ _ _ _ _ _ _ Hs Hbd) as (Hright & Hleft & Hsame).
  pose proof (holds_size _ _ _ H) as Hsize. pose proof (clocs_length ctx) as Hcl. cbn [locs length] in Hsize.
  assert (c = RED -> ctx <> []) as Hred by (intros -> ->; by specialize (Hroot eq_refl)).
  destruct (strcmp name k =? 0) eqn:E0.
  { apply Z.eqb_eq, strcmp_eq in E0. destruct (Hsame E0) as [Hlo Hhi].
    destruct (set_entry_holds _ _ _ _ _ _ name param _ _ H) as (s1 & -> & H1). rewrite bind_Done_l.
    do 2 eexists. exists (plug ctx (Node l c name param a b)). split_and!; [done|by rewrite <- holds_plug| |].
    - destruct (rb_plug n ctx (Node l c name param a b)) as (m & Hm); [done|destruct c; exact Hrb|].
      exists m. apply rb_RED; [done|]. by apply tcolor_plug.
    - exists (cleft ctx ++ elements a), (elements b ++ cright ctx). rewrite !elements_plug. cbn [elements].
      rewrite <- !app_assoc. cbn [app]. split_and!; [done|done|done|].
      left. split; [done|]. exists e. rewrite <- app_assoc. by subst k. }
  apply Z.eqb_neq in E0. destruct (strcmp name k >? 0) eqn:E1.
  - destruct (rb_frame_right n ctx l c k e a b Hrc Hrb Hred) as (m & Hrc' & Hrb').
    specialize (Hright ltac:(lia)).
    assert (black_root (InRight l c k e a :: ctx)) as Hbr' by (by apply black_root_cons).
    cbn [right cell]. destruct b as [|lb cb kb eb b1 b2]; cbn [ptr].
    + destruct (attach_ok s (InRight l c k e a) ctx name param set_right (size (heap s) + 1)) as (s' & new & E2 & H2); [done|done|lia|done|].
      cbn [floc] in E2. rewrite E2. do 2 eexists. eexists. split_and!; [done|exact H2| |].
      * cbn in Hrb'. subst m. by apply (fix_up_rb 0).
      * rewrite fix_up_elements, !elements_plug. destruct Hright as [HL HR].
        exists (cleft (InRight l c k e a :: ctx)), (cright (InRight l c k e a :: ctx)). cbn [elements app].
        split_and!; [done|done|done|]. right. split; [done|]. cbn. by rewrite <- !app_assoc.
    + cbn in Hf. apply (IHb s fuel (InRight l c k e a :: ctx) m lb cb kb eb b1 b2); try done.
      * by rewrite holds_up.
      * cbn in Hf |- *. lia.
  - destruct (rb_frame_left n ctx l c k e a b Hrc Hrb Hred) as (m & Hrc' & Hrb').
    specialize (Hleft ltac:(lia)).
    assert (black_root (InLeft l c k e b :: ctx)) as Hbr' by (by apply black_root_cons).
    cbn [left cell]. destruct a as [|la ca ka ea a1 a2]; cbn [ptr].
    + destruct (attach_ok s (InLeft l c k e b) ctx name param set_left (size (heap s) + 1)) as (s' & new & E2 & H2); [done|done|lia|done|].
      cbn [floc] in E2. rewrite E2. do 2 eexists. eexists. split_and!; [done|exact H2| |].
      * cbn in Hrb'. subst m. by apply (fix_up_rb 0).
      * rewrite fix_up_elements, !elements_plug. destruct Hleft as [HL HR].
        exists (cleft (InLeft l c k e b :: ctx)), (cright (InLeft l c k e b :: ctx)). cbn [elements app].
        split_and!; [done|done|done|]. right. split; [done|]. cbn. by rewrite app_nil_r.
    + cbn in Hf. apply (IHa s fuel (InLeft l c k e b :: ctx) m la ca ka ea a1 a2); try done.
      * by rewrite holds_up.
      * cbn in Hf |- *. lia.
Qed.
End Insert.

(** ** The properties *)

Section Main.
  Context {E : Type}.

Lemma search_loop_ok name (t : tree E) : forall s fuel ctx l c k e a b,
  t = Node l c k e a b -> holds s ctx t -> sorted (elements (plug ctx t)) -> bounds name ctx -> (height t <= fuel)%nat ->
  search_loop fuel s l name = Done (to_map (elements (plug ctx t)) !! name).
Proof.
  induction t as [|l0 c0 k0 e0 a0 IHa b0 IHb]; intros s fuel ctx l c k e a b Et H Hs Hbd Hf; [done|].
  injection Et as -> -> -> -> -> ->. destruct fuel as [|fuel]; [cbn in Hf; lia|]. cbn [search_loop].
  rewrite (holds_load _ _ _ _ _ _ _ _ H), bind_Done_l. cbn [key cell deref]. rewrite bind_Done_l.
  destruct (bounds_sorted _ _ _ _ _ _ _ _ Hs Hbd) as (Hright & Hleft & Hsame).
  destruct (strcmp name k =? 0) eqn:E0.
  { apply Z.eqb_eq, strcmp_eq in E0. cbn [elem cell]. f_equal. rewrite elements_plug in *. cbn [elements] in *.
    subst k. rewrite <- !app_assoc, app_assoc in *. cbn [app] in *.
    apply sorted_not_elem in Hs as [Hs _]. symmetry. by apply to_map_lookup. }
  assert (forall f, bounds name (f :: ctx) -> fill f Leaf = Node l c k e a b ->
    to_map (elements (plug ctx (Node l c k e a b))) !! name = None) as Hnone.
  { intros f [HL HR] <-. change (plug ctx (fill f Leaf)) with (plug (f :: ctx) Leaf). rewrite elements_plug. cbn [elements app].
    apply to_map_lookup_None. intros x Hx Heq. apply elem_of_app in Hx as [Hx|Hx].
    - specialize (HL x Hx). rewrite Heq, strcmp_refl in HL. lia.
    - specialize (HR x Hx). rewrite Heq, strcmp_refl in HR. lia. }
  apply Z.eqb_neq in E0. destruct (strcmp name k <? 0) eqn:E1; cbn [left right cell].
  - specialize (Hleft ltac:(lia)). destruct a as [|la ca ka ea a1 a2]; cbn [ptr].
    + by rewrite (Hnone _ Hleft eq_refl).
    + apply (IHa s fuel (InLeft l c k e b :: ctx) la ca ka ea a1 a2); try done; [by rewrite holds_up|cbn in Hf |- *; lia].
  - specialize (Hright ltac:(lia)). destruct b as [|lb cb kb eb b1 b2]; cbn [ptr].
    + by rewrite (Hnone _ Hright eq_refl).
    + apply (IHb s fuel (InRight l c k e a :: ctx) lb cb kb eb b1 b2); try done; [by rewrite holds_up|cbn in Hf |- *; lia].
Qed.

Lemma rb_height p n (t : tree E) : rb p n t -> (height t <= 2 * n + match p with RED => 0 | BLACK => 1 end)%nat.
Proof.
  revert p n. induction t as [|l c k e a IHa b IHb]; intros p n; cbn; [lia|]. destruct c.
  - intros (-> & Ha & Hb). apply IHa in Ha. apply IHb in Hb. lia.
  - intros (m & -> & Ha & Hb). apply IHa in Ha. apply IHb in Hb. destruct p; lia.
Qed.

Lemma rb_size p n (t : tree E) : rb p n t -> (2 ^ n <= length (elements t) + 1)%nat.
Proof.
  revert p n. induction t as [|l c k e a IHa b IHb]; intros p n; cbn [rb elements length].
  - intros ->. cbn. lia.
  - rewrite length_app. cbn [length]. destruct c.
    + intros (-> & Ha & Hb). apply IHa in Ha. lia.
    + intros (m & -> & Ha & Hb). apply IHa in Ha. apply IHb in Hb. rewrite Nat.pow_succ_r'. lia.
Qed.

(** The invariant: the store holds a tree with the entries of [m] in [strcmp]
    order, balanced and with a black root, every parent pointer right; or the
    initial node without entry, for the empty map. *)
Definition represents (s : store E) (m : gmap string E) : Prop :=
  (m = ∅ /\ exists r, root s = Some r /\ heap s !! r = Some (mk_node BLACK None None None None None)) \/
  (exists t n, t <> Leaf /\ holds s [] t /\ sorted (elements t) /\ rb RED n t /\ to_map (elements t) = m).

Lemma sorted_NoDup (l : list (string * E)) : sorted l -> NoDup (l.*1).
Proof.
  induction l as [|[k e] l IH]; intros H; cbn; [constructor|].
  pose proof (sorted_not_elem [] k e l H) as [_ Hk]. apply NoDup_cons. split; [done|].
  apply IH. by apply StronglySorted_inv in H as [H _].
Qed.

Lemma to_map_size (l : list (string * E)) : sorted l -> size (to_map l) = length l.
Proof.
  induction l as [|[k e] l IH]; intros H; cbn; [by rewrite map_size_empty|].
  pose proof (sorted_not_elem [] k e l H) as [_ Hk]. rewrite map_size_insert_None.
  - f_equal. apply IH. by apply StronglySorted_inv in H as [H _].
  - by apply not_elem_of_list_to_map_1.
Qed.

Lemma height_bound (t : tree E) n :
  sorted (elements t) -> rb RED n t -> (height t <= 2 * Nat.log2 (size (to_map (elements t)) + 1))%nat.
Proof.
  intros Hs Hrb. rewrite to_map_size by done. pose proof (rb_height _ _ _ Hrb) as Hh. pose proof (rb_size _ _ _ Hrb) as Hz.
  apply Nat.log2_le_mono in Hz. rewrite Nat.log2_pow2 in Hz by lia. cbn in Hh. lia.
Qed.

Lemma inserted_sorted l name (e : E) l' code : sorted l -> inserted l name e l' code ->
  sorted l' /\ to_map l' = <[name := e]> (to_map l) /\
  code = match to_map l !! name with Some _ => SF_INT_RET_CODE_DUPLICATES | None => SF_INT_RET_CODE_SUCCESS end.
Proof.
  intros Hs (l1 & l2 & -> & H1 & H2 & Hcase).
  assert (sorted l1 /\ sorted l2) as [Hs1 Hs2].
  { destruct Hcase as [[_ [old ->]]|[_ ->]]; apply sorted_app in Hs as (? & Hs & _); split; try done.
    by apply StronglySorted_inv in Hs as [? _]. }
  assert (sorted (l1 ++ (name, e) :: l2)) as Hs'.
  { apply sorted_app. split_and!; [done| |].
    - constructor; [done|]. apply Forall_forall. intros x Hx. by apply H2.
    - intros x y Hx [->|Hy]%elem_of_cons; [by apply H1|]. apply (strcmp_trans _ name); [by apply H1|by apply H2]. }
  split; [done|]. pose proof (sorted_not_elem _ _ _ _ Hs') as [Hn1 Hn2].
  rewrite to_map_insert by done. destruct Hcase as [[-> [old ->]]|[-> ->]].
  - rewrite (to_map_insert _ _ old) by done. rewrite insert_insert_eq, lookup_insert_eq. done.
  - split; [done|]. rewrite to_map_lookup_None; [done|]. intros x Hx Heq. apply elem_of_app in Hx as [Hx|Hx].
    + apply Hn1. apply list_elem_of_fmap. by exists x.
    + apply Hn2. apply list_elem_of_fmap. by exists x.
Qed.

Lemma insert_represents (s : store E) m name param :
  represents s m ->
  exists s', rbtree_insert true (Some param) (Some name) s =
      Done (match m !! name with Some _ => SF_INT_RET_CODE_DUPLICATES | None => SF_INT_RET_CODE_SUCCESS end, s') /\
    represents s' (<[name := param]> m).
Proof.
  intros [(-> & r & Hr & Hn)|(t & n & Hne & H & Hs & Hrb & <-)]; unfold rbtree_insert.
  - rewrite Hr, lookup_empty. unfold load. rewrite Hn. cbn [deref]. rewrite bind_Done_l. cbn [elem].
    rewrite (update_ok _ _ _ _ Hn), bind_Done_l. eexists; split; [done|]. right.
    exists (Node r BLACK name param Leaf Leaf), 1%nat. split_and!; [done| |by repeat constructor|by exists O|done].
    unfold holds. cbn. split_and!; try done; [by rewrite lookup_insert_eq|repeat constructor; set_solver].
  - destruct t as [|l c k e a b]; [done|]. pose proof H as (_ & _ & _ & Hr). rewrite Hr. unfold top. cbn [last ptr].
    rewrite (holds_load _ _ _ _ _ _ _ _ H), bind_Done_l. cbn [elem cell].
    assert (c = BLACK) as -> by (destruct c; [destruct Hrb as [? _]; done|done]).
    destruct (insert_loop_ok name param (Node l BLACK k e a b) s (size (heap s)) [] n l BLACK k e a b)
      as (code & s' & t' & E1 & H' & [m' Hrb'] & Hins); try done.
    + split; intros x Hx; by apply not_elem_of_nil in Hx.
    + pose proof (holds_size _ _ _ H). pose proof (height_le (Node l BLACK k e a b)). lia.
    + cbn [plug] in Hins. destruct (inserted_sorted _ _ _ _ _ Hs Hins) as (Hs' & Em & Ec).
      exists s'. rewrite E1, Ec. split; [done|]. right. exists t', m'. split_and!; try done.
      intros ->. destruct Hins as (l1 & l2 & Hnil & _). by destruct l1.
Qed.

Lemma search_represents (s : store E) m name :
  represents s m ->
  rbtree_search_node s (root s) (Some name) = Done (m !! name) /\
  (m <> ∅ -> exists r, root s = Some r /\
     search_loop (2 * Nat.log2 (size m + 1)) s r name = Done (m !! name)).
Proof.
  intros [(-> & r & Hr & Hn)|(t & n & Hne & H & Hs & Hrb & <-)]; unfold rbtree_search_node.
  - rewrite Hr. unfold load. rewrite Hn. done.
  - destruct t as [|l c k e a b]; [done|]. pose proof H as (_ & _ & _ & Hr). rewrite Hr. unfold top. cbn [last ptr].
    rewrite (holds_load _ _ _ _ _ _ _ _ H), bind_Done_l. cbn [elem cell].
    assert (forall fuel, (height (Node l c k e a b) <= fuel)%nat ->
      search_loop fuel s l name = Done (to_map (elements (Node l c k e a b)) !! name)) as Hsearch.
    { intros fuel Hf. apply (search_loop_ok name (Node l c k e a b) s fuel [] l c k e a b); try done.
      split; intros x Hx; by apply not_elem_of_nil in Hx. }
    split.
    + apply Hsearch. pose proof (holds_size _ _ _ H). pose proof (height_le (Node l c k e a b)). lia.
    + intros _. exists l. split; [done|]. apply Hsearch. by eapply height_bound.
Qed.

(** C28: inserting refines a map update: from any tree in the invariant the loop
    ends, no NULL is dereferenced, the result holds the map with the name bound to
    the new element, again sorted, red-black balanced and with correct parent
    links, and the code says whether the name was there before. *)
Theorem rbtree_insert_correct (s : store E) m name param :
  represents s m ->
  exists s', rbtree_insert true (Some param) (Some name) s =
      Done (match m !! name with Some _ => SF_INT_RET_CODE_DUPLICATES | None => SF_INT_RET_CODE_SUCCESS end, s') /\
    represents s' (<[name := param]> m).
Proof. apply insert_represents. Qed.

(** searching returns the element of the map, NULL exactly for the names not
    in it, and takes at most 2 log2 (n + 1) comparisons for n names. *)
Theorem rbtree_search_correct (s : store E) m name :
  represents s m ->
  rbtree_search_node s (root s) (Some name) = Done (m !! name) /\
  (m <> ∅ -> exists r, root s = Some r /\
     search_loop (2 * Nat.log2 (size m + 1)) s r name = Done (m !! name)).
Proof. apply search_represents. Qed.

Lemma rep_delete (h : gmap loc (RedBlackNode E)) par t l : l ∉ locs t -> rep h par t -> rep (delete l h) par t.
Proof.
  intros Hl. apply rep_frame. intros l' Hl'. apply lookup_delete_ne. by intros ->.
Qed.

Lemma load_ok (s : store E) l n : heap s !! l = Some n -> load s l = Done n.
Proof. intros H. unfold load. by rewrite H. Qed.

Lemma deallocate_ok (t : tree E) : forall par s fuel, rep (heap s) par t -> NoDup (locs t) -> (height t <= fuel)%nat ->
  exists s', rbtree_deallocate fuel (ptr t) s = Done s' /\ root s' = root s /\
    forall l, heap s' !! l = if decide (l ∈ locs t) then None else heap s !! l.
Proof.
  induction t as [|l c k e a IHa b IHb]; intros par s fuel H Hn Hf; cbn [ptr].
  { exists s. destruct fuel; done. }
  destruct fuel as [|fuel]; [cbn in Hf; lia|]. cbn [rbtree_deallocate]. destruct H as (Hl & Ha & Hb).
  cbn [locs] in Hn. apply NoDup_cons in Hn as [Hnot Hn]. rewrite not_elem_of_app in Hnot. destruct Hnot as [Hla Hlb].
  apply NoDup_app in Hn as (Hna & Hdis & Hnb).
  rewrite (load_ok _ _ _ Hl), bind_Done_l. cbn [left cell].
  destruct (IHa (Some l) s fuel Ha Hna) as (s1 & -> & Hr1 & H1); [cbn in Hf; lia|]. rewrite bind_Done_l.
  assert (heap s1 !! l = Some (cell c k e (ptr a) (ptr b) par)) as Hl1 by (rewrite H1; by case_decide).
  rewrite (load_ok _ _ _ Hl1), bind_Done_l. cbn [right cell].
  destruct (IHb (Some l) s1 fuel) as (s2 & -> & Hr2 & H2); [|done|cbn in Hf; lia|].
  { eapply rep_frame; [|exact Hb]. intros l' Hl'. rewrite H1. case_decide as Hd; [|done]. by apply Hdis in Hd. }
  rewrite bind_Done_l.
  assert (heap s2 !! l = Some (cell c k e (ptr a) (ptr b) par)) as Hl2 by (rewrite H2; by case_decide).
  rewrite (update_ok _ _ _ _ Hl2), bind_Done_l. cbn [heap root].
  rewrite (update_ok _ _ _ (set_left None (cell c k e (ptr a) (ptr b) par))) by (cbn; by rewrite lookup_insert_eq).
  rewrite bind_Done_l. unfold free_node, load. cbn [heap root]. rewrite lookup_insert_eq. cbn [deref]. rewrite bind_Done_l.
  eexists; split; [done|]. cbn [heap root]. split; [congruence|]. intros l'. cbn [locs].
  destruct (decide (l' = l)) as [->|Hne].
  - rewrite lookup_delete_eq. case_decide as Hd; [done|]. exfalso. apply Hd. apply list_elem_of_here.
  - rewrite lookup_delete_ne, !lookup_insert_ne by done. rewrite H2, H1.
    repeat case_decide; try done; set_solver.
Qed.

(** deallocating the tree ends and frees every node of it exactly once (a
    second free would be undefined), touching no other address. *)
Theorem rbtree_deallocate_correct (s : store E) t :
  holds s [] t ->
  exists s', rbtree_deallocate (size (heap s)) (root s) s = Done s' /\
    forall l, heap s' !! l = if decide (l ∈ locs t) then None else heap s !! l.
Proof.
  intros H. pose proof (holds_size _ _ _ H) as Hz. pose proof (height_le t) as Hh.
  destruct H as (Hrep & _ & Hn & Hr). rewrite Hr. unfold top. cbn [last].
  destruct (deallocate_ok t None s (size (heap s)) Hrep) as (s' & E1 & _ & H').
  - apply NoDup_app in Hn as (Hn & _ & _). done.
  - lia.
  - by exists s'.
Qed.
End Main.

(** The initial tree of [rbtree_init], in a heap of its own. *)
Definition new_tree {E} : store E :=
  match rbtree_init true (mk_store ∅ None) with
  | Some (l, s) => mk_store (heap s) (Some l)
  | None => mk_store ∅ None
  end.

Lemma new_tree_represents {E} : represents (E := E) new_tree ∅.
Proof. left. split; [done|]. exists 1%positive. split; reflexivity. Qed.

(** Deallocating the tree is defined, and the tree may not be read any more. *)
Lemma deallocate_represents {E} (s : store E) m : represents s m ->
  exists s', rbtree_deallocate (size (heap s)) (root s) s = Done s' /\ forall name r, rbtree_search_node s' (root s') (Some name) <> Done r.
Proof.
  assert (forall (s' : store E) l name r, root s' = Some l -> heap s' !! l = None -> rbtree_search_node s' (root s') (Some name) <> Done r) as Hdead.
  { intros s' l name r -> Hl. cbn. unfold load. by rewrite Hl. }
  intros [(-> & l & Hr & Hl)|(t & n & Hne & H & _)].
  - assert (size (heap s) <> 0%nat) as Hz by (intros Hz; apply map_size_empty_iff in Hz; by rewrite Hz in Hl).
    destruct (size (heap s)) as [|k]; [done|]. rewrite Hr. cbn [rbtree_deallocate]. rewrite (load_ok _ _ _ Hl), bind_Done_l. cbn [left right].
    assert (forall s : store E, rbtree_deallocate k None s = Done s) as Hnone by (by destruct k). rewrite Hnone, bind_Done_l, (load_ok _ _ _ Hl), bind_Done_l. cbn [right]. rewrite Hnone, bind_Done_l.
    rewrite (update_ok _ _ _ _ Hl), bind_Done_l. rewrite (update_ok _ _ _ (mk_node BLACK None None None None None)) by (cbn; by rewrite lookup_insert_eq).
    rewrite bind_Done_l. unfold free_node, load. cbn [heap root]. rewrite lookup_insert_eq. cbn [deref]. rewrite bind_Done_l.
    eexists. split; [done|]. intros name r. apply (Hdead _ l); [done|]. cbn. by rewrite lookup_delete_eq.
  - pose proof (holds_size _ _ _ H) as Hz. pose proof (height_le t) as Hh. destruct H as (Hrep & _ & Hn & Hr).
    destruct (deallocate_ok t None s (size (heap s)) Hrep) as (s' & E1 & Hr' & H'); [by apply NoDup_app in Hn as (Hn & _ & _)|lia|].
    rewrite Hr. unfold top. cbn [last]. rewrite E1. exists s'. split; [done|]. intros name r. destruct t as [|l c k e a b]; [done|].
    apply (Hdead _ l); [by rewrite Hr', Hr|]. rewrite H'. case_decide as Hd; [done|]. exfalso. apply Hd. apply list_elem_of_here.
Qed.

(** Inserting 1..n in order. *)
Fixpoint insert_all (keys : list Z) (s : store Z) : outcome (store Z) :=
  match keys with
  | [] => Done s
  | k :: keys => r ← rbtree_insert true (Some k) (Some (fmt_d k)) s; insert_all keys (snd r)
  end.
Definition after (keys : list Z) : outcome (store Z) := insert_all keys new_tree.
Example insert_search :
  (s ← after (map Z.of_nat (seq 1 40)); rbtree_search_node s (root s) (Some "23")) = Done (Some 23) /\
  (s ← after (map Z.of_nat (seq 1 40)); rbtree_search_node s (root s) (Some "41")) = Done None.
Proof. vm_compute. split; reflexivity. Qed.

Lemma rbtree_insert_correct_witness :
  represents (E := Z) new_tree ∅ /\
  exists s', rbtree_insert true (Some 7) (Some "a") new_tree = Done (SF_INT_RET_CODE_SUCCESS, s') /\
    represents s' (<["a" := 7]> ∅).
Proof.
  split; [exact new_tree_represents|].
  exact (rbtree_insert_correct new_tree ∅ "a" 7 new_tree_represents).
Defined.

Lemma rbtree_search_correct_witness :
  exists s, rbtree_insert true (Some 7) (Some "a") new_tree = Done (SF_INT_RET_CODE_SUCCESS, s) /\
    rbtree_search_node s (root s) (Some "a") = Done (Some 7).
Proof.
  destruct (insert_represents new_tree ∅ "a" 7 new_tree_represents) as (s & E & H).
  exists s. split; [exact E|]. exact (proj1 (rbtree_search_correct s _ "a" H)).
Defined.

Lemma rbtree_deallocate_correct_witness :
  exists (s : store Z) t s', holds s [] t /\ rbtree_deallocate (size (heap s)) (root s) s = Done s' /\
    heap s' !! 1%positive = None.
Proof.
  set (t := Node 1%positive BLACK "a" 7 Leaf Leaf).
  set (s := mk_store {[ 1%positive := cell BLACK "a" 7 None None None ]} (Some 1%positive)).
  assert (holds s [] t) as H.
  { unfold holds. cbn. split_and!; try done. repeat constructor. set_solver. }
  destruct (rbtree_deallocate_correct s t H) as (s' & E & Hl). exists s, t, s'.
  split; [exact H|]. split; [exact E|]. rewrite Hl. reflexivity.
Defined.
