(* ===== verification/TreeMap.v ===== *)
(** * lib/treemap.c: the hash table of red-black trees behind named bind
    parameters.

    [Dict] is the interface between the layers: a store with insertion and search
    and the map it stands for.  [rbtree_dict] is the tree's instance, the table is
    written and proved against the interface, and is an instance again. *)

From S2P Require Import Prelude CLib RbTree.

Class Dict (E St : Type) := {
  dict_init : St;
  dict_set : option E -> option string -> St -> outcome (SF_INT_RET_CODE * St);
  dict_get : St -> option string -> outcome (option E);
  dict_free : St -> outcome St;
  dict_repr : St -> gmap string E -> Prop;
  dict_init_repr : dict_repr dict_init ∅;
  dict_set_repr : forall s m k e, dict_repr s m ->
    exists s', dict_set (Some e) (Some k) s =
        Done (match m !! k with Some _ => SF_INT_RET_CODE_DUPLICATES | None => SF_INT_RET_CODE_SUCCESS end, s') /\
      dict_repr s' (<[k := e]> m);
  dict_get_repr : forall s m k, dict_repr s m -> dict_get s (Some k) = Done (m !! k);
  (* freeing is defined once, and then nothing is read *)
  dict_free_repr : forall s m, dict_repr s m -> exists s', dict_free s = Done s' /\ forall k r, dict_get s' (Some k) <> Done r
}.

(** SF_CALLOC exits the process when it fails, so the allocations of the tree are
    served here. *)
#[export, refine] Instance rbtree_dict (E : Type) : Dict E (store E) := {|
  dict_init := new_tree;
  dict_set param name s := rbtree_insert true param name s;
  dict_get s name := rbtree_search_node s (root s) name;
  dict_free s := rbtree_deallocate (size (heap s)) (root s) s;
  dict_repr := represents
|}.
Proof.
  - apply new_tree_represents.
  - intros s m k e H. by apply insert_represents.
  - intros s m k H. by apply search_represents.
  - intros s m H. by apply (deallocate_represents s m).
Defined.

Definition TREE_MAP_MAX_SIZE : Z := 1000.
Definition HASH_CONSTANT : Z := 31.

(** [hash = (HASH_CONSTANT*hash)+key[iter]] on [unsigned long]; [char] is signed. *)
Fixpoint hash_loop (key : string) (hash : Z) : Z :=
  match key with
  | EmptyString => hash
  | String c key => hash_loop key (u64 (HASH_CONSTANT * hash + schar c))
  end.
Definition sf_treemap_hash_fxn (key : string) : Z := hash_loop key 0.
Definition sf_treemap_get_index (key : string) : Z := sf_treemap_hash_fxn key mod TREE_MAP_MAX_SIZE.

Section TreeMap.
  Context {E St : Type} `{Dict E St}.

(** The array of tree pointers; [None] is NULL. *)
Definition TREE_MAP : Type := list (option St).

Definition sf_treemap_init : TREE_MAP := replicate (Z.to_nat TREE_MAP_MAX_SIZE) None.

Definition sf_treemap_insert_node (index : Z) (tree_map : TREE_MAP) (param : option E) (key : option string)
  : outcome (SF_INT_RET_CODE * TREE_MAP) :=
  idx_cur ← deref (tree_map !! Z.to_nat index);
  let tree := match idx_cur with None => dict_init | Some tree => tree end in
  r ← dict_set param key tree;
  Done (fst r, <[Z.to_nat index := Some (snd r)]> tree_map).

Definition sf_treemap_extract_node (tree_map : option TREE_MAP) (idx : Z) (key : option string)
  : outcome (SF_INT_RET_CODE * option E) :=
  match tree_map with
  | None => Done (SF_INT_RET_CODE_ERROR, None)
  | Some tm =>
      cur_node ← deref (tm !! Z.to_nat idx);
      r ← (match cur_node with None => Done None | Some tree => dict_get tree key end);
      Done (match r with None => SF_INT_RET_CODE_NODE_NOT_FOUND | Some _ => SF_INT_RET_CODE_SUCCESS end, r)
  end.

Definition sf_treemap_set (tree_map : option TREE_MAP) (param : option E) (key : option string)
  : outcome (SF_INT_RET_CODE * option TREE_MAP) :=
  match tree_map, param, key with
  | Some tm, Some _, Some k =>
      r ← sf_treemap_insert_node (sf_treemap_get_index k) tm param key;
      Done (fst r, Some (snd r))
  | _, _, _ => Done (SF_INT_RET_CODE_ERROR, tree_map)
  end.

Definition sf_treemap_get (tree_map : option TREE_MAP) (key : option string) : outcome (option E) :=
  match tree_map, key with
  | Some _, Some k => r ← sf_treemap_extract_node tree_map (sf_treemap_get_index k) key; Done (snd r)
  | _, _ => Done None
  end.

(** The trees are freed one by one, then the array; what is left behind is the array
    without entries. *)
Fixpoint free_trees (iters : list nat) (tree_map : TREE_MAP) : outcome TREE_MAP :=
  match iters with
  | [] => Done tree_map
  | iter :: iters =>
      tree ← deref (tree_map !! iter);
      _ ← (match tree with Some tree => freed ← dict_free tree; Done tt | None => Done tt end);
      free_trees iters (<[iter := None]> tree_map)
  end.
Definition sf_treemap_deallocate (tree_map : option TREE_MAP) : outcome (option TREE_MAP) :=
  match tree_map with
  | None => Done None
  | Some tm => _ ← free_trees (seq 0 (Z.to_nat TREE_MAP_MAX_SIZE)) tm; Done None
  end.

(** ** The table stands for the union of its buckets *)

Definition in_bucket (i : nat) (m : gmap string E) : gmap string E :=
  filter (fun kv => Z.to_nat (sf_treemap_get_index (fst kv)) = i) m.

Definition treemap_repr (tm : TREE_MAP) (m : gmap string E) : Prop :=
  length tm = Z.to_nat TREE_MAP_MAX_SIZE /\
  forall i b, tm !! i = Some b ->
    match b with
    | None => in_bucket i m = ∅
    | Some tree => dict_repr tree (in_bucket i m)
    end.

Lemma index_range key : 0 <= sf_treemap_get_index key < TREE_MAP_MAX_SIZE.
Proof. apply Z.mod_pos_bound. done. Qed.

Lemma index_lookup (tm : TREE_MAP) m key :
  treemap_repr tm m -> exists b, tm !! Z.to_nat (sf_treemap_get_index key) = Some b.
Proof.
  intros [Hl _]. apply lookup_lt_is_Some_2. rewrite Hl. pose proof (index_range key). unfold TREE_MAP_MAX_SIZE in *. lia.
Qed.

Lemma in_bucket_lookup key m : in_bucket (Z.to_nat (sf_treemap_get_index key)) m !! key = m !! key.
Proof.
  unfold in_bucket. destruct (m !! key) as [e|] eqn:Em.
  - by apply map_lookup_filter_Some.
  - apply map_lookup_filter_None. auto.
Qed.

Lemma init_repr : treemap_repr sf_treemap_init ∅.
Proof.
  unfold sf_treemap_init. split; [by rewrite length_replicate|]. intros i b Hi. apply lookup_replicate in Hi as [-> _].
  apply map_filter_empty.
Qed.

Lemma set_repr tm m key param :
  treemap_repr tm m ->
  exists tm', sf_treemap_set (Some tm) (Some param) (Some key) =
      Done (match m !! key with Some _ => SF_INT_RET_CODE_DUPLICATES | None => SF_INT_RET_CODE_SUCCESS end, Some tm') /\
    treemap_repr tm' (<[key := param]> m).
Proof.
  intros Hr. unfold sf_treemap_set, sf_treemap_insert_node.
  destruct (index_lookup tm m key Hr) as [b Hb]. rewrite Hb. cbn [deref]. rewrite bind_Done_l.
  destruct Hr as [Hl Hr]. pose proof (Hr _ _ Hb) as Hbucket.
  set (i := Z.to_nat (sf_treemap_get_index key)) in *.
  set (tree := match b with None => dict_init | Some tree => tree end).
  assert (dict_repr tree (in_bucket i m)) as Htree.
  { destruct b; [done|]. rewrite Hbucket. apply dict_init_repr. }
  destruct (dict_set_repr tree _ key param Htree) as (tree' & -> & Htree'). rewrite !bind_Done_l.
  unfold i at 1. rewrite in_bucket_lookup. eexists; split; [done|]. cbn [snd].
  unfold treemap_repr, TREE_MAP. split; [by rewrite length_insert|]. intros j b' Hj.
  assert (i < length tm)%nat as Hi by (by apply lookup_lt_Some in Hb).
  destruct (decide (j = i)) as [->|Hne].
  - rewrite list_lookup_insert_eq in Hj by done. injection Hj as <-.
    unfold in_bucket in *. rewrite map_filter_insert_True by done. exact Htree'.
  - rewrite list_lookup_insert_ne in Hj by done. specialize (Hr j b' Hj).
    unfold in_bucket in *. rewrite map_filter_insert_not; [done|]. cbn. intros ? Heq. by apply Hne.
Qed.

Lemma get_repr tm m key :
  treemap_repr tm m -> sf_treemap_get (Some tm) (Some key) = Done (m !! key).
Proof.
  intros Hr. unfold sf_treemap_get, sf_treemap_extract_node.
  destruct (index_lookup tm m key Hr) as [b Hb]. rewrite Hb. cbn [deref]. rewrite bind_Done_l.
  destruct Hr as [Hl Hr]. specialize (Hr _ _ Hb). destruct b as [tree|].
  - rewrite (dict_get_repr _ _ key Hr), !bind_Done_l. cbn [snd]. by rewrite in_bucket_lookup.
  - rewrite !bind_Done_l. cbn [snd]. rewrite <- in_bucket_lookup, Hr. by rewrite lookup_empty.
Qed.

Lemma free_trees_ok n : forall k (tm : TREE_MAP), length tm = (k + n)%nat ->
  (forall i t, tm !! i = Some (Some t) -> exists m, dict_repr t m) -> exists tm', free_trees (seq k n) tm = Done tm'.
Proof.
  induction n as [|n IH]; intros k tm Hl Hr; [by exists tm|]. cbn [seq free_trees].
  assert (exists b, tm !! k = Some b) as [b Hb] by (apply lookup_lt_is_Some_2; lia). rewrite Hb. cbn [deref]. rewrite bind_Done_l.
  assert ((match b with Some tree => freed ← dict_free tree; Done tt | None => Done tt end) = Done tt) as ->.
  { destruct b as [t|]; [|done]. destruct (Hr k t Hb) as [m Hm]. by destruct (dict_free_repr t m Hm) as (s' & -> & _). }
  rewrite bind_Done_l. apply IH; [unfold TREE_MAP; rewrite length_insert; lia|]. intros i t Hi. apply list_lookup_insert_Some in Hi as [(_ & Hi & _)|[_ Hi]]; [done|by eapply Hr].
Qed.

Lemma free_repr tm m : treemap_repr tm m -> sf_treemap_deallocate (Some tm) = Done None.
Proof.
  intros [Hl Hr]. unfold sf_treemap_deallocate. destruct (free_trees_ok (Z.to_nat TREE_MAP_MAX_SIZE) 0 tm Hl) as (tm' & ->); [|done].
  intros i t Hi. exists (in_bucket i m). exact (Hr i (Some t) Hi).
Qed.

(** the hash of any key is a valid bucket, and the table behaves as one map:
    setting a key replaces or adds exactly that key, whatever other keys share its
    bucket, reports duplicates, and never fails. *)
Theorem sf_treemap_set_correct tm m key param :
  treemap_repr tm m ->
  exists tm', sf_treemap_set (Some tm) (Some param) (Some key) =
      Done (match m !! key with Some _ => SF_INT_RET_CODE_DUPLICATES | None => SF_INT_RET_CODE_SUCCESS end, Some tm') /\
    treemap_repr tm' (<[key := param]> m).
Proof. apply set_repr. Qed.

(** Getting returns the value of the map, NULL for an absent key. *)
Theorem sf_treemap_get_correct tm m key :
  treemap_repr tm m -> sf_treemap_get (Some tm) (Some key) = Done (m !! key).
Proof. apply get_repr. Qed.

#[export, refine] Instance treemap_dict : Dict E TREE_MAP := {|
  dict_init := sf_treemap_init;
  dict_set param key tm := r ← sf_treemap_set (Some tm) param key; tm' ← deref (snd r); Done (fst r, tm');
  dict_get tm key := sf_treemap_get (Some tm) key;
  dict_free tm := tm' ← sf_treemap_deallocate (Some tm); Done (default [] tm');
  dict_repr := treemap_repr
|}.
Proof.
  - exact init_repr.
  - intros tm m k e Hr. destruct (set_repr tm m k e Hr) as (tm' & -> & Hr').
    exists tm'. rewrite bind_Done_l. done.
  - intros tm m k Hr. by apply get_repr.
  - intros tm m Hr. rewrite (free_repr tm m Hr). by exists [].
Defined.
End TreeMap.

Lemma sf_treemap_set_correct_witness :
  exists tm', sf_treemap_set (St := store Z) (Some sf_treemap_init) (Some 5) (Some "colour") =
    Done (SF_INT_RET_CODE_SUCCESS, Some tm') /\ treemap_repr tm' (<["colour" := 5]> ∅).
Proof. exact (sf_treemap_set_correct (St := store Z) sf_treemap_init ∅ "colour" 5 init_repr). Defined.

Lemma sf_treemap_get_correct_witness :
  sf_treemap_get (E := Z) (St := store Z) (Some sf_treemap_init) (Some "colour") = Done None.
Proof. exact (sf_treemap_get_correct (St := store Z) sf_treemap_init ∅ "colour" init_repr). Defined.
