(* ===== verification/ParamStore.v ===== *)
(** * lib/paramstore.c: the bind parameters of a statement, by name or by
    position.

    A store keeps either a hash table or an array; [Bindings] is the abstract
    table of parameters it stands for, and both operations refine the operation on
    that table.  The table of names is any implementation of the [Dict] interface;
    the code's is [treemap_dict] over [rbtree_dict]. *)

From S2P Require Import Prelude CLib ArrayList RbTree TreeMap.

Inductive PARAM_TYPE := INVALID_PARAM_TYPE | POSITIONAL | NAMED.

Section ParamStore.
  Context {E St : Type} `{Dict E St}.

(** The anonymous union: which pointer it holds, or NULL. *)
Inductive store_union :=
| tree_map (tm : TREE_MAP (St := St))
| array_list (al : ARRAY_LIST E)
| no_store.

Record PARAM_STORE := mk_param_store {
  param_style : PARAM_TYPE;
  stored : store_union
}.

Definition sf_param_store_init (ptype : PARAM_TYPE) : PARAM_STORE :=
  match ptype with
  | NAMED => mk_param_store NAMED (tree_map sf_treemap_init)
  | POSITIONAL => mk_param_store POSITIONAL (array_list sf_array_list_init)
  | INVALID_PARAM_TYPE => mk_param_store INVALID_PARAM_TYPE no_store
  end.

(** Using the union as the other pointer type is undefined. *)
Definition as_array (u : store_union) : outcome (ARRAY_LIST E) :=
  match u with array_list al => Done al | _ => Undef end.
Definition as_tree_map (u : store_union) : outcome (option (TREE_MAP (St := St))) :=
  match u with tree_map tm => Done (Some tm) | no_store => Done None | array_list _ => Undef end.
Definition of_tree_map (tm : option (TREE_MAP (St := St))) : store_union :=
  match tm with Some tm => tree_map tm | None => no_store end.

Definition sf_param_store_set (ps : PARAM_STORE) (item : option E) (idx : Z) (name : option string)
  : outcome (SF_INT_RET_CODE * PARAM_STORE) :=
  match param_style ps with
  | POSITIONAL =>
      al ← as_array (stored ps);
      al ← sf_array_list_set al item idx;
      Done (SF_INT_RET_CODE_SUCCESS, mk_param_store POSITIONAL (array_list al))
  | NAMED =>
      tm ← as_tree_map (stored ps);
      r ← sf_treemap_set tm item name;
      Done (fst r, mk_param_store NAMED (of_tree_map (snd r)))
  | INVALID_PARAM_TYPE => Done (SF_INT_RET_CODE_SUCCESS, ps)
  end.

(** Reading a position may grow the array, so the store is returned too. *)
Definition sf_param_store_get (ps : PARAM_STORE) (index : Z) (key : option string)
  : outcome (option E * PARAM_STORE) :=
  match param_style ps with
  | POSITIONAL =>
      if index <? 1 then Done (None, ps)
      else
        al ← as_array (stored ps);
        r ← sf_array_list_get al index;
        Done (fst r, mk_param_store POSITIONAL (array_list (snd r)))
  | NAMED =>
      match key with
      | None => Done (None, ps)
      | Some _ => tm ← as_tree_map (stored ps); x ← sf_treemap_get tm key; Done (x, ps)
      end
  | INVALID_PARAM_TYPE => Done (None, ps)
  end.

(** What the union pointed at is freed with its contents, then the store. *)
Definition sf_param_store_deallocate (ps : PARAM_STORE) : outcome (option PARAM_STORE) :=
  match param_style ps with
  | POSITIONAL => al ← as_array (stored ps); let _ := sf_array_list_deallocate (Some al) in Done None
  | NAMED => tm ← as_tree_map (stored ps); _ ← sf_treemap_deallocate tm; Done None
  | INVALID_PARAM_TYPE => Done None
  end.

(** ** The abstract table of parameters *)

Inductive Bindings :=
| Unbindable
| ByPosition (f : Z -> option E)
| ByName (m : gmap string E).

Definition bindings_set (b : Bindings) (item : option E) (idx : Z) (name : option string)
  : SF_INT_RET_CODE * Bindings :=
  match b with
  | Unbindable => (SF_INT_RET_CODE_SUCCESS, Unbindable)
  | ByPosition f => (SF_INT_RET_CODE_SUCCESS, ByPosition (fun i => if i =? idx then item else f i))
  | ByName m =>
      match item, name with
      | Some e, Some k =>
          (match m !! k with Some _ => SF_INT_RET_CODE_DUPLICATES | None => SF_INT_RET_CODE_SUCCESS end,
           ByName (<[k := e]> m))
      | _, _ => (SF_INT_RET_CODE_ERROR, b)
      end
  end.

Definition bindings_get (b : Bindings) (idx : Z) (name : option string) : option E :=
  match b with
  | Unbindable => None
  | ByPosition f => if idx <? 1 then None else f idx
  | ByName m => match name with Some k => m !! k | None => None end
  end.

Definition bindings_init (ptype : PARAM_TYPE) : Bindings :=
  match ptype with
  | NAMED => ByName ∅
  | POSITIONAL => ByPosition (fun _ => None)
  | INVALID_PARAM_TYPE => Unbindable
  end.

(** The store [ps] stands for the table [b].  Positions are those of [size_t]
    below 2^60, which a table of pointers cannot exceed. *)
Definition store_repr (ps : PARAM_STORE) (b : Bindings) : Prop :=
  match b with
  | Unbindable => ps = mk_param_store INVALID_PARAM_TYPE no_store
  | ByPosition f => exists al, ps = mk_param_store POSITIONAL (array_list al) /\ wf al /\ forall i, 0 <= i -> slot al i = f i
  | ByName m => exists tm, ps = mk_param_store NAMED (tree_map tm) /\ treemap_repr tm m
  end.

Lemma store_init_repr ptype : store_repr (sf_param_store_init ptype) (bindings_init ptype).
Proof.
  destruct ptype; cbn; [done| |].
  - eexists; split_and!; [done|exact init_wf|]. intros i Hi. unfold slot, sf_array_list_init. cbn [data].
    destruct (replicate 8 None !! Z.to_nat i) as [x|] eqn:E1; [|done]. by apply lookup_replicate in E1 as [-> _].
  - eexists; split; [done|exact init_repr].
Qed.

Lemma store_set_refines ps b item idx name :
  store_repr ps b -> 0 <= idx < 2 ^ 60 ->
  exists ps', sf_param_store_set ps item idx name = Done (fst (bindings_set b item idx name), ps') /\
    store_repr ps' (snd (bindings_set b item idx name)).
Proof.
  intros Hr Hi. destruct b as [|f|m].
  - cbn in Hr. subst ps. by eexists.
  - destruct Hr as (al & -> & Hwf & Hs).
    destruct (array_set_ok al item idx Hwf Hi) as (al' & E1 & Hwf' & Hnew & _ & Hold).
    eexists; split; [unfold sf_param_store_set; cbn [param_style stored as_array]; rewrite bind_Done_l, E1, bind_Done_l; done|].
    eexists; split_and!; [done|done|]. intros i Hi'. destruct (Z.eqb_spec i idx) as [->|Hne]; [done|].
    rewrite Hold by done. by apply Hs.
  - destruct Hr as (tm & -> & Hr). unfold sf_param_store_set. cbn [param_style stored as_tree_map]. rewrite bind_Done_l.
    destruct item as [e|], name as [k|].
    + destruct (set_repr tm m k e Hr) as (tm' & -> & Hr'). rewrite bind_Done_l. eexists; split; [done|]. by exists tm'.
    + eexists; split; [done|]. by exists tm.
    + eexists; split; [done|]. by exists tm.
    + eexists; split; [done|]. by exists tm.
Qed.

Lemma store_get_refines ps b idx name :
  store_repr ps b -> 0 <= idx < 2 ^ 60 ->
  exists ps', sf_param_store_get ps idx name = Done (bindings_get b idx name, ps') /\ store_repr ps' b.
Proof.
  intros Hr Hi. unfold sf_param_store_get. destruct b as [|f|m].
  - cbn in Hr. subst ps. by eexists.
  - destruct Hr as (al & -> & Hwf & Hs). cbn [param_style stored as_array bindings_get].
    destruct (Z.ltb_spec idx 1) as [Hlt|Hge]; [eexists; split; [done|]; by exists al|].
    destruct (array_get_ok al idx Hwf Hi) as (al' & E1 & Hwf' & _ & Hold).
    rewrite bind_Done_l, E1, bind_Done_l. cbn [fst snd]. rewrite (Hs idx) by lia.
    eexists; split; [done|]. eexists; split_and!; [done|done|]. intros i Hi'. rewrite Hold. by apply Hs.
  - destruct Hr as (tm & -> & Hr). cbn [param_style stored as_tree_map bindings_get].
    destruct name as [k|]; [|eexists; split; [done|]; by exists tm].
    rewrite bind_Done_l, (get_repr tm m k Hr), bind_Done_l. eexists; split; [done|]. by exists tm.
Qed.

Lemma store_free_ok ps b : store_repr ps b -> sf_param_store_deallocate ps = Done None.
Proof.
  intros Hr. destruct b as [|f|m]; [by cbn in Hr; subst|by destruct Hr as (al & -> & _)|].
  destruct Hr as (tm & -> & Hr). unfold sf_param_store_deallocate. cbn [param_style stored as_tree_map]. by rewrite bind_Done_l, (free_repr tm m Hr).
Qed.

(** ** Histories of binds *)

Definition bind_op : Type := option E * Z * option string.

Fixpoint bind_all (ops : list bind_op) (ps : PARAM_STORE) : outcome (list SF_INT_RET_CODE * PARAM_STORE) :=
  match ops with
  | [] => Done ([], ps)
  | (item, idx, name) :: ops =>
      r ← sf_param_store_set ps item idx name;
      rs ← bind_all ops (snd r);
      Done (fst r :: fst rs, snd rs)
  end.

Fixpoint bindings_all (ops : list bind_op) (b : Bindings) : list SF_INT_RET_CODE * Bindings :=
  match ops with
  | [] => ([], b)
  | (item, idx, name) :: ops =>
      let r := bindings_set b item idx name in
      let rs := bindings_all ops (snd r) in
      (fst r :: fst rs, snd rs)
  end.

Lemma bind_all_refines ops : forall ps b,
  store_repr ps b -> Forall (fun op => 0 <= snd (fst op) < 2 ^ 60) ops ->
  exists ps', bind_all ops ps = Done (fst (bindings_all ops b), ps') /\ store_repr ps' (snd (bindings_all ops b)).
Proof.
  induction ops as [|[[item idx] name] ops IH]; intros ps b Hr Hops; [by eexists|].
  apply Forall_cons in Hops as [Hi Hops]. cbn [fst snd] in Hi. cbn [bind_all bindings_all].
  destruct (store_set_refines ps b item idx name Hr Hi) as (ps1 & -> & Hr1). rewrite bind_Done_l. cbn [fst snd].
  destruct (IH ps1 _ Hr1 Hops) as (ps2 & -> & Hr2). rewrite bind_Done_l. by exists ps2.
Qed.

(** C27: a parameter store refines the abstract table of parameters: after any
    sequence of sets from a fresh store, every return code is the table's (success,
    duplicate name, or error for a NULL value or name), no access is out of bounds,
    and every later get answers what the table holds: the last value set for that
    position or name, NULL for none, for position 0 and for a NULL name; the store can
    then be deallocated, no block of it twice. *)
Theorem param_store_refines ptype ops idx name :
  Forall (fun op => 0 <= snd (fst op) < 2 ^ 60) ops -> 0 <= idx < 2 ^ 60 ->
  exists ps ps', bind_all ops (sf_param_store_init ptype) = Done (fst (bindings_all ops (bindings_init ptype)), ps) /\
    sf_param_store_get ps idx name = Done (bindings_get (snd (bindings_all ops (bindings_init ptype))) idx name, ps') /\
    store_repr ps' (snd (bindings_all ops (bindings_init ptype))) /\ sf_param_store_deallocate ps' = Done None.
Proof.
  intros Hops Hi. destruct (bind_all_refines ops _ _ (store_init_repr ptype) Hops) as (ps & -> & Hr).
  destruct (store_get_refines ps _ idx name Hr Hi) as (ps' & E1 & Hr'). exists ps, ps'. split_and!; try done. by eapply store_free_ok.
Qed.
End ParamStore.

Lemma param_store_refines_witness :
  let ops := [(Some 1, 0, Some "a"); (Some 2, 0, Some "b"); (Some 3, 0, Some "a"); (None, 0, Some "c")] in
  exists ps ps', bind_all (St := store Z) ops (sf_param_store_init NAMED) =
      Done ([SF_INT_RET_CODE_SUCCESS; SF_INT_RET_CODE_SUCCESS; SF_INT_RET_CODE_DUPLICATES; SF_INT_RET_CODE_ERROR], ps) /\
    sf_param_store_get ps 0 (Some "a") = Done (Some 3, ps').
Proof.
  intros ops.
  destruct (param_store_refines (St := store Z) NAMED ops 0 (Some "a")) as (ps & ps' & E1 & E2 & _).
  - repeat (constructor; [cbn; lia|]). constructor.
  - lia.
  - exists ps, ps'. split; [exact E1|exact E2].
Defined.
