(* ===== verification/Memory.v ===== *)
(** * lib/memory.c: the allocation map behind SF_MALLOC, SF_CALLOC, SF_REALLOC and
    SF_FREE.

    Every block handed out is entered into a table of 2048 buckets; at shutdown the
    table is the leak report.  The system's allocator is a parameter: what malloc or
    realloc answered is an argument of the call ([None] is NULL).

    Calls of several threads interleave: the system call and the table update of
    one call are separate steps of [step], since malloc and realloc run before the
    lock is taken, and free runs while other threads may be inside malloc. *)

From S2P Require Import Prelude.

Definition SF_ALLOC_MAP_SIZE : Z := 2048.

Record allocation := mk_allocation {
  ptr : Z;
  size : Z;
  file : string;
  line : Z
}.

(** The array of singly linked lists. *)
Abbreviation alloc_map := (list (list allocation)).
Definition empty_map : alloc_map := replicate (Z.to_nat SF_ALLOC_MAP_SIZE) [].

Definition sf_ptr_hash (p : Z) : Z := Z.land (Z.shiftr p 3) (SF_ALLOC_MAP_SIZE - 1).

Definition bucket (m : alloc_map) (p : Z) : list allocation := default [] (m !! Z.to_nat (sf_ptr_hash p)).
Definition set_bucket (m : alloc_map) (p : Z) (l : list allocation) : alloc_map := <[Z.to_nat (sf_ptr_hash p) := l]> m.

Fixpoint find_in (l : list allocation) (p : Z) : option allocation :=
  match l with
  | [] => None
  | a :: l => if ptr a =? p then Some a else find_in l p
  end.
Definition alloc_find (m : alloc_map) (p : Z) : option allocation := find_in (bucket m p) p.

(** Prepends. *)
Definition alloc_insert (p sz : Z) (fl : string) (ln : Z) (m : alloc_map) : alloc_map :=
  set_bucket m p (mk_allocation p sz fl ln :: bucket m p).

(** Unlinks the first node for [p]. *)
Fixpoint unlink (l : list allocation) (p : Z) : list allocation :=
  match l with
  | [] => []
  | a :: l => if ptr a =? p then l else a :: unlink l p
  end.
Definition alloc_remove (p : Z) (m : alloc_map) : alloc_map := set_bucket m p (unlink (bucket m p) p).

(** The update in place of the node [alloc_find] found. *)
Fixpoint relabel (l : list allocation) (p sz : Z) (fl : string) (ln : Z) : list allocation :=
  match l with
  | [] => []
  | a :: l => if ptr a =? p then mk_allocation (ptr a) sz fl ln :: l else a :: relabel l p sz fl ln
  end.

(** How a call ends: with a pointer (0 is NULL), or the process exits. *)
Inductive result := Returns (p : Z) (m : alloc_map) | Exits.

Definition sf_malloc (answer : option Z) (sz : Z) (fl : string) (ln : Z) (m : alloc_map) : result :=
  if sz =? 0 then Returns 0 m
  else
    match answer with
    | None => Exits
    | Some p => Returns p (alloc_insert p sz fl ln m)
    end.

Definition sf_calloc (answer : option Z) (num sz : Z) (fl : string) (ln : Z) (m : alloc_map) : result :=
  if (sz =? 0) || (num =? 0) then Returns 0 m
  else
    match answer with
    | None => Exits
    | Some p => Returns p (alloc_insert p (u64 (num * sz)) fl ln m)
    end.

(** The part of sf_realloc under the lock. *)
Definition realloc_book (p q sz : Z) (fl : string) (ln : Z) (m : alloc_map) : alloc_map :=
  match alloc_find m p with
  | Some _ =>
      if p =? q then set_bucket m p (relabel (bucket m p) p sz fl ln)
      else alloc_insert q sz fl ln (alloc_remove p m)
  | None => alloc_insert q sz fl ln m
  end.

Definition sf_realloc (answer : option Z) (p sz : Z) (fl : string) (ln : Z) (m : alloc_map) : result :=
  match answer with
  | None => if sz >? 0 then Exits else Returns 0 (realloc_book p 0 sz fl ln m)
  | Some q => Returns q (realloc_book p q sz fl ln m)
  end.

Definition sf_free (p : Z) (m : alloc_map) : alloc_map := if p =? 0 then m else alloc_remove p m.

(** The nodes the report logs, in its order, and those it frees; the table itself
    is left as it is. *)
Definition sf_alloc_map_to_log (cleanup : bool) (m : alloc_map) : list allocation * list allocation :=
  (concat m, if cleanup then concat m else []).

(** ** Counting the entries of a pointer *)

Definition entries (l : list allocation) (p : Z) : nat := length (filter (fun a => ptr a = p) l).
Definition tracked (m : alloc_map) (p : Z) : nat := entries (concat m) p.

(** Every node is in the bucket of its pointer. *)
Definition hashed (m : alloc_map) : Prop :=
  length m = Z.to_nat SF_ALLOC_MAP_SIZE /\
  forall i l a, m !! i = Some l -> a ∈ l -> i = Z.to_nat (sf_ptr_hash (ptr a)).

Lemma hash_range p : 0 <= sf_ptr_hash p < SF_ALLOC_MAP_SIZE.
Proof.
  unfold sf_ptr_hash, SF_ALLOC_MAP_SIZE. change (2048 - 1) with (Z.ones 11). rewrite Z.land_ones by lia.
  apply Z.mod_pos_bound. done.
Qed.

Lemma entries_app l1 l2 p : entries (l1 ++ l2) p = (entries l1 p + entries l2 p)%nat.
Proof. unfold entries. by rewrite filter_app, length_app. Qed.

Lemma entries_cons a l p : entries (a :: l) p = ((if decide (ptr a = p) then 1 else 0) + entries l p)%nat.
Proof. unfold entries. rewrite filter_cons. by case_decide. Qed.

Lemma entries_zero l p : (forall a, a ∈ l -> ptr a <> p) -> entries l p = 0%nat.
Proof.
  intros Hl. induction l as [|a l IH]; [done|]. rewrite entries_cons, IH by set_solver.
  rewrite decide_False; [done|]. apply Hl. set_solver.
Qed.

Lemma unlink_entries l p q :
  entries (unlink l p) q = (entries l q - (if decide (p = q) then 1 else 0))%nat.
Proof.
  induction l as [|a l IH]; cbn [unlink]; [cbn; lia|]. destruct (Z.eqb_spec (ptr a) p) as [<-|Hne].
  - rewrite entries_cons. case_decide; lia.
  - rewrite !entries_cons, IH. repeat case_decide; subst; try done; lia.
Qed.

Lemma unlink_sub l p a : a ∈ unlink l p -> a ∈ l.
Proof. induction l as [|b l IH]; cbn [unlink]; [done|]. case_match; set_solver. Qed.

Lemma relabel_entries l p sz fl ln q : entries (relabel l p sz fl ln) q = entries l q.
Proof.
  induction l as [|a l IH]; cbn [relabel]; [done|]. case_match; rewrite !entries_cons; [done|]. by rewrite IH.
Qed.

Lemma relabel_ptr l p sz fl ln a : a ∈ relabel l p sz fl ln -> exists b, b ∈ l /\ ptr b = ptr a.
Proof.
  induction l as [|b l IH]; cbn [relabel]; [set_solver|]. case_match.
  - intros [->|Ha]%elem_of_cons; [exists b; set_solver|]. exists a. set_solver.
  - intros [->|Ha]%elem_of_cons; [exists b; set_solver|]. destruct (IH Ha) as (c & ? & ?). exists c. set_solver.
Qed.

Lemma find_entries l p : find_in l p = None <-> entries l p = 0%nat.
Proof.
  induction l as [|a l IH]; cbn [find_in]; [done|]. rewrite entries_cons. destruct (Z.eqb_spec (ptr a) p); case_decide; naive_solver lia.
Qed.

(** All entries of a pointer are in its bucket. *)
Lemma tracked_bucket m p : hashed m -> tracked m p = entries (bucket m p) p.
Proof.
  intros [Hl Hh]. unfold tracked, bucket. pose proof (hash_range p) as Hr.
  destruct (lookup_lt_is_Some_2 m (Z.to_nat (sf_ptr_hash p))) as [l Hb]; [lia|]. rewrite Hb. cbn [default id].
  rewrite <- (take_drop_middle m _ l Hb), concat_app, entries_app. cbn [concat]. rewrite entries_app.
  rewrite (entries_zero (concat (take _ m))), (entries_zero (concat (drop _ m))); [unfold default, id; lia| |];
    intros a Ha <-; apply list_elem_of_In, List.in_concat in Ha as (l' & Hl' & Ha);
    apply list_elem_of_In in Hl', Ha; apply list_elem_of_lookup in Hl' as [i Hi].
  - rewrite lookup_drop in Hi. pose proof (Hh _ _ _ Hi Ha). lia.
  - apply lookup_take_Some in Hi as [Hi Hlt]. pose proof (Hh _ _ _ Hi Ha). lia.
Qed.

Lemma bucket_hashed m p a : hashed m -> a ∈ bucket m p -> sf_ptr_hash (ptr a) = sf_ptr_hash p.
Proof.
  intros [Hl Hh] Ha. unfold bucket in Ha. destruct (m !! Z.to_nat (sf_ptr_hash p)) as [l|] eqn:E; cbn in Ha; [|set_solver].
  pose proof (Hh _ _ _ E Ha). pose proof (hash_range p). pose proof (hash_range (ptr a)). lia.
Qed.

Lemma set_bucket_same m p l q : hashed m -> sf_ptr_hash q = sf_ptr_hash p -> bucket (set_bucket m p l) q = l.
Proof.
  intros [Hl _] Hq. unfold bucket, set_bucket. rewrite Hq, list_lookup_insert_eq; [done|]. pose proof (hash_range p). lia.
Qed.

Lemma set_bucket_other m p l q : sf_ptr_hash q <> sf_ptr_hash p -> bucket (set_bucket m p l) q = bucket m q.
Proof.
  intros Hq. unfold bucket, set_bucket. pose proof (hash_range p). pose proof (hash_range q).
  rewrite list_lookup_insert_ne; [done|]. lia.
Qed.

Lemma set_bucket_hashed m p l :
  hashed m -> (forall a, a ∈ l -> sf_ptr_hash (ptr a) = sf_ptr_hash p) -> hashed (set_bucket m p l).
Proof.
  intros [Hl Hh] Hp. unfold set_bucket, hashed. split; [by rewrite length_insert|]. intros i l' a Hi Ha.
  apply list_lookup_insert_Some in Hi as [(<- & -> & _)|[_ Hi]]; [|by eapply Hh]. by rewrite (Hp a Ha).
Qed.

Lemma set_bucket_tracked m p l q :
  hashed m -> (forall a, a ∈ l -> sf_ptr_hash (ptr a) = sf_ptr_hash p) ->
  tracked (set_bucket m p l) q = if decide (sf_ptr_hash q = sf_ptr_hash p) then entries l q else tracked m q.
Proof.
  intros Hm Hl. rewrite (tracked_bucket (set_bucket m p l)) by by apply set_bucket_hashed.
  case_decide as Hq; [by rewrite set_bucket_same|]. by rewrite set_bucket_other, tracked_bucket.
Qed.

Lemma insert_ok p sz fl ln m : hashed m ->
  hashed (alloc_insert p sz fl ln m) /\
  forall q, tracked (alloc_insert p sz fl ln m) q = ((if decide (p = q) then 1 else 0) + tracked m q)%nat.
Proof.
  intros Hm. unfold alloc_insert.
  assert (forall a, a ∈ mk_allocation p sz fl ln :: bucket m p -> sf_ptr_hash (ptr a) = sf_ptr_hash p) as Hl.
  { intros a [->|Ha]%elem_of_cons; [done|]. by eapply bucket_hashed. }
  split; [by apply set_bucket_hashed|]. intros q. rewrite set_bucket_tracked by done. case_decide as Hq.
  - rewrite entries_cons. cbn [ptr]. rewrite (tracked_bucket m) by done. unfold bucket. by rewrite Hq.
  - rewrite decide_False; [done|]. by intros ->.
Qed.

Lemma remove_ok p m : hashed m ->
  hashed (alloc_remove p m) /\
  forall q, tracked (alloc_remove p m) q = (tracked m q - (if decide (p = q) then 1 else 0))%nat.
Proof.
  intros Hm. unfold alloc_remove.
  assert (forall a, a ∈ unlink (bucket m p) p -> sf_ptr_hash (ptr a) = sf_ptr_hash p) as Hl.
  { intros a Ha%unlink_sub. by eapply bucket_hashed. }
  split; [by apply set_bucket_hashed|]. intros q. rewrite set_bucket_tracked by done. case_decide as Hq.
  - rewrite unlink_entries, (tracked_bucket m) by done. unfold bucket. by rewrite Hq.
  - rewrite decide_False; [lia|]. by intros ->.
Qed.

Lemma relabel_ok p sz fl ln m : hashed m ->
  hashed (set_bucket m p (relabel (bucket m p) p sz fl ln)) /\
  forall q, tracked (set_bucket m p (relabel (bucket m p) p sz fl ln)) q = tracked m q.
Proof.
  intros Hm.
  assert (forall a, a ∈ relabel (bucket m p) p sz fl ln -> sf_ptr_hash (ptr a) = sf_ptr_hash p) as Hl.
  { intros a Ha. apply relabel_ptr in Ha as (b & Hb & <-). by eapply bucket_hashed. }
  split; [by apply set_bucket_hashed|]. intros q. rewrite set_bucket_tracked by done. case_decide as Hq; [|done].
  rewrite relabel_entries, (tracked_bucket m) by done. unfold bucket. by rewrite Hq.
Qed.

Lemma realloc_book_ok p q sz fl ln m : hashed m ->
  hashed (realloc_book p q sz fl ln m) /\
  forall r, tracked (realloc_book p q sz fl ln m) r =
    if decide (p = q /\ tracked m p <> 0%nat) then tracked m r
    else ((if decide (q = r) then 1 else 0) + (tracked m r - (if decide (p = r) then 1 else 0)))%nat.
Proof.
  intros Hm. unfold realloc_book, alloc_find. destruct (find_in (bucket m p) p) as [a|] eqn:E.
  - assert (tracked m p <> 0%nat) as Hp.
    { rewrite tracked_bucket by done. intros H0. apply find_entries in H0. congruence. }
    destruct (Z.eqb_spec p q) as [->|Hne].
    + destruct (relabel_ok q sz fl ln m Hm) as [H1 H2]. split; [done|]. intros r. by rewrite H2, decide_True.
    + destruct (remove_ok p m Hm) as [H1 H2].
      destruct (insert_ok q sz fl ln (alloc_remove p m) H1) as [H3 H4]. split; [done|]. intros r.
      rewrite H4, H2. destruct (decide (p = q /\ tracked m p <> 0%nat)) as [[? _]|_]; done.
  - apply find_entries in E. rewrite <- tracked_bucket in E by done.
    destruct (insert_ok q sz fl ln m Hm) as [H1 H2]. split; [done|]. intros r. rewrite H2.
    destruct (decide (p = q /\ tracked m p <> 0%nat)) as [[_ ?]|_]; [done|]. repeat case_decide; subst; lia.
Qed.

Lemma empty_hashed : hashed empty_map.
Proof.
  unfold empty_map. split; [by rewrite length_replicate|]. intros i l a Hi Ha.
  apply lookup_replicate in Hi as [-> _]. set_solver.
Qed.

(** ** Threads *)

(** A call whose system part is done and whose table update is not. *)
Inductive pending :=
| PInsert (p sz : Z) (fl : string) (ln : Z)             (* malloc, calloc *)
| PRealloc (p q sz : Z) (fl : string) (ln : Z)          (* realloc, 0 is NULL *)
| PRemove (p : Z).                                      (* free *)

(** [owned]: the live blocks no running call has in hand. *)
Record threads := mk_threads {
  table : alloc_map;
  owned : list Z;
  running : list pending
}.

(** The block a running call holds, and whether it still has the table entry of
    a block that is gone. *)
Definition holds (c : pending) : option Z :=
  match c with PInsert p _ _ _ => Some p | PRealloc _ q _ _ _ => Some q | PRemove _ => None end.
Definition live (t : threads) : list Z := owned t ++ omap holds (running t).

Definition book (c : pending) (m : alloc_map) : alloc_map :=
  match c with
  | PInsert p sz fl ln => alloc_insert p sz fl ln m
  | PRealloc p q sz fl ln => realloc_book p q sz fl ln m
  | PRemove p => alloc_remove p m
  end.

(** malloc, calloc and realloc answer NULL or the address of a block that is not
    live; a size of 0 for realloc is left out of the step relation, and callers
    only pass on blocks they own. *)
Inductive step : threads -> threads -> Prop :=
| step_malloc t p sz fl ln :
    p <> 0 -> p ∉ live t ->
    step t (mk_threads (table t) (owned t) (PInsert p sz fl ln :: running t))
| step_realloc_null t q sz fl ln :
    q <> 0 -> q ∉ live t ->
    step t (mk_threads (table t) (owned t) (PRealloc 0 q sz fl ln :: running t))
| step_realloc t own1 own2 p q sz fl ln :
    owned t = own1 ++ p :: own2 -> q <> 0 -> (q = p \/ q ∉ live t) ->
    step t (mk_threads (table t) (own1 ++ own2) (PRealloc p q sz fl ln :: running t))
| step_free t own1 own2 p :
    owned t = own1 ++ p :: own2 ->
    step t (mk_threads (table t) (own1 ++ own2) (PRemove p :: running t))
| step_book t run1 run2 c :
    running t = run1 ++ c :: run2 ->
    step t (mk_threads (book c (table t))
              (match holds c with Some p => p :: owned t | None => owned t end) (run1 ++ run2)).

Definition initial : threads := mk_threads empty_map [] [].

(** The entries the table owes for [p]: one if a caller owns [p], and one for each
    running call that has yet to remove or relabel it. *)
Definition owes (c : pending) (p : Z) : nat :=
  match c with
  | PInsert _ _ _ _ => 0
  | PRealloc q _ _ _ _ | PRemove q => if decide (q = p /\ q <> 0) then 1 else 0
  end.
Definition owed (t : threads) (p : Z) : nat :=
  ((if decide (p ∈ owned t) then 1 else 0) + sum_list_with (fun c => owes c p) (running t))%nat.

Record inv (t : threads) : Prop := {
  inv_hashed : hashed (table t);
  inv_live : NoDup (live t);
  inv_null : 0 ∉ live t;
  inv_tracked : forall p, tracked (table t) p = owed t p
}.

Lemma book_ok c m :
  hashed m -> tracked m 0 = 0%nat -> (forall r, (owes c r <= tracked m r)%nat) ->
  hashed (book c m) /\
  forall r, tracked (book c m) r = (tracked m r - owes c r + if decide (holds c = Some r) then 1 else 0)%nat.
Proof.
  intros Hm H0 Hle. destruct c as [p sz fl ln|p q sz fl ln|p]; cbn [book holds owes] in *.
  - destruct (insert_ok p sz fl ln m Hm) as [H1 H2]. split; [done|]. intros r. rewrite H2.
    destruct (decide (p = r)), (decide (Some p = Some r)); simplify_eq; lia.
  - destruct (realloc_book_ok p q sz fl ln m Hm) as [H1 H2]. split; [done|]. intros r. rewrite H2.
    pose proof (Hle p) as Hp. pose proof (Hle r) as Hr.
    repeat case_decide; simplify_eq; destruct_and?; try lia; subst; try lia; naive_solver lia.
  - destruct (remove_ok p m Hm) as [H1 H2]. split; [done|]. intros r. rewrite H2. pose proof (Hle r) as Hr.
    repeat case_decide; simplify_eq; destruct_and?; subst; try lia; naive_solver lia.
Qed.

Lemma owed_cons t p c own run :
  owned t = own -> running t = run ->
  owed (mk_threads (table t) own (c :: run)) p = (owed t p + owes c p)%nat.
Proof. intros <- <-. unfold owed. cbn. lia. Qed.

Lemma owed_moved m own1 own2 p c run r :
  NoDup (own1 ++ p :: own2) -> p <> 0 -> (forall r, owes c r = if decide (p = r /\ p <> 0) then 1%nat else 0%nat) ->
  owed (mk_threads m (own1 ++ own2) (c :: run)) r = owed (mk_threads m (own1 ++ p :: own2) run) r.
Proof.
  intros Hn Hp Hc. unfold owed. cbn. rewrite Hc. apply NoDup_app in Hn as (_ & Hd & [Hp2 _]%NoDup_cons).
  assert (p ∉ own1) as Hp1 by (intros Hin; apply (Hd p Hin); left).
  repeat case_decide; set_solver by lia.
Qed.

Lemma live_perm_cons t c p : holds c = Some p -> live (mk_threads (table t) (owned t) (c :: running t)) ≡ₚ p :: live t.
Proof. intros Hc. unfold live. cbn. rewrite Hc. symmetry. apply Permutation_middle. Qed.

Lemma live_moved m own1 own2 p c run :
  holds c = None -> live (mk_threads m (own1 ++ p :: own2) run) ≡ₚ p :: live (mk_threads m (own1 ++ own2) (c :: run)).
Proof. intros Hc. unfold live. cbn. rewrite Hc, <- !app_assoc. symmetry. apply Permutation_middle. Qed.

Lemma live_booked m m' own run1 run2 c :
  live (mk_threads m' (match holds c with Some p => p :: own | None => own end) (run1 ++ run2)) ≡ₚ
  live (mk_threads m own (run1 ++ c :: run2)).
Proof.
  unfold live. cbn. rewrite !omap_app. cbn. destruct (holds c) as [p|]; [|done].
  rewrite !app_assoc. rewrite <- Permutation_middle. done.
Qed.

Lemma owed_null t : 0 ∉ owned t -> owed t 0 = 0%nat.
Proof.
  intros H0. unfold owed. rewrite decide_False by done. induction (running t) as [|c run IH]; [done|]. cbn in *.
  destruct c; cbn; try rewrite decide_False by tauto; lia.
Qed.

Lemma initial_inv : inv initial.
Proof.
  split; [exact empty_hashed|constructor|by apply not_elem_of_nil|]. intros p. cbn [table initial].
  rewrite tracked_bucket by exact empty_hashed.
  unfold bucket, empty_map. destruct (replicate _ _ !! _) as [l|] eqn:E; [|done].
  by apply lookup_replicate in E as [-> _].
Qed.

Lemma inv_perm l1 l2 : l1 ≡ₚ l2 -> NoDup l1 /\ 0 ∉ l1 -> NoDup l2 /\ 0 ∉ l2.
Proof. intros Hp [Hn H0]. split; [by rewrite <- Hp|by rewrite <- Hp]. Qed.

Lemma step_inv t t' : step t t' -> inv t -> inv t'.
Proof.
  intros Hstep [Hh Hl H0 Ht].
  destruct Hstep as [t p sz fl ln Hp Hfresh|t q sz fl ln Hq Hfresh|t own1 own2 p q sz fl ln Ho Hq Hfresh|t own1 own2 p Ho|t run1 run2 c Hr].
  - pose proof (live_perm_cons t (PInsert p sz fl ln) p eq_refl) as Hperm. symmetry in Hperm.
    destruct (inv_perm _ _ Hperm) as [Hl' H0']; [split; [by constructor|set_solver]|].
    split; [done..|]. intros r. cbn [table]. rewrite Ht. by rewrite owed_cons, Nat.add_0_r.
  - pose proof (live_perm_cons t (PRealloc 0 q sz fl ln) q eq_refl) as Hperm. symmetry in Hperm.
    destruct (inv_perm _ _ Hperm) as [Hl' H0']; [split; [by constructor|set_solver]|].
    split; [done..|]. intros r. cbn [table]. rewrite Ht, owed_cons by done. cbn [owes].
    rewrite decide_False by tauto. lia.
  - assert (p ∈ live t) as Hin by (unfold live; rewrite Ho; set_solver).
    assert (p <> 0) as Hp by (by intros ->).
    assert (live (mk_threads (table t) (own1 ++ own2) (PRealloc p q sz fl ln :: running t)) ≡ₚ
      q :: (own1 ++ own2) ++ omap holds (running t)) as Hperm.
    { unfold live. cbn. symmetry. apply Permutation_middle. }
    assert (live t ≡ₚ p :: (own1 ++ own2) ++ omap holds (running t)) as Hlive.
    { unfold live. rewrite Ho, <- !app_assoc. symmetry. apply Permutation_middle. }
    pose proof Hl as Hlo. rewrite Hlive in Hl, H0. apply NoDup_cons in Hl as [Hnp Hl]. symmetry in Hperm.
    destruct (inv_perm _ _ Hperm) as [Hl' H0'].
    { split; [|set_solver]. constructor; [|done]. destruct Hfresh as [->|Hf]; [done|]. rewrite Hlive in Hf. set_solver. }
    split; [done..|]. intros r. cbn [table]. rewrite Ht.
    rewrite (owed_moved (table t) own1 own2 p), <- Ho; [by destruct t| |done|done].
    apply NoDup_app in Hlo as (Hlo & _). by rewrite <- Ho.
  - assert (p ∈ live t) as Hin by (unfold live; rewrite Ho; set_solver).
    assert (p <> 0) as Hp by (by intros ->).
    pose proof (live_moved (table t) own1 own2 p (PRemove p) (running t) eq_refl) as Hperm.
    rewrite <- Ho in Hperm. replace (mk_threads (table t) (owned t) (running t)) with t in Hperm by (by destruct t).
    destruct (inv_perm _ _ Hperm) as [Hl' H0']; [done|]. apply NoDup_cons in Hl' as [_ Hl'].
    split; [done|done|set_solver|]. intros r. cbn [table]. rewrite Ht.
    rewrite (owed_moved (table t) own1 own2 p), <- Ho; [by destruct t| |done|done].
    apply NoDup_app in Hl as (Hl & _). by rewrite <- Ho.
  - pose proof (live_booked (table t) (book c (table t)) (owned t) run1 run2 c) as Hperm.
    rewrite <- Hr in Hperm. replace (mk_threads (table t) (owned t) (running t)) with t in Hperm by (by destruct t).
    symmetry in Hperm. destruct (inv_perm _ _ Hperm) as [Hl' H0']; [done|].
    assert (forall r, owed t r = (owes c r + owed (mk_threads (table t) (owned t) (run1 ++ run2)) r)%nat) as Howed.
    { intros r. unfold owed. rewrite Hr. cbn. rewrite !sum_list_with_app. cbn. lia. }
    destruct (book_ok c (table t) Hh) as [Hh' Htr].
    { rewrite Ht. apply owed_null. unfold live in H0. set_solver. }
    { intros r. rewrite Ht, Howed. lia. }
    split; [done..|]. intros r. cbn [table]. rewrite Htr, Ht, Howed. unfold owed. cbn [owned running].
    destruct (holds c) as [p|]; [|rewrite (decide_False (P := None = Some r)) by done; lia].
    assert (p ∉ owned t) as Hp.
    { unfold live in Hl'. cbn [owned] in Hl'. apply NoDup_app in Hl' as (Hl' & _). by apply NoDup_cons in Hl' as [Hp _]. }
    repeat case_decide; simplify_eq; set_solver by lia.
Qed.

Lemma entries_count l p : entries l p = count_occ Z.eq_dec (map ptr l) p.
Proof.
  induction l as [|a l IH]; [done|]. rewrite entries_cons, IH. cbn. destruct (Z.eq_dec (ptr a) p); case_decide; done.
Qed.

Lemma count_NoDup (l : list Z) p : NoDup l -> count_occ Z.eq_dec l p = if decide (p ∈ l) then 1%nat else 0%nat.
Proof.
  induction l as [|q l IH]; intros Hn; [done|]. apply NoDup_cons in Hn as [Hq Hn]. cbn. rewrite (IH Hn).
  destruct (Z.eq_dec q p) as [->|]; repeat case_decide; set_solver by lia.
Qed.

(** C32: whatever the interleaving of the calls of any number of threads, and
    although malloc, realloc and free run outside the table update, whenever no
    call is in flight the leak report lists every live block exactly once and
    nothing else; and a block whose owner is about to free or reallocate it always
    has its entry. *)
Theorem leak_report_exact t :
  rtc step initial t ->
  (running t = [] -> map ptr (fst (sf_alloc_map_to_log false (table t))) ≡ₚ owned t) /\
  forall p, p ∈ owned t -> alloc_find (table t) p <> None.
Proof.
  intros Hreach. assert (inv t) as [Hh Hl _ Ht].
  { eapply (rtc_ind_r (fun t => inv t)); [exact initial_inv| |exact Hreach]. intros t1 t2 _ Hs Hi. by eapply step_inv. }
  apply NoDup_app in Hl as (Hn & _). split.
  - intros Hrun. apply (Permutation_count_occ Z.eq_dec). intros p. cbn [fst sf_alloc_map_to_log].
    rewrite <- entries_count, count_NoDup by done. change (entries (concat (table t)) p) with (tracked (table t) p).
    rewrite Ht. unfold owed. rewrite Hrun. cbn. lia.
  - intros p Hp Hf. apply find_entries in Hf. rewrite <- tracked_bucket, Ht in Hf by done. unfold owed in Hf.
    rewrite decide_True in Hf by done. lia.
Qed.

Lemma find_in_unlink l p q : p <> q -> find_in (unlink l p) q = find_in l q.
Proof.
  intros Hne. induction l as [|a l IH]; [done|]. cbn. destruct (Z.eqb_spec (ptr a) p) as [E|E]; cbn.
  - destruct (Z.eqb_spec (ptr a) q); [congruence|done].
  - by rewrite IH.
Qed.

Lemma find_relabel l p sz fl ln q :
  find_in (relabel l p sz fl ln) q =
    if decide (p = q /\ find_in l p <> None) then Some (mk_allocation p sz fl ln) else find_in l q.
Proof.
  induction l as [|a l IH]; cbn [relabel find_in]; [by destruct (decide _) as [[_ ?]|_]|].
  destruct (Z.eqb_spec (ptr a) p) as [<-|Hp]; cbn [find_in ptr].
  - clear IH. destruct (Z.eqb_spec (ptr a) q) as [E|E]; destruct (decide _) as [[Hd _]|Hd]; try done. by exfalso; apply Hd.
  - rewrite IH. destruct (Z.eqb_spec (ptr a) q) as [E|E]; destruct (decide _) as [[? ?]|?]; congruence.
Qed.

Lemma find_set_bucket m p l q :
  hashed m -> alloc_find (set_bucket m p l) q =
    if decide (sf_ptr_hash q = sf_ptr_hash p) then find_in l q else alloc_find m q.
Proof. intros Hm. unfold alloc_find. case_decide; [by rewrite set_bucket_same|by rewrite set_bucket_other]. Qed.

(** One thread, one block: a completed SF_REALLOC that moves a tracked block
    leaves no entry for the old address, enters the new one with the new size and
    call site, and changes no other block's entry; in place it relabels the entry. *)
Theorem sf_realloc_tracked m p q sz fl ln :
  hashed m -> tracked m p = 1%nat -> q <> 0 ->
  exists m', sf_realloc (Some q) p sz fl ln m = Returns q m' /\ hashed m' /\
    alloc_find m' q = Some (mk_allocation q sz fl ln) /\
    (p <> q -> alloc_find m' p = None) /\
    forall r, r <> p -> r <> q -> alloc_find m' r = alloc_find m r.
Proof.
  intros Hm Hp Hq. eexists; split; [done|]. pose proof (realloc_book_ok p q sz fl ln m Hm) as [Hh Htr].
  split; [done|]. unfold realloc_book in *. destruct (alloc_find m p) as [a|] eqn:E.
  2:{ apply find_entries in E. rewrite <- tracked_bucket in E by done. lia. }
  destruct (Z.eqb_spec p q) as [->|Hne].
  - rewrite find_set_bucket, decide_True, find_relabel by done.
    rewrite decide_True by (unfold alloc_find in E; split; [done|congruence]). split_and!; [done|done|].
    clear Htr. intros r Hr _. rewrite find_set_bucket by done. case_decide as Hb; [|done].
    rewrite find_relabel, decide_False by naive_solver. unfold alloc_find, bucket. by rewrite Hb.
  - destruct (remove_ok p m Hm) as [Hm1 _]. unfold alloc_insert.
    rewrite find_set_bucket, decide_True by done. cbn [find_in ptr]. rewrite Z.eqb_refl.
    split_and!; [done| |].
    + intros _. apply find_entries. rewrite <- tracked_bucket by done. rewrite Htr.
      rewrite decide_False by tauto. rewrite Hp. repeat case_decide; lia.
    + clear Htr. intros r Hrp Hrq. rewrite find_set_bucket by done. case_decide as Hb.
      * cbn [find_in ptr]. destruct (Z.eqb_spec q r); [congruence|].
        transitivity (alloc_find (alloc_remove p m) r); [unfold alloc_find, bucket; by rewrite Hb|].
        unfold alloc_remove. rewrite find_set_bucket by done. case_decide as Hb'; [|done].
        rewrite find_in_unlink by done. unfold alloc_find, bucket. by rewrite Hb'.
      * unfold alloc_remove. rewrite find_set_bucket by done. case_decide as Hb'; [|done].
        rewrite find_in_unlink by done. unfold alloc_find, bucket. by rewrite Hb'.
Qed.

(** Two threads: the second gets the address the first is still freeing. *)
Lemma leak_report_exact_witness :
  exists t, rtc step initial t /\ running t = [] /\ owned t = [4096] /\
    map ptr (fst (sf_alloc_map_to_log false (table t))) ≡ₚ [4096].
Proof.
  set (t1 := mk_threads (book (PInsert 4096 16 "client.c" 10) empty_map) [4096] []).
  set (t2 := mk_threads (table t1) [] [PInsert 4096 32 "results.c" 20; PRemove 4096]).
  set (t3 := mk_threads (book (PInsert 4096 32 "results.c" 20) (table t1)) [4096] [PRemove 4096]).
  set (t4 := mk_threads (book (PRemove 4096) (table t3)) [4096] []).
  assert (rtc step initial t4) as Hr.
  { eapply rtc_l; [exact (step_malloc initial 4096 16 "client.c" 10 ltac:(lia) ltac:(apply not_elem_of_nil))|].
    eapply rtc_l; [exact (step_book (mk_threads empty_map [] [PInsert 4096 16 "client.c" 10]) [] [] _ eq_refl)|].
    eapply rtc_l; [exact (step_free t1 [] [] 4096 eq_refl)|].
    eapply rtc_l; [exact (step_malloc (mk_threads (table t1) [] [PRemove 4096]) 4096 32 "results.c" 20 ltac:(lia) ltac:(apply not_elem_of_nil))|].
    eapply rtc_l; [exact (step_book t2 [] [PRemove 4096] _ eq_refl)|].
    eapply rtc_l; [exact (step_book t3 [] [] _ eq_refl)|]. apply rtc_refl. }
  exists t4. split; [exact Hr|]. split; [reflexivity|]. split; [reflexivity|].
  exact (proj1 (leak_report_exact t4 Hr) eq_refl).
Defined.

Lemma sf_realloc_tracked_witness :
  let m := alloc_insert 4096 16 "client.c" 10 empty_map in
  exists m', sf_realloc (Some 8192) 4096 64 "client.c" 12 m = Returns 8192 m' /\ alloc_find m' 4096 = None.
Proof.
  intros m. destruct (insert_ok 4096 16 "client.c" 10 empty_map empty_hashed) as [Hm _].
  destruct (sf_realloc_tracked m 4096 8192 64 "client.c" 12 Hm) as (m' & E & _ & _ & Hp & _).
  - vm_compute. reflexivity.
  - lia.
  - exists m'. split; [exact E|]. apply Hp. lia.
Defined.

(** realloc(p, 0) that answers NULL leaves an entry for NULL in the table, which no
    SF_FREE removes: a block reported as leaked that does not exist. *)
Example realloc_zero_phantom :
  let m := alloc_insert 4096 16 "client.c" 10 empty_map in
  match sf_realloc None 4096 0 "client.c" 12 m with
  | Returns p m' => p = 0 /\ map ptr (fst (sf_alloc_map_to_log false (sf_free 0 m'))) = [0]
  | Exits => False
  end.
Proof. vm_compute. split; reflexivity. Qed.

(** The report with cleanup frees the nodes and leaves the table pointing at them. *)
Example cleanup_dangles :
  let m := alloc_insert 4096 16 "client.c" 10 empty_map in
  snd (sf_alloc_map_to_log true m) = [mk_allocation 4096 16 "client.c" 10] /\
  alloc_find m 4096 = Some (mk_allocation 4096 16 "client.c" 10).
Proof. vm_compute. split; reflexivity. Qed.
