(* ===== verification/JsonHelpers.v ===== *)
(** * lib/connection.c, lines 580-763: typed reads of a JSON response and the
    buffer the response is collected in.

    A destination pointer is passed in with its old value and returned with its
    new one.  SF_CALLOC and SF_REALLOC exit the process rather than answer NULL,
    so the branches behind a NULL answer are dead and left out. *)

From S2P Require Import Prelude CLib CFloat ArrayList CJson.

Inductive SF_JSON_ERROR :=
| SF_JSON_ERROR_NONE
| SF_JSON_ERROR_ITEM_MISSING
| SF_JSON_ERROR_ITEM_WRONG_TYPE
| SF_JSON_ERROR_ITEM_NULL
| SF_JSON_ERROR_OOM.
#[export] Instance SF_JSON_ERROR_eq_dec : EqDecision SF_JSON_ERROR.
Proof. solve_decision. Defined.

(** JSON_ERROR_MSG(e, em, t): the stringized [t] keeps its quotes. *)
Definition JSON_ERROR_MSG (e : SF_JSON_ERROR) (t : string) : string :=
  let q := String (chr 34) (t +:+ String (chr 34) EmptyString) in
  match e with
  | SF_JSON_ERROR_ITEM_MISSING => q +:+ " missing from JSON response"
  | SF_JSON_ERROR_ITEM_WRONG_TYPE => q +:+ " is wrong type (expected a string)"
  | SF_JSON_ERROR_ITEM_NULL => q +:+ " is null"
  | SF_JSON_ERROR_OOM => q +:+ " caused an out of memory error"
  | SF_JSON_ERROR_NONE => "Received unknown JSON error code trying to find " +:+ q
  end.

Definition is_string_empty (str : option string) : bool :=
  match str with Some s => String.eqb s EmptyString | None => true end.

(** The common tests: the item is there, is not null and has the type. *)
Definition json_classify (is_type : option cJSON -> bool) (blob : option cJSON) : SF_JSON_ERROR :=
  match blob with
  | None => SF_JSON_ERROR_ITEM_MISSING
  | Some _ =>
      if snowflake_cJSON_IsNull blob then SF_JSON_ERROR_ITEM_NULL
      else if is_type blob then SF_JSON_ERROR_NONE
      else SF_JSON_ERROR_ITEM_WRONG_TYPE
  end.

Definition json_copy_string (dest : option string) (data : option cJSON) (item : string)
  : outcome (SF_JSON_ERROR * option string) :=
  let blob := snowflake_cJSON_GetObjectItem data item in
  match json_classify snowflake_cJSON_IsString blob with
  | SF_JSON_ERROR_NONE => j ← deref blob; v ← deref (valuestring j); Done (SF_JSON_ERROR_NONE, Some v)
  | e => Done (e, dest)
  end.

(** [strncpy(dest, src, n)]: [n] bytes, the rest of them zero. *)
Definition NUL : ascii := chr 0.
Definition strncpy_bytes (src : string) (n : nat) : list ascii :=
  take n (String.list_ascii_of_string src) ++ replicate (n - String.length src) NUL.

(** The C string at the start of a block; [None] when no NUL ends it. *)
Fixpoint c_string (bytes : list ascii) : option string :=
  match bytes with
  | [] => None
  | c :: bytes => if code c =? 0 then Some EmptyString else String c <$> c_string bytes
  end.

(** [dest] is the caller's array. *)
Definition json_copy_string_no_alloc (dest : list ascii) (data : option cJSON) (item : string) (dest_size : nat)
  : outcome (SF_JSON_ERROR * list ascii) :=
  let blob := snowflake_cJSON_GetObjectItem data item in
  match json_classify snowflake_cJSON_IsString blob with
  | SF_JSON_ERROR_NONE =>
      j ← deref blob; v ← deref (valuestring j);
      if (dest_size <=? length dest)%nat then
        let dest := strncpy_bytes v dest_size ++ drop dest_size dest in
        match dest_size with
        | O => Undef      (* dest[-1] *)
        | S n =>
            c ← deref (dest !! n);
            Done (SF_JSON_ERROR_NONE, if code c =? 0 then dest else <[n := NUL]> dest)
        end
      else Undef
  | e => Done (e, dest)
  end.

Definition json_copy_bool (dest : bool) (data : option cJSON) (item : string) : SF_JSON_ERROR * bool :=
  let blob := snowflake_cJSON_GetObjectItem data item in
  match json_classify snowflake_cJSON_IsBool blob with
  | SF_JSON_ERROR_NONE => (SF_JSON_ERROR_NONE, snowflake_cJSON_IsTrue blob)
  | e => (e, dest)
  end.

Definition json_copy_int (dest : Z) (data : option cJSON) (item : string) : outcome (SF_JSON_ERROR * Z) :=
  let blob := snowflake_cJSON_GetObjectItem data item in
  match json_classify snowflake_cJSON_IsNumber blob with
  | SF_JSON_ERROR_NONE =>
      j ← deref blob; n ← cast_to_range LLONG_MIN LLONG_MAX (valuedouble j); Done (SF_JSON_ERROR_NONE, n)
  | e => Done (e, dest)
  end.

(** What a detach leaves: its code, the destination, the container it detached
    from and the detached node nobody owns any more. *)
Record detached := mk_detached {
  d_error : SF_JSON_ERROR;
  d_dest : option cJSON;
  d_data : option cJSON;
  d_leaked : option cJSON
}.

Definition json_detach (is_type : option cJSON -> bool) (dest : option cJSON) (r : option cJSON * option cJSON) : detached :=
  let '(data, blob) := r in
  match json_classify is_type blob with
  | SF_JSON_ERROR_NONE => mk_detached SF_JSON_ERROR_NONE blob data None
  | e => mk_detached e dest data blob
  end.

Definition json_detach_array_from_object dest data item :=
  json_detach snowflake_cJSON_IsArray dest (snowflake_cJSON_DetachItemFromObject data item).
Definition json_detach_array_from_array dest data index :=
  json_detach snowflake_cJSON_IsArray dest (snowflake_cJSON_DetachItemFromArray data index).
Definition json_detach_object_from_array dest data index :=
  json_detach snowflake_cJSON_IsObject dest (snowflake_cJSON_DetachItemFromArray data index).

Fixpoint keys_loop (next : list cJSON) (al : ARRAY_LIST string) (counter : Z) : outcome (ARRAY_LIST string) :=
  match next with
  | [] => Done al
  | c :: next => al ← sf_array_list_set al (key c) counter; keys_loop next al (u64 (counter + 1))
  end.

Definition json_get_object_keys (item : option cJSON) : outcome (option (ARRAY_LIST string)) :=
  match item with
  | Some j => if snowflake_cJSON_IsObject item then al ← keys_loop (child j) sf_array_list_init 0; Done (Some al) else Done None
  | None => Done None
  end.

(** ** The response buffer *)

Record RAW_JSON_BUFFER := mk_raw {
  buffer : list (option ascii);     (* the block; [None] is an unwritten byte *)
  raw_size : Z
}.

Definition realloc_bytes (n : nat) (b : list (option ascii)) : list (option ascii) :=
  take n b ++ replicate (n - length b) None.

(** [memcpy(&b[at], data, length data)] *)
Definition write_bytes (at_ : nat) (bytes : list ascii) (b : list (option ascii)) : outcome (list (option ascii)) :=
  if (at_ + length bytes <=? length b)%nat
  then Done (take at_ b ++ map Some bytes ++ drop (at_ + length bytes) b)
  else Undef.

Definition json_resp_cb (data_ : list ascii) (size nmemb : Z) (raw : RAW_JSON_BUFFER) : outcome (Z * RAW_JSON_BUFFER) :=
  let data_size := u64 (size * nmemb) in
  if (Z.to_nat data_size <=? length data_)%nat then
    let b := realloc_bytes (Z.to_nat (u64 (raw_size raw + data_size + 1))) (buffer raw) in
    b ← write_bytes (Z.to_nat (raw_size raw)) (take (Z.to_nat data_size) data_) b;
    let n := u64 (raw_size raw + data_size) in
    b ← write_bytes (Z.to_nat n) [NUL] b;
    Done (data_size, mk_raw b n)
  else Undef.

(** libcurl hands the body over in pieces of its choosing, always with size 1. *)
Fixpoint receive (pieces : list (list ascii)) (raw : RAW_JSON_BUFFER) : outcome RAW_JSON_BUFFER :=
  match pieces with
  | [] => Done raw
  | p :: pieces => r ← json_resp_cb p 1 (Z.of_nat (length p)) raw; receive pieces (snd r)
  end.

(** ** What the buffer holds *)

Lemma realloc_bytes_length n b : length (realloc_bytes n b) = n.
Proof. unfold realloc_bytes. rewrite length_app, length_take, length_replicate. lia. Qed.

Lemma realloc_prefix n pre rest :
  (length pre <= n)%nat -> exists tail, realloc_bytes n (map Some pre ++ rest) = map Some pre ++ tail.
Proof.
  intros Hn. unfold realloc_bytes. rewrite take_app, (take_ge (map Some pre)) by (rewrite length_map; lia).
  rewrite <- app_assoc. by eexists.
Qed.

Lemma write_bytes_end pre tail bytes :
  length tail = length bytes ->
  write_bytes (length pre) bytes (map Some pre ++ tail) = Done (map Some (pre ++ bytes)).
Proof.
  intros Hl. unfold write_bytes. rewrite (proj2 (Nat.leb_le _ _)) by (rewrite length_app, length_map; lia).
  rewrite take_app_length' by (by rewrite length_map).
  rewrite drop_ge by (rewrite length_app, length_map; lia). by rewrite app_nil_r, map_app.
Qed.

Lemma write_bytes_prefix pre tail bytes :
  (length bytes <= length tail)%nat ->
  write_bytes (length pre) bytes (map Some pre ++ tail) = Done (map Some (pre ++ bytes) ++ drop (length bytes) tail).
Proof.
  intros Hl. unfold write_bytes. rewrite (proj2 (Nat.leb_le _ _)) by (rewrite length_app, length_map; lia).
  rewrite take_app_length' by (by rewrite length_map). rewrite map_app, <- app_assoc.
  rewrite <- (drop_drop _ (length bytes) (length pre)), drop_app_length' by (by rewrite length_map). done.
Qed.

Lemma json_resp_cb_ok pre rest data_ :
  Z.of_nat (length pre + length data_) + 1 < 2 ^ 64 ->
  json_resp_cb data_ 1 (Z.of_nat (length data_)) (mk_raw (map Some pre ++ rest) (Z.of_nat (length pre))) =
    Done (Z.of_nat (length data_), mk_raw (map Some (pre ++ data_) ++ [Some NUL]) (Z.of_nat (length (pre ++ data_)))).
Proof.
  intros Hl. unfold json_resp_cb. cbn [buffer raw_size]. rewrite Z.mul_1_l, !wrapU_small by lia.
  rewrite !Nat2Z.id, Nat.leb_refl, firstn_all.
  destruct (realloc_prefix (Z.to_nat (Z.of_nat (length pre) + Z.of_nat (length data_) + 1)) pre rest) as [tail E]; [lia|].
  pose proof (f_equal length E) as Ht. rewrite realloc_bytes_length, length_app, length_map in Ht. rewrite E.
  rewrite write_bytes_prefix by lia. rewrite bind_Done_l.
  replace (Z.to_nat (Z.of_nat (length pre) + Z.of_nat (length data_))) with (length (pre ++ data_)) by (rewrite length_app; lia).
  rewrite write_bytes_end by (rewrite length_drop; cbn; lia). rewrite bind_Done_l, map_app. cbn.
  do 3 f_equal. rewrite length_app. lia.
Qed.

Lemma receive_all pieces pre rest :
  pieces <> [] -> Z.of_nat (length pre + length (concat pieces)) + 1 < 2 ^ 64 ->
  receive pieces (mk_raw (map Some pre ++ rest) (Z.of_nat (length pre))) =
    Done (mk_raw (map Some (pre ++ concat pieces) ++ [Some NUL]) (Z.of_nat (length (pre ++ concat pieces)))).
Proof.
  intros Hne. revert pre rest. induction pieces as [|p pieces IH]; intros pre rest Hl; [done|].
  cbn [concat receive] in *. rewrite length_app in Hl. rewrite json_resp_cb_ok by lia. rewrite bind_Done_l. cbn [snd].
  destruct pieces as [|q pieces]; [by rewrite app_nil_r|].
  rewrite IH by (done || rewrite length_app; lia). by rewrite <- !app_assoc.
Qed.

(** however libcurl cuts the body into pieces, the callback collects exactly
    the body after what the buffer held, ended by one NUL: the block is always
    grown to fit, never written past its end, and no byte of it stays unwritten. *)
Theorem receive_concat pieces pre rest :
  pieces <> [] -> Z.of_nat (length pre + length (concat pieces)) + 1 < 2 ^ 64 ->
  receive pieces (mk_raw (map Some pre ++ rest) (Z.of_nat (length pre))) =
    Done (mk_raw (map Some (pre ++ concat pieces) ++ [Some NUL]) (Z.of_nat (length (pre ++ concat pieces)))).
Proof. apply receive_all. Qed.

(** The chunk downloader's buffer, started with a bracket. *)
Lemma receive_concat_witness :
  receive [["1"%char; ","%char]; []; ["2"%char]] (mk_raw [Some "["%char; Some NUL] 1) =
    Done (mk_raw (map Some ["["%char; "1"%char; ","%char; "2"%char] ++ [Some NUL]) 4).
Proof.
  exact (receive_concat [["1"%char; ","%char]; []; ["2"%char]] ["["%char] [Some NUL] ltac:(discriminate) ltac:(vm_compute; reflexivity)).
Defined.

(** ** Copying into a fixed buffer *)

Lemma c_string_app s t : no_nul s = true -> c_string (String.list_ascii_of_string s ++ NUL :: t) = Some s.
Proof.
  induction s as [|c s IH]; [done|]. cbn. intros [Hc Hs]%andb_prop. apply negb_true_iff in Hc. rewrite Hc.
  change (str_all _ s) with (no_nul s) in Hs. fold c_string. change (chr 0) with NUL. setoid_rewrite (IH Hs). done.
Qed.

Lemma take_list_ascii n s : take n (String.list_ascii_of_string s) = String.list_ascii_of_string (str_take n s).
Proof. revert s. induction n as [|n IH]; intros [|c s]; cbn; [done..|]. by rewrite IH. Qed.

Lemma strncpy_bytes_length s n : length (strncpy_bytes s n) = n.
Proof. unfold strncpy_bytes. rewrite length_app, length_take, length_replicate, list_ascii_length. lia. Qed.

Lemma no_nul_take n s : no_nul s = true -> no_nul (str_take n s) = true.
Proof.
  revert s. induction n as [|n IH]; intros [|c s]; cbn; try done. intros [Hc Hs]%andb_prop. rewrite Hc.
  by apply IH.
Qed.

Lemma str_take_min n s : String.length (str_take n s) = Nat.min n (String.length s).
Proof. revert s. induction n as [|n IH]; intros [|c s]; cbn; [done..|]. by rewrite IH. Qed.

(** The bytes strncpy and the added terminator leave: the first [n] characters,
    then a NUL. *)
Lemma terminated_copy v n tail : no_nul v = true ->
  let dest := strncpy_bytes v (S n) ++ tail in
  exists c, dest !! n = Some c /\
    (if code c =? 0 then c_string dest = Some (str_take n v)
     else c_string (<[n := NUL]> dest) = Some (str_take n v)).
Proof.
  intros Hv dest.
  assert (forall rest, c_string (String.list_ascii_of_string (str_take n v) ++ NUL :: rest) = Some (str_take n v)) as Hc.
  { intros rest. apply c_string_app. by apply no_nul_take. }
  destruct (decide (S n <= String.length v)%nat) as [Hlong|Hshort].
  - assert (exists c, dest = String.list_ascii_of_string (str_take n v) ++ c :: tail) as [c E].
    { unfold dest, strncpy_bytes. replace (S n - String.length v)%nat with O by lia. cbn [replicate]. rewrite app_nil_r.
      assert (is_Some (String.list_ascii_of_string v !! n)) as [c Hn] by (apply lookup_lt_is_Some_2; rewrite list_ascii_length; lia).
      exists c. rewrite (take_S_r _ _ _ Hn), take_list_ascii, <- app_assoc. done. }
    assert (length (String.list_ascii_of_string (str_take n v)) = n) as Hl by (rewrite list_ascii_length, str_take_min; lia).
    exists c. rewrite E. split; [by rewrite list_lookup_middle|]. case_match eqn:Ez.
    + apply Z.eqb_eq in Ez. replace c with NUL; [done|]. unfold NUL. rewrite <- Ez. by rewrite chr_code.
    + rewrite insert_app_r_alt by lia. rewrite Hl, Nat.sub_diag. cbn. apply Hc.
  - assert (dest = String.list_ascii_of_string v ++ replicate (S n - String.length v) NUL ++ tail) as E.
    { unfold dest, strncpy_bytes. rewrite take_ge by (rewrite list_ascii_length; lia). by rewrite app_assoc. }
    exists NUL. rewrite E. split.
    + rewrite lookup_app_r by (rewrite list_ascii_length; lia). rewrite list_ascii_length.
      rewrite lookup_app_l by (rewrite length_replicate; lia). apply lookup_replicate. split; [done|lia].
    + change (code NUL =? 0) with true. cbn. replace (S n - String.length v)%nat with (S (n - String.length v)) by lia.
      cbn [replicate app]. rewrite str_take_all by lia. by apply c_string_app.
Qed.

Lemma no_alloc_bounded dest data item dest_size j v :
  (0 < dest_size <= length dest)%nat ->
  snowflake_cJSON_GetObjectItem data item = Some j -> snowflake_cJSON_IsString (Some j) = true ->
  valuestring j = Some v -> no_nul v = true ->
  exists dest', json_copy_string_no_alloc dest data item dest_size = Done (SF_JSON_ERROR_NONE, dest') /\
    length dest' = length dest /\ drop dest_size dest' = drop dest_size dest /\
    c_string dest' = Some (str_take (dest_size - 1) v).
Proof.
  intros Hsz Hj Hs Hv Hn. unfold json_copy_string_no_alloc. rewrite Hj. unfold json_classify.
  assert (snowflake_cJSON_IsNull (Some j) = false) as ->.
  { unfold snowflake_cJSON_IsNull, snowflake_cJSON_IsString, has_type in *. apply Z.eqb_eq in Hs. rewrite Hs. done. }
  rewrite Hs. cbn [deref]. rewrite bind_Done_l, Hv. cbn [deref]. rewrite bind_Done_l.
  rewrite (proj2 (Nat.leb_le _ _)) by lia. destruct dest_size as [|n]; [lia|].
  destruct (terminated_copy v n (drop (S n) dest) Hn) as (c & -> & Hc). cbn [deref]. rewrite bind_Done_l.
  replace (S n - 1)%nat with n by lia.
  eexists; split; [done|]. case_match.
  - split_and!; [rewrite length_app, strncpy_bytes_length, length_drop; lia| |done].
    by rewrite drop_app_length' by (by rewrite strncpy_bytes_length).
  - split_and!; [rewrite length_insert, length_app, strncpy_bytes_length, length_drop; lia| |done].
    rewrite drop_insert_lt by lia. by rewrite drop_app_length' by (by rewrite strncpy_bytes_length).
Qed.

(** the copy into a fixed array writes nothing past [dest_size] and always
    leaves a C string there: the value if it fits, its first [dest_size - 1]
    characters if not; any other outcome leaves the array as it was. *)
Theorem json_copy_string_no_alloc_bounded dest data item dest_size j v :
  (0 < dest_size <= length dest)%nat ->
  snowflake_cJSON_GetObjectItem data item = Some j -> snowflake_cJSON_IsString (Some j) = true ->
  valuestring j = Some v -> no_nul v = true ->
  exists dest', json_copy_string_no_alloc dest data item dest_size = Done (SF_JSON_ERROR_NONE, dest') /\
    length dest' = length dest /\ drop dest_size dest' = drop dest_size dest /\
    c_string dest' = Some (str_take (dest_size - 1) v).
Proof. apply no_alloc_bounded. Qed.

(** A query code longer than the seven bytes kept for it. *)
Definition json_code (s : string) : option cJSON :=
  Some (mk_cJSON cJSON_Object None 0 zero_double None [mk_cJSON cJSON_String (Some s) 0 zero_double (Some "code") []]).
Lemma json_copy_string_no_alloc_bounded_witness :
  exists dest', json_copy_string_no_alloc (replicate 7 NUL) (json_code "39011200") "code" 7 = Done (SF_JSON_ERROR_NONE, dest') /\
    c_string dest' = Some "390112".
Proof.
  destruct (json_copy_string_no_alloc_bounded (replicate 7 NUL) (json_code "39011200") "code" 7
    (mk_cJSON cJSON_String (Some "39011200") 0 zero_double (Some "code") []) "39011200") as (d & E & _ & _ & Hc).
  - cbn; lia.
  - vm_compute; reflexivity.
  - vm_compute; reflexivity.
  - reflexivity.
  - vm_compute; reflexivity.
  - exists d. split; [exact E|exact Hc].
Defined.

(** ** Keys *)

Lemma keys_loop_ok next : forall al n,
  wf al -> Z.of_nat n + Z.of_nat (length next) <= 2 ^ 60 ->
  exists al', keys_loop next al (Z.of_nat n) = Done al' /\ wf al' /\
    (forall i, (i < n)%nat -> slot al' (Z.of_nat i) = slot al (Z.of_nat i)) /\
    forall i c, next !! i = Some c -> slot al' (Z.of_nat (n + i)) = key c.
Proof.
  induction next as [|c next IH]; intros al n Hwf Hl; [by exists al|]. cbn [keys_loop length] in *.
  destruct (array_set_ok al (key c) (Z.of_nat n) Hwf) as (al1 & -> & Hwf1 & Hnew & _ & Hold); [lia|].
  rewrite bind_Done_l, wrapU_small by lia. replace (Z.of_nat n + 1) with (Z.of_nat (S n)) by lia.
  destruct (IH al1 (S n) Hwf1) as (al2 & -> & Hwf2 & Hlow & Hhigh); [lia|]. exists al2. split_and!; [done|done| |].
  - intros i Hi. rewrite Hlow by lia. apply Hold; lia.
  - intros [|i] d Hd; cbn in Hd.
    + injection Hd as <-. rewrite Nat.add_0_r, Hlow by lia. done.
    + replace (n + S i)%nat with (S n + i)%nat by lia. by apply Hhigh.
Qed.

(** the key list of an object has, at every position, the name of the member
    at that position. *)
Theorem json_get_object_keys_correct j :
  snowflake_cJSON_IsObject (Some j) = true -> Z.of_nat (length (child j)) <= 2 ^ 60 ->
  exists al, json_get_object_keys (Some j) = Done (Some al) /\ wf al /\
    forall i c, child j !! i = Some c -> slot al (Z.of_nat i) = key c.
Proof.
  intros Ho Hl. unfold json_get_object_keys. rewrite Ho.
  destruct (keys_loop_ok (child j) sf_array_list_init 0 init_wf) as (al & E & Hwf & _ & Hk); [lia|].
  change (Z.of_nat 0) with 0 in E. rewrite E, bind_Done_l. by exists al.
Qed.

Lemma json_get_object_keys_correct_witness :
  exists al, json_get_object_keys (json_code "0") = Done (Some al) /\ slot al 0 = Some "code".
Proof.
  destruct (json_get_object_keys_correct
    (mk_cJSON cJSON_Object None 0 zero_double None [mk_cJSON cJSON_String (Some "0") 0 zero_double (Some "code") []]))
    as (al & E & _ & Hk).
  - vm_compute; reflexivity.
  - cbn; lia.
  - exists al. split; [exact E|]. exact (Hk 0%nat _ eq_refl).
Defined.

(** A member of the wrong type is detached and then owned by nobody. *)
Example detach_leaks :
  let r := json_detach_array_from_object None (json_code "0") "code" in
  d_error r = SF_JSON_ERROR_ITEM_WRONG_TYPE /\
  d_leaked r = Some (mk_cJSON cJSON_String (Some "0") 0 zero_double (Some "code") []) /\
  snowflake_cJSON_GetArraySize (d_data r) = 0.
Proof. vm_compute. split_and!; reflexivity. Qed.
