(* ===== verification/ErrorCtx.v ===== *)
(** * lib/error.c and snowflake_propagate_error (lib/client.c, 1952-1978): error
    structures and who owns their messages.

    [process] holds the message blocks on the heap, the shared emergency buffer and
    every SF_ERROR_STRUCT of the process by a number of its own.  Reading or freeing
    a block that is not live is undefined.  [served] tells whether the allocation of
    a message succeeds; SF_CALLOC exits the process when it does not, so the
    refinement at the end is about [served = true].  [info] is what an error says to
    a reader and [spec_op] what the operations mean for it. *)

From S2P Require Import Prelude CLib Status JsonHelpers.

Definition SHARED_SIZE : nat := 8192.

Inductive msg_ptr := Block (l : nat) | SharedMsg.

Record SF_ERROR_STRUCT := mk_error {
  error_code : Z;
  sqlstate : list ascii;
  msg : option msg_ptr;
  is_shared_msg : bool;
  sfqid : list ascii;
  file : option string;
  line : Z
}.

Record process := mk_process {
  blocks : gmap nat string;
  next_block : nat;
  shared_msg : string;
  errors : gmap nat SF_ERROR_STRUCT
}.

Definition set_errors (i : nat) (e : SF_ERROR_STRUCT) (p : process) : process :=
  mk_process (blocks p) (next_block p) (shared_msg p) (<[i := e]> (errors p)).
Definition set_blocks (b : gmap nat string) (p : process) : process :=
  mk_process b (next_block p) (shared_msg p) (errors p).
Definition set_shared (s : string) (p : process) : process := mk_process (blocks p) (next_block p) s (errors p).
Definition set_msg (m : option msg_ptr) (shared : bool) (e : SF_ERROR_STRUCT) : SF_ERROR_STRUCT :=
  mk_error (error_code e) (sqlstate e) m shared (sfqid e) (file e) (line e).

(** A [const char *] argument: a literal, or a message some error holds. *)
Inductive chars := Text (s : string) | Msg (m : msg_ptr).

Definition read_msg (m : msg_ptr) (p : process) : outcome string :=
  match m with Block l => deref (blocks p !! l) | SharedMsg => Done (shared_msg p) end.
Definition read_chars (c : chars) (p : process) : outcome string :=
  match c with Text s => Done s | Msg m => read_msg m p end.

(** [SF_FREE(m)]: nothing for NULL; the shared buffer is not on the heap. *)
Definition free_msg (m : option msg_ptr) (p : process) : outcome process :=
  match m with
  | None => Done p
  | Some (Block l) => match blocks p !! l with Some _ => Done (set_blocks (delete l (blocks p)) p) | None => Undef end
  | Some SharedMsg => Undef
  end.

(** [strncpy] into an array, its last byte forced to zero. *)
Definition copy_field (s : string) (n : nat) : list ascii := <[(n - 1)%nat := NUL]> (strncpy_bytes s n).

Definition set_snowflake_error (served : bool) (error : option nat) (code : Z) (m : chars) (state : option string)
    (qid : string) (fl : option string) (ln : Z) (p : process) : outcome process :=
  text ← read_chars m p;
  match error with
  | None => Done p
  | Some i =>
      e ← deref (errors p !! i);
      let q := copy_field qid SF_UUID4_LEN in
      let st := match state with Some s => copy_field s SF_SQLSTATE_LEN | None => sqlstate e end in
      p ← (if is_shared_msg e then Done p else free_msg (msg e) p);
      if served then
        text' ← read_chars m p;
        let l := next_block p in
        Done (set_errors i (mk_error code st (Some (Block l)) false q fl ln)
                (mk_process (<[l := str_take (String.length text) text']> (blocks p)) (S l) (shared_msg p) (errors p)))
      else
        let p := set_shared EmptyString p in
        text' ← read_chars m p;
        let p := set_shared (str_take (SHARED_SIZE - 1) (str_take (Nat.min (String.length text) SHARED_SIZE) text')) p in
        Done (set_errors i (mk_error code st (Some SharedMsg) true q fl ln) p)
  end.

Definition clear_snowflake_error (i : nat) (p : process) : outcome process :=
  let p := set_shared EmptyString p in
  e ← deref (errors p !! i);
  s ← deref (c_string (sqlstate e));
  p ← (if negb (String.eqb s SF_SQLSTATE_NO_ERROR) && negb (is_shared_msg e) then free_msg (msg e) p else Done p);
  Done (set_errors i (mk_error SF_STATUS_SUCCESS (copy_field SF_SQLSTATE_NO_ERROR SF_SQLSTATE_LEN) None false
                        (replicate SF_UUID4_LEN NUL) None 0) p).

(** strncpy between overlapping arrays is undefined, so [dst] and [src] differ. *)
Definition copy_snowflake_error (served : bool) (dst src : option nat) (p : process) : outcome process :=
  match dst, src with
  | Some d, Some s =>
      if decide (d = s) then Undef
      else
        e ← deref (errors p !! s);
        m ← deref (msg e);
        state ← deref (c_string (sqlstate e));
        qid ← deref (c_string (sfqid e));
        set_snowflake_error served (Some d) (error_code e) (Msg m) (Some state) qid (file e) (line e) p
  | _, _ => Done p
  end.

(** [memcpy] of the structure, then a message of its own. *)
Definition snowflake_propagate_error (sf sfstmt : nat) (p : process) : outcome process :=
  d ← deref (errors p !! sf);
  p ← (if error_code d =? 0 then Done p else free_msg (msg d) p);
  e ← deref (errors p !! sfstmt);
  let p := set_errors sf e p in
  if error_code e =? 0 then Done p
  else
    m ← deref (msg e);
    text ← read_msg m p;
    let l := next_block p in
    Done (set_errors sf (set_msg (Some (Block l)) (is_shared_msg e) e)
            (mk_process (<[l := text]> (blocks p)) (S l) (shared_msg p) (errors p))).

(** ** Sequences of operations *)

Inductive err_op :=
| OSet (i : nat) (code : Z) (text : string) (state : option string) (qid : string) (fl : option string) (ln : Z)
| OClear (i : nat)
| OCopy (dst src : nat)
| OPropagate (sf sfstmt : nat).

Definition apply_op (o : err_op) (p : process) : outcome process :=
  match o with
  | OSet i code text state qid fl ln => set_snowflake_error true (Some i) code (Text text) state qid fl ln p
  | OClear i => clear_snowflake_error i p
  | OCopy dst src => copy_snowflake_error true (Some dst) (Some src) p
  | OPropagate sf sfstmt => snowflake_propagate_error sf sfstmt p
  end.

Fixpoint apply_ops (os : list err_op) (p : process) : outcome process :=
  match os with
  | [] => Done p
  | o :: os => p ← apply_op o p; apply_ops os p
  end.

(** A structure as memset leaves it, and [k] of them. *)
Definition zeroed : SF_ERROR_STRUCT :=
  mk_error 0 (replicate SF_SQLSTATE_LEN NUL) None false (replicate SF_UUID4_LEN NUL) None 0.
Definition start (k : nat) : process :=
  mk_process ∅ O EmptyString (gset_to_gmap zeroed (set_seq 0 k)).

(** ** What an error says *)

Record info := mk_info {
  i_code : Z;
  i_sqlstate : string;
  i_msg : option string;
  i_sfqid : string;
  i_file : option string;
  i_line : Z
}.

Definition spec_set (code : Z) (text : string) (state : option string) (qid : string) (fl : option string) (ln : Z) (d : info) : info :=
  mk_info code (match state with Some s => str_take 5 s | None => i_sqlstate d end) (Some text) (str_take 36 qid) fl ln.

Definition spec_op (o : err_op) (m : gmap nat info) : gmap nat info :=
  match o with
  | OSet i code text state qid fl ln =>
      match m !! i with Some d => <[i := spec_set code text state qid fl ln d]> m | None => m end
  | OClear i => <[i := mk_info 0 SF_SQLSTATE_NO_ERROR None EmptyString None 0]> m
  | OCopy dst src | OPropagate dst src => match m !! src with Some e => <[dst := e]> m | None => m end
  end.
Definition spec_ops (os : list err_op) (m : gmap nat info) : gmap nat info := fold_left (fun m o => spec_op o m) os m.

Definition spec_start (k : nat) : gmap nat info :=
  gset_to_gmap (mk_info 0 EmptyString None EmptyString None 0) (set_seq 0 k).

(** What the callers keep to: an error is set with a code and an SQL state that say
    so, and only an error that is set is copied, to another structure. *)
Definition good_set (code : Z) (state : option string) (qid : string) (d : info) : Prop :=
  code <> 0 /\ no_nul qid = true /\
  match state with
  | Some s => no_nul s = true /\ str_take 5 s <> SF_SQLSTATE_NO_ERROR
  | None => i_sqlstate d <> SF_SQLSTATE_NO_ERROR
  end.
Definition allowed (o : err_op) (m : gmap nat info) : Prop :=
  match o with
  | OSet i code text state qid fl ln => exists d, m !! i = Some d /\ good_set code state qid d
  | OClear i => is_Some (m !! i)
  | OCopy dst src => dst <> src /\ is_Some (m !! dst) /\ exists e, m !! src = Some e /\ i_code e <> 0
  | OPropagate dst src => dst <> src /\ is_Some (m !! dst) /\ is_Some (m !! src)
  end.
Fixpoint all_allowed (os : list err_op) (m : gmap nat info) : Prop :=
  match os with
  | [] => True
  | o :: os => allowed o m /\ all_allowed os (spec_op o m)
  end.

(** The structure says [d]; its message, if any, is a block of its own. *)
Record says (p : process) (e : SF_ERROR_STRUCT) (d : info) : Prop := {
  y_code : error_code e = i_code d;
  y_state : c_string (sqlstate e) = Some (i_sqlstate d);
  y_qid : c_string (sfqid e) = Some (i_sfqid d);
  y_plain : no_nul (i_sqlstate d) = true /\ no_nul (i_sfqid d) = true;
  y_short : (String.length (i_sqlstate d) <= 5 /\ String.length (i_sfqid d) <= 36)%nat;
  y_file : file e = i_file d /\ line e = i_line d;
  y_shared : is_shared_msg e = false;
  y_msg : match i_msg d with
          | Some t => exists l, msg e = Some (Block l) /\ blocks p !! l = Some t /\ i_code d <> 0 /\ i_sqlstate d <> SF_SQLSTATE_NO_ERROR
          | None => msg e = None /\ i_code d = 0
          end
}.

(** Every structure says its part of [m], and the live blocks are the messages,
    one owner each. *)
Record represents (p : process) (m : gmap nat info) : Prop := {
  r_dom : forall i, is_Some (errors p !! i) <-> is_Some (m !! i);
  r_says : forall i e d, errors p !! i = Some e -> m !! i = Some d -> says p e d;
  r_owner : forall l, is_Some (blocks p !! l) -> exists i e, errors p !! i = Some e /\ msg e = Some (Block l);
  r_alone : forall i j e f l, errors p !! i = Some e -> errors p !! j = Some f ->
    msg e = Some (Block l) -> msg f = Some (Block l) -> i = j;
  r_fresh : forall l, is_Some (blocks p !! l) -> (l < next_block p)%nat
}.

(** ** Ownership *)

Definition freed (e : SF_ERROR_STRUCT) (b : gmap nat string) : gmap nat string :=
  match msg e with Some (Block l) => delete l b | _ => b end.

Lemma owned_block p e d m : says p e d -> msg e = Some m -> exists l t, m = Block l /\ blocks p !! l = Some t /\ i_msg d = Some t.
Proof.
  intros Hs Hm. pose proof (y_msg p e d Hs) as H. destruct (i_msg d) as [t|].
  - destruct H as (l & E & Hl & _). rewrite Hm in E. injection E as ->. eauto.
  - destruct H. congruence.
Qed.

Lemma free_owned p e d : says p e d -> free_msg (msg e) p = Done (set_blocks (freed e (blocks p)) p).
Proof.
  intros Hs. unfold freed. destruct (msg e) as [m|] eqn:E; [|by destruct p].
  destruct (owned_block p e d m Hs E) as (l & t & -> & Hl & _). cbn. by rewrite Hl.
Qed.

Lemma says_frame p p' e d : (forall l, msg e = Some (Block l) -> blocks p' !! l = blocks p !! l) -> says p e d -> says p' e d.
Proof.
  intros Hb []. split; try done. destruct (i_msg d); [|done]. destruct y_msg0 as (l & E & Hl & ?). exists l. by rewrite Hb.
Qed.

(** One structure is overwritten: its message went, and the new one is fresh. *)
Lemma replaced p p' m i e d e' d' :
  represents p m -> errors p !! i = Some e -> m !! i = Some d -> errors p' = <[i := e']> (errors p) -> says p' e' d' ->
  (msg e' = None /\ blocks p' = freed e (blocks p) /\ next_block p' = next_block p) \/
  (exists t, msg e' = Some (Block (next_block p)) /\ blocks p' = <[next_block p := t]> (freed e (blocks p)) /\
     next_block p' = S (next_block p)) ->
  represents p' (<[i := d']> m).
Proof.
  intros [Rd Rs Ro Ra Rf] He Hd Hes Hs Hcase.
  assert (forall l, is_Some (freed e (blocks p) !! l) -> is_Some (blocks p !! l) /\ msg e <> Some (Block l)) as Hfr.
  { unfold freed. intros l Hl. destruct (msg e) as [[l'|]|]; try done. apply lookup_delete_is_Some in Hl as [? ?].
    split; [done|congruence]. }
  assert (forall l, is_Some (blocks p' !! l) -> msg e' = Some (Block l) /\ l = next_block p \/ is_Some (freed e (blocks p) !! l)) as Hb.
  { destruct Hcase as [(_ & -> & _)|(t & E & -> & _)]; [auto|]. intros l Hl.
    destruct (decide (l = next_block p)) as [->|Hne]; [auto|]. rewrite lookup_insert_ne in Hl by done. auto. }
  assert (forall j f dj l, j <> i -> errors p !! j = Some f -> m !! j = Some dj -> msg f = Some (Block l) ->
    blocks p' !! l = blocks p !! l /\ (l < next_block p)%nat) as Hother.
  { intros j f dj l Hj Hf Hdj Hm. destruct (owned_block p f dj _ (Rs j f dj Hf Hdj) Hm) as (l' & t & E & Hl & _).
    injection E as <-. assert (is_Some (blocks p !! l)) as Hlive by eauto. pose proof (Rf l Hlive) as Hlt. split; [|done].
    assert (freed e (blocks p) !! l = blocks p !! l) as E.
    { unfold freed. destruct (msg e) as [[l'|]|] eqn:E; try done. rewrite lookup_delete_ne; [done|]. intros ->. by apply Hj, (Ra j i f e l). }
    destruct Hcase as [(_ & -> & _)|(t' & _ & -> & _)]; [done|]. rewrite lookup_insert_ne by lia. done. }
  split.
  - intros j. rewrite Hes. destruct (decide (j = i)) as [->|Hne]; [rewrite !lookup_insert_eq; naive_solver|].
    rewrite !lookup_insert_ne by done. apply Rd.
  - intros j f dj. rewrite Hes. destruct (decide (j = i)) as [->|Hne]; [rewrite !lookup_insert_eq; naive_solver|].
    rewrite !lookup_insert_ne by done. intros Hf Hdj. eapply says_frame; [|by eapply Rs]. intros l Hm. by eapply Hother.
  - intros l Hl. rewrite Hes. destruct (Hb l Hl) as [[E _]|Hl']; [exists i, e'; by rewrite lookup_insert_eq|].
    destruct (Hfr l Hl') as [Hl0 Hne]. destruct (Ro l Hl0) as (j & f & Hf & Hm). exists j, f. split; [|done].
    rewrite lookup_insert_ne; [done|]. intros ->. congruence.
  - intros j k f g l. rewrite Hes.
    assert (forall j f, j <> i -> errors p !! j = Some f -> msg f = Some (Block l) -> msg e' = Some (Block l) -> False) as Hx.
    { intros j' f' Hj Hf Hm He'. destruct (proj1 (Rd j')) as [dj Hdj]; [by eexists|].
      destruct (Hother j' f' dj l Hj Hf Hdj Hm) as [_ Hlt].
      destruct Hcase as [(E & _)|(t & E & _)]; [congruence|]. rewrite He' in E. injection E as ->. lia. }
    destruct (decide (j = i)) as [->|Hj], (decide (k = i)) as [->|Hk]; try done;
      rewrite ?lookup_insert_eq, ?lookup_insert_ne by done; intros Hf Hg Hm Hn.
    + injection Hf as <-. destruct (Hx k g Hk Hg Hn Hm).
    + injection Hg as <-. destruct (Hx j f Hj Hf Hm Hn).
    + by eapply Ra.
  - intros l Hl. destruct (Hb l Hl) as [[_ ->]|Hl'].
    + destruct Hcase as [(E & Eb & _)|(t & _ & _ & ->)]; [|lia]. rewrite Eb in Hl. destruct (Hfr _ Hl) as [Hl0 _]. apply Rf in Hl0. lia.
    + destruct (Hfr l Hl') as [Hl0 _]. apply Rf in Hl0. destruct Hcase as [(_ & _ & ->)|(t & _ & _ & ->)]; lia.
Qed.

(** ** The operations *)

Lemma copy_field_string s n : no_nul s = true -> c_string (copy_field s (S n)) = Some (str_take n s).
Proof.
  intros Hs. unfold copy_field. destruct (terminated_copy s n [] Hs) as (c & Hc & H). rewrite app_nil_r in *.
  cbn [Nat.sub]. rewrite Nat.sub_0_r. case_match eqn:E; [|done]. apply Z.eqb_eq in E. rewrite list_insert_id; [done|].
  rewrite Hc. unfold NUL. by rewrite <- E, chr_code.
Qed.

Lemma zeroed_string n : c_string (replicate (S n) NUL) = Some EmptyString.
Proof. done. Qed.

Lemma says_set p e d code text state qid fl ln :
  says p e d -> good_set code state qid d ->
  let st := match state with Some s => copy_field s SF_SQLSTATE_LEN | None => sqlstate e end in
  forall p', blocks p' !! next_block p = Some text ->
  says p' (mk_error code st (Some (Block (next_block p))) false (copy_field qid SF_UUID4_LEN) fl ln)
    (spec_set code text state qid fl ln d).
Proof.
  intros [] (Hc & Hq & Hst) st p' Hb.
  assert (c_string st = Some (i_sqlstate (spec_set code text state qid fl ln d)) /\
          no_nul (i_sqlstate (spec_set code text state qid fl ln d)) = true /\
          (String.length (i_sqlstate (spec_set code text state qid fl ln d)) <= 5)%nat /\
          i_sqlstate (spec_set code text state qid fl ln d) <> SF_SQLSTATE_NO_ERROR) as (H1 & H2 & H3 & H4).
  { subst st. destruct state as [s|]; cbn [spec_set i_sqlstate]; [|naive_solver]. destruct Hst as [Hs Hne].
    split_and!; [by apply copy_field_string|by apply no_nul_take|rewrite str_take_min; lia|done]. }
  split; cbn [error_code sqlstate sfqid file line is_shared_msg msg]; try done.
  - by apply copy_field_string.
  - split; [done|by apply no_nul_take].
  - split; [done|]. cbn [spec_set i_sfqid]. rewrite str_take_min. lia.
  - exists (next_block p). done.
Qed.

Lemma lookup_both p m i d : represents p m -> m !! i = Some d -> exists e, errors p !! i = Some e /\ says p e d.
Proof. intros Hr Hd. destruct (proj2 (r_dom p m Hr i)) as [e He]; [by eexists|]. exists e. split; [done|by eapply r_says]. Qed.

(** A set whose text, read again after the old message is gone, is still there. *)
Lemma set_represents p m i d c code text state qid fl ln :
  represents p m -> m !! i = Some d -> good_set code state qid d ->
  read_chars c p = Done text ->
  (forall e, errors p !! i = Some e -> read_chars c (set_blocks (freed e (blocks p)) p) = Done text) ->
  exists p', set_snowflake_error true (Some i) code c state qid fl ln p = Done p' /\
    represents p' (<[i := spec_set code text state qid fl ln d]> m).
Proof.
  intros Hr Hd Hal Hc1 Hc2. destruct (lookup_both p m i d Hr Hd) as (e & He & Hs). unfold set_snowflake_error.
  rewrite Hc1, bind_Done_l, He. cbn [deref]. rewrite bind_Done_l, (y_shared p e d Hs), (free_owned p e d Hs), bind_Done_l, (Hc2 e He), bind_Done_l.
  rewrite (str_take_all _ text) by lia. eexists. split; [reflexivity|]. cbn [blocks next_block errors set_errors set_blocks shared_msg].
  eapply replaced; [exact Hr|exact He|exact Hd|reflexivity| |right; exists text; split_and!; reflexivity].
  apply says_set; [done|done|]. cbn. apply lookup_insert_eq.
Qed.

Lemma clear_represents p m i : represents p m -> is_Some (m !! i) ->
  exists p', clear_snowflake_error i p = Done p' /\ represents p' (spec_op (OClear i) m).
Proof.
  intros Hr [d Hd]. destruct (lookup_both p m i d Hr Hd) as (e & He & Hs). unfold clear_snowflake_error. cbn [errors set_shared].
  rewrite He. cbn [deref]. rewrite bind_Done_l, (y_state p e d Hs). cbn [deref]. rewrite bind_Done_l, (y_shared p e d Hs), andb_true_r.
  assert ((if negb (String.eqb (i_sqlstate d) SF_SQLSTATE_NO_ERROR) then free_msg (msg e) (set_shared EmptyString p) else Done (set_shared EmptyString p))
          = Done (set_blocks (freed e (blocks p)) (set_shared EmptyString p))) as ->.
  { destruct (String.eqb_spec (i_sqlstate d) SF_SQLSTATE_NO_ERROR) as [E|E]; cbn [negb].
    - unfold freed. pose proof (y_msg p e d Hs) as Hm. destruct (i_msg d) as [t|]; [by destruct Hm as (l & _ & _ & _ & ?)|].
      destruct Hm as [-> _]. done.
    - apply (free_owned (set_shared EmptyString p) e d). by eapply says_frame; [|exact Hs]. }
  rewrite bind_Done_l. eexists. split; [reflexivity|]. cbn [spec_op].
  cbn [errors blocks next_block set_errors set_blocks set_shared].
  eapply replaced; [exact Hr|exact He|exact Hd|reflexivity| |left; done]. split; cbn; try done; lia.
Qed.

(** Another structure's message survives the loss of this one's. *)
Lemma other_message p m i j e f d : represents p m -> i <> j -> errors p !! i = Some e -> errors p !! j = Some f -> says p f d ->
  forall t, i_msg d = Some t -> exists q, msg f = Some q /\ read_msg q p = Done t /\
    read_msg q (set_blocks (freed e (blocks p)) p) = Done t.
Proof.
  intros Hr Hne He Hf Hs t Ht. pose proof (y_msg p f d Hs) as Hm. rewrite Ht in Hm. destruct Hm as (l & El & Hl & _).
  exists (Block l). split; [done|]. cbn. rewrite Hl. split; [done|]. unfold freed. destruct (msg e) as [[l'|]|] eqn:E; try (by rewrite Hl).
  rewrite lookup_delete_ne, Hl; [done|]. intros ->. by apply Hne, (r_alone p m Hr i j e f l).
Qed.

Lemma set_code_message p e d : says p e d -> i_code d <> 0 ->
  exists t, i_msg d = Some t /\ i_sqlstate d <> SF_SQLSTATE_NO_ERROR.
Proof. intros Hs Hc. pose proof (y_msg p e d Hs) as Hm. destruct (i_msg d) as [t|]; [|naive_solver]. destruct Hm as (l & _ & _ & _ & ?). eauto. Qed.

Lemma info_eta d t : i_msg d = Some t -> (String.length (i_sqlstate d) <= 5 /\ String.length (i_sfqid d) <= 36)%nat ->
  forall d0, spec_set (i_code d) t (Some (i_sqlstate d)) (i_sfqid d) (i_file d) (i_line d) d0 = d.
Proof. intros Ht [H1 H2] d0. unfold spec_set. rewrite !str_take_all by lia. destruct d. cbn in *. by rewrite Ht. Qed.

Lemma copy_represents p m dst src : represents p m -> allowed (OCopy dst src) m ->
  exists p', copy_snowflake_error true (Some dst) (Some src) p = Done p' /\ represents p' (spec_op (OCopy dst src) m).
Proof.
  intros Hr (Hne & [d0 Hd0] & d & Hd & Hc). destruct (lookup_both p m src d Hr Hd) as (f & Hf & Hs).
  destruct (set_code_message p f d Hs Hc) as (t & Ht & Hst).
  unfold copy_snowflake_error. rewrite decide_False by done. rewrite Hf. cbn [deref]. rewrite bind_Done_l.
  destruct (lookup_both p m dst d0 Hr Hd0) as (e & He & Hs0).
  destruct (other_message p m dst src e f d Hr Hne He Hf Hs t Ht) as (q & Hq & H1 & H2).
  rewrite Hq. cbn [deref]. rewrite bind_Done_l, (y_state p f d Hs). cbn [deref]. rewrite bind_Done_l, (y_qid p f d Hs). cbn [deref].
  rewrite bind_Done_l, (y_code p f d Hs). destruct (y_file p f d Hs) as [-> ->]. cbn [spec_op]. rewrite Hd.
  destruct (set_represents p m dst d0 (Msg q) (i_code d) t (Some (i_sqlstate d)) (i_sfqid d) (i_file d) (i_line d) Hr Hd0) as (p' & E & Hr').
  - destruct (y_plain p f d Hs). destruct (y_short p f d Hs). split_and!; [done..|]. by rewrite str_take_all by lia.
  - done.
  - intros e' He'. rewrite He in He'. by injection He' as <-.
  - exists p'. split; [done|]. by rewrite (info_eta d t Ht (y_short p f d Hs) d0) in Hr'.
Qed.

Lemma propagate_represents p m dst src : represents p m -> allowed (OPropagate dst src) m ->
  exists p', snowflake_propagate_error dst src p = Done p' /\ represents p' (spec_op (OPropagate dst src) m).
Proof.
  intros Hr (Hne & [d0 Hd0] & [d Hd]). destruct (lookup_both p m src d Hr Hd) as (f & Hf & Hs).
  destruct (lookup_both p m dst d0 Hr Hd0) as (e & He & Hs0). unfold snowflake_propagate_error. cbn [spec_op]. rewrite He, Hd. cbn [deref].
  rewrite bind_Done_l.
  assert ((if error_code e =? 0 then Done p else free_msg (msg e) p) = Done (set_blocks (freed e (blocks p)) p)) as ->.
  { rewrite (y_code p e d0 Hs0). case_match eqn:E; [|by apply (free_owned p e d0)]. apply Z.eqb_eq in E. unfold freed.
    pose proof (y_msg p e d0 Hs0) as Hm. destruct (i_msg d0); [by destruct Hm as (? & _ & _ & ? & _)|]. destruct Hm as [-> _]. by destruct p. }
  rewrite bind_Done_l. cbn [errors set_blocks]. rewrite Hf. cbn [deref]. rewrite bind_Done_l, (y_code p f d Hs).
  pose proof (y_msg p f d Hs) as Hm. destruct (i_code d =? 0) eqn:E.
  - apply Z.eqb_eq in E. destruct (i_msg d) as [t|] eqn:Ht; [by destruct Hm as (? & _ & _ & ? & _)|]. destruct Hm as [Hm _].
    eexists. split; [reflexivity|]. eapply replaced; [exact Hr|exact He|exact Hd0|reflexivity| |left; done].
    eapply says_frame; [|exact Hs]. rewrite Hm. done.
  - apply Z.eqb_neq in E. destruct (set_code_message p f d Hs E) as (t & Ht & Hst). rewrite Ht in Hm.
    destruct (other_message p m dst src e f d Hr Hne He Hf Hs t Ht) as (q & Hq & _ & H2). rewrite Hq. cbn [deref].
    rewrite bind_Done_l. change (read_msg q (set_errors dst f (set_blocks (freed e (blocks p)) p))) with (read_msg q (set_blocks (freed e (blocks p)) p)).
    rewrite H2, bind_Done_l. eexists. split; [reflexivity|]. cbn [errors blocks next_block set_errors set_blocks].
    eapply replaced; [exact Hr|exact He|exact Hd0|unfold set_errors; cbn [errors]; rewrite insert_insert_eq; reflexivity| |right; exists t; done].
    destruct Hs. split; cbn; try done. rewrite Ht. exists (next_block p). split_and!; [done|apply lookup_insert_eq|done|done].
Qed.

Lemma op_represents o p m : represents p m -> allowed o m ->
  exists p', apply_op o p = Done p' /\ represents p' (spec_op o m).
Proof.
  intros Hr Ha. destruct o as [i code text state qid fl ln|i|dst src|dst src]; cbn [apply_op].
  - destruct Ha as (d & Hd & Hg).
    destruct (set_represents p m i d (Text text) code text state qid fl ln Hr Hd Hg) as (p' & E & Hr'); [done|done|].
    exists p'. split; [done|]. cbn [spec_op]. by rewrite Hd.
  - by apply clear_represents.
  - by apply copy_represents.
  - by apply propagate_represents.
Qed.

Lemma start_represents k : represents (start k) (spec_start k).
Proof.
  unfold start, spec_start. split; cbn [errors blocks next_block].
  - intros i. rewrite !lookup_gset_to_gmap. case_guard; cbn; split; intros [? ?]; try done; by eexists.
  - intros i e d [_ <-]%lookup_gset_to_gmap_Some [_ <-]%lookup_gset_to_gmap_Some. split; cbn; try done; lia.
  - intros l [? Hl]. by rewrite lookup_empty in Hl.
  - intros i j e f l [_ <-]%lookup_gset_to_gmap_Some _ [=].
  - intros l [? Hl]. by rewrite lookup_empty in Hl.
Qed.

Lemma ops_represent os : forall p m, represents p m -> all_allowed os m ->
  exists p', apply_ops os p = Done p' /\ represents p' (spec_ops os m).
Proof.
  induction os as [|o os IH]; intros p m Hr Ha; [by exists p|]. destruct Ha as [Ha Hos].
  destruct (op_represents o p m Hr Ha) as (p1 & E & Hr1). cbn [apply_ops]. rewrite E, bind_Done_l. exact (IH p1 (spec_op o m) Hr1 Hos).
Qed.


Definition sample_ops : list err_op :=
  [OSet 0 240000 "first" (Some "08001xyz") EmptyString (Some "client.c") 10;
   OCopy 1 0; OSet 0 240001 "second" None "q-1" (Some "client.c") 20; OPropagate 1 0; OClear 0].


(** ** What the callers must keep to *)

(** An error that is set with SQL state 00000 keeps its block when it is cleared. *)
Example clear_leaks :
  blocks <$> (match apply_ops [OSet 0 1 "lost" (Some SF_SQLSTATE_NO_ERROR) EmptyString None 0; OClear 0] (start 1) with
              | Done p => Some p | _ => None end) = Some {[0%nat := "lost"]}.
Proof. vm_compute. reflexivity. Qed.

(** Copying an error that has no message reads through NULL. *)
Example copy_unset : copy_snowflake_error true (Some 1%nat) (Some 0%nat) (start 2) = Undef.
Proof. reflexivity. Qed.
