(* ===== verification/Results.v ===== *)
(** * lib/results.c: column descriptions and the conversion of bound values to
    text.

    A [void *] value is a [c_value]: the object it points at.  Reading an object
    under another type than its own is [Undef].  A returned string is the block
    allocated for it, or a string literal. *)

From S2P Require Import Prelude CLib CFloat CJson JsonHelpers.

Inductive SF_DB_TYPE :=
| SF_DB_TYPE_FIXED | SF_DB_TYPE_REAL | SF_DB_TYPE_TEXT | SF_DB_TYPE_DATE
| SF_DB_TYPE_TIMESTAMP_LTZ | SF_DB_TYPE_TIMESTAMP_NTZ | SF_DB_TYPE_TIMESTAMP_TZ
| SF_DB_TYPE_VARIANT | SF_DB_TYPE_OBJECT | SF_DB_TYPE_ARRAY | SF_DB_TYPE_BINARY
| SF_DB_TYPE_TIME | SF_DB_TYPE_BOOLEAN.
#[export] Instance SF_DB_TYPE_eq_dec : EqDecision SF_DB_TYPE.
Proof. solve_decision. Defined.

Inductive SF_C_TYPE :=
| SF_C_TYPE_INT8 | SF_C_TYPE_UINT8 | SF_C_TYPE_INT64 | SF_C_TYPE_UINT64 | SF_C_TYPE_FLOAT64
| SF_C_TYPE_STRING | SF_C_TYPE_TIMESTAMP | SF_C_TYPE_BOOLEAN | SF_C_TYPE_BINARY.
#[export] Instance SF_C_TYPE_eq_dec : EqDecision SF_C_TYPE.
Proof. solve_decision. Defined.

(** ** Names of types *)

Definition string_to_snowflake_type (s : string) : SF_DB_TYPE :=
  if String.eqb s "fixed" then SF_DB_TYPE_FIXED
  else if String.eqb s "real" then SF_DB_TYPE_REAL
  else if String.eqb s "text" then SF_DB_TYPE_TEXT
  else if String.eqb s "date" then SF_DB_TYPE_DATE
  else if String.eqb s "timestamp_ltz" then SF_DB_TYPE_TIMESTAMP_LTZ
  else if String.eqb s "timestamp_ntz" then SF_DB_TYPE_TIMESTAMP_NTZ
  else if String.eqb s "timestamp_tz" then SF_DB_TYPE_TIMESTAMP_TZ
  else if String.eqb s "variant" then SF_DB_TYPE_VARIANT
  else if String.eqb s "object" then SF_DB_TYPE_OBJECT
  else if String.eqb s "array" then SF_DB_TYPE_ARRAY
  else if String.eqb s "binary" then SF_DB_TYPE_BINARY
  else if String.eqb s "time" then SF_DB_TYPE_TIME
  else if String.eqb s "boolean" then SF_DB_TYPE_BOOLEAN
  else SF_DB_TYPE_TEXT.

Definition snowflake_type_to_string (type : SF_DB_TYPE) : string :=
  match type with
  | SF_DB_TYPE_FIXED => "FIXED"
  | SF_DB_TYPE_REAL => "REAL"
  | SF_DB_TYPE_TEXT => "TEXT"
  | SF_DB_TYPE_DATE => "DATE"
  | SF_DB_TYPE_TIMESTAMP_LTZ => "TIMESTAMP_LTZ"
  | SF_DB_TYPE_TIMESTAMP_NTZ => "TIMESTAMP_NTZ"
  | SF_DB_TYPE_TIMESTAMP_TZ => "TIMESTAMP_TZ"
  | SF_DB_TYPE_VARIANT => "VARIANT"
  | SF_DB_TYPE_OBJECT => "OBJECT"
  | SF_DB_TYPE_ARRAY => "ARRAY"
  | SF_DB_TYPE_BINARY => "BINARY"
  | SF_DB_TYPE_TIME => "TIME"
  | SF_DB_TYPE_BOOLEAN => "BOOLEAN"
  end.

Definition snowflake_c_type_to_string (type : SF_C_TYPE) : string :=
  match type with
  | SF_C_TYPE_STRING => "SF_C_TYPE_STRING"
  | SF_C_TYPE_UINT8 => "SF_C_TYPE_UINT8"
  | SF_C_TYPE_INT8 => "SF_C_TYPE_INT8"
  | SF_C_TYPE_UINT64 => "SF_C_TYPE_UINT64"
  | SF_C_TYPE_INT64 => "SF_C_TYPE_INT64"
  | SF_C_TYPE_FLOAT64 => "SF_C_TYPE_FLOAT64"
  | SF_C_TYPE_BOOLEAN => "SF_C_TYPE_BOOLEAN"
  | SF_C_TYPE_TIMESTAMP => "SF_C_TYPE_TIMESTAMP"
  | SF_C_TYPE_BINARY => "SF_C_TYPE_BINARY"
  end.

Definition snowflake_to_c_type (type : SF_DB_TYPE) (precision scale : Z) : SF_C_TYPE :=
  match type with
  | SF_DB_TYPE_FIXED => if (scale >? 0) || (precision >=? 19) then SF_C_TYPE_FLOAT64 else SF_C_TYPE_INT64
  | SF_DB_TYPE_REAL => SF_C_TYPE_FLOAT64
  | SF_DB_TYPE_TIMESTAMP_LTZ | SF_DB_TYPE_TIMESTAMP_NTZ | SF_DB_TYPE_TIMESTAMP_TZ => SF_C_TYPE_TIMESTAMP
  | SF_DB_TYPE_BOOLEAN => SF_C_TYPE_BOOLEAN
  | SF_DB_TYPE_TEXT | SF_DB_TYPE_VARIANT | SF_DB_TYPE_OBJECT | SF_DB_TYPE_ARRAY => SF_C_TYPE_STRING
  | SF_DB_TYPE_BINARY => SF_C_TYPE_BINARY
  | _ => SF_C_TYPE_STRING
  end.

Definition c_type_to_snowflake (c_type : SF_C_TYPE) (tsmode : SF_DB_TYPE) : SF_DB_TYPE :=
  match c_type with
  | SF_C_TYPE_INT8 | SF_C_TYPE_UINT8 | SF_C_TYPE_INT64 | SF_C_TYPE_UINT64 => SF_DB_TYPE_FIXED
  | SF_C_TYPE_FLOAT64 => SF_DB_TYPE_REAL
  | SF_C_TYPE_STRING => SF_DB_TYPE_TEXT
  | SF_C_TYPE_TIMESTAMP => tsmode
  | SF_C_TYPE_BOOLEAN => SF_DB_TYPE_BOOLEAN
  | SF_C_TYPE_BINARY => SF_DB_TYPE_BINARY
  end.

(** ** Bound values *)

Definition hex_digit (b : Z) : ascii := if b >? 9 then chr (65 + (b - 10)) else chr (48 + b).

(** [src[i]] for [i < src_len], two digits each; reading past the block or writing
    past [dst] is undefined. *)
Fixpoint bin2hex_loop (src : list ascii) (src_len : nat) : outcome (list ascii) :=
  match src_len with
  | O => Done []
  | S n =>
      match src with
      | [] => Undef
      | c :: src =>
          rest ← bin2hex_loop src n;
          Done (hex_digit (Z.shiftr (code c) 4) :: hex_digit (Z.land (code c) 15) :: rest)
      end
  end.

Definition _bin2hex (dst : list ascii) (src : list ascii) (dst_max_len : Z) (src_len : nat) : outcome (Z * list ascii) :=
  if dst_max_len <? Z.of_nat src_len * 2 then Done (0, dst)
  else
    hex ← bin2hex_loop src src_len;
    if (length hex <=? length dst)%nat then Done (Z.of_nat (length hex), hex ++ drop (length hex) dst) else Undef.

Inductive c_value :=
| VInt8 (z : Z) | VUint8 (z : Z) | VInt64 (z : Z) | VUint64 (z : Z) | VFloat64 (d : double)
| VBool (z : Z) | VBytes (block : list ascii) | VTimestamp.

Inductive c_text := Heap (block : list ascii) | Literal (s : string).

(** [snprintf] into a block of exactly the length it asked for. *)
Definition printed (s : string) : c_text := Heap (String.list_ascii_of_string s ++ [NUL]).

(** [strncpy] out of a block: it stops at a NUL or after [n] bytes, and may not run
    past the block before either. *)
Fixpoint strncpy_block (src : list ascii) (n : nat) : outcome (list ascii) :=
  match n with
  | O => Done []
  | S n' =>
      match src with
      | [] => Undef
      | c :: src => if code c =? 0 then Done (replicate n NUL) else r ← strncpy_block src n'; Done (c :: r)
      end
  end.

Definition SF_BOOLEAN_INTERNAL_TRUE_STR : string := "TRUE".
Definition SF_BOOLEAN_INTERNAL_FALSE_STR : string := "FALSE".

Definition value_to_string (value : option c_value) (len : nat) (c_type : SF_C_TYPE) : outcome (option c_text) :=
  match value with
  | None => Done None
  | Some v =>
      match c_type, v with
      | SF_C_TYPE_INT8, VInt8 z | SF_C_TYPE_UINT8, VUint8 z
      | SF_C_TYPE_INT64, VInt64 z | SF_C_TYPE_UINT64, VUint64 z => Done (Some (printed (fmt_d z)))
      | SF_C_TYPE_FLOAT64, VFloat64 d => Done (Some (printed (fmt_f d)))
      | SF_C_TYPE_BOOLEAN, VBool z =>
          let s := if z =? 0 then SF_BOOLEAN_INTERNAL_FALSE_STR else SF_BOOLEAN_INTERNAL_TRUE_STR in
          Done (Some (Heap (strncpy_bytes s (String.length s + 2))))
      | SF_C_TYPE_BINARY, VBytes src =>
          r ← _bin2hex (replicate (len * 2 + 1) NUL) src (Z.of_nat (len * 2)) len;
          Done (Some (Heap (<[(len * 2)%nat := NUL]> (snd r))))
      | SF_C_TYPE_STRING, VBytes src => b ← strncpy_block src (len + 1); Done (Some (Heap b))
      | SF_C_TYPE_TIMESTAMP, _ => Done (Some (Literal EmptyString))
      | _, _ => Undef
      end
  end.

(** ** Column descriptions *)

Record SF_COLUMN_DESC := mk_desc {
  idx : Z;
  name : option string;
  d_type : SF_DB_TYPE;
  d_c_type : SF_C_TYPE;
  byte_size : Z;
  internal_size : Z;
  precision : Z;
  scale : Z;
  null_ok : bool
}.

(** Every error code resets the field to its zero value. *)
Definition int_or_zero (r : SF_JSON_ERROR * Z) : Z := match fst r with SF_JSON_ERROR_NONE => snd r | _ => 0 end.

Definition describe_column (i : Z) (column : option cJSON) : outcome SF_COLUMN_DESC :=
  nm ← json_copy_string None column "name";
  bs ← json_copy_int 0 column "byteLength";
  isz ← json_copy_int 0 column "length";
  pr ← json_copy_int 0 column "precision";
  sc ← json_copy_int 0 column "scale";
  let nl := json_copy_bool false column "nullable" in
  let blob := snowflake_cJSON_GetObjectItem column "type" in
  ty ← (if snowflake_cJSON_IsString blob
        then j ← deref blob; v ← deref (valuestring j); Done (string_to_snowflake_type v)
        else Done SF_DB_TYPE_FIXED);
  Done (mk_desc (i + 1) (match fst nm with SF_JSON_ERROR_NONE => snd nm | _ => None end) ty
          (snowflake_to_c_type ty (int_or_zero pr) (int_or_zero sc))
          (int_or_zero bs) (int_or_zero isz) (int_or_zero pr) (int_or_zero sc)
          (match fst nl with SF_JSON_ERROR_NONE => snd nl | _ => false end)).

(** [for (i = 0; i < (int)array_size; i++)], [count] steps from [i]. *)
Fixpoint describe_loop (rowtype : option cJSON) (i : Z) (count : nat) : outcome (list SF_COLUMN_DESC) :=
  match count with
  | O => Done []
  | S count =>
      d ← describe_column i (snowflake_cJSON_GetArrayItem rowtype i);
      rest ← describe_loop rowtype (i + 1) count;
      Done (d :: rest)
  end.

(** [None] is NULL. *)
Definition set_description (rowtype : option cJSON) : outcome (option (list SF_COLUMN_DESC)) :=
  let array_size := snowflake_cJSON_GetArraySize rowtype in
  match rowtype with
  | None => Done None
  | Some _ =>
      if array_size =? 0 then Done None
      else ds ← describe_loop rowtype 0 (Z.to_nat array_size); Done (Some ds)
  end.

(** ** Type names *)

(** The server's (lower case) name of every type reads back as that type, so
    no two types share a name; names the table does not know become TEXT. *)
Theorem type_name_roundtrip type :
  string_to_snowflake_type (to_lower_str (snowflake_type_to_string type)) = type.
Proof. destruct type; reflexivity. Qed.

(** ** Values *)

Definition nibble (c : ascii) : Z := if code c >? 64 then code c - 55 else code c - 48.

Fixpoint unhex (hex : list ascii) : list ascii :=
  match hex with
  | h :: l :: hex => chr (16 * nibble h + nibble l) :: unhex hex
  | _ => []
  end.

Lemma nibble_hex_digit b : 0 <= b < 16 -> nibble (hex_digit b) = b.
Proof. intros Hb. unfold nibble, hex_digit. destruct (Z.gtb_spec b 9); rewrite code_chr by lia; case_match; lia. Qed.

Lemma hex_digit_printable b : 0 <= b < 16 -> code (hex_digit b) <> 0.
Proof. intros Hb. unfold hex_digit. destruct (Z.gtb_spec b 9); rewrite code_chr; lia. Qed.

Lemma bin2hex_loop_ok src : exists hex,
  bin2hex_loop src (length src) = Done hex /\ length hex = (2 * length src)%nat /\ unhex hex = src /\
  Forall (fun c => code c <> 0) hex.
Proof.
  induction src as [|c src (hex & E & Hl & Hu & Hf)]; [by exists []|]. cbn [bin2hex_loop length]. rewrite E, bind_Done_l.
  pose proof (code_range c) as Hc.
  assert (0 <= Z.shiftr (code c) 4 < 16) as Hh by (rewrite Z.shiftr_div_pow2 by lia; split; [apply Z.div_pos; lia|apply Z.div_lt_upper_bound; lia]).
  assert (Z.land (code c) 15 = code c mod 16) as Hm by (change 15 with (Z.ones 4); by rewrite Z.land_ones).
  assert (0 <= Z.land (code c) 15 < 16) as Hlo by (rewrite Hm; apply Z.mod_pos_bound; lia).
  eexists; split; [done|]. split_and!.
  - cbn [length]. lia.
  - cbn [unhex]. rewrite !nibble_hex_digit, Hu by done. f_equal.
    rewrite Hm, Z.shiftr_div_pow2 by lia. change (2 ^ 4) with 16. rewrite <- Z.div_mod by lia. apply chr_code.
  - repeat constructor; [by apply hex_digit_printable..|done].
Qed.

Lemma c_string_block hex : Forall (fun c => code c <> 0) hex -> c_string (hex ++ [NUL]) = Some (String.string_of_list_ascii hex).
Proof.
  induction hex as [|c hex IH]; intros Hf; [done|]. apply Forall_cons in Hf as [Hc Hf]. cbn [app c_string].
  rewrite (proj2 (Z.eqb_neq _ _)) by done. rewrite (IH Hf). done.
Qed.

(** a bound binary value of [len] bytes becomes a terminated string of exactly
    [2 * len] hexadecimal digits, high digit first, that decodes to the value: the
    loop reads only the value and writes only the block allocated for it. *)
Theorem binary_to_string_roundtrip src :
  exists hex, value_to_string (Some (VBytes src)) (length src) SF_C_TYPE_BINARY = Done (Some (Heap (hex ++ [NUL]))) /\
    length hex = (2 * length src)%nat /\ unhex hex = src /\
    c_string (hex ++ [NUL]) = Some (String.string_of_list_ascii hex).
Proof.
  destruct (bin2hex_loop_ok src) as (hex & E & Hl & Hu & Hf). exists hex. unfold value_to_string, _bin2hex.
  rewrite (proj2 (Z.ltb_ge _ _)) by lia. rewrite E, bind_Done_l.
  rewrite (proj2 (Nat.leb_le _ _)) by (rewrite length_replicate; lia). rewrite bind_Done_l. cbn [snd].
  split_and!; [|done|done|by apply c_string_block]. rewrite drop_replicate.
  replace (length src * 2 + 1 - length hex)%nat with 1%nat by lia.
  rewrite insert_app_r_alt by lia. replace (length src * 2 - length hex)%nat with O by lia. done.
Qed.

Lemma fmt_d_no_nul n : no_nul (fmt_d n) = true.
Proof. unfold fmt_d. destruct (n <? 0); [exact (dec_no_nul (- n))|apply dec_no_nul]. Qed.

Lemma printed_string s : no_nul s = true -> printed s = Heap (String.list_ascii_of_string s ++ [NUL]) /\
  c_string (String.list_ascii_of_string s ++ [NUL]) = Some s.
Proof. intros Hs. split; [done|by apply c_string_app]. Qed.

(** A bound integer and the range of its C type. *)
Definition int_value (v : c_value) : option (SF_C_TYPE * Z) :=
  match v with
  | VInt8 z => if (-128 <=? z) && (z <=? 127) then Some (SF_C_TYPE_INT8, z) else None
  | VUint8 z => if (0 <=? z) && (z <=? 255) then Some (SF_C_TYPE_UINT8, z) else None
  | VInt64 z => if (LLONG_MIN <=? z) && (z <=? LLONG_MAX) then Some (SF_C_TYPE_INT64, z) else None
  | VUint64 z => if (0 <=? z) && (z <=? ULLONG_MAX) then Some (SF_C_TYPE_UINT64, z) else None
  | _ => None
  end.

(** a bound integer of any width becomes a terminated decimal string that
    reads back, to its last character, as the same integer. *)
Theorem integer_to_string_roundtrip v len c_type z :
  int_value v = Some (c_type, z) ->
  exists block s, value_to_string (Some v) len c_type = Done (Some (Heap block)) /\ c_string block = Some s /\
    (if z <? 0 then strtoll s else strtoull s) = mk_strto z (String.length s) false.
Proof.
  intros Hv. exists (String.list_ascii_of_string (fmt_d z) ++ [NUL]), (fmt_d z).
  assert ((if z <? 0 then strtoll (fmt_d z) else strtoull (fmt_d z)) = mk_strto z (String.length (fmt_d z)) false) as Hread.
  { assert (LLONG_MIN <= z <= ULLONG_MAX) as Hz.
    { unfold int_value, LLONG_MIN, LLONG_MAX, ULLONG_MAX in *. destruct v; try done; case_match; simplify_eq; lia. }
    destruct (Z.ltb_spec z 0); [apply strtoll_fmt_d|apply strtoull_fmt_d]; unfold LLONG_MAX, ULLONG_MAX in *; lia. }
  split_and!; [|apply (printed_string (fmt_d z)), fmt_d_no_nul|done].
  clear Hread. unfold int_value in Hv. destruct v; try done; case_match; simplify_eq; reflexivity.
Qed.

Lemma integer_to_string_roundtrip_witness :
  exists block s, value_to_string (Some (VInt64 LLONG_MIN)) 0 SF_C_TYPE_INT64 = Done (Some (Heap block)) /\
    c_string block = Some s /\ strtoll s = mk_strto LLONG_MIN (String.length s) false.
Proof. exact (integer_to_string_roundtrip (VInt64 LLONG_MIN) 0 SF_C_TYPE_INT64 LLONG_MIN eq_refl). Defined.

(** A string value whose given length is shorter than the string is copied without
    its terminator. *)
Example short_length_unterminated :
  exists block, value_to_string (Some (VBytes (String.list_ascii_of_string "abcdef" ++ [NUL]))) 3 SF_C_TYPE_STRING =
    Done (Some (Heap block)) /\ length block = 4%nat /\ c_string block = None.
Proof. eexists. vm_compute. split_and!; reflexivity. Qed.

(** ** Descriptions *)

(** A column whose string members have their text and whose numbers fit [int64]:
    what the parser makes of a response with such numbers. *)
Definition readable (column : option cJSON) : Prop :=
  forall k m, snowflake_cJSON_GetObjectItem column k = Some m ->
    (snowflake_cJSON_IsString (Some m) = true -> exists v, valuestring m = Some v) /\
    (snowflake_cJSON_IsNumber (Some m) = true -> exists n, cast_to_range LLONG_MIN LLONG_MAX (valuedouble m) = Done n).

(** The values of members by type, a zero value in every other case. *)
Definition string_member (column : option cJSON) (k : string) : option string :=
  match snowflake_cJSON_GetObjectItem column k with
  | Some m => if snowflake_cJSON_IsString (Some m) then valuestring m else None
  | None => None
  end.
Definition int_member (column : option cJSON) (k : string) : Z :=
  match snowflake_cJSON_GetObjectItem column k with
  | Some m =>
      if snowflake_cJSON_IsNumber (Some m)
      then match cast_to_range LLONG_MIN LLONG_MAX (valuedouble m) with Done n => n | _ => 0 end else 0
  | None => 0
  end.
Definition bool_member (column : option cJSON) (k : string) : bool :=
  match snowflake_cJSON_GetObjectItem column k with Some m => snowflake_cJSON_IsTrue (Some m) | None => false end.

Lemma not_null_of_type t m : t <> cJSON_NULL -> has_type t (Some m) = true -> snowflake_cJSON_IsNull (Some m) = false.
Proof.
  intros Ht Hm. unfold snowflake_cJSON_IsNull, has_type in *. apply Z.eqb_eq in Hm. rewrite Hm. by apply Z.eqb_neq.
Qed.

Lemma copy_string_member column k : readable column ->
  exists r, json_copy_string None column k = Done r /\
    (match fst r with SF_JSON_ERROR_NONE => snd r | _ => None end) = string_member column k.
Proof.
  intros Hr. unfold json_copy_string, string_member. destruct (snowflake_cJSON_GetObjectItem column k) as [m|] eqn:E; [|by eexists].
  cbn [json_classify]. destruct (snowflake_cJSON_IsString (Some m)) eqn:Es.
  - rewrite (not_null_of_type cJSON_String) by done. destruct (proj1 (Hr k m E) Es) as [v Hv].
    cbn [deref]. rewrite bind_Done_l, Hv. cbn [deref]. rewrite bind_Done_l. by eexists.
  - destruct (snowflake_cJSON_IsNull (Some m)); by eexists.
Qed.

Lemma copy_int_member column k : readable column ->
  exists r, json_copy_int 0 column k = Done r /\ int_or_zero r = int_member column k.
Proof.
  intros Hr. unfold json_copy_int, int_member. destruct (snowflake_cJSON_GetObjectItem column k) as [m|] eqn:E; [|by eexists].
  cbn [json_classify]. destruct (snowflake_cJSON_IsNumber (Some m)) eqn:Es.
  - rewrite (not_null_of_type cJSON_Number) by done. destruct (proj2 (Hr k m E) Es) as [n Hn].
    cbn [deref]. rewrite bind_Done_l, Hn, bind_Done_l. by eexists.
  - destruct (snowflake_cJSON_IsNull (Some m)); by eexists.
Qed.

Lemma copy_bool_member column k :
  (match fst (json_copy_bool false column k) with SF_JSON_ERROR_NONE => snd (json_copy_bool false column k) | _ => false end)
    = bool_member column k.
Proof.
  unfold json_copy_bool, bool_member. destruct (snowflake_cJSON_GetObjectItem column k) as [m|]; [|done].
  cbn [json_classify]. destruct (snowflake_cJSON_IsNull (Some m)) eqn:En.
  - unfold snowflake_cJSON_IsNull, snowflake_cJSON_IsTrue, has_type in *. apply Z.eqb_eq in En. rewrite En. done.
  - destruct (snowflake_cJSON_IsBool (Some m)) eqn:Eb; cbn [fst snd]; [done|].
    unfold snowflake_cJSON_IsBool, snowflake_cJSON_IsTrue, has_type in *. apply negb_false_iff, Z.eqb_eq in Eb.
    symmetry. apply Z.eqb_neq. intros Ht. apply (f_equal (fun z => Z.testbit z 1)) in Eb, Ht.
    rewrite Z.land_spec in Eb, Ht. cbn in Eb, Ht. rewrite andb_true_r in *. congruence.
Qed.

(** The description the code promises for the column at position [i]. *)
Definition description (i : nat) (column : option cJSON) : SF_COLUMN_DESC :=
  let ty := match string_member column "type" with Some s => string_to_snowflake_type s | None => SF_DB_TYPE_FIXED end in
  let pr := int_member column "precision" in
  let sc := int_member column "scale" in
  mk_desc (Z.of_nat i + 1) (string_member column "name") ty (snowflake_to_c_type ty pr sc)
    (int_member column "byteLength") (int_member column "length") pr sc (bool_member column "nullable").

Lemma describe_column_ok i column : readable column -> describe_column (Z.of_nat i) column = Done (description i column).
Proof.
  intros Hr. unfold describe_column.
  destruct (copy_string_member column "name" Hr) as (r1 & -> & E1).
  destruct (copy_int_member column "byteLength" Hr) as (r2 & -> & E2).
  destruct (copy_int_member column "length" Hr) as (r3 & -> & E3).
  destruct (copy_int_member column "precision" Hr) as (r4 & -> & E4).
  destruct (copy_int_member column "scale" Hr) as (r5 & -> & E5).
  rewrite !bind_Done_l. cbn zeta. rewrite E1, E2, E3, E4, E5, copy_bool_member.
  unfold description. set (ty := match string_member column "type" with Some s => _ | None => _ end).
  assert ((if snowflake_cJSON_IsString (snowflake_cJSON_GetObjectItem column "type")
        then j ← deref (snowflake_cJSON_GetObjectItem column "type"); v ← deref (valuestring j); Done (string_to_snowflake_type v)
        else Done SF_DB_TYPE_FIXED) = Done ty) as ->; [|by rewrite bind_Done_l].
  unfold ty, string_member. destruct (snowflake_cJSON_GetObjectItem column "type") as [m|] eqn:E; [|done].
  destruct (snowflake_cJSON_IsString (Some m)) eqn:Es; [|done]. destruct (proj1 (Hr _ _ E) Es) as [v Hv].
  cbn [deref]. rewrite bind_Done_l, Hv. done.
Qed.

Lemma describe_loop_ok j count : forall i, (i + count <= length (child j))%nat ->
  Forall (fun c => readable (Some c)) (child j) ->
  describe_loop (Some j) (Z.of_nat i) count =
    Done (imap (fun k c => description (i + k) (Some c)) (take count (drop i (child j)))).
Proof.
  induction count as [|count IH]; intros i Hl Hr; [done|]. cbn [describe_loop].
  assert (is_Some (child j !! i)) as [c Hc] by (apply lookup_lt_is_Some_2; lia).
  unfold snowflake_cJSON_GetArrayItem, get_array_item. rewrite (proj2 (Z.ltb_ge _ _)) by lia. rewrite Nat2Z.id, Hc.
  rewrite describe_column_ok by (rewrite Forall_lookup in Hr; by eapply Hr). rewrite bind_Done_l.
  replace (Z.of_nat i + 1) with (Z.of_nat (S i)) by lia. rewrite IH by (done || lia). rewrite bind_Done_l.
  rewrite (drop_S _ _ _ Hc). cbn [take imap]. rewrite Nat.add_0_r. do 2 f_equal.
  apply imap_ext. intros k d _. cbn. by rewrite Nat.add_succ_r.
Qed.

(** for any row type of readable columns the description has one entry per
    column, in order and numbered from 1, each with its members' values, a zero
    value for every member that is missing, null or of the wrong type, and the C
    type its database type, precision and scale select. *)
Theorem set_description_correct j :
  Forall (fun c => readable (Some c)) (child j) -> (0 < length (child j))%nat -> Z.of_nat (length (child j)) <= INT_MAX ->
  set_description (Some j) = Done (Some (imap (fun i c => description i (Some c)) (child j))).
Proof.
  intros Hr Hpos Hmax. unfold INT_MAX in *. unfold set_description, snowflake_cJSON_GetArraySize. rewrite wrapS_small by lia.
  rewrite (proj2 (Z.eqb_neq _ _)) by lia. rewrite Nat2Z.id.
  change 0 with (Z.of_nat 0). rewrite describe_loop_ok by (done || lia). rewrite drop_0, take_ge by lia. done.
Qed.

Definition sample_rowtype : cJSON :=
  let str k v := mk_cJSON cJSON_String (Some v) 0 zero_double (Some k) [] in
  let num k n := mk_cJSON cJSON_Number None n (double_of_Z n) (Some k) [] in
  mk_cJSON cJSON_Array None 0 zero_double None
    [mk_cJSON cJSON_Object None 0 zero_double None [str "name" "ID"; num "precision" 38; num "scale" 0; str "type" "fixed"];
     mk_cJSON cJSON_Object None 0 zero_double None [str "name" "TS"; str "type" "timestamp_tz"; mk_cJSON cJSON_True None 0 zero_double (Some "nullable") []]].

Lemma find_ci_in children k i : find_ci children k = Some i -> exists c, children !! i = Some c /\ c ∈ children.
Proof.
  revert i. induction children as [|c rest IH]; intros i Hi; [done|]. cbn [find_ci] in Hi. destruct (_ =? 0).
  - injection Hi as <-. exists c. split; [done|left].
  - destruct (find_ci rest k) as [n|]; [|done]. injection Hi as <-. destruct (IH n eq_refl) as (d & Hd & Hin).
    exists d. split; [exact Hd|by right].
Qed.

Lemma readable_members column :
  Forall (fun m => (snowflake_cJSON_IsString (Some m) = true -> exists v, valuestring m = Some v) /\
    (snowflake_cJSON_IsNumber (Some m) = true -> exists n, cast_to_range LLONG_MIN LLONG_MAX (valuedouble m) = Done n)) (child column) ->
  readable (Some column).
Proof.
  intros Hf k m Hm. cbn in Hm. destruct (find_ci (child column) k) as [i|] eqn:E; [|done]. cbn in Hm.
  rewrite Forall_lookup in Hf. by eapply Hf.
Qed.

Lemma sample_readable : Forall (fun c => readable (Some c)) (child sample_rowtype).
Proof.
  repeat (constructor; [apply readable_members; repeat (constructor; [split; intros H; vm_compute in H; try discriminate; eexists; vm_compute; reflexivity|]); constructor|]).
  constructor.
Qed.

Lemma set_description_correct_witness :
  set_description (Some sample_rowtype) = Done (Some
    [mk_desc 1 (Some "ID") SF_DB_TYPE_FIXED SF_C_TYPE_FLOAT64 0 0 38 0 false;
     mk_desc 2 (Some "TS") SF_DB_TYPE_TIMESTAMP_TZ SF_C_TYPE_TIMESTAMP 0 0 0 0 true]).
Proof.
  exact (set_description_correct sample_rowtype sample_readable ltac:(vm_compute; lia) ltac:(vm_compute; discriminate)).
Defined.
