(* ===== verification/Url.v ===== *)
(** * lib/connection.c: the URL of a request (encode_url, lines 444-578).

    The destination is the calloc'ed block, byte by byte: snprintf and strncat are
    the C library's, undefined when they run past the block or find no terminator.
    [curl_easy_escape] is libcurl's and a parameter; nothing is assumed of it but
    that it returns a C string. *)

From S2P Require Import Prelude CLib JsonHelpers.

(** ** C strings inside a block *)

(** The position of the terminator. *)
Fixpoint terminator (block : list ascii) : option nat :=
  match block with
  | [] => None
  | c :: block => if code c =? 0 then Some O else S <$> terminator block
  end.

Definition put (at_ : nat) (s : string) (block : list ascii) : outcome (list ascii) :=
  let bytes := String.list_ascii_of_string s ++ [NUL] in
  if (at_ + length bytes <=? length block)%nat
  then Done (take at_ block ++ bytes ++ drop (at_ + length bytes) block)
  else Undef.

(** [snprintf(block, size, ...)] of a text already formatted. *)
Definition snprintf (size : Z) (s : string) (block : list ascii) : outcome (list ascii) :=
  if size <=? 0 then Done block else put 0 (str_take (Z.to_nat (size - 1)) s) block.

(** [strncat(block, s, n)] *)
Definition strncat (s : string) (n : Z) (block : list ascii) : outcome (list ascii) :=
  at_ ← deref (terminator block); put at_ (str_take (Z.to_nat n) s) block.

(** ** encode_url *)

Record URL_KEY_VALUE := mk_var { v_key : string; v_value : option string }.

Definition DEFAULT_SNOWFLAKE_BASE_URL : string := "snowflakecomputing.com".
Definition URL_QUERY_DELIMITER : string := "?".
Definition URL_PARAM_DELIM : string := "&".
Definition amp : string := "&".
Definition request_guid : URL_KEY_VALUE := mk_var "request_guid=" (Some "00000000-0000-0000-0000-000000000000").

Section Url.
  Context (curl_easy_escape : string -> string).

(** [formatted_key] and [formatted_value]: an absent or empty value drops the key. *)
Definition format_var (v : URL_KEY_VALUE) : string * string :=
  match v_value v with
  | Some value => if String.eqb value EmptyString then (EmptyString, curl_easy_escape EmptyString)
                  else (v_key v, curl_easy_escape value)
  | None => (EmptyString, curl_easy_escape EmptyString)
  end.

(** The four formats: the separators between protocol, account, host, port and
    url, the number of their characters, and the fields that replace the empty
    ones.  [None] is NULL, whose length is undefined. *)
Record url_format := mk_format {
  f_before_host : string; f_before_port : string; f_static : Z;
  f_account : option string; f_host : option string; f_port : option string
}.
Definition choose_format (account host port : option string) : url_format :=
  let host_empty := is_string_empty host in
  let port_empty := is_string_empty port in
  if negb port_empty && negb host_empty then mk_format EmptyString ":" 4 (Some EmptyString) host port
  else if port_empty && negb host_empty then mk_format EmptyString EmptyString 3 (Some EmptyString) host (Some EmptyString)
  else if negb port_empty && host_empty then mk_format "." ":" 5 account (Some DEFAULT_SNOWFLAKE_BASE_URL) port
  else mk_format "." EmptyString 4 account (Some DEFAULT_SNOWFLAKE_BASE_URL) (Some EmptyString).

(** Both loops over [vars]. *)
Fixpoint vars_size (vars : list URL_KEY_VALUE) (encoded_url_size : Z) : Z :=
  match vars with
  | [] => encoded_url_size
  | v :: vars =>
      let '(k, value) := format_var v in
      vars_size vars (u64 (encoded_url_size + (strlen k + strlen value + strlen amp)))
  end.
Fixpoint append_vars (vars : list URL_KEY_VALUE) (block : list ascii) : outcome (list ascii) :=
  match vars with
  | [] => Done block
  | v :: vars =>
      let '(k, value) := format_var v in
      block ← strncat k (strlen k) block;
      block ← strncat value (strlen value) block;
      block ← strncat amp (strlen amp) block;
      append_vars vars block
  end.

Definition encode_url (protocol : string) (account host port : option string) (url : string)
    (vars : list URL_KEY_VALUE) (extraUrlParams : option string) : outcome (list ascii) :=
  let f := choose_format account host port in
  account ← deref (f_account f); host ← deref (f_host f); port ← deref (f_port f);
  let base_url_size :=
    u64 (1 + f_static f + (strlen protocol + strlen account + strlen host + strlen port + strlen url + strlen URL_QUERY_DELIMITER)) in
  let encoded_url_size := vars_size vars base_url_size in
  let '(guid_key, guid_value) := format_var request_guid in
  let encoded_url_size := u64 (encoded_url_size + (strlen guid_key + strlen guid_value)) in
  let encoded_url_size := u64 (encoded_url_size +
    match extraUrlParams with
    | Some e => match vars with [] => strlen e | _ => strlen e + strlen URL_PARAM_DELIM end
    | None => 0
    end) in
  let block := replicate (Z.to_nat encoded_url_size) NUL in
  block ← snprintf base_url_size
            (protocol +:+ "://" +:+ account +:+ f_before_host f +:+ host +:+ f_before_port f +:+ port +:+ url) block;
  block ← strncat URL_QUERY_DELIMITER (strlen URL_QUERY_DELIMITER) block;
  block ← append_vars vars block;
  block ← strncat guid_key (strlen guid_key) block;
  block ← strncat guid_value (strlen guid_value) block;
  match extraUrlParams with
  | Some e =>
      if is_string_empty (Some e) then Done block
      else
        block ← (match vars with [] => Done block | _ => strncat URL_PARAM_DELIM 1 block end);
        strncat e (strlen e) block
  | None => Done block
  end.

(** ** What the URL is *)

Definition var_text (v : URL_KEY_VALUE) : string := fst (format_var v) +:+ snd (format_var v) +:+ amp.

Definition extra_text (vars : list URL_KEY_VALUE) (extra : option string) : string :=
  match extra with
  | Some e => if is_string_empty extra then EmptyString else (match vars with [] => EmptyString | _ => URL_PARAM_DELIM end) +:+ e
  | None => EmptyString
  end.

Definition authority (account host port : option string) : string :=
  (if is_string_empty host then default EmptyString account +:+ "." +:+ DEFAULT_SNOWFLAKE_BASE_URL
   else default EmptyString host) +:+
  (if is_string_empty port then EmptyString else ":" +:+ default EmptyString port).

Definition vars_text (vars : list URL_KEY_VALUE) : string := String.concat EmptyString (map var_text vars).

Definition url_text (protocol : string) (account host port : option string) (url : string)
    (vars : list URL_KEY_VALUE) (extra : option string) : string :=
  (protocol +:+ "://" +:+ authority account host port +:+ url) +:+ "?" +:+ vars_text vars +:+
  (fst (format_var request_guid) +:+ snd (format_var request_guid)) +:+ extra_text vars extra.

(** ** The buffer *)

(** A block of [n] bytes that starts with the C string [s]. *)
Definition holds (n : nat) (s : string) (block : list ascii) : Prop :=
  length block = n /\ no_nul s = true /\ exists rest, block = String.list_ascii_of_string s ++ NUL :: rest.

Lemma terminator_string s rest : no_nul s = true ->
  terminator (String.list_ascii_of_string s ++ NUL :: rest) = Some (String.length s).
Proof.
  induction s as [|c s IH]; [done|]. unfold no_nul. cbn [str_all]. intros [Hc Hs]%andb_prop. apply negb_true_iff in Hc.
  cbn [String.list_ascii_of_string app terminator]. rewrite Hc, IH by exact Hs. done.
Qed.

Lemma put_holds n s t block :
  holds n s block -> no_nul t = true -> (String.length s + String.length t + 1 <= n)%nat ->
  exists block', put (String.length s) t block = Done block' /\ holds n (s +:+ t) block'.
Proof.
  intros (Hn & Hs & rest & ->) Ht Hl. unfold put. rewrite length_app, list_ascii_length. cbn [length].
  rewrite (proj2 (Nat.leb_le _ _)) by lia. eexists; split; [done|]. unfold holds. split_and!.
  - rewrite !length_app, length_take, length_drop, list_ascii_length. cbn [length]. lia.
  - by rewrite no_nul_app, Hs, Ht.
  - rewrite take_app_length' by (by rewrite list_ascii_length). rewrite list_ascii_app.
    exists (drop (String.length s + (String.length t + 1)) (String.list_ascii_of_string s ++ NUL :: rest)).
    by rewrite <- !app_assoc.
Qed.

Lemma strncat_holds n s t block :
  holds n s block -> no_nul t = true -> (String.length s + String.length t + 1 <= n)%nat ->
  exists block', strncat t (strlen t) block = Done block' /\ holds n (s +:+ t) block'.
Proof.
  intros H Ht Hl. destruct (put_holds n s t block H Ht Hl) as (b' & E & H').
  exists b'. split; [|done]. unfold strncat, strlen. destruct H as (_ & Hs & rest & ->).
  rewrite terminator_string by done. cbn [deref]. rewrite bind_Done_l, Nat2Z.id, str_take_all by lia. exact E.
Qed.

Context (escape_c_string : forall s, no_nul (curl_easy_escape s) = true).

Definition plain_var (v : URL_KEY_VALUE) : Prop := no_nul (v_key v) = true.

Lemma format_no_nul v : plain_var v -> no_nul (fst (format_var v)) = true /\ no_nul (snd (format_var v)) = true.
Proof. intros Hv. unfold format_var. destruct (v_value v) as [w|]; [destruct (String.eqb w EmptyString)|]; cbn; auto. Qed.

Lemma concat_cons_empty a l : String.concat EmptyString (a :: l) = a +:+ String.concat EmptyString l.
Proof. destruct l; cbn; [by rewrite str_app_nil_r|done]. Qed.

Lemma vars_text_cons v vars : vars_text (v :: vars) = var_text v +:+ vars_text vars.
Proof. unfold vars_text. cbn [map]. apply concat_cons_empty. Qed.

Lemma append_vars_holds n vars : forall s block,
  holds n s block -> Forall plain_var vars -> (String.length s + String.length (vars_text vars) + 1 <= n)%nat ->
  exists block', append_vars vars block = Done block' /\ holds n (s +:+ vars_text vars) block'.
Proof.
  induction vars as [|v vars IH]; intros s block H Hv Hl; cbn [append_vars].
  { exists block. split; [done|]. by rewrite str_app_nil_r. }
  apply Forall_cons in Hv as [Hv Hvs]. destruct (format_no_nul v Hv) as [Hk Hw]. rewrite vars_text_cons in *.
  unfold var_text in *. destruct (format_var v) as [k w]. cbn [fst snd] in *. rewrite !str_length_app in Hl.
  destruct (strncat_holds n s k block H Hk) as (b1 & -> & H1); [lia|]. rewrite bind_Done_l.
  destruct (strncat_holds n (s +:+ k) w b1 H1 Hw) as (b2 & -> & H2); [rewrite str_length_app; lia|]. rewrite bind_Done_l.
  destruct (strncat_holds n ((s +:+ k) +:+ w) amp b2 H2 eq_refl) as (b3 & -> & H3); [rewrite !str_length_app; lia|].
  rewrite bind_Done_l. destruct (IH _ _ H3 Hvs) as (b4 & -> & H4); [rewrite !str_length_app; lia|].
  exists b4. split; [done|]. by rewrite !str_app_assoc in *.
Qed.

Lemma vars_size_ok vars : forall size, 0 <= size -> size + strlen (vars_text vars) < 2 ^ 64 ->
  vars_size vars size = size + strlen (vars_text vars).
Proof.
  induction vars as [|v vars IH]; intros size Hs Hl; cbn [vars_size]; [unfold strlen; cbn; lia|].
  rewrite vars_text_cons in *. unfold var_text in *. destruct (format_var v) as [k w]. cbn [fst snd] in *.
  unfold strlen in *. rewrite !str_length_app in *. cbn [String.length amp] in *.
  rewrite wrapU_small by lia. rewrite IH by lia. lia.
Qed.

Definition plain (s : option string) : Prop := match s with Some s => no_nul s = true | None => True end.

Lemma empty_string s : is_string_empty s = true -> s = None \/ s = Some EmptyString.
Proof. destruct s as [s|]; [|by left]. cbn. intros H. right. f_equal. by apply String.eqb_eq. Qed.

Lemma nonempty_string s : is_string_empty s = false -> exists t, s = Some t.
Proof. destruct s as [s|]; [by exists s|done]. Qed.

Lemma choose_format_ok account host port :
  plain account -> plain host -> plain port -> (is_string_empty host = true -> account <> None) ->
  exists a h p, let f := choose_format account host port in
    f_account f = Some a /\ f_host f = Some h /\ f_port f = Some p /\
    a +:+ f_before_host f +:+ h +:+ f_before_port f +:+ p = authority account host port /\
    f_static f = 3 + strlen (f_before_host f) + strlen (f_before_port f) /\ no_nul (authority account host port) = true.
Proof.
  intros Ha Hh Hp Hacc. unfold choose_format, authority.
  destruct (is_string_empty host) eqn:Eh, (is_string_empty port) eqn:Ep; cbn [negb andb].
  - destruct account as [a|]; [|by destruct Hacc]. exists a, DEFAULT_SNOWFLAKE_BASE_URL, EmptyString. cbn in Ha.
    split_and!; try reflexivity; cbn [f_before_host f_before_port default id]; [by rewrite !str_app_assoc|].
    by rewrite !no_nul_app, Ha.
  - destruct account as [a|]; [|by destruct Hacc]. destruct (nonempty_string _ Ep) as [p ->].
    exists a, DEFAULT_SNOWFLAKE_BASE_URL, p. cbn in Ha, Hp.
    split_and!; try reflexivity; cbn [f_before_host f_before_port default id]; [by rewrite !str_app_assoc|].
    by rewrite !no_nul_app, Ha, Hp.
  - destruct (nonempty_string _ Eh) as [h ->]. exists EmptyString, h, EmptyString. cbn in Hh.
    split_and!; try reflexivity. cbn [default id]. by rewrite no_nul_app, Hh.
  - destruct (nonempty_string _ Eh) as [h ->]. destruct (nonempty_string _ Ep) as [p ->]. exists EmptyString, h, p. cbn in Hh, Hp.
    split_and!; try reflexivity. cbn [default id]. by rewrite !no_nul_app, Hh, Hp.
Qed.

Lemma snprintf_holds n s :
  no_nul s = true -> (String.length s + 1 <= n)%nat ->
  exists block, snprintf (strlen s + 2) s (replicate n NUL) = Done block /\ holds n s block.
Proof.
  intros Hs Hl. unfold snprintf, strlen. rewrite (proj2 (Z.leb_gt _ _)) by lia. rewrite str_take_all by lia.
  assert (holds n EmptyString (replicate n NUL)) as H0.
  { split_and!; [by rewrite length_replicate|done|]. destruct n as [|n]; [lia|]. by exists (replicate n NUL). }
  destruct (put_holds n EmptyString s (replicate n NUL) H0 Hs) as (b & E & H); [cbn; lia|]. by exists b.
Qed.

Lemma extra_size vars extra :
  match extra with
  | Some e => match vars with [] => strlen e | _ => strlen e + strlen URL_PARAM_DELIM end
  | None => 0
  end <= strlen (extra_text vars extra) + 1 /\
  strlen (extra_text vars extra) <= match extra with
  | Some e => match vars with [] => strlen e | _ => strlen e + strlen URL_PARAM_DELIM end
  | None => 0
  end.
Proof.
  unfold extra_text. destruct extra as [e|]; [|by vm_compute]. destruct (is_string_empty (Some e)) eqn:Ee.
  - apply empty_string in Ee as [?|[= ->]]; [done|]. destruct vars; vm_compute; split; congruence.
  - unfold strlen. rewrite str_length_app. destruct vars; cbn [String.length URL_PARAM_DELIM]; lia.
Qed.

Lemma encode_url_ok protocol account host port url vars extra :
  no_nul protocol = true -> plain account -> plain host -> plain port -> no_nul url = true ->
  Forall plain_var vars -> plain extra -> (is_string_empty host = true -> account <> None) ->
  strlen (url_text protocol account host port url vars extra) + 2 < 2 ^ 64 ->
  exists block, encode_url protocol account host port url vars extra = Done block /\
    c_string block = Some (url_text protocol account host port url vars extra) /\
    strlen (url_text protocol account host port url vars extra) + 1 <= Z.of_nat (length block) <=
      strlen (url_text protocol account host port url vars extra) + 2.
Proof.
  intros Hpr Ha Hh Hp Hu Hv He Hacc Hlen.
  destruct (choose_format_ok account host port Ha Hh Hp Hacc) as (a & h & p & Ea & Eh & Ep & Eauth & Est & Hauth).
  unfold encode_url. rewrite Ea, Eh, Ep. cbn [deref]. rewrite !bind_Done_l. cbn zeta.
  set (f := choose_format account host port) in *. set (T := url_text _ _ _ _ _ _ _) in *.
  set (head := protocol +:+ "://" +:+ authority account host port +:+ url).
  assert (no_nul head = true) as Hhead by (unfold head; by rewrite !no_nul_app, Hpr, Hauth, Hu).
  assert (protocol +:+ "://" +:+ a +:+ f_before_host f +:+ h +:+ f_before_port f +:+ p +:+ url = head) as ->.
  { unfold head. rewrite <- Eauth. by rewrite !str_app_assoc. }
  destruct (format_no_nul request_guid eq_refl) as [Hgk Hgv].
  destruct (format_var request_guid) as [gk gv] eqn:Eg. cbn [fst snd] in Hgk, Hgv.
  pose proof (extra_size vars extra) as [Hx1 Hx2]. set (X := match extra with Some _ => _ | None => _ end) in *.
  assert (strlen T = strlen head + 1 + strlen (vars_text vars) + (strlen gk + strlen gv) + strlen (extra_text vars extra)) as ET.
  { unfold T, url_text. rewrite Eg. fold head. unfold strlen. rewrite !str_length_app. cbn [fst snd String.length]. lia. }
  assert (1 + f_static f + (strlen protocol + strlen a + strlen h + strlen p + strlen url + strlen URL_QUERY_DELIMITER)
    = strlen head + 2) as Ebase.
  { rewrite Est. unfold head. rewrite <- Eauth. unfold strlen. rewrite !str_length_app. cbn [String.length URL_QUERY_DELIMITER]. lia. }
  assert (forall s, 0 <= strlen s) as Hpos by (unfold strlen; lia).
  pose proof (Hpos head). pose proof (Hpos (vars_text vars)). pose proof (Hpos gk). pose proof (Hpos gv). pose proof (Hpos (extra_text vars extra)).
  rewrite Ebase. rewrite (wrapU_small 64 (strlen head + 2)) by lia. rewrite vars_size_ok by lia.
  rewrite (wrapU_small 64 (strlen head + 2 + strlen (vars_text vars) + (strlen gk + strlen gv))) by lia. rewrite wrapU_small by lia.
  set (n := Z.to_nat (_ + X)). assert (Z.of_nat n = strlen head + 2 + strlen (vars_text vars) + (strlen gk + strlen gv) + X) as En by lia.
  clearbody n. unfold strlen in En, Hx2, ET.
  destruct (snprintf_holds n head Hhead) as (b0 & -> & B0); [lia|]. rewrite bind_Done_l.
  destruct (strncat_holds n head URL_QUERY_DELIMITER b0 B0 eq_refl) as (b1 & -> & B1); [cbn; lia|]. rewrite bind_Done_l.
  destruct (append_vars_holds n vars _ b1 B1 Hv) as (b2 & -> & B2); [rewrite str_length_app; cbn; lia|]. rewrite bind_Done_l.
  destruct (strncat_holds n _ gk b2 B2 Hgk) as (b3 & -> & B3); [rewrite !str_length_app; cbn; lia|]. rewrite bind_Done_l.
  destruct (strncat_holds n _ gv b3 B3 Hgv) as (b4 & -> & B4); [rewrite !str_length_app; cbn; lia|]. rewrite bind_Done_l.
  set (S4 := _ +:+ gv) in B4.
  assert (S4 +:+ extra_text vars extra = T) as ES.
  { unfold S4, T, url_text. rewrite Eg. fold head. cbn [fst snd]. unfold URL_QUERY_DELIMITER. by rewrite !str_app_assoc. }
  assert (String.length S4 + String.length (extra_text vars extra) = String.length T)%nat as EL by (by rewrite <- ES, str_length_app).
  assert (String.length T + 1 <= n)%nat as Hfit by lia.
  clearbody S4.
  match goal with |- exists block, ?e = _ /\ _ => assert (exists b, e = Done b /\ holds n T b) as (b & -> & Hb) end.
  { rewrite <- ES. unfold extra_text in *. destruct extra as [e|]; [|exists b4; by rewrite str_app_nil_r].
    destruct (is_string_empty (Some e)); [exists b4; by rewrite str_app_nil_r|]. cbn in He. rewrite str_length_app in EL.
    destruct vars as [|v vars'].
    - rewrite bind_Done_l. apply strncat_holds; [done|done|]. rewrite str_length_app. lia.
    - destruct (strncat_holds n S4 URL_PARAM_DELIM b4 B4 eq_refl) as (b5 & E5 & B5); [cbn in *; lia|].
      change (strlen URL_PARAM_DELIM) with 1 in E5. rewrite E5, bind_Done_l, <- str_app_assoc.
      apply strncat_holds; [done|done|rewrite str_length_app; change (String.length URL_PARAM_DELIM) with 1%nat in *; lia]. }
  exists b. split; [done|]. destruct Hb as (Hbl & Hbn & rest & Erest). split; [rewrite Erest; by apply c_string_app|].
  rewrite Hbl, En. unfold strlen in *. lia.
Qed.

(** C37: for every account, host, port, path, parameters and extra parameters the
    URL is built without an access outside its block, which is allocated with at
    most one byte to spare: the text is the protocol, the host (or the account at
    the default domain), the port if there is one, the path, then each parameter
    escaped, the request GUID and the extra parameters. *)
Theorem encode_url_correct protocol account host port url vars extra :
  no_nul protocol = true -> plain account -> plain host -> plain port -> no_nul url = true ->
  Forall plain_var vars -> plain extra -> (is_string_empty host = true -> account <> None) ->
  strlen (url_text protocol account host port url vars extra) + 2 < 2 ^ 64 ->
  exists block, encode_url protocol account host port url vars extra = Done block /\
    c_string block = Some (url_text protocol account host port url vars extra) /\
    strlen (url_text protocol account host port url vars extra) + 1 <= Z.of_nat (length block) <=
      strlen (url_text protocol account host port url vars extra) + 2.
Proof. apply encode_url_ok. Qed.
End Url.

(** What URLs may hold as it is (RFC 3986, 2.3). *)
Definition unreserved (c : ascii) : bool :=
  is_digit c || ((65 <=? code c) && (code c <=? 90)) || ((97 <=? code c) && (code c <=? 122))
  || (code c =? 45) || (code c =? 46) || (code c =? 95) || (code c =? 126).

(** Escaping that keeps unreserved characters, enough for the examples. *)
Definition keep (s : string) : string := if no_nul s then s else EmptyString.

Lemma keep_c_string s : no_nul (keep s) = true.
Proof. unfold keep. by destruct (no_nul s) eqn:E. Qed.

Lemma encode_url_correct_witness :
  exists block, encode_url keep "https" (Some "acme") None (Some "8080") "/session" [mk_var "request_id=" (Some "7"); mk_var "x=" None] (Some "a=b")
      = Done block /\
    c_string block = Some "https://acme.snowflakecomputing.com:8080/session?request_id=7&&request_guid=00000000-0000-0000-0000-000000000000&a=b".
Proof.
  destruct (encode_url_correct keep keep_c_string "https" (Some "acme") None (Some "8080") "/session"
    [mk_var "request_id=" (Some "7"); mk_var "x=" None] (Some "a=b")) as (b & E & Hc & _);
    try (vm_compute; reflexivity); try (repeat constructor; fail).
  - discriminate.
  - exists b. split; [exact E|]. rewrite Hc. vm_compute. reflexivity.
Defined.

(** Without parameters the extra ones run into the request GUID. *)
Example extra_without_params :
  url_text keep "https" None (Some "h") None "/q" [] (Some "a=b") =
    "https://h/q?request_guid=00000000-0000-0000-0000-000000000000a=b".
Proof. vm_compute. reflexivity. Qed.
