(* ===== verification/Calendar.v ===== *)
(** * <time.h> as the connector uses it: [struct tm], [gmtime_r], [localtime_r],
    [strftime] and the TZ variable, with lib/platform.c's wrappers.

    The calendar is the proleptic Gregorian one, computed on 400-year eras;
    [civil_succ] shows it steps through the days one by one and [civil_roundtrip]
    that it loses none.  A time zone is its offset from UTC at each instant; what
    the zone files say is a parameter ([tz_rules]), the POSIX form of TZ that the
    connector writes itself, ["UTC+hh:mm"], is read here. *)

From S2P Require Import Prelude CLib.

Record tm := mk_tm {
  tm_sec : Z;
  tm_min : Z;
  tm_hour : Z;
  tm_mday : Z;
  tm_mon : Z;
  tm_year : Z;
  tm_wday : Z;
  tm_yday : Z;
  tm_isdst : Z;
  tm_gmtoff : Z
}.
#[export] Instance tm_eq_dec : EqDecision tm.
Proof. solve_decision. Defined.

Definition tm_zero : tm := mk_tm 0 0 0 0 0 0 0 0 0 0.

(** ** Days and dates *)

Definition DAYS_PER_ERA : Z := 146097.
(** 1970-01-01 counted from 0000-03-01. *)
Definition EPOCH_DAY : Z := 719468.

(** Year of the era, month (March is 0) and day (0 is the first) of a day of the era. *)
Definition era_date (doe : Z) : Z * Z * Z :=
  let yoe := (doe - doe / 1460 + doe / 36524 - doe / 146096) / 365 in
  let doy := doe - (365 * yoe + yoe / 4 - yoe / 100) in
  let mp := (5 * doy + 2) / 153 in
  (yoe, mp, doy - (153 * mp + 2) / 5).
Definition era_day (yoe mp d : Z) : Z := 365 * yoe + yoe / 4 - yoe / 100 + (153 * mp + 2) / 5 + d.

(** Year, month (1 to 12), day (1 to 31). *)
Definition civil_of_era (era : Z) (date : Z * Z * Z) : Z * Z * Z :=
  let '(yoe, mp, d) := date in
  let m := if mp <? 10 then mp + 3 else mp - 9 in
  (yoe + 400 * era + (if m <=? 2 then 1 else 0), m, d + 1).
Definition civil_of_days (days : Z) : Z * Z * Z :=
  civil_of_era ((days + EPOCH_DAY) / DAYS_PER_ERA) (era_date ((days + EPOCH_DAY) mod DAYS_PER_ERA)).
Definition days_of_civil (y m d : Z) : Z :=
  let y := if m <=? 2 then y - 1 else y in
  DAYS_PER_ERA * (y / 400) + era_day (y mod 400) ((m + 9) mod 12) (d - 1) - EPOCH_DAY.

Definition is_leap (y : Z) : bool := (y mod 4 =? 0) && (negb (y mod 100 =? 0) || (y mod 400 =? 0)).
Definition days_in_month (y m : Z) : Z :=
  if m =? 2 then (if is_leap y then 29 else 28)
  else if (m =? 4) || (m =? 6) || (m =? 9) || (m =? 11) then 30 else 31.
Definition next_civil (date : Z * Z * Z) : Z * Z * Z :=
  let '(y, m, d) := date in
  if d <? days_in_month y m then (y, m, d + 1)
  else if m <? 12 then (y, m + 1, 1)
  else (y + 1, 1, 1).

(** ** Broken-down time *)

Definition seconds_of_tm (t : tm) : Z :=
  days_of_civil (tm_year t + 1900 + tm_mon t / 12) (tm_mon t mod 12 + 1) 1 * 86400 + (tm_mday t - 1) * 86400
  + tm_hour t * 3600 + tm_min t * 60 + tm_sec t.

(** The calendar time [off] seconds east of UTC; [None] when the year does not fit
    [tm_year]. *)
Definition broken_down (sec off isdst : Z) : option tm :=
  let local := sec + off in
  let days := local / 86400 in
  let rest := local mod 86400 in
  let '(y, m, d) := civil_of_days days in
  let year := y - 1900 in
  if (INT_MIN <=? year) && (year <=? INT_MAX) then
    Some (mk_tm (rest mod 60) (rest / 60 mod 60) (rest / 3600) d (m - 1) year
            ((days + 4) mod 7) (days - days_of_civil y 1 1) isdst off)
  else None.

(** A zone: its offset from UTC and whether DST is in force, by instant. *)
Record zone := mk_zone { z_offset : Z -> Z; z_isdst : Z -> Z }.
Definition fixed_zone (off : Z) : zone := mk_zone (fun _ => off) (fun _ => 0).

Definition sf_gmtime (timep : Z) : option tm := broken_down timep 0 0.
Definition localtime_in (z : zone) (timep : Z) : option tm := broken_down timep (z_offset z timep) (z_isdst z timep).

(** ** The TZ variable *)

(** "UTC+hh:mm" or "UTC-hh:mm": seconds WEST of UTC, as POSIX counts. *)
Definition posix_utc (tz : string) : option Z :=
  if String.prefix "UTC" tz then
    let s := str_drop 3 tz in
    let '(neg, sg) := read_sign s in
    let '(hh, nh) := read_digits (str_drop sg s) 0 0 in
    match str_drop (sg + nh) s with
    | String c s' =>
        let '(mm, nm) := read_digits s' 0 0 in
        if (code c =? 58) && String.eqb (str_drop nm s') EmptyString && (sg =? 1)%nat && (1 <=? nh)%nat && (1 <=? nm)%nat
           && (hh <=? 24) && (mm <=? 59)
        then Some (if neg then - (hh * 3600 + mm * 60) else hh * 3600 + mm * 60)
        else None
    | EmptyString => None
    end
  else None.

Section Zones.
  (* [tz_rules None] is the zone of a process without TZ *)
  Context (tz_rules : option string -> zone).

Definition zone_of (TZ : option string) : zone :=
  match TZ with
  | Some s => match posix_utc s with Some west => fixed_zone (- west) | None => tz_rules (Some s) end
  | None => tz_rules None
  end.
Definition sf_localtime (TZ : option string) (timep : Z) : option tm := localtime_in (zone_of TZ) timep.
End Zones.

(** ** strftime *)

Definition strftime_date (t : tm) : string :=
  fmt_d (tm_year t + 1900) +:+ String "-" (fmt_0d 2 (tm_mon t + 1) +:+ String "-" (fmt_0d 2 (tm_mday t))).
Definition strftime_time (t : tm) : string :=
  fmt_0d 2 (tm_hour t) +:+ String ":" (fmt_0d 2 (tm_min t) +:+ String ":" (fmt_0d 2 (tm_sec t))).

(** ** The calendar is right *)

#[local] Ltac Zify.zify_post_hook ::= Z.div_mod_to_equations.

Definition era_year (doe : Z) : Z := (doe - doe / 1460 + doe / 36524 - doe / 146096) / 365.
Definition year_start (yoe : Z) : Z := 365 * yoe + yoe / 4 - yoe / 100 + yoe / 400.

(** The year of the era is the one that starts at or before the day and ends after
    it. *)
Lemma era_year_bounds doe :
  0 <= doe < DAYS_PER_ERA ->
  0 <= era_year doe < 400 /\ year_start (era_year doe) <= doe < year_start (era_year doe + 1).
Proof. unfold DAYS_PER_ERA, era_year, year_start. intros. lia. Qed.

Definition month_of_doy (doy : Z) : Z * Z := let mp := (5 * doy + 2) / 153 in (mp, doy - (153 * mp + 2) / 5).

Lemma era_date_eq doe :
  0 <= doe < DAYS_PER_ERA ->
  era_date doe = (era_year doe, fst (month_of_doy (doe - year_start (era_year doe))), snd (month_of_doy (doe - year_start (era_year doe)))).
Proof.
  intros H. destruct (era_year_bounds doe H) as [Hy _]. unfold era_date, month_of_doy. cbv zeta. cbn [fst snd].
  fold (era_year doe). replace (doe - (365 * era_year doe + era_year doe / 4 - era_year doe / 100)) with (doe - year_start (era_year doe)); [done|].
  unfold year_start. set (y := era_year doe) in *. clearbody y. lia.
Qed.

Lemma month_of_doy_range doy :
  0 <= doy <= 365 -> 0 <= fst (month_of_doy doy) < 12 /\ 0 <= snd (month_of_doy doy) < 31.
Proof. unfold month_of_doy. cbn [fst snd]. lia. Qed.

Lemma civil_roundtrip n : let '(y, m, d) := civil_of_days n in days_of_civil y m d = n.
Proof.
  unfold civil_of_days. set (doe := (n + EPOCH_DAY) mod DAYS_PER_ERA).
  assert (0 <= doe < DAYS_PER_ERA) as Hd by (apply Z.mod_pos_bound; done).
  rewrite era_date_eq by done. cbn [civil_of_era]. pose proof (era_year_bounds doe Hd) as [Hy Hs].
  set (yoe := era_year doe) in *. clearbody yoe. set (doy := doe - year_start yoe).
  assert (0 <= doy <= 365) as Hdoy by (unfold doy, year_start in *; lia).
  pose proof (month_of_doy_range doy Hdoy) as [Hm Hmd].
  assert (era_day yoe (fst (month_of_doy doy)) (snd (month_of_doy doy)) = doe) as E.
  { unfold era_day, month_of_doy. cbn [fst snd]. unfold doy, year_start. lia. }
  set (mp := fst (month_of_doy doy)) in *. set (d := snd (month_of_doy doy)) in *. clearbody mp d.
  pose proof (Z.div_mod (n + EPOCH_DAY) DAYS_PER_ERA ltac:(done)) as Hn. fold doe in Hn.
  set (q := (n + EPOCH_DAY) / DAYS_PER_ERA) in *. clearbody q. clearbody doy doe.
  unfold days_of_civil.
  set (m := if mp <? 10 then mp + 3 else mp - 9).
  assert ((if m <=? 2 then yoe + 400 * q + (if m <=? 2 then 1 else 0) - 1 else yoe + 400 * q + (if m <=? 2 then 1 else 0)) = yoe + 400 * q) as ->
    by (destruct (m <=? 2); lia).
  replace ((yoe + 400 * q) / 400) with q by lia.
  replace ((yoe + 400 * q) mod 400) with yoe by lia.
  replace ((m + 9) mod 12) with mp by (unfold m; destruct (mp <? 10) eqn:E1; lia).
  replace (d + 1 - 1) with d by lia. rewrite E. lia.
Qed.

(** Months from March on have 31, 30, 31, 30, 31, 31, ... days. *)
Definition month_length (mp : Z) : Z := (153 * mp + 155) / 5 - (153 * mp + 2) / 5.

Lemma month_of_doy_succ doy :
  0 <= doy <= 365 ->
  let mp := fst (month_of_doy doy) in let d := snd (month_of_doy doy) in
  month_of_doy (doy + 1) = (if d + 1 <? month_length mp then (mp, d + 1) else (mp + 1, 0)).
Proof.
  intros H. unfold month_of_doy, month_length. cbn [fst snd].
  destruct (_ <? _) eqn:E1; f_equal; lia.
Qed.

Lemma month_length_days y mp :
  0 <= mp < 11 -> month_length mp = days_in_month y (if mp <? 10 then mp + 3 else mp - 9).
Proof.
  intros H. assert (mp = 0 \/ mp = 1 \/ mp = 2 \/ mp = 3 \/ mp = 4 \/ mp = 5 \/ mp = 6 \/ mp = 7 \/ mp = 8 \/ mp = 9 \/ mp = 10) as Hm by lia.
  repeat destruct Hm as [->|Hm]; try reflexivity. subst. reflexivity.
Qed.

Lemma is_leap_era y q : is_leap (y + 400 * q) = is_leap y.
Proof.
  unfold is_leap. replace ((y + 400 * q) mod 4) with (y mod 4) by lia.
  replace ((y + 400 * q) mod 100) with (y mod 100) by lia. by replace ((y + 400 * q) mod 400) with (y mod 400) by lia.
Qed.

Lemma year_length y : year_start (y + 1) - year_start y = if is_leap (y + 1) then 366 else 365.
Proof. unfold year_start, is_leap. destruct (_ && _) eqn:E; lia. Qed.

(** The days a month has, February last; the step from one date to the next. *)
Definition february (yoe : Z) : Z := if is_leap (yoe + 1) then 29 else 28.
Definition next_era_date (date : Z * Z * Z) : Z * Z * Z :=
  let '(yoe, mp, d) := date in
  if (mp =? 11) && (d + 1 =? february yoe) then (yoe + 1, 0, 0)
  else if d + 1 <? month_length mp then (yoe, mp, d + 1) else (yoe, mp + 1, 0).
Definition valid_era_date (date : Z * Z * Z) : Prop :=
  let '(yoe, mp, d) := date in
  0 <= yoe < 400 /\ 0 <= mp < 12 /\ 0 <= d < (if mp =? 11 then february yoe else month_length mp).

Lemma era_date_valid doe : 0 <= doe < DAYS_PER_ERA -> valid_era_date (era_date doe).
Proof.
  intros H. rewrite era_date_eq by lia. destruct (era_year_bounds doe H) as [Hy Hs].
  pose proof (year_length (era_year doe)) as Hlen. set (y := era_year doe) in *. clearbody y.
  unfold valid_era_date, month_of_doy, month_length, february. cbn [fst snd].
  revert Hs Hlen. generalize (year_start y) (year_start (y + 1)). intros s t Hs Hlen.
  split; [done|]. destruct (is_leap (y + 1)); destruct (_ =? 11) eqn:E; lia.
Qed.

Lemma era_date_succ doe :
  0 <= doe -> doe + 1 < DAYS_PER_ERA -> era_date (doe + 1) = next_era_date (era_date doe).
Proof.
  intros H0 H1. rewrite !era_date_eq by lia.
  destruct (era_year_bounds doe ltac:(lia)) as [Hy Hs].
  destruct (era_year_bounds (doe + 1) ltac:(lia)) as [Hz Ht].
  set (y := era_year doe) in *. set (z := era_year (doe + 1)) in *. clearbody y z.
  assert (0 <= doe - year_start y <= 365) as Hdoy by (unfold year_start in *; lia).
  pose proof (month_of_doy_succ (doe - year_start y) Hdoy) as Hsucc. cbv zeta in Hsucc.
  pose proof (year_length y) as Hlen. unfold next_era_date, february.
  assert (z = y \/ z = y + 1) as [->| ->] by (unfold year_start in *; lia).
  - replace (doe + 1 - year_start y) with (doe - year_start y + 1) by lia. rewrite Hsucc.
    revert Hs Ht Hlen. unfold month_of_doy, month_length. cbn [fst snd]. intros.
    destruct (_ && _) eqn:E; [destruct (is_leap _); lia|]. by destruct (_ <? _).
  - replace (doe + 1 - year_start (y + 1)) with 0 by lia. change (month_of_doy 0) with (0, 0).
    assert (doe - year_start y = if is_leap (y + 1) then 365 else 364) as -> by (destruct (is_leap _); lia).
    by destruct (is_leap _).
Qed.

#[local] Ltac triple := repeat apply (f_equal2 pair); lia.

Lemma civil_of_era_succ q date :
  valid_era_date date -> civil_of_era q (next_era_date date) = next_civil (civil_of_era q date).
Proof.
  destruct date as [[yoe mp] d]. intros (Hy & Hm & Hd). unfold next_era_date. cbn [civil_of_era]. unfold next_civil.
  destruct (mp =? 11) eqn:E11; cbn [andb].
  - apply Z.eqb_eq in E11 as ->. change (11 <? 10) with false. cbv iota. change (11 - 9) with 2.
    change (2 <=? 2) with true. cbv iota. unfold days_in_month. change (2 =? 2) with true. cbv iota.
    replace (yoe + 400 * q + 1) with (yoe + 1 + 400 * q) by lia. rewrite is_leap_era. fold (february yoe).
    change (month_length 11) with 30.
    destruct (d + 1 =? february yoe) eqn:E1; [|assert (february yoe <= 29) by (unfold february; destruct (is_leap _); lia)].
    + destruct (_ <? _) eqn:E2; [lia|]. unfold civil_of_era. change (0 <? 10) with true. cbv iota.
      change (0 + 3 <=? 2) with false. change (2 <? 12) with true. cbv iota. triple.
    + destruct (_ <? 30) eqn:E2; [|lia]. destruct (d + 1 <? february yoe) eqn:E3; [|lia].
      unfold civil_of_era. change (11 <? 10) with false. cbv iota.
      change (11 - 9 <=? 2) with true. cbv iota. triple.
  - rewrite <- month_length_days by lia. set (m := if mp <? 10 then mp + 3 else mp - 9).
    destruct (d + 1 <? month_length mp) eqn:E2; [done|].
    assert (d = month_length mp - 1) by lia. unfold civil_of_era, m.
    destruct (mp <? 10) eqn:E4; destruct (mp + 1 <? 10) eqn:E5; try lia.
    + destruct (mp + 3 <=? 2) eqn:E6; [lia|]. destruct (mp + 1 + 3 <=? 2) eqn:E7; [lia|].
      destruct (mp + 3 <? 12) eqn:E8; [|lia]. triple.
    + assert (mp = 9) as -> by lia. change (month_length 9) with 31 in *.
      change (9 + 1 - 9 <=? 2) with true. change (9 + 3 <=? 2) with false. change (9 + 3 <? 12) with false. cbv iota. triple.
    + assert (mp = 10) as -> by lia.
      change (10 + 1 - 9 <=? 2) with true. change (10 - 9 <=? 2) with true. change (10 - 9 <? 12) with true. cbv iota. triple.
Qed.

(** The calendar steps through the days of the months, leap years included. *)
Lemma civil_succ n : civil_of_days (n + 1) = next_civil (civil_of_days n).
Proof.
  unfold civil_of_days. set (a := n + EPOCH_DAY). replace (n + 1 + EPOCH_DAY) with (a + 1) by (unfold a; lia). clearbody a.
  assert (0 <= a mod DAYS_PER_ERA < DAYS_PER_ERA) as Hd by (apply Z.mod_pos_bound; done).
  rewrite <- civil_of_era_succ by (by apply era_date_valid).
  destruct (decide (a mod DAYS_PER_ERA = DAYS_PER_ERA - 1)) as [E|E].
  - replace ((a + 1) mod DAYS_PER_ERA) with 0 by (unfold DAYS_PER_ERA in *; lia).
    replace ((a + 1) / DAYS_PER_ERA) with (a / DAYS_PER_ERA + 1) by (unfold DAYS_PER_ERA in *; lia).
    rewrite E. change (next_era_date (era_date (DAYS_PER_ERA - 1))) with (400, 0, 0). change (era_date 0) with (0, 0, 0).
    unfold civil_of_era. triple.
  - replace ((a + 1) mod DAYS_PER_ERA) with (a mod DAYS_PER_ERA + 1) by (unfold DAYS_PER_ERA in *; lia).
    replace ((a + 1) / DAYS_PER_ERA) with (a / DAYS_PER_ERA) by (unfold DAYS_PER_ERA in *; lia).
    by rewrite era_date_succ by lia.
Qed.

Example civil_epoch : civil_of_days 0 = (1970, 1, 1). Proof. reflexivity. Qed.
Example civil_leap : civil_of_days 11016 = (2000, 2, 29). Proof. reflexivity. Qed.
Example civil_before : civil_of_days (-1) = (1969, 12, 31). Proof. reflexivity. Qed.

Lemma civil_range n :
  let '(y, m, d) := civil_of_days n in 1 <= m <= 12 /\ 1 <= d <= 31 /\ Z.abs (y - (n + EPOCH_DAY) / DAYS_PER_ERA * 400) <= 400.
Proof.
  unfold civil_of_days. pose proof (era_date_valid ((n + EPOCH_DAY) mod DAYS_PER_ERA) ltac:(by apply Z.mod_pos_bound)) as H.
  destruct (era_date _) as [[yoe mp] d]. destruct H as (Hy & Hm & Hd). cbn [civil_of_era].
  generalize ((n + EPOCH_DAY) / DAYS_PER_ERA). intros q.
  set (m := if mp <? 10 then mp + 3 else mp - 9). assert (1 <= m <= 12) by (unfold m; destruct (mp <? 10) eqn:?; lia).
  assert (d < 31) by (unfold february, month_length in Hd; destruct (_ =? _); [destruct (is_leap _)|]; lia).
  destruct (m <=? 2) eqn:E; lia.
Qed.

(** The broken-down time counts the seconds it was made from, its fields in range. *)
Record canonical_tm (t : tm) : Prop := {
  cn_sec : 0 <= tm_sec t < 60;
  cn_min : 0 <= tm_min t < 60;
  cn_hour : 0 <= tm_hour t < 24;
  cn_mday : 1 <= tm_mday t <= 31;
  cn_mon : 0 <= tm_mon t < 12
}.

Lemma broken_down_seconds sec off dst t :
  broken_down sec off dst = Some t -> seconds_of_tm t = sec + off /\ canonical_tm t /\ tm_gmtoff t = off.
Proof.
  unfold broken_down. pose proof (civil_roundtrip ((sec + off) / 86400)) as Hr.
  pose proof (civil_range ((sec + off) / 86400)) as Hrange.
  destruct (civil_of_days _) as [[y m] d]. destruct Hrange as (Hm & Hd & _).
  destruct (_ && _) eqn:E; [|done]. intros [= <-]. unfold seconds_of_tm. cbn [tm_year tm_mon tm_mday tm_hour tm_min tm_sec tm_gmtoff].
  assert (days_of_civil y m 1 + (d - 1) = (sec + off) / 86400) as Hs.
  { rewrite <- Hr. unfold days_of_civil, era_day. lia. }
  replace (y - 1900 + 1900 + (m - 1) / 12) with y by lia. replace ((m - 1) mod 12 + 1) with m by lia.
  revert Hs. generalize (days_of_civil y m 1). intros. split_and!; [lia| |done].
  constructor; cbn [tm_year tm_mon tm_mday tm_hour tm_min tm_sec]; lia.
Qed.

(** Two hundred million years around the epoch fit an int. *)
Lemma broken_down_exists sec off dst :
  Z.abs (sec + off) <= 6 * 10 ^ 15 -> is_Some (broken_down sec off dst).
Proof.
  intros H. unfold broken_down. pose proof (civil_range ((sec + off) / 86400)) as Hrange.
  destruct (civil_of_days _) as [[y m] d]. destruct Hrange as (_ & _ & Hy).
  destruct (_ && _) eqn:E; [eauto|].
  unfold EPOCH_DAY, DAYS_PER_ERA, INT_MIN, INT_MAX in *. lia.
Qed.

(** ** The zone the connector names *)

Lemma fmt_0d_2 n : 0 <= n < 100 -> fmt_0d 2 n = String (digit_char (n / 10)) (String (digit_char (n mod 10)) EmptyString).
Proof.
  intros H. unfold fmt_0d. destruct (n <? 0) eqn:E; [lia|]. unfold dec_of_nonneg.
  destruct (decide (n < 10)).
  - cbn [dec_digits]. destruct (n <? 10) eqn:E1; [|lia]. by replace (n / 10) with 0 by lia.
  - assert (1 <= Z.log2 n) as Hl by (apply (Z.log2_le_mono 2); lia).
    destruct (Z.to_nat (Z.log2 n)) as [|k] eqn:Ek; [lia|]. cbn [dec_digits]. destruct (n <? 10) eqn:E1; [lia|].
    destruct (n / 10 <? 10) eqn:E2; [|lia]. by replace (n / 10 mod 10) with (n / 10) by lia.
Qed.

(** sprintf of "UTC%c%02ld:%02ld". *)
Definition utc_name (sign : ascii) (hh mm : Z) : string :=
  "UTC" +:+ String sign (fmt_0d 2 hh +:+ String ":" (fmt_0d 2 mm)).

(** Two digits, then anything that is not one. *)
Lemma read_two_digits n t :
  0 <= n < 100 -> match t with String c _ => is_digit c = false | EmptyString => True end ->
  read_digits (fmt_0d 2 n +:+ t) 0 0 = (n, 2%nat).
Proof.
  intros Hn Ht. rewrite fmt_0d_2 by done. cbn [String.append read_digits].
  rewrite !digit_char_is_digit, !digit_char_val by lia.
  destruct t as [|c t]; cbn [read_digits]; [|rewrite Ht]; f_equal; lia.
Qed.

Lemma str_drop_two n t : 0 <= n < 100 -> str_drop 2 (fmt_0d 2 n +:+ t) = t.
Proof. intros Hn. by rewrite fmt_0d_2. Qed.

Lemma posix_utc_name sign hh mm :
  sign = "+"%char \/ sign = "-"%char -> 0 <= hh <= 24 -> 0 <= mm < 60 ->
  posix_utc (utc_name sign hh mm) = Some ((if Ascii.eqb sign "-" then -1 else 1) * (hh * 3600 + mm * 60)).
Proof.
  intros Hsign Hh Hm. unfold utc_name, posix_utc.
  set (rest := fmt_0d 2 hh +:+ String ":" (fmt_0d 2 mm)).
  change (String.prefix "UTC" ("UTC" +:+ String sign rest)) with true. cbv iota.
  change (str_drop 3 ("UTC" +:+ String sign rest)) with (String sign rest).
  assert (read_sign (String sign rest) = (Ascii.eqb sign "-", 1%nat)) as -> by (by destruct Hsign as [->| ->]).
  change (str_drop 1 (String sign rest)) with rest. unfold rest at 1.
  rewrite read_two_digits by (done || lia).
  change (str_drop (1 + 2) (String sign rest)) with (str_drop 2 rest).
  unfold rest at 1. rewrite str_drop_two by lia.
  pose proof (read_two_digits mm EmptyString ltac:(lia) I) as Hr. rewrite str_app_nil_r in Hr. rewrite Hr.
  pose proof (str_drop_two mm EmptyString ltac:(lia)) as Hd. rewrite str_app_nil_r in Hd. rewrite Hd.
  change (code ":" =? 58) with true. cbn [String.eqb Nat.eqb Nat.leb andb].
  destruct (hh <=? 24) eqn:E1; [|lia]. destruct (mm <=? 59) eqn:E2; [|lia]. cbn [andb].
  f_equal. destruct (Ascii.eqb sign "-"); lia.
Qed.
