(* ===== verification/Timestamp.v ===== *)
(** * lib/client.c, lines 2667-2997: timestamps.

    A timestamp is built from its parts or from the server's text, printed, and read
    field by field.  [env] is the process's TZ variable and the value tzset last saw;
    the lock around the switch of zones makes it one step.  [mktime] and the zone
    files are parameters.  [stale] is what uninitialised memory holds, and
    [allocate] tells whether the user's allocator serves a request. *)

From S2P Require Import Prelude CLib CFloat Status CJson JsonHelpers Results Calendar.

Record SF_TIMESTAMP := mk_ts {
  tm_obj : tm;
  nsec : Z;
  tzoffset : Z;
  ts_scale : Z;
  ts_type : SF_DB_TYPE
}.

Definition SECONDS_IN_AN_HOUR : Z := 86400.
Definition TIMEZONE_OFFSET_RANGE : Z := 24 * 60.

Definition pow10_int64 (i : Z) : outcome Z :=
  if (0 <=? i) && (i <=? 9) then Done (10 ^ i) else Undef.

(** Signed 64-bit arithmetic: overflow is undefined. *)
Definition long (z : Z) : outcome Z := if (LLONG_MIN <=? z) && (z <=? LLONG_MAX) then Done z else Undef.

Definition zero_ts : SF_TIMESTAMP := mk_ts tm_zero 0 0 0 SF_DB_TYPE_FIXED.
Definition set_tm_obj (t : tm) (ts : SF_TIMESTAMP) : SF_TIMESTAMP := mk_ts t (nsec ts) (tzoffset ts) (ts_scale ts) (ts_type ts).
Definition set_nsec (n : Z) (ts : SF_TIMESTAMP) : SF_TIMESTAMP := mk_ts (tm_obj ts) n (tzoffset ts) (ts_scale ts) (ts_type ts).
Definition set_tzoffset (n : Z) (ts : SF_TIMESTAMP) : SF_TIMESTAMP := mk_ts (tm_obj ts) (nsec ts) n (ts_scale ts) (ts_type ts).
Definition set_sec (n : Z) (t : tm) : tm :=
  mk_tm n (tm_min t) (tm_hour t) (tm_mday t) (tm_mon t) (tm_year t) (tm_wday t) (tm_yday t) (tm_isdst t) (tm_gmtoff t).
Definition set_isdst (n : Z) (t : tm) : tm :=
  mk_tm (tm_sec t) (tm_min t) (tm_hour t) (tm_mday t) (tm_mon t) (tm_year t) (tm_wday t) (tm_yday t) n (tm_gmtoff t).

Definition is_date_or_time (t : SF_DB_TYPE) : bool :=
  match t with
  | SF_DB_TYPE_DATE | SF_DB_TYPE_TIME | SF_DB_TYPE_TIMESTAMP_LTZ | SF_DB_TYPE_TIMESTAMP_NTZ | SF_DB_TYPE_TIMESTAMP_TZ => true
  | _ => false
  end.

(** ** The environment *)

Record env := mk_env { TZ : option string; tzset_to : option string }.
Definition sf_setenv (value : string) (e : env) : env := mk_env (Some value) (tzset_to e).
Definition sf_unsetenv (e : env) : env := mk_env None (tzset_to e).
Definition sf_tzset (e : env) : env := mk_env (TZ e) (TZ e).

(** ** Memory blocks *)

Abbreviation block := (list ascii).

(** [text] and its NUL at [off]. *)
Definition write_str (b : block) (off : nat) (text : string) : outcome block :=
  let n := String.length text in
  if (off + n + 1 <=? length b)%nat
  then Done (take off b ++ String.list_ascii_of_string text ++ NUL :: drop (off + n + 1) b)
  else Undef.

Section Timestamps.
  Context (tz_rules : option string -> zone) (mktime : tm -> Z * tm) (stale : nat -> ascii) (allocate : Z -> bool).

Definition garbage (n : nat) : block := map stale (seq 0 n).

(** [realloc]: what fits is kept; NULL when it is refused. *)
Definition realloc_block (b : option block) (n : Z) : option block :=
  if allocate n then
    let old := default [] b in
    let n := Z.to_nat n in
    Some (take n old ++ garbage (n - length old))
  else None.

(** [strftime(buffer, size, ...)]: 0 and unspecified contents when the text and its
    NUL do not fit. *)
Definition strftime (b : block) (size : Z) (text : string) : outcome (Z * block) :=
  if strlen text + 1 <=? size then b ← write_str b 0 text; Done (strlen text, b)
  else if size <=? Z.of_nat (length b) then Done (0, garbage (length b))
  else Undef.

(** [snprintf(&buffer[len], size, ...)]: the length it would have written. *)
Definition snprintf_at (b : block) (len size : Z) (text : string) : outcome (Z * block) :=
  b ← (if size =? 0 then Done b else write_str b (Z.to_nat len) (str_take (Z.to_nat (size - 1)) text));
  Done (strlen text, b).

(** ** Operations *)

Definition snowflake_timestamp_from_parts (ts : option SF_TIMESTAMP)
    (nanoseconds seconds minutes hours mday months year tz scale : Z) (type : SF_DB_TYPE) : Z * option SF_TIMESTAMP :=
  match ts with
  | None => (SF_STATUS_ERROR_NULL_POINTER, None)
  | Some _ =>
      let out ts := (SF_STATUS_ERROR_OUT_OF_RANGE, Some ts) in
      let t := tm_zero in
      if (nanoseconds <? 0) || (nanoseconds >? 999999999) then out zero_ts
      else if (seconds <? 0) || (seconds >? 59) then out (set_nsec nanoseconds zero_ts)
      else
        let t := set_sec seconds t in
        if (minutes <? 0) || (minutes >? 59) then out (set_tm_obj t (set_nsec nanoseconds zero_ts))
        else
          let t := mk_tm seconds minutes 0 0 0 0 0 0 0 0 in
          if (hours <? 0) || (hours >? 23) then out (set_tm_obj t (set_nsec nanoseconds zero_ts))
          else
            let t := mk_tm seconds minutes hours 0 0 0 0 0 0 0 in
            if (mday <? 1) || (mday >? 31) then out (set_tm_obj t (set_nsec nanoseconds zero_ts))
            else
              let t := mk_tm seconds minutes hours mday 0 0 0 0 0 0 in
              if (months <? 1) || (months >? 12) then out (set_tm_obj t (set_nsec nanoseconds zero_ts))
              else
                let t := mk_tm seconds minutes hours mday (months - 1) 0 0 0 0 0 in
                if (year <? -99999) || (year >? 99999) then out (set_tm_obj t (set_nsec nanoseconds zero_ts))
                else
                  let t := mk_tm seconds minutes hours mday (months - 1) (year - 1900) 0 0 0 0 in
                  if (tz <? 0) || (tz >? 1439) then out (set_tm_obj t (set_nsec nanoseconds zero_ts))
                  else if (scale <? 0) || (scale >? 9) then out (mk_ts t nanoseconds tz 0 SF_DB_TYPE_FIXED)
                  else if negb (is_date_or_time type) then out (mk_ts t nanoseconds tz scale SF_DB_TYPE_FIXED)
                  else (SF_STATUS_SUCCESS, Some (mk_ts (snd (mktime t)) nanoseconds tz scale type))
  end.

(** Seconds, fraction and zone offset as the text gives them; [None] when the point
    is missing. *)
Definition read_epoch (str : string) (type : SF_DB_TYPE) : outcome (option (Z * Z * Z)) :=
  match strchr str "." with
  | None =>
      if bool_decide (type = SF_DB_TYPE_DATE) then
        sec ← long (st_val (strtoll str) * SECONDS_IN_AN_HOUR); Done (Some (sec, 0, 0))
      else Done None
  | Some ptr =>
      let sec := st_val (strtoll str) in
      if bool_decide (type = SF_DB_TYPE_DATE) then
        sec ← long (sec * SECONDS_IN_AN_HOUR); Done (Some (sec, 0, 0))
      else
        let frac := str_drop (S ptr) str in
        let nsec := st_val (strtoll frac) in
        match strchr frac " " with
        | Some sptr =>
            off ← long (st_val (strtoll (str_drop (S sptr) frac)) - TIMEZONE_OFFSET_RANGE);
            Done (Some (sec, nsec, off))
        | None => Done (Some (sec, nsec, 0))
        end
  end.

Definition tz_sign (quot : Z) : ascii := if quot >? 0 then "+"%char else "-"%char.
(** "UTC%c%02ld:%02ld": at most 26 characters, for [char tzname[64]]. *)
Definition tzname_of (off : Z) : string := utc_name (tz_sign (Z.quot off 60)) (Z.abs (Z.quot off 60)) (Z.abs (Z.rem off 60)).

(** The switch to zone [tzptr] and back around localtime. *)
Definition local_tm (tzptr : option string) (sec : Z) (e : env) : outcome (option tm * env) :=
  let prev_tz_ptr := TZ e in
  tz ← deref tzptr;
  let e := sf_tzset (sf_setenv tz e) in
  let r := sf_localtime tz_rules (tzset_to e) sec in
  let e := match prev_tz_ptr with Some prev => sf_setenv prev e | None => sf_unsetenv e end in
  Done (r, sf_tzset e).

Definition snowflake_timestamp_from_epoch_seconds (ts : option SF_TIMESTAMP) (str : string) (timezone : option string)
    (scale : Z) (type : SF_DB_TYPE) (e : env) : outcome (Z * option SF_TIMESTAMP * env) :=
  match ts with
  | None => Done (SF_STATUS_ERROR_NULL_POINTER, None, e)
  | Some _ =>
      let ts := mk_ts tm_zero 0 0 scale type in
      r ← read_epoch str type;
      match r with
      | None => Done (SF_STATUS_ERROR_GENERAL, Some ts, e)
      | Some (sec, ns, off) =>
          '(sec, ns) ← (if (sec <? 0) && (ns >? 0) then
                          p ← pow10_int64 scale; ns ← long (p - ns); sec ← long (sec - 1); Done (sec, ns)
                        else Done (sec, ns));
          p ← pow10_int64 (9 - scale);
          n ← long (ns * p);
          let ts := set_nsec (i32 n) ts in
          let '(tzptr, ts) :=
            if bool_decide (type = SF_DB_TYPE_TIMESTAMP_TZ) then (Some (tzname_of off), set_tzoffset (i32 off) ts)
            else (timezone, ts) in
          '(tm_ptr, e) ←
            match type with
            | SF_DB_TYPE_TIMESTAMP_NTZ | SF_DB_TYPE_TIME | SF_DB_TYPE_DATE => Done (sf_gmtime sec, e)
            | SF_DB_TYPE_TIMESTAMP_LTZ | SF_DB_TYPE_TIMESTAMP_TZ =>
                off' ← long (off * 60 * 2); sec ← long (sec + off'); local_tm tzptr sec e
            | _ => Done (None, e)
            end;
          match tm_ptr with
          | None => Done (SF_STATUS_ERROR_GENERAL, Some ts, e)
          | Some t => Done (SF_STATUS_SUCCESS, Some (set_tm_obj t ts), e)
          end
      end
  end.

(** The room the fixed format may need, NUL included. *)
Definition max_len (ts : SF_TIMESTAMP) : Z :=
  1 + (if bool_decide (ts_type ts = SF_DB_TYPE_TIME) then 8 else 21)
  + (if ts_scale ts >? 0 then 1 + ts_scale ts else 0)
  + (if bool_decide (ts_type ts = SF_DB_TYPE_TIMESTAMP_TZ) then 7 else 0).

Definition tz_text (off : Z) : string :=
  String " " (String (tz_sign (Z.quot off 60)) (fmt_0d 2 (Z.abs (Z.quot off 60)) +:+ String ":" (fmt_0d 2 (Z.abs (Z.rem off 60))))).

(** The text is written into a buffer of [buf_size] bytes. *)
Definition print_timestamp (ts : SF_TIMESTAMP) (buffer : option block) (buf_size : Z) : outcome (Z * option block * Z) :=
  let ml := max_len ts in
  b ← deref buffer;
  '(len, b) ← strftime b buf_size
    (if bool_decide (ts_type ts = SF_DB_TYPE_TIME) then strftime_time (tm_obj ts)
     else strftime_date (tm_obj ts) +:+ String " " (strftime_time (tm_obj ts)));
  '(len, b) ← (if ts_scale ts >? 0 then
                 p ← pow10_int64 (9 - ts_scale ts);
                 '(n, b) ← snprintf_at b len (u64 (ml - len)) (String "." (fmt_0d (Z.to_nat (ts_scale ts)) (Z.quot (nsec ts) p)));
                 Done (u64 (len + n), b)
               else Done (len, b));
  '(len, b) ← (if bool_decide (ts_type ts = SF_DB_TYPE_TIMESTAMP_TZ) then
                 '(n, b) ← snprintf_at b len (u64 (ml - len)) (tz_text (tzoffset ts));
                 Done (u64 (len + n), b)
               else Done (len, b));
  Done (SF_STATUS_SUCCESS, Some b, len).

Definition snowflake_timestamp_to_string (ts : option SF_TIMESTAMP) (buffer_ptr : option (option block)) (buf_size : Z)
    (reallocate : bool) : outcome (Z * option block * Z) :=
  match ts, buffer_ptr with
  | Some ts, Some buffer =>
      let ml := max_len ts in
      if (ml >? buf_size) || bool_decide (buffer = None) then
        if reallocate || bool_decide (buffer = None) then print_timestamp ts (realloc_block buffer ml) ml
        else Done (SF_STATUS_ERROR_BUFFER_TOO_SMALL, buffer, 0)
      else print_timestamp ts buffer buf_size
  | _, _ => Done (SF_STATUS_ERROR_NULL_POINTER, default None buffer_ptr, 0)
  end.

(** The seconds; the timestamp as mktime normalises it. *)
Definition snowflake_timestamp_get_epoch_seconds (ts : option SF_TIMESTAMP) : outcome (Z * option Z * option SF_TIMESTAMP) :=
  match ts with
  | None => Done (SF_STATUS_ERROR_NULL_POINTER, None, None)
  | Some ts =>
      let '(t, m) := mktime (set_isdst (-1) (tm_obj ts)) in
      let local := i32 (i32 t + tm_gmtoff m) in
      let r := local - tzoffset ts in
      if (INT_MIN <=? r) && (r <=? INT_MAX) then Done (SF_STATUS_SUCCESS, Some r, Some (set_tm_obj m ts)) else Undef
  end.

Definition get_field (null : Z) (f : SF_TIMESTAMP -> Z) (ts : option SF_TIMESTAMP) : Z :=
  match ts with None => null | Some ts => f ts end.
Definition snowflake_timestamp_get_nanoseconds := get_field (-1) nsec.
Definition snowflake_timestamp_get_seconds := get_field (-1) (fun ts => tm_sec (tm_obj ts)).
Definition snowflake_timestamp_get_minutes := get_field (-1) (fun ts => tm_min (tm_obj ts)).
Definition snowflake_timestamp_get_hours := get_field (-1) (fun ts => tm_hour (tm_obj ts)).
Definition snowflake_timestamp_get_wday := get_field (-1) (fun ts => tm_wday (tm_obj ts)).
Definition snowflake_timestamp_get_mday := get_field (-1) (fun ts => tm_mday (tm_obj ts)).
Definition snowflake_timestamp_get_yday := get_field (-1) (fun ts => tm_yday (tm_obj ts)).
Definition snowflake_timestamp_get_month := get_field (-1) (fun ts => tm_mon (tm_obj ts) + 1).
Definition snowflake_timestamp_get_year := get_field (-100000) (fun ts => tm_year (tm_obj ts) + 1900).
Definition snowflake_timestamp_get_tzoffset := get_field (-1) tzoffset.
Definition snowflake_timestamp_get_scale := get_field (-1) ts_scale.
End Timestamps.

(** ** Reading the server's text *)

(** [-]seconds.fraction, and the zone's offset in minutes, shifted by a day. *)
Definition server_text (neg : bool) (w f scale : Z) (off : option Z) : string :=
  with_sign neg (dec_of_nonneg w) +:+ String "." (fmt_0d (Z.to_nat scale) f +:+
    match off with Some o => String " " (dec_of_nonneg (o + 1440)) | None => EmptyString end).

(** The instant the text names, in units of 10^-scale seconds. *)
Definition server_units (neg : bool) (w f scale : Z) : Z := (if neg then -1 else 1) * (w * 10 ^ scale + f).

Lemma read_server_text neg w f scale off type :
  0 <= w <= LLONG_MAX -> 0 <= f <= LLONG_MAX -> (forall o, off = Some o -> -1440 <= o <= 1440) -> type <> SF_DB_TYPE_DATE ->
  read_epoch (server_text neg w f scale off) type = Done (Some (if neg then - w else w, f, default 0 off)).
Proof.
  intros Hw Hf Ho Ht. unfold server_text. set (tail := match off with Some _ => _ | None => _ end).
  set (fd := fmt_0d (Z.to_nat scale) f). destruct (fmt_0d_digits (Z.to_nat scale) f ltac:(lia)) as (F1 & F2 & F3). fold fd in F1, F2, F3.
  pose proof (dec_digits_all w) as W1. pose proof (dec_digits_value w ltac:(lia)) as W2. pose proof (dec_nonempty w ltac:(lia)) as W3.
  set (wd := dec_of_nonneg w) in *. clearbody fd wd. unfold read_epoch.
  assert (str_all (fun d => negb (Ascii.eqb d ".")) (with_sign neg wd) = true) as Hdot.
  { pose proof (digits_avoid "." wd eq_refl W1) as H. destruct neg; cbn [with_sign str_all]; [|done]. by rewrite H. }
  rewrite strchr_app by done.
  destruct (strtoll_digits neg wd (String "." (fd +:+ tail)) W1 W3 eq_refl ltac:(lia)) as [-> _]. rewrite W2.
  rewrite bool_decide_eq_false_2 by done.
  change (str_drop (S ?n) ?s) with (str_drop (S n) s).
  replace (str_drop (S (String.length (with_sign neg wd))) (with_sign neg wd +:+ String "." (fd +:+ tail))) with (fd +:+ tail); cycle 1.
  { clear. generalize (with_sign neg wd) as s. by induction s. }
  assert (stops_digits tail) as Hst by (unfold tail; destruct off; done).
  destruct (strtoll_digits false fd tail F1 F3 Hst ltac:(lia)) as [E _]. cbn [with_sign] in E. rewrite E, F2. clear E.
  pose proof (digits_avoid " " fd eq_refl F1) as Hsp. unfold tail. destruct off as [o|].
  - rewrite strchr_app by done. specialize (Ho o eq_refl).
    replace (str_drop (S (String.length fd)) (fd +:+ String " " (dec_of_nonneg (o + 1440)))) with (dec_of_nonneg (o + 1440)); cycle 1.
    { clear. induction fd; [done|]. exact IHfd. }
    rewrite strtoll_dec by (unfold LLONG_MAX; lia).
    unfold long, TIMEZONE_OFFSET_RANGE, LLONG_MAX, LLONG_MIN. destruct (_ && _) eqn:E1; [|lia].
    rewrite bind_Done_l. cbn [default]. by replace (o + 1440 - 24 * 60) with o by lia.
  - rewrite str_app_nil_r, strchr_none by done. done.
Qed.

#[local] Ltac Zify.zify_post_hook ::= Z.to_euclidean_division_equations.

(** The connector's own zones: minutes east of UTC, but for less than an hour east,
    whose sign it gets wrong. *)
Lemma zone_of_tzname rules off :
  -1440 <= off <= 1440 ->
  zone_of rules (Some (tzname_of off)) = fixed_zone (if (0 <? off) && (off <? 60) then off * 60 else - (off * 60)).
Proof.
  intros Ho. unfold zone_of, tzname_of, tz_sign.
  rewrite posix_utc_name; [|by destruct (_ >? 0); [left|right]|lia|lia]. f_equal.
  destruct (Z.quot off 60 >? 0) eqn:E; [change (Ascii.eqb "+" "-") with false|change (Ascii.eqb "-" "-") with true]; cbv iota;
    destruct (_ && _) eqn:E2; lia.
Qed.

Lemma local_tm_eq rules tz sec e :
  local_tm rules (Some tz) sec e = Done (sf_localtime rules (Some tz) sec, mk_env (TZ e) (TZ e)).
Proof. unfold local_tm. cbn [deref]. rewrite bind_Done_l. by destruct e as [[]]. Qed.

(** Seconds east of UTC in force at [sec] for a text of type [type] that gives the
    offset [off]. *)
Definition offset_in_force (rules : option string -> zone) (type : SF_DB_TYPE) (timezone : option string) (off sec : Z) : Z :=
  match type with
  | SF_DB_TYPE_TIMESTAMP_TZ => off * 60
  | SF_DB_TYPE_TIMESTAMP_LTZ => z_offset (zone_of rules timezone) sec
  | _ => 0
  end.

(** What the fields of a timestamp say, in nanoseconds of local time. *)
Definition local_ns (ts : SF_TIMESTAMP) : Z := seconds_of_tm (tm_obj ts) * 10 ^ 9 + nsec ts.

Lemma long_small z : Z.abs z <= 10 ^ 18 -> long z = Done z.
Proof. intros H. unfold long, LLONG_MAX, LLONG_MIN. destruct (_ && _) eqn:E; [done|lia]. Qed.

(** The adjustment before the epoch is floor division, but for "-0.f". *)
Lemma before_epoch neg w f scale :
  0 <= scale <= 9 -> 0 <= w <= 10 ^ 15 -> 0 <= f < 10 ^ scale -> ~ (neg = true /\ w = 0 /\ 0 < f) ->
  let u := server_units neg w f scale in
  (if ((if neg then - w else w) <? 0) && (f >? 0) then
     p ← pow10_int64 scale; ns ← long (p - f); sec ← long ((if neg then - w else w) - 1); Done (sec, ns)
   else Done (if neg then - w else w, f)) = Done (u / 10 ^ scale, u mod 10 ^ scale).
Proof.
  intros Hs Hw Hf Hz. cbv zeta. unfold server_units. assert (0 < 10 ^ scale <= 10 ^ 9) as Hp.
  { split; [apply Z.pow_pos_nonneg; lia|apply Z.pow_le_mono_r; lia]. }
  unfold pow10_int64. destruct (_ && (_ <=? 9)) eqn:E0; [|lia]. clear E0.
  set (P := 10 ^ scale) in *. clearbody P. rewrite bind_Done_l; cbv beta.
  destruct (_ && (f >? 0)) eqn:E.
  - destruct neg; [|lia].
    rewrite !long_small by lia. rewrite !bind_Done_l; cbv beta.
    rewrite (Z.div_unique (-1 * (w * P + f)) P (- w - 1) (P - f)) by lia.
    by rewrite (Z.mod_unique (-1 * (w * P + f)) P (- w - 1) (P - f)) by lia.
  - assert (neg = true -> w = 0 /\ f = 0 \/ f = 0) as Hn by (intros ->; lia).
    destruct neg.
    + assert (f = 0) as -> by (destruct (Hn eq_refl); lia).
      replace (-1 * (w * P + 0)) with (- w * P) by lia. by rewrite Z.div_mul, Z.mod_mul by lia.
    + replace (1 * (w * P + f)) with (f + w * P) by lia.
      by rewrite Z.div_add, Z.mod_add, Z.div_small, Z.mod_small by lia.
Qed.

(** The broken-down time of a text's instant. *)
Definition shown_tm (rules : option string -> zone) (type : SF_DB_TYPE) (timezone : option string) (off sec : Z) : option tm :=
  match type with
  | SF_DB_TYPE_TIMESTAMP_TZ => localtime_in (zone_of rules (Some (tzname_of off))) (sec + off * 60 * 2)
  | SF_DB_TYPE_TIMESTAMP_LTZ => localtime_in (zone_of rules timezone) sec
  | _ => sf_gmtime sec
  end.

Lemma server_seconds neg w f scale :
  0 <= w <= 10 ^ 15 -> 0 <= f < 10 ^ scale -> Z.abs (server_units neg w f scale / 10 ^ scale) <= 2 * 10 ^ 15.
Proof.
  unfold server_units. generalize (10 ^ scale). intros P Hw Hf.
  destruct neg; [replace (-1 * (w * P + f)) with (- f + - w * P) by lia|replace (1 * (w * P + f)) with (f + w * P) by lia];
    rewrite Z.div_add by lia; [|rewrite Z.div_small by lia; lia].
  pose proof (Z.div_le_lower_bound (- f) P (-1) ltac:(lia) ltac:(lia)).
  pose proof (Z.div_le_upper_bound (- f) P 0 ltac:(lia) ltac:(lia)). lia.
Qed.

(** Reading a server's text, whatever its zone. *)
Lemma from_epoch_server_text rules ts neg w f scale off type timezone e :
  0 <= scale <= 9 -> 0 <= w <= 10 ^ 15 -> 0 <= f < 10 ^ scale -> ~ (neg = true /\ w = 0 /\ 0 < f) ->
  (if bool_decide (type = SF_DB_TYPE_TIMESTAMP_TZ) then -1440 <= off <= 1440 else off = 0) ->
  is_date_or_time type = true -> type <> SF_DB_TYPE_DATE -> (type = SF_DB_TYPE_TIMESTAMP_LTZ -> is_Some timezone) ->
  let u := server_units neg w f scale in
  let ts' := mk_ts tm_zero (u mod 10 ^ scale * 10 ^ (9 - scale)) off scale type in
  exists e', TZ e' = TZ e /\
    snowflake_timestamp_from_epoch_seconds rules (Some ts)
      (server_text neg w f scale (if bool_decide (type = SF_DB_TYPE_TIMESTAMP_TZ) then Some off else None)) timezone scale type e
    = Done (match shown_tm rules type timezone off (u / 10 ^ scale) with
            | Some t => (SF_STATUS_SUCCESS, Some (set_tm_obj t ts'), e')
            | None => (SF_STATUS_ERROR_GENERAL, Some ts', e')
            end).
Proof.
  intros Hs Hw Hf Hz Hoff Hty Hnd Htz. cbv zeta. assert (0 < 10 ^ scale <= 10 ^ 9) as Hp.
  { split; [apply Z.pow_pos_nonneg; lia|apply Z.pow_le_mono_r; lia]. }
  assert (10 ^ scale * 10 ^ (9 - scale) = 10 ^ 9) as Hprod by (rewrite <- Z.pow_add_r by lia; f_equal; lia).
  assert (0 < 10 ^ (9 - scale)) as Hp' by (apply Z.pow_pos_nonneg; lia).
  unfold snowflake_timestamp_from_epoch_seconds.
  rewrite read_server_text; [|unfold LLONG_MAX; lia|unfold LLONG_MAX; lia|intros o; case_bool_decide; [intros [= <-]; lia|done]|done].
  rewrite bind_Done_l. cbv beta iota.
  replace (default 0 (if bool_decide (type = SF_DB_TYPE_TIMESTAMP_TZ) then Some off else None)) with off
    by (case_bool_decide; done || by subst).
  rewrite before_epoch by done. set (u := server_units neg w f scale).
  assert (Z.abs (u / 10 ^ scale) <= 2 * 10 ^ 15) as Hsec by (by apply server_seconds).
  pose proof (Z.mod_pos_bound u (10 ^ scale) ltac:(lia)) as Hmod.
  set (sec := u / 10 ^ scale) in *. set (ns := u mod 10 ^ scale) in *. clearbody sec ns.
  rewrite bind_Done_l. cbv beta iota. unfold pow10_int64. destruct ((0 <=? 9 - scale) && _) eqn:E; [clear E|lia].
  rewrite bind_Done_l; cbv beta.
  assert (0 <= ns * 10 ^ (9 - scale) < 10 ^ 9) as Hns.
  { split; [apply Z.mul_nonneg_nonneg; lia|]. rewrite <- Hprod. apply Z.mul_lt_mono_pos_r; lia. }
  rewrite (long_small (ns * 10 ^ (9 - scale))) by lia. rewrite bind_Done_l; cbv beta.
  assert (i32 (ns * 10 ^ (9 - scale)) = ns * 10 ^ (9 - scale)) as -> by (apply wrapS_small; lia).
  set (nn := ns * 10 ^ (9 - scale)). clearbody nn.
  destruct type; try done; cbn [shown_tm].
  - rewrite bool_decide_eq_false_2 in Hoff |- * by done. subst off. destruct (Htz eq_refl) as [tz ->].
    exists (mk_env (TZ e) (TZ e)). split; [done|]. rewrite (long_small (0 * 60 * 2)) by lia. rewrite bind_Done_l; cbv beta.
    rewrite long_small by lia. rewrite bind_Done_l; cbv beta. rewrite local_tm_eq, bind_Done_l. cbv beta iota.
    unfold sf_localtime. replace (sec + 0 * 60 * 2) with sec by lia. by destruct (localtime_in _ _).
  - rewrite bool_decide_eq_false_2 in Hoff |- * by done. subst off. exists e. split; [done|]. rewrite bind_Done_l. cbv beta iota.
    by destruct (sf_gmtime _).
  - rewrite bool_decide_eq_true_2 in Hoff |- * by done.
    exists (mk_env (TZ e) (TZ e)). split; [done|]. rewrite (long_small (off * 60 * 2)) by lia. rewrite bind_Done_l; cbv beta.
    rewrite long_small by lia. rewrite bind_Done_l; cbv beta. rewrite local_tm_eq, bind_Done_l. cbv beta iota.
    assert (i32 off = off) as -> by (apply wrapS_small; lia).
    unfold sf_localtime. by destruct (localtime_in _ _).
  - rewrite bool_decide_eq_false_2 in Hoff |- * by done. subst off. exists e. split; [done|]. rewrite bind_Done_l. cbv beta iota.
    by destruct (sf_gmtime _).
Qed.

Lemma shown_tm_local rules type timezone off sec :
  Z.abs sec <= 2 * 10 ^ 15 -> -1440 <= off <= 1440 -> ~ (0 < off < 60) ->
  (forall t, type = SF_DB_TYPE_TIMESTAMP_LTZ -> Z.abs (z_offset (zone_of rules timezone) t) <= 10 ^ 6) ->
  exists t, shown_tm rules type timezone off sec = Some t /\ canonical_tm t /\
    seconds_of_tm t = sec + offset_in_force rules type timezone off sec.
Proof.
  intros Hs Ho Hsmall Hz. set (p := match type with
    | SF_DB_TYPE_TIMESTAMP_TZ => (sec + off * 60 * 2, - (off * 60), 0)
    | SF_DB_TYPE_TIMESTAMP_LTZ => (sec, z_offset (zone_of rules timezone) sec, z_isdst (zone_of rules timezone) sec)
    | _ => (sec, 0, 0) end).
  assert (shown_tm rules type timezone off sec = broken_down p.1.1 p.1.2 p.2 /\
          p.1.1 + p.1.2 = sec + offset_in_force rules type timezone off sec /\ Z.abs (p.1.1 + p.1.2) <= 6 * 10 ^ 15) as (-> & Hsum & Hb).
  { unfold p. destruct type; cbn [fst snd shown_tm offset_in_force]; unfold sf_gmtime; try (split_and!; [done|lia|lia]).
    - specialize (Hz sec eq_refl). split_and!; [done|lia|lia].
    - rewrite zone_of_tzname by lia. destruct (_ && _) eqn:E; [lia|]. split_and!; [done|lia|lia]. }
  destruct (broken_down_exists p.1.1 p.1.2 p.2 Hb) as [t Ht]. exists t. split; [done|].
  destruct (broken_down_seconds _ _ _ _ Ht) as (Ht1 & Ht2 & _). by rewrite Ht1.
Qed.

(** C34: Reading the server's text of a time or timestamp gives the instant it names, to
    the nanosecond, in the zone of the column: for every scale and every second within
    thirty million years, before the epoch too, but for texts "-0.f" and for zones less
    than an hour east; and the TZ variable is what it was. *)
Theorem timestamp_instant rules ts neg w f scale off type timezone e :
  0 <= scale <= 9 -> 0 <= w <= 10 ^ 15 -> 0 <= f < 10 ^ scale -> ~ (neg = true /\ w = 0 /\ 0 < f) ->
  (if bool_decide (type = SF_DB_TYPE_TIMESTAMP_TZ) then -1440 <= off <= 1440 /\ ~ (0 < off < 60) else off = 0) ->
  is_date_or_time type = true -> type <> SF_DB_TYPE_DATE ->
  (type = SF_DB_TYPE_TIMESTAMP_LTZ -> is_Some timezone /\ forall t, Z.abs (z_offset (zone_of rules timezone) t) <= 10 ^ 6) ->
  exists ts' e',
    snowflake_timestamp_from_epoch_seconds rules (Some ts)
      (server_text neg w f scale (if bool_decide (type = SF_DB_TYPE_TIMESTAMP_TZ) then Some off else None)) timezone scale type e
    = Done (SF_STATUS_SUCCESS, Some ts', e') /\
    local_ns ts' = server_units neg w f scale * 10 ^ (9 - scale)
      + 10 ^ 9 * offset_in_force rules type timezone off (server_units neg w f scale / 10 ^ scale) /\
    0 <= nsec ts' < 10 ^ 9 /\ canonical_tm (tm_obj ts') /\
    tzoffset ts' = off /\ ts_scale ts' = scale /\ ts_type ts' = type /\ TZ e' = TZ e.
Proof.
  intros Hs Hw Hf Hz Hoff Hty Hnd Htz.
  assert (-1440 <= off <= 1440 /\ ~ (0 < off < 60)) as [Ho1 Ho2] by (case_bool_decide; [done|lia]).
  destruct (from_epoch_server_text rules ts neg w f scale off type timezone e) as (e' & He & ->); try done.
  { case_bool_decide; [lia|done]. }
  { intros E. apply (Htz E). }
  destruct (shown_tm_local rules type timezone off (server_units neg w f scale / 10 ^ scale)) as (t & -> & Hc & Ht); try done.
  { by apply server_seconds. }
  { intros t E. by apply Htz. }
  eexists _, e'. split; [done|]. unfold local_ns. cbn [set_tm_obj tm_obj nsec tzoffset ts_scale ts_type]. rewrite Ht.
  assert (10 ^ scale * 10 ^ (9 - scale) = 10 ^ 9) as Hprod by (rewrite <- Z.pow_add_r by lia; f_equal; lia).
  assert (0 < 10 ^ scale) as Hp by (apply Z.pow_pos_nonneg; lia). assert (0 < 10 ^ (9 - scale)) as Hp' by (apply Z.pow_pos_nonneg; lia).
  pose proof (Z.mod_pos_bound (server_units neg w f scale) (10 ^ scale) Hp) as Hm.
  split_and!; try done.
  - pose proof (Z.div_mod (server_units neg w f scale) (10 ^ scale) ltac:(lia)) as E. clear -E Hprod. rewrite <- Hprod.
    set (U := server_units neg w f scale) in *. set (q := U / 10 ^ scale) in *. set (m := U mod 10 ^ scale) in *.
    clearbody q m. rewrite E. ring.
  - apply Z.mul_nonneg_nonneg; lia.
  - rewrite <- Hprod. apply Z.mul_lt_mono_pos_r; lia.
Qed.

(** Two days after the epoch minus a quarter of a second, eight hours west. *)
Lemma timestamp_instant_witness :
  exists ts' e',
    snowflake_timestamp_from_epoch_seconds (fun _ => fixed_zone 0) (Some zero_ts) (server_text true 172799 75 2 (Some (-480))) None 2
      SF_DB_TYPE_TIMESTAMP_TZ (mk_env (Some "PST8PDT") None)
    = Done (SF_STATUS_SUCCESS, Some ts', e') /\ local_ns ts' = -172799750000000 - 480 * 60 * 10 ^ 9.
Proof.
  destruct (timestamp_instant (fun _ => fixed_zone 0) zero_ts true 172799 75 2 (-480) SF_DB_TYPE_TIMESTAMP_TZ None
              (mk_env (Some "PST8PDT") None)) as (ts' & e' & H1 & H2 & _).
  - lia.
  - lia.
  - vm_compute. split; [discriminate|reflexivity].
  - intros (_ & H & _). discriminate H.
  - rewrite bool_decide_eq_true_2 by reflexivity. lia.
  - reflexivity.
  - discriminate.
  - discriminate.
  - exists ts', e'. split; [exact H1|]. rewrite H2. reflexivity.
Defined.

(** "-0.5" is read as half a second AFTER the epoch. *)
Example minus_zero_wrong :
  exists ts' e', snowflake_timestamp_from_epoch_seconds (fun _ => fixed_zone 0) (Some zero_ts) "-0.5" None 1 SF_DB_TYPE_TIMESTAMP_NTZ
    (mk_env None None) = Done (SF_STATUS_SUCCESS, Some ts', e') /\ local_ns ts' = 500000000.
Proof. eexists _, _. split; [vm_compute; reflexivity|reflexivity]. Qed.

(** Thirty minutes east: shown ninety minutes ahead of UTC, under the sign '-'. *)
Example short_east_wrong :
  exists ts' e', snowflake_timestamp_from_epoch_seconds (fun _ => fixed_zone 0) (Some zero_ts) (server_text false 0 0 1 (Some 30)) None 1
    SF_DB_TYPE_TIMESTAMP_TZ (mk_env None None) = Done (SF_STATUS_SUCCESS, Some ts', e') /\
  local_ns ts' = 90 * 60 * 10 ^ 9 /\ tz_text (tzoffset ts') = " -00:30".
Proof. eexists _, _. split; [vm_compute; reflexivity|]. split; reflexivity. Qed.

(** ** Printing *)

(** The block starts with [s] and its NUL. *)
Definition holds (b : block) (s : string) : Prop :=
  exists rest, b = String.list_ascii_of_string s ++ NUL :: rest /\ no_nul s = true.

Lemma holds_c_string b s : holds b s -> c_string b = Some s.
Proof. intros (rest & -> & H). by apply c_string_app. Qed.

Lemma no_nul_cons c s : no_nul (String c s) = negb (code c =? 0) && no_nul s.
Proof. done. Qed.
Ltac no_nul_tac := rewrite ?no_nul_app, ?no_nul_cons, ?fmt_0d_no_nul, ?no_nul_app, ?no_nul_cons, ?fmt_0d_no_nul.

(** Writing at the end of the text that is there appends. *)
Lemma write_str_appends b s t :
  holds b s -> no_nul t = true -> (String.length s + String.length t + 1 <= length b)%nat ->
  exists b', write_str b (String.length s) t = Done b' /\ holds b' (s +:+ t) /\ length b' = length b.
Proof.
  intros (rest & -> & Hs) Ht Hl. unfold write_str. cbv zeta. rewrite (proj2 (Nat.leb_le _ _)) by lia.
  eexists. split; [done|]. rewrite take_app_length' by (by rewrite list_ascii_length). split.
  - eexists. rewrite list_ascii_app, <- app_assoc. split; [done|]. by rewrite no_nul_app, Hs.
  - repeat (rewrite length_app in * || rewrite length_drop || cbn [length] in * || rewrite list_ascii_length in *). lia.
Qed.

Lemma write_str_fresh b t :
  no_nul t = true -> (String.length t + 1 <= length b)%nat ->
  exists b', write_str b 0 t = Done b' /\ holds b' t /\ length b' = length b.
Proof.
  intros Ht Hl. unfold write_str. cbv zeta. rewrite (proj2 (Nat.leb_le _ _)) by lia.
  eexists. split; [done|]. split; [by eexists|].
  rewrite !length_app, length_take, list_ascii_length. cbn [length]. rewrite length_drop. lia.
Qed.

Lemma snprintf_appends b s t size :
  holds b s -> no_nul t = true -> strlen t < size -> (String.length s + String.length t + 1 <= length b)%nat ->
  exists b', snprintf_at b (strlen s) size t = Done (strlen t, b') /\ holds b' (s +:+ t) /\ length b' = length b.
Proof.
  intros Hb Ht Hsz Hl. unfold snprintf_at. unfold strlen in *. destruct (size =? 0) eqn:E; [lia|].
  rewrite str_take_all by lia. rewrite Nat2Z.id.
  destruct (write_str_appends b s t Hb Ht Hl) as (b' & -> & Hb' & Hl'). exists b'. by rewrite bind_Done_l.
Qed.

(** What a timestamp prints as: the fixed format of its type. *)
Definition date_part (ts : SF_TIMESTAMP) : string :=
  if bool_decide (ts_type ts = SF_DB_TYPE_TIME) then strftime_time (tm_obj ts)
  else strftime_date (tm_obj ts) +:+ String " " (strftime_time (tm_obj ts)).
Definition fraction_part (ts : SF_TIMESTAMP) : string :=
  if ts_scale ts >? 0 then String "." (fmt_0d (Z.to_nat (ts_scale ts)) (Z.quot (nsec ts) (10 ^ (9 - ts_scale ts)))) else EmptyString.
Definition zone_part (ts : SF_TIMESTAMP) : string :=
  if bool_decide (ts_type ts = SF_DB_TYPE_TIMESTAMP_TZ) then tz_text (tzoffset ts) else EmptyString.
Definition timestamp_text (ts : SF_TIMESTAMP) : string := date_part ts +:+ fraction_part ts +:+ zone_part ts.

(** Years of at most six characters, an offset of less than a hundred hours. *)
Record printable (ts : SF_TIMESTAMP) : Prop := {
  pr_tm : canonical_tm (tm_obj ts);
  pr_year : -99999 <= tm_year (tm_obj ts) + 1900 <= 999999;
  pr_scale : 0 <= ts_scale ts <= 9;
  pr_nsec : 0 <= nsec ts < 10 ^ 9;
  pr_off : -5999 <= tzoffset ts <= 5999
}.

Lemma fmt_d_length n : -99999 <= n <= 999999 -> (String.length (fmt_d n) <= 6)%nat.
Proof.
  intros H. unfold fmt_d. destruct (n <? 0) eqn:E.
  - pose proof (dec_length (- n) 4 ltac:(cbn; lia)). cbn [String.length]. lia.
  - apply (dec_length n 5). cbn. lia.
Qed.


Lemma strftime_time_ok t : canonical_tm t -> String.length (strftime_time t) = 8%nat /\ no_nul (strftime_time t) = true.
Proof.
  intros [H1 H2 H3 _ _]. split.
  - unfold strftime_time. repeat (rewrite str_length_app || cbn [String.length]). rewrite !fmt_0d_length by (cbn; lia). done.
  - unfold strftime_time. by no_nul_tac.
Qed.

Lemma strftime_date_ok t :
  canonical_tm t -> -99999 <= tm_year t + 1900 <= 999999 ->
  (String.length (strftime_date t) <= 12)%nat /\ no_nul (strftime_date t) = true.
Proof.
  intros [_ _ _ H1 H2] Hy. pose proof (fmt_d_length _ Hy). split.
  - unfold strftime_date. repeat (rewrite str_length_app || cbn [String.length]). rewrite !fmt_0d_length by (cbn; lia). lia.
  - unfold strftime_date. no_nul_tac. by rewrite fmt_d_no_nul.
Qed.

Lemma tz_text_ok off : -5999 <= off <= 5999 -> String.length (tz_text off) = 7%nat /\ no_nul (tz_text off) = true.
Proof.
  intros H. split.
  - unfold tz_text. repeat (rewrite str_length_app || cbn [String.length]). rewrite !fmt_0d_length by (cbn; lia). done.
  - unfold tz_text. no_nul_tac. unfold tz_sign. by destruct (_ >? 0).
Qed.

Lemma fraction_ok scale n :
  0 < scale <= 9 -> 0 <= n < 10 ^ 9 ->
  let t := String "." (fmt_0d (Z.to_nat scale) (Z.quot n (10 ^ (9 - scale)))) in
  strlen t = 1 + scale /\ no_nul t = true.
Proof.
  intros Hs Hn. cbv zeta. split; [|by no_nul_tac]. unfold strlen. cbn [String.length]. rewrite fmt_0d_length; [lia| |lia].
  assert (0 < 10 ^ (9 - scale)) as Hp by (apply Z.pow_pos_nonneg; lia).
  rewrite Z.quot_div_nonneg by lia. rewrite Z2Nat.id by lia.
  split; [apply Z.div_pos; lia|]. apply Z.div_lt_upper_bound; [lia|]. rewrite <- Z.pow_add_r by lia.
  replace (9 - scale + scale) with 9 by lia. lia.
Qed.

(** One more piece of the text, in place. *)
Lemma append_piece b s t ml :
  holds b s -> no_nul t = true -> strlen s + strlen t < ml -> ml < 2 ^ 32 -> ml <= Z.of_nat (length b) ->
  exists b', ('(n, b) ← snprintf_at b (strlen s) (u64 (ml - strlen s)) t; Done (u64 (strlen s + n), b))
      = Done (strlen (s +:+ t), b') /\ holds b' (s +:+ t) /\ length b' = length b.
Proof.
  intros Hb Ht Hfit Hml Hlen. unfold strlen in *.
  destruct (snprintf_appends b s t (u64 (ml - Z.of_nat (String.length s))) Hb Ht) as (b' & E & Hb' & Hl).
  { rewrite wrapU_small by lia. unfold strlen. lia. }
  { lia. }
  unfold strlen in E. rewrite E, bind_Done_l. cbv beta iota. exists b'. split; [|done].
  rewrite wrapU_small by lia. rewrite str_length_app. do 2 f_equal. lia.
Qed.

Lemma pow10_ok i : 0 <= i <= 9 -> pow10_int64 i = Done (10 ^ i).
Proof. intros H. unfold pow10_int64. by destruct (_ && _) eqn:E; [|lia]. Qed.

(** Date and time, fraction, zone: together they fit the room [max_len] counts. *)
Lemma parts_fit ts :
  printable ts ->
  no_nul (date_part ts) = true /\ no_nul (fraction_part ts) = true /\ no_nul (zone_part ts) = true /\
  strlen (date_part ts) + strlen (fraction_part ts) + strlen (zone_part ts) < max_len ts /\ max_len ts < 2 ^ 32.
Proof.
  intros [Ht Hy Hs Hn Ho].
  destruct (strftime_time_ok _ Ht) as [T1 T2]. destruct (strftime_date_ok _ Ht Hy) as [D1 D2].
  destruct (tz_text_ok _ Ho) as [Z1 Z2].
  assert (no_nul (date_part ts) = true /\ strlen (date_part ts) < 1 + (if bool_decide (ts_type ts = SF_DB_TYPE_TIME) then 8 else 21)) as [-> L].
  { unfold date_part, strlen. case_bool_decide; [split; [done|lia]|].
    rewrite str_length_app, no_nul_app, no_nul_cons, D2, T2. cbn [String.length]. split; [done|lia]. }
  assert (no_nul (fraction_part ts) = true /\ strlen (fraction_part ts) = (if ts_scale ts >? 0 then 1 + ts_scale ts else 0)) as [-> F].
  { unfold fraction_part. destruct (_ >? 0) eqn:E; [|done].
    destruct (fraction_ok (ts_scale ts) (nsec ts) ltac:(lia) Hn) as [-> ->]. done. }
  assert (no_nul (zone_part ts) = true /\ strlen (zone_part ts) = (if bool_decide (ts_type ts = SF_DB_TYPE_TIMESTAMP_TZ) then 7 else 0)) as [-> K].
  { unfold zone_part. destruct (bool_decide (ts_type ts = SF_DB_TYPE_TIMESTAMP_TZ)); [|done]. unfold strlen. by rewrite Z1, Z2. }
  rewrite F, K. unfold max_len. revert L. generalize (strlen (date_part ts)). intros z L.
  split_and!; [done|done|done| |]; destruct (_ >? 0) eqn:?;
    destruct (bool_decide (ts_type ts = SF_DB_TYPE_TIME)), (bool_decide (ts_type ts = SF_DB_TYPE_TIMESTAMP_TZ)); lia.
Qed.

Lemma print_fraction ts b s :
  printable ts -> holds b s -> strlen s + strlen (fraction_part ts) < max_len ts -> max_len ts <= Z.of_nat (length b) ->
  exists b', (if ts_scale ts >? 0 then
      p ← pow10_int64 (9 - ts_scale ts);
      '(n, b) ← snprintf_at b (strlen s) (u64 (max_len ts - strlen s)) (String "." (fmt_0d (Z.to_nat (ts_scale ts)) (Z.quot (nsec ts) p)));
      Done (u64 (strlen s + n), b) else Done (strlen s, b)) = Done (strlen (s +:+ fraction_part ts), b') /\
    holds b' (s +:+ fraction_part ts) /\ length b' = length b.
Proof.
  intros Hp Hb Hfit Hl. destruct (parts_fit ts Hp) as (_ & Hn & _ & _ & Hbig). destruct Hp as [_ _ Hs _ _].
  unfold fraction_part in *. destruct (_ >? 0) eqn:E; [|exists b; by rewrite str_app_nil_r].
  rewrite pow10_ok, bind_Done_l by lia. by apply append_piece.
Qed.

Lemma print_zone ts b s :
  printable ts -> holds b s -> strlen s + strlen (zone_part ts) < max_len ts -> max_len ts <= Z.of_nat (length b) ->
  exists b', (if bool_decide (ts_type ts = SF_DB_TYPE_TIMESTAMP_TZ) then
      '(n, b) ← snprintf_at b (strlen s) (u64 (max_len ts - strlen s)) (tz_text (tzoffset ts));
      Done (u64 (strlen s + n), b) else Done (strlen s, b)) = Done (strlen (s +:+ zone_part ts), b') /\
    holds b' (s +:+ zone_part ts) /\ length b' = length b.
Proof.
  intros Hp Hb Hfit Hl. destruct (parts_fit ts Hp) as (_ & _ & Hn & _ & Hbig).
  unfold zone_part in *. case_bool_decide; [|exists b; by rewrite str_app_nil_r]. by apply append_piece.
Qed.

Lemma print_fits stale ts b size :
  printable ts -> max_len ts <= size <= Z.of_nat (length b) ->
  exists b', print_timestamp stale ts (Some b) size = Done (SF_STATUS_SUCCESS, Some b', strlen (timestamp_text ts)) /\
    holds b' (timestamp_text ts) /\ length b' = length b.
Proof.
  intros Hp Hsize. destruct (parts_fit ts Hp) as (Hn & _ & _ & Hfit & _).
  unfold print_timestamp. cbn [deref]. rewrite bind_Done_l; cbv beta. fold (date_part ts). unfold strftime.
  assert (0 <= strlen (fraction_part ts) /\ 0 <= strlen (zone_part ts)) as [? ?] by (unfold strlen; lia).
  destruct (strlen (date_part ts) + 1 <=? size) eqn:E; [clear E|lia].
  destruct (write_str_fresh b (date_part ts) Hn) as (b1 & -> & H1 & Hl1); [unfold strlen in *; lia|]. rewrite !bind_Done_l. cbv beta iota.
  destruct (print_fraction ts b1 (date_part ts) Hp H1) as (b2 & -> & H2 & Hl2); [lia|lia|]. rewrite bind_Done_l. cbv beta iota.
  destruct (print_zone ts b2 _ Hp H2) as (b3 & -> & H3 & Hl3); [rewrite strlen_app; lia|lia|]. rewrite bind_Done_l. cbv beta iota.
  rewrite str_app_assoc in *. exists b3. split_and!; [done|done|congruence].
Qed.

(** Printing a timestamp of a year of up to six characters: the buffer the call ends
    with is large enough whatever the caller passed, it holds the date, the time, the
    fraction at the scale and the offset, and the length reported is that of the text;
    a caller's buffer that is too small is refused unless it may be reallocated. *)
Theorem timestamp_to_string_fits stale allocate ts buffer size reallocate :
  printable ts -> (forall n, allocate n = true) -> (forall b, buffer = Some b -> size <= Z.of_nat (length b)) ->
  (exists b', snowflake_timestamp_to_string stale allocate (Some ts) (Some buffer) size reallocate
       = Done (SF_STATUS_SUCCESS, Some b', strlen (timestamp_text ts)) /\
     c_string b' = Some (timestamp_text ts) /\ strlen (timestamp_text ts) < Z.of_nat (length b') /\
     (forall b, buffer = Some b -> max_len ts <= size -> length b' = length b)) \/
  (is_Some buffer /\ size < max_len ts /\ reallocate = false /\
   snowflake_timestamp_to_string stale allocate (Some ts) (Some buffer) size reallocate = Done (SF_STATUS_ERROR_BUFFER_TOO_SMALL, buffer, 0)).
Proof.
  intros Hp Ha Hsize. destruct (parts_fit ts Hp) as (_ & _ & _ & Hfit & _).
  assert (strlen (timestamp_text ts) < max_len ts) as Hlen by (unfold timestamp_text; rewrite !strlen_app; lia).
  assert (forall b sz, max_len ts <= sz <= Z.of_nat (length b) ->
    exists b', print_timestamp stale ts (Some b) sz = Done (SF_STATUS_SUCCESS, Some b', strlen (timestamp_text ts)) /\
      c_string b' = Some (timestamp_text ts) /\ strlen (timestamp_text ts) < Z.of_nat (length b') /\ length b' = length b) as Hprint.
  { intros b sz Hb. destruct (print_fits stale ts b sz Hp Hb) as (b' & E & H & Hl). exists b'.
    split_and!; [done|by apply holds_c_string|lia|done]. }
  unfold snowflake_timestamp_to_string. destruct (_ || bool_decide (buffer = None)) eqn:E.
  - destruct (reallocate || _) eqn:E1.
    + left. unfold realloc_block. rewrite Ha.
      destruct (Hprint (take (Z.to_nat (max_len ts)) (default [] buffer) ++ garbage stale (Z.to_nat (max_len ts) - length (default [] buffer))) (max_len ts))
        as (b' & Hb' & H1 & H2 & Hl).
      { split; [lia|]. rewrite length_app, length_take. unfold garbage. rewrite length_map, length_seq. lia. }
      exists b'. split_and!; try done. intros b -> Hm. rewrite bool_decide_eq_false_2 in E by done. lia.
    + right. apply orb_false_iff in E1 as [-> E1]. apply bool_decide_eq_false in E1. split_and!; try done.
      * by destruct buffer; [eexists|].
      * destruct buffer; [|done]. rewrite orb_comm in E. cbn in E. lia.
  - left. apply orb_false_iff in E as [E E1]. apply bool_decide_eq_false in E1. destruct buffer as [b|]; [|done].
    destruct (Hprint b size) as (b' & Hb' & H1 & H2 & Hl); [specialize (Hsize b eq_refl); lia|].
    exists b'. split_and!; try done. by intros ? [= <-] _.
Qed.

Lemma timestamp_to_string_fits_witness :
  exists b', snowflake_timestamp_to_string (fun _ => "?"%char) (fun _ => true)
      (Some (mk_ts (mk_tm 5 4 3 2 0 (-1901) 0 0 0 0) 120000000 (-90) 2 SF_DB_TYPE_TIMESTAMP_TZ)) (Some None) 0 false
    = Done (SF_STATUS_SUCCESS, Some b', 27) /\ c_string b' = Some "-1-01-02 03:04:05.12 -01:30".
Proof.
  destruct (timestamp_to_string_fits (fun _ => "?"%char) (fun _ => true)
      (mk_ts (mk_tm 5 4 3 2 0 (-1901) 0 0 0 0) 120000000 (-90) 2 SF_DB_TYPE_TIMESTAMP_TZ) None 0 false) as [(b' & H1 & H2 & _)|(H & _)].
  - split; [constructor|..]; cbn; lia.
  - reflexivity.
  - discriminate.
  - exists b'. split; [rewrite H1; reflexivity|rewrite H2; reflexivity].
  - destruct H; discriminate.
Defined.

(** ** Back to seconds *)

(** With a mktime that normalises a time to one that names its instant, the result is
    the local seconds minus the offset, which is in MINUTES. *)
Lemma get_epoch_seconds_spec mktime ts t m :
  mktime (set_isdst (-1) (tm_obj ts)) = (t, m) -> t + tm_gmtoff m = seconds_of_tm m ->
  INT_MIN <= t <= INT_MAX -> INT_MIN <= seconds_of_tm m <= INT_MAX -> INT_MIN <= seconds_of_tm m - tzoffset ts <= INT_MAX ->
  snowflake_timestamp_get_epoch_seconds mktime (Some ts)
    = Done (SF_STATUS_SUCCESS, Some (seconds_of_tm m - tzoffset ts), Some (set_tm_obj m ts)).
Proof.
  unfold INT_MIN, INT_MAX. intros Hm Hg Ht Hs Hr. unfold snowflake_timestamp_get_epoch_seconds. rewrite Hm.
  assert (i32 t = t) as -> by (apply wrapS_small; lia). rewrite Hg.
  assert (i32 (seconds_of_tm m) = seconds_of_tm m) as -> by (apply wrapS_small; lia).
  unfold INT_MIN, INT_MAX. by destruct (_ && _) eqn:E; [|lia].
Qed.

(** One hour east of UTC, one hour after the epoch: 3540 instead of 0. *)
Example get_epoch_wrong_unit :
  snowflake_timestamp_get_epoch_seconds (fun t => (seconds_of_tm t, t))
    (Some (mk_ts (mk_tm 0 0 1 1 0 70 4 0 0 0) 0 60 9 SF_DB_TYPE_TIMESTAMP_TZ))
  = Done (SF_STATUS_SUCCESS, Some 3540, Some (mk_ts (mk_tm 0 0 1 1 0 70 4 0 (-1) 0) 0 60 9 SF_DB_TYPE_TIMESTAMP_TZ)).
Proof. reflexivity. Qed.
