(* ===== verification/Platform.v ===== *)
(** * lib/platform.c: comparisons, paths, the clock of the log, directories.

    Texts in blocks are the caller's arrays.  What the system answers (uname, stat,
    mkdir, getenv, system, the clock) is an argument.  The builds are Linux's, except for
    [windows_is_put_get_command]. *)

From S2P Require Import Prelude CLib CFloat Status JsonHelpers Calendar Timestamp Url.

(** ** Comparing without case *)

(** The character a pointer to [s] points at. *)
Definition head_char (s : string) : ascii := match s with String c _ => c | EmptyString => chr 0 end.
Definition tail (s : string) : string := match s with String _ s => s | EmptyString => EmptyString end.
Definition case_diff (s1 s2 : string) : Z := code (tolower (head_char s1)) - code (tolower (head_char s2)).

(** The loop with [n] characters left. *)
Fixpoint strncasecmp_loop (n : nat) (s1 s2 : string) : Z :=
  match n with
  | O => case_diff s1 s2
  | S n =>
      if Ascii.eqb (tolower (head_char s1)) (tolower (head_char s2)) then
        if (n =? 0)%nat || (code (head_char s1) =? 0) || (code (head_char s2) =? 0) then case_diff s1 s2
        else strncasecmp_loop n (tail s1) (tail s2)
      else case_diff s1 s2
  end.
Definition sf_strncasecmp (s1 s2 : string) (n : nat) : Z := if (n =? 0)%nat then 0 else strncasecmp_loop n s1 s2.

(** ** Paths *)

(** [strrchr]: the position of the last [c]. *)
Fixpoint strrchr (s : string) (c : ascii) : option nat :=
  match s with
  | EmptyString => None
  | String d s =>
      match strrchr s c with
      | Some k => Some (S k)
      | None => if Ascii.eqb d c then Some O else None
      end
  end.
Definition sf_filename_from_path (path : string) : string :=
  match strrchr path "/" with Some k => str_drop (S k) path | None => path end.

(** The directory for temporary files.  With TMP or TEMP set, [strncpy] writes no NUL:
    where the text ends is left to what the array held. *)
Definition copy_bytes (s : string) (block : list ascii) : outcome (list ascii) :=
  if (String.length s <=? length block)%nat then Done (String.list_ascii_of_string s ++ drop (String.length s) block) else Undef.
Definition sf_get_tmp_dir (getenv : string -> option string) (tmpDir : list ascii) : outcome (list ascii) :=
  match (match getenv "TMP" with Some t => Some t | None => getenv "TEMP" end) with
  | None => put 0 "/tmp/" tmpDir
  | Some tmpEnv =>
      tmpDir ← copy_bytes tmpEnv tmpDir;
      oldLen ← deref (terminator tmpDir);
      if (S oldLen <? length tmpDir)%nat then Done (<[S oldLen := chr 0]> (<[oldLen := "/"%char]> tmpDir)) else Undef
  end.

(** The command given to the shell, in an array of 500 bytes. *)
Definition sf_delete_directory_if_exists (stale : list ascii) (directoryName : string) : outcome string :=
  rmCmd ← put 0 "rm -rf " stale;
  at_ ← deref (terminator rmCmd);
  rmCmd ← put at_ directoryName rmCmd;
  deref (c_string rmCmd).

(** The code; [mkdir] is asked when there is nothing of that name. *)
Definition sf_create_directory_if_not_exists (exists_ : bool) (mkdir : Z) : Z := if exists_ then 0 else mkdir.

(** ** The system *)

Definition sf_os_name : string := "Linux".
Definition sf_os_version (uname : option string) (ret : list ascii) : outcome (list ascii) :=
  ret ← put 0 "0.0.0" ret;
  match uname with Some release => put 0 release ret | None => Done ret end.

(** ** The time of a line of the log *)

Definition msec_text (usec : Z) : string := fmt_0d 3 (Z.quot usec 1000).
Definition log_time (t : tm) (usec : Z) : string :=
  strftime_date t +:+ String " " (strftime_time t +:+ String "." (msec_text usec)).

(** strftime leaves the array undefined when the text does not fit; [strcat] goes on
    from its end. *)
Definition sf_log_timestamp (sec usec : Z) (tsbuf : list ascii) (tsbufsize : Z) : outcome (list ascii) :=
  lt ← deref (sf_gmtime sec);
  let s := strftime_date lt +:+ String " " (strftime_time lt) in
  if strlen s + 1 <=? tsbufsize then
    tsbuf ← put 0 s tsbuf;
    at_ ← deref (terminator tsbuf);
    tsbuf ← put at_ "." tsbuf;
    at_ ← deref (terminator tsbuf);
    put at_ (str_take 9 (msec_text usec)) tsbuf
  else Undef.

(** ** put and get on Windows

    The loop runs until [it], not the character it points at, is zero: the end of the
    text does not stop it inside a comment. *)
Section Windows.
Definition either (c : ascii) (lower upper : ascii) : bool := Ascii.eqb c lower || Ascii.eqb c upper.

(** [it + 1] is read first, [it + 2] when that is the letter. *)
Definition two_letters (a1 a2 : ascii * ascii) (it : nat) (b : list ascii) : outcome bool :=
  c1 ← deref (b !! (it + 1)%nat);
  if either c1 (fst a1) (snd a1) then c2 ← deref (b !! (it + 2)%nat); Done (either c2 (fst a2) (snd a2)) else Done false.

Fixpoint windows_loop (fuel it : nat) (in_comment_block : bool) (b : list ascii) : outcome bool :=
  match fuel with
  | O => NoFuel
  | S fuel =>
      c ← deref (b !! it);
      if in_comment_block then
        if Ascii.eqb c "*" then
          d ← deref (b !! S it);
          if Ascii.eqb d "/" then windows_loop fuel (it + 2) false b else windows_loop fuel (S it) true b
        else windows_loop fuel (S it) true b
      else if Ascii.eqb c " " then windows_loop fuel (S it) false b
      else
        comment ← (if Ascii.eqb c "/" then d ← deref (b !! S it); Done (Ascii.eqb d "*") else Done false);
        if comment : bool then windows_loop fuel (S it) true b
        else if either c "p" "P" then two_letters ("u", "U")%char ("t", "T")%char it b
        else if either c "g" "G" then two_letters ("e", "E")%char ("t", "T")%char it b
        else Done false
  end.
Definition windows_is_put_get_command (sql_text : option (list ascii)) : outcome bool :=
  b ← deref sql_text; windows_loop (S (length b)) 0 false b.
End Windows.

(** ** Facts *)

Fixpoint lowercase (s : string) : string := match s with String c s => String (tolower c) (lowercase s) | EmptyString => EmptyString end.

Lemma tolower_not_nul c : negb (code c =? 0) = true -> tolower c <> chr 0.
Proof.
  intros Hc E. apply (f_equal code) in E. change (code (chr 0)) with 0 in E. unfold tolower in E. destruct ((65 <=? code c) && (code c <=? 90)) eqn:Eu.
  - rewrite code_chr in E by lia. lia.
  - rewrite E in Hc. done.
Qed.

(** C?: Comparing without case: the result is zero exactly when the two texts, cut after [n]
    characters, are equal up to case. *)
Theorem strncasecmp_zero n : forall s1 s2, no_nul s1 = true -> no_nul s2 = true ->
  sf_strncasecmp s1 s2 n = 0 <-> lowercase (str_take n s1) = lowercase (str_take n s2).
Proof.
  assert (forall c d, code c - code d = 0 -> c = d) as Hcode by (intros c d H; apply code_inj; lia).
  assert (forall s1 s2, no_nul s1 = true -> no_nul s2 = true -> forall n, strncasecmp_loop (S n) s1 s2 = 0 <-> lowercase (str_take (S n) s1) = lowercase (str_take (S n) s2)) as Hloop;
    [|intros s1 s2 H1 H2; destruct n as [|n]; [by cbn|by apply Hloop]].
  clear n. induction s1 as [|c s1 IH]; intros [|d s2] H1 H2 n; cbn [strncasecmp_loop head_char tail str_take lowercase]; unfold case_diff; cbn [head_char].
  - split; [done|]. intros _. by destruct n.
  - change (tolower (chr 0)) with (chr 0). unfold no_nul in H2. cbn [str_all] in H2. apply andb_prop in H2 as [Hd _]. pose proof (tolower_not_nul d Hd) as Hne.
    destruct (Ascii.eqb _ _) eqn:E; [apply Ascii.eqb_eq in E; congruence|]. split; [intros H; apply Hcode in H; congruence|done].
  - change (tolower (chr 0)) with (chr 0). unfold no_nul in H1. cbn [str_all] in H1. apply andb_prop in H1 as [Hc _]. pose proof (tolower_not_nul c Hc) as Hne.
    destruct (Ascii.eqb _ _) eqn:E; [apply Ascii.eqb_eq in E; congruence|]. split; [intros H; apply Hcode in H; congruence|done].
  - unfold no_nul in H1, H2. cbn [str_all] in H1, H2. apply andb_prop in H1 as [Hc H1], H2 as [Hd H2]. apply negb_true_iff in Hc, Hd. rewrite Hc, Hd, !orb_false_r.
    destruct (Ascii.eqb _ _) eqn:E.
    + apply Ascii.eqb_eq in E. rewrite E. destruct n as [|n]; [cbn; split; [done|lia]|]. cbn [Nat.eqb]. rewrite (IH s2 H1 H2 n). split; [by intros ->|by intros [=]].
    + apply Ascii.eqb_neq in E. split; [intros H; by apply Hcode in H|congruence].
Qed.

Lemma filename_plain d f : str_all (fun c => negb (Ascii.eqb c "/")) f = true -> sf_filename_from_path (d +:+ String "/" f) = f.
Proof.
  intros Hf. assert (strrchr f "/" = None) as Hn.
  { induction f as [|c f IH]; [done|]. cbn [str_all strrchr] in *. apply andb_prop in Hf as [Hc Hf]. rewrite IH by done. by destruct (Ascii.eqb c "/"). }
  assert (strrchr (d +:+ String "/" f) "/" = Some (String.length d)) as E.
  { induction d as [|c d IH]; cbn [String.append strrchr]; [by rewrite Hn|by rewrite IH]. }
  unfold sf_filename_from_path. rewrite E. clear. induction d as [|c d IH]; [done|]. exact IH.
Qed.

Lemma put_start s (buf : list ascii) : no_nul s = true -> (String.length s + 1 <= length buf)%nat -> exists b, put 0 s buf = Done b /\ holds (length buf) s b.
Proof.
  intros Hn Hl. unfold put. rewrite length_app, list_ascii_length. cbn [length Nat.add]. rewrite (proj2 (Nat.leb_le _ _)) by lia.
  eexists. split; [done|]. split_and!; [|done|].
  - rewrite take_0; cbn [app]. rewrite !length_app, list_ascii_length, length_drop. cbn [length]. lia.
  - eexists. rewrite take_0; cbn [app]. rewrite <- app_assoc. cbn [app]. done.
Qed.

(** [strcat] *)
Lemma strcat_holds n s t b : holds n s b -> no_nul t = true -> (String.length s + String.length t + 1 <= n)%nat ->
  exists b', (at_ ← deref (terminator b); put at_ t b) = Done b' /\ holds n (s +:+ t) b'.
Proof.
  intros H Ht Hl. pose proof H as (_ & Hs & rest & ->). rewrite terminator_string by done. cbn [deref]. rewrite bind_Done_l. by apply put_holds.
Qed.

(** The array of 50 bytes holds the time of any line of the next ten thousand years. *)
Lemma log_timestamp_ok sec usec t tsbuf : sf_gmtime sec = Some t -> -99999 <= tm_year t + 1900 <= 999999 -> 0 <= usec < 1000000 -> length tsbuf = 50%nat ->
  exists b, sf_log_timestamp sec usec tsbuf 50 = Done b /\ holds 50 (log_time t usec) b.
Proof.
  intros Et Hy Hu Hl. unfold sf_log_timestamp. rewrite Et. cbn [deref]. rewrite bind_Done_l. destruct (broken_down_seconds _ _ _ _ Et) as (_ & Hc & _).
  destruct (strftime_date_ok t Hc Hy) as [D1 D2]. destruct (strftime_time_ok t Hc) as [T1 T2].
  assert (0 <= Z.quot usec 1000 < 1000) as Hms by (rewrite Z.quot_div_nonneg by lia; split; [apply Z.div_pos; lia|apply Z.div_lt_upper_bound; lia]).
  assert (String.length (msec_text usec) = 3%nat) as M1 by (unfold msec_text; apply fmt_0d_length; cbn; lia).
  assert (no_nul (msec_text usec) = true) as M2 by apply fmt_0d_no_nul.
  set (s := strftime_date t +:+ String " " (strftime_time t)).
  assert (String.length s <= 21)%nat as S1 by (unfold s; rewrite str_length_app; cbn [String.length]; lia).
  assert (no_nul s = true) as S2 by (unfold s; rewrite no_nul_app, D2; exact T2).
  rewrite (proj2 (Z.leb_le _ _)) by (unfold strlen; lia). destruct (put_start s tsbuf S2) as (b & -> & Hb); [lia|]. rewrite bind_Done_l, Hl in *.
  destruct (strcat_holds 50 s "." b Hb eq_refl) as (b1 & E1 & Hb1); [cbn; lia|]. rewrite str_take_all by lia.
  destruct (strcat_holds 50 _ (msec_text usec) b1 Hb1 M2) as (b2 & E2 & Hb2); [rewrite str_length_app, M1; cbn; lia|].
  destruct (terminator b) as [at_|]; [|done]. cbn [deref] in *. rewrite bind_Done_l in *. rewrite E1, bind_Done_l, E2. exists b2. split; [done|].
  unfold log_time. unfold s in Hb2. rewrite !str_app_assoc in Hb2. exact Hb2.
Qed.

Lemma strncasecmp_zero_witness : no_nul "Warning" = true /\ sf_strncasecmp "WARN" "Warning" 4 = 0.
Proof. split; [reflexivity|]. apply (strncasecmp_zero 4 "WARN" "Warning"); reflexivity. Defined.

(** TMP=/t in an array that held other text: the directory becomes /t followed by what
    was left there. *)
Example tmp_dir_stale : sf_get_tmp_dir (fun v => if String.eqb v "TMP" then Some "/t" else None) (String.list_ascii_of_string "xxxx" ++ replicate 4 (chr 0))
  = Done (String.list_ascii_of_string "/txx/" ++ replicate 3 (chr 0)).
Proof. reflexivity. Qed.
(** And in one without a NUL the code looks for the end of the text beyond it. *)
Example tmp_dir_unterminated : sf_get_tmp_dir (fun v => if String.eqb v "TMP" then Some "/t" else None) (replicate 8 "x"%char) = Undef.
Proof. reflexivity. Qed.

Fixpoint repeat_char (n : nat) (c : ascii) : string := match n with O => EmptyString | S n => String c (repeat_char n c) end.
(** Names of more than 492 characters write beyond the array of the command; what a shorter
    name says to the shell is done. *)
Example delete_directory_overflow : sf_delete_directory_if_exists (replicate 500 (chr 0)) (repeat_char 493 "d") = Undef.
Proof. vm_compute. reflexivity. Qed.
Example delete_directory_shell : sf_delete_directory_if_exists (replicate 500 (chr 0)) "a; echo b" = Done "rm -rf a; echo b".
Proof. vm_compute. reflexivity. Qed.

(** On Windows a word that begins with the letters of a command is one; a comment that is
    not closed is read to the end of the array and beyond. *)
Example windows_prefix : windows_is_put_get_command (Some (String.list_ascii_of_string "/* c */ getdate()" ++ [chr 0])) = Done true.
Proof. reflexivity. Qed.
Example windows_open_comment : windows_is_put_get_command (Some (String.list_ascii_of_string "/* put" ++ [chr 0])) = Undef.
Proof. reflexivity. Qed.
