(* ===== verification/Logger.v ===== *)
(** * lib/logger.c: the log.

    The static structure, what a call writes to the console and to the file, and the
    names of the levels.  A FILE is a number; [files] has the open ones with what was
    written.  The lock is log_lock_func's mutex (client.c); a mutex that was never
    initialised, or destroyed, may not be locked.  The message is the text that printf
    makes of the arguments; LOG_USE_COLOR is defined, as CMakeLists.txt does. *)

From S2P Require Import Prelude CLib CFloat Status JsonHelpers Calendar Timestamp Url Platform.

Inductive mutex := Raw | Unlocked | Locked | Destroyed.
#[export] Instance mutex_eq_dec : EqDecision mutex.
Proof. solve_decision. Defined.

(** Initialising a mutex that is alive is undefined; locking one that is held by the same
    thread does not return. *)
Definition _mutex_init (m : mutex) : outcome mutex := match m with Raw | Destroyed => Done Unlocked | _ => Undef end.
Definition _mutex_lock (m : mutex) : outcome mutex := match m with Unlocked => Done Locked | Locked => NoFuel | _ => Undef end.
Definition _mutex_unlock (m : mutex) : outcome mutex := match m with Locked => Done Unlocked | _ => Undef end.
Definition _mutex_term (m : mutex) : outcome mutex := match m with Unlocked => Done Destroyed | _ => Undef end.

Definition SF_LOG_TRACE : Z := 0.
Definition SF_LOG_DEBUG : Z := 1.
Definition SF_LOG_INFO : Z := 2.
Definition SF_LOG_WARN : Z := 3.
Definition SF_LOG_ERROR : Z := 4.
Definition SF_LOG_FATAL : Z := 5.

Definition level_names : list string := ["TRACE"; "DEBUG"; "INFO"; "WARN"; "ERROR"; "FATAL"].
Definition escape_char : ascii := chr 27.
Definition level_colors : list string := map (String escape_char) ["[94m"; "[36m"; "[32m"; "[33m"; "[31m"; "[35m"].

(** The structure [L]; [lock] tells whether log_lock_func is set. *)
Record logger := mk_logger { udata : Z; lock : bool; fp : option nat; level : Z; quiet : bool }.

(** The logger with its surroundings: the mutex of its lock, the console, the files. *)
Record log_state := mk_log { L : logger; log_lock : mutex; stderr : list string; files : gmap nat (list string) }.

Definition set_L (l : logger) (s : log_state) : log_state := mk_log l (log_lock s) (stderr s) (files s).
Definition set_log_lock (m : mutex) (s : log_state) : log_state := mk_log (L s) m (stderr s) (files s).

Definition log_set_udata (u : Z) (s : log_state) : log_state := set_L (mk_logger u (lock (L s)) (fp (L s)) (level (L s)) (quiet (L s))) s.
Definition log_set_lock (fn : bool) (s : log_state) : log_state := set_L (mk_logger (udata (L s)) fn (fp (L s)) (level (L s)) (quiet (L s))) s.
Definition log_set_fp (f : option nat) (s : log_state) : log_state := set_L (mk_logger (udata (L s)) (lock (L s)) f (level (L s)) (quiet (L s))) s.
Definition log_get_level (s : log_state) : Z := level (L s).
Definition log_set_level (l : Z) (s : log_state) : log_state := set_L (mk_logger (udata (L s)) (lock (L s)) (fp (L s)) l (quiet (L s))) s.
Definition log_set_quiet (enable : bool) (s : log_state) : log_state := set_L (mk_logger (udata (L s)) (lock (L s)) (fp (L s)) (level (L s)) enable) s.

(** [log_lock_func] *)
Definition log_lock_func (lock : bool) (s : log_state) : outcome log_state :=
  m ← (if lock then _mutex_lock (log_lock s) else _mutex_unlock (log_lock s)); Done (set_log_lock m s).
Definition take_lock (s : log_state) : outcome log_state := if lock (L s) then log_lock_func true s else Done s.
Definition unlock (s : log_state) : outcome log_state := if lock (L s) then log_lock_func false s else Done s.

Fixpoint blanks (n : nat) : string := match n with O => EmptyString | S n => String " " (blanks n) end.
(** [%-ws] and [%wd]. *)
Definition pad_right (w : nat) (s : string) : string := s +:+ blanks (w - String.length s).
Definition pad_left (w : nat) (s : string) : string := blanks (w - String.length s) +:+ s.

Definition name_at (names : list string) (level : Z) : option string := if level <? 0 then None else names !! Z.to_nat level.

(** SF_LOG_TIMESTAMP_FORMAT and SF_LOG_TIMESTAMP_FORMAT_COLOR. *)
Definition plain_head (time name ns basename : string) (line : Z) : string :=
  time +:+ String " " (pad_right 5 name +:+ String " " (pad_right 5 ns +:+ String " " (pad_right 16 basename +:+ String " " (pad_left 4 (fmt_d line) +:+ ": ")))).
Definition color_head (time color name ns basename : string) (line : Z) : string :=
  time +:+ String " " (color +:+ pad_right 5 name +:+ String escape_char ("[0m " +:+ String escape_char ("[90m" +:+ pad_right 5 ns
    +:+ String " " (pad_right 16 basename +:+ String " " (pad_left 4 (fmt_d line) +:+ String ":" (String escape_char "[0m ")))))).

(** A call: its level, the source it stands in, the message and the time. *)
Record log_call := mk_call { c_level : Z; c_file : string; c_line : Z; c_ns : string; c_message : string; c_sec : Z; c_usec : Z }.

Section Log.
  (* what the array of the time held before *)
  Context (stale : list ascii).

Definition to_stderr (c : log_call) (time : string) (s : log_state) : outcome log_state :=
  if quiet (L s) then Done s
  else
    color ← deref (name_at level_colors (c_level c));
    name ← deref (name_at level_names (c_level c));
    Done (mk_log (L s) (log_lock s)
      (stderr s ++ [color_head time color name (c_ns c) (sf_filename_from_path (c_file c)) (c_line c) +:+ c_message c]) (files s)).
Definition to_file (c : log_call) (time : string) (s : log_state) : outcome log_state :=
  match fp (L s) with
  | None => Done s
  | Some f =>
      written ← deref (files s !! f);
      name ← deref (name_at level_names (c_level c));
      Done (mk_log (L s) (log_lock s) (stderr s)
        (<[f := written ++ [plain_head time name (c_ns c) (sf_filename_from_path (c_file c)) (c_line c) +:+ c_message c]]> (files s)))
  end.

Definition log_log_va_list (c : log_call) (s : log_state) : outcome log_state :=
  if c_level c <? level (L s) then Done s
  else
    tsbuf ← sf_log_timestamp (c_sec c) (c_usec c) stale 50;
    time ← deref (c_string tsbuf);
    s ← take_lock s;
    s ← to_stderr c time s;
    s ← to_file c time s;
    unlock s.
Definition log_log (c : log_call) (s : log_state) : outcome log_state := log_log_va_list c s.
End Log.

Fixpoint level_loop (names : list string) (idx : Z) (s : string) : Z :=
  match names with
  | [] => SF_LOG_FATAL
  | name :: names => if sf_strncasecmp name s (String.length name) =? 0 then idx else level_loop names (idx + 1) s
  end.
Definition log_from_str_to_level (level_in_str : option string) : Z :=
  match level_in_str with None => SF_LOG_FATAL | Some s => level_loop level_names 0 s end.

(** ** The level of a name *)

(** A level is named by any text that begins with its name, in any case, and by no
    other: what names none is FATAL, NULL too. *)
Theorem level_of_name s : no_nul s = true ->
  (exists i name, level_names !! i = Some name /\ log_from_str_to_level (Some s) = Z.of_nat i /\ lowercase (str_take (String.length name) s) = lowercase name) \/
  (log_from_str_to_level (Some s) = SF_LOG_FATAL /\ forall name, name ∈ level_names -> lowercase (str_take (String.length name) s) <> lowercase name).
Proof.
  intros Hs. unfold log_from_str_to_level.
  assert (forall pre names, level_names = pre ++ names -> (forall name, name ∈ pre -> lowercase (str_take (String.length name) s) <> lowercase name) ->
    (exists i name, level_names !! i = Some name /\ level_loop names (Z.of_nat (length pre)) s = Z.of_nat i /\ lowercase (str_take (String.length name) s) = lowercase name) \/
    (level_loop names (Z.of_nat (length pre)) s = SF_LOG_FATAL /\ forall name, name ∈ level_names -> lowercase (str_take (String.length name) s) <> lowercase name)) as H;
    [|apply (H [] level_names eq_refl); set_solver].
  intros pre names. revert pre. induction names as [|name names IH]; intros pre E Hpre.
  - right. split; [done|]. rewrite E, app_nil_r. exact Hpre.
  - cbn [level_loop]. assert (no_nul name = true) as Hn.
    { assert (forallb no_nul level_names = true) as Hall by reflexivity. rewrite forallb_forall in Hall. apply Hall. rewrite E. apply in_or_app. right. by left. }
    destruct (_ =? 0) eqn:Ez.
    + left. exists (length pre), name. apply Z.eqb_eq, strncasecmp_zero in Ez; [|done..]. rewrite str_take_all in Ez by lia.
      split_and!; [by rewrite E, list_lookup_middle|done|done].
    + replace (Z.of_nat (length pre) + 1) with (Z.of_nat (length (pre ++ [name]))) by (rewrite length_app; cbn; lia).
      apply IH; [by rewrite <- app_assoc|]. intros nm [Hnm|Hnm%list_elem_of_singleton]%elem_of_app; [by apply Hpre|]. subst nm.
      intros Heq. apply Z.eqb_neq in Ez. apply Ez, strncasecmp_zero; [done..|]. rewrite str_take_all by lia. done.
Qed.

Lemma level_of_name_witness : no_nul "warning" = true /\ log_from_str_to_level (Some "warning") = SF_LOG_WARN.
Proof.
  split; [reflexivity|]. destruct (level_of_name "warning" eq_refl) as [(i & name & _ & E & _)|[_ H]]; [vm_compute; reflexivity|].
  exfalso. apply (H "WARN"); [set_solver|reflexivity].
Defined.

(** ** A line of the log *)

Definition time_of_call (c : log_call) : string := match sf_gmtime (c_sec c) with Some t => log_time t (c_usec c) | None => EmptyString end.
Definition file_line (c : log_call) : string :=
  plain_head (time_of_call c) (default EmptyString (name_at level_names (c_level c))) (c_ns c) (sf_filename_from_path (c_file c)) (c_line c) +:+ c_message c.
Definition console_line (c : log_call) : string :=
  color_head (time_of_call c) (default EmptyString (name_at level_colors (c_level c))) (default EmptyString (name_at level_names (c_level c)))
    (c_ns c) (sf_filename_from_path (c_file c)) (c_line c) +:+ c_message c.

(** A level of the enumeration, at a time of the next ten thousand years. *)
Definition loggable (c : log_call) : Prop :=
  SF_LOG_TRACE <= c_level c <= SF_LOG_FATAL /\ 0 <= c_usec c < 1000000 /\
  exists t, sf_gmtime (c_sec c) = Some t /\ -99999 <= tm_year t + 1900 <= 999999.

Lemma level_there c : SF_LOG_TRACE <= c_level c <= SF_LOG_FATAL ->
  name_at level_names (c_level c) = Some (default EmptyString (name_at level_names (c_level c))) /\
  name_at level_colors (c_level c) = Some (default EmptyString (name_at level_colors (c_level c))).
Proof.
  unfold SF_LOG_TRACE, SF_LOG_FATAL. generalize (c_level c). intros z Hz.
  assert (z = 0 \/ z = 1 \/ z = 2 \/ z = 3 \/ z = 4 \/ z = 5) as [->|[->|[->|[->|[->| ->]]]]] by lia; done.
Qed.

Lemma block_c_string n s b : holds n s b -> c_string b = Some s.
Proof.
  intros (_ & Hs & rest & ->). induction s as [|c s IH]; [done|]. unfold no_nul in Hs. cbn [str_all] in Hs. apply andb_prop in Hs as [Hc Hs].
  cbn [String.list_ascii_of_string app c_string]. apply negb_true_iff in Hc. rewrite Hc, IH; [done|exact Hs].
Qed.

(** A call at the level of the log or above it writes one line to the file and, unless
    the log is quiet, one to the console; a call below writes nothing. *)
Lemma log_log_ok stale c s f written : length stale = 50%nat -> loggable c -> log_lock s = Unlocked -> fp (L s) = Some f -> files s !! f = Some written ->
  log_log stale c s = Done
    (if c_level c <? level (L s) then s
     else mk_log (L s) Unlocked (stderr s ++ (if quiet (L s) then [] else [console_line c])) (<[f := written ++ [file_line c]]> (files s))).
Proof.
  intros Hst (Hlv & Hu & t & Et & Hy) Hm Hf Hw. unfold log_log, log_log_va_list. destruct (_ <? _); [done|].
  destruct (log_timestamp_ok _ _ t stale Et Hy Hu Hst) as (b & -> & Hb). rewrite bind_Done_l, (block_c_string _ _ _ Hb). cbn [deref]. rewrite bind_Done_l.
  destruct (level_there c Hlv) as [Hn Hc]. unfold file_line, console_line, time_of_call. rewrite Et.
  set (held := if lock (L s) then Locked else Unlocked).
  assert (take_lock s = Done (set_log_lock held s)) as ->.
  { unfold take_lock, log_lock_func, held. destruct (lock (L s)); [by rewrite Hm|]. unfold set_log_lock. destruct s; cbn in *. by subst. }
  rewrite bind_Done_l.
  assert (to_stderr c (log_time t (c_usec c)) (set_log_lock held s) = Done (mk_log (L s) held (stderr s ++ (if quiet (L s) then [] else
    [color_head (log_time t (c_usec c)) (default EmptyString (name_at level_colors (c_level c))) (default EmptyString (name_at level_names (c_level c)))
      (c_ns c) (sf_filename_from_path (c_file c)) (c_line c) +:+ c_message c])) (files s))) as ->.
  { unfold to_stderr. cbn [L set_log_lock log_lock stderr files]. destruct (quiet (L s)); [by rewrite app_nil_r|]. rewrite Hn, Hc. done. }
  rewrite bind_Done_l. unfold to_file. cbn [L log_lock stderr files]. rewrite Hf, Hw. cbn [deref]. rewrite bind_Done_l, Hn. cbn [deref default]. rewrite !bind_Done_l.
  unfold unlock, log_lock_func, held. cbn [L log_lock]. by destruct (lock (L s)).
Qed.
