(* ===== verification/GlobalState.v ===== *)
(** * lib/client.c (100-148, 236-367, 464-562), memory.c and error.c (their mutexes): the
    process-wide state.

    [globals] has the global variables, the log of Logger, the mutexes and how many blocks
    SF_CALLOC gave that were not freed.  Strings behind pointers are their texts.  What the
    system answers while the library starts is an [environment]. *)

From S2P Require Import Prelude CLib CFloat Status JsonHelpers Calendar Timestamp Url Platform Logger.

(** The allocators in use: libc's, or one of the application. *)
Inductive allocator := Libc | User (fn : nat).
Record hooks := mk_hooks { alloc : allocator; dealloc : allocator; realloc : allocator; calloc : allocator }.
Record SF_USER_MEM_HOOKS := mk_user { alloc_fn : option nat; dealloc_fn : option nat; realloc_fn : option nat; calloc_fn : option nat }.
Definition choose (fn : option nat) : allocator := match fn with Some f => User f | None => Libc end.
Definition _snowflake_memory_hooks_setup (h : option SF_USER_MEM_HOOKS) : hooks :=
  match h with
  | None => mk_hooks Libc Libc Libc Libc
  | Some h => mk_hooks (choose (alloc_fn h)) (choose (dealloc_fn h)) (choose (realloc_fn h)) (choose (calloc_fn h))
  end.

Record attributes := mk_attributes {
  DISABLE_VERIFY_PEER : bool; CA_BUNDLE_FILE : option string; SSL_VERSION : Z; DEBUG : bool; SF_OCSP_CHECK : bool
}.
Record globals := mk_globals {
  attrs : attributes;
  global_hooks : hooks;
  LOG_PATH : option string;
  LOG_FP : option nat;
  log : log_state;
  next_file : nat;
  saved : list (list string);      (* what closed files hold, oldest first *)
  gmlocaltime_lock : mutex;
  allocation_lock : mutex;
  mutex_shared_msg : mutex;
  live : nat                       (* blocks of SF_CALLOC not freed *)
}.

Definition set_attrs (a : attributes) (g : globals) : globals :=
  mk_globals a (global_hooks g) (LOG_PATH g) (LOG_FP g) (log g) (next_file g) (saved g) (gmlocaltime_lock g) (allocation_lock g) (mutex_shared_msg g) (live g).
Definition set_hooks (h : hooks) (g : globals) : globals :=
  mk_globals (attrs g) h (LOG_PATH g) (LOG_FP g) (log g) (next_file g) (saved g) (gmlocaltime_lock g) (allocation_lock g) (mutex_shared_msg g) (live g).
Definition set_path (p : option string) (g : globals) : globals :=
  mk_globals (attrs g) (global_hooks g) p (LOG_FP g) (log g) (next_file g) (saved g) (gmlocaltime_lock g) (allocation_lock g) (mutex_shared_msg g) (live g).
Definition set_log (l : log_state) (g : globals) : globals :=
  mk_globals (attrs g) (global_hooks g) (LOG_PATH g) (LOG_FP g) l (next_file g) (saved g) (gmlocaltime_lock g) (allocation_lock g) (mutex_shared_msg g) (live g).
Definition set_locks (gm al sh : mutex) (g : globals) : globals :=
  mk_globals (attrs g) (global_hooks g) (LOG_PATH g) (LOG_FP g) (log g) (next_file g) (saved g) gm al sh (live g).
Definition set_live (n : nat) (g : globals) : globals :=
  mk_globals (attrs g) (global_hooks g) (LOG_PATH g) (LOG_FP g) (log g) (next_file g) (saved g) (gmlocaltime_lock g) (allocation_lock g) (mutex_shared_msg g) n.

Definition CURL_SSLVERSION_TLSv1_2 : Z := 6.

Inductive mkdir_answer := Made | EEXIST | Refused.
Record environment := mk_env {
  getenv : string -> option string;
  sf_mkdir : string -> mkdir_answer;
  fopen : string -> bool;
  local_zone : zone;
  now : Z;
  strerror : string;
  curl_starts : bool;
  at_line : log_call               (* the line log_fatal writes when curl does not start *)
}.

(** ** Blocks *)

(** [SF_CALLOC] and [SF_FREE] hold the allocation lock; a NULL pointer is not looked at. *)
Definition with_allocation_lock (g : globals) : outcome globals :=
  m ← _mutex_lock (allocation_lock g); m ← _mutex_unlock m; Done (set_locks (gmlocaltime_lock g) m (mutex_shared_msg g) g).
Definition SF_CALLOC (g : globals) : outcome globals := g ← with_allocation_lock g; Done (set_live (S (live g)) g).
Definition SF_FREE (p : option string) (g : globals) : outcome globals :=
  match p with None => Done g | Some _ => g ← with_allocation_lock g; Done (set_live (pred (live g)) g) end.

(** The new value of the variable and the state. *)
Definition alloc_buffer_and_copy (var : option string) (str : option string) (g : globals) : outcome (option string * globals) :=
  g ← SF_FREE var g;
  match str with
  | Some s => g ← SF_CALLOC g; Done (Some s, g)
  | None => Done (None, g)
  end.

(** ** The log file *)

(** Every directory above the file is asked for, in order, until one is refused; the slash
    at [p] is put back.  The answer and the directories asked for. *)
Fixpoint mkpath_loop (fuel : nat) (sf_mkdir : string -> mkdir_answer) (file_path : string) (p : option nat) : outcome (Z * list string) :=
  match p with
  | None => Done (0, [])
  | Some p =>
      match fuel with
      | O => NoFuel
      | S fuel =>
          let dir := str_take p file_path in
          match sf_mkdir dir with
          | Refused => Done (-1, [dir])
          | Made | EEXIST =>
              '(r, dirs) ← mkpath_loop fuel sf_mkdir file_path (Nat.add (S p) <$> strchr (str_drop (S p) file_path) "/");
              Done (r, dir :: dirs)
          end
      end
  end.
Definition mkpath (sf_mkdir : string -> mkdir_answer) (file_path : string) : outcome (Z * list string) :=
  match file_path with
  | EmptyString => Undef
  | _ => mkpath_loop (String.length file_path) sf_mkdir file_path (Nat.add 1 <$> strchr (str_drop 1 file_path) "/")
  end.

(** [strftime(time_str, 15, "%Y%m%d%H%M%S", time_info)] *)
Definition strftime_compact (t : tm) : string :=
  fmt_d (tm_year t + 1900) +:+ fmt_0d 2 (tm_mon t + 1) +:+ fmt_0d 2 (tm_mday t) +:+ fmt_0d 2 (tm_hour t) +:+ fmt_0d 2 (tm_min t) +:+ fmt_0d 2 (tm_sec t).

Definition print_error (line : string) (g : globals) : globals :=
  set_log (mk_log (L (log g)) (log_lock (log g)) (stderr (log g) ++ [line]) (files (log g))) g.

(** The path is printed into the block with [snprintf]. *)
Definition log_file_path (sf_log_path : option string) (time_str : string) : string :=
  let log_path_size := 1 + strlen time_str + 30 in
  match sf_log_path with
  | Some p =>
      let log_path_size := u64 (log_path_size + strlen p) in
      str_take (Z.to_nat (log_path_size - 1)) (p +:+ "/snowflake_" +:+ time_str +:+ ".txt")
  | None => str_take (Z.to_nat (log_path_size - 1)) ("logs/snowflake_" +:+ time_str +:+ ".txt")
  end.

(** [fopen(LOG_PATH, "w+")]: a FILE of its own when it opens. *)
Definition open_log (opens : bool) (g : globals) : globals :=
  if opens then
    mk_globals (attrs g) (global_hooks g) (LOG_PATH g) (Some (next_file g))
      (mk_log (L (log g)) (log_lock (log g)) (stderr (log g)) (<[next_file g := []]> (files (log g))))
      (S (next_file g)) (saved g) (gmlocaltime_lock g) (allocation_lock g) (mutex_shared_msg g) (live g)
  else
    mk_globals (attrs g) (global_hooks g) (LOG_PATH g) None (log g) (next_file g) (saved g) (gmlocaltime_lock g) (allocation_lock g) (mutex_shared_msg g) (live g).

Definition log_init (env : environment) (log_path : option string) (log_level : Z) (g : globals) : outcome (bool * globals) :=
  ml ← _mutex_init (log_lock (log g));
  mg ← _mutex_init (gmlocaltime_lock g);
  let g := set_locks mg (allocation_lock g) (mutex_shared_msg g) (set_log (set_log_lock ml (log g)) g) in
  time_info ← deref (localtime_in (local_zone env) (now env));
  time_str ← (if strlen (strftime_compact time_info) + 1 <=? 15 then Done (strftime_compact time_info) else Undef);
  let sf_log_path := match getenv env "SNOWFLAKE_LOG_PATH" with Some p => Some p | None => log_path end in
  let sf_log_level := match getenv env "SNOWFLAKE_LOG_LEVEL" with Some s => log_from_str_to_level (Some s) | None => log_level end in
  let l := log_set_quiet (negb (DEBUG (attrs g))) (log g) in
  let l := log_set_lock true (log_set_level sf_log_level l) in
  g ← SF_CALLOC (set_log l g);
  let path := log_file_path sf_log_path time_str in
  let g := set_path (Some path) g in
  '(r, _) ← mkpath (sf_mkdir env) path;
  if r =? -1 then Done (false, print_error ("Error creating log directory. Error code: " +:+ strerror env) g)
  else
    let g := open_log (fopen env path) g in
    match LOG_FP g with
    | Some f => Done (true, set_log (log_set_fp (Some f) (log g)) g)
    | None => Done (false, print_error ("Error code: " +:+ strerror env) (print_error ("Error opening file from file path: " +:+ path) g))
    end.

(** [fclose]: the FILE must be open. *)
Definition fclose (f : nat) (g : globals) : outcome globals :=
  written ← deref (files (log g) !! f);
  Done (mk_globals (attrs g) (global_hooks g) (LOG_PATH g) (LOG_FP g)
    (mk_log (L (log g)) (log_lock (log g)) (stderr (log g)) (delete f (files (log g))))
    (next_file g) (saved g ++ [written]) (gmlocaltime_lock g) (allocation_lock g) (mutex_shared_msg g) (live g)).

Definition log_term (g : globals) : outcome globals :=
  g ← SF_FREE (LOG_PATH g) g;
  let g := set_path None g in
  g ← (match LOG_FP g with
       | Some f => g ← fclose f g; Done (set_log (log_set_fp None (log g)) g)
       | None => Done g
       end);
  mg ← _mutex_term (gmlocaltime_lock g);
  ml ← _mutex_term (log_lock (log g));
  Done (set_locks mg (allocation_lock g) (mutex_shared_msg g) (set_log (set_log_lock ml (log g)) g)).

(** ** Start and end *)

Definition sf_memory_init (g : globals) : outcome globals := m ← _mutex_init (allocation_lock g); Done (set_locks (gmlocaltime_lock g) m (mutex_shared_msg g) g).
Definition sf_memory_term (g : globals) : outcome globals := m ← _mutex_term (allocation_lock g); Done (set_locks (gmlocaltime_lock g) m (mutex_shared_msg g) g).
Definition sf_error_init (g : globals) : outcome globals := m ← _mutex_init (mutex_shared_msg g); Done (set_locks (gmlocaltime_lock g) (allocation_lock g) m g).
Definition sf_error_term (g : globals) : outcome globals := m ← _mutex_term (mutex_shared_msg g); Done (set_locks (gmlocaltime_lock g) (allocation_lock g) m g).

Section Lifecycle.
  (* the array of a line's time; the warning of the report about its [i]-th block *)
  Context (stale : list ascii) (warning : nat -> log_call).

Definition write_log (c : log_call) (g : globals) : outcome globals := l ← log_log stale c (log g); Done (set_log l g).

Definition snowflake_global_init (env : environment) (log_path : option string) (log_level : Z) (h : option SF_USER_MEM_HOOKS) (g : globals)
  : outcome (Z * globals) :=
  let g := set_attrs (mk_attributes false None CURL_SSLVERSION_TLSv1_2 false true) g in
  let g := set_hooks (_snowflake_memory_hooks_setup h) g in
  g ← sf_memory_init g;
  g ← sf_error_init g;
  '(ok, g) ← log_init env log_path log_level g;
  if negb ok then Done (SF_STATUS_ERROR_GENERAL, print_error "Error during log initialization" g)
  else if negb (curl_starts env) then g ← write_log (at_line env) g; Done (SF_STATUS_ERROR_GENERAL, g)
  else Done (SF_STATUS_SUCCESS, g).

(** The report on what was not freed: a warning for each block, with the lock held. *)
Fixpoint warn_blocks (blocks : list nat) (g : globals) : outcome globals :=
  match blocks with
  | [] => Done g
  | i :: blocks => g ← write_log (warning i) g; warn_blocks blocks g
  end.
Definition alloc_map_to_log (g : globals) : outcome globals :=
  m ← _mutex_lock (allocation_lock g);
  g ← warn_blocks (seq 0 (live g)) (set_locks (gmlocaltime_lock g) m (mutex_shared_msg g) g);
  m ← _mutex_unlock (allocation_lock g);
  Done (set_locks (gmlocaltime_lock g) m (mutex_shared_msg g) g).

Definition snowflake_global_term (g : globals) : outcome (Z * globals) :=
  g ← SF_FREE (CA_BUNDLE_FILE (attrs g)) g;
  let a := attrs g in
  let g := set_attrs (mk_attributes (DISABLE_VERIFY_PEER a) None (SSL_VERSION a) (DEBUG a) (SF_OCSP_CHECK a)) g in
  g ← log_term g;
  g ← alloc_map_to_log g;
  g ← sf_error_term g;
  g ← sf_memory_term g;
  Done (SF_STATUS_SUCCESS, g).
End Lifecycle.

(** ** Attributes *)

Inductive SF_GLOBAL_ATTRIBUTE :=
| SF_GLOBAL_DISABLE_VERIFY_PEER | SF_GLOBAL_CA_BUNDLE_FILE | SF_GLOBAL_SSL_VERSION | SF_GLOBAL_DEBUG | SF_GLOBAL_OCSP_CHECK
| OtherAttribute (n : Z).

(** What a [const void *value] points at; [NoValue] is NULL. *)
Inductive attr_value := NoValue | Bool (b : bool) | Int32 (n : Z) | Text (s : string).
Definition as_bool (v : attr_value) : outcome bool := match v with Bool b => Done b | _ => Undef end.
Definition as_int (v : attr_value) : outcome Z := match v with Int32 n => Done n | _ => Undef end.
Definition as_text (v : attr_value) : outcome (option string) := match v with Text s => Done (Some s) | NoValue => Done None | _ => Undef end.

Definition snowflake_global_set_attribute (type : SF_GLOBAL_ATTRIBUTE) (value : attr_value) (g : globals) : outcome (Z * globals) :=
  let a := attrs g in
  g ← (match type with
       | SF_GLOBAL_DISABLE_VERIFY_PEER => b ← as_bool value; Done (set_attrs (mk_attributes b (CA_BUNDLE_FILE a) (SSL_VERSION a) (DEBUG a) (SF_OCSP_CHECK a)) g)
       | SF_GLOBAL_CA_BUNDLE_FILE =>
           s ← as_text value;
           '(ca, g) ← alloc_buffer_and_copy (CA_BUNDLE_FILE a) s g;
           Done (set_attrs (mk_attributes (DISABLE_VERIFY_PEER a) ca (SSL_VERSION a) (DEBUG a) (SF_OCSP_CHECK a)) g)
       | SF_GLOBAL_SSL_VERSION => n ← as_int value; Done (set_attrs (mk_attributes (DISABLE_VERIFY_PEER a) (CA_BUNDLE_FILE a) n (DEBUG a) (SF_OCSP_CHECK a)) g)
       | SF_GLOBAL_DEBUG =>
           b ← as_bool value;
           Done (set_log (log_set_quiet (negb b) (log g)) (set_attrs (mk_attributes (DISABLE_VERIFY_PEER a) (CA_BUNDLE_FILE a) (SSL_VERSION a) b (SF_OCSP_CHECK a)) g))
       | SF_GLOBAL_OCSP_CHECK => b ← as_bool value; Done (set_attrs (mk_attributes (DISABLE_VERIFY_PEER a) (CA_BUNDLE_FILE a) (SSL_VERSION a) (DEBUG a) b) g)
       | OtherAttribute _ => Done g
       end);
  Done (SF_STATUS_SUCCESS, g).

(** The caller's object, and what it holds afterwards. *)
Inductive place := BoolAt (b : bool) | Int32At (n : Z) | BytesAt (b : list ascii).
Definition snowflake_global_get_attribute (type : SF_GLOBAL_ATTRIBUTE) (value : place) (g : globals) : outcome (Z * place) :=
  let a := attrs g in
  value ← (match type, value with
           | SF_GLOBAL_DISABLE_VERIFY_PEER, BoolAt _ => Done (BoolAt (DISABLE_VERIFY_PEER a))
           | SF_GLOBAL_CA_BUNDLE_FILE, BytesAt b =>
               match CA_BUNDLE_FILE a with Some s => b ← put 0 s b; Done (BytesAt b) | None => Done value end
           | SF_GLOBAL_SSL_VERSION, Int32At _ => Done (Int32At (SSL_VERSION a))
           | SF_GLOBAL_DEBUG, BoolAt _ => Done (BoolAt (DEBUG a))
           | SF_GLOBAL_OCSP_CHECK, BoolAt _ => Done (BoolAt (SF_OCSP_CHECK a))
           | OtherAttribute _, _ => Done value
           | _, _ => Undef
           end);
  Done (SF_STATUS_SUCCESS, value).

(** ** The directories above the log file *)

(** Those of [rest] below [seen], outermost first. *)
Fixpoint parents (seen rest : string) : list string :=
  match rest with
  | EmptyString => []
  | String c rest => (if Ascii.eqb c "/" then [seen] else []) ++ parents (seen +:+ String c EmptyString) rest
  end.
Definition parents_of (path : string) : list string := match path with String c rest => parents (String c EmptyString) rest | EmptyString => [] end.

(** Asking for them in order until one is refused. *)
Fixpoint ask (sf_mkdir : string -> mkdir_answer) (dirs : list string) : Z * list string :=
  match dirs with
  | [] => (0, [])
  | d :: dirs => match sf_mkdir d with Refused => (-1, [d]) | _ => let '(r, asked) := ask sf_mkdir dirs in (r, d :: asked) end
  end.

Lemma mkpath_loop_ok mk rest : forall seen fuel, (String.length rest <= fuel)%nat ->
  mkpath_loop fuel mk (seen +:+ rest) (Nat.add (String.length seen) <$> strchr rest "/") = Done (ask mk (parents seen rest)).
Proof.
  induction rest as [|c rest IH]; intros seen fuel Hf; [by destruct fuel|]. cbn [strchr parents String.length] in *.
  assert (seen +:+ String c rest = (seen +:+ String c EmptyString) +:+ rest) as Eq by (by rewrite str_app_assoc).
  assert (String.length (seen +:+ String c EmptyString) = S (String.length seen)) as El by (rewrite str_length_app; cbn; lia).
  destruct (Ascii.eqb c "/"); cbn [app].
  - destruct fuel as [|fuel]; [lia|]. cbn [mkpath_loop fmap option_fmap option_map ask]. rewrite Nat.add_0_r, str_take_app_exact.
    replace (str_drop (S (String.length seen)) (seen +:+ String c rest)) with rest by (by rewrite Eq, <- El, str_drop_app).
    rewrite <- El, Eq, IH by lia. destruct (mk seen); [rewrite bind_Done_l; by destruct (ask mk _)..|done].
  - specialize (IH (seen +:+ String c EmptyString) fuel ltac:(lia)). rewrite El, <- Eq in IH. rewrite <- IH. f_equal. destruct (strchr rest "/"); [|done]. cbn. f_equal. lia.
Qed.

Lemma mkpath_ok mk path : path <> EmptyString -> mkpath mk path = Done (ask mk (parents_of path)).
Proof.
  destruct path as [|c rest]; [done|]. intros _. unfold mkpath, parents_of. change (str_drop 1 (String c rest)) with rest.
  apply (mkpath_loop_ok mk rest (String c EmptyString)). cbn. lia.
Qed.

Lemma ask_granted mk dirs : (forall d, d ∈ dirs -> mk d <> Refused) -> ask mk dirs = (0, dirs).
Proof.
  induction dirs as [|d dirs IH]; intros H; [done|]. cbn [ask]. rewrite IH by (intros x Hx; apply H; set_solver). pose proof (H d ltac:(set_solver)). by destruct (mk d).
Qed.

(** The block holds the whole path: 30 bytes are enough for what the formats add. *)
Lemma log_file_path_whole p time_str : match p with Some p => strlen p < 2 ^ 60 | None => True end -> (String.length time_str <= 14)%nat ->
  log_file_path p time_str = match p with Some p => p +:+ "/snowflake_" +:+ time_str +:+ ".txt" | None => "logs/snowflake_" +:+ time_str +:+ ".txt" end.
Proof.
  intros Hp Ht. unfold log_file_path, strlen in *. destruct p as [p|]; apply str_take_all; rewrite !str_length_app; cbn [String.length]; [|lia].
  rewrite wrapU_small by lia. lia.
Qed.

(** ** The life of the library *)

(** Before the start and after the end. *)
Record idle (g : globals) : Prop := {
  id_log : log_lock (log g) = Raw \/ log_lock (log g) = Destroyed;
  id_gm : gmlocaltime_lock g = Raw \/ gmlocaltime_lock g = Destroyed;
  id_al : allocation_lock g = Raw \/ allocation_lock g = Destroyed;
  id_sh : mutex_shared_msg g = Raw \/ mutex_shared_msg g = Destroyed;
  id_fp : fp (L (log g)) = None;
  id_files : files (log g) = ∅;
  id_live : live g = 0%nat
}.

(** In between; [f] is the log file. *)
Record running (f : nat) (g : globals) : Prop := {
  ru_log : log_lock (log g) = Unlocked;
  ru_gm : gmlocaltime_lock g = Unlocked;
  ru_al : allocation_lock g = Unlocked;
  ru_sh : mutex_shared_msg g = Unlocked;
  ru_path : is_Some (LOG_PATH g);
  ru_fp : LOG_FP g = Some f /\ fp (L (log g)) = Some f;
  ru_files : exists written, files (log g) = {[ f := written ]};
  ru_live : live g = (1 + if CA_BUNDLE_FILE (attrs g) then 1 else 0)%nat
}.

(** What an application sees of it: the attributes, and what has been logged. *)
Record view := mk_view { v_attrs : attributes; v_level : Z; v_quiet : bool; v_file : list string; v_console : list string }.
Definition view_of (f : nat) (g : globals) : view :=
  mk_view (attrs g) (level (L (log g))) (quiet (L (log g))) (default [] (files (log g) !! f)) (stderr (log g)).

Inductive op := OLog (c : log_call) | OSet (type : SF_GLOBAL_ATTRIBUTE) (value : attr_value) | OLevel (l : Z) | OQuiet (q : bool).

Definition do_op (stale : list ascii) (o : op) (g : globals) : outcome globals :=
  match o with
  | OLog c => write_log stale c g
  | OSet type value => '(_, g) ← snowflake_global_set_attribute type value g; Done g
  | OLevel l => Done (set_log (log_set_level l (log g)) g)
  | OQuiet q => Done (set_log (log_set_quiet q (log g)) g)
  end.
Fixpoint do_ops (stale : list ascii) (ops : list op) (g : globals) : outcome globals :=
  match ops with [] => Done g | o :: ops => g ← do_op stale o g; do_ops stale ops g end.

(** The same on the view: setting is updating a field, logging is appending a line. *)
Definition set_attr (type : SF_GLOBAL_ATTRIBUTE) (value : attr_value) (a : attributes) : attributes :=
  match type, value with
  | SF_GLOBAL_DISABLE_VERIFY_PEER, Bool b => mk_attributes b (CA_BUNDLE_FILE a) (SSL_VERSION a) (DEBUG a) (SF_OCSP_CHECK a)
  | SF_GLOBAL_CA_BUNDLE_FILE, Text s => mk_attributes (DISABLE_VERIFY_PEER a) (Some s) (SSL_VERSION a) (DEBUG a) (SF_OCSP_CHECK a)
  | SF_GLOBAL_CA_BUNDLE_FILE, _ => mk_attributes (DISABLE_VERIFY_PEER a) None (SSL_VERSION a) (DEBUG a) (SF_OCSP_CHECK a)
  | SF_GLOBAL_SSL_VERSION, Int32 n => mk_attributes (DISABLE_VERIFY_PEER a) (CA_BUNDLE_FILE a) n (DEBUG a) (SF_OCSP_CHECK a)
  | SF_GLOBAL_DEBUG, Bool b => mk_attributes (DISABLE_VERIFY_PEER a) (CA_BUNDLE_FILE a) (SSL_VERSION a) b (SF_OCSP_CHECK a)
  | SF_GLOBAL_OCSP_CHECK, Bool b => mk_attributes (DISABLE_VERIFY_PEER a) (CA_BUNDLE_FILE a) (SSL_VERSION a) (DEBUG a) b
  | _, _ => a
  end.
Definition view_op (o : op) (v : view) : view :=
  match o with
  | OLog c =>
      if c_level c <? v_level v then v
      else mk_view (v_attrs v) (v_level v) (v_quiet v) (v_file v ++ [file_line c]) (v_console v ++ if v_quiet v then [] else [console_line c])
  | OSet type value =>
      mk_view (set_attr type value (v_attrs v)) (v_level v)
        (match type, value with SF_GLOBAL_DEBUG, Bool b => negb b | _, _ => v_quiet v end) (v_file v) (v_console v)
  | OLevel l => mk_view (v_attrs v) l (v_quiet v) (v_file v) (v_console v)
  | OQuiet q => mk_view (v_attrs v) (v_level v) q (v_file v) (v_console v)
  end.

(** The value has the type of the attribute; the call can be logged. *)
Definition typed (type : SF_GLOBAL_ATTRIBUTE) (value : attr_value) : Prop :=
  match type, value with
  | (SF_GLOBAL_DISABLE_VERIFY_PEER | SF_GLOBAL_DEBUG | SF_GLOBAL_OCSP_CHECK), Bool _ => True
  | SF_GLOBAL_CA_BUNDLE_FILE, (Text _ | NoValue) => True
  | SF_GLOBAL_SSL_VERSION, Int32 _ => True
  | OtherAttribute _, _ => True
  | _, _ => False
  end.
Definition valid (o : op) : Prop := match o with OLog c => loggable c | OSet type value => typed type value | _ => True end.

Lemma with_lock_ok g : allocation_lock g = Unlocked -> with_allocation_lock g = Done g.
Proof. intros E. unfold with_allocation_lock. rewrite E. destruct g; cbn in *. by subst. Qed.
Lemma calloc_ok g : allocation_lock g = Unlocked -> SF_CALLOC g = Done (set_live (S (live g)) g).
Proof. intros E. unfold SF_CALLOC. by rewrite with_lock_ok. Qed.
Lemma free_ok p g : allocation_lock g = Unlocked -> SF_FREE p g = Done (if p then set_live (pred (live g)) g else g).
Proof. intros E. destruct p; cbn; [|done]. by rewrite with_lock_ok. Qed.

Lemma alloc_buffer_ok var str g n : allocation_lock g = Unlocked -> live g = (1 + (if var : option string then 1 else 0) + n)%nat ->
  alloc_buffer_and_copy var str g = Done (str, set_live (1 + (if str then 1 else 0) + n)%nat g).
Proof.
  intros E Hl. unfold alloc_buffer_and_copy. rewrite free_ok, bind_Done_l by done. destruct str as [s|].
  - rewrite calloc_ok by (by destruct var). rewrite bind_Done_l. destruct var; unfold set_live; cbn [live]; rewrite Hl; cbn; done.
  - destruct var; unfold set_live; cbn [live]; rewrite ?Hl; cbn; [done|]. do 2 f_equal. destruct g; cbn in *. by subst.
Qed.

Lemma write_log_ok stale c f g : length stale = 50%nat -> loggable c -> running f g ->
  exists g', write_log stale c g = Done g' /\ running f g' /\ view_of f g' = view_op (OLog c) (view_of f g) /\ saved g' = saved g.
Proof.
  intros Hst Hc Hr. destruct Hr as [H1 H2 H3 H4 H5 [H6 H7] [written H8] H9]. unfold write_log.
  rewrite (log_log_ok stale c (log g) f written) by (try done; by rewrite H8, lookup_singleton_eq). rewrite bind_Done_l. eexists. split; [done|].
  unfold view_of, view_op. cbn [v_level v_attrs v_quiet v_file v_console]. destruct (c_level c <? level (L (log g))).
  - split; [|by destruct g]. constructor; try done. by exists written.
  - split; [|cbn [attrs set_log log level quiet L stderr files]; by rewrite H8, lookup_insert_eq, lookup_singleton_eq].
    constructor; try done. cbn. eexists. by rewrite H8, insert_singleton_eq.
Qed.

Lemma op_ok stale o f g : length stale = 50%nat -> valid o -> running f g ->
  exists g', do_op stale o g = Done g' /\ running f g' /\ view_of f g' = view_op o (view_of f g) /\ saved g' = saved g.
Proof.
  intros Hst Hv Hr. destruct o as [c|type value|l|q]; cbn [do_op].
  - by apply write_log_ok.
  - destruct Hr as [H1 H2 H3 H4 H5 H6 H7 H8]. unfold snowflake_global_set_attribute.
    destruct type, value; try done; cbn [as_bool as_int as_text]; rewrite ?bind_Done_l; cbn beta iota;
      try (eexists; split; [reflexivity|]; split; [constructor; done|]; done).
    + rewrite (alloc_buffer_ok _ None g 0 H3) by (rewrite H8; lia). rewrite !bind_Done_l. cbn beta iota. rewrite ?bind_Done_l.
      eexists. split; [reflexivity|]. split; [by constructor|done].
    + rewrite (alloc_buffer_ok _ (Some s) g 0 H3) by (rewrite H8; lia). rewrite !bind_Done_l. cbn beta iota. rewrite ?bind_Done_l.
      eexists. split; [reflexivity|]. split; [by constructor|done].
  - eexists. split; [done|]. destruct Hr as [H1 H2 H3 H4 H5 H6 H7 H8]. split; [by constructor|done].
  - eexists. split; [done|]. destruct Hr as [H1 H2 H3 H4 H5 H6 H7 H8]. split; [by constructor|done].
Qed.

Lemma ops_ok stale ops f : length stale = 50%nat -> Forall valid ops -> forall g, running f g ->
  exists g', do_ops stale ops g = Done g' /\ running f g' /\ view_of f g' = foldl (fun v o => view_op o v) (view_of f g) ops /\ saved g' = saved g.
Proof.
  intros Hst. induction 1 as [|o ops Ho _ IH]; intros g Hr; [by exists g|]. cbn [do_ops foldl].
  destruct (op_ok stale o f g Hst Ho Hr) as (g1 & -> & Hr1 & Hv1 & Hs1). rewrite bind_Done_l.
  destruct (IH g1 Hr1) as (g2 & -> & Hr2 & Hv2 & Hs2). exists g2. split_and!; [done|done| |by rewrite Hs2]. by rewrite Hv2, Hv1.
Qed.

(** A system on which the library starts: directories and file can be made, curl starts,
    the clock stands in the years 1000 to 9999. *)
Definition starts (env : environment) (log_path : option string) : Prop :=
  (forall d, sf_mkdir env d <> Refused) /\ (forall p, fopen env p = true) /\ curl_starts env = true /\
  (exists t, localtime_in (local_zone env) (now env) = Some t /\ 1000 <= tm_year t + 1900 <= 9999) /\
  match getenv env "SNOWFLAKE_LOG_PATH" with Some p => strlen p < 2 ^ 60 | None => match log_path with Some p => strlen p < 2 ^ 60 | None => True end end.

Definition start_level (env : environment) (log_level : Z) : Z :=
  match getenv env "SNOWFLAKE_LOG_LEVEL" with Some s => log_from_str_to_level (Some s) | None => log_level end.
Definition start_view (env : environment) (log_level : Z) (console : list string) : view :=
  mk_view (mk_attributes false None CURL_SSLVERSION_TLSv1_2 false true) (start_level env log_level) true [] console.

Lemma compact_length t : canonical_tm t -> 1000 <= tm_year t + 1900 <= 9999 -> (String.length (strftime_compact t) <= 14)%nat.
Proof.
  intros [H1 H2 H3 H4 H5] Hy. unfold strftime_compact. rewrite !str_length_app, !fmt_0d_length by (cbn; lia).
  unfold fmt_d. destruct (_ <? 0) eqn:E; [lia|]. pose proof (dec_length (tm_year t + 1900) 3 ltac:(cbn; lia)). lia.
Qed.

Lemma mutex_init_ok m : m = Raw \/ m = Destroyed -> _mutex_init m = Done Unlocked.
Proof. by intros [-> | ->]. Qed.

Lemma log_init_ok env log_path log_level g : starts env log_path ->
  (log_lock (log g) = Raw \/ log_lock (log g) = Destroyed) -> (gmlocaltime_lock g = Raw \/ gmlocaltime_lock g = Destroyed) -> allocation_lock g = Unlocked ->
  exists path, log_init env log_path log_level g = Done (true,
    mk_globals (attrs g) (global_hooks g) (Some path) (Some (next_file g))
      (mk_log (mk_logger (udata (L (log g))) true (Some (next_file g)) (start_level env log_level) (negb (DEBUG (attrs g)))) Unlocked
        (stderr (log g)) (<[next_file g := []]> (files (log g))))
      (S (next_file g)) (saved g) Unlocked Unlocked (mutex_shared_msg g) (S (live g))).
Proof.
  intros (Hmk & Hop & _ & (t & Et & Hy) & Hp) Hl Hg Ha. unfold log_init. rewrite !mutex_init_ok by done. rewrite !bind_Done_l, Et. cbn [deref]. rewrite bind_Done_l.
  destruct (broken_down_seconds _ _ _ _ Et) as (_ & Hc & _). pose proof (compact_length t Hc Hy) as Hlen.
  rewrite (proj2 (Z.leb_le _ _)) by (unfold strlen; lia). rewrite bind_Done_l. cbv zeta. rewrite calloc_ok by done. rewrite bind_Done_l.
  set (path := log_file_path _ _). assert (path <> EmptyString) as Hne.
  { unfold path. rewrite log_file_path_whole by (destruct (getenv env "SNOWFLAKE_LOG_PATH"); done). destruct (match getenv env "SNOWFLAKE_LOG_PATH" with Some p => Some p | None => log_path end) as [[|]|]; done. }
  exists path. rewrite mkpath_ok, ask_granted by (done || auto). rewrite bind_Done_l. cbv beta iota. change (0 =? -1) with false. cbv iota. rewrite Hop.
  unfold open_log. cbn [LOG_FP]. unfold start_level. cbn. by rewrite Ha.
Qed.

Lemma init_ok stale env log_path log_level h g : starts env log_path -> idle g ->
  exists g', snowflake_global_init stale env log_path log_level h g = Done (SF_STATUS_SUCCESS, g') /\
    running (next_file g) g' /\ view_of (next_file g) g' = start_view env log_level (stderr (log g)) /\ saved g' = saved g.
Proof.
  intros Hs [H1 H2 H3 H4 H5 H6 H7]. unfold snowflake_global_init, sf_memory_init, sf_error_init. cbn [allocation_lock mutex_shared_msg set_hooks set_attrs set_locks].
  rewrite (mutex_init_ok (allocation_lock g)) by done. rewrite !bind_Done_l. cbn [mutex_shared_msg set_locks]. rewrite mutex_init_ok by done. rewrite !bind_Done_l.
  edestruct (log_init_ok env log_path log_level) as (path & ->); [done| | | |]; cbn [log gmlocaltime_lock allocation_lock set_hooks set_attrs set_locks]; [done..|].
  rewrite bind_Done_l. cbn beta iota. destruct Hs as (_ & _ & -> & _). cbn [negb]. eexists. split; [reflexivity|]. cbn.
  rewrite H6, H7. split; [constructor; cbn; try done; by exists []|]. split; [|done]. unfold view_of, start_view. cbn. by rewrite lookup_insert_eq.
Qed.

Lemma log_term_ok a h path f l ar written next sv sh n :
  log_term (mk_globals a h (Some path) (Some f) (mk_log l Unlocked ar {[ f := written ]}) next sv Unlocked Unlocked sh n) =
    Done (mk_globals a h None (Some f) (mk_log (mk_logger (udata l) (lock l) None (level l) (quiet l)) Destroyed ar ∅) next (sv ++ [written]) Destroyed Unlocked sh (pred n)).
Proof.
  unfold log_term, SF_FREE, with_allocation_lock, fclose. cbn. rewrite lookup_singleton_eq. cbn. by rewrite delete_singleton_eq.
Qed.

Lemma term_ok stale warning f g : running f g ->
  exists g', snowflake_global_term stale warning g = Done (SF_STATUS_SUCCESS, g') /\ idle g' /\
    saved g' = saved g ++ [v_file (view_of f g)] /\ stderr (log g') = v_console (view_of f g).
Proof.
  intros [H1 H2 H3 H4 [path H5] [H6 H6'] [written H7] H8]. unfold snowflake_global_term. rewrite free_ok, bind_Done_l by done.
  set (g0 := set_attrs _ _).
  assert (g0 = mk_globals (attrs g0) (global_hooks g) (Some path) (Some f) (mk_log (L (log g)) Unlocked (stderr (log g)) {[ f := written ]}) (next_file g) (saved g)
    Unlocked Unlocked Unlocked 1) as ->.
  { unfold g0. destruct (CA_BUNDLE_FILE (attrs g)); destruct g as [? ? ? ? []]; cbn in *; subst; done. }
  rewrite log_term_ok, bind_Done_l. cbn. eexists. split; [reflexivity|]. unfold view_of. cbn. rewrite H7, lookup_singleton_eq. split; [|done].
  constructor; cbn; try (by right); done.
Qed.

(** C40: A session with the library.  On a system where it can start, snowflake_global_init
    succeeds; then whatever attributes are set and lines logged, in any order, each call
    is defined and acts on the attributes and the log as [view_op] says: an attribute is
    the last value set, the log file has exactly the lines of the calls at the level in
    force or above it, in order, and the console those of them made while the log was not
    quiet; snowflake_global_term then succeeds, frees every block the library took, closes
    the file with those lines in it and leaves a state in which the library can be started
    again. *)
Theorem library_session stale warning env log_path log_level h ops g :
  length stale = 50%nat -> idle g -> starts env log_path -> Forall valid ops ->
  let v := foldl (fun v o => view_op o v) (start_view env log_level (stderr (log g))) ops in
  exists g1 g2 g3,
    snowflake_global_init stale env log_path log_level h g = Done (SF_STATUS_SUCCESS, g1) /\
    do_ops stale ops g1 = Done g2 /\ attrs g2 = v_attrs v /\ live g2 = (1 + if CA_BUNDLE_FILE (attrs g2) then 1 else 0)%nat /\
    snowflake_global_term stale warning g2 = Done (SF_STATUS_SUCCESS, g3) /\ idle g3 /\
    saved g3 = saved g ++ [v_file v] /\ stderr (log g3) = v_console v.
Proof.
  intros Hst Hi Hs Hops v. destruct (init_ok stale env log_path log_level h g Hs Hi) as (g1 & E1 & Hr1 & Hv1 & Hs1).
  destruct (ops_ok stale ops _ Hst Hops g1 Hr1) as (g2 & E2 & Hr2 & Hv2 & Hs2). rewrite Hv1 in Hv2. fold v in Hv2.
  destruct (term_ok stale warning _ g2 Hr2) as (g3 & E3 & Hi3 & Hs3 & Hc3). exists g1, g2, g3.
  rewrite Hs3, Hc3, Hs2, Hs1, <- Hv2. split_and!; try done. apply Hr2.
Qed.

(** An attribute reads back as it was set, a text into any array it fits. *)
Lemma get_after_set type value g g' : typed type value -> snowflake_global_set_attribute type value g = Done (SF_STATUS_SUCCESS, g') ->
  match type, value with
  | SF_GLOBAL_CA_BUNDLE_FILE, Text s => forall b, no_nul s = true -> (String.length s + 1 <= length b)%nat ->
      exists b', snowflake_global_get_attribute type (BytesAt b) g' = Done (SF_STATUS_SUCCESS, BytesAt b') /\ c_string b' = Some s
  | SF_GLOBAL_CA_BUNDLE_FILE, _ => forall b, snowflake_global_get_attribute type (BytesAt b) g' = Done (SF_STATUS_SUCCESS, BytesAt b)
  | _, Bool b => forall old, snowflake_global_get_attribute type (BoolAt old) g' = Done (SF_STATUS_SUCCESS, BoolAt (match type with OtherAttribute _ => old | _ => b end))
  | _, Int32 n => forall old, snowflake_global_get_attribute type (Int32At old) g' = Done (SF_STATUS_SUCCESS, Int32At (match type with OtherAttribute _ => old | _ => n end))
  | _, _ => True
  end.
Proof.
  unfold snowflake_global_set_attribute, alloc_buffer_and_copy. destruct type, value; try done; cbn [typed as_bool as_int as_text]; intros _ E; try (by injection E as <-).
  - cbn in E. destruct (SF_FREE _ g) as [g1| |]; [|done..]. injection E as <-. done.
  - cbn in E. destruct (SF_FREE _ g) as [g1| |]; [|done..]. cbn in E. destruct (SF_CALLOC g1) as [g2| |]; [|done..]. injection E as <-.
    intros b Hs Hl. unfold snowflake_global_get_attribute. cbn. destruct (put_start s b Hs Hl) as (b' & -> & Hb'). cbn. eexists. split; [done|]. by eapply block_c_string.
Qed.

(** *** Examples *)

Definition fresh_logger : logger := mk_logger 0 false None 0 false.
Definition fresh_globals : globals :=
  mk_globals (mk_attributes false None 0 false false) (mk_hooks Libc Libc Libc Libc) None None (mk_log fresh_logger Raw [] ∅) 0 [] Raw Raw Raw 0.
Definition no_call : log_call := mk_call SF_LOG_FATAL "client.c" 483 "C" "curl_global_init() failed" 0 0.
Definition sample_env (mk : mkdir_answer) : environment :=
  mk_env (fun v => if String.eqb v "SNOWFLAKE_LOG_LEVEL" then Some "warn" else None) (fun _ => mk) (fun _ => true) (fixed_zone 0) 1525478400 "Permission denied" true no_call.
Definition call_at (level : Z) (message : string) : log_call := mk_call level "/src/lib/client.c" 7 "C" message 1525478400 123456.
Definition sample_ops : list op :=
  [OLog (call_at SF_LOG_INFO "one"); OLog (call_at SF_LOG_ERROR "two"); OSet SF_GLOBAL_CA_BUNDLE_FILE (Text "/ca.pem"); OSet SF_GLOBAL_DEBUG (Bool true);
   OLevel SF_LOG_TRACE; OLog (call_at SF_LOG_DEBUG "three")].

Lemma library_session_witness :
  exists g1 g2 g3, snowflake_global_init (replicate 50 (chr 0)) (sample_env Made) (Some "/var/log") SF_LOG_FATAL None fresh_globals = Done (SF_STATUS_SUCCESS, g1) /\
    do_ops (replicate 50 (chr 0)) sample_ops g1 = Done g2 /\ CA_BUNDLE_FILE (attrs g2) = Some "/ca.pem" /\
    snowflake_global_term (replicate 50 (chr 0)) (fun _ => no_call) g2 = Done (SF_STATUS_SUCCESS, g3) /\
    saved g3 = [["2018-05-05 00:00:00.123 ERROR C     client.c            7: two"; "2018-05-05 00:00:00.123 DEBUG C     client.c            7: three"]] /\
    length (stderr (log g3)) = 1%nat.
Proof.
  assert (loggable (call_at SF_LOG_INFO "one") /\ loggable (call_at SF_LOG_ERROR "two") /\ loggable (call_at SF_LOG_DEBUG "three")) as (L1 & L2 & L3).
  { repeat split; try (vm_compute; congruence); (eexists; split; [vm_compute; reflexivity|vm_compute; split; congruence]). }
  destruct (library_session (replicate 50 (chr 0)) (fun _ => no_call) (sample_env Made) (Some "/var/log") SF_LOG_FATAL None sample_ops fresh_globals)
    as (g1 & g2 & g3 & E1 & E2 & E3 & _ & E4 & _ & E5 & E6).
  - reflexivity.
  - constructor; try (by left); reflexivity.
  - split_and!; try done. eexists. split; [vm_compute; reflexivity|vm_compute; split; congruence].
  - repeat (apply Forall_cons; split; [first [assumption|exact I]|]). apply Forall_nil. exact I.
  - exists g1, g2, g3. rewrite E3, E5, E6. split_and!; [exact E1|exact E2|reflexivity|exact E4|vm_compute; reflexivity|vm_compute; reflexivity].
Defined.

(** A block the application did not give back: the report at the end locks the mutex of
    the log that log_term has destroyed. *)
Definition leaky : globals :=
  match snowflake_global_init (replicate 50 (chr 0)) (sample_env Made) None SF_LOG_FATAL None fresh_globals with Done (_, g) => set_live (S (live g)) g | _ => fresh_globals end.
Example leak_report_undefined : snowflake_global_term (replicate 50 (chr 0)) (fun i => call_at SF_LOG_WARN "Unallocated") leaky = Undef.
Proof. vm_compute. reflexivity. Qed.

(** A second start that cannot make its directory leaves the FILE of the first in place;
    the end that follows closes it again. *)
Definition after_first : globals :=
  match snowflake_global_init (replicate 50 (chr 0)) (sample_env Made) None SF_LOG_FATAL None fresh_globals with
  | Done (_, g) => match snowflake_global_term (replicate 50 (chr 0)) (fun _ => no_call) g with Done (_, g) => g | _ => fresh_globals end
  | _ => fresh_globals
  end.
Definition second_start : globals :=
  match snowflake_global_init (replicate 50 (chr 0)) (sample_env Refused) None SF_LOG_FATAL None after_first with Done (_, g) => g | _ => fresh_globals end.
Example closed_twice : LOG_FP second_start = Some 0%nat /\ snowflake_global_term (replicate 50 (chr 0)) (fun _ => no_call) second_start = Undef.
Proof. split; vm_compute; reflexivity. Qed.

(** Starting again without an end initialises mutexes that are in use. *)
Example started_twice : snowflake_global_init (replicate 50 (chr 0)) (sample_env Made) None SF_LOG_FATAL None leaky = Undef.
Proof. vm_compute. reflexivity. Qed.
