(* ===== verification/PutGet.v ===== *)
(** * lib/platform.c (364-380) and lib/client.c (1118-1167, 1659-1739): file transfer
    commands.

    [_is_put_get_command] matches a POSIX regular expression.  [re] are such expressions
    over characters; [matches] decides by derivatives what [denotes] specifies.  The
    answer to a file transfer command is read into an SF_PUT_GET_RESPONSE. *)

From S2P Require Import Prelude CLib CFloat Status CJson ArrayList JsonHelpers.

(** ** Regular expressions *)

Inductive re :=
| RNone | REmpty
| RChar (p : ascii -> bool)
| RSeq (a b : re) | RAlt (a b : re) | RStar (a : re).

(** The strings an expression matches. *)
Inductive denotes : re -> string -> Prop :=
| DEmpty : denotes REmpty EmptyString
| DChar p c : p c = true -> denotes (RChar p) (String c EmptyString)
| DSeq a b s t : denotes a s -> denotes b t -> denotes (RSeq a b) (s +:+ t)
| DLeft a b s : denotes a s -> denotes (RAlt a b) s
| DRight a b s : denotes b s -> denotes (RAlt a b) s
| DStar0 a : denotes (RStar a) EmptyString
| DStar a s t : denotes a s -> denotes (RStar a) t -> denotes (RStar a) (s +:+ t).

Fixpoint nullable (r : re) : bool :=
  match r with
  | RNone | RChar _ => false
  | REmpty | RStar _ => true
  | RSeq a b => nullable a && nullable b
  | RAlt a b => nullable a || nullable b
  end.

(** Sequences and alternatives without the parts that match nothing. *)
Definition seq (a b : re) : re := match a, b with RNone, _ | _, RNone => RNone | REmpty, b => b | a, b => RSeq a b end.
Definition alt (a b : re) : re := match a, b with RNone, b => b | a, RNone => a | a, b => RAlt a b end.

Fixpoint derive (c : ascii) (r : re) : re :=
  match r with
  | RNone | REmpty => RNone
  | RChar p => if p c then REmpty else RNone
  | RSeq a b => if nullable a then alt (seq (derive c a) b) (derive c b) else seq (derive c a) b
  | RAlt a b => alt (derive c a) (derive c b)
  | RStar a => seq (derive c a) (RStar a)
  end.

Fixpoint matches (r : re) (s : string) : bool :=
  match s with EmptyString => nullable r | String c s => matches (derive c r) s end.

Lemma seq_denotes a b s : denotes (seq a b) s <-> denotes (RSeq a b) s.
Proof.
  split.
  - intros H. destruct a, b; cbn in H; try exact H; try (by inversion H); by apply (DSeq REmpty _ EmptyString s); [constructor|].
  - intros H. inversion H as [| |? ? s1 s2 H1 H2| | | |]; subst. destruct a, b; cbn; try exact H; try (by inversion H1); try (by inversion H2);
      inversion H1; subst; by cbn.
Qed.

Lemma alt_denotes a b s : denotes (alt a b) s <-> denotes (RAlt a b) s.
Proof.
  split.
  - intros H. destruct a, b; cbn in H; try exact H; try (by inversion H); first [by apply DRight|by apply DLeft].
  - intros H. inversion H as [| | |? ? ? H1|? ? ? H1| |]; subst; destruct a, b; cbn; try exact H; try exact H1; by inversion H1.
Qed.

Lemma nullable_denotes r : nullable r = true <-> denotes r EmptyString.
Proof.
  induction r as [| |p|a IHa b IHb|a IHa b IHb|a IHa]; cbn.
  - split; [done|]. intros H; inversion H.
  - split; [constructor|done].
  - split; [done|]. intros H; inversion H.
  - rewrite andb_true_iff, IHa, IHb. split; [by intros [H1 H2]; apply (DSeq a b EmptyString EmptyString)|].
    intros H. inversion H as [| |? ? s t H1 H2| | | |]; subst. destruct s; [|done]. cbn in *. by subst.
  - rewrite orb_true_iff, IHa, IHb. split; [by intros [H|H]; [apply DLeft|apply DRight]|]. intros H. inversion H; auto.
  - split; [constructor|done].
Qed.

(** A match of a repetition that is not empty starts with one that is not empty. *)
Lemma star_split a s : denotes (RStar a) s -> forall c0 t0, s = String c0 t0 ->
  exists u v, t0 = u +:+ v /\ denotes a (String c0 u) /\ denotes (RStar a) v.
Proof.
  remember (RStar a) as r eqn:Er. induction 1 as [| | | | | |a' s t Ha _ Ht IH]; intros c0 u0 E; try done. injection Er as ->.
  destruct s as [|d s]; cbn in E; [by apply IH|]. injection E as -> <-. by exists s, t.
Qed.

Lemma derive_denotes c r : forall s, denotes (derive c r) s <-> denotes r (String c s).
Proof.
  induction r as [| |p|a IHa b IHb|a IHa b IHb|a IHa]; intros s; cbn.
  - split; intros H; inversion H.
  - split; intros H; inversion H.
  - destruct (p c) eqn:Ep.
    + split; intros H; inversion H; subst; constructor. done.
    + split; intros H; inversion H; congruence.
  - assert (denotes (RSeq (derive c a) b) s <-> exists u v, s = u +:+ v /\ denotes a (String c u) /\ denotes b v) as H1.
    { split; [intros H; inversion H as [| |? ? u v Hu Hv| | | |]; subst; exists u, v; by rewrite <- IHa|].
      intros (u & v & -> & Hu & Hv). by apply DSeq; [apply IHa|]. }
    assert (denotes (RSeq a b) (String c s) <-> (exists u v, s = u +:+ v /\ denotes a (String c u) /\ denotes b v) \/ (nullable a = true /\ denotes b (String c s))) as ->.
    { rewrite nullable_denotes. split.
      - intros H. inversion H as [| |? ? u v Hu Hv E1 E2| | | |]; subst. destruct u as [|d u]; cbn in *; [right; by subst|].
        left. exists u, v. by simplify_eq.
      - intros [(u & v & -> & Hu & Hv)|[Hu Hv]]; [by apply (DSeq a b (String c u) v)|by apply (DSeq a b EmptyString)]. }
    destruct (nullable a).
    + rewrite alt_denotes. split.
      * intros H. inversion H as [| | |? ? ? Hl|? ? ? Hl| |]; subst; [left; by apply H1, seq_denotes|right; by rewrite <- IHb].
      * intros [H|[_ H]]; [by apply DLeft, seq_denotes, H1|by apply DRight, IHb].
    + rewrite seq_denotes, H1. split; [by left|by intros [H|[[=] _]]].
  - rewrite alt_denotes. split; intros H; inversion H; subst; first [by apply DLeft, IHa|by apply DRight, IHb].
  - rewrite seq_denotes. split.
    + intros H. inversion H as [| |? ? u v Hu Hv| | | |]; subst. by apply (DStar a (String c u) v); [apply IHa|].
    + intros H. destruct (star_split _ _ H c s eq_refl) as (u & v & -> & Hu & Hv). by apply DSeq; [apply IHa|].
Qed.

Lemma matches_denotes s : forall r, matches r s = true <-> denotes r s.
Proof. induction s as [|c s IH]; intros r; cbn; [apply nullable_denotes|by rewrite IH, derive_denotes]. Qed.

(** ** The commands *)

Definition any : ascii -> bool := fun _ => true.
Definition space : ascii -> bool := fun c => Ascii.eqb c " ".
(** Letters match in either case. *)
Fixpoint lit (s : string) : re :=
  match s with EmptyString => REmpty | String c s => RSeq (RChar (fun d => Ascii.eqb (tolower d) (tolower c))) (lit s) end.

(** "^([ ]*\/\*.*\*\/[ ]*)*([ ]*)*(put|get)[ ]+" and whatever follows. *)
Definition comment_re : re := RSeq (RStar (RChar space)) (RSeq (lit "/*") (RSeq (RStar (RChar any)) (RSeq (lit "*/") (RStar (RChar space))))).
Definition put_get_regex : re :=
  RSeq (RStar comment_re) (RSeq (RStar (RStar (RChar space))) (RSeq (RAlt (lit "put") (lit "get"))
    (RSeq (RSeq (RChar space) (RStar (RChar space))) (RStar (RChar any))))).

Definition _is_put_get_command (sql_text : option string) : outcome bool := s ← deref sql_text; Done (matches put_get_regex s).

Fixpoint spaces (n : nat) : string := match n with O => EmptyString | S n => String " " (spaces n) end.
(** The text in lower case. *)
Fixpoint lower_string (s : string) : string := match s with EmptyString => EmptyString | String c s => String (tolower c) (lower_string s) end.

Lemma any_denotes s : denotes (RStar (RChar any)) s.
Proof. induction s as [|c s IH]; [constructor|]. by apply (DStar _ (String c EmptyString) s); [constructor|]. Qed.

Lemma spaces_denotes s : denotes (RStar (RChar space)) s <-> exists n, s = spaces n.
Proof.
  split.
  - remember (RStar (RChar space)) as r eqn:Er. induction 1 as [| | | | | |a s t Ha _ Ht IH]; try done; [by exists O|]. injection Er as ->.
    destruct (IH eq_refl) as [n ->]. inversion Ha as [|? c Hc| | | | |]; subst. unfold space in Hc. apply Ascii.eqb_eq in Hc as ->. by exists (S n).
  - intros [n ->]. induction n as [|n IH]; [constructor|]. by apply (DStar _ (String " " EmptyString) (spaces n)); [constructor|].
Qed.

Lemma spaces_app n m : spaces n +:+ spaces m = spaces (n + m).
Proof. induction n; cbn; [done|by f_equal]. Qed.

Lemma many_spaces_denotes s : denotes (RStar (RStar (RChar space))) s <-> exists n, s = spaces n.
Proof.
  split.
  - remember (RStar (RStar (RChar space))) as r eqn:Er. induction 1 as [| | | | | |a s t Ha _ Ht IH]; try done; [by exists O|]. injection Er as ->.
    destruct (IH eq_refl) as [n ->]. apply spaces_denotes in Ha as [m ->]. exists (m + n)%nat. apply spaces_app.
  - intros H. rewrite <- (str_app_nil_r s). apply DStar; [by apply spaces_denotes|constructor].
Qed.

Lemma lit_denotes w s : denotes (lit w) s <-> lower_string s = lower_string w.
Proof.
  revert s. induction w as [|c w IH]; intros s; cbn.
  - split; [intros H; by inversion H|]. destruct s; [constructor|done].
  - split.
    + intros H. inversion H as [| |? ? u v Hu Hv| | | |]; subst. inversion Hu as [|? d Hd| | | | |]; subst. apply Ascii.eqb_eq in Hd. cbn. rewrite Hd. f_equal. by apply IH.
    + destruct s as [|d s]; [done|]. cbn. intros [= Hd Hs]. apply (DSeq _ _ (String d EmptyString) s); [|by apply IH].
      constructor. by apply Ascii.eqb_eq.
Qed.

(** A text that is its own lower case is matched by itself alone when it has no letters. *)
Lemma lit_comment_denotes w s : w = "/*" \/ w = "*/" -> denotes (lit w) s <-> s = w.
Proof.
  intros Hw. rewrite lit_denotes. split; [|by intros ->].
  assert (forall c, tolower c = "/"%char -> c = "/"%char) as H1 by (intros [[] [] [] [] [] [] [] []]; cbv; congruence).
  assert (forall c, tolower c = "*"%char -> c = "*"%char) as H2 by (intros [[] [] [] [] [] [] [] []]; cbv; congruence).
  destruct Hw as [-> | ->]; destruct s as [|c [|d [|]]]; try done; cbn [lower_string]; intros [= Hc Hd]; f_equal; try f_equal; auto.
Qed.

Lemma seq_parts a b s : denotes (RSeq a b) s <-> exists u v, s = u +:+ v /\ denotes a u /\ denotes b v.
Proof. split; [intros H; inversion H as [| |? ? u v Hu Hv| | | |]; by exists u, v|]. intros (u & v & -> & Hu & Hv). by apply DSeq. Qed.

Lemma alt_words w w' s : denotes (RAlt (lit w) (lit w')) s <-> lower_string s = lower_string w \/ lower_string s = lower_string w'.
Proof.
  rewrite <- !lit_denotes. split; [intros H; inversion H; auto|by intros [H|H]; [apply DLeft|apply DRight]].
Qed.

Definition commented (s : string) : Prop := exists n x m, s = spaces n +:+ "/*" +:+ x +:+ "*/" +:+ spaces m.

Lemma comment_denotes s : denotes comment_re s <-> commented s.
Proof.
  unfold comment_re, commented. split.
  - intros (u1 & v1 & -> & Hu1 & (u2 & v2 & -> & Hu2 & (u3 & v3 & -> & Hu3 & (u4 & v4 & -> & Hu4 & Hv4)%seq_parts)%seq_parts)%seq_parts)%seq_parts.
    apply spaces_denotes in Hu1 as [n ->]. apply spaces_denotes in Hv4 as [m ->]. apply lit_comment_denotes in Hu2 as ->; [|by left].
    apply lit_comment_denotes in Hu4 as ->; [|by right]. by exists n, u3, m.
  - intros (n & x & m & ->). repeat apply DSeq; try (apply spaces_denotes; by eexists); [|apply any_denotes|]; apply lit_comment_denotes; auto.
Qed.

(** Several comments in a row are one: anything may stand inside. *)
Lemma comments_denotes s : denotes (RStar comment_re) s <-> s = EmptyString \/ commented s.
Proof.
  split.
  - remember (RStar comment_re) as r eqn:Er. induction 1 as [| | | | | |a s t Ha _ Ht IH]; try done; [by left|]. injection Er as ->.
    apply comment_denotes in Ha as (n & x & m & ->). right. destruct (IH eq_refl) as [-> | (n' & x' & m' & ->)].
    + exists n, x, m. by rewrite !str_app_nil_r.
    + exists n, (x +:+ "*/" +:+ spaces m +:+ spaces n' +:+ "/*" +:+ x'), m'. by rewrite !str_app_assoc.
  - intros [-> |H]; [constructor|]. rewrite <- (str_app_nil_r s). apply DStar; [by apply comment_denotes|constructor].
Qed.

(** C38: A text is taken for a file transfer command exactly when, after spaces, PUT or GET
    in any case and a space follow, or when such a word follows any closing comment
    delimiter of a text that starts with a comment, wherever it stands. *)
Theorem put_get_recognised s :
  _is_put_get_command (Some s) = Done true <->
  exists pre n word rest, s = pre +:+ spaces n +:+ word +:+ " " +:+ rest /\ (pre = EmptyString \/ commented pre) /\
    (lower_string word = "put" \/ lower_string word = "get").
Proof.
  unfold _is_put_get_command. cbn [deref]. rewrite bind_Done_l. transitivity (matches put_get_regex s = true); [split; congruence|].
  rewrite matches_denotes. unfold put_get_regex. split.
  - intros (pre & v1 & -> & Hu1 & (u2 & v2 & -> & Hu2 & (word & v3 & -> & Hu3 & (u4 & v4 & -> & (u5 & v5 & -> & Hu5 & Hv5)%seq_parts & Hv4)%seq_parts)%seq_parts)%seq_parts)%seq_parts.
    inversion Hu5 as [|? c Hc| | | | |]; subst. apply Ascii.eqb_eq in Hc as ->.
    apply many_spaces_denotes in Hu2 as [n ->]. apply comments_denotes in Hu1. exists pre, n, word, (v5 +:+ v4).
    split; [by rewrite <- (str_app_assoc _ v5 v4)|]. split; [done|]. by apply (alt_words "put" "get").
  - intros (pre & n & word & rest & -> & Hpre & Hw). apply DSeq; [by apply comments_denotes|]. apply DSeq; [apply many_spaces_denotes; by eexists|].
    apply DSeq; [by apply alt_words|]. apply (DSeq _ _ " " rest); [|apply any_denotes].
    apply (DSeq _ _ (String " " EmptyString) EmptyString); constructor. done.
Qed.

(** Not a file transfer: the word stands in a string. *)
Example put_in_a_string : _is_put_get_command (Some "/* c */ select '*/ get it'") = Done true.
Proof. reflexivity. Qed.
(** A new line before the word hides it. *)
Example put_after_newline : _is_put_get_command (Some (String (chr 10) "put file:///a @~")) = Done false.
Proof. reflexivity. Qed.

(** ** The answer to such a command *)

Definition SF_SOURCE_COMPRESSION_TYPE_LEN : nat := 15.
Definition SF_COMMAND_LEN : nat := 10.

Record SF_ENC_MAT := mk_enc_mat { query_stage_master_key : option string; query_id : string; smk_id : Z }.
Record SF_STAGE_CRED := mk_stage_cred { aws_key_id : option string; aws_secret_key : option string; aws_token : option string }.
Record SF_STAGE_INFO := mk_stage_info {
  location_type : option string;
  location : option string;
  path : option string;
  region : option string;
  stage_cred : SF_STAGE_CRED
}.
Record SF_PUT_GET_RESPONSE := mk_put_get {
  src_list : option cJSON;
  parallel : Z;
  auto_compress : bool;
  overwrite : bool;
  source_compression : string;
  client_show_encryption_param : bool;
  command : string;
  enc_mat_put : SF_ENC_MAT;
  enc_mat_get : option cJSON;
  stage_info : SF_STAGE_INFO;
  localLocation : option string
}.

(** Everything is zero. *)
Definition sf_put_get_response_allocate : SF_PUT_GET_RESPONSE :=
  mk_put_get None 0 false false EmptyString false EmptyString (mk_enc_mat None EmptyString 0) None
    (mk_stage_info None None None None (mk_stage_cred None None None)) None.

(** json_copy_string_no_alloc into an array of [size] bytes that holds [dest]. *)
Definition copy_array (size : nat) (dest : string) (data : option cJSON) (item : string) : outcome (SF_JSON_ERROR * string) :=
  '(e, block) ← json_copy_string_no_alloc (strncpy_bytes dest size) data item size;
  s ← deref (c_string block);
  Done (e, s).

(** The codes of the reads are ignored: what is missing stays zero. *)
Definition read_text (data : option cJSON) (item : string) : outcome (option string) := '(_, v) ← json_copy_string None data item; Done v.
Definition read_field (size : nat) (data : option cJSON) (item : string) : outcome string := '(_, v) ← copy_array size EmptyString data item; Done v.
Definition read_int (data : option cJSON) (item : string) : outcome Z := '(_, v) ← json_copy_int 0 data item; Done v.
Definition read_bool (data : option cJSON) (item : string) : bool := snd (json_copy_bool false data item).

Definition read_enc_mat (data : option cJSON) : outcome (SF_ENC_MAT * option cJSON) :=
  let enc_mat := snowflake_cJSON_GetObjectItem data "encryptionMaterial" in
  if snowflake_cJSON_IsArray enc_mat then
    Done (enc_mat_put sf_put_get_response_allocate, d_dest (json_detach_array_from_object None data "encryptionMaterial"))
  else
    key ← read_text enc_mat "queryStageMasterKey";
    id ← read_field SF_UUID4_LEN enc_mat "queryId";
    smk ← read_int enc_mat "smkId";
    Done (mk_enc_mat key id smk, None).

Definition read_stage_info (data : option cJSON) : outcome SF_STAGE_INFO :=
  let stage_info := snowflake_cJSON_GetObjectItem data "stageInfo" in
  let stage_cred := snowflake_cJSON_GetObjectItem stage_info "creds" in
  type ← read_text stage_info "locationType";
  loc ← read_text stage_info "location";
  pth ← read_text stage_info "path";
  reg ← read_text stage_info "region";
  secret ← read_text stage_cred "AWS_SECRET_KEY";
  id ← read_text stage_cred "AWS_KEY_ID";
  tok ← read_text stage_cred "AWS_TOKEN";
  Done (mk_stage_info type loc pth reg (mk_stage_cred id secret tok)).

Definition read_put_get (data : option cJSON) : outcome SF_PUT_GET_RESPONSE :=
  let src := json_detach_array_from_object None data "src_locations" in
  let data := d_data src in
  cmd ← read_field SF_COMMAND_LEN data "command";
  par ← read_int data "parallel";
  compression ← read_field SF_SOURCE_COMPRESSION_TYPE_LEN data "sourceCompression";
  '(put, get) ← read_enc_mat data;
  stage ← read_stage_info data;
  local ← read_text data "localLocation";
  Done (mk_put_get (d_dest src) par (read_bool data "autoCompress") (read_bool data "overwrite") compression
          (read_bool data "clientShowEncryptionParameter") cmd put get stage local).
