(* ===== verification/Uuid4.v ===== *)
(** * lib/uuid4.c: random identifiers.

    The generator (xorshift128+) with its static seed, the seeding from the operating
    system, and the text of a version 4 identifier, written byte by byte into the
    caller's memory.  Other files take the identifiers as arguments; what they suppose of
    them is proved here.  The build is for Linux, words are little-endian. *)

From S2P Require Import Prelude CLib Status Url.

Definition UUID4_ESUCCESS : Z := 0.
Definition UUID4_EFAILURE : Z := -1.

(** The static variables. *)
Record uuid_state := mk_uuid { seeded : bool; seed : Z * Z }.
Definition fresh_uuid : uuid_state := mk_uuid false (0, 0).

(** The new state and the number. *)
Definition xorshift128plus (s : Z * Z) : (Z * Z) * Z :=
  let s1 := fst s in
  let s0 := snd s in
  let s1 := Z.lxor s1 (u64 (Z.shiftl s1 23)) in
  let n := Z.lxor (Z.lxor (Z.lxor s1 s0) (Z.shiftr s1 18)) (Z.shiftr s0 5) in
  ((s0, n), u64 (n + s0)).

(** What reading /dev/urandom does: it cannot be opened, or leaves this in the seed, all
    of it or not. *)
Inductive urandom := NoDevice | Bytes (all : bool) (s : Z * Z).

Definition init_seed (a : urandom) (st : uuid_state) : Z * uuid_state :=
  match a with
  | NoDevice => (UUID4_EFAILURE, st)
  | Bytes all s => (if all then UUID4_ESUCCESS else UUID4_EFAILURE, mk_uuid (seeded st) s)
  end.

(** The do-while loop, one answer of the device a round. *)
Fixpoint seed_loop (todo : list urandom) (st : uuid_state) : outcome (Z * uuid_state) :=
  match todo with
  | [] => NoFuel
  | a :: todo =>
      let '(err, st) := init_seed a st in
      if negb (err =? UUID4_ESUCCESS) then Done (err, st)
      else if (fst (seed st) =? 0) && (snd (seed st) =? 0) then seed_loop todo st
      else Done (UUID4_ESUCCESS, mk_uuid true (seed st))
  end.

Definition template : string := "xxxxxxxx-xxxx-4xxx-yxxx-xxxxxxxxxxxx".
Definition chars : string := "0123456789abcdef".

(** The [i]-th half byte of the two words: [s.b[i >> 1]], its low half first. *)
Definition half_byte (w : Z * Z) (i : nat) : Z :=
  let b := (i / 2)%nat in
  let n := Z.land (Z.shiftr (if (b <? 8)%nat then fst w else snd w) (8 * Z.of_nat (b mod 8))) 255 in
  if Nat.odd i then Z.shiftr n 4 else Z.land n 15.

(** [while ( *p)]: the byte at [k] of the destination. *)
Fixpoint write_uuid (p : string) (w : Z * Z) (i k : nat) (dst : list ascii) : outcome (list ascii) :=
  match p with
  | EmptyString => Done dst
  | String c p =>
      let n := half_byte w i in
      '(ch, i) ← (if Ascii.eqb c "x" then d ← deref (String.get (Z.to_nat n) chars); Done (d, S i)
                  else if Ascii.eqb c "y" then d ← deref (String.get (Z.to_nat (Z.land n 3 + 8)) chars); Done (d, S i)
                  else Done (c, i));
      if (k <? length dst)%nat then write_uuid p w i (S k) (<[k := ch]> dst) else Undef
  end.

(** [dst + k]: the code, the memory and the state. *)
Definition uuid4_generate_non_terminated (todo : list urandom) (k : nat) (dst : list ascii) (st : uuid_state) : outcome (Z * list ascii * uuid_state) :=
  '(err, st) ← (if seeded st then Done (UUID4_ESUCCESS, st) else seed_loop todo st);
  if negb (err =? UUID4_ESUCCESS) then Done (err, dst, st)
  else
    let '(s, w0) := xorshift128plus (seed st) in
    let '(s, w1) := xorshift128plus s in
    dst ← write_uuid template (w0, w1) 0 k dst;
    Done (UUID4_ESUCCESS, dst, mk_uuid (seeded st) s).

Definition uuid4_generate (todo : list urandom) (dst : list ascii) (st : uuid_state) : outcome (Z * list ascii * uuid_state) :=
  '(ret, dst, st) ← uuid4_generate_non_terminated todo 0 dst st;
  if ret =? UUID4_ESUCCESS then
    if (SF_UUID4_LEN - 1 <? length dst)%nat then Done (ret, <[(SF_UUID4_LEN - 1)%nat := chr 0]> dst, st) else Undef
  else Done (ret, dst, st).

(** ** Specification *)

(** The character for [c] of the template. *)
Definition uuid_char (c : ascii) (n : Z) : ascii :=
  let digit m := default (chr 0) (String.get (Z.to_nat m) chars) in
  if Ascii.eqb c "x" then digit n else if Ascii.eqb c "y" then digit (Z.land n 3 + 8) else c.
Definition takes_digit (c : ascii) : bool := Ascii.eqb c "x" || Ascii.eqb c "y".
Fixpoint uuid_text (p : string) (w : Z * Z) (i : nat) : string :=
  match p with
  | EmptyString => EmptyString
  | String c p => String (uuid_char c (half_byte w i)) (uuid_text p w (if takes_digit c then S i else i))
  end.

Definition is_hex (c : ascii) : bool := is_digit c || ((97 <=? code c) && (code c <=? 102)).
Definition is_variant (c : ascii) : bool := existsb (Ascii.eqb c) ["8"; "9"; "a"; "b"]%char.

(** A text of the shape of a template (RFC 4122: version 4, variant 10). *)
Fixpoint shaped (p t : string) : bool :=
  match p, t with
  | EmptyString, EmptyString => true
  | String c p, String d t =>
      (if Ascii.eqb c "x" then is_hex d else if Ascii.eqb c "y" then is_variant d else Ascii.eqb c d) && shaped p t
  | _, _ => false
  end.

Definition word (z : Z) : Prop := 0 <= z < 2 ^ 64.
Definition alive (s : Z * Z) : Prop := word (fst s) /\ word (snd s) /\ s <> (0, 0).
Definition usable_state (st : uuid_state) : Prop := seeded st = true -> alive (seed st).

(** ** The generator *)

Lemma word_lxor a b : word a -> word b -> word (Z.lxor a b).
Proof.
  intros [Ha Ha'] [Hb Hb']. split; [by apply Z.lxor_nonneg; split|].
  destruct (decide (Z.lxor a b = 0)) as [->|Hne]; [lia|]. assert (0 <= Z.lxor a b) by (by apply Z.lxor_nonneg; split).
  apply Z.log2_lt_pow2; [lia|]. pose proof (Z.log2_lxor a b Ha Hb).
  assert (forall x, 0 <= x < 2 ^ 64 -> Z.log2 x < 64) as Hlog.
  { intros x Hx. destruct (decide (x = 0)) as [->|]; [cbn; lia|]. apply Z.log2_lt_pow2; lia. }
  pose proof (Hlog a ltac:(lia)). pose proof (Hlog b ltac:(lia)). lia.
Qed.
Lemma word_shiftr a n : word a -> 0 <= n -> word (Z.shiftr a n).
Proof.
  intros [Ha Ha'] Hn. rewrite Z.shiftr_div_pow2 by done. pose proof (Z.pow_pos_nonneg 2 n).
  split; [apply Z.div_pos; lia|]. apply Z.div_lt_upper_bound; [lia|]. nia.
Qed.
Lemma word_u64 a : word (u64 a).
Proof. unfold word, wrapU. apply Z.mod_pos_bound. lia. Qed.

(** A word and its shifts differ. *)
Lemma xor_shiftl_nonzero a : word a -> a <> 0 -> Z.lxor a (u64 (Z.shiftl a 23)) <> 0.
Proof.
  intros [Ha Ha'] Hne E. apply Z.lxor_eq in E. unfold wrapU in E. rewrite Z.shiftl_mul_pow2 in E by lia.
  assert ((2 ^ 64 | a * (2 ^ 23 - 1))) as Hd.
  { exists (a * 2 ^ 23 / 2 ^ 64). pose proof (Z.div_mod (a * 2 ^ 23) (2 ^ 64) ltac:(lia)). lia. }
  rewrite Z.mul_comm in Hd. apply Z.gauss in Hd; [|vm_compute; reflexivity]. apply Z.divide_pos_le in Hd; lia.
Qed.
Lemma xor_shiftr_nonzero a : 0 <= a -> a <> 0 -> Z.lxor a (Z.shiftr a 18) <> 0.
Proof.
  intros Ha Hne E. apply Z.lxor_eq in E. rewrite Z.shiftr_div_pow2 in E by lia.
  pose proof (Z.div_lt a (2 ^ 18)). lia.
Qed.

Lemma xorshift_alive s : alive s -> alive (fst (xorshift128plus s)) /\ word (snd (xorshift128plus s)).
Proof.
  destruct s as [s1 s0]. intros (H1 & H0 & Hne). unfold xorshift128plus. cbn [fst snd] in *. set (t := Z.lxor s1 (u64 (Z.shiftl s1 23))).
  assert (word t) as Ht by (apply word_lxor; [done|apply word_u64]).
  split; [|apply word_u64]. split_and!; cbn [fst snd]; [done| |].
  - apply word_lxor; [apply word_lxor; [by apply word_lxor|by apply word_shiftr]|by apply word_shiftr].
  - intros [= E0 E]. subst s0. change (Z.shiftr 0 5) with 0 in E. rewrite !Z.lxor_0_r in E. revert E. apply xor_shiftr_nonzero; [apply Ht|].
    apply xor_shiftl_nonzero; [done|]. intros ->. done.
Qed.

(** ** The text *)

Lemma half_byte_range w i : 0 <= half_byte w i < 16.
Proof.
  unfold half_byte.
  match goal with |- context [Z.shiftr (if ?c then ?x else ?y) ?n] => set (b := Z.shiftr (if c then x else y) n) end. change 255 with (Z.ones 8). change 15 with (Z.ones 4). rewrite !Z.land_ones by lia.
  pose proof (Z.mod_pos_bound b (2 ^ 8) ltac:(lia)). destruct (Nat.odd i).
  - rewrite Z.shiftr_div_pow2 by lia. split; [apply Z.div_pos; lia|]. apply Z.div_lt_upper_bound; lia.
  - apply Z.mod_pos_bound. lia.
Qed.

Lemma digit_there n : 0 <= n < 16 -> exists d, String.get (Z.to_nat n) chars = Some d /\ is_hex d = true.
Proof.
  intros Hn. assert (Z.to_nat n < 16)%nat as Hl by lia. revert Hl. generalize (Z.to_nat n). intros k Hl.
  do 16 (destruct k as [|k]; [by eexists|]). lia.
Qed.
Lemma variant_there n : exists d, String.get (Z.to_nat (Z.land n 3 + 8)) chars = Some d /\ is_variant d = true.
Proof.
  change 3 with (Z.ones 2). rewrite Z.land_ones by lia. pose proof (Z.mod_pos_bound n (2 ^ 2) ltac:(lia)).
  assert (n mod 2 ^ 2 = 0 \/ n mod 2 ^ 2 = 1 \/ n mod 2 ^ 2 = 2 \/ n mod 2 ^ 2 = 3) as [-> |[-> |[-> | ->]]] by lia; by eexists.
Qed.

Lemma uuid_shaped p w : forall i, shaped p (uuid_text p w i) = true.
Proof.
  induction p as [|c p IH]; intros i; [done|]. cbn [uuid_text shaped]. rewrite IH, andb_true_r. unfold uuid_char.
  destruct (Ascii.eqb c "x"); [by destruct (digit_there _ (half_byte_range w i)) as (d & -> & Hd)|].
  destruct (Ascii.eqb c "y"); [by destruct (variant_there (half_byte w i)) as (d & -> & Hd)|]. apply Ascii.eqb_refl.
Qed.

Lemma uuid_text_length p w : forall i, String.length (uuid_text p w i) = String.length p.
Proof. induction p as [|c p IH]; intros i; cbn; [done|]. by rewrite IH. Qed.

(** The bytes from [k] on are written and no others. *)
Lemma write_uuid_ok p w : forall i pre mid post, length mid = String.length p ->
  write_uuid p w i (length pre) (pre ++ mid ++ post) = Done (pre ++ String.list_ascii_of_string (uuid_text p w i) ++ post).
Proof.
  induction p as [|c p IH]; intros i pre mid post Hm; destruct mid as [|x mid]; try done. cbn [write_uuid uuid_text]. cbv zeta.
  assert ((if Ascii.eqb c "x" then d ← deref (String.get (Z.to_nat (half_byte w i)) chars); Done (d, S i)
    else if Ascii.eqb c "y" then d ← deref (String.get (Z.to_nat (Z.land (half_byte w i) 3 + 8)) chars); Done (d, S i) else Done (c, i))
    = Done (uuid_char c (half_byte w i), if takes_digit c then S i else i)) as ->.
  { unfold uuid_char, takes_digit. destruct (Ascii.eqb c "x"); [by destruct (digit_there _ (half_byte_range w i)) as (d & -> & Hd)|].
    destruct (Ascii.eqb c "y"); [by destruct (variant_there (half_byte w i)) as (d & -> & Hd)|]. done. }
  rewrite bind_Done_l. cbv beta iota. rewrite (proj2 (Nat.ltb_lt _ _)) by (rewrite !length_app; cbn; lia).
  rewrite insert_app_r_alt, Nat.sub_diag by lia. cbn [app insert list_insert].
  specialize (IH (if takes_digit c then S i else i) (pre ++ [uuid_char c (half_byte w i)]) mid post ltac:(cbn in Hm; lia)).
  rewrite length_app, <- !app_assoc in IH. cbn [length app] in IH. rewrite Nat.add_1_r in IH. rewrite IH. done.
Qed.

Lemma seed_loop_ends zeros a rest st : Forall (fun a => a = Bytes true (0, 0)) zeros -> a <> Bytes true (0, 0) ->
  (forall s, a = Bytes true s -> word (fst s) /\ word (snd s)) ->
  exists err st', seed_loop (zeros ++ a :: rest) st = Done (err, st') /\ (err = UUID4_ESUCCESS -> seeded st' = true /\ alive (seed st')) /\
    (err = UUID4_ESUCCESS \/ err = UUID4_EFAILURE /\ seeded st' = seeded st).
Proof.
  intros Hz Ha Hw. revert st. induction Hz as [|z zeros -> _ IH]; intros st; cbn [app seed_loop].
  - destruct a as [|all s]; cbn [init_seed]; [exists UUID4_EFAILURE, st; split_and!; [done|done|by right]|].
    destruct all; cbn [negb]; [|eexists _, _; split_and!; [done|done|by right]]. destruct s as [s1 s0]. destruct (Hw (s1, s0) eq_refl) as [H1 H0]. cbn [seed fst snd] in *.
    change (UUID4_ESUCCESS =? UUID4_ESUCCESS) with true. cbn [negb]. destruct ((s1 =? 0) && (s0 =? 0)) eqn:E.
    { exfalso. apply andb_prop in E as [->%Z.eqb_eq ->%Z.eqb_eq]. done. }
    eexists _, _. split_and!; [done| |by left]. intros _. split; [done|]. split_and!; [done|done|]. cbn. intros [= -> ->]. done.
  - cbn [init_seed]. change (UUID4_ESUCCESS =? UUID4_ESUCCESS) with true. cbn [negb seed fst snd Z.eqb andb]. destruct (IH (mk_uuid (seeded st) (0, 0))) as (err & st' & E & H1 & H2).
    by exists err, st'.
Qed.

(** What a text says of the words it was made from: all the half bytes of the template,
    two bits of the variant's. *)
Definition hex_val (d : ascii) : Z := if is_digit d then code d - 48 else code d - 87.
Fixpoint read_uuid (p t : string) : list Z :=
  match p, t with
  | String c p, String d t =>
      if Ascii.eqb c "x" then hex_val d :: read_uuid p t else if Ascii.eqb c "y" then hex_val d - 8 :: read_uuid p t else read_uuid p t
  | _, _ => []
  end.
Fixpoint random_bits (p : string) (w : Z * Z) (i : nat) : list Z :=
  match p with
  | EmptyString => []
  | String c p =>
      if Ascii.eqb c "x" then half_byte w i :: random_bits p w (S i)
      else if Ascii.eqb c "y" then Z.land (half_byte w i) 3 :: random_bits p w (S i) else random_bits p w i
  end.

Lemma hex_val_digit n : 0 <= n < 16 -> hex_val (default (chr 0) (String.get (Z.to_nat n) chars)) = n.
Proof.
  intros Hn. assert (Z.to_nat n < 16)%nat as Hl by lia. rewrite <- (Z2Nat.id n) at 2 by lia. revert Hl. generalize (Z.to_nat n). intros k Hl.
  do 16 (destruct k as [|k]; [reflexivity|]). lia.
Qed.

Lemma read_uuid_text p w : forall i, read_uuid p (uuid_text p w i) = random_bits p w i.
Proof.
  induction p as [|c p IH]; intros i; [done|]. cbn [read_uuid uuid_text random_bits]. unfold uuid_char, takes_digit.
  destruct (Ascii.eqb c "x"); [by rewrite hex_val_digit, IH by apply half_byte_range|]. destruct (Ascii.eqb c "y"); [|by rewrite IH].
  cbn [orb]. rewrite IH. f_equal. change 3 with (Z.ones 2). rewrite Z.land_ones by lia. pose proof (Z.mod_pos_bound (half_byte w i) (2 ^ 2) ltac:(lia)).
  rewrite hex_val_digit by lia. lia.
Qed.

Lemma template_unreserved t : forall p, shaped p t = true -> str_all (fun c => is_hex c || Ascii.eqb c "-" || Ascii.eqb c "x" || Ascii.eqb c "y") p = true ->
  str_all (fun c => is_hex c || Ascii.eqb c "-") t = true.
Proof.
  induction t as [|d t IH]; intros [|c p]; cbn [shaped str_all]; try done. intros [Hd Ht]%andb_prop [Hc Hp]%andb_prop. rewrite (IH p Ht Hp), andb_true_r.
  destruct (Ascii.eqb c "x") eqn:Ex; [by rewrite Hd|]. destruct (Ascii.eqb c "y") eqn:Ey.
  - unfold is_variant in Hd. cbn [existsb] in Hd. repeat (apply orb_prop in Hd as [Hd|Hd]; [apply Ascii.eqb_eq in Hd; by subst|]). done.
  - apply Ascii.eqb_eq in Hd as <-. by rewrite !orb_false_r in Hc.
Qed.

(** The two words a state gives next. *)
Definition next_words (s : Z * Z) : Z * Z := let '(s, w0) := xorshift128plus s in (w0, snd (xorshift128plus s)).

(** The text in the caller's buffer, and the NUL after it. *)
Lemma identifier_written p w dst : String.length p = 36%nat -> (37 <= length dst)%nat ->
  exists t, write_uuid p w 0 0 dst = Done (String.list_ascii_of_string t ++ drop 36 dst) /\
    String.length t = 36%nat /\ shaped p t = true /\ read_uuid p t = random_bits p w 0.
Proof.
  intros Hp Hdst. exists (uuid_text p w 0). split_and!; [|by rewrite uuid_text_length|apply uuid_shaped|apply read_uuid_text].
  pose proof (write_uuid_ok p w 0 [] (take 36 dst) (drop 36 dst)) as Hwr. cbn [length app] in Hwr. rewrite take_drop in Hwr.
  apply Hwr. rewrite length_take. lia.
Qed.
Lemma identifier_ended t dst : String.length t = 36%nat -> (37 <= length dst)%nat ->
  (SF_UUID4_LEN - 1 <? length (String.list_ascii_of_string t ++ drop 36 dst))%nat = true /\
  <[(SF_UUID4_LEN - 1)%nat := chr 0]> (String.list_ascii_of_string t ++ drop 36 dst) = String.list_ascii_of_string t ++ chr 0 :: drop 37 dst.
Proof.
  intros Ht Hdst. change (SF_UUID4_LEN - 1)%nat with 36%nat. assert (length (String.list_ascii_of_string t) = 36%nat) as Hl by (by rewrite list_ascii_length).
  split; [apply Nat.ltb_lt; rewrite length_app, length_drop, Hl; lia|]. rewrite insert_app_r_alt by (rewrite Hl; lia). rewrite Hl, Nat.sub_diag. f_equal.
  destruct (drop 36 dst) as [|x l] eqn:Ed; [apply (f_equal length) in Ed; rewrite length_drop in Ed; cbn in Ed; lia|].
  change 37%nat with (36 + 1)%nat. by rewrite <- drop_drop, Ed.
Qed.



(** ** The identifiers of a process

    Once the seed is there, the [n]-th call from a state gives this; it is what the other
    files suppose of the identifiers they take as arguments. *)
Definition next_seed (s : Z * Z) : Z * Z := fst (xorshift128plus (fst (xorshift128plus s))).
Fixpoint seed_after (n : nat) (s : Z * Z) : Z * Z := match n with O => s | S n => seed_after n (next_seed s) end.
Definition identifiers (s : Z * Z) (n : nat) : string := uuid_text template (next_words (seed_after n s)) 0.

Lemma uuid4_generate_next todo dst s : (37 <= length dst)%nat ->
  uuid4_generate todo dst (mk_uuid true s) =
    Done (UUID4_ESUCCESS, String.list_ascii_of_string (identifiers s 0) ++ chr 0 :: drop 37 dst, mk_uuid true (next_seed s)).
Proof.
  intros Hdst. unfold uuid4_generate, uuid4_generate_non_terminated, identifiers, next_seed, next_words, seed_after. cbn [seeded seed]. rewrite bind_Done_l. cbv beta iota.
  change (UUID4_ESUCCESS =? UUID4_ESUCCESS) with true. cbn [negb seeded seed]. destruct (xorshift128plus s) as [s1 w0]. cbn [fst]. destruct (xorshift128plus s1) as [s2 w1]. cbn [fst snd].
  assert (String.length template = 36%nat) as Hp by reflexivity. pose proof (uuid_text_length template (w0, w1) 0) as Hl. rewrite Hp in Hl. revert Hp Hl. generalize template as p. intros p Hp Hl.
  pose proof (write_uuid_ok p (w0, w1) 0 [] (take 36 dst) (drop 36 dst)) as Hwr. cbn [length app] in Hwr. rewrite take_drop in Hwr.
  rewrite Hwr by (rewrite length_take; lia). rewrite !bind_Done_l. cbv beta iota. change (UUID4_ESUCCESS =? UUID4_ESUCCESS) with true. cbv iota.
  destruct (identifier_ended _ dst Hl Hdst) as [-> ->]. done.
Qed.

Lemma hex_unreserved d : is_hex d || Ascii.eqb d "-" = true -> unreserved d = true.
Proof.
  unfold is_hex, unreserved. intros [[Hd|H]%orb_prop|Hd]%orb_prop; [by rewrite Hd| |by apply Ascii.eqb_eq in Hd as ->].
  apply andb_prop in H as [Hl Hu]. apply Z.leb_le in Hl, Hu. rewrite (proj2 (Z.leb_le 97 _)), (proj2 (Z.leb_le _ 122)) by lia. cbn [andb]. by rewrite !orb_true_r.
Qed.

Lemma identifiers_ok s n : str_all unreserved (identifiers s n) = true /\ String.length (identifiers s n) = 36%nat.
Proof.
  unfold identifiers. generalize (next_words (seed_after n s)). intros w. split; [|by rewrite uuid_text_length].
  pose proof (uuid_shaped template w 0) as Hs. pose proof (template_unreserved (uuid_text template w 0) template Hs eq_refl) as Ht. revert Ht. clear Hs. generalize (uuid_text template w 0).
  intros t. induction t as [|d t IH]; [done|]. cbn [str_all]. intros [Hd Ht]%andb_prop. by rewrite hex_unreserved, IH.
Qed.
