(* ===== verification/Base64.v ===== *)
(** * cpp/util/Base64: the two dialects of base64, over raw buffers.

    A [std::vector<char>] or [std::string] is a list of bytes.  The helpers read the
    source and write the destination by index: an index out of range is [Undef], so a
    result [Done] says that the caller's buffer was big enough.  A [size_t] is a [Z], and
    -1 is its wrap-around. *)

From S2P Require Import Prelude CLib.

Abbreviation bytes := (list ascii).
Definition of_string (s : string) : bytes := String.list_ascii_of_string s.

Definition load (src : bytes) (i : nat) : outcome Z := c ← deref (src !! i); Done (code c).
Definition store (dst : bytes) (i : nat) (c : ascii) : outcome bytes :=
  if (i <? length dst)%nat then Done (<[i := c]> dst) else Undef.

Definition pad_char : ascii := "="%char.
Definition minus_one : Z := u64 (-1).

Definition BASE64_INDEX : bytes := of_string "ABCDEFGHIJKLMNOPQRSTUVWXYZabcdefghijklmnopqrstuvwxyz0123456789+/".
Definition BASE64_URL_INDEX : bytes := of_string "ABCDEFGHIJKLMNOPQRSTUVWXYZabcdefghijklmnopqrstuvwxyz0123456789-_".
Definition INDEX_SIZE : nat := 64.

(** 256 entries, [0xFF] where no digit maps to. *)
Definition reverse_index (index : bytes) : list Z :=
  foldl (fun data i => match index !! i with Some c => <[Z.to_nat (code c) := Z.of_nat i]> data | None => data end)
    (replicate 256 255) (seq 0 INDEX_SIZE).
Definition BASE64_REV_INDEX : list Z := reverse_index BASE64_INDEX.
Definition BASE64_URL_REV_INDEX : list Z := reverse_index BASE64_URL_INDEX.

Definition encodedLength (srcLength : nat) : nat := 4 * ((srcLength + 2) / 3).
Definition decodedLength (srcLength : nat) : nat := 3 * (srcLength / 4).

(** The exact length, from the padding of the text. *)
Definition decodedLength_of (src : bytes) : outcome Z :=
  let srcLength := length src in
  if (srcLength =? 0)%nat then Done 0
  else if (srcLength mod 4 =? 0)%nat then
    c2 ← load src (srcLength - 2);
    c1 ← load src (srcLength - 1);
    let padBytes := if c2 =? code pad_char then 2 else if c1 =? code pad_char then 1 else 0 in
    Done (3 * (Z.of_nat srcLength / 4) - padBytes)
  else Done minus_one.

(** ** Encoding *)

Section Encode.
  Context (dictionary : bytes) (src : bytes).
Let srcLength := length src.

(** [i < srcLength ? src[i++] : 0] *)
Definition next_byte (i : nat) : outcome (Z * nat) :=
  if (i <? srcLength)%nat then b ← load src i; Done (b, S i) else Done (0, i).

(** [dst[j] = dictionary[(combined >> shift) & 0x3F]] *)
Definition put_digit (dst : bytes) (j : nat) (combined shift : Z) : outcome bytes :=
  c ← deref (dictionary !! Z.to_nat (Z.land (Z.shiftr combined shift) 63)); store dst j c.

Fixpoint encode_loop (fuel i j : nat) (dst : bytes) : outcome (nat * bytes) :=
  if (i <? srcLength)%nat then
    match fuel with
    | O => NoFuel
    | S fuel =>
        b1 ← load src i;
        '(b2, i) ← next_byte (S i);
        '(b3, i) ← next_byte i;
        let combined := Z.lor (Z.lor (Z.shiftl b1 16) (Z.shiftl b2 8)) b3 in
        dst ← put_digit dst j combined 18;
        dst ← put_digit dst (j + 1) combined 12;
        dst ← put_digit dst (j + 2) combined 6;
        dst ← put_digit dst (j + 3) combined 0;
        encode_loop fuel i (j + 4) dst
    end
  else Done (j, dst).

Definition encodeHelper (dst : bytes) : outcome (nat * bytes) :=
  '(j, dst) ← encode_loop srcLength 0 0 dst;
  dst ← (if (1 <=? srcLength mod 3)%nat then store dst (j - 1) pad_char else Done dst);
  dst ← (if (srcLength mod 3 =? 1)%nat then store dst (j - 2) pad_char else Done dst);
  Done (j, dst).
End Encode.

Definition encode := encodeHelper BASE64_INDEX.
Definition encodeUrl := encodeHelper BASE64_URL_INDEX.

(** ** Decoding *)

Section Decode.
  Context (REV_INDEX : list Z) (src : bytes).
Let srcLength := length src.

Definition digit (i : nat) : outcome Z := c ← load src i; deref (REV_INDEX !! Z.to_nat c).
(** [dst[j] = combined >> shift], truncated to a [char]. *)
Definition put_byte (dst : bytes) (j : nat) (combined shift : Z) : outcome bytes :=
  store dst j (chr (u8 (Z.shiftr combined shift))).

(** Four digits to three bytes; [None] for an illegal digit. *)
Definition full_block (i j : nat) (dst : bytes) : outcome (option bytes) :=
  b1 ← digit i; b2 ← digit (i + 1); b3 ← digit (i + 2); b4 ← digit (i + 3);
  if (b1 =? 255) || (b2 =? 255) || (b3 =? 255) || (b4 =? 255) then Done None
  else
    let combined := Z.lor (Z.lor (Z.lor (Z.shiftl b1 18) (Z.shiftl b2 12)) (Z.shiftl b3 6)) b4 in
    dst ← put_byte dst j combined 16;
    dst ← put_byte dst (j + 1) combined 8;
    dst ← put_byte dst (j + 2) combined 0;
    Done (Some dst).

(** The last block when it ends in [=] (one byte if the third is [=] too). *)
Definition one_byte (i j : nat) (dst : bytes) : outcome (option bytes) :=
  b1 ← digit i; b2 ← digit (i + 1); c4 ← load src (i + 3);
  if (b1 =? 255) || (b2 =? 255) || negb (c4 =? code pad_char) then Done None
  else dst ← put_byte dst j (Z.lor (Z.shiftl b1 18) (Z.shiftl b2 12)) 16; Done (Some dst).
Definition two_bytes (i j : nat) (dst : bytes) : outcome (option bytes) :=
  b1 ← digit i; b2 ← digit (i + 1); b3 ← digit (i + 2);
  if (b1 =? 255) || (b2 =? 255) || (b3 =? 255) then Done None
  else
    let combined := Z.lor (Z.lor (Z.shiftl b1 18) (Z.shiftl b2 12)) (Z.shiftl b3 6) in
    dst ← put_byte dst j combined 16;
    dst ← put_byte dst (j + 1) combined 8;
    Done (Some dst).

(** The function's labels: the [while] test, [no_padding], and the code behind the loop,
    which jumps back to [no_padding] when the last block is full. *)
Inductive label := While | no_padding | Last.

Fixpoint decode_loop (fuel : nat) (at_label : label) (i j : nat) (dst : bytes) : outcome (Z * bytes) :=
  match fuel with
  | O => NoFuel
  | S fuel =>
      match at_label with
      | While => decode_loop fuel (if (i <? srcLength - 4)%nat then no_padding else Last) i j dst
      | no_padding =>
          r ← full_block i j dst;
          match r with
          | None => Done (minus_one, dst)
          | Some dst => decode_loop fuel While (i + 4) (j + 3) dst
          end
      | Last =>
          if (i <? srcLength)%nat then
            c3 ← load src (i + 2);
            if c3 =? code pad_char then
              r ← one_byte i j dst;
              Done (match r with None => (minus_one, dst) | Some dst => (Z.of_nat (j + 1), dst) end)
            else
              c4 ← load src (i + 3);
              if c4 =? code pad_char then
                r ← two_bytes i j dst;
                Done (match r with None => (minus_one, dst) | Some dst => (Z.of_nat (j + 2), dst) end)
              else decode_loop fuel no_padding i j dst
          else Done (Z.of_nat j, dst)
      end
  end.

(** The destination keeps what was written before an error; the callers drop it. *)
Definition decodeHelper (dst : bytes) : outcome (Z * bytes) :=
  if negb (srcLength mod 4 =? 0)%nat then Done (minus_one, dst)
  else decode_loop (srcLength + 4) (if (4 <? srcLength)%nat then While else Last) 0 0 dst.
End Decode.

Definition decode := decodeHelper BASE64_REV_INDEX.
Definition decodeUrl := decodeHelper BASE64_URL_REV_INDEX.

(** ** The functions on vectors and strings.  [None] is a [Base64DecodeException]. *)

(** [while (buffer[len - 1] == '=') len--] *)
Fixpoint strip_pads (len : nat) (buffer : bytes) : outcome nat :=
  match len with
  | O => Undef
  | S n => c ← load buffer n; if c =? code pad_char then strip_pads n buffer else Done len
  end.

Definition encodeURLNoPadding (src : bytes) : outcome bytes :=
  '(len, buffer) ← encodeUrl src (replicate (encodedLength (length src)) (chr 0));
  len ← strip_pads len buffer;
  Done (take len buffer).

Definition decode_vector (decode : bytes -> bytes -> outcome (Z * bytes)) (text : bytes) : outcome (option bytes) :=
  '(decode_len, decoded) ← decode text (replicate (decodedLength (length text)) (chr 0));
  if decode_len =? minus_one then Done None
  else Done (Some (resize (Z.to_nat decode_len) (chr 0) decoded)).

Definition decodeURLNoPadding (text : bytes) : outcome (option bytes) :=
  let pad_len := ((4 - length text mod 4) mod 4)%nat in
  decode_vector decodeUrl (text ++ replicate pad_len pad_char).

Definition encodePadding (src : bytes) : outcome bytes :=
  '(len, buffer) ← encode src (replicate (encodedLength (length src)) (chr 0));
  Done (take len buffer).

Definition decodePadding (text : bytes) : outcome (option bytes) := decode_vector decode text.

Definition text (o : outcome bytes) : option string :=
  match o with Done s => Some (String.string_of_list_ascii s) | _ => None end.

(** The vectors of RFC 4648, and a byte over 127. *)
Example rfc_vectors :
  map (fun s => text (encodePadding (of_string s))) ["f"; "fo"; "foo"; "foob"; "fooba"; "foobar"]
  = map Some ["Zg=="; "Zm8="; "Zm9v"; "Zm9vYg=="; "Zm9vYmE="; "Zm9vYmFy"].
Proof. vm_compute. reflexivity. Qed.
Example url_sample :
  text (encodeURLNoPadding [chr 251; chr 255; chr 254; chr 255]) = Some "-__-_w".
Proof. vm_compute. reflexivity. Qed.
Example illegal_texts :
  map (fun s => decodePadding (of_string s)) ["Zg="; "Z==="; "Zm=v"; "=g=="; "Z-8="] = replicate 5 (Done None).
Proof. vm_compute. reflexivity. Qed.

(** The bits a padded block does not use are not checked: two texts for one byte. *)
Example not_canonical : decodePadding (of_string "QR==") = decodePadding (of_string "QQ==").
Proof. vm_compute. reflexivity. Qed.

(** Without a byte to encode the loop that strips the padding reads in front of the buffer. *)
Example empty_url : encodeURLNoPadding [] = Undef.
Proof. vm_compute. reflexivity. Qed.

(** ** The text as RFC 4648 defines it *)

(** The [k]-th digit of a group of three bytes. *)
Definition group (a b c : ascii) : Z := code a * 65536 + code b * 256 + code c.
Definition digit_at (dictionary : bytes) (z : Z) : ascii := default (chr 0) (dictionary !! Z.to_nat z).
Definition quad (dictionary : bytes) (n : Z) : bytes :=
  map (digit_at dictionary) [n / 262144; n / 4096 mod 64; n / 64 mod 64; n mod 64].

Fixpoint base64 (dictionary : bytes) (src : bytes) : bytes :=
  match src with
  | [] => []
  | [a] => take 2 (quad dictionary (group a (chr 0) (chr 0))) ++ [pad_char; pad_char]
  | [a; b] => take 3 (quad dictionary (group a b (chr 0))) ++ [pad_char]
  | a :: b :: c :: src => quad dictionary (group a b c) ++ base64 dictionary src
  end.

(** What the two indices of a dialect promise each other. *)
Class Dialect (dictionary : bytes) (rev : list Z) := {
  digit_known : forall z, 0 <= z < 64 -> dictionary !! Z.to_nat z = Some (digit_at dictionary z);
  digit_back : forall z, 0 <= z < 64 -> rev !! Z.to_nat (code (digit_at dictionary z)) = Some z;
  digit_no_pad : forall z, 0 <= z < 64 -> digit_at dictionary z <> pad_char;
  rev_length : length rev = 256%nat
}.

Definition dialect_check (dictionary : bytes) (rev : list Z) : bool :=
  (length dictionary =? 64)%nat && (length rev =? 256)%nat &&
  forallb (fun n => let c := digit_at dictionary (Z.of_nat n) in
                    bool_decide (rev !! Z.to_nat (code c) = Some (Z.of_nat n)) && negb (Ascii.eqb c pad_char)) (seq 0 64).
Lemma dialect_checked dictionary rev : dialect_check dictionary rev = true -> Dialect dictionary rev.
Proof.
  unfold dialect_check. rewrite !andb_true_iff, !Nat.eqb_eq, forallb_forall. intros [[Hd Hr] H].
  assert (forall z, 0 <= z < 64 -> rev !! Z.to_nat (code (digit_at dictionary z)) = Some z /\ digit_at dictionary z <> pad_char) as Hz.
  { intros z Hz. specialize (H (Z.to_nat z)). rewrite in_seq, Z2Nat.id in H by lia.
    destruct (andb_prop _ _ (H ltac:(lia))) as [H1%bool_decide_eq_true H2]. split; [done|].
    by apply negb_true_iff, Ascii.eqb_neq in H2. }
  split; [|by apply Hz..|done]. intros z Hr'.
  destruct (lookup_lt_is_Some_2 dictionary (Z.to_nat z)) as [c Hc]; [lia|]. unfold digit_at. by rewrite Hc.
Qed.
#[export] Instance standard_dialect : Dialect BASE64_INDEX BASE64_REV_INDEX.
Proof. apply dialect_checked. vm_compute. reflexivity. Qed.
#[export] Instance url_dialect : Dialect BASE64_URL_INDEX BASE64_URL_REV_INDEX.
Proof. apply dialect_checked. vm_compute. reflexivity. Qed.

(** ** Buffers and bits *)

Lemma load_app pre c post i : i = length pre -> load (pre ++ c :: post) i = Done (code c).
Proof. intros ->. unfold load. by rewrite list_lookup_middle. Qed.
Lemma store_app pre d post c i : i = length pre -> store (pre ++ d :: post) i c = Done (pre ++ c :: post).
Proof.
  intros ->. unfold store. rewrite length_app. cbn [length].
  destruct (_ <? _)%nat eqn:E; [|apply Nat.ltb_ge in E; lia]. by rewrite insert_app_r_alt, Nat.sub_diag by lia.
Qed.
Lemma store_length dst i c dst' : store dst i c = Done dst' -> length dst' = length dst.
Proof. unfold store. destruct (_ <? _)%nat; [|done]. intros [= <-]. apply length_insert. Qed.
Lemma store_Done dst i c : (i < length dst)%nat -> exists dst', store dst i c = Done dst' /\ length dst' = length dst.
Proof.
  intros H%Nat.ltb_lt. unfold store. rewrite H. eexists. split; [done|]. apply length_insert.
Qed.

Lemma lor_add a b n : 0 <= n -> 0 <= b < 2 ^ n -> Z.lor (Z.shiftl a n) b = a * 2 ^ n + b.
Proof.
  intros Hn Hb. rewrite <- Z.shiftl_mul_pow2 by done.
  assert (Z.land (Z.shiftl a n) b = 0) as E.
  { apply Z.bits_inj'. intros k Hk. rewrite Z.land_spec, Z.bits_0. destruct (Z_lt_dec k n) as [H|H].
    - by rewrite Z.shiftl_spec_low by done.
    - rewrite <- (Z.mod_small b (2 ^ n)) by done. by rewrite Z.mod_pow2_bits_high, andb_false_r by lia. }
  by rewrite Z.add_nocarry_lxor, Z.lxor_lor.
Qed.
Lemma land_63 z : Z.land z 63 = z mod 64.
Proof. change 63 with (Z.ones 6). by rewrite Z.land_ones by lia. Qed.

Lemma group_range a b c : 0 <= group a b c < 16777216.
Proof. unfold group. pose proof (code_range a). pose proof (code_range b). pose proof (code_range c). lia. Qed.
Lemma group_combined a b c : Z.lor (Z.lor (Z.shiftl (code a) 16) (Z.shiftl (code b) 8)) (code c) = group a b c.
Proof.
  pose proof (code_range a). pose proof (code_range b). pose proof (code_range c).
  rewrite (lor_add (code a) (Z.shiftl (code b) 8)) by (rewrite ?Z.shiftl_mul_pow2; lia).
  rewrite <- (Z.mul_1_r (code a)), <- Z.mul_assoc.
  replace (code a * (1 * 2 ^ 16) + Z.shiftl (code b) 8) with (Z.shiftl (code a * 2 ^ 8 + code b) 8)
    by (rewrite !Z.shiftl_mul_pow2; lia).
  rewrite lor_add by lia. unfold group. lia.
Qed.

(** The digits of a group give the group back. *)
Lemma digits_combined n :
  0 <= n < 16777216 ->
  Z.lor (Z.lor (Z.lor (Z.shiftl (n / 262144) 18) (Z.shiftl (n / 4096 mod 64) 12)) (Z.shiftl (n / 64 mod 64) 6)) (n mod 64) = n.
Proof.
  intros Hn. set (a := n / 262144). set (b := n / 4096 mod 64). set (c := n / 64 mod 64). set (d := n mod 64).
  assert (n = a * 262144 + b * 4096 + c * 64 + d /\ 0 <= a < 64 /\ 0 <= b < 64 /\ 0 <= c < 64 /\ 0 <= d < 64) as (E & ? & ? & ? & ?)
    by (unfold a, b, c, d; Z.div_mod_to_equations; lia).
  rewrite (lor_add a (Z.shiftl b 12)) by (rewrite ?Z.shiftl_mul_pow2; lia).
  replace (a * 2 ^ 18 + Z.shiftl b 12) with (Z.shiftl (a * 64 + b) 12) by (rewrite !Z.shiftl_mul_pow2; lia).
  rewrite lor_add by (rewrite ?Z.shiftl_mul_pow2; lia).
  replace ((a * 64 + b) * 2 ^ 12 + Z.shiftl c 6) with (Z.shiftl ((a * 64 + b) * 64 + c) 6) by (rewrite !Z.shiftl_mul_pow2; lia).
  rewrite lor_add by lia. lia.
Qed.

Lemma list_ind3 {A} (P : list A -> Prop) :
  P [] -> (forall a, P [a]) -> (forall a b, P [a; b]) -> (forall a b c l, P l -> P (a :: b :: c :: l)) -> forall l, P l.
Proof.
  intros H0 H1 H2 H3. fix IH 1. intros [|a [|b [|c l]]]; [done..|]. apply H3, IH.
Qed.

Lemma encodedLength_step n : encodedLength (S (S (S n))) = (4 + encodedLength n)%nat.
Proof. unfold encodedLength. replace (S (S (S n)) + 2)%nat with (1 * 3 + (n + 2))%nat by lia. rewrite Nat.div_add_l; lia. Qed.
Lemma base64_length dictionary src : length (base64 dictionary src) = encodedLength (length src).
Proof.
  induction src using list_ind3; [done..|]. cbn [base64 length]. rewrite encodedLength_step, length_app. change (length (quad _ _)) with 4%nat. lia.
Qed.

(** ** The encoder writes that text *)

Section EncodeSpec.
  Context (dictionary : bytes) (rev : list Z) `{!Dialect dictionary rev} (src : bytes).

(** What the loop leaves before the padding is written. *)
Fixpoint raw (src : bytes) : bytes :=
  match src with
  | [] => []
  | [a] => quad dictionary (group a (chr 0) (chr 0))
  | [a; b] => quad dictionary (group a b (chr 0))
  | a :: b :: c :: src => quad dictionary (group a b c) ++ raw src
  end.

Lemma put_digit_spec out x hole j n shift z :
  j = length out -> z = Z.shiftr n shift mod 64 ->
  put_digit dictionary (out ++ x :: hole) j n shift = Done ((out ++ [digit_at dictionary z]) ++ hole).
Proof.
  intros -> ->. unfold put_digit. rewrite land_63.
  rewrite digit_known by (apply Z.mod_pos_bound; lia). cbn. rewrite store_app by done. by rewrite <- app_assoc.
Qed.

Lemma put_quad {B} out x1 x2 x3 x4 hole j n (k : bytes -> outcome B) :
  j = length out -> 0 <= n < 16777216 ->
  (dst ← put_digit dictionary (out ++ x1 :: x2 :: x3 :: x4 :: hole) j n 18;
   dst ← put_digit dictionary dst (j + 1) n 12;
   dst ← put_digit dictionary dst (j + 2) n 6;
   dst ← put_digit dictionary dst (j + 3) n 0; k dst) = k ((out ++ quad dictionary n) ++ hole).
Proof.
  intros -> Hn.
  rewrite (put_digit_spec _ _ _ _ _ _ (n / 262144)); [|done|rewrite Z.shiftr_div_pow2 by lia; symmetry; change (2 ^ 18) with 262144; apply Z.mod_small; Z.div_mod_to_equations; lia].
  cbn [mbind outcome_bind].
  rewrite (put_digit_spec _ _ _ _ _ _ (n / 4096 mod 64)); [|rewrite length_app; cbn; lia|by rewrite Z.shiftr_div_pow2 by lia].
  cbn [mbind outcome_bind].
  rewrite (put_digit_spec _ _ _ _ _ _ (n / 64 mod 64)); [|rewrite !length_app; cbn; lia|by rewrite Z.shiftr_div_pow2 by lia].
  cbn [mbind outcome_bind].
  rewrite (put_digit_spec _ _ _ _ _ _ (n mod 64)); [|rewrite !length_app; cbn; lia|by rewrite Z.shiftr_0_r].
  cbn [mbind outcome_bind]. by rewrite <- !app_assoc.
Qed.

Lemma next_byte_app pre b post i : src = pre ++ b :: post -> i = length pre -> next_byte src i = Done (code b, S i).
Proof.
  intros E ->. unfold next_byte. rewrite E, length_app. cbn [length].
  destruct (_ <? _)%nat eqn:El; [|apply Nat.ltb_ge in El; lia]. by rewrite load_app.
Qed.
Lemma next_byte_end i : i = length src -> next_byte src i = Done (code (chr 0), i).
Proof. intros ->. unfold next_byte. by rewrite Nat.ltb_irrefl. Qed.

Lemma encode_loop_spec rest fuel pre out hole1 hole2 :
  src = pre ++ rest -> (length rest <= fuel)%nat -> length hole1 = length (raw rest) ->
  encode_loop dictionary src fuel (length pre) (length out) (out ++ hole1 ++ hole2) =
    Done ((length out + length hole1)%nat, out ++ raw rest ++ hole2).
Proof.
  revert fuel pre out hole1. induction rest as [|a|a b|a b c rest IH] using list_ind3;
    intros fuel pre out hole1 E Hf Hh; cbn [raw] in *.
  1: { rewrite app_nil_r in E. subst pre. destruct hole1; [|done].
       destruct fuel; cbn [encode_loop]; rewrite Nat.ltb_irrefl; by rewrite Nat.add_0_r. }
  all: assert (length pre < length src)%nat as Hlt%Nat.ltb_lt by (rewrite E, length_app; cbn; lia);
    destruct fuel as [|fuel]; [cbn in Hf; lia|]; cbn [encode_loop]; rewrite Hlt;
    rewrite E at 1; rewrite load_app by done; cbn [mbind outcome_bind];
    destruct hole1 as [|x1 [|x2 [|x3 [|x4 hole1]]]]; try done.
  1,2: destruct hole1; [|done].
  - assert (length src = S (length pre)) as Hl by (rewrite E, length_app; cbn; lia).
    do 2 (rewrite next_byte_end by done; cbn [mbind outcome_bind]).
    cbn [app]. rewrite group_combined, put_quad by first [done|apply group_range].
    destruct fuel; cbn [encode_loop]; rewrite <- Hl, Nat.ltb_irrefl; by rewrite <- app_assoc.
  - assert (length src = S (S (length pre))) as Hl by (rewrite E, length_app; cbn; lia).
    rewrite (next_byte_app (pre ++ [a]) b []) by (rewrite ?length_app, <- ?app_assoc; cbn; first [done|lia]).
    cbn [mbind outcome_bind]. rewrite next_byte_end by done. cbn [mbind outcome_bind].
    cbn [app]. rewrite group_combined, put_quad by first [done|apply group_range].
    destruct fuel; cbn [encode_loop]; rewrite <- Hl, Nat.ltb_irrefl; by rewrite <- app_assoc.
  - rewrite (next_byte_app (pre ++ [a]) b (c :: rest)) by (rewrite ?length_app, <- ?app_assoc; cbn; first [done|lia]).
    cbn [mbind outcome_bind].
    rewrite (next_byte_app (pre ++ [a; b]) c rest) by (rewrite ?length_app, <- ?app_assoc; cbn; first [done|lia]).
    cbn [mbind outcome_bind app]. rewrite group_combined, put_quad by first [done|apply group_range].
    specialize (IH fuel (pre ++ [a; b; c]) (out ++ quad dictionary (group a b c)) hole1).
    rewrite !length_app in IH. change (length (quad _ _)) with 4%nat in IH; change (length [a; b; c]) with 3%nat in IH.
    replace (S (S (S (length pre)))) with (length pre + 3)%nat by lia.
    rewrite IH by (rewrite ?E, <- ?app_assoc; cbn in *; solve [done|lia]).
    rewrite <- !app_assoc. f_equal. f_equal. cbn [length]. lia.
Qed.

Lemma raw_length l : length (raw l) = encodedLength (length l).
Proof. induction l using list_ind3; [done..|]. cbn [raw length]. rewrite encodedLength_step, length_app. change (length (quad _ _)) with 4%nat. lia. Qed.

(** The padding replaces what the missing bytes gave. *)
Lemma raw_padded l :
  match (length l mod 3)%nat with
  | O => raw l = base64 dictionary l
  | 1%nat => exists p x y, raw l = p ++ [x; y] /\ base64 dictionary l = p ++ [pad_char; pad_char]
  | _ => exists p x, raw l = p ++ [x] /\ base64 dictionary l = p ++ [pad_char]
  end.
Proof.
  induction l as [|a|a b|a b c l IH] using list_ind3; [done| | |].
  1: exists (take 2 (quad dictionary (group a (chr 0) (chr 0)))); by do 2 eexists.
  1: exists (take 3 (quad dictionary (group a b (chr 0)))); by eexists.
  change (length (a :: b :: c :: l)) with (3 + length l)%nat.
  replace ((3 + length l) mod 3)%nat with (length l mod 3)%nat
    by (replace (3 + length l)%nat with (length l + 1 * 3)%nat by lia; by rewrite Nat.Div0.mod_add).
  cbn [raw base64]. destruct (length l mod 3)%nat as [|[|r]].
  - by rewrite IH.
  - destruct IH as (p & x & y & -> & ->). exists (quad dictionary (group a b c) ++ p), x, y. by rewrite <- !app_assoc.
  - destruct IH as (p & x & -> & ->). exists (quad dictionary (group a b c) ++ p), x. by rewrite <- !app_assoc.
Qed.

Lemma encodeHelper_spec dst :
  (encodedLength (length src) <= length dst)%nat ->
  encodeHelper dictionary src dst =
    Done (encodedLength (length src), base64 dictionary src ++ drop (encodedLength (length src)) dst).
Proof.
  intros Hd. unfold encodeHelper. set (n := encodedLength (length src)) in *. set (hole := drop n dst).
  pose proof (encode_loop_spec src (length src) [] [] (take n dst) hole eq_refl ltac:(done)) as H.
  cbn [length app] in H. unfold hole in H. rewrite take_drop in H.
  rewrite H by (rewrite length_take, raw_length; lia). clear H. fold hole.
  cbn [mbind outcome_bind]. rewrite length_take, Nat.min_l, Nat.add_0_l by done.
  assert (n = length (raw src)) as En by (by rewrite raw_length). pose proof (raw_padded src) as Hp.
  pose proof (Nat.mod_upper_bound (length src) 3 ltac:(lia)) as Hb.
  clearbody n. destruct (length src mod 3)%nat as [|[|[|r]]]; [..|lia]; cbn [Nat.leb Nat.eqb].
  - cbn. by rewrite Hp.
  - destruct Hp as (p & x & y & Hr & ->). rewrite Hr, length_app in En. rewrite Hr. cbn [length] in En.
    replace ((p ++ [x; y]) ++ hole) with ((p ++ [x]) ++ y :: hole) by (by rewrite <- !app_assoc).
    rewrite store_app by (rewrite length_app; cbn; lia). cbn [mbind outcome_bind].
    rewrite <- app_assoc. cbn [app]. rewrite store_app by lia. cbn [mbind outcome_bind]. by rewrite <- app_assoc.
  - destruct Hp as (p & x & Hr & ->). rewrite Hr, length_app in En. rewrite Hr. cbn [length] in En.
    rewrite <- app_assoc. cbn [app]. rewrite store_app by lia. cbn [mbind outcome_bind]. by rewrite <- app_assoc.
Qed.
End EncodeSpec.

(** ** The decoder reads it back *)

Section DecodeSpec.
  Context (dictionary : bytes) (rev : list Z) `{!Dialect dictionary rev} (src : bytes).

Lemma digit_spec pre z post i :
  src = pre ++ digit_at dictionary z :: post -> i = length pre -> 0 <= z < 64 -> digit rev src i = Done z.
Proof.
  intros -> Hi Hz. unfold digit. rewrite load_app by done. cbn. by rewrite digit_back.
Qed.

Lemma put_byte_spec out x hole j n shift c :
  j = length out -> Z.shiftr n shift mod 256 = code c ->
  put_byte (out ++ x :: hole) j n shift = Done ((out ++ [c]) ++ hole).
Proof.
  intros -> E. unfold put_byte, wrapU. change (2 ^ 8) with 256. rewrite E, chr_code.
  rewrite store_app by done. by rewrite <- app_assoc.
Qed.

Lemma group_bytes a b c :
  Z.shiftr (group a b c) 16 mod 256 = code a /\ Z.shiftr (group a b c) 8 mod 256 = code b /\
  Z.shiftr (group a b c) 0 mod 256 = code c.
Proof.
  pose proof (code_range a). pose proof (code_range b). pose proof (code_range c).
  rewrite !Z.shiftr_div_pow2 by lia. change (2 ^ 16) with 65536. change (2 ^ 8) with 256. change (2 ^ 0) with 1.
  unfold group. split_and!; Z.div_mod_to_equations; lia.
Qed.

Lemma group_digits a b c :
  let n := group a b c in 0 <= n / 262144 < 64 /\ 0 <= n / 4096 mod 64 < 64 /\ 0 <= n / 64 mod 64 < 64 /\ 0 <= n mod 64 < 64.
Proof. intros n. pose proof (group_range a b c). subst n. Z.div_mod_to_equations. lia. Qed.

Lemma not_illegal z : 0 <= z < 64 -> (z =? 255) = false.
Proof. lia. Qed.

Lemma digit_in pre l post i z :
  src = pre ++ map (digit_at dictionary) l ++ post -> l !! i = Some z -> 0 <= z < 64 ->
  digit rev src (length pre + i) = Done z.
Proof.
  intros E Hi Hz. rewrite <- (take_drop_middle _ _ _ Hi), map_app in E. cbn [map] in E.
  apply (digit_spec (pre ++ map (digit_at dictionary) (take i l)) z (map (digit_at dictionary) (drop (S i) l) ++ post)); [|..|done].
  - by rewrite E, <- !app_assoc.
  - apply lookup_lt_Some in Hi. rewrite length_app, length_map, length_take. lia.
Qed.

Lemma full_block_spec pre a b c post out x y z hole i j :
  src = pre ++ quad dictionary (group a b c) ++ post -> i = length pre -> j = length out ->
  full_block rev src i j (out ++ x :: y :: z :: hole) = Done (Some ((out ++ [a; b; c]) ++ hole)).
Proof.
  intros E -> ->. destruct (group_digits a b c) as (H1 & H2 & H3 & H4). set (n := group a b c) in *.
  pose proof (fun i z => digit_in pre _ post i z E) as Hd. unfold full_block. rewrite <- (Nat.add_0_r (length pre)) at 1.
  rewrite (Hd 0%nat _ eq_refl H1), (Hd 1%nat _ eq_refl H2), (Hd 2%nat _ eq_refl H3), (Hd 3%nat _ eq_refl H4).
  cbn [mbind outcome_bind].
  rewrite !not_illegal by done. cbn [orb]. rewrite digits_combined by apply group_range.
  destruct (group_bytes a b c) as (E1 & E2 & E3).
  rewrite (put_byte_spec _ _ _ _ _ _ a) by done. cbn [mbind outcome_bind].
  rewrite (put_byte_spec _ _ _ _ _ _ b) by (rewrite ?length_app; done). cbn [mbind outcome_bind].
  rewrite (put_byte_spec _ _ _ _ _ _ c) by (rewrite ?length_app; cbn; first [done|lia]). cbn [mbind outcome_bind].
  by rewrite <- !app_assoc.
Qed.

Lemma pad_spec pre l post i :
  src = pre ++ l ++ post -> l !! i = Some pad_char -> load src (length pre + i) = Done (code pad_char).
Proof.
  intros -> Hi. unfold load. rewrite lookup_app_r, Nat.add_comm, Nat.add_sub by lia.
  by rewrite (lookup_app_l_Some _ _ _ _ Hi).
Qed.

Lemma one_byte_spec pre a out x hole i j :
  src = pre ++ base64 dictionary [a] -> i = length pre -> j = length out ->
  one_byte rev src i j (out ++ x :: hole) = Done (Some ((out ++ [a]) ++ hole)).
Proof.
  intros E -> ->. destruct (group_digits a (chr 0) (chr 0)) as (H1 & H2 & _). cbn [base64] in E.
  set (n := group a (chr 0) (chr 0)) in *.
  pose proof (fun i z => digit_in pre [n / 262144; n / 4096 mod 64] _ i z E) as Hd.
  unfold one_byte. rewrite <- (Nat.add_0_r (length pre)) at 1.
  rewrite (Hd 0%nat _ eq_refl H1), (Hd 1%nat _ eq_refl H2). cbn [mbind outcome_bind].
  rewrite <- (app_nil_r (take 2 _ ++ _)) in E.
  rewrite (pad_spec pre _ [] 3 E eq_refl). cbn [mbind outcome_bind].
  rewrite !not_illegal by done. rewrite Z.eqb_refl. cbn [orb negb].
  rewrite (put_byte_spec _ _ _ _ _ _ a); [cbn [mbind outcome_bind]; done|done|].
  pose proof (code_range a). change (code (chr 0)) with 0 in *.
  assert (n = code a * 65536) as -> by (unfold n, group; change (code (chr 0)) with 0; lia).
  rewrite lor_add by (rewrite ?Z.shiftl_mul_pow2; lia). rewrite Z.shiftl_mul_pow2, Z.shiftr_div_pow2 by lia.
  change (2 ^ 18) with 262144. change (2 ^ 12) with 4096. change (2 ^ 16) with 65536. Z.div_mod_to_equations. lia.
Qed.

Lemma two_bytes_spec pre a b out x y hole i j :
  src = pre ++ base64 dictionary [a; b] -> i = length pre -> j = length out ->
  two_bytes rev src i j (out ++ x :: y :: hole) = Done (Some ((out ++ [a; b]) ++ hole)).
Proof.
  intros E -> ->. destruct (group_digits a b (chr 0)) as (H1 & H2 & H3 & _). cbn [base64] in E.
  set (n := group a b (chr 0)) in *.
  pose proof (fun i z => digit_in pre [n / 262144; n / 4096 mod 64; n / 64 mod 64] _ i z E) as Hd.
  unfold two_bytes. rewrite <- (Nat.add_0_r (length pre)) at 1.
  rewrite (Hd 0%nat _ eq_refl H1), (Hd 1%nat _ eq_refl H2), (Hd 2%nat _ eq_refl H3). cbn [mbind outcome_bind].
  rewrite !not_illegal by done. cbn [orb].
  assert (n mod 64 = 0) as En by (unfold n, group; change (code (chr 0)) with 0; Z.div_mod_to_equations; lia).
  pose proof (digits_combined n (group_range a b (chr 0))) as Ec. rewrite En, Z.lor_0_r in Ec. rewrite Ec.
  destruct (group_bytes a b (chr 0)) as (E1 & E2 & _).
  rewrite (put_byte_spec _ _ _ _ _ _ a) by done. cbn [mbind outcome_bind].
  rewrite (put_byte_spec _ _ _ _ _ _ b) by (rewrite ?length_app; done). cbn [mbind outcome_bind].
  by rewrite <- !app_assoc.
Qed.

Lemma quad_no_pad a b c i d : quad dictionary (group a b c) !! i = Some d -> d <> pad_char.
Proof.
  destruct (group_digits a b c) as (H1 & H2 & H3 & H4). unfold quad. intros H.
  apply list_lookup_fmap_Some in H as (z & -> & Hz). apply digit_no_pad.
  do 4 (destruct i as [|i]; [by injection Hz as <-|]). done.
Qed.

Lemma load_quad pre a b c post i : (i < 4)%nat ->
  src = pre ++ quad dictionary (group a b c) ++ post -> exists d, load src (length pre + i) = Done (code d) /\ d <> pad_char.
Proof.
  intros Hi ->. destruct (lookup_lt_is_Some_2 (quad dictionary (group a b c)) i Hi) as [d Hd].
  exists d. split; [|by eapply quad_no_pad]. unfold load.
  rewrite lookup_app_r, Nat.add_comm, Nat.add_sub by lia. by rewrite (lookup_app_l_Some _ _ _ _ Hd).
Qed.

Lemma base64_nonempty l : l <> [] -> (4 <= length (base64 dictionary l))%nat.
Proof.
  intros H. destruct l as [|a [|b [|c l]]]; try done; cbn [base64]; rewrite length_app; cbn; lia.
Qed.

(** A full block that is the last is reached through the jump. *)
Lemma decode_full fuel pre a b c l out x y z hole :
  src = pre ++ base64 dictionary (a :: b :: c :: l) ->
  decode_loop rev src (S (S (S fuel))) While (length pre) (length out) (out ++ x :: y :: z :: hole) =
  decode_loop rev src (if bool_decide (l = []) then fuel else S fuel) While
    (length (pre ++ quad dictionary (group a b c))) (length (out ++ [a; b; c])) ((out ++ [a; b; c]) ++ hole).
Proof.
  intros E. cbn [base64] in E.
  assert (forall fuel, decode_loop rev src (S fuel) no_padding (length pre) (length out) (out ++ x :: y :: z :: hole) =
    decode_loop rev src fuel While (length (pre ++ quad dictionary (group a b c))) (length (out ++ [a; b; c])) ((out ++ [a; b; c]) ++ hole)) as Hblock.
  { intros f. cbn [decode_loop]. rewrite (full_block_spec pre a b c _ out x y z hole _ _ E) by done. cbn [mbind outcome_bind].
    rewrite !length_app. done. }
  assert (length src = length pre + 4 + length (base64 dictionary l))%nat as El by (rewrite E, !length_app; cbn; lia).
  destruct (decide (l = [])) as [->|Hl]; case_bool_decide; try done.
  - cbn [base64 length] in El. set (n := length src) in *. cbn [decode_loop]. fold n.
    assert ((length pre <? n - 4)%nat = false) as -> by (apply Nat.ltb_ge; lia).
    assert ((length pre <? n)%nat = true) as -> by (apply Nat.ltb_lt; lia).
    destruct (load_quad pre a b c _ 2 ltac:(lia) E) as (d & -> & Hd). cbn [mbind outcome_bind].
    assert ((code d =? code pad_char) = false) as -> by (apply Z.eqb_neq; by intros ?%code_inj).
    destruct (load_quad pre a b c _ 3 ltac:(lia) E) as (d' & -> & Hd'). cbn [mbind outcome_bind].
    assert ((code d' =? code pad_char) = false) as -> by (apply Z.eqb_neq; by intros ?%code_inj).
    apply Hblock.
  - pose proof (base64_nonempty l Hl). change (decode_loop rev src (S (S (S fuel))) While) with
      (fun i j => decode_loop rev src (S (S fuel)) (if (i <? length src - 4)%nat then no_padding else Last) i j). cbv beta.
    assert ((length pre <? length src - 4)%nat = true) as -> by (apply Nat.ltb_lt; lia). apply Hblock.
Qed.

Lemma decode_loop_spec l fuel pre out hole :
  src = pre ++ base64 dictionary l -> (length (base64 dictionary l) + 2 <= fuel)%nat -> (length l <= length hole)%nat ->
  decode_loop rev src fuel While (length pre) (length out) (out ++ hole) =
    Done (Z.of_nat (length out + length l), out ++ l ++ drop (length l) hole).
Proof.
  revert fuel pre out hole. induction l as [|a|a b|a b c l IH] using list_ind3; intros fuel pre out hole E Hf Hh.
  4: { cbn [base64] in Hf. rewrite length_app in Hf. change (length (quad _ _)) with 4%nat in Hf.
       destruct hole as [|x [|y [|z hole]]]; cbn [length] in Hh; [lia..|].
       destruct fuel as [|[|[|fuel]]]; [lia..|]. rewrite (decode_full fuel pre a b c l out x y z hole E).
       rewrite IH.
       - f_equal. rewrite !length_app, <- app_assoc. cbn [length drop app]. f_equal. lia.
       - by rewrite E, <- app_assoc.
       - case_bool_decide; lia.
       - lia. }
  all: assert (length src = length pre + length (base64 dictionary (if true then _ else [])))%nat as El
    by (rewrite E, length_app; reflexivity); cbn [base64] in El.
  - rewrite Nat.add_0_r in El. destruct fuel as [|[|fuel]]; [cbn in Hf; lia..|]. cbn [decode_loop].
    assert ((length pre <? length src - 4)%nat = false) as -> by (apply Nat.ltb_ge; lia).
    rewrite El, Nat.ltb_irrefl. cbn. by rewrite Nat.add_0_r, drop_0.
  - rewrite length_app in El. change (length (take 2 (quad _ _))) with 2%nat in El. change (length [pad_char; pad_char]) with 2%nat in El.
    destruct hole as [|x hole]; [cbn in Hh; lia|].
    destruct fuel as [|[|fuel]]; [cbn in Hf; lia..|]. cbn [decode_loop].
    assert ((length pre <? length src - 4)%nat = false) as -> by (apply Nat.ltb_ge; lia).
    assert ((length pre <? length src)%nat = true) as -> by (apply Nat.ltb_lt; lia).
    pose proof E as E'. rewrite <- (app_nil_r (base64 _ _)) in E'. rewrite (pad_spec pre _ [] 2 E' eq_refl). cbn [mbind outcome_bind].
    rewrite Z.eqb_refl, (one_byte_spec pre a out x hole _ _ E) by done. cbn. by rewrite <- app_assoc, drop_0.
  - rewrite length_app in El. change (length (take 3 (quad _ _))) with 3%nat in El. change (length [pad_char]) with 1%nat in El.
    destruct hole as [|x [|y hole]]; [cbn in Hh; lia..|].
    destruct fuel as [|[|fuel]]; [cbn in Hf; lia..|]. cbn [decode_loop].
    assert ((length pre <? length src - 4)%nat = false) as -> by (apply Nat.ltb_ge; lia).
    assert ((length pre <? length src)%nat = true) as -> by (apply Nat.ltb_lt; lia).
    pose proof E as E'. rewrite <- (app_nil_r (base64 _ _)) in E'.
    assert (exists d, load src (length pre + 2) = Done (code d) /\ d <> pad_char) as (d & -> & Hd).
    { destruct (group_digits a b (chr 0)) as (_ & _ & H3 & _). eexists. split; [|by apply digit_no_pad].
      unfold load. rewrite E', lookup_app_r by lia. rewrite Nat.add_comm, Nat.add_sub. reflexivity. }
    cbn [mbind outcome_bind]. assert ((code d =? code pad_char) = false) as -> by (apply Z.eqb_neq; by intros ?%code_inj).
    rewrite (pad_spec pre _ [] 3 E' eq_refl). cbn [mbind outcome_bind].
    rewrite Z.eqb_refl, (two_bytes_spec pre a b out x y hole _ _ E) by done. cbn. by rewrite <- app_assoc, drop_0.
Qed.
End DecodeSpec.

Section RoundTrip.
  Context (dictionary : bytes) (rev : list Z) `{!Dialect dictionary rev}.

Lemma encodedLength_mod n : (encodedLength n mod 4 = 0)%nat.
Proof. unfold encodedLength. rewrite Nat.mul_comm. apply Nat.Div0.mod_mul. Qed.

Lemma decodeHelper_spec l dst :
  (length l <= length dst)%nat ->
  decodeHelper rev (base64 dictionary l) dst = Done (Z.of_nat (length l), l ++ drop (length l) dst).
Proof.
  intros Hd. unfold decodeHelper. set (src := base64 dictionary l).
  assert (length src = encodedLength (length l)) as En by apply base64_length.
  rewrite En, encodedLength_mod. cbn [Nat.eqb negb]. rewrite <- En.
  assert (forall fuel, (length src + 2 <= fuel)%nat -> decode_loop rev src fuel While 0 0 dst =
    Done (Z.of_nat (length l), l ++ drop (length l) dst)) as Hrun.
  { intros fuel Hf. by apply (decode_loop_spec dictionary rev src l fuel [] [] dst). }
  destruct (Nat.ltb_spec 4 (length src)) as [H|H]; [apply Hrun; lia|].
  specialize (Hrun (S (length src + 4)) ltac:(lia)). cbn [decode_loop] in Hrun.
  by replace (length src - 4)%nat with O in Hrun by lia.
Qed.

(** Any text: the decoder stays in its buffers, and says at most their size. *)
Lemma load_total src i : (i < length src)%nat -> exists c, load src i = Done c /\ 0 <= c < 256.
Proof.
  intros [c Hc]%lookup_lt_is_Some_2. unfold load. rewrite Hc. eexists. split; [done|apply code_range].
Qed.
Lemma digit_total src i : (i < length src)%nat -> exists v, digit rev src i = Done v.
Proof.
  intros Hi. destruct (load_total src i Hi) as (c & Ec & Hc). unfold digit. rewrite Ec. cbn.
  destruct (lookup_lt_is_Some_2 rev (Z.to_nat c)) as [v ->]; [pose proof rev_length; lia|]. by eexists.
Qed.
Lemma put_byte_total dst j c s : (j < length dst)%nat -> exists d, put_byte dst j c s = Done d /\ length d = length dst.
Proof. apply store_Done. Qed.

Ltac total_step :=
  match goal with
  | |- context [digit rev ?src ?i] => destruct (digit_total src i) as [? ->]; [lia|]
  | |- context [load ?src ?i] => destruct (load_total src i) as (? & -> & _); [lia|]
  | |- context [put_byte ?d ?j ?c ?s] =>
      let L := fresh "L" in destruct (put_byte_total d j c s) as (? & -> & L); [lia|]; try rewrite L
  | |- context [if ?b || ?c then Done None else _] => destruct (b || c)
  end; cbn [mbind outcome_bind].

Definition keeps_length (dst : bytes) (o : outcome (option bytes)) : Prop :=
  exists r, o = Done r /\ match r with Some d => length d = length dst | None => True end.
Lemma full_block_total src i j dst :
  (i + 3 < length src)%nat -> (j + 2 < length dst)%nat -> keeps_length dst (full_block rev src i j dst).
Proof. intros Hi Hj. unfold full_block, keeps_length. repeat total_step; eexists; (split; [done|]); [done|cbn; lia]. Qed.
Lemma one_byte_total src i j dst :
  (i + 3 < length src)%nat -> (j + 2 < length dst)%nat -> keeps_length dst (one_byte rev src i j dst).
Proof. intros Hi Hj. unfold one_byte, keeps_length. repeat total_step; eexists; (split; [done|]); [done|cbn; lia]. Qed.
Lemma two_bytes_total src i j dst :
  (i + 3 < length src)%nat -> (j + 2 < length dst)%nat -> keeps_length dst (two_bytes rev src i j dst).
Proof. intros Hi Hj. unfold two_bytes, keeps_length. repeat total_step; eexists; (split; [done|]); [done|cbn; lia]. Qed.

Lemma decode_in_bounds src fuel at_label i j dst q m :
  length src = (4 * m)%nat -> i = (4 * q)%nat -> j = (3 * q)%nat -> (3 * m <= length dst)%nat ->
  (match at_label with While => q <= m /\ 3 * (m - q) + 2 <= fuel | no_padding => q < m /\ 3 * (m - q) <= fuel
   | Last => q <= m <= q + 1 /\ 3 * (m - q) + 1 <= fuel end)%nat ->
  exists r dst', decode_loop rev src fuel at_label i j dst = Done (r, dst') /\ length dst' = length dst /\
    (r = minus_one \/ 0 <= r <= Z.of_nat (3 * m)).
Proof.
  intros Hsrc. revert at_label i j dst q. induction fuel as [|fuel IH]; intros at_label i j dst q -> -> Hd Hf.
  { exfalso. destruct at_label; lia. }
  cbn [decode_loop]. destruct at_label.
  - destruct (Nat.ltb_spec (4 * q) (length src - 4)); apply (IH _ _ _ _ q); try done; lia.
  - destruct (full_block_total src (4 * q) (3 * q) dst) as ([d1|] & -> & L); [lia..| |]; cbn [mbind outcome_bind].
    2: { exists minus_one, dst. by split_and!; [..|left]. }
    destruct (IH While (4 * q + 4)%nat (3 * q + 3)%nat d1 (S q)) as (r & d & E & Ld & Hr); [lia..|].
    exists r, d. by rewrite E, Ld.
  - destruct (Nat.ltb_spec (4 * q) (length src)) as [H|H].
    2: { exists (Z.of_nat (3 * q)), dst. split_and!; [done..|right; lia]. }
    destruct (load_total src (4 * q + 2)) as (c2 & -> & _); [lia|]. cbn [mbind outcome_bind]. destruct (c2 =? _).
    + destruct (one_byte_total src (4 * q) (3 * q) dst) as ([d1|] & -> & L); [lia..| |]; cbn [mbind outcome_bind].
      * exists (Z.of_nat (3 * q + 1)), d1. split_and!; [done..|right; lia].
      * exists minus_one, dst. by split_and!; [..|left].
    + destruct (load_total src (4 * q + 3)) as (c3 & -> & _); [lia|]. cbn [mbind outcome_bind]. destruct (c3 =? _).
      * destruct (two_bytes_total src (4 * q) (3 * q) dst) as ([d1|] & -> & L); [lia..| |]; cbn [mbind outcome_bind].
        -- exists (Z.of_nat (3 * q + 2)), d1. split_and!; [done..|right; lia].
        -- exists minus_one, dst. by split_and!; [..|left].
      * apply (IH _ _ _ _ q); [lia..|done|lia].
Qed.

Lemma decodeHelper_total src dst :
  (decodedLength (length src) <= length dst)%nat ->
  exists r dst', decodeHelper rev src dst = Done (r, dst') /\ length dst' = length dst /\
    (r = minus_one \/ 0 <= r <= Z.of_nat (decodedLength (length src))).
Proof.
  unfold decodedLength, decodeHelper. intros Hd. destruct (Nat.eqb_spec (length src mod 4) 0) as [Hm|Hm]; cbn [negb].
  2: { exists minus_one, dst. by split_and!; [..|left]. }
  set (m := (length src / 4)%nat) in *.
  assert (length src = 4 * m)%nat as El by (unfold m; pose proof (Nat.div_mod_eq (length src) 4); lia).
  destruct (decode_in_bounds src (length src + 4) (if (4 <? length src)%nat then While else Last) 0 0 dst 0 m)
    as (r & d & E & L & Hr); [done..| |by eauto].
  destruct (Nat.ltb_spec 4 (length src)); lia.
Qed.
End RoundTrip.

(** ** The functions on vectors *)

Section Vectors.
  Context (dictionary : bytes) (rev : list Z) `{!Dialect dictionary rev}.

Definition pads (n : nat) : nat := (3 - n mod 3) mod 3.
Lemma pads_step n : pads (S (S (S n))) = pads n.
Proof. unfold pads. replace (S (S (S n))) with (n + 1 * 3)%nat by lia. by rewrite Nat.Div0.mod_add. Qed.

Lemma quad_digits a b c : Forall (fun d => d <> pad_char) (quad dictionary (group a b c)).
Proof. apply Forall_lookup. intros i d. by eapply quad_no_pad. Qed.

(** Digits, then the padding. *)
Lemma base64_split l :
  exists text, base64 dictionary l = text ++ replicate (pads (length l)) pad_char /\ Forall (fun d => d <> pad_char) text.
Proof.
  induction l as [|a|a b|a b c l IH] using list_ind3.
  - by exists [].
  - exists (take 2 (quad dictionary (group a (chr 0) (chr 0)))). split; [done|apply Forall_take, quad_digits].
  - exists (take 3 (quad dictionary (group a b (chr 0)))). split; [done|apply Forall_take, quad_digits].
  - destruct IH as (text & E & Ht). cbn [base64 length]. rewrite pads_step, E.
    exists (quad dictionary (group a b c) ++ text). split; [by rewrite app_assoc|]. apply Forall_app. split; [apply quad_digits|done].
Qed.

Lemma strip_pads_spec text n :
  Forall (fun d => d <> pad_char) text -> text <> [] ->
  strip_pads (length text + n) (text ++ replicate n pad_char) = Done (length text).
Proof.
  intros Ht Hne. induction n as [|n IH].
  - rewrite Nat.add_0_r, app_nil_r. destruct text as [|d text _] using rev_ind; [done|].
    rewrite length_app. cbn [length]. rewrite Nat.add_1_r. cbn [strip_pads]. rewrite load_app by done.
    cbn [mbind outcome_bind]. apply Forall_app in Ht as [_ Ht%Forall_inv].
    destruct (Z.eqb_spec (code d) (code pad_char)) as [?%code_inj|]; done.
  - rewrite Nat.add_succ_r. cbn [strip_pads]. rewrite replicate_S_end, app_assoc, load_app by (rewrite length_app, length_replicate; lia).
    cbn [mbind outcome_bind]. rewrite Z.eqb_refl, <- app_assoc.
    assert (forall m b b', (m <= length b)%nat -> strip_pads m (b ++ b') = strip_pads m b) as Hext.
    { clear. intros m b b' H. induction m as [|m IH]; [done|]. cbn [strip_pads]. unfold load.
      rewrite lookup_app_l by lia. destruct (b !! m); [|done]. cbn. rewrite IH by lia. done. }
    rewrite app_assoc, Hext by (rewrite length_app, length_replicate; lia). exact IH.
Qed.

Lemma unpadded_length text l :
  base64 dictionary l = text ++ replicate (pads (length l)) pad_char ->
  ((4 - length text mod 4) mod 4)%nat = pads (length l).
Proof.
  intros E. pose proof (base64_length dictionary l) as El. rewrite E, length_app, length_replicate in El.
  pose proof (encodedLength_mod (length l)) as Hm. rewrite <- El in Hm.
  assert (pads (length l) < 3)%nat by (apply Nat.mod_upper_bound; lia). set (p := pads (length l)) in *.
  clearbody p. clear - Hm H.
  assert (length text mod 4 = (4 - p) mod 4)%nat as ->; [|by destruct p as [|[|[|]]]; [..|lia]].
  apply Nat2Z.inj. apply (f_equal Z.of_nat) in Hm. rewrite !Nat2Z.inj_mod, Nat2Z.inj_add, Nat2Z.inj_sub in * by lia.
  change (Z.of_nat 4) with 4 in *. Z.div_mod_to_equations. lia.
Qed.

Lemma decode_vector_spec l :
  Z.of_nat (length l) < minus_one -> decode_vector (decodeHelper rev) (base64 dictionary l) = Done (Some l).
Proof.
  intros Hl. unfold decode_vector. remember (decodedLength (length (base64 dictionary l))) as n eqn:En.
  assert (length l <= n)%nat as Hn.
  { rewrite En, base64_length. unfold decodedLength, encodedLength. rewrite Nat.mul_comm, (Nat.mul_comm 4), Nat.div_mul by lia.
    pose proof (Nat.div_mod_eq (length l + 2) 3). pose proof (Nat.mod_upper_bound (length l + 2) 3). lia. }
  rewrite (decodeHelper_spec dictionary rev) by (by rewrite length_replicate). cbn [mbind outcome_bind].
  destruct (Z.eqb_spec (Z.of_nat (length l)) minus_one); [lia|]. by rewrite Nat2Z.id, resize_app_le, resize_all by done.
Qed.

Lemma decode_vector_total text : is_done (decode_vector (decodeHelper rev) text) = true.
Proof.
  unfold decode_vector. destruct (decodeHelper_total dictionary rev text (replicate (decodedLength (length text)) (chr 0)))
    as (r & d & -> & _); [by rewrite length_replicate|]. cbn. by destruct (r =? _).
Qed.
End Vectors.

Lemma url_spec src :
  Z.of_nat (length src) < minus_one -> src <> [] -> exists text, encodeURLNoPadding src = Done text /\
    base64 BASE64_URL_INDEX src = text ++ replicate (pads (length src)) pad_char /\
    Forall (fun d => d <> pad_char) text /\ decodeURLNoPadding text = Done (Some src).
Proof.
  intros Hl Hne.
  destruct (base64_split BASE64_URL_INDEX BASE64_URL_REV_INDEX src) as (text & E & Ht).
  exists text. unfold encodeURLNoPadding, encodeUrl.
  rewrite (encodeHelper_spec BASE64_URL_INDEX BASE64_URL_REV_INDEX) by (by rewrite length_replicate). cbn [mbind outcome_bind]. rewrite <- (base64_length BASE64_URL_INDEX), E, length_app, length_replicate.
  rewrite drop_ge by (rewrite length_replicate; lia). rewrite app_nil_r.
  assert (text <> []) as Htext.
  { intros ->. pose proof (base64_nonempty BASE64_URL_INDEX src Hne) as H4. rewrite E, length_app, length_replicate in H4.
    unfold pads in H4. pose proof (Nat.mod_upper_bound (3 - length src mod 3) 3). cbn in H4. lia. }
  rewrite strip_pads_spec by done. cbn [mbind outcome_bind]. rewrite take_app_length. split_and!; [done..|].
  unfold decodeURLNoPadding. rewrite (unpadded_length BASE64_URL_INDEX text src E), <- E.
  by apply (decode_vector_spec BASE64_URL_INDEX BASE64_URL_REV_INDEX).
Qed.


