(* ===== verification/CipherStream.v ===== *)
(** * cpp/crypto: the cipher context and the stream that encrypts or decrypts.

    OpenSSL's EVP interface is a parameter: a state, [update] and [final].  What the code
    relies on is the class [EvpLaws]: calls may be cut anywhere, and a block cipher with
    padding keeps back less than a block when it encrypts and at most one when it decrypts.
    A [throw] with nothing to throw again ends the process; like an access out of bounds it
    is [Undef].  The iostream functions over the buffer ([sgetn], [sputc], [sputn]) are
    those of the standard library. *)

From S2P Require Import Prelude CLib Base64.

Inductive CryptoOperation := ENCRYPT | DECRYPT | INVALID.
#[export] Instance CryptoOperation_eq_dec : EqDecision CryptoOperation.
Proof. solve_decision. Defined.

Definition aes_block : nat := 16.

(** ** The library *)

(** One operation of EVP after its [Init]: [final] may refuse (a wrong padding). *)
Record evp := mk_evp {
  evp_state : Type;
  evp_update : evp_state -> bytes -> evp_state * bytes;
  evp_final : evp_state -> option bytes
}.

(** All the output for an input, from a state. *)
Definition whole (E : evp) (c : evp_state E) (s : bytes) : option bytes :=
  let '(c, out) := evp_update E c s in (fun last => out ++ last) <$> evp_final E c.

(** How many bytes a state may keep back: less than a block, or one until the next comes. *)
Definition keeps (op : CryptoOperation) (n : nat) : Prop :=
  match op with ENCRYPT => (n < aes_block)%nat | _ => (n <= aes_block)%nat end.

Class EvpLaws (op : CryptoOperation) (E : evp) := {
  evp_kept : evp_state E -> nat;
  update_nil : forall c, keeps op (evp_kept c) -> evp_update E c [] = (c, []);
  update_app : forall c s t,
    evp_update E c (s ++ t) =
      let '(c1, o1) := evp_update E c s in let '(c2, o2) := evp_update E c1 t in (c2, o1 ++ o2);
  update_size : forall c s, let '(c', o) := evp_update E c s in (length o + evp_kept c' = evp_kept c + length s)%nat;
  update_blocks : forall c s, (length (snd (evp_update E c s)) mod aes_block = 0)%nat;
  update_keeps : forall c s, keeps op (evp_kept c) -> keeps op (evp_kept (fst (evp_update E c s)));
  final_encrypt : op = ENCRYPT -> forall c o, evp_final E c = Some o -> length o = aes_block;
  final_decrypt : op <> ENCRYPT -> forall c o, evp_final E c = Some o -> (length o <= evp_kept c)%nat
}.

(** ** CipherContext *)

Section Cipher.
  Context (E : evp).

Record CipherContext := mk_cipher {
  ctx : evp_state E; op : CryptoOperation; inOff : nat; outOff : nat
}.

(** The state is the one [EVP_EncryptInit_ex] or [EVP_DecryptInit_ex] leaves. *)
Definition initialize (init : evp_state E) (o : CryptoOperation) : outcome CipherContext :=
  match o with INVALID => Undef | _ => Done (mk_cipher init o 0 0) end.
Definition next (x : CipherContext) (input : bytes) : outcome (CipherContext * bytes) :=
  match op x with
  | INVALID => Undef
  | _ =>
      let '(c, out) := evp_update E (ctx x) input in
      Done (mk_cipher c (op x) (inOff x + length input) (outOff x + length out), out)
  end.
(** The offsets are set to -1; no function reads them then. *)
Definition finalize (x : CipherContext) : outcome (CipherContext * bytes) :=
  match op x with
  | INVALID => Undef
  | _ => out ← deref (evp_final E (ctx x)); Done (mk_cipher (ctx x) INVALID 0 0, out)
  end.

Lemma initialize_valid init o : o <> INVALID -> initialize init o = Done (mk_cipher init o 0 0).
Proof. by destruct o. Qed.

(** ** CipherStreamBuf

    [source] is what the underlying buffer has left to read, [sink] what it was given;
    [room] is how much more it takes.  [pending] is the put area, [ready] the get area. *)
Record CipherStreamBuf := mk_stream {
  source : bytes; sink : bytes; room : nat;
  cipherCtx : CipherContext;
  pending : bytes; ready : bytes;
  readReachEnds : bool; finalized : bool
}.

Definition open_stream (init : evp_state E) (o : CryptoOperation) (source : bytes) (room : nat) : outcome CipherStreamBuf :=
  x ← initialize init o; Done (mk_stream source [] room x [] [] false false).

Section Stream.
  Context (blockSize : nat).

(** The result buffer has one block of AES more. *)
Definition resultLen : nat := blockSize + aes_block.
Definition fits (out : bytes) : outcome bytes := if (length out <=? resultLen)%nat then Done out else Undef.

Definition set_ready (r : bytes) (s : CipherStreamBuf) :=
  mk_stream (source s) (sink s) (room s) (cipherCtx s) (pending s) r (readReachEnds s) (finalized s).
Definition set_pending (p : bytes) (s : CipherStreamBuf) :=
  mk_stream (source s) (sink s) (room s) (cipherCtx s) p (ready s) (readReachEnds s) (finalized s).

Fixpoint fill_loop (fuel : nat) (s : CipherStreamBuf) : outcome CipherStreamBuf :=
  match ready s with
  | _ :: _ => Done s
  | [] =>
      if readReachEnds s then Done s
      else
        match fuel with
        | O => NoFuel
        | S fuel =>
            let read := take blockSize (source s) in
            '(x, out) ← next (cipherCtx s) read;
            out ← fits out;
            fill_loop fuel (mk_stream (drop blockSize (source s)) (sink s) (room s) x (pending s) out
                              (length read <? blockSize)%nat (finalized s))
        end
  end.

(** [None] is the end of the file. *)
Definition underflow (s : CipherStreamBuf) : outcome (option ascii * CipherStreamBuf) :=
  s ← fill_loop (S (length (source s))) s;
  s ← (match ready s with
       | [] =>
           if readReachEnds s && negb (finalized s) then
             '(x, out) ← finalize (cipherCtx s);
             out ← fits out;
             Done (mk_stream (source s) (sink s) (room s) x (pending s) out true true)
           else Done s
       | _ => Done s
       end);
  Done (head (ready s), s).

(** [sgetn]: what is in the get area, then [uflow] for the next character. *)
Fixpoint sgetn (n : nat) (s : CipherStreamBuf) : outcome (bytes * CipherStreamBuf) :=
  match n with
  | O => Done ([], s)
  | S n =>
      match ready s with
      | c :: r => '(cs, s) ← sgetn n (set_ready r s); Done (c :: cs, s)
      | [] =>
          '(o, s) ← underflow s;
          match o with
          | None => Done ([], s)
          | Some c => '(cs, s) ← sgetn n (set_ready (tail (ready s)) s); Done (c :: cs, s)
          end
      end
  end.

(** [overflow]: [None] is [eof] (a flush); the result says whether it worked. *)
Definition overflow (ch : option ascii) (s : CipherStreamBuf) : outcome (bool * CipherStreamBuf) :=
  match pending s with
  | [] => Done (false, s)
  | _ =>
      '(x, out) ← next (cipherCtx s) (pending s);
      '(x, last) ← (match ch with None => finalize x | Some _ => Done (x, []) end);
      result ← fits (out ++ last);
      let written := take (room s) result in
      let s := mk_stream (source s) (sink s ++ written) (room s - length written) x (pending s) (ready s)
                 (readReachEnds s) (finalized s) in
      if (length written <? length out)%nat then Done (false, s)
      else Done (true, set_pending (match ch with Some c => if (0 <? blockSize)%nat then [c] else [] | None => [] end) s)
  end.

Definition sputc (c : ascii) (s : CipherStreamBuf) : outcome (bool * CipherStreamBuf) :=
  if (length (pending s) <? blockSize)%nat then Done (true, set_pending (pending s ++ [c]) s)
  else overflow (Some c) s.
(** [sputn]: stops at the first character that is not taken. *)
Fixpoint sputn (cs : bytes) (s : CipherStreamBuf) : outcome (nat * CipherStreamBuf) :=
  match cs with
  | [] => Done (O, s)
  | c :: cs =>
      '(ok, s) ← sputc c s;
      if ok : bool then '(n, s) ← sputn cs s; Done (S n, s) else Done (O, s)
  end.

(** The flush: false is the -1 of the function. *)
Definition sync (s : CipherStreamBuf) : outcome (bool * CipherStreamBuf) := overflow None s.
End Stream.
End Cipher.

Arguments ctx {E}. Arguments op {E}. Arguments source {E}. Arguments sink {E}. Arguments room {E}.
Arguments cipherCtx {E}. Arguments pending {E}. Arguments ready {E}. Arguments readReachEnds {E}. Arguments finalized {E}.

(** A caller that reads in pieces of any size, and one that writes in pieces and flushes. *)
Fixpoint reads {E} (blockSize : nat) (ns : list nat) (s : CipherStreamBuf E) : outcome (bytes * CipherStreamBuf E) :=
  match ns with
  | [] => Done ([], s)
  | n :: ns => '(cs, s) ← sgetn E blockSize n s; '(rest, s) ← reads blockSize ns s; Done (cs ++ rest, s)
  end.
Fixpoint writes {E} (blockSize : nat) (pieces : list bytes) (s : CipherStreamBuf E) : outcome (bool * CipherStreamBuf E) :=
  match pieces with
  | [] => sync E blockSize s
  | p :: pieces =>
      '(n, s) ← sputn E blockSize p s;
      if (n =? length p)%nat then writes blockSize pieces s else Done (false, s)
  end.

(** ** Reading *)

Section Facts.
  Context {E : evp} (o : CryptoOperation) `{!EvpLaws o E} (blockSize : nat).
  Hypothesis (o_valid : o <> INVALID) (block_pos : (0 < blockSize)%nat).

Lemma whole_app c s t :
  whole E c (s ++ t) = let '(c', out) := evp_update E c s in (fun r => out ++ r) <$> whole E c' t.
Proof.
  unfold whole. rewrite update_app. destruct (evp_update E c s) as [c1 o1], (evp_update E c1 t) as [c2 o2].
  destruct (evp_final E c2); cbn; [|done]. by rewrite app_assoc.
Qed.
Lemma whole_nil c : keeps o (evp_kept c) -> whole E c [] = evp_final E c.
Proof. intros Hc. unfold whole. rewrite update_nil by done. by destruct (evp_final E c). Qed.
Lemma keeps_bound n : keeps o n -> (n <= aes_block)%nat.
Proof. destruct o; cbn; lia. Qed.
Lemma keeps_encrypt n : o = ENCRYPT -> keeps o n -> (n < aes_block)%nat.
Proof. by intros ->. Qed.
(** A state that encrypts keeps the bytes behind the last whole block. *)
Lemma kept_encrypt c s :
  o = ENCRYPT -> keeps o (evp_kept c) -> evp_kept (fst (evp_update E c s)) = ((evp_kept c + length s) mod aes_block)%nat.
Proof.
  intros He Hc. pose proof (update_size c s) as Hs. pose proof (update_blocks c s) as Hb. pose proof (update_keeps c s Hc) as Hk.
  apply (keeps_encrypt _ He) in Hk. destruct (evp_update E c s) as [c' out]. cbn [fst snd] in *. rewrite <- Hs.
  by rewrite <- Nat.Div0.add_mod_idemp_l, Hb, Nat.add_0_l, Nat.mod_small.
Qed.
Lemma update_length c s : (length (snd (evp_update E c s)) <= evp_kept c + length s)%nat.
Proof. pose proof (update_size c s) as H. destruct (evp_update E c s). cbn in *. lia. Qed.
Lemma final_length c out : keeps o (evp_kept c) -> evp_final E c = Some out -> (length out <= aes_block)%nat.
Proof.
  intros Hc Ho. destruct (decide (o = ENCRYPT)) as [He|He]; [by rewrite (final_encrypt He c out Ho)|].
  pose proof (final_decrypt He c out Ho). apply keeps_bound in Hc. lia.
Qed.
Lemma fits_ok out : (length out <= resultLen blockSize)%nat -> fits blockSize out = Done out.
Proof. intros H%Nat.leb_le. unfold fits. by rewrite H. Qed.

Record readable (s : CipherStreamBuf E) : Prop := {
  rd_op : finalized s = false -> op (cipherCtx s) = o;
  rd_kept : keeps o (evp_kept (ctx (cipherCtx s)));
  rd_end : readReachEnds s = true -> source s = [];
  rd_final : finalized s = true -> readReachEnds s = true
}.
(** What a reader will still get; [None] when the library refuses the end. *)
Definition remaining (s : CipherStreamBuf E) : option bytes :=
  (fun r => ready s ++ r) <$> (if finalized s then Some [] else whole E (ctx (cipherCtx s)) (source s)).

Lemma remaining_ready s r : remaining s = Some r -> exists l, r = ready s ++ l.
Proof. unfold remaining. destruct (if finalized s then _ else _); [|done]. cbn. intros [= <-]. by eexists. Qed.

Lemma next_valid (x : CipherContext E) s :
  op x = o -> exists i j, next E x s = Done (mk_cipher E (fst (evp_update E (ctx x) s)) o i j, snd (evp_update E (ctx x) s)).
Proof.
  intros Ho. unfold next. destruct (op x) eqn:Ex; try (by subst o); destruct (evp_update E (ctx x) s); subst o; by do 2 eexists.
Qed.

Lemma finalize_valid (x : CipherContext E) last :
  op x = o -> evp_final E (ctx x) = Some last -> finalize E x = Done (mk_cipher E (ctx x) INVALID 0 0, last).
Proof.
  intros Hop El. unfold finalize. rewrite El. destruct (op x) eqn:Ex; [done..|]. by rewrite <- Hop in o_valid.
Qed.

Lemma fill_loop_spec fuel s r :
  readable s -> (length (source s) < fuel)%nat -> remaining s = Some r ->
  exists s', fill_loop E blockSize fuel s = Done s' /\ readable s' /\ remaining s' = Some r /\
    (ready s' = [] -> readReachEnds s' = true).
Proof.
  revert s. induction fuel as [|fuel IH]; intros s Hs Hf Hr; [lia|]. cbn [fill_loop].
  destruct (ready s) as [|c cs] eqn:Er; [|exists s; by rewrite Er].
  destruct (readReachEnds s) eqn:Ee; [by exists s|].
  assert (finalized s = false) as Efin.
  { destruct (finalized s) eqn:Ef; [|done]. pose proof (rd_final s Hs Ef). congruence. }
  destruct (next_valid (cipherCtx s) (take blockSize (source s)) (rd_op s Hs Efin)) as (i & j & ->).
  cbn [mbind outcome_bind]. set (u := evp_update E (ctx (cipherCtx s)) (take blockSize (source s))).
  rewrite fits_ok.
  2: { pose proof (update_length (ctx (cipherCtx s)) (take blockSize (source s))). pose proof (keeps_bound _ (rd_kept s Hs)).
       rewrite length_take in *. unfold resultLen. fold u in H. lia. }
  cbn [mbind outcome_bind].
  assert (remaining (mk_stream E (drop blockSize (source s)) (sink s) (room s) (mk_cipher E (fst u) o i j) (pending s) (snd u)
    (length (take blockSize (source s)) <? blockSize)%nat (finalized s)) = Some r) as Hr'.
  { unfold remaining in *. cbn. rewrite Er, Efin in *. rewrite <- (take_drop blockSize (source s)), whole_app in Hr.
    fold u in Hr. destruct u as [c' out]. cbn. destruct (whole E c' _); [|done]. cbn in *. congruence. }
  destruct (Nat.ltb_spec (length (take blockSize (source s))) blockSize) as [Hlt|Hge].
  - assert (drop blockSize (source s) = []) as Ed by (apply drop_ge; rewrite length_take in Hlt; lia).
    destruct (snd u) as [|c cs] eqn:Eu.
    + eexists. split; [destruct fuel; reflexivity|]. split_and!; [|done|done].
      split; cbn; try done. apply update_keeps, Hs.
    + eexists. split; [destruct fuel; reflexivity|]. split_and!; [|done|done].
      split; cbn; try done. apply update_keeps, Hs.
  - apply IH; [|cbn; rewrite length_drop; rewrite length_take in Hge; lia|done].
    split; cbn; try done; [apply update_keeps, Hs|congruence].
Qed.

Lemma underflow_spec s r :
  readable s -> remaining s = Some r ->
  exists s', underflow E blockSize s = Done (head r, s') /\ readable s' /\ remaining s' = Some r /\ (ready s' = [] -> r = []).
Proof.
  intros Hs Hr. unfold underflow. destruct (fill_loop_spec (S (length (source s))) s r Hs ltac:(lia) Hr) as (s1 & -> & Hs1 & Hr1 & He).
  cbn [mbind outcome_bind]. destruct (ready s1) as [|c cs] eqn:Er.
  2: { exists s1. cbn. destruct (remaining_ready s1 r Hr1) as [l El]. rewrite Er in *. subst r. by split_and!. }
  rewrite He by done. destruct (finalized s1) eqn:Ef; cbn [andb negb].
  - assert (r = []) as -> by (unfold remaining in Hr1; rewrite Er, Ef in Hr1; by injection Hr1).
    exists s1. cbn. rewrite Er. by split_and!.
  - pose proof (rd_op s1 Hs1 Ef) as Hop. pose proof (rd_kept s1 Hs1) as Hk. pose proof (rd_end s1 Hs1 (He eq_refl)) as Hsrc.
    unfold remaining in Hr1. rewrite Er, Ef, Hsrc, whole_nil in Hr1 by done.
    destruct (evp_final E (ctx (cipherCtx s1))) as [last|] eqn:El; [|done]. injection Hr1 as <-.
    rewrite (finalize_valid (cipherCtx s1) last Hop El).
    cbn [mbind outcome_bind]. rewrite fits_ok by (unfold resultLen; pose proof (final_length _ _ Hk El); lia).
    cbn [mbind outcome_bind]. eexists. split; [reflexivity|]. split_and!.
    + split; cbn; done.
    + unfold remaining. cbn. by rewrite app_nil_r.
    + cbn. by intros ->.
Qed.

Lemma remaining_pop s c cs r :
  ready s = c :: cs -> remaining s = Some r -> exists r', r = c :: r' /\ remaining (set_ready E cs s) = Some r'.
Proof.
  unfold remaining. cbn. intros ->. destruct (if finalized s then _ else _) as [l|]; [|done]. cbn. intros [= <-]. by eexists.
Qed.
Lemma readable_set s r : readable s -> readable (set_ready E r s).
Proof. by intros [? ? ? ?]. Qed.

Lemma sgetn_spec n s r :
  readable s -> remaining s = Some r ->
  exists s', sgetn E blockSize n s = Done (take n r, s') /\ readable s' /\ remaining s' = Some (drop n r).
Proof.
  revert s r. induction n as [|n IH]; intros s r Hs Hr; [by exists s|]. cbn [sgetn].
  destruct (ready s) as [|c cs] eqn:Er.
  - destruct (underflow_spec s r Hs Hr) as (s1 & -> & Hs1 & Hr1 & He). cbn [mbind outcome_bind].
    destruct (ready s1) as [|c cs] eqn:Er1.
    + rewrite He by done. exists s1. by rewrite He in Hr1 by done.
    + destruct (remaining_pop s1 c cs r Er1 Hr1) as (r' & -> & Hr'). cbn [head tail].
      destruct (IH _ r' (readable_set s1 cs Hs1) Hr') as (s' & -> & Hs' & Hrs'). by exists s'.
  - destruct (remaining_pop s c cs r Er Hr) as (r' & -> & Hr').
    destruct (IH _ r' (readable_set s cs Hs) Hr') as (s' & -> & Hs' & Hrs'). by exists s'.
Qed.

Lemma reads_spec ns s r :
  readable s -> remaining s = Some r ->
  exists s', reads blockSize ns s = Done (take (list_sum ns) r, s') /\ remaining s' = Some (drop (list_sum ns) r).
Proof.
  revert s r. induction ns as [|n ns IH]; intros s r Hs Hr; [by exists s|]. cbn [reads].
  destruct (sgetn_spec n s r Hs Hr) as (s1 & -> & Hs1 & Hr1). cbn [mbind outcome_bind].
  destruct (IH s1 _ Hs1 Hr1) as (s2 & -> & Hr2). cbn [mbind outcome_bind]. exists s2.
  cbn [list_sum foldr]. fold (list_sum ns). split; [|by rewrite Hr2, drop_drop].
  by rewrite take_take_drop.
Qed.

(** ** Writing *)

(** The state [Init] leaves keeps nothing back. *)
Definition fresh (init : evp_state E) : Prop := evp_kept init = O.
Lemma fresh_keeps init : fresh init -> keeps o (evp_kept init).
Proof. intros ->. destruct o; cbn; unfold aes_block; lia. Qed.

Record writable (init : evp_state E) (given : bytes) (s : CipherStreamBuf E) : Prop := {
  wr_given : exists before, given = before ++ pending s /\ (length before mod blockSize = 0)%nat /\
    evp_update E init before = (ctx (cipherCtx s), sink s);
  wr_op : op (cipherCtx s) = o;
  wr_pending : (length (pending s) <= blockSize)%nat;
  wr_some : given <> [] -> pending s <> []
}.

Lemma sputc_spec init given c s :
  fresh init -> writable init given s -> (length given <= room s + length (sink s))%nat ->
  exists s', sputc E blockSize c s = Done (true, s') /\ writable init (given ++ [c]) s' /\
    (room s' + length (sink s') = room s + length (sink s))%nat.
Proof.
  intros Hinit [(before & Hg & Hm & Hu) Hop Hp Hsome] Hroom. unfold sputc.
  destruct (Nat.ltb_spec (length (pending s)) blockSize) as [Hlt|Hge].
  { eexists. split; [done|]. split; [|done]. split; cbn; [|done|rewrite length_app; cbn; lia|by destruct (pending s)].
    exists before. by rewrite Hg, <- app_assoc. }
  unfold overflow. destruct (pending s) as [|d p] eqn:Ep; [cbn in Hge; lia|]. rewrite <- Ep in *.
  destruct (next_valid (cipherCtx s) (pending s) Hop) as (i & j & ->). cbn [mbind outcome_bind].
  rewrite app_nil_r. pose proof (update_app init before (pending s)) as Happ. rewrite Hu in Happ.
  pose proof (update_length (ctx (cipherCtx s)) (pending s)) as Hl.
  pose proof (keeps_bound _ (update_keeps init before (fresh_keeps _ Hinit))) as Hk. rewrite Hu in Hk. cbn [fst] in Hk.
  pose proof (update_length init given) as Htotal. rewrite Hg, Happ, (Hinit : evp_kept init = O) in Htotal.
  destruct (evp_update E (ctx (cipherCtx s)) (pending s)) as [c' out] eqn:Eu. cbn [fst snd] in *.
  rewrite length_app, Nat.add_0_l, <- Hg in Htotal.
  rewrite fits_ok by (unfold resultLen; lia). cbn [mbind outcome_bind].
  rewrite take_ge by lia. rewrite Nat.ltb_irrefl. eexists. split; [done|].
  destruct (Nat.ltb_spec 0 blockSize); [|lia]. split; cbn; [|rewrite length_app; lia].
  split; cbn; [|done|lia|done]. exists given. split_and!; [done| |by rewrite Hg].
  rewrite Hg, length_app. replace (length (pending s)) with blockSize by lia.
  rewrite <- Nat.Div0.add_mod_idemp_l, Hm. by rewrite Nat.add_0_l, Nat.Div0.mod_same.
Qed.

Lemma sputn_spec init cs given s :
  fresh init -> writable init given s -> (length given + length cs <= room s + length (sink s))%nat ->
  exists s', sputn E blockSize cs s = Done (length cs, s') /\ writable init (given ++ cs) s' /\
    (room s' + length (sink s') = room s + length (sink s))%nat.
Proof.
  intros Hinit. revert given s. induction cs as [|c cs IH]; intros given s Hs Hroom; [exists s; by rewrite app_nil_r|].
  cbn [sputn length] in *. destruct (sputc_spec init given c s Hinit Hs ltac:(lia)) as (s1 & -> & Hs1 & Hr1). cbn [mbind outcome_bind].
  destruct (IH _ s1 Hs1) as (s2 & -> & Hs2 & Hr2); [rewrite length_app; cbn; lia|].
  cbn [mbind outcome_bind]. exists s2. rewrite <- app_assoc in Hs2. split_and!; [done..|lia].
Qed.

(** The flush ends the cipher: the sink has all its output. *)
Lemma sync_spec init given s r :
  fresh init -> (blockSize mod aes_block = 0)%nat -> writable init given s -> given <> [] ->
  (length given + aes_block <= room s + length (sink s))%nat -> whole E init given = Some r ->
  exists s', sync E blockSize s = Done (true, s') /\ sink s' = r.
Proof.
  intros Hinit Hblock [(before & Hg & Hm & Hu) Hop Hp Hsome] Hne Hroom Hr. unfold sync, overflow.
  specialize (Hsome Hne). destruct (pending s) as [|d p] eqn:Ep; [done|]. rewrite <- Ep in *. clear d p Ep Hsome.
  destruct (next_valid (cipherCtx s) (pending s) Hop) as (i & j & ->). cbn [mbind outcome_bind].
  rewrite Hg, whole_app, Hu in Hr. unfold whole in Hr.
  pose proof (update_size (ctx (cipherCtx s)) (pending s)) as Hl.
  pose proof (keeps_bound _ (update_keeps init before (fresh_keeps _ Hinit))) as Hk. pose proof (update_size init before) as Hlb.
  assert (evp_kept init = O) as H0 by exact Hinit.
  pose proof (fun e => kept_encrypt init before e (fresh_keeps _ Hinit)) as Hke. rewrite Hu in Hk, Hke, Hlb. cbn [fst] in Hk, Hke.
  destruct (evp_update E (ctx (cipherCtx s)) (pending s)) as [c' out] eqn:Eu. cbn [fst snd] in *.
  destruct (evp_final E c') as [last|] eqn:El; [|done]. cbn in Hr. injection Hr as <-.
  rewrite (finalize_valid (mk_cipher E c' o i j) last eq_refl El).
  cbn [mbind outcome_bind].
  assert (length out + length last <= resultLen blockSize /\ length (sink s) + length out + length last <= length given + aes_block)%nat as [Hfit Hall].
  { rewrite Hg, length_app. unfold resultLen. destruct (decide (o = ENCRYPT)) as [He|He].
    - rewrite (final_encrypt He c' last El).
      assert (evp_kept (ctx (cipherCtx s)) = O) as E0.
      { rewrite Hke, H0 by done. apply Nat.mod_divide in Hm; [|lia]. apply Nat.mod_divide in Hblock; [|done].
        apply Nat.mod_divide; [done|]. rewrite Nat.add_0_l. by etransitivity. }
      lia.
    - pose proof (final_decrypt He c' last El). lia. }
  rewrite fits_ok by (rewrite length_app; lia). cbn [mbind outcome_bind].
  rewrite take_ge by (rewrite length_app; rewrite Hg, length_app in *; lia).
  assert ((length (out ++ last) <? length out)%nat = false) as -> by (apply Nat.ltb_ge; rewrite length_app; lia).
  eexists. split; [done|]. cbn. done.
Qed.

Lemma writes_spec init pieces given s r :
  fresh init -> (blockSize mod aes_block = 0)%nat -> writable init given s -> given ++ concat pieces <> [] ->
  (length (given ++ concat pieces) + aes_block <= room s + length (sink s))%nat ->
  whole E init (given ++ concat pieces) = Some r ->
  exists s', writes blockSize pieces s = Done (true, s') /\ sink s' = r.
Proof.
  intros Hinit Hblock. revert given s. induction pieces as [|p pieces IH]; intros given s Hs Hne Hroom Hr; cbn [concat writes] in *.
  - rewrite app_nil_r in *. by eapply sync_spec.
  - rewrite app_assoc in *.
    destruct (sputn_spec init p given s Hinit Hs) as (s1 & -> & Hs1 & Hr1); [rewrite !length_app in Hroom; lia|].
    cbn [mbind outcome_bind]. rewrite Nat.eqb_refl. apply (IH (given ++ p)); [done..|lia|done].
Qed.

Lemma open_readable init src :
  fresh init -> exists s, open_stream E init o src 0 = Done s /\ readable s /\ remaining s = whole E init src.
Proof.
  intros Hinit. unfold open_stream. rewrite initialize_valid by done. eexists. split; [reflexivity|]. split.
  - split; cbn; try done. by apply fresh_keeps.
  - unfold remaining. cbn. by destruct (whole E init src).
Qed.
Lemma open_writable init n :
  fresh init -> exists s, open_stream E init o [] n = Done s /\ writable init [] s /\ room s = n /\ sink s = [].
Proof.
  intros Hinit. unfold open_stream. rewrite initialize_valid by done. eexists. split; [reflexivity|]. split_and!; [|done..].
  split; cbn; [|done|lia|done]. exists []. split_and!; [done|by apply Nat.Div0.mod_0_l|]. by rewrite update_nil by (by apply fresh_keeps).
Qed.
End Facts.

(** The length of the encrypted text: always padded to the next block. *)
Lemma encrypted_length {E : evp} `{!EvpLaws ENCRYPT E} init s r :
  evp_kept init = O -> whole E init s = Some r -> length r = ((length s + aes_block) / aes_block * aes_block)%nat.
Proof.
  intros Hinit Hr. unfold whole in Hr. pose proof (update_size init s) as Hs.
  pose proof (kept_encrypt ENCRYPT ltac:(done) init s eq_refl) as Hk. rewrite Hinit in *.
  specialize (Hk ltac:(cbn; unfold aes_block; lia)).
  destruct (evp_update E init s) as [c out]. cbn [fst] in Hk. destruct (evp_final E c) as [last|] eqn:El; [|done].
  injection Hr as <-. rewrite length_app, (final_encrypt eq_refl c last El). unfold aes_block in *.
  pose proof (Nat.div_mod_eq (length s) 16). rewrite Nat.add_0_l in Hk.
  replace (length s + 16)%nat with (length s + 1 * 16)%nat by lia. rewrite Nat.div_add by lia. lia.
Qed.

Definition FILE_ENCRYPTION_BLOCK_SIZE : nat := 128.

(** C18: a stream that encrypts gives, in pieces of whatever sizes it is read, exactly the cipher text of the whole
    file, as long as FileMetadataInitializer says; a stream that decrypts, given that text in any pieces and flushed,
    has written the file; neither buffer is overrun, for every library that meets EVP's documentation. *)
Theorem cipher_stream_roundtrip (Enc Dec : evp) `{!EvpLaws ENCRYPT Enc} `{!EvpLaws DECRYPT Dec}
    (init : evp_state Enc) (init' : evp_state Dec) (plain cipher : bytes) (ns : list nat) (pieces : list bytes) (space : nat) :
  evp_kept init = O -> evp_kept init' = O ->
  whole Enc init plain = Some cipher -> whole Dec init' cipher = Some plain ->
  (length cipher <= list_sum ns)%nat -> concat pieces = cipher -> (length cipher + aes_block <= space)%nat ->
  (s ← open_stream Enc init ENCRYPT plain 0; '(got, _) ← reads FILE_ENCRYPTION_BLOCK_SIZE ns s; Done got) = Done cipher /\
  length cipher = ((length plain + aes_block) / aes_block * aes_block)%nat /\
  (s ← open_stream Dec init' DECRYPT [] space; '(ok, s) ← writes FILE_ENCRYPTION_BLOCK_SIZE pieces s; Done (ok, sink s)) =
    Done (true, plain).
Proof.
  intros Hi Hi' Hc Hp Hns Hpieces Hspace. pose proof (encrypted_length init plain cipher Hi Hc) as Hlen.
  assert (0 < FILE_ENCRYPTION_BLOCK_SIZE)%nat as Hpos by (unfold FILE_ENCRYPTION_BLOCK_SIZE; lia).
  assert (ENCRYPT <> INVALID /\ DECRYPT <> INVALID) as [He Hd] by done. split_and!; [|done|].
  - destruct (open_readable ENCRYPT _ He Hpos init plain Hi) as (s & -> & Hs & Hr). cbn [mbind outcome_bind].
    rewrite Hc in Hr. destruct (reads_spec ENCRYPT _ He Hpos ns s cipher Hs Hr) as (s' & -> & _).
    cbn [mbind outcome_bind]. by rewrite take_ge.
  - destruct (open_writable DECRYPT _ Hd Hpos init' space Hi') as (s & -> & Hs & Hroom & Hsink). cbn [mbind outcome_bind].
    assert (cipher <> []) as Hne.
    { intros ->. change (length []) with O in Hlen. unfold aes_block in Hlen. pose proof (Nat.div_str_pos (length plain + 16) 16 ltac:(lia)). lia. }
    destruct (writes_spec DECRYPT _ Hd Hpos init' pieces [] s plain) as (s' & E & Es); cbn [app]; rewrite ?Hpieces; try done.
    + rewrite Hroom, Hsink. cbn. lia.
    + rewrite E. cbn. by rewrite Es.
Qed.

(** ** A cipher that meets the laws

    Blocks of 16 bytes, each byte moved by the key, with the padding of PKCS#5. *)

Section Blocks.
  Context (cut : nat -> nat) (f : ascii -> ascii) (last_block : bytes -> option bytes).
  Hypothesis cut_le : forall n, (cut n <= n)%nat.
  Hypothesis cut_blocks : forall n, (cut n mod aes_block = 0)%nat.
  Hypothesis cut_again : forall m n, (m <= n)%nat -> (cut (n - cut m) + cut m = cut n)%nat.

Definition block_update (kept s : bytes) : bytes * bytes :=
  match s with
  | [] => (kept, [])
  | _ => let t := kept ++ s in (drop (cut (length t)) t, map f (take (cut (length t)) t))
  end.
Definition block_evp : evp := mk_evp bytes block_update last_block.

Lemma block_update_some kept s : s <> [] ->
  block_update kept s = (drop (cut (length (kept ++ s))) (kept ++ s), map f (take (cut (length (kept ++ s))) (kept ++ s))).
Proof. by destruct s. Qed.

Lemma block_app kept s t :
  block_update kept (s ++ t) = let '(c1, o1) := block_update kept s in let '(c2, o2) := block_update c1 t in (c2, o1 ++ o2).
Proof.
  destruct (decide (s = [])) as [->|Hs]; [cbn; by destruct (block_update kept t)|].
  destruct (decide (t = [])) as [->|Ht].
  { rewrite app_nil_r. destruct (block_update kept s). cbn. by rewrite app_nil_r. }
  rewrite !block_update_some by (try done; by destruct s). cbv zeta iota beta.
  rewrite !(app_assoc kept s t). set (u := kept ++ s). pose proof (cut_le (length u)) as Hle.
  assert (drop (cut (length u)) u ++ t = drop (cut (length u)) (u ++ t)) as Eu by (by rewrite drop_app_le).
  rewrite Eu, length_drop, drop_drop.
  pose proof (cut_again (length u) (length (u ++ t)) ltac:(rewrite length_app; lia)) as Hc.
  f_equal; [f_equal; lia|]. rewrite <- map_app. f_equal. rewrite <- Hc, Nat.add_comm.
  rewrite <- (take_take_drop (u ++ t) (cut (length u))). by rewrite (take_app_le u t) by done.
Qed.

Lemma block_size kept s : let '(c', o) := block_update kept s in (length o + length c' = length kept + length s)%nat.
Proof.
  unfold block_update. destruct s as [|x s]; [cbn; lia|]. rewrite length_map, length_take, length_drop, length_app.
  pose proof (cut_le (length kept + length (x :: s))). lia.
Qed.
Lemma block_whole kept s : (length (snd (block_update kept s)) mod aes_block = 0)%nat.
Proof.
  unfold block_update. destruct s as [|x s]; [done|]. cbn [snd]. by rewrite length_map, length_take, Nat.min_l by apply cut_le.
Qed.
End Blocks.

Definition shift (k : Z) (c : ascii) : ascii := chr ((code c + k) mod 256).
Definition cut_encrypt (n : nat) : nat := n / aes_block * aes_block.
Definition cut_decrypt (n : nat) : nat := (n - 1) / aes_block * aes_block.
Definition pad_last (key : Z) (kept : bytes) : option bytes :=
  let n := (aes_block - length kept)%nat in
  if (length kept <? aes_block)%nat then Some (map (shift key) (kept ++ replicate n (chr (Z.of_nat n)))) else None.
Definition unpad_last (key : Z) (kept : bytes) : option bytes :=
  if (length kept =? aes_block)%nat then
    let d := map (shift (- key)) kept in
    n ← Z.to_nat ∘ code <$> last d;
    if (0 <? n)%nat && (n <=? aes_block)%nat && bool_decide (drop (aes_block - n) d = replicate n (chr (Z.of_nat n)))
    then Some (take (aes_block - n) d) else None
  else None.
Definition toy_encrypt (key : Z) : evp := block_evp cut_encrypt (shift key) (pad_last key).
Definition toy_decrypt (key : Z) : evp := block_evp cut_decrypt (shift (- key)) (unpad_last key).

Lemma cut_mod n : (n / aes_block * aes_block = n - n mod aes_block)%nat.
Proof. pose proof (Nat.div_mod_eq n aes_block). lia. Qed.
Lemma cut_multiple n k : (k mod aes_block = 0 -> k <= n -> (n - k) mod aes_block = n mod aes_block)%nat.
Proof.
  intros Hk Hle. replace n with ((n - k) + k)%nat at 2 by lia.
  rewrite <- Nat.Div0.add_mod_idemp_r, Hk. by rewrite Nat.add_0_r.
Qed.

#[export] Program Instance toy_encrypt_laws key : EvpLaws ENCRYPT (toy_encrypt key) := {
  evp_kept := length; update_size := _; update_blocks := _ }.
Next Obligation. done. Qed.
Next Obligation.
  intros key c s t. apply block_app; unfold cut_encrypt; intros; rewrite !cut_mod; [lia|].
  pose proof (Nat.mod_le m aes_block ltac:(done)). pose proof (Nat.mod_upper_bound m aes_block ltac:(done)).
  rewrite cut_multiple; [|rewrite <- cut_mod; apply Nat.Div0.mod_mul|lia].
  assert (n mod aes_block <= n - (m - m mod aes_block))%nat; [|lia].
  rewrite <- (cut_multiple n (m - m mod aes_block)); [apply Nat.Div0.mod_le|rewrite <- cut_mod; apply Nat.Div0.mod_mul|lia].
Qed.
Next Obligation. intros key c s. apply block_size. intros n. unfold cut_encrypt. rewrite cut_mod. lia. Qed.
Next Obligation.
  intros key c s. apply block_whole; intros n; unfold cut_encrypt; [rewrite cut_mod; lia|apply Nat.Div0.mod_mul].
Qed.
Next Obligation.
  intros key c s Hc. cbn in *. destruct s as [|x s]; [done|]. unfold block_update. cbn [fst].
  rewrite length_drop. unfold cut_encrypt. rewrite cut_mod.
  pose proof (Nat.mod_upper_bound (length (c ++ x :: s)) aes_block ltac:(done)). lia.
Qed.
Next Obligation.
  intros key _ c o. cbn. unfold pad_last. destruct (Nat.ltb_spec (length c) aes_block); [|done]. intros [= <-].
  rewrite length_map, length_app, length_replicate. lia.
Qed.
Next Obligation. done. Qed.

#[export] Program Instance toy_decrypt_laws key : EvpLaws DECRYPT (toy_decrypt key) := {
  evp_kept := length; update_size := _; update_blocks := _ }.
Next Obligation. done. Qed.
Next Obligation.
  intros key c s t. apply block_app; unfold cut_decrypt; intros; rewrite !cut_mod; [lia|].
  pose proof (Nat.Div0.mod_le (m - 1) aes_block).
  destruct (decide (m = 0)%nat) as [->|Hm]; [replace (0 - 1 - (0 - 1) mod aes_block)%nat with 0%nat by done; rewrite Nat.sub_0_r; lia|].
  assert (((m - 1 - (m - 1) mod aes_block) mod aes_block = 0)%nat) as Hk by (rewrite <- cut_mod; apply Nat.Div0.mod_mul).
  replace (n - (m - 1 - (m - 1) mod aes_block) - 1)%nat with (n - 1 - (m - 1 - (m - 1) mod aes_block))%nat by lia.
  rewrite (cut_multiple (n - 1) (m - 1 - (m - 1) mod aes_block)) by (done || lia).
  pose proof (Nat.Div0.mod_le (n - 1 - (m - 1 - (m - 1) mod aes_block)) aes_block) as Hle.
  rewrite (cut_multiple (n - 1) (m - 1 - (m - 1) mod aes_block)) in Hle by (done || lia). lia.
Qed.
Next Obligation. intros key c s. apply block_size. intros n. unfold cut_decrypt. rewrite cut_mod. lia. Qed.
Next Obligation.
  intros key c s. apply block_whole; intros n; unfold cut_decrypt; [rewrite cut_mod; lia|apply Nat.Div0.mod_mul].
Qed.
Next Obligation.
  intros key c s Hc. cbn in *. destruct s as [|x s]; [done|]. unfold block_update. cbn [fst].
  rewrite length_drop. unfold cut_decrypt. rewrite cut_mod.
  pose proof (Nat.mod_upper_bound (length (c ++ x :: s) - 1) aes_block ltac:(done)). lia.
Qed.
Next Obligation. done. Qed.
Next Obligation.
  intros key _ c o. cbn. unfold unpad_last. destruct (Nat.eqb_spec (length c) aes_block) as [Hc|]; [|done].
  destruct (last _); [|done]. cbn. destruct (_ && _); [|done]. intros [= <-]. rewrite length_take, length_map. lia.
Qed.

(** 300 bytes, read 1, 200 and 1000 at a time and written in pieces of 7 and 297. *)
Definition sample_file : bytes := replicate 299 "a"%char ++ ["b"%char].
Definition sample_cipher : bytes := default [] (whole (toy_encrypt 7) [] sample_file).

Lemma cipher_stream_roundtrip_witness :
  (s ← open_stream (toy_decrypt 7) [] DECRYPT [] 1000;
   '(ok, s) ← writes FILE_ENCRYPTION_BLOCK_SIZE [take 7 sample_cipher; drop 7 sample_cipher] s; Done (ok, sink s)) =
  Done (true, sample_file).
Proof.
  apply (cipher_stream_roundtrip (toy_encrypt 7) (toy_decrypt 7) [] [] sample_file sample_cipher [1; 200; 1000]%nat
           [take 7 sample_cipher; drop 7 sample_cipher] 1000); try reflexivity; try (vm_compute; reflexivity).
  - vm_compute. lia.
  - vm_compute. lia.
Defined.

(** A wrong key or a damaged file: [throw] without an exception ends the process. *)
Example wrong_key_ends_process :
  (s ← open_stream (toy_decrypt 100) [] DECRYPT [] 1000;
   writes FILE_ENCRYPTION_BLOCK_SIZE [sample_cipher] s) = Undef.
Proof. vm_compute. reflexivity. Qed.

(** A disk that fills up with the last block: the flush says that all is well. *)
Example lost_last_block :
  (s ← open_stream (toy_decrypt 7) [] DECRYPT [] 299;
   '(ok, s) ← writes FILE_ENCRYPTION_BLOCK_SIZE [sample_cipher] s; Done (ok, length (sink s))) = Done (true, 299%nat).
Proof. vm_compute. reflexivity. Qed.

(** After the flush the context is finished: a further write ends the process at the next flush. *)
Example write_after_flush :
  (s ← open_stream (toy_encrypt 7) [] ENCRYPT [] 1000;
   '(_, s) ← writes FILE_ENCRYPTION_BLOCK_SIZE [["a"%char]] s;
   writes FILE_ENCRYPTION_BLOCK_SIZE [["a"%char]] s) = Undef.
Proof. vm_compute. reflexivity. Qed.
