(* ===== verification/ThreadPool.v ===== *)
(** * cpp/util/ThreadPool.hpp: the pool, as a step function over its threads.

    A critical section is one step: the mutex lets no other thread see its middle, and a
    [_cond_wait] ends it.  A sleeping thread is woken by a signal, or spuriously, and tests
    its condition again.  The jobs are a parameter: a job has a local state, takes steps
    over the state the jobs share, may be blocked, and may wake the others that wait on the
    jobs' own condition variable.  [prog] is what the main thread still has to call. *)

From S2P Require Import Prelude.

(** The main thread's calls. *)
Inductive call := AddJob (job : nat) | WaitAll | JoinAll.

Section Pool.
  Context {W Sh : Type}.

(** A thread: on its way to the critical section at the top of its loop, asleep on
    [job_available_var] (perhaps signalled), in a job, or done. *)
Inductive worker := Starting | Asleep (woken : bool) | Running (w : W) | Exited.

Record pool := mk_pool {
  queue : list nat;
  workers : list worker;
  busyThreads : Z;
  finished : bool;
  prog : list call;
  waiting : bool;              (* the main thread sleeps on wait_var *)
  shared : Sh
}.
Definition set_worker (i : nat) (w : worker) (s : pool) : pool :=
  mk_pool (queue s) (<[i := w]> (workers s)) (busyThreads s) (finished s) (prog s) (waiting s) (shared s).
Definition set_workers (ws : list worker) (s : pool) : pool :=
  mk_pool (queue s) ws (busyThreads s) (finished s) (prog s) (waiting s) (shared s).
Definition set_queue (q : list nat) (s : pool) : pool :=
  mk_pool q (workers s) (busyThreads s) (finished s) (prog s) (waiting s) (shared s).
Definition set_busy (b : Z) (s : pool) : pool :=
  mk_pool (queue s) (workers s) b (finished s) (prog s) (waiting s) (shared s).
Definition set_finished (s : pool) : pool :=
  mk_pool (queue s) (workers s) (busyThreads s) true (prog s) (waiting s) (shared s).
Definition set_prog (p : list call) (s : pool) : pool :=
  mk_pool (queue s) (workers s) (busyThreads s) (finished s) p (waiting s) (shared s).
Definition set_waiting (b : bool) (s : pool) : pool :=
  mk_pool (queue s) (workers s) (busyThreads s) (finished s) (prog s) b (shared s).
Definition set_shared (sh : Sh) (s : pool) : pool :=
  mk_pool (queue s) (workers s) (busyThreads s) (finished s) (prog s) (waiting s) sh.

(** *** Condition variables *)

Definition wake_worker (w : worker) : worker := match w with Asleep _ => Asleep true | _ => w end.
Definition sleeping (w : worker) : bool := match w with Asleep false => true | _ => false end.
Fixpoint wake_first (ws : list worker) : list worker :=
  match ws with
  | [] => []
  | w :: ws => if sleeping w then Asleep true :: ws else w :: wake_first ws
  end.
(** [_cond_signal] wakes one sleeper, if there is one; [pick] says which. *)
Definition signal_job (pick : nat) (ws : list worker) : list worker :=
  match ws !! pick with
  | Some (Asleep false) => <[pick := Asleep true]> ws
  | _ => wake_first ws
  end.

(** *** The threads *)

Context (begin_job : nat -> nat -> W) (job_step : W -> Sh -> option (option W * Sh * bool)) (wake : W -> W).

(** The rest of the critical section, from the inner loop on. *)
Definition get_job (i : nat) (s : pool) : pool :=
  if finished s then set_worker i Exited s
  else
    match queue s with
    | [] => set_worker i (Asleep false) s
    | j :: q => set_worker i (Running (begin_job j i)) (set_queue q (set_busy (u32 (busyThreads s + 1)) s))
    end.

Definition wake_running (w : worker) : worker := match w with Running w => Running (wake w) | _ => w end.

Definition execute_thread (i : nat) (s : pool) : option pool :=
  match workers s !! i with
  | Some Starting =>
      let s := set_busy (u32 (busyThreads s - 1)) s in
      let s := if busyThreads s =? 0 then set_waiting false s else s in
      Some (get_job i s)
  | Some (Asleep true) => Some (get_job i s)
  | Some (Running w) =>
      '(w', sh, broadcast) ← job_step w (shared s);
      let s := set_shared sh (set_worker i (match w' with Some w' => Running w' | None => Starting end) s) in
      Some (if broadcast : bool then set_workers (map wake_running (workers s)) s else s)
  | _ => None
  end.

Definition exited (w : worker) : bool := match w with Exited => true | _ => false end.

(** [JoinAll] sets the flag and wakes all, then joins. *)
Definition main_step (pick : nat) (s : pool) : option pool :=
  if waiting s then None
  else
    match prog s with
    | [] => None
    | AddJob j :: p => Some (set_prog p (set_workers (signal_job pick (workers s)) (set_queue (queue s ++ [j]) s)))
    | WaitAll :: p =>
        Some (if (busyThreads s >? 0) || negb (bool_decide (queue s = [])) then set_waiting true s else set_prog p s)
    | JoinAll :: p =>
        if finished s then (if forallb exited (workers s) then Some (set_prog p s) else None)
        else Some (set_finished (set_workers (map wake_worker (workers s)) s))
    end.

Inductive event := Main (pick : nat) | Thread (i : nat) | Spurious (i : nat) | SpuriousMain.

Definition event_step (e : event) (s : pool) : option pool :=
  match e with
  | Main pick => main_step pick s
  | Thread i => execute_thread i s
  | Spurious i => match workers s !! i with Some (Asleep false) => Some (set_worker i (Asleep true) s) | _ => None end
  | SpuriousMain => if waiting s then Some (set_waiting false s) else None
  end.
Fixpoint run (es : list event) (s : pool) : option pool :=
  match es with [] => Some s | e :: es => s ← event_step e s; run es s end.

(** The constructor: [n] threads, all on their way. *)
Definition ThreadPool (n : nat) (p : list call) (sh : Sh) : pool :=
  mk_pool [] (replicate n Starting) (Z.of_nat n) false p false sh.
End Pool.
Arguments worker : clear implicits.
Arguments pool : clear implicits.

(** ** Invariants *)

Section Facts.
  Context {W Sh : Type}.
  Implicit Types (s : pool W Sh) (ws : list (worker W)).

Definition busy (w : worker W) : bool := match w with Starting | Running _ => true | _ => false end.
Definition count (p : worker W -> bool) ws : nat := length (List.filter p ws).

Lemma count_insert p ws i w w' :
  ws !! i = Some w -> (count p (<[i := w']> ws) + Nat.b2n (p w) = count p ws + Nat.b2n (p w'))%nat.
Proof.
  revert i. induction ws as [|v ws IH]; intros [|i] Hi; try done; unfold count in *.
  - injection Hi as ->. change (<[0%nat := w']> (w :: ws)) with (w' :: ws). cbn [List.filter].
    destruct (p w), (p w'); cbn; lia.
  - specialize (IH i Hi). change (<[S i := w']> (v :: ws)) with (v :: <[i := w']> ws). cbn [List.filter].
    destruct (p v); cbn [length]; lia.
Qed.
Lemma count_map p (f : worker W -> worker W) ws : (forall w, p (f w) = p w) -> count p (map f ws) = count p ws.
Proof. intros Hf. induction ws as [|w ws IH]; [done|]. unfold count in *. cbn. rewrite Hf. destruct (p w); cbn; lia. Qed.
Lemma count_pos p ws i w : ws !! i = Some w -> p w = true -> (0 < count p ws)%nat.
Proof.
  intros Hi Hp. apply list_elem_of_lookup_2, list_elem_of_In in Hi. unfold count.
  pose proof (proj2 (filter_In p w ws) (conj Hi Hp)) as H. by destruct (List.filter p ws); [destruct H|cbn; lia].
Qed.
Lemma count_exists p ws : (0 < count p ws)%nat -> exists i w, ws !! i = Some w /\ p w = true.
Proof.
  intros H. unfold count in H. destruct (List.filter p ws) as [|w l] eqn:E; [cbn in H; lia|].
  assert (In w (List.filter p ws)) as [Hw Hp]%filter_In by (rewrite E; by left).
  apply list_elem_of_In, list_elem_of_lookup_1 in Hw as [i Hi]. by exists i, w.
Qed.
Lemma count_le p ws : (count p ws <= length ws)%nat.
Proof. unfold count. induction ws as [|w ws IH]; cbn; [lia|]. destruct (p w); cbn; lia. Qed.

(** A change that only wakes sleepers. *)
Definition woken_only (ws ws' : list (worker W)) : Prop :=
  Forall2 (fun w w' => w' = w \/ (w = Asleep false /\ w' = Asleep true)) ws ws'.
Lemma wake_refl ws : woken_only ws ws.
Proof. apply Forall_Forall2_diag, Forall_true. by left. Qed.
Lemma wake_first_only ws : woken_only ws (wake_first ws).
Proof.
  induction ws as [|w ws IH]; cbn; [constructor|]. destruct (sleeping w) eqn:E; constructor; try done.
  - right. by destruct w as [|[]| |].
  - apply wake_refl.
  - by left.
Qed.
Lemma signal_job_only pick ws : woken_only ws (signal_job pick ws).
Proof.
  unfold signal_job. destruct (ws !! pick) as [[|[]| |]|] eqn:E; try apply wake_first_only.
  apply Forall2_lookup. intros j. destruct (decide (j = pick)) as [->|Hne].
  - rewrite E, list_lookup_insert_eq by (by eapply lookup_lt_Some). constructor. by right.
  - rewrite list_lookup_insert_ne by done. destruct (ws !! j); constructor. by left.
Qed.
Lemma wake_worker_only ws : woken_only ws (map wake_worker ws).
Proof.
  induction ws as [|w ws IH]; cbn; constructor; [|done]. destruct w as [|[]| |]; first [by left|by right].
Qed.

Lemma wake_lookup ws ws' i w' :
  woken_only ws ws' -> ws' !! i = Some w' -> exists w, ws !! i = Some w /\ (w' = w \/ (w = Asleep false /\ w' = Asleep true)).
Proof. intros H Hi. by apply (Forall2_lookup_r _ _ _ _ _ H) in Hi. Qed.
Lemma woken_count ws ws' : woken_only ws ws' -> count busy ws' = count busy ws.
Proof.
  induction 1 as [|w w' ws ws' Hw _ IH]; [done|]. unfold count in *. cbn.
  destruct Hw as [->|[-> ->]]; [destruct (busy w); cbn; lia|done].
Qed.
Lemma signal_job_awake pick ws : ws <> [] -> exists i w, signal_job pick ws !! i = Some w /\ sleeping w = false.
Proof.
  intros Hne. assert (exists i w, wake_first ws !! i = Some w /\ sleeping w = false) as Hfirst.
  { destruct ws as [|w ws]; [done|]. exists O. cbn. destruct (sleeping w) eqn:E; by eexists. }
  unfold signal_job. destruct (ws !! pick) as [[|[]| |]|] eqn:E; try done.
  exists pick, (Asleep true). split; [|done]. apply list_lookup_insert_eq. by eapply lookup_lt_Some.
Qed.

(** *** The pool's own invariant

    The program is a batch of jobs, [WaitAll], and perhaps the destructor. *)

Context (n : nat) (tail : list call).
Hypothesis tail_ok : tail = [] \/ tail = [JoinAll].

Record pool_ok s : Prop := {
  ok_length : length (workers s) = n;
  ok_busy : busyThreads s = Z.of_nat (count busy (workers s));
  ok_awake : queue s <> [] -> finished s = false -> exists i w, workers s !! i = Some w /\ sleeping w = false;
  ok_exited : finished s = false -> count exited (workers s) = O;
  ok_finished : finished s = true -> count sleeping (workers s) = O;
  ok_waiting : waiting s = true -> (exists p, prog s = WaitAll :: p) /\ (0 < busyThreads s \/ queue s <> []);
  ok_prog : (exists jobs, prog s = map AddJob jobs ++ WaitAll :: tail /\ finished s = false) \/
            ((prog s = tail \/ prog s = []) /\ queue s = [] /\ count busy (workers s) = O)
}.

Lemma count_zero (p : worker W -> bool) ws i w : count p ws = O -> ws !! i = Some w -> p w = false.
Proof. intros Hz Hi. destruct (p w) eqn:E; [|done]. pose proof (count_pos p ws i w Hi E). lia. Qed.
Lemma zero_count (p : worker W -> bool) ws : (forall i w, ws !! i = Some w -> p w = false) -> count p ws = O.
Proof.
  intros H. destruct (count p ws) eqn:E; [done|]. destruct (count_exists p ws) as (i & w & Hi & Hp); [lia|].
  by rewrite (H i w Hi) in Hp.
Qed.

Context (begin_job : nat -> nat -> W) (job_step : W -> Sh -> option (option W * Sh * bool)) (wake : W -> W).
Abbreviation get_job := (get_job begin_job).
Abbreviation event_step := (event_step begin_job job_step wake).

Lemma ThreadPool_ok jobs sh : (0 < n)%nat -> pool_ok (ThreadPool n (map AddJob jobs ++ WaitAll :: tail) sh).
Proof.
  intros Hn. assert (forall i w, replicate n (@Starting W) !! i = Some w -> w = Starting) as Hall
    by (intros i w Hi; by apply lookup_replicate in Hi as [-> _]).
  split; cbn; try done.
  - apply length_replicate.
  - unfold count. f_equal. induction n as [|m IH] in |- *; [done|]. cbn. by rewrite <- IH.
  - intros _. apply zero_count. intros i w Hi. by rewrite (Hall i w Hi).
  - left. by exists jobs.
Qed.

#[local] Ltac pool_cbn :=
  cbn [queue workers busyThreads finished prog waiting shared set_worker set_workers set_queue set_busy set_finished
       set_prog set_waiting set_shared] in *.

(** [get_job] in a state whose thread [i] is neither asleep nor counted as busy. *)
Lemma get_job_ok i w s :
  pool_ok s -> workers s !! i = Some w -> busy w = false -> (count busy (workers s) < n)%nat -> Z.of_nat n < 2 ^ 32 ->
  pool_ok (get_job i s).
Proof.
  intros [Hl Hb Ha He Hf Hw Hp] Hi Hbw Hc Hn. unfold ThreadPool.get_job.
  pose proof (count_insert busy (workers s) i w) as Cb. pose proof (count_insert exited (workers s) i w) as Ce.
  pose proof (count_insert sleeping (workers s) i w) as Cs.
  destruct (finished s) eqn:Ef.
  - specialize (Cb Exited Hi). specialize (Cs Exited Hi). rewrite Hbw in Cb. cbn [busy exited sleeping Nat.b2n] in *.
    split; pool_cbn; try rewrite Ef; try done.
    + by rewrite length_insert.
    + rewrite Hb. f_equal. lia.
    + intros _. rewrite (Hf eq_refl) in Cs. lia.
    + destruct Hp as [(jobs & _ & ?)|Hp]; [done|]. right. split_and!; try apply Hp. destruct Hp as (_ & _ & Hz). lia.
  - destruct (queue s) as [|j q] eqn:Eq.
    + specialize (Cb (Asleep false) Hi). specialize (Ce (Asleep false) Hi). rewrite Hbw in Cb. cbn [busy exited sleeping Nat.b2n] in *.
      split; pool_cbn; try rewrite Ef; try rewrite Eq; try done.
      * by rewrite length_insert.
      * rewrite Hb. f_equal. lia.
      * intros _. rewrite (He eq_refl) in Ce. lia.
      * destruct Hp as [Hp|Hp]; [by left|]. right. split_and!; try apply Hp; try done. destruct Hp as (_ & _ & Hz). lia.
    + specialize (Cb (Running (begin_job j i)) Hi). specialize (Ce (Running (begin_job j i)) Hi). rewrite Hbw in Cb. cbn [busy exited sleeping Nat.b2n] in *.
      assert (u32 (busyThreads s + 1) = Z.of_nat (count busy (workers s)) + 1) as Eu
        by (rewrite Hb; apply wrapU_small; lia).
      split; pool_cbn; try rewrite Ef; try done.
      * by rewrite length_insert.
      * rewrite Eu. lia.
      * intros _ _. exists i, (Running (begin_job j i)). split; [|done]. apply list_lookup_insert_eq. by eapply lookup_lt_Some.
      * intros _. rewrite (He eq_refl) in Ce. lia.
      * intros Hwait. destruct (Hw Hwait) as [Hprog _]. split; [done|]. left. rewrite Eu. lia.
      * destruct Hp as [Hp|(_ & ? & _)]; [by left|done].
Qed.

Lemma get_job_set i w s : get_job i (set_worker i w s) = get_job i s.
Proof.
  unfold ThreadPool.get_job, set_worker. pool_cbn. destruct (finished s); [by rewrite list_insert_insert_eq|].
  destruct (queue s); pool_cbn; by rewrite list_insert_insert_eq.
Qed.

Hypothesis n_range : (0 < n)%nat /\ Z.of_nat n < 2 ^ 32.

(** At the top of the loop: one busy thread fewer, and the waiter is signalled at zero. *)
Definition leave_job (s : pool W Sh) : pool W Sh :=
  let s := set_busy (u32 (busyThreads s - 1)) s in if busyThreads s =? 0 then set_waiting false s else s.

Lemma leave_job_ok i s : pool_ok s -> workers s !! i = Some Starting -> pool_ok (set_worker i (Asleep true) (leave_job s)).
Proof.
  intros [Hl Hb Ha He Hf Hw Hp] Hi. pose proof (count_insert busy _ _ _ (Asleep true) Hi) as Cb.
  pose proof (count_insert exited _ _ _ (Asleep true) Hi) as Ce. pose proof (count_insert sleeping _ _ _ (Asleep true) Hi) as Cs.
  pose proof (count_le busy (workers s)) as Hcl. cbn [busy exited sleeping Nat.b2n] in *.
  assert (u32 (busyThreads s - 1) = Z.of_nat (count busy (<[i := Asleep true]> (workers s)))) as Eu.
  { rewrite Hb, wrapU_small; lia. }
  assert (queue s = [] -> (prog s = tail \/ prog s = []) -> False) as Hbusy.
  { intros Hq Hprog. destruct Hp as [(jobs & E & _)|(_ & _ & Hz)]; [|lia]. rewrite E in Hprog.
    destruct Hprog as [Hprog|Hprog]; [|by destruct jobs]. apply (f_equal length) in Hprog.
    rewrite length_app in Hprog. cbn in Hprog. lia. }
  assert (forall s', queue s' = queue s -> workers s' = <[i := Asleep true]> (workers s) ->
    busyThreads s' = u32 (busyThreads s - 1) -> finished s' = finished s -> prog s' = prog s ->
    (waiting s' = true -> waiting s = true /\ busyThreads s' <> 0) -> pool_ok s') as Hgen.
  { intros s' E1 E2 E3 E4 E5 E6. split; rewrite ?E1, ?E2, ?E3, ?E4, ?E5; try done.
    - by rewrite length_insert.
    - intros _ _. exists i, (Asleep true). split; [|done]. apply list_lookup_insert_eq. by eapply lookup_lt_Some.
    - intros Hff. specialize (He Hff). lia.
    - intros Hff. specialize (Hf Hff). lia.
    - intros [Hwait Hne]%E6. destruct (Hw Hwait) as [? _]. split; [done|]. left. rewrite E3 in Hne. rewrite Eu in *. lia.
    - destruct Hp as [Hp|(Hprog & Hq & _)]; [by left|]. by destruct (Hbusy Hq Hprog). }
  unfold leave_job. cbv zeta. destruct (Z.eqb_spec (busyThreads (set_busy (u32 (busyThreads s - 1)) s)) 0) as [E0|E0];
    by apply Hgen.
Qed.

(** Steps that change which threads sleep, and nothing that is counted. *)
Lemma woken_ok s ws :
  pool_ok s -> woken_only (workers s) ws -> pool_ok (set_workers ws s).
Proof.
  intros [Hl Hb Ha He Hf Hw Hp] Hws. pose proof (woken_count _ _ Hws) as Ec.
  split; pool_cbn; rewrite ?Ec; try done.
  - by rewrite <- (Forall2_length _ _ _ Hws).
  - intros Hq Hff. destruct (Ha Hq Hff) as (i & w & Hi & Hs).
    destruct (Forall2_lookup_l _ _ _ _ _ Hws Hi) as (w' & Hi' & Hw'). exists i, w'. split; [done|].
    by destruct Hw' as [->|[-> ->]].
  - intros Hff. apply zero_count. intros i w Hi. destruct (wake_lookup _ _ _ _ Hws Hi) as (v & Hv & [->|[-> ->]]); [|done].
    by apply (count_zero _ _ _ _ (He Hff) Hv).
  - intros Hff. apply zero_count. intros i w Hi. destruct (wake_lookup _ _ _ _ Hws Hi) as (v & Hv & [->|[-> ->]]); [|done].
    by apply (count_zero _ _ _ _ (Hf Hff) Hv).
Qed.

Lemma set_worker_same i w w' s :
  pool_ok s -> workers s !! i = Some w -> busy w' = busy w -> exited w' = exited w -> sleeping w' = false -> sleeping w = false ->
  pool_ok (set_worker i w' s).
Proof.
  intros [Hl Hb Ha He Hf Hw Hp] Hi E1 E2 E3 E4. pose proof (count_insert busy _ _ _ w' Hi) as Cb.
  pose proof (count_insert exited _ _ _ w' Hi) as Ce. pose proof (count_insert sleeping _ _ _ w' Hi) as Cs.
  rewrite E1 in Cb. rewrite E2 in Ce. rewrite E3, E4 in Cs.
  split; pool_cbn; try done.
  - by rewrite length_insert.
  - rewrite Hb. lia.
  - intros Hq Hff. exists i, w'. split; [|done]. apply list_lookup_insert_eq. by eapply lookup_lt_Some.
  - intros Hff. specialize (He Hff). lia.
  - intros Hff. specialize (Hf Hff). lia.
  - destruct Hp as [Hp|(? & ? & Hz)]; [by left|right]. split_and!; [done..|lia].
Qed.
Lemma set_shared_ok sh s : pool_ok s -> pool_ok (set_shared sh s).
Proof. by intros [? ? ? ? ? ? ?]. Qed.
Lemma wake_running_ok (f : W -> W) s : pool_ok s -> pool_ok (set_workers (map (wake_running f) (workers s)) s).
Proof.
  intros [Hl Hb Ha He Hf Hw Hp].
  assert (forall p : worker W -> bool, (forall w, p (wake_running f w) = p w) ->
    count p (map (wake_running f) (workers s)) = count p (workers s)) as Hc by (intros p Hpf; by apply count_map).
  split; pool_cbn; rewrite ?Hc by (by intros []); try done.
  - by rewrite length_map.
  - intros Hq Hff. destruct (Ha Hq Hff) as (i & w & Hi & Hs). exists i, (wake_running f w). rewrite list_lookup_fmap, Hi.
    split; [done|]. by destruct w.
Qed.

Lemma spurious_ok i s : pool_ok s -> workers s !! i = Some (Asleep false) -> pool_ok (set_worker i (Asleep true) s).
Proof.
  intros Hs Hi. apply (woken_ok s); [done|]. apply Forall2_lookup. intros j. destruct (decide (j = i)) as [->|Hne].
  - rewrite Hi, list_lookup_insert_eq by (by eapply lookup_lt_Some). constructor. by right.
  - rewrite list_lookup_insert_ne by done. destruct (workers s !! j); constructor. by left.
Qed.

Lemma asleep_room s i w : pool_ok s -> workers s !! i = Some w -> busy w = false -> (count busy (workers s) < n)%nat.
Proof.
  intros Hs Hi Hw. rewrite <- (ok_length s Hs). pose proof (count_insert busy _ _ _ Starting Hi) as Cb.
  pose proof (count_le busy (<[i := Starting]> (workers s))) as Hle. rewrite length_insert, Hw in *. cbn in Cb. lia.
Qed.

Lemma tail_cons c p : c :: p = tail -> c = JoinAll /\ p = [].
Proof. intros <-. destruct tail_ok as [?|E]; [done|]. by injection E. Qed.

Lemma main_step_ok pick s s' : pool_ok s -> main_step pick s = Some s' -> pool_ok s'.
Proof.
  intros Hs Hm. pose proof Hs as [Hl Hb Ha He Hf Hw Hp]. unfold main_step in Hm. destruct (waiting s) eqn:Ew; [done|].
  destruct (prog s) as [|[j| |] p] eqn:Eprog; [done|..].
  - injection Hm as <-. destruct Hp as [(jobs & Ejobs & Hff)|([Ht|Ht] & _)]; [|by apply tail_cons in Ht as []|done].
    assert (exists jobs', p = map AddJob jobs' ++ WaitAll :: tail) as [jobs' ->].
    { destruct jobs as [|j' jobs]; [done|]. injection Ejobs as _ ->. by exists jobs. }
    pose proof (woken_ok s _ Hs (signal_job_only pick _)) as [Hl' Hb' Ha' He' Hf' Hw' Hp'].
    split; pool_cbn; try done; try congruence.
    + intros _ _. apply signal_job_awake. intros E. rewrite E in Hl. cbn in Hl. lia.
    + left. by exists jobs'.
  - destruct Hp as [(jobs & Ejobs & Hff)|([Ht|Ht] & _)]; [|by apply tail_cons in Ht as []|done].
    assert (p = tail) as -> by (destruct jobs; [by injection Ejobs|done]).
    injection Hm as <-. destruct (busyThreads s >? 0) eqn:Eb; cbn [orb].
    { apply Z.gtb_lt in Eb. split; pool_cbn; try done; [|left; by exists jobs; rewrite Eprog].
      intros _. split; [by eexists|by left]. }
    destruct (bool_decide_reflect (queue s = [])) as [Eq|Eq]; cbn [negb].
    + split; pool_cbn; try done; [by rewrite Ew|]. right. split_and!; [by left|done|].
      rewrite Z.gtb_ltb, Z.ltb_ge in Eb. lia.
    + split; pool_cbn; try done; [|left; by exists jobs; rewrite Eprog]. intros _. split; [by eexists|by right].
  - assert (p = [] /\ queue s = [] /\ count busy (workers s) = O) as (-> & Hq & Hz).
    { destruct Hp as [(jobs & Ejobs & Hff)|([Ht|Ht] & ? & ?)]; [by destruct jobs|..|done].
      by apply tail_cons in Ht as [_ ->]. }
    destruct (finished s) eqn:Ef.
    + destruct (forallb exited (workers s)); [|done]. injection Hm as <-. split; pool_cbn; rewrite ?Ef; try done; [by rewrite Ew|].
      right. split_and!; [by right|done..].
    + injection Hm as <-. pose proof (woken_ok s _ Hs (wake_worker_only _)) as [Hl' Hb' Ha' He' Hf' Hw' Hp'].
      split; pool_cbn; try done; try congruence.
      * intros _. apply zero_count. intros i w Hi. rewrite list_lookup_fmap in Hi. destruct (workers s !! i) as [v|]; [|done].
        injection Hi as <-. by destruct v as [|[]| |].
      * destruct Hp' as [(? & ? & ?)|Hp']; [|by right]. rewrite Eprog in *. by destruct x.
Qed.

Lemma event_step_ok e s s' : pool_ok s -> event_step e s = Some s' -> pool_ok s'.
Proof.
  intros Hs He. destruct e as [pick|i|i|]; cbn [ThreadPool.event_step] in He.
  - by eapply main_step_ok.
  - unfold execute_thread in He. destruct (workers s !! i) as [[|[]|w|]|] eqn:Hi; try done.
    + injection He as <-. change (if _ =? 0 then _ else _) with (leave_job s).
      pose proof (leave_job_ok i s Hs Hi) as Hs1. rewrite <- (get_job_set i (Asleep true)).
      assert (workers (set_worker i (Asleep true) (leave_job s)) !! i = Some (Asleep true)) as Hi1.
      { pool_cbn. apply list_lookup_insert_eq. unfold leave_job. destruct (_ =? 0); pool_cbn; by eapply lookup_lt_Some. }
      eapply get_job_ok; [done..| |lia]. by eapply asleep_room.
    + injection He as <-. eapply get_job_ok; [done..| |lia]. by eapply asleep_room.
    + apply bind_Some in He as ([[w' sh] b] & _ & He). injection He as <-.
      assert (pool_ok (set_shared sh (set_worker i (match w' with Some w' => Running w' | None => Starting end) s))) as Hs1.
      { apply set_shared_ok. by eapply set_worker_same; [| |destruct w'..]. }
      destruct b; [by apply wake_running_ok|done].
  - destruct (workers s !! i) as [[|[]|w|]|] eqn:Hi; try done. injection He as <-. by apply spurious_ok.
  - destruct (waiting s) eqn:Ew; [|done]. injection He as <-. destruct Hs as [? ? ? ? ? ? ?]. split; pool_cbn; done.
Qed.

Lemma run_ok es s s' : pool_ok s -> run begin_job job_step wake es s = Some s' -> pool_ok s'.
Proof.
  revert s. induction es as [|e es IH]; intros s Hs Hr; [by injection Hr as <-|].
  cbn [run] in Hr. apply bind_Some in Hr as (s1 & He & Hr). eapply IH; [|exact Hr]. by eapply event_step_ok.
Qed.

(** When the program is over no job is left and none is running. *)
Lemma over_quiet s : pool_ok s -> prog s = [] -> queue s = [] /\ forall i w, workers s !! i <> Some (Running w).
Proof.
  intros Hs Hp. destruct (ok_prog s Hs) as [(jobs & E & _)|(_ & Hq & Hz)]; [rewrite Hp in E; by destruct jobs|].
  split; [done|]. intros i w Hi. by pose proof (count_zero busy _ _ _ Hz Hi).
Qed.

(** *** What the jobs keep

    [inv todo running sh]: [todo] are the jobs not yet begun, in order, [running] the
    states of those in a thread. *)

Definition running_of (w : worker W) : option W := match w with Running w => Some w | _ => None end.
Definition running ws : list (option W) := map running_of ws.
Definition jobs_of (p : list call) : list nat := omap (fun c => match c with AddJob j => Some j | _ => None end) p.
Definition todo s : list nat := queue s ++ jobs_of (prog s).
Definition wake_all (b : bool) (rs : list (option W)) : list (option W) := if b then map (fmap wake) rs else rs.

Context (inv : list nat -> list (option W) -> Sh -> Prop).
Definition keeps_inv s : Prop := inv (todo s) (running (workers s)) (shared s).
Hypothesis inv_begin : forall j q rs sh i,
  inv (j :: q) rs sh -> rs !! i = Some None -> inv q (<[i := Some (begin_job j i)]> rs) sh.
Hypothesis inv_step : forall q rs sh i w w' sh' b,
  inv q rs sh -> rs !! i = Some (Some w) -> job_step w sh = Some (w', sh', b) -> inv q (wake_all b (<[i := w']> rs)) sh'.

Lemma running_insert ws i w : running (<[i := w]> ws) = <[i := running_of w]> (running ws).
Proof. apply list_fmap_insert. Qed.
Lemma running_same ws i w w' : ws !! i = Some w -> running_of w = running_of w' -> running (<[i := w']> ws) = running ws.
Proof. intros Hi E. rewrite running_insert. apply list_insert_id. rewrite <- E. unfold running. by rewrite list_lookup_fmap, Hi. Qed.
Lemma running_woken ws ws' : woken_only ws ws' -> running ws' = running ws.
Proof. unfold running. induction 1 as [|w w' ws ws' Hw _ IH]; [done|]. cbn. rewrite IH. by destruct Hw as [->|[-> ->]]. Qed.

Lemma get_job_inv i w s : keeps_inv s -> workers s !! i = Some w -> running_of w = None -> keeps_inv (get_job i s).
Proof.
  intros Hs Hi Hw. unfold keeps_inv, todo, ThreadPool.get_job in *.
  destruct (finished s); pool_cbn; [by rewrite (running_same _ _ _ _ Hi)|].
  destruct (queue s) as [|j q] eqn:Eq; pool_cbn; [by rewrite (running_same _ _ _ _ Hi), Eq|].
  rewrite running_insert. apply inv_begin; [done|]. unfold running. by rewrite list_lookup_fmap, Hi, <- Hw.
Qed.

Lemma event_step_inv e s s' : keeps_inv s -> event_step e s = Some s' -> keeps_inv s'.
Proof.
  intros Hs He. destruct e as [pick|i|i|]; cbn [ThreadPool.event_step] in He.
  - unfold main_step in He. destruct (waiting s); [done|]. destruct (prog s) as [|[j| |] p] eqn:Ep; [done|..].
    + injection He as <-. unfold keeps_inv, todo in *. pool_cbn. rewrite Ep in Hs. cbn in Hs.
      by rewrite <- app_assoc, (running_woken _ _ (signal_job_only pick _)).
    + injection He as <-. unfold keeps_inv, todo in *. destruct (_ || _); pool_cbn; by rewrite Ep in *.
    + unfold keeps_inv, todo in *. destruct (finished s); [destruct (forallb _ _); [|done]|]; injection He as <-; pool_cbn; rewrite Ep in *; [done|].
      by rewrite (running_woken _ _ (wake_worker_only _)).
  - unfold execute_thread in He. destruct (workers s !! i) as [[|[]|w|]|] eqn:Hi; try done.
    + injection He as <-. eapply get_job_inv; [|destruct (_ =? 0); pool_cbn; exact Hi|done]. by destruct (_ =? 0).
    + injection He as <-. by eapply get_job_inv.
    + apply bind_Some in He as ([[w' sh] b] & Hj & He). injection He as <-.
      pose proof (inv_step _ _ _ i w w' sh b Hs) as Hstep. unfold running in Hstep at 1. rewrite list_lookup_fmap, Hi in Hstep.
      specialize (Hstep eq_refl Hj). unfold keeps_inv, todo in *. destruct b; pool_cbn.
      * assert (running (map (wake_running wake) (<[i := match w' with Some w' => Running w' | None => Starting end]> (workers s)))
          = wake_all true (<[i := w']> (running (workers s)))) as ->; [|done].
        cbn [wake_all]. replace w' with (running_of (match w' with Some w' => Running w' | None => Starting end)) at 2 by (by destruct w').
        rewrite <- running_insert. unfold running. rewrite !map_map. apply map_ext. by intros [].
      * rewrite running_insert. by destruct w'.
  - destruct (workers s !! i) as [[|[]|w|]|] eqn:Hi; try done. injection He as <-. unfold keeps_inv, todo in *. pool_cbn.
    by rewrite (running_same _ _ _ _ Hi).
  - destruct (waiting s); [|done]. by injection He as <-.
Qed.

Lemma run_inv es s s' : keeps_inv s -> run begin_job job_step wake es s = Some s' -> keeps_inv s'.
Proof.
  revert s. induction es as [|e es IH]; intros s Hs Hr; [by injection Hr as <-|].
  cbn [run] in Hr. apply bind_Some in Hr as (s1 & He & Hr). eapply IH; [|exact Hr]. by eapply event_step_inv.
Qed.

(** *** No deadlock *)

Definition spurious (e : event) : bool := match e with Spurious _ | SpuriousMain => true | _ => false end.

Hypothesis live : forall q rs sh i w,
  inv q rs sh -> rs !! i = Some (Some w) -> exists i w, rs !! i = Some (Some w) /\ job_step w sh <> None.

Lemma running_lookup ws i w : running ws !! i = Some (Some w) -> ws !! i = Some (Running w).
Proof. unfold running. rewrite list_lookup_fmap. destruct (ws !! i) as [[]|]; try done. by intros [= ->]. Qed.

(** Unless the program is over some thread can take a step that is not a spurious wake-up. *)
Lemma progress s : pool_ok s -> keeps_inv s -> prog s <> [] -> exists e s', spurious e = false /\ event_step e s = Some s'.
Proof.
  intros Hs Hinv Hne.
  destruct (count (fun w => match w with Running _ => true | _ => false end) (workers s)) as [|c] eqn:Er.
  2: { destruct (count_exists (fun w => match w with Running _ => true | _ => false end) (workers s)) as (i & w & Hi & Hw); [lia|].
       destruct w as [| |w|]; try done. destruct (live _ _ _ i w Hinv) as (i' & w' & Hi' & Hj).
       { unfold running. by rewrite list_lookup_fmap, Hi. }
       apply running_lookup in Hi'. exists (Thread i'). cbn [ThreadPool.event_step]. unfold execute_thread. rewrite Hi'.
       destruct (job_step w' (shared s)) as [[[w1 sh1] b]|]; [|done]. by eexists. }
  destruct (count (fun w => match w with Starting | Asleep true => true | _ => false end) (workers s)) as [|c] eqn:Es.
  2: { destruct (count_exists (fun w => match w with Starting | Asleep true => true | _ => false end) (workers s)) as (i & w & Hi & Hw); [lia|].
       exists (Thread i). cbn [ThreadPool.event_step]. unfold execute_thread. rewrite Hi. destruct w as [|[]| |]; try done; by eexists. }
  assert (forall i w, workers s !! i = Some w -> w = Asleep false \/ w = Exited) as Hidle.
  { intros i w Hi. pose proof (count_zero _ _ _ _ Er Hi). pose proof (count_zero _ _ _ _ Es Hi). destruct w as [|[]| |]; try done; auto. }
  assert (count busy (workers s) = O) as Hb by (apply zero_count; intros i w Hi; by destruct (Hidle i w Hi) as [->| ->]).
  exists (Main 0). cbn [ThreadPool.event_step]. unfold main_step. pose proof (ok_busy s Hs) as Hbusy. rewrite Hb in Hbusy.
  assert (finished s = false -> queue s = []) as Hq.
  { intros Hff. destruct (decide (queue s = [])) as [|Hqne]; [done|]. destruct (ok_awake s Hs Hqne Hff) as (i & w & Hi & Hw).
    pose proof (count_zero _ _ _ _ (ok_exited s Hs Hff) Hi). by destruct (Hidle i w Hi) as [->| ->]. }
  destruct (waiting s) eqn:Ew.
  { exfalso. destruct (ok_waiting s Hs Ew) as [[p Hp] [Hlt|Hqne]]; [rewrite Hbusy in Hlt; cbn in Hlt; lia|].
    destruct (ok_prog s Hs) as [(_ & _ & Hff)|(_ & ? & _)]; [by apply Hqne, Hq|done]. }
  destruct (prog s) as [|[j| |] p] eqn:Ep; [done|by eexists..|].
  destruct (finished s) eqn:Ef; [|by eexists].
  assert (forallb exited (workers s) = true) as ->; [|by eexists].
  apply forallb_forall. intros w Hw%list_elem_of_In. apply list_elem_of_lookup_1 in Hw as [i Hi].
  pose proof (count_zero _ _ _ _ (ok_finished s Hs Ef) Hi). by destruct (Hidle i w Hi) as [->| ->].
Qed.

(** *** Every run is finite

    [cost] bounds the steps a job has left, [weight] what a broadcast may add again. *)

Context (cost : W -> nat) (weight : Sh -> nat) (most : nat).
Hypothesis cost_begin : forall j i, (cost (begin_job j i) <= most)%nat.
Hypothesis cost_wake : forall w, (cost (wake w) <= S (cost w))%nat.
Hypothesis cost_step : forall q rs sh i w w' sh' (b : bool),
  inv q rs sh -> rs !! i = Some (Some w) -> job_step w sh = Some (w', sh', b) ->
  (match w' with Some w' => S (cost w') | None => 0 end + weight sh' + (if b then n else 0) <= cost w + weight sh)%nat.

Definition worker_cost (w : worker W) : nat :=
  match w with Starting => 4 | Asleep true => 1 | Asleep false => 0 | Running w => cost w + 6 | Exited => 0 end.
Definition call_cost (fin : bool) (c : call) : nat :=
  match c with AddJob _ => most + 8 | WaitAll => 1 | JoinAll => if fin then 1 else n + 2 end.
Definition total (ws : list (worker W)) : nat := list_sum (map worker_cost ws).
Definition steps_left s : nat :=
  (total (workers s) + (most + 6) * length (queue s) + list_sum (map (call_cost (finished s)) (prog s)) +
   (if waiting s then 0 else 1) + weight (shared s))%nat.

Lemma total_insert ws i w w' : ws !! i = Some w -> (total (<[i := w']> ws) + worker_cost w = total ws + worker_cost w')%nat.
Proof.
  revert i. induction ws as [|v ws IH]; intros [|i] Hi; try done; unfold total in *.
  - injection Hi as ->. change (<[0%nat := w']> (w :: ws)) with (w' :: ws). cbn [map list_sum foldr]. lia.
  - specialize (IH i Hi). change (<[S i := w']> (v :: ws)) with (v :: <[i := w']> ws). cbn [map list_sum foldr] in *.
    unfold list_sum in *. lia.
Qed.
Lemma total_wake_running ws : (total (map (wake_running wake) ws) <= total ws + length ws)%nat.
Proof.
  unfold total. induction ws as [|w ws IH]; [done|]. cbn [map list_sum foldr length] in *. unfold list_sum in *.
  assert (worker_cost (wake_running wake w) <= S (worker_cost w))%nat; [|lia].
  destruct w as [|[]|w|]; cbn; try lia. pose proof (cost_wake w). lia.
Qed.
Lemma total_wake_worker ws : (total (map wake_worker ws) <= total ws + length ws)%nat.
Proof.
  unfold total. induction ws as [|w ws IH]; [done|]. cbn [map list_sum foldr length] in *. unfold list_sum in *.
  assert (worker_cost (wake_worker w) <= S (worker_cost w))%nat; [|lia]. destruct w as [|[]|w|]; cbn; lia.
Qed.
Lemma total_wake_first ws : (total (wake_first ws) <= S (total ws))%nat.
Proof.
  unfold total. induction ws as [|w ws IH]; [cbn; lia|]. cbn [wake_first]. destruct (sleeping w) eqn:E; cbn [map list_sum foldr] in *; unfold list_sum in *.
  - destruct w as [|[]| |]; try done.
  - lia.
Qed.
Lemma total_signal pick ws : (total (signal_job pick ws) <= S (total ws))%nat.
Proof.
  unfold signal_job. destruct (ws !! pick) as [[|[]| |]|] eqn:E; try apply total_wake_first.
  pose proof (total_insert ws pick _ (Asleep true) E). cbn in *. lia.
Qed.

Lemma calls_finished p : (list_sum (map (call_cost true) p) <= list_sum (map (call_cost false) p))%nat.
Proof. induction p as [|c p IH]; [done|]. cbn [map list_sum foldr] in *. unfold list_sum in *. destruct c; cbn; lia. Qed.

Lemma get_job_steps i w s :
  workers s !! i = Some w -> (steps_left (get_job i s) + worker_cost w <= steps_left s)%nat.
Proof.
  intros Hi. unfold steps_left, ThreadPool.get_job. pose proof (fun w' => total_insert _ _ _ w' Hi) as Ht.
  destruct (finished s) eqn:Ef; pool_cbn; rewrite ?Ef.
  - specialize (Ht Exited). cbn [worker_cost] in Ht. lia.
  - destruct (queue s) as [|j q] eqn:Eq; pool_cbn; rewrite ?Ef, ?Eq.
    + specialize (Ht (Asleep false)). cbn [worker_cost] in Ht. lia.
    + specialize (Ht (Running (begin_job j i))). cbn [worker_cost length] in *. pose proof (cost_begin j i). lia.
Qed.

Lemma step_decreases e s s' :
  pool_ok s -> keeps_inv s -> event_step e s = Some s' ->
  if spurious e then (steps_left s' <= S (steps_left s))%nat else (steps_left s' < steps_left s)%nat.
Proof.
  intros Hs Hinv He. pose proof (ok_length s Hs) as Hlen. destruct e as [pick|i|i|]; cbn [ThreadPool.event_step spurious] in *.
  - unfold main_step in He. destruct (waiting s) eqn:Ew; [done|]. unfold steps_left. destruct (prog s) as [|[j| |] p] eqn:Ep; [done|..].
    + injection He as <-. pool_cbn. rewrite Ew. pose proof (total_signal pick (workers s)). rewrite length_app.
      cbn [map list_sum foldr call_cost length]. unfold list_sum. lia.
    + injection He as <-. destruct (_ || _); pool_cbn; rewrite Ew, ?Ep; cbn [map list_sum foldr call_cost]; unfold list_sum; lia.
    + destruct (finished s) eqn:Ef.
      * destruct (forallb _ _); [|done]. injection He as <-. pool_cbn. rewrite Ew, Ef. cbn [map list_sum foldr call_cost]. unfold list_sum. lia.
      * injection He as <-. pool_cbn. rewrite Ew, Ep. pose proof (total_wake_worker (workers s)). pose proof (calls_finished p).
        cbn [map list_sum foldr call_cost] in *. unfold list_sum in *. lia.
  - unfold execute_thread in He. destruct (workers s !! i) as [[|[]|w|]|] eqn:Hi; try done.
    + injection He as <-. change (if _ =? 0 then _ else _) with (leave_job s).
      assert (workers (leave_job s) !! i = Some Starting) as Hi' by (unfold leave_job; by destruct (_ =? 0)).
      pose proof (get_job_steps i Starting (leave_job s) Hi') as H. cbn [worker_cost] in H.
      assert (steps_left (leave_job s) <= S (steps_left s))%nat; [|lia].
      unfold leave_job, steps_left. destruct (_ =? 0); pool_cbn; destruct (waiting s); lia.
    + injection He as <-. pose proof (get_job_steps i _ s Hi) as H. cbn [worker_cost] in H. lia.
    + apply bind_Some in He as ([[w' sh] b] & Hj & He). injection He as <-.
      assert (running (workers s) !! i = Some (Some w)) as Hr by (unfold running; by rewrite list_lookup_fmap, Hi).
      pose proof (cost_step _ _ _ i w w' sh b Hinv Hr Hj) as Hc.
      pose proof (total_insert _ _ _ (match w' with Some w' => Running w' | None => Starting end) Hi) as Ht.
      set (ws' := <[i := match w' with Some w' => Running w' | None => Starting end]> (workers s)) in *.
      pose proof (total_wake_running ws') as Hw. assert (length ws' = n) as Hl' by (unfold ws'; by rewrite length_insert).
      rewrite Hl' in Hw. unfold steps_left. destruct b; pool_cbn; fold ws'; destruct w'; cbn [worker_cost] in *; lia.
  - destruct (workers s !! i) as [[|[]|w|]|] eqn:Hi; try done. injection He as <-. unfold steps_left. pool_cbn.
    pose proof (total_insert _ _ _ (Asleep true) Hi) as Ht. cbn [worker_cost] in Ht. lia.
  - destruct (waiting s) eqn:Ew; [|done]. injection He as <-. unfold steps_left. pool_cbn. rewrite Ew. lia.
Qed.

(** However the threads are scheduled: no more steps than this, and one for each spurious wake-up. *)
Lemma run_bounded es s s' :
  pool_ok s -> keeps_inv s -> run begin_job job_step wake es s = Some s' ->
  (length (List.filter (fun e => negb (spurious e)) es) + steps_left s' <=
   steps_left s + length (List.filter spurious es))%nat.
Proof.
  revert s. induction es as [|e es IH]; intros s Hs Hinv Hr; [injection Hr as <-; cbn; lia|].
  cbn [run] in Hr. apply bind_Some in Hr as (s1 & He & Hr).
  pose proof (step_decreases e s s1 Hs Hinv He) as Hd.
  specialize (IH s1 (event_step_ok e s s1 Hs He) (event_step_inv e s s1 Hinv He) Hr).
  cbn [List.filter]. destruct (spurious e); cbn [negb length]; lia.
Qed.
End Facts.

(** ** What a client has to show of its jobs, and what it gets for a batch of them *)

Class Jobs {W Sh : Type} (n : nat) (begin_job : nat -> nat -> W) (job_step : W -> Sh -> option (option W * Sh * bool))
    (wake : W -> W) (inv : list nat -> list (option W) -> Sh -> Prop) (cost : W -> nat) (weight : Sh -> nat) (most : nat) : Prop := {
  jobs_begin j q rs sh i : inv (j :: q) rs sh -> rs !! i = Some None -> inv q (<[i := Some (begin_job j i)]> rs) sh;
  jobs_step q rs sh i w w' sh' b :
    inv q rs sh -> rs !! i = Some (Some w) -> job_step w sh = Some (w', sh', b) -> inv q (wake_all wake b (<[i := w']> rs)) sh';
  jobs_cost_begin j i : (cost (begin_job j i) <= most)%nat;
  jobs_cost_wake w : (cost (wake w) <= S (cost w))%nat;
  jobs_cost_step q rs sh i w w' sh' (b : bool) :
    inv q rs sh -> rs !! i = Some (Some w) -> job_step w sh = Some (w', sh', b) ->
    (match w' with Some w' => S (cost w') | None => 0 end + weight sh' + (if b then n else 0) <= cost w + weight sh)%nat
}.

Lemma jobs_of_batch l : jobs_of (map AddJob l ++ [WaitAll]) = l.
Proof. unfold jobs_of. induction l as [|x l IH]; [done|]. cbn in *. by rewrite IH. Qed.
Lemma running_fresh {W} n : running (replicate n (@Starting W)) = replicate n None.
Proof. unfold running. induction n as [|n IH]; [done|]. cbn. by rewrite IH. Qed.

Definition real_steps (es : list event) : nat := length (List.filter (fun e => negb (spurious e)) es).
Definition spurious_steps (es : list event) : nat := length (List.filter spurious es).

(** Whenever jobs run, one of them can take a step. *)
Definition never_blocked {W Sh} (job_step : W -> Sh -> option (option W * Sh * bool))
    (inv : list nat -> list (option W) -> Sh -> Prop) : Prop :=
  forall q rs sh i w, inv q rs sh -> rs !! i = Some (Some w) -> exists i w, rs !! i = Some (Some w) /\ job_step w sh <> None.

(** However the threads are scheduled, a batch keeps the client's invariant, takes a bounded
    number of steps and, if its jobs are never all blocked, is not stuck before [WaitAll]
    returns; then every job is done. *)
Lemma batch_runs {W Sh : Type} `{Hjobs : Jobs W Sh n begin_job job_step wake inv cost weight most} (jobs : list nat) (sh : Sh) :
  (0 < n)%nat /\ Z.of_nat n < 2 ^ 32 -> inv jobs (replicate n None) sh ->
  exists bound, forall es s,
    run begin_job job_step wake es (ThreadPool n (map AddJob jobs ++ [WaitAll]) sh) = Some s ->
    inv (todo s) (running (workers s)) (shared s) /\
    (prog s = [] -> todo s = [] /\ forall i w, running (workers s) !! i = Some w -> w = None) /\
    (never_blocked job_step inv -> prog s <> [] ->
      exists e s', spurious e = false /\ event_step begin_job job_step wake e s = Some s') /\
    (real_steps es <= bound + spurious_steps es)%nat.
Proof.
  intros Hn Hinit. set (init := ThreadPool n (map AddJob jobs ++ [WaitAll]) sh).
  assert (tail_ok : @nil call = [] \/ @nil call = [JoinAll]) by by left.
  assert (pool_ok n [] init) as Hok by apply ThreadPool_ok, Hn.
  assert (keeps_inv inv init) as Hinv
    by (unfold keeps_inv, todo, init; cbn [queue prog workers shared ThreadPool app]; by rewrite jobs_of_batch, running_fresh).
  exists (steps_left n cost weight most init). intros es s Hrun.
  pose proof (run_ok n [] tail_ok _ _ _ Hn es init s Hok Hrun) as Hoks.
  pose proof (run_inv _ _ _ inv jobs_begin jobs_step es init s Hinv Hrun) as Hinvs. split_and!; [exact Hinvs|..].
  - intros Hover. destruct (over_quiet n [] s Hoks Hover) as [Hq Hidle]. split; [by unfold todo; rewrite Hq, Hover|].
    intros i [w|] Hi; [|done]. apply running_lookup in Hi. by destruct (Hidle i w).
  - intros Hlive Hne. by apply (progress n [] begin_job job_step wake Hn inv Hlive).
  - pose proof (run_bounded n [] tail_ok _ _ _ Hn inv jobs_begin jobs_step cost weight most jobs_cost_begin jobs_cost_wake
      jobs_cost_step es init s Hok Hinv Hrun). unfold real_steps, spurious_steps. lia.
Qed.

Lemma run_snoc {W Sh : Type} (begin_job : nat -> nat -> W) (job_step : W -> Sh -> option (option W * Sh * bool)) wake es e (s : pool W Sh) :
  run begin_job job_step wake (es ++ [e]) s = run begin_job job_step wake es s ≫= event_step begin_job job_step wake e.
Proof.
  revert s. induction es as [|x es IH]; intros s; cbn [app run].
  - cbn [mbind option_bind]. by destruct (event_step _ _ _ e s).
  - destruct (event_step _ _ _ x s) as [s1|]; [|done]. cbn [mbind option_bind]. apply IH.
Qed.

(** Scheduled well, the batch ends. *)
Lemma batch_ends {W Sh : Type} `{Hjobs : Jobs W Sh n begin_job job_step wake inv cost weight most} (jobs : list nat) (sh : Sh) :
  (0 < n)%nat /\ Z.of_nat n < 2 ^ 32 -> inv jobs (replicate n None) sh -> never_blocked job_step inv ->
  exists es s, run begin_job job_step wake es (ThreadPool n (map AddJob jobs ++ [WaitAll]) sh) = Some s /\ prog s = [].
Proof.
  intros Hn Hinit Hlive. destruct (batch_runs (Hjobs := Hjobs) jobs sh Hn Hinit) as [bound Hrun].
  set (init := ThreadPool n (map AddJob jobs ++ [WaitAll]) sh) in *.
  assert (forall m es s, run begin_job job_step wake es init = Some s -> spurious_steps es = 0%nat -> (bound <= m + real_steps es)%nat ->
    exists es s, run begin_job job_step wake es init = Some s /\ prog s = []) as Hgo.
  { induction m as [|m IH]; intros es s Hs Hes Hm; (destruct (prog s) as [|c p] eqn:Ep; [by exists es, s|]);
      destruct (Hrun es s Hs) as (_ & _ & Hgo & _); destruct (Hgo Hlive ltac:(by rewrite Ep)) as (e & s' & He & Hs');
      assert (run begin_job job_step wake (es ++ [e]) init = Some s') as Hnext by (rewrite run_snoc, Hs; exact Hs');
      (assert (real_steps (es ++ [e]) = S (real_steps es) /\ spurious_steps (es ++ [e]) = spurious_steps es) as [E1 E2];
        [unfold real_steps, spurious_steps; rewrite !List.filter_app; cbn [List.filter]; rewrite He, !length_app; cbn; lia|]).
    - destruct (Hrun _ _ Hnext) as (_ & _ & _ & Hb). lia.
    - apply (IH (es ++ [e]) s' Hnext); lia. }
  by apply (Hgo bound [] init); [|done|lia].
Qed.
