(* ===== verification/StreamParts.v ===== *)
(** * cpp/util/ByteArrayStreamBuf and the parts of SnowflakeS3Client: large files.

    A large file is sent or fetched in parts, one job of the pool each.  The splitter hands
    out the next part of the stream to whichever thread asks; the appender lets a thread
    write its part only when its turn has come.  The answers of S3 are arguments.  A job's
    steps are its critical sections and what it does between them to its own buffer. *)

From S2P Require Import Prelude CLib Base64 ThreadPool.

(** RemoteStorageRequestOutcome.hpp *)
Inductive RemoteStorageRequestOutcome := SUCCESS | FAILED | TOKEN_EXPIRED | SKIP_UPLOAD_FILE.
#[export] Instance outcome_code_eq_dec : EqDecision RemoteStorageRequestOutcome.
Proof. solve_decision. Defined.

(** ** ByteArrayStreamBuf

    The get area is [0, size), the put area from [putPos] to [putEnd]. *)
Record ByteArrayStreamBuf := mk_buf { dataBuffer : bytes; putPos : nat; putEnd : nat; size : nat }.

(** [size] is not set by the constructor; both users set it before they read it. *)
Definition new_buf (capacity : nat) : ByteArrayStreamBuf := mk_buf (replicate capacity (chr 0)) 0 capacity 0.
(** A size beyond the block, or a negative one, would make areas outside of it. *)
Definition updateSize (updatedSize : Z) (b : ByteArrayStreamBuf) : option ByteArrayStreamBuf :=
  if (0 <=? updatedSize) && (updatedSize <=? Z.of_nat (length (dataBuffer b))) then
    Some (mk_buf (dataBuffer b) 0 (Z.to_nat updatedSize) (Z.to_nat updatedSize))
  else None.
(** A stream writes a body into the put area; what does not fit is refused. *)
Definition put_body (body : bytes) (b : ByteArrayStreamBuf) : ByteArrayStreamBuf :=
  let n := Nat.min (length body) (putEnd b - putPos b) in
  mk_buf (take (putPos b) (dataBuffer b) ++ take n body ++ drop (putPos b + n) (dataBuffer b)) (putPos b + n) (putEnd b) (size b).
Definition contents (b : ByteArrayStreamBuf) : bytes := take (size b) (dataBuffer b).

(** ** Downloading in parts *)

Section Download.
  Context (threshold srcFileSize : Z).

(** [(int)(srcFileSize / DATA_SIZE_THRESHOLD) + 1] *)
Definition partNum : nat := Z.to_nat (srcFileSize / threshold) + 1.
(** The bounds of a range and the size expected: [i * DATA_SIZE_THRESHOLD] is an unsigned
    product of 32 bits, the size of the file is a [long]. *)
Definition range_first (i : nat) : Z := u32 (Z.of_nat i * threshold).
Definition range_last (i : nat) : Z :=
  if (i =? partNum - 1)%nat then srcFileSize - 1 else u32 ((Z.of_nat i + 1) * threshold - 1).
Definition partSize (i : nat) : Z :=
  if (i =? partNum - 1)%nat then i32 (srcFileSize - u32 (Z.of_nat i * threshold)) else threshold.

(** S3's answer to a range: the outcome and the bytes it sends. *)
Context (get_object : Z -> Z -> RemoteStorageRequestOutcome * bytes).
Definition answer (i : nat) : RemoteStorageRequestOutcome * bytes := get_object (range_first i) (range_last i).

(** The appender and the contexts of the parts. *)
Record appender := mk_appender {
  m_outputStream : bytes; m_flushed : bool;
  m_currentPartIndex : nat;
  m_buffers : list (option ByteArrayStreamBuf);
  m_outcomes : list (option RemoteStorageRequestOutcome);
  crashed : bool
}.
Definition StreamAppender (parallel : nat) : appender :=
  mk_appender [] false 0 (replicate parallel None) (replicate partNum None) false.

(** A job: before [GetBuffer], before [GetObject], on its way to the critical section of
    [WritePartToOutputStream], and asleep in it. *)
Inductive download_job := DStart (part thread : nat) | DGet (part thread : nat) | DWrite (part thread : nat) | DWait (part thread : nat).
Definition part_of (w : download_job) : nat :=
  match w with DStart i _ | DGet i _ | DWrite i _ | DWait i _ => i end.
Definition thread_of (w : download_job) : nat :=
  match w with DStart _ t | DGet _ t | DWrite _ t | DWait _ t => t end.
Definition wake_download (w : download_job) : download_job := match w with DWait i t => DWrite i t | _ => w end.

Definition set_buffer (t : nat) (b : ByteArrayStreamBuf) (a : appender) : appender :=
  mk_appender (m_outputStream a) (m_flushed a) (m_currentPartIndex a) (<[t := Some b]> (m_buffers a)) (m_outcomes a) (crashed a).
Definition set_outcome (i : nat) (o : RemoteStorageRequestOutcome) (a : appender) : appender :=
  mk_appender (m_outputStream a) (m_flushed a) (m_currentPartIndex a) (m_buffers a) (<[i := Some o]> (m_outcomes a)) (crashed a).
Definition crash (a : appender) : appender :=
  mk_appender (m_outputStream a) (m_flushed a) (m_currentPartIndex a) (m_buffers a) (m_outcomes a) true.

Definition GetBuffer (threadId : nat) (a : appender) : appender :=
  match m_buffers a !! threadId with
  | Some None => set_buffer threadId (new_buf (Z.to_nat threshold)) a
  | Some (Some _) => a
  | None => crash a
  end.

Definition WritePartToOutputStream (threadId partIndex : nat) (a : appender) : option appender :=
  if (m_currentPartIndex a <? partIndex)%nat then None
  else
    Some (match m_buffers a !! threadId with
          | Some (Some b) =>
              mk_appender (m_outputStream a ++ contents b) (if (partIndex =? partNum - 1)%nat then true else m_flushed a)
                (S (m_currentPartIndex a)) (m_buffers a) (m_outcomes a) (crashed a)
          | _ => crash a
          end).

Definition download_step (w : download_job) (a : appender) : option (option download_job * appender * bool) :=
  match w with
  | DStart i t => Some (Some (DGet i t), GetBuffer t a, false)
  | DGet i t =>
      let '(outcome, body) := answer i in
      match m_buffers a !! t with
      | Some (Some b) =>
          match updateSize (partSize i) (put_body body b) with
          | Some b =>
              let a := set_outcome i outcome (set_buffer t b a) in
              Some (if bool_decide (outcome = SUCCESS) then Some (DWrite i t) else None, a, false)
          | None => Some (None, crash a, false)
          end
      | _ => Some (None, crash a, false)
      end
  | DWrite i t =>
      match WritePartToOutputStream t i a with
      | None => Some (Some (DWait i t), a, false)
      | Some a => Some (None, a, true)
      end
  | DWait _ _ => None
  end.

Abbreviation download_pool := (pool download_job appender).
Definition download_event := event_step DStart download_step wake_download.
Definition download_run := run DStart download_step wake_download.

(** The calls of [doMultiPartDownload] on its pool, and the result it returns. *)
Definition download_calls : list call := map AddJob (seq 0 partNum) ++ [WaitAll].
Definition doMultiPartDownload (parallel : nat) : download_pool :=
  ThreadPool parallel download_calls (StreamAppender parallel).
Definition download_outcome (a : appender) : option RemoteStorageRequestOutcome :=
  foldr (fun o r => match o with Some SUCCESS => r | _ => o end) (Some SUCCESS) (m_outcomes a).
End Download.

(** ** Uploading in parts *)

Section Upload.
  Context (threshold : Z).

(** [streamSize / m_partMaxSize + 1] *)
Definition getTotalParts (streamSize : Z) : nat := Z.to_nat (streamSize / threshold + 1).

(** S3's answer to a part. *)
Context (upload_part : nat -> bytes -> RemoteStorageRequestOutcome).

(** The splitter, and the contexts of the parts with what S3 was sent. *)
Record splitter := mk_splitter {
  m_inputStream : bytes;
  s_currentPartIndex : nat;             (* of the next part: the C++ field and one *)
  buffers : list ByteArrayStreamBuf;
  sent : list (option (bytes * RemoteStorageRequestOutcome));
  s_crashed : bool
}.
Definition StreamSplitter (input : bytes) (numOfBuffer totalParts : nat) : splitter :=
  mk_splitter input 0 (replicate numOfBuffer (new_buf (Z.to_nat threshold))) (replicate totalParts None) false.
Definition s_crash (s : splitter) : splitter :=
  mk_splitter (m_inputStream s) (s_currentPartIndex s) (buffers s) (sent s) true.

Inductive upload_job := UFill (thread : nat) | USend (part thread : nat).

(** Zeroed, filled from the stream, and cut to what was read. *)
Definition FillAndGetBuf (t : nat) (s : splitter) : option (nat * splitter) :=
  match buffers s !! t with
  | None => None
  | Some b =>
      let chunk := take (Z.to_nat threshold) (m_inputStream s) in
      let data := chunk ++ replicate (length (dataBuffer b) - length chunk) (chr 0) in
      b ← updateSize (Z.of_nat (length chunk)) (mk_buf data (putPos b) (putEnd b) (size b));
      Some (s_currentPartIndex s,
            mk_splitter (drop (Z.to_nat threshold) (m_inputStream s)) (S (s_currentPartIndex s))
              (<[t := b]> (buffers s)) (sent s) (s_crashed s))
  end.

(** [uploadParts[partId]] exists, and the request reads the buffer through its get area. *)
Definition uploadParts (part t : nat) (s : splitter) : splitter :=
  match buffers s !! t, sent s !! part with
  | Some b, Some _ =>
      mk_splitter (m_inputStream s) (s_currentPartIndex s) (buffers s)
        (<[part := Some (contents b, upload_part (part + 1) (contents b))]> (sent s)) (s_crashed s)
  | _, _ => s_crash s
  end.

Definition upload_step (w : upload_job) (s : splitter) : option (option upload_job * splitter * bool) :=
  match w with
  | UFill t =>
      Some (match FillAndGetBuf t s with Some (p, s) => (Some (USend p t), s, false) | None => (None, s_crash s, false) end)
  | USend p t => Some (None, uploadParts p t s, false)
  end.

Abbreviation upload_pool := (pool upload_job splitter).
Definition upload_run := run (fun _ => UFill) upload_step id.
Definition upload_calls (totalParts : nat) : list call := map AddJob (seq 0 totalParts) ++ [WaitAll].
Definition doMultiPartUpload (parallel : nat) (input : bytes) (cipherStreamSize : Z) : upload_pool :=
  let totalParts := getTotalParts cipherStreamSize in
  ThreadPool parallel (upload_calls totalParts) (StreamSplitter input parallel totalParts).

(** [None] when all parts are there and the upload is completed. *)
Definition upload_failure (s : splitter) : option RemoteStorageRequestOutcome :=
  foldr (fun o r => match o with Some (_, SUCCESS) => r | Some (_, e) => Some e | None => r end) None (sent s).
End Upload.

(** ** Parts of a text *)

Definition part (size : nat) (content : bytes) (i : nat) : bytes := take size (drop (i * size) content).
Lemma parts_prefix size content k : concat (map (part size content) (seq 0 k)) = take (k * size) content.
Proof.
  induction k as [|k IH]; [done|]. rewrite seq_S, map_app, concat_app, IH. cbn [map concat]. rewrite app_nil_r.
  unfold part. by rewrite take_take_drop, Nat.add_comm.
Qed.
Lemma parts_whole size content k :
  (length content <= k * size)%nat -> concat (map (part size content) (seq 0 k)) = content.
Proof. intros H. rewrite parts_prefix. by apply take_ge. Qed.

(** ** Uploading: the parts in order are the stream *)

Section UploadFacts.
  Context (threshold : Z) (upload_part : nat -> bytes -> RemoteStorageRequestOutcome) (n : nat) (content : bytes) (total : nat).
  Hypothesis threshold_pos : 0 < threshold.
Let T := Z.to_nat threshold.

Definition is_fill (w : option upload_job) : bool := match w with Some (UFill _) => true | _ => false end.
Definition fills (rs : list (option upload_job)) : nat := length (List.filter is_fill rs).
Definition upload_thread (w : upload_job) : nat := match w with UFill t | USend _ t => t end.
Definition sent_part (q : nat) : bytes * RemoteStorageRequestOutcome :=
  (part T content q, upload_part (q + 1) (part T content q)).

Record upload_inv (todo : list nat) (rs : list (option upload_job)) (s : splitter) : Prop := {
  u_count : (fills rs + s_currentPartIndex s + length todo = total)%nat;
  u_stream : m_inputStream s = drop (s_currentPartIndex s * T) content;
  u_buffers : length (buffers s) = n /\ length rs = n /\ Forall (fun b => length (dataBuffer b) = T) (buffers s);
  u_thread : forall t w, rs !! t = Some (Some w) -> upload_thread w = t;
  u_sending : forall t p t', rs !! t = Some (Some (USend p t')) ->
    (p < s_currentPartIndex s)%nat /\ exists b, buffers s !! t = Some b /\ contents b = part T content p;
  u_parts : forall p, (p < s_currentPartIndex s)%nat ->
    (exists t, rs !! t = Some (Some (USend p t))) \/ sent s !! p = Some (Some (sent_part p));
  u_sent : length (sent s) = total;
  u_safe : s_crashed s = false
}.

Lemma fills_insert rs i w w' :
  rs !! i = Some w -> (fills (<[i := w']> rs) + Nat.b2n (is_fill w) = fills rs + Nat.b2n (is_fill w'))%nat.
Proof.
  revert i. induction rs as [|v rs IH]; intros [|i] Hi; try done; unfold fills in *.
  - injection Hi as ->. change (<[0%nat := w']> (w :: rs)) with (w' :: rs). cbn [List.filter].
    destruct (is_fill w), (is_fill w'); cbn; lia.
  - specialize (IH i Hi). change (<[S i := w']> (v :: rs)) with (v :: <[i := w']> rs). cbn [List.filter].
    destruct (is_fill v); cbn [length]; lia.
Qed.

Lemma upload_begin j q rs s i :
  upload_inv (j :: q) rs s -> rs !! i = Some None -> upload_inv q (<[i := Some (UFill i)]> rs) s.
Proof.
  intros [Hc Hin (Hb & Hr & Hbs) Ht Hsend Hp Hs Hsafe] Hi. pose proof (fills_insert rs i _ (Some (UFill i)) Hi) as Hf. cbn in Hf.
  split; try done.
  - cbn [length] in Hc. lia.
  - by rewrite length_insert.
  - intros t w Hw. apply list_lookup_insert_Some in Hw as [(-> & [= <-] & _)|[_ Hw]]; [done|by apply Ht].
  - intros t p t' Hw. apply list_lookup_insert_Some in Hw as [(_ & [=] & _)|[_ Hw]]. by eapply Hsend.
  - intros p Hlt. destruct (Hp p Hlt) as [[t Hw]|Hsent]; [|by right]. left. exists t.
    rewrite list_lookup_insert_ne; [done|]. intros ->. by rewrite Hi in Hw.
Qed.

Lemma upload_step_inv q rs s i w w' s' b :
  upload_inv q rs s -> rs !! i = Some (Some w) -> upload_step threshold upload_part w s = Some (w', s', b) ->
  upload_inv q (wake_all id b (<[i := w']> rs)) s' /\ b = false /\ (w = UFill i \/ w' = None).
Proof.
  intros [Hc Hin (Hb & Hr & Hbs) Ht Hsend Hp Hs Hsafe] Hi Hstep. pose proof (Ht i w Hi) as Ew.
  assert (i < n)%nat as Hin' by (rewrite <- Hr; by eapply lookup_lt_Some).
  destruct (lookup_lt_is_Some_2 (buffers s) i) as [buf Hbuf]; [lia|].
  pose proof (fills_insert rs i _ w' Hi) as Hf. destruct w as [t|p t]; cbn in Ew; subst t; cbn [upload_step] in Hstep.
  - unfold FillAndGetBuf in Hstep. rewrite Hbuf in Hstep. fold T in Hstep.
    set (chunk := take T (m_inputStream s)) in *.
    assert (length (dataBuffer buf) = T) as Hcap by (rewrite Forall_forall in Hbs; apply Hbs; by eapply list_elem_of_lookup_2).
    assert (length chunk <= T)%nat as Hchunk by (unfold chunk; rewrite length_take; lia).
    set (data := chunk ++ replicate (length (dataBuffer buf) - length chunk) (chr 0)) in *.
    assert (length data = T) as Hdata by (unfold data; rewrite length_app, length_replicate; lia).
    assert (updateSize (Z.of_nat (length chunk)) (mk_buf data (putPos buf) (putEnd buf) (size buf)) =
      Some (mk_buf data 0 (length chunk) (length chunk))) as Eu.
    { unfold updateSize. cbn [dataBuffer]. rewrite Hdata. destruct (0 <=? _) eqn:E1, (_ <=? Z.of_nat T) eqn:E2; try lia.
      cbn. by rewrite Nat2Z.id. }
    rewrite Eu in Hstep. cbn in Hstep. injection Hstep as <- <- <-. cbn in Hf.
    split; [|by split; [|left]]. cbn [wake_all]. split; cbn [s_currentPartIndex m_inputStream buffers sent s_crashed]; try done.
    + lia.
    + rewrite Hin, drop_drop. f_equal. lia.
    + rewrite !length_insert. split_and!; [done..|]. by apply Forall_insert.
    + intros t w Hw. apply list_lookup_insert_Some in Hw as [(-> & [= <-] & _)|[_ Hw]]; [done|by apply Ht].
    + intros t p t' Hw. apply list_lookup_insert_Some in Hw as [(-> & [= <- <-] & _)|[Hne Hw]].
      * split; [lia|]. eexists. rewrite list_lookup_insert_eq by lia. split; [done|].
        unfold contents. cbn [size dataBuffer]. unfold data. rewrite take_app_length. unfold chunk, part. by rewrite Hin.
      * destruct (Hsend t p t' Hw) as (Hlt & b' & Hb' & Hcont). split; [lia|]. exists b'. by rewrite list_lookup_insert_ne.
    + intros p Hlt. destruct (decide (p = s_currentPartIndex s)) as [->|Hne].
      * left. exists i. apply list_lookup_insert_eq. lia.
      * destruct (Hp p ltac:(lia)) as [[t Hw]|Hsent]; [|by right]. left. exists t.
        rewrite list_lookup_insert_ne; [done|]. intros ->. by rewrite Hi in Hw.
  - destruct (Hsend i p i Hi) as (Hlt & b' & Hb' & Hcont). injection Hstep as <- <- <-. cbn in Hf.
    split; [|by split; [|right]]. unfold uploadParts. rewrite Hb'.
    destruct (lookup_lt_is_Some_2 (sent s) p) as [o Ho]; [lia|]. rewrite Ho. cbn [wake_all].
    split; cbn [s_currentPartIndex m_inputStream buffers sent s_crashed]; try done.
    + lia.
    + by rewrite length_insert.
    + intros t w Hw. apply list_lookup_insert_Some in Hw as [(_ & [=] & _)|[_ Hw]]. by apply Ht.
    + intros t p' t' Hw. apply list_lookup_insert_Some in Hw as [(_ & [=] & _)|[_ Hw]]. by eapply Hsend.
    + intros p' Hlt'. destruct (decide (p' = p)) as [->|Hne].
      * right. rewrite list_lookup_insert_eq by lia. unfold sent_part. by rewrite Hcont.
      * destruct (Hp p' Hlt') as [[t Hw]|Hsent].
        -- left. exists t. rewrite list_lookup_insert_ne; [done|]. intros ->. rewrite Hi in Hw. by injection Hw as ->.
        -- right. by rewrite list_lookup_insert_ne.
    + by rewrite length_insert.
Qed.
End UploadFacts.

Lemma getTotalParts_enough threshold (content : bytes) :
  0 < threshold ->
  (length content <= getTotalParts threshold (Z.of_nat (length content)) * Z.to_nat threshold)%nat.
Proof.
  intros Ht. unfold getTotalParts. pose proof (Z.div_mod (Z.of_nat (length content)) threshold ltac:(lia)).
  pose proof (Z.mod_pos_bound (Z.of_nat (length content)) threshold Ht).
  assert (0 <= Z.of_nat (length content) / threshold) by (apply Z.div_pos; lia).
  apply Nat2Z.inj_le. rewrite Nat2Z.inj_mul, !Z2Nat.id by lia. nia.
Qed.

#[export] Instance upload_jobs threshold upload_part n content total :
  0 < threshold ->
  Jobs n (fun _ => UFill) (upload_step threshold upload_part) id (upload_inv threshold upload_part n content total)
    (fun w => match w with UFill _ => 2 | USend _ _ => 1 end)%nat (fun _ => 0)%nat 2.
Proof.
  intros Ht. split; try (by intros).
  - intros. by eapply upload_begin.
  - intros. by eapply upload_step_inv.
  - intros w. cbn. lia.
  - intros q rs sh i w w' sh' b Hi Hw Hj. destruct (upload_step_inv _ _ _ _ _ Ht _ _ _ _ _ _ _ _ Hi Hw Hj) as (_ & -> & Hcase).
    destruct Hcase as [->| ->]; [|destruct w; lia]. cbn in Hj. destruct (FillAndGetBuf threshold i sh) as [[p s1]|]; injection Hj as <- <-; lia.
Qed.

Lemma upload_inv_init threshold upload_part n content total :
  upload_inv threshold upload_part n content total (seq 0 total) (replicate n None) (StreamSplitter threshold content n total).
Proof.
  assert (forall t w, @replicate (option upload_job) n None !! t = Some (Some w) -> False) as Hnone
    by (intros t w Hw; by apply lookup_replicate in Hw as [? _]).
  split; cbn; try done; try (by intros; lia); try (by intros; exfalso; eauto).
  - rewrite length_seq. assert (fills (replicate n None) = 0)%nat as ->; [|lia].
    unfold fills. clear. induction n as [|m IH]; [done|exact IH].
  - rewrite !length_replicate. split_and!; [done..|]. apply Forall_replicate. apply length_replicate.
  - apply length_replicate.
Qed.

(** When all jobs are done every part has been sent. *)
Lemma upload_inv_over threshold upload_part n content total rs s :
  upload_inv threshold upload_part n content total [] rs s -> (forall t w, rs !! t = Some w -> w = None) ->
  sent s = map (fun q => Some (sent_part threshold upload_part content q)) (seq 0 total).
Proof.
  intros [Hc Hin (Hb & Hr & Hbs) Hth Hsend Hp Hs Hsafe] Hidle.
  assert (fills rs = 0%nat) as Hz.
  { unfold fills. destruct (List.filter is_fill rs) as [|o l] eqn:E; [done|].
    assert (In o (List.filter is_fill rs)) as [Ho Hf]%filter_In by (rewrite E; by left).
    apply list_elem_of_In, list_elem_of_lookup_1 in Ho as [t Ht]. by rewrite (Hidle t o Ht) in Hf. }
  cbn in Hc. apply list_eq_same_length with (n := total); [by rewrite length_map, length_seq|done|].
  intros p x y Hlt Hx Hy. destruct (Hp p ltac:(lia)) as [[t Hw]|Hsent]; [by specialize (Hidle t _ Hw)|].
  rewrite Hsent in Hx. injection Hx as <-. apply list_lookup_fmap_Some in Hy as (q & -> & Hq'). by apply lookup_seq in Hq' as [-> _].
Qed.

(** C15: an upload in parts, for every schedule of the threads and every answer of S3: no buffer is overrun and no
    context missing; no state before the end is a deadlock and the number of steps is bounded (but for spurious
    wake-ups); and at the end S3 has been sent, under the part numbers 1, 2 and so on, pieces that put together are
    the stream. *)
Theorem parts_uploaded (threshold : Z) (upload_part : nat -> bytes -> RemoteStorageRequestOutcome) (n : nat) (content : bytes) :
  0 < threshold -> (0 < n)%nat /\ Z.of_nat n < 2 ^ 32 ->
  let total := getTotalParts threshold (Z.of_nat (length content)) in
  let parts := map (part (Z.to_nat threshold) content) (seq 0 total) in
  concat parts = content /\
  exists bound, forall es s,
    upload_run threshold upload_part es (doMultiPartUpload threshold n content (Z.of_nat (length content))) = Some s ->
    s_crashed (shared s) = false /\
    (prog s = [] -> sent (shared s) = map (fun q => Some (sent_part threshold upload_part content q)) (seq 0 total)) /\
    (prog s <> [] -> exists e s', spurious e = false /\ event_step (fun _ => UFill) (upload_step threshold upload_part) id e s = Some s') /\
    (real_steps es <= bound + spurious_steps es)%nat.
Proof.
  intros Ht Hn total parts. split; [by apply parts_whole, getTotalParts_enough|].
  pose proof (upload_jobs threshold upload_part n content total Ht) as Hjobs.
  destruct (batch_runs (Hjobs := Hjobs) (seq 0 total) (StreamSplitter threshold content n total) Hn (upload_inv_init _ _ _ _ _)) as [bound H].
  exists bound. intros es s Hrun. destruct (H es s Hrun) as (Hinv & Hover & Hlive & Hsteps). split_and!; try done; [apply Hinv| |].
  2: { apply Hlive. intros q rs sh i w _ Hw. exists i, w. split; [done|]. by destruct w. }
  intros Hend. destruct (Hover Hend) as [Htodo Hidle]. rewrite Htodo in Hinv. by eapply upload_inv_over.
Qed.

(** ** Downloading: the parts are written once and in order *)

Section DownloadFacts.
  Context (threshold : Z) (content : bytes) (get_object : Z -> Z -> RemoteStorageRequestOutcome * bytes) (n : nat).
Let file_size : Z := Z.of_nat (length content).
  Hypothesis threshold_range : 0 < threshold < 2 ^ 31.
  Hypothesis size_range : file_size < 2 ^ 32.
  (** A range within the object that S3 answers with success comes with its bytes. *)
  Hypothesis honest : forall a b, 0 <= a <= b -> b < file_size -> fst (get_object a b) = SUCCESS ->
    snd (get_object a b) = take (Z.to_nat (b - a + 1)) (drop (Z.to_nat a) content).
Let T := Z.to_nat threshold.
Let N := partNum threshold file_size.
  #[local] Abbreviation answer := (answer threshold file_size get_object).
  #[local] Abbreviation partSize := (partSize threshold file_size).

Definition succeeds (i : nat) : Prop := fst (answer i) = SUCCESS.

Lemma partNum_bounds : Z.of_nat (N - 1) * threshold <= file_size < Z.of_nat N * threshold.
Proof.
  unfold N, partNum. rewrite Nat.add_sub. pose proof (Z.div_mod file_size threshold ltac:(lia)).
  pose proof (Z.mod_pos_bound file_size threshold ltac:(lia)).
  assert (0 <= file_size / threshold) by (apply Z.div_pos; lia). rewrite Nat2Z.inj_add, Z2Nat.id by done. nia.
Qed.
Lemma part_start i : (i < N)%nat -> 0 <= Z.of_nat i * threshold <= file_size /\ u32 (Z.of_nat i * threshold) = Z.of_nat i * threshold.
Proof. intros Hi. pose proof partNum_bounds. assert (0 <= Z.of_nat i * threshold <= file_size) by nia. split; [done|]. apply wrapU_small. lia. Qed.

(** What is expected of a part is the length of that piece of the file. *)
Lemma partSize_length i : (i < N)%nat -> partSize i = Z.of_nat (length (part T content i)).
Proof.
  intros Hi. destruct (part_start i Hi) as [Hs Hu]. pose proof partNum_bounds. unfold StreamParts.partSize, part. fold N. rewrite Hu, length_take, length_drop.
  assert (Z.of_nat (i * T) = Z.of_nat i * threshold) as E by (rewrite Nat2Z.inj_mul; unfold T; rewrite Z2Nat.id; lia).
  assert (Z.of_nat T = threshold) as ET by (unfold T; rewrite Z2Nat.id; lia).
  destruct (Nat.eqb_spec i (N - 1)) as [->|Hne].
  - rewrite wrapS_small by nia. unfold file_size in *. nia.
  - assert (Z.of_nat (S i) * threshold <= file_size) by nia. unfold file_size in *. nia.
Qed.
Lemma partSize_bounds i : (i < N)%nat -> 0 <= partSize i <= threshold.
Proof. intros Hi. rewrite partSize_length by done. unfold part. rewrite length_take. unfold T. lia. Qed.
Lemma partSize_inner i : (S i < N)%nat -> partSize i = threshold.
Proof. intros Hi. unfold StreamParts.partSize. fold N. destruct (Nat.eqb_spec i (N - 1)); [lia|done]. Qed.

(** The bytes that are kept of a successful answer are that piece. *)
Lemma answer_part i : (i < N)%nat -> succeeds i -> take (Z.to_nat (partSize i)) (snd (answer i)) = part T content i.
Proof.
  intros Hi Hok. destruct (part_start i Hi) as [Hs Hu]. pose proof partNum_bounds as Hb. pose proof (partSize_length i Hi) as Hl.
  destruct (decide (partSize i = 0)) as [E|Hne].
  { rewrite E in *. destruct (part T content i); [done|cbn in Hl; lia]. }
  assert (Z.of_nat (i * T) = Z.of_nat i * threshold) as EiT by (rewrite Nat2Z.inj_mul; unfold T; rewrite Z2Nat.id; lia).
  assert (exists last, range_last threshold file_size i = last /\ last < file_size /\ last = Z.of_nat i * threshold + partSize i - 1) as (last & El & Hlast & Elast).
  { exists (range_last threshold file_size i). unfold range_last, StreamParts.partSize in *. fold N in Hne |- *. split; [done|].
    destruct (Nat.eqb_spec i (N - 1)) as [->|Hlt]; [rewrite Hu, wrapS_small by nia; lia|].
    rewrite wrapU_small by nia. nia. }
  pose proof (partSize_bounds i Hi) as Hp. unfold succeeds, StreamParts.answer, range_first in *. rewrite El, Hu in *.
  rewrite honest by (done || lia). unfold part. replace (Z.to_nat (Z.of_nat i * threshold)) with (i * T)%nat by lia.
  rewrite take_take, Elast, Hl. unfold part. rewrite length_take. set (rest := drop (i * T) content).
  destruct (Nat.le_gt_cases T (length rest)); [f_equal; lia|]. by rewrite !take_ge by lia.
Qed.

#[local] Abbreviation step := (download_step threshold file_size get_object).
Definition filling (w : download_job) : Prop := match w with DStart _ _ | DGet _ _ => True | _ => False end.
Definition recorded (a : appender) (i : nat) : Prop := m_outcomes a !! i = Some (Some (fst (answer i))).

(** The buffer of a thread: its put area is the whole block, until the last part was received. *)
Definition slot_ok (k t : nat) (rs : list (option download_job)) (b : ByteArrayStreamBuf) : Prop :=
  length (dataBuffer b) = T /\ putPos b = 0%nat /\
  ((k < N)%nat \/ (exists w, rs !! t = Some (Some w) /\ filling w) -> putEnd b = T).

(** What a job relies on at each of its steps. *)
Definition job_ok (a : appender) (w : download_job) : Prop :=
  match w with
  | DStart _ _ => True
  | DGet _ t => exists b, m_buffers a !! t = Some (Some b)
  | DWrite i t => succeeds i /\ recorded a i /\ exists b, m_buffers a !! t = Some (Some b) /\ contents b = part T content i
  | DWait i t => (m_currentPartIndex a < i)%nat /\ succeeds i /\ recorded a i /\
      exists b, m_buffers a !! t = Some (Some b) /\ contents b = part T content i
  end.

Record download_inv (todo : list nat) (rs : list (option download_job)) (a : appender) : Prop := {
  d_todo : exists k, (k <= N)%nat /\ todo = seq k (N - k) /\ (m_currentPartIndex a <= k)%nat /\
    (forall t b, m_buffers a !! t = Some (Some b) -> slot_ok k t rs b) /\
    (forall t w, rs !! t = Some (Some w) -> (part_of w < k)%nat) /\
    (forall i, (i < k)%nat -> (exists t w, rs !! t = Some (Some w) /\ part_of w = i) \/
      (recorded a i /\ ((i < m_currentPartIndex a)%nat \/ ~ succeeds i)));
  d_job : forall t w, rs !! t = Some (Some w) -> thread_of w = t /\ (m_currentPartIndex a <= part_of w)%nat /\ job_ok a w;
  d_distinct : forall t t' w w', rs !! t = Some (Some w) -> rs !! t' = Some (Some w') -> part_of w = part_of w' -> t = t';
  d_written : forall i, (i < m_currentPartIndex a)%nat -> succeeds i;
  d_output : m_outputStream a = concat (map (part T content) (seq 0 (m_currentPartIndex a)));
  d_flushed : m_currentPartIndex a = N -> m_flushed a = true;
  d_lengths : length (m_buffers a) = n /\ length rs = n /\ length (m_outcomes a) = N;
  d_safe : crashed a = false
}.

Lemma download_begin j q rs a i :
  download_inv (j :: q) rs a -> rs !! i = Some None -> download_inv q (<[i := Some (DStart j i)]> rs) a.
Proof.
  intros [(k & Hk & Htodo & Hcur & Hslots & Hparts & Hdone) Hjob Hdist Hwr Hout Hfl (Hb & Hr & Ho) Hsafe] Hi.
  destruct (N - k)%nat as [|m] eqn:Em; [done|]. injection Htodo as -> ->.
  assert (i < length rs)%nat as Hlt by by eapply lookup_lt_Some. split; try done.
  - exists (S k). split_and!; [lia| |lia|..].
    + f_equal. lia.
    + intros t b Hbuf. destruct (Hslots t b Hbuf) as (H1 & H2 & H3). split_and!; [done..|]. intros _. apply H3. left. lia.
    + intros t w Hw. apply list_lookup_insert_Some in Hw as [(-> & [= <-] & _)|[_ Hw]]; cbn; [lia|]. specialize (Hparts t w Hw). lia.
    + intros p Hp. destruct (decide (p = k)) as [->|Hne].
      * left. exists i, (DStart k i). split; [|done]. by apply list_lookup_insert_eq.
      * destruct (Hdone p ltac:(lia)) as [(t & w & Hw & Hpw)|?]; [|by right]. left. exists t, w. split; [|done].
        rewrite list_lookup_insert_ne; [done|]. intros ->. by rewrite Hi in Hw.
  - intros t w Hw. apply list_lookup_insert_Some in Hw as [(-> & [= <-] & _)|[_ Hw]]; [by cbn|by apply Hjob].
  - intros t t' w w' Hw Hw' Hpp. apply list_lookup_insert_Some in Hw as [(-> & [= <-] & _)|[Hne Hw]];
      apply list_lookup_insert_Some in Hw' as [(-> & [= <-] & _)|[Hne' Hw']]; try done.
    + specialize (Hparts t' w' Hw'). cbn in Hpp. lia.
    + specialize (Hparts t w Hw). cbn in Hpp. lia.
    + by eapply Hdist.
  - by rewrite length_insert.
Qed.

(** A job that goes on, or fails, and touches only its own buffer and its own part. *)
Lemma download_move q rs a i w o a' :
  download_inv q rs a -> rs !! i = Some (Some w) ->
  m_outputStream a' = m_outputStream a -> m_flushed a' = m_flushed a -> m_currentPartIndex a' = m_currentPartIndex a ->
  crashed a' = false -> length (m_buffers a') = length (m_buffers a) -> length (m_outcomes a') = length (m_outcomes a) ->
  (forall t, t <> i -> m_buffers a' !! t = m_buffers a !! t) ->
  (forall p, p <> part_of w -> m_outcomes a' !! p = m_outcomes a !! p) ->
  (forall k b, (part_of w < k)%nat -> (forall b0, m_buffers a !! i = Some (Some b0) -> slot_ok k i rs b0) ->
    m_buffers a' !! i = Some (Some b) -> slot_ok k i (<[i := o]> rs) b) ->
  match o with
  | Some w' => thread_of w' = i /\ part_of w' = part_of w /\ job_ok a' w'
  | None => recorded a' (part_of w) /\ ~ succeeds (part_of w)
  end ->
  download_inv q (<[i := o]> rs) a'.
Proof.
  intros [(k & Hk & Htodo & Hcur & Hslots & Hparts & Hdone) Hjob Hdist Hwr Hout Hfl (Hb & Hr & Ho) Hsafe] Hi
    Eo Ef Ec Esafe Elb Elo Hbuf Hrec Hslot Hnew.
  assert (i < length rs)%nat as Hlt by by eapply lookup_lt_Some.
  assert (forall t v, <[i := o]> rs !! t = Some (Some v) -> (t = i /\ o = Some v) \/ (t <> i /\ rs !! t = Some (Some v))) as Hcase.
  { intros t v Hv. apply list_lookup_insert_Some in Hv as [(-> & -> & _)|[Hne Hv]]; [by left|by right]. }
  assert (forall t v, t <> i -> rs !! t = Some (Some v) -> part_of v <> part_of w) as Hother
    by (intros t v Hne Hv Hpv; by apply Hne, (Hdist t i v w)).
  split; rewrite ?Eo, ?Ef, ?Ec, ?Elb, ?Elo, ?length_insert; try done.
  - exists k. split_and!; try done.
    + intros t b Hbt. destruct (decide (t = i)) as [->|Hne]; [apply Hslot; [by eapply Hparts|by apply Hslots|done]|].
      rewrite Hbuf in Hbt by done. destruct (Hslots t b Hbt) as (H1 & H2 & H3). split_and!; [done..|].
      intros [?|(v & Hv & Hf)]; apply H3; [by left|right]. exists v. by rewrite list_lookup_insert_ne in Hv.
    + intros t v Hv. destruct (Hcase t v Hv) as [[-> ->]|[Hne Hv']]; [|by eapply Hparts].
      destruct Hnew as (_ & -> & _). by eapply Hparts.
    + intros p Hp. destruct (decide (p = part_of w)) as [->|Hne].
      * destruct o as [w'|]; [left|right; by split; [|right]; destruct Hnew]. exists i, w'. split; [by apply list_lookup_insert_eq|apply Hnew].
      * destruct (Hdone p Hp) as [(t & v & Hv & Hpv)|[Hrp Hcp]].
        -- left. exists t, v. split; [|done]. rewrite list_lookup_insert_ne; [done|]. intros ->. rewrite Hi in Hv. by injection Hv as ->.
        -- right. split; [|done]. unfold recorded. by rewrite Hrec.
  - intros t v Hv. destruct (Hcase t v Hv) as [[-> ->]|[Hne Hv']].
    + destruct Hnew as (? & -> & ?). split_and!; [done| |done]. by eapply Hjob.
    + destruct (Hjob t v Hv') as (Ht & Hcv & Hok). split_and!; [done..|]. pose proof (Hother t v Hne Hv') as Hp.
      destruct v as [p u|p u|p u|p u]; cbn in Ht, Hp, Hok |- *; subst u; unfold recorded in *; rewrite ?Ec, ?(Hbuf t Hne), ?(Hrec p Hp); done.
  - intros t t' v v' Hv Hv' Hpp. destruct (Hcase t v Hv) as [[-> ->]|[Hne Hv1]], (Hcase t' v' Hv') as [[-> E]|[Hne' Hv1']]; try done.
    + destruct Hnew as (_ & E & _). by destruct (Hother t' v' Hne' Hv1'); rewrite <- Hpp, E.
    + subst o. destruct Hnew as (_ & E & _). by destruct (Hother t v Hne Hv1); rewrite Hpp, E.
    + by eapply Hdist.
Qed.

(** A body received into a fresh put area, cut to the size of its part. *)
Lemma received_part b body i :
  length (dataBuffer b) = T -> putPos b = 0%nat -> putEnd b = T -> (i < N)%nat ->
  exists b', updateSize (partSize i) (put_body body b) = Some b' /\ length (dataBuffer b') = T /\ putPos b' = 0%nat /\
    ((S i < N)%nat -> putEnd b' = T) /\
    (take (Z.to_nat (partSize i)) body = part T content i -> contents b' = part T content i).
Proof.
  intros Hl Hpos Hend Hi. pose proof (partSize_bounds i Hi) as Hp. pose proof (partSize_length i Hi) as Hpl.
  unfold put_body. rewrite Hpos, Hend, Nat.sub_0_r. cbn [take app Nat.add]. rewrite take_0. cbn [app].
  set (m := Nat.min (length body) T). set (data := take m body ++ drop m (dataBuffer b)).
  assert (length data = T) as Hdata by (unfold data; rewrite length_app, length_take, length_drop; lia).
  unfold updateSize. cbn [dataBuffer]. rewrite Hdata.
  destruct (Z.leb_spec 0 (partSize i)), (Z.leb_spec (partSize i) (Z.of_nat T)); try (unfold T in *; lia). cbn [andb].
  eexists. split; [done|]. cbn [dataBuffer putPos putEnd]. split_and!; try done.
  - intros Hin. rewrite (partSize_inner i Hin). done.
  - intros Hbody. unfold contents. cbn [size dataBuffer]. rewrite <- Hbody. pose proof (f_equal length Hbody) as Hlen.
    rewrite length_take in Hlen. unfold data. rewrite take_app_le by (rewrite length_take; lia). rewrite take_take. f_equal. lia.
Qed.

(** The turn of a part: it is written, and the sleepers are woken. *)
Lemma download_write q rs a i p t b :
  download_inv q rs a -> rs !! i = Some (Some (DWrite p t)) -> m_currentPartIndex a = p ->
  m_buffers a !! t = Some (Some b) ->
  download_inv q (map (fmap wake_download) (<[i := None]> rs))
    (mk_appender (m_outputStream a ++ contents b) (if (p =? N - 1)%nat then true else m_flushed a)
       (S p) (m_buffers a) (m_outcomes a) (crashed a)).
Proof.
  intros [(k & Hk & Htodo & Hcur & Hslots & Hparts & Hdone) Hjob Hdist Hwr Hout Hfl (Hb & Hr & Ho) Hsafe] Hi Hp Hbuf.
  pose proof (Hparts i _ Hi) as Hpk. cbn in Hpk. destruct (Hjob i _ Hi) as (Et & _ & Hok & Hrec & b' & Hb' & Hcont). cbn in Et. subst t.
  rewrite Hbuf in Hb'. injection Hb' as <-.
  assert (forall t v, map (fmap wake_download) (<[i := None]> rs) !! t = Some (Some v) ->
    t <> i /\ exists u, rs !! t = Some (Some u) /\ v = wake_download u) as Hcase.
  { intros t v Hv. rewrite list_lookup_fmap in Hv. destruct (decide (t = i)) as [->|Hne].
    - by rewrite list_lookup_insert_eq in Hv by (by eapply lookup_lt_Some).
    - rewrite list_lookup_insert_ne in Hv by done. destruct (rs !! t) as [[u|]|]; try done. injection Hv as <-. split; [done|]. by exists u. }
  assert (forall t u, t <> i -> rs !! t = Some (Some u) -> map (fmap wake_download) (<[i := None]> rs) !! t = Some (Some (wake_download u))) as Hback
    by (intros t u Hne Hu; by rewrite list_lookup_fmap, list_lookup_insert_ne, Hu by done).
  assert (forall t u, t <> i -> rs !! t = Some (Some u) -> part_of u <> p) as Hother
    by (intros t u Hne Hu Hpu; by apply Hne, (Hdist t i u _ Hu Hi)).
  assert (forall u, part_of (wake_download u) = part_of u /\ thread_of (wake_download u) = thread_of u) as Hwake by (by intros []).
  split; cbn [m_outputStream m_flushed m_currentPartIndex m_buffers m_outcomes crashed]; rewrite ?length_map, ?length_insert; try done.
  - exists k. split_and!; try done; try lia.
    + intros t bt Hbt. destruct (Hslots t bt Hbt) as (H1 & H2 & H3). split_and!; [done..|].
      intros [?|(v & Hv & Hf)]; apply H3; [by left|right]. destruct (Hcase t v Hv) as (_ & u & Hu & ->). exists u. by destruct u.
    + intros t v Hv. destruct (Hcase t v Hv) as (_ & u & Hu & ->). rewrite (proj1 (Hwake u)). by eapply Hparts.
    + intros r Hrk. destruct (decide (r = p)) as [->|Hne]; [right; split; [done|left; lia]|].
      destruct (Hdone r Hrk) as [(t & u & Hu & Hru)|[? [?|?]]]; [left|right; split; [done|left; lia]|right; by split; [|right]].
      exists t, (wake_download u). rewrite (proj1 (Hwake u)). split; [|done]. apply Hback; [|done]. intros ->. rewrite Hi in Hu. by injection Hu as <-.
  - intros t v Hv. destruct (Hcase t v Hv) as (Hne & u & Hu & ->). destruct (Hjob t u Hu) as (Ht & Hc & Hju).
    destruct (Hwake u) as [-> ->]. pose proof (Hother t u Hne Hu). split_and!; [done|lia|].
    destruct u as [r t'|r t'|r t'|r t']; cbn in *; try done. apply Hju.
  - intros t t' v v' Hv Hv' Hpp. destruct (Hcase t v Hv) as (_ & u & Hu & ->), (Hcase t' v' Hv') as (_ & u' & Hu' & ->).
    eapply Hdist; [done..|]. by rewrite !(proj1 (Hwake _)) in Hpp.
  - intros r Hrp. destruct (decide (r = p)) as [->|Hne]; [done|]. apply Hwr. lia.
  - rewrite Hout, Hcont, Hp, seq_S, map_app, concat_app. cbn. by rewrite app_nil_r.
  - intros HN. destruct (Nat.eqb_spec p (N - 1)); [done|lia].
Qed.

Definition download_cost (w : download_job) : nat :=
  match w with DStart _ _ => 4 | DGet _ _ => 3 | DWrite _ _ => 2 | DWait _ _ => 1 end.
(** What the parts still to be written may wake. *)
Definition download_weight (a : appender) : nat := (N - m_currentPartIndex a) * n.

Lemma download_step_inv q rs a i w w' a' b :
  download_inv q rs a -> rs !! i = Some (Some w) -> step w a = Some (w', a', b) ->
  download_inv q (wake_all wake_download b (<[i := w']> rs)) a' /\
  (match w' with Some w' => S (download_cost w') | None => 0 end + download_weight a' + (if b then n else 0) <=
   download_cost w + download_weight a)%nat.
Proof.
  intros Hinv Hi Hstep. pose proof Hinv as [(k & Hk & Htodo & Hcur & Hslots & Hparts & Hdone) Hjob Hdist Hwr Hout Hfl (Hb & Hr & Ho) Hsafe].
  pose proof (Hjob i w Hi) as (Et & Hge & Hok). pose proof (Hparts i w Hi) as Hpk.
  assert (i < length (m_buffers a))%nat as Hlt by (rewrite Hb, <- Hr; by eapply lookup_lt_Some).
  assert (i < length rs)%nat as Hltr by lia.
  destruct w as [p t|p t|p t|p t]; cbn in Et; subst t; cbn [download_step part_of] in *; [| | |done].
  - injection Hstep as <- <- <-. cbn [wake_all]. unfold GetBuffer.
    destruct (lookup_lt_is_Some_2 _ _ Hlt) as [[bt|] Hbuf]; rewrite Hbuf.
    + split; [|unfold download_weight; cbn; lia]. eapply download_move; try done; [|by cbn; eauto].
      intros k' b' _ _ Hb'. rewrite Hbuf in Hb'. injection Hb' as ->. destruct (Hslots i b' Hbuf) as (H1 & H2 & H3).
      split_and!; [done..|]. intros _. apply H3. right. by eexists.
    + split; [|unfold download_weight, set_buffer; cbn; lia]. fold T.
      eapply download_move; try done; unfold set_buffer; cbn [m_buffers]; try by rewrite ?length_insert.
      * intros t Hne. by rewrite list_lookup_insert_ne.
      * intros k' b' _ _ Hb'. rewrite list_lookup_insert_eq in Hb' by done. injection Hb' as <-. split_and!; try done. apply length_replicate.
      * split_and!; [done..|]. cbn. rewrite list_lookup_insert_eq by done. by eexists.
  - destruct Hok as [bt Hbuf]. destruct (Hslots i bt Hbuf) as (H1 & H2 & H3).
    destruct (received_part bt (snd (answer p)) p H1 H2) as (b' & Eu & Hl' & Hp' & He' & Hc'); [apply H3; right; by eexists|lia|].
    assert (forall i1, (p < i1)%nat -> slot_ok i1 i (<[i := w']> rs) b') as Hslot'.
    { intros k' Hk'. split_and!; [done..|]. intros [?|(v & Hv & Hf)]; [apply He'; lia|]. rewrite list_lookup_insert_eq in Hv by done.
      injection Hv as ->. by destruct (answer p), (m_buffers a !! i) as [[]|]; repeat case_match; simplify_eq. }
    destruct (answer p) as [outcome body] eqn:Ea. rewrite Hbuf in Hstep. cbn [snd] in Eu, Hc'. fold file_size in Hstep. rewrite Eu in Hstep.
    assert (m_outcomes (set_outcome p outcome (set_buffer i b' a)) !! p = Some (Some outcome)) as Hrec
      by (unfold set_outcome, set_buffer; cbn [m_outcomes]; apply list_lookup_insert_eq; lia).
    assert (fst (answer p) = outcome) as Efst by by rewrite Ea.
    injection Hstep as <- <- <-. cbn [wake_all]. split; [|unfold download_weight; case_bool_decide; cbn; lia].
    eapply download_move; try done; unfold set_outcome, set_buffer; cbn [m_buffers m_outcomes]; try by rewrite ?length_insert.
    + intros t Hne. by rewrite list_lookup_insert_ne.
    + intros r Hne. by rewrite list_lookup_insert_ne.
    + intros k' b1 Hk' _ Hb1. rewrite list_lookup_insert_eq in Hb1 by done. injection Hb1 as <-. by apply Hslot'.
    + unfold recorded. cbn [part_of]. rewrite Efst. case_bool_decide as Hs; [|split; [exact Hrec|unfold succeeds; by rewrite Efst]].
      split_and!; [done..|]. cbn. assert (succeeds p) as Hsp by (unfold succeeds; by rewrite Efst).
      split; [done|]. split; [by unfold recorded; cbn; rewrite Efst|]. exists b'. rewrite list_lookup_insert_eq by done. split; [done|].
      apply Hc'. pose proof (answer_part p ltac:(lia) Hsp) as Hpart. by rewrite Ea in Hpart.
  - destruct Hok as (Hs & Hrec & bt & Hbuf & Hcont). unfold WritePartToOutputStream in Hstep. rewrite Hbuf in Hstep.
    destruct (Nat.ltb_spec (m_currentPartIndex a) p) as [Hwait|Hturn]; injection Hstep as <- <- <-.
    + split; [|unfold download_weight; cbn; lia]. cbn [wake_all]. eapply download_move; try done.
      * intros k' b' _ Hold Hb'. destruct (Hold b' Hb') as (H1 & H2 & H3). split_and!; [done..|].
        intros [?|(v & Hv & Hf)]; [by apply H3; left|rewrite list_lookup_insert_eq in Hv by done; by injection Hv as <-].
      * split_and!; try done. cbn. split_and!; try done. by exists bt.
    + assert (m_currentPartIndex a = p) as Hcp by lia. split; [|unfold download_weight; cbn; rewrite Hcp; nia].
      cbn [wake_all]. rewrite Hcp. by eapply download_write.
Qed.

#[export] Instance download_jobs :
  Jobs n DStart step wake_download download_inv download_cost download_weight 4.
Proof.
  split.
  - intros. by apply download_begin.
  - intros. by eapply download_step_inv.
  - done.
  - intros []; cbn; lia.
  - intros. by eapply download_step_inv.
Qed.

Lemma download_inv_init : download_inv (seq 0 N) (replicate n None) (StreamAppender threshold file_size n).
Proof.
  assert (forall t w, @replicate (option download_job) n None !! t = Some (Some w) -> False) as Hnone
    by (intros t w Hw; by apply lookup_replicate in Hw as [? _]).
  assert (N <> 0%nat) as HN by (unfold N, partNum; lia).
  split; cbn; try done; try (by intros; lia); try (by intros; exfalso; eauto).
  - exists 0%nat. rewrite Nat.sub_0_r. split_and!; [lia|done|lia|..|intros; lia].
    + intros t b Hb. by apply lookup_replicate in Hb as [? _].
    + intros t w Hw. by destruct (Hnone t w).
  - by rewrite !length_replicate.
Qed.

Definition awake_job (o : option download_job) : bool := match o with Some (DWait _ _) | None => false | _ => true end.

(** If the parts that fail come last, a job can always go on. *)
Lemma download_unblocked :
  (forall i j, (i < j < N)%nat -> succeeds j -> succeeds i) -> never_blocked step download_inv.
Proof.
  intros Hlast q rs a i w [(k & Hk & Htodo & Hcur & Hslots & Hparts & Hdone) Hjob Hdist Hwr Hout Hfl Hlen Hsafe] Hi.
  destruct (decide (Exists (fun o => awake_job o = true) rs)) as [Hex|Hall].
  { apply Exists_exists in Hex as ([v|] & Hv & Hnw); [|done]. apply list_elem_of_lookup_1 in Hv as [t Ht]. exists t, v. split; [done|].
    destruct v; cbn; try done; [by repeat case_match|]. by destruct (WritePartToOutputStream _ _ _ _ _). }
  exfalso. assert (forall t v, rs !! t = Some (Some v) -> exists p u, v = DWait p u) as Hwait.
  { intros t v Ht. destruct v as [p u|p u|p u|p u]; [..|by exists p, u]; destruct Hall; apply Exists_exists; eexists; (split; [by eapply list_elem_of_lookup_2|done]). }
  destruct (Hwait i w Hi) as (p & u & ->). destruct (Hjob i _ Hi) as (_ & _ & Hlt & Hs & _). pose proof (Hparts i _ Hi) as Hpk. cbn in Hpk.
  destruct (Hdone (m_currentPartIndex a) ltac:(lia)) as [(t & v & Hv & Hpv)|[_ [Hc|Hns]]]; [|lia|].
  - destruct (Hwait t v Hv) as (p' & u' & ->). destruct (Hjob t _ Hv) as (_ & _ & Hlt' & _). cbn in Hpv. lia.
  - apply Hns, (Hlast _ p); [lia|done].
Qed.

(** When all jobs are done: what each part answered is recorded, and all that succeeded are
    in the output. *)
Lemma download_inv_over rs a :
  download_inv [] rs a -> (forall t w, rs !! t = Some w -> w = None) ->
  m_outcomes a = map (fun i => Some (fst (answer i))) (seq 0 N) /\ (forall i, (i < N)%nat -> (i < m_currentPartIndex a)%nat <-> succeeds i).
Proof.
  intros [(k & Hk & Htodo & Hcur & Hslots & Hparts & Hdone) Hjob Hdist Hwr Hout Hfl (Hb & Hr & Ho) Hsafe] Hidle.
  assert (k = N) as -> by (destruct (N - k)%nat eqn:E; [lia|done]).
  assert (forall i, (i < N)%nat -> recorded a i /\ ((i < m_currentPartIndex a)%nat \/ ~ succeeds i)) as Hall.
  { intros i Hi. destruct (Hdone i Hi) as [(t & w & Hw & _)|?]; [|done]. by specialize (Hidle t _ Hw). }
  split.
  - apply list_eq_same_length with (n := N); [by rewrite length_map, length_seq|done|]. intros p x y Hp Hx Hy.
    destruct (Hall p Hp) as [Hrec _]. unfold recorded in Hrec. rewrite Hrec in Hx. injection Hx as <-.
    apply list_lookup_fmap_Some in Hy as (i & -> & Hi). by apply lookup_seq in Hi as [-> _].
  - intros i Hi. split; [apply Hwr|]. intros Hs. by destruct (Hall i Hi) as [_ [?|?]].
Qed.

(** Then, if every part succeeded, the whole file was written. *)
Lemma download_whole rs a :
  download_inv [] rs a -> (forall t w, rs !! t = Some w -> w = None) -> (forall i, (i < N)%nat -> succeeds i) ->
  crashed a = false /\ m_outputStream a = content /\ m_flushed a = true /\ download_outcome a = Some SUCCESS.
Proof.
  intros Hinv Hidle Hall. destruct (download_inv_over rs a Hinv Hidle) as [Hout Hcur].
  assert (m_currentPartIndex a = N) as EN.
  { assert (N <> 0)%nat by (unfold N, partNum; lia). destruct (d_todo _ _ _ Hinv) as (k & Hk & _ & Hck & _).
    assert (N - 1 < m_currentPartIndex a)%nat by (apply Hcur; [lia|apply Hall; lia]). lia. }
  split_and!; [apply Hinv| |by apply Hinv|].
  - rewrite (d_output _ _ _ Hinv), EN. apply parts_whole. destruct partNum_bounds as [_ Hb].
    apply Nat2Z.inj_le. unfold T. rewrite Nat2Z.inj_mul, Z2Nat.id by lia. unfold file_size in *. lia.
  - unfold download_outcome. rewrite Hout. assert (Forall succeeds (seq 0 N)) as H.
    { apply Forall_forall. intros i Hi. apply elem_of_seq in Hi. apply Hall. lia. }
    clear -H. induction H as [|i l Hi _ IH]; [done|]. cbn [map foldr]. rewrite IH. by rewrite Hi.
Qed.
End DownloadFacts.


(** ** Runs of five bytes in parts of two, over two threads *)

Definition sample : bytes := of_string "abcde".
Definition sample_upload (p : nat) (b : bytes) : RemoteStorageRequestOutcome := SUCCESS.
Definition sample_object (first last : Z) : RemoteStorageRequestOutcome * bytes :=
  (SUCCESS, take (Z.to_nat (last - first + 1)) (drop (Z.to_nat first) sample)).
(** The two threads and the main thread in turns; then the last steps. *)
Definition rounds (k : nat) : list event := concat (replicate k [Main 0; Thread 1; Thread 0]).
Definition upload_schedule : list event := rounds 4 ++ [Thread 1; Thread 1; Thread 0; Thread 1; Main 0].
Definition download_schedule : list event :=
  rounds 4 ++ [Thread 1; Thread 1; Thread 0; Thread 1; Thread 1; Thread 0; Thread 1; Main 0].

Lemma parts_uploaded_witness :
  exists s, upload_run 2 sample_upload upload_schedule (doMultiPartUpload 2 2 sample 5) = Some s /\
    sent (shared s) = [Some (of_string "ab", SUCCESS); Some (of_string "cd", SUCCESS); Some (of_string "e", SUCCESS)] /\
    upload_failure (shared s) = None.
Proof.
  destruct (parts_uploaded 2 sample_upload 2 sample ltac:(lia) ltac:(lia)) as [_ [bound H]].
  eexists. split; [vm_compute; reflexivity|]. destruct (H upload_schedule _ ltac:(vm_compute; reflexivity)) as (_ & Hend & _).
  rewrite (Hend eq_refl). split; reflexivity.
Defined.


(** The first part fails and the others wait for it: no thread can move again. *)
Example failed_part_hangs :
  let s3 first last := if first =? 0 then (FAILED, []) else sample_object first last in
  exists s, download_run 2 5 s3 (take 16 download_schedule) (doMultiPartDownload 2 5 2) = Some s /\
    workers s = [Running (DWait 1 0); Running (DWait 2 1)] /\ waiting s = true /\
    forall e s', download_event 2 5 s3 e s = Some s' -> e = SpuriousMain.
Proof.
  eexists. split; [vm_compute; reflexivity|]. split_and!; try reflexivity.
  intros [pick|[|[|i]]|[|[|i]]|] s'; try done; vm_compute; congruence.
Qed.

(** The parts as the code has them: the last range of a file of two thresholds ends before it
    begins, and beyond 4 GiB the unsigned product wraps. *)
Example multiple_of_threshold :
  let size := 2 * 5242880 in
  partNum 5242880 size = 3%nat /\ (range_first 5242880 2, range_last 5242880 size 2, partSize 5242880 size 2) = (10485760, 10485759, 0).
Proof. split; vm_compute; reflexivity. Qed.
Example range_wraps :
  let size := 900 * 5242880 + 1 in
  (range_first 5242880 820, range_last 5242880 size 820) = (4194304, 9437183) /\ 820 * 5242880 = 4299161600.
Proof. split; vm_compute; reflexivity. Qed.
(** A pool made for no thread, where [hardware_concurrency] is not known and gives 0. *)
Example no_threads :
  exists s, download_run 2 5 sample_object (replicate 4 (Main 0)) (doMultiPartDownload 2 5 0) = Some s /\ waiting s = true /\
    forall e s', download_event 2 5 sample_object e s = Some s' -> e = SpuriousMain.
Proof. eexists. split; [vm_compute; reflexivity|]. split; [reflexivity|]. by intros [pick|i|i|] s'. Qed.
