(* ===== verification/Cpp.v ===== *)
(** * What the C++ files use of the language and its library: exceptions and strings.

    A C++ function returns, throws, or does what the standard leaves undefined; a [throw]
    with nothing to throw again ends the process, and counts as the last.  A [std::string]
    is a list of bytes, [npos] is [None], and [npos + 1] is 0. *)

From S2P Require Import Prelude CLib Base64.

Inductive TransferError :=
| INTERNAL_ERROR | COMPRESSION_ERROR | MKDIR_ERROR | UNSUPPORTED_FEATURE | COLUMN_INDEX_OUT_OF_RANGE
| DIR_OPEN_ERROR | COMPRESSION_NOT_SUPPORTED.
Inductive exn :=
| SnowflakeTransferException (error : TransferError)
| JwtException (message : string)
| Base64DecodeException
| out_of_range.

Inductive cpp (A : Type) : Type :=
| Returns (a : A)
| Throws (e : exn)
| Dies
| Unfinished.
Arguments Returns {A} a.
Arguments Throws {A} e.
Arguments Dies {A}.
Arguments Unfinished {A}.

#[export] Instance cpp_ret : MRet cpp := @Returns.
#[export] Instance cpp_bind : MBind cpp := fun A B f c =>
  match c with
  | Returns a => f a
  | Throws e => Throws e
  | Dies => Dies
  | Unfinished => Unfinished
  end.

(** Code that throws nothing. *)
Definition lift {A} (o : outcome A) : cpp A :=
  match o with Done a => Returns a | Undef => Dies | NoFuel => Unfinished end.
Definition or_throw {A} (e : exn) (o : option A) : cpp A := match o with Some a => Returns a | None => Throws e end.
(** A decoder of Base64, which throws. *)
Definition decoded (o : outcome (option bytes)) : cpp bytes := r ← lift o; or_throw Base64DecodeException r.

(** ** std::string *)

Fixpoint find_first_of (c : ascii) (s : bytes) : option nat :=
  match s with
  | [] => None
  | d :: s => if Ascii.eqb c d then Some O else S <$> find_first_of c s
  end.
Fixpoint find_last_of (c : ascii) (s : bytes) : option nat :=
  match s with
  | [] => None
  | d :: s => match find_last_of c s with Some i => Some (S i) | None => if Ascii.eqb c d then Some O else None end
  end.
Definition after (pos : option nat) : nat := match pos with Some i => S i | None => O end.
(** [substr(pos, count)]; a count of [npos] is the rest. *)
Definition substr (pos : nat) (count : option nat) (s : bytes) : cpp bytes :=
  if (pos <=? length s)%nat then Returns (match count with Some n => take n (drop pos s) | None => drop pos s end)
  else Throws out_of_range.

Lemma find_first_app c s t : Forall (fun d => d <> c) s -> find_first_of c (s ++ c :: t) = Some (length s).
Proof.
  induction 1 as [|d s Hd _ IH]; cbn [app find_first_of]; [by rewrite Ascii.eqb_refl|].
  destruct (Ascii.eqb_spec c d) as [->|]; [done|]. by rewrite IH.
Qed.
Lemma find_first_Some c s i : find_first_of c s = Some i -> s = take i s ++ c :: drop (S i) s /\ Forall (fun d => d <> c) (take i s).
Proof.
  revert i. induction s as [|d s IH]; intros i; [done|]. cbn [find_first_of]. destruct (Ascii.eqb_spec c d) as [->|Hne].
  - by intros [= <-].
  - destruct (find_first_of c s) as [j|] eqn:E; [|done]. intros [= <-]. destruct (IH j eq_refl) as [Es Ha].
    cbn [take drop app]. rewrite <- Es. split; [done|]. constructor; [congruence|done].
Qed.
Lemma find_first_None c s : find_first_of c s = None <-> Forall (fun d => d <> c) s.
Proof.
  induction s as [|d s IH]; cbn [find_first_of]; [done|]. destruct (Ascii.eqb_spec c d) as [->|Hne].
  - split; [done|]. intros H%Forall_inv. by destruct H.
  - rewrite Forall_cons, <- IH. destruct (find_first_of c s); cbn; naive_solver.
Qed.
Lemma find_last_app c s t : Forall (fun d => d <> c) t -> find_last_of c (s ++ c :: t) = Some (length s).
Proof.
  intros Ht. assert (find_last_of c t = None) as E.
  { induction Ht as [|d t Hd _ IH]; [done|]. cbn [find_last_of]. rewrite IH. by destruct (Ascii.eqb_spec c d) as [->|]. }
  induction s as [|d s IH]; cbn [app find_last_of]; [by rewrite E, Ascii.eqb_refl|]. by rewrite IH.
Qed.
Lemma find_last_None c s : Forall (fun d => d <> c) s -> find_last_of c s = None.
Proof. induction 1 as [|d s Hd _ IH]; [done|]. cbn [find_last_of]. rewrite IH. by destruct (Ascii.eqb_spec c d) as [->|]. Qed.
Lemma substr_prefix n s : substr 0 (Some n) s = Returns (take n s).
Proof. unfold substr. by rewrite drop_0. Qed.
Lemma substr_rest pos s : (pos <= length s)%nat -> substr pos None s = Returns (drop pos s).
Proof. intros H. unfold substr. by destruct (Nat.leb_spec pos (length s)); [|lia]. Qed.
