(* ===== verification/Jwt.v ===== *)
(** * cpp/jwt: tokens: a header and a set of claims as JSON, in base64, signed.

    The JSON is the tree of CJson with memory served ([bad_alloc] otherwise).  OpenSSL's
    signing is a parameter: [rsa_sign] gives the bytes of a signature or fails, and
    [rsa_verify] fails to start or gives the test of a signature. *)

From S2P Require Import Prelude CLib CFloat CJson CJsonPrint CJsonParse JsonHelpers Base64 Cpp.

Inductive AlgorithmType := HS256 | HS384 | HS512 | RS256 | RS384 | RS512 | ES256 | ES384 | ES512 | UNKNOWN.
#[export] Instance AlgorithmType_eq_dec : EqDecision AlgorithmType.
Proof. solve_decision. Defined.

Definition toString (type : AlgorithmType) : string :=
  match type with
  | HS256 => "HS256" | HS384 => "HS384" | HS512 => "HS512"
  | RS256 => "RS256" | RS384 => "RS384" | RS512 => "RS512"
  | ES256 => "ES256" | ES384 => "ES384" | ES512 => "ES512"
  | UNKNOWN => "UNKNOWN"
  end.
Definition reverse_map_ : list (string * AlgorithmType) :=
  map (fun t => (toString t, t)) [HS256; HS384; HS512; RS256; RS384; RS512; ES256; ES384; ES512; UNKNOWN].
Definition toAlgorithmType (type : string) : AlgorithmType :=
  match List.find (fun e => String.eqb (fst e) type) reverse_map_ with Some (_, t) => t | None => UNKNOWN end.

(** ** Util.cpp *)

(** The text with its final NUL. *)
Definition serialize (root : cJSON) : cpp bytes :=
  r ← lift (snowflake_cJSON_Print libc_hooks root);
  s ← or_throw (JwtException "Error serializing JSon object") r;
  Returns (of_string s ++ [chr 0]).
(** cJSON reads [text.data()] up to a NUL: beyond the vector if it holds none. *)
Definition parse (text : bytes) : cpp cJSON :=
  s ← lift (deref (c_string text));
  r ← lift (snowflake_cJSON_Parse all_hooks (Some s));
  or_throw (JwtException "Error parsing JSon object") r.
(** A member that was not there is added, and then replaced by itself. *)
Definition addOrReplaceJSON (root : cJSON) (name : string) (item : cJSON) : cpp cJSON :=
  let contains := snowflake_cJSON_HasObjectItem (Some root) name in
  let root := if contains then Some root else snowflake_cJSON_AddItemToObject all_hooks (Some root) (Some name) (Some item) in
  '(_, root) ← lift (replace_item_in_object all_hooks root (Some name) (Some item) false);
  lift (deref root).

Definition CreateString (s : string) : cpp cJSON := lift (deref (snowflake_cJSON_CreateString all_hooks (Some s))).

(** ** Header.cpp *)

Definition CJSONHeader : cpp cJSON :=
  root ← lift (deref (snowflake_cJSON_CreateObject all_hooks));
  item ← CreateString "JWT";
  addOrReplaceJSON root "typ" item.
Definition parseHeader (text : bytes) : cpp cJSON := v ← decoded (decodeURLNoPadding text); parse v.
Definition setAlgorithm (type : AlgorithmType) (root : cJSON) : cpp cJSON :=
  item ← CreateString (toString type); addOrReplaceJSON root "alg" item.
Definition getAlgorithmType (root : cJSON) : cpp AlgorithmType :=
  match snowflake_cJSON_GetObjectItem (Some root) "alg" with
  | Some item => if CJson.type item =? cJSON_String then s ← lift (deref (valuestring item)); Returns (toAlgorithmType s) else Returns UNKNOWN
  | None => Returns UNKNOWN
  end.
Definition serialize_root (root : cJSON) : cpp bytes := v ← serialize root; lift (encodeURLNoPadding v).

(** ** ClaimSet.hpp *)

Definition CJSONClaimSet : cpp cJSON := lift (deref (snowflake_cJSON_CreateObject all_hooks)).
Definition parseClaimset (text : bytes) : cpp cJSON := v ← decoded (decodeURLNoPadding text); parse v.
Definition containsClaim (root : cJSON) (name : string) : bool := snowflake_cJSON_HasObjectItem (Some root) name.
Definition addClaim (name value : string) (root : cJSON) : cpp cJSON :=
  item ← CreateString value; addOrReplaceJSON root name item.
(** The [long] becomes a double. *)
Definition addClaim_long (name : string) (number : Z) (root : cJSON) : cpp cJSON :=
  item ← lift (deref (snowflake_cJSON_CreateNumber all_hooks (double_of_Z number))); addOrReplaceJSON root name item.
Definition getClaimInString (root : cJSON) (name : string) : cpp string :=
  value ← lift (snowflake_cJSON_GetObjectItemCaseSensitive (Some root) (Some name));
  match value with
  | Some v => if CJson.type v =? cJSON_String then lift (deref (valuestring v)) else Returns ""
  | None => Returns ""
  end.
Definition getClaimInLong (root : cJSON) (name : string) : cpp Z :=
  value ← lift (snowflake_cJSON_GetObjectItemCaseSensitive (Some root) (Some name));
  match value with
  | Some v =>
      if CJson.type v =? cJSON_Number then
        n ← lift (deref (double_trunc (valuedouble v)));
        if (LLONG_MIN <=? n) && (n <=? LLONG_MAX) then Returns n else Dies
      else Returns 0
  | None => Returns 0
  end.
Definition removeClaim (name : string) (root : cJSON) : cpp cJSON :=
  lift (deref (snowflake_cJSON_DeleteItemFromObject (Some root) name)).

(** ** Signer.cpp and Jwt.cpp *)

Section Token.
  Context {EVP_PKEY : Type}.
  Context (rsa_sign : AlgorithmType -> EVP_PKEY -> bytes -> option bytes).
  Context (rsa_verify : AlgorithmType -> EVP_PKEY -> bytes -> option (bytes -> bool)).

(** Only RSA has a signer. *)
Definition buildSigner (type : AlgorithmType) : cpp AlgorithmType :=
  match type with
  | RS256 | RS384 | RS512 => Returns type
  | _ => Throws (JwtException "Algorithm type not implemented")
  end.
Definition sign (signer : AlgorithmType) (key : EVP_PKEY) (msg : bytes) : cpp bytes :=
  match rsa_sign signer key msg with None => Returns [] | Some buf => lift (encodeURLNoPadding buf) end.
Definition verify_signature (signer : AlgorithmType) (key : EVP_PKEY) (msg sig : bytes) : cpp bool :=
  match rsa_verify signer key msg with
  | None => Returns false
  | Some test => sig_decode ← decoded (decodeURLNoPadding sig); Returns (test sig_decode)
  end.

Record JWTObject := mk_jwt { header_ : cJSON; claim_set_ : cJSON; secret_ : bytes }.

Definition dot : ascii := "."%char.
Definition buildIJwt_new : cpp JWTObject := h ← CJSONHeader; c ← CJSONClaimSet; Returns (mk_jwt h c []).
Definition buildIJwt (input : bytes) : cpp JWTObject :=
  if (length input =? 0)%nat then Throws (JwtException "Empty input string")
  else
    pos ← or_throw (JwtException "Fail to extract header") (find_first_of dot input);
    text ← substr 0 (Some pos) input;
    header ← parseHeader text;
    remain ← substr (pos + 1) None input;
    pos ← or_throw (JwtException "Fail to extract token") (find_first_of dot remain);
    text ← substr 0 (Some pos) remain;
    claim_set ← parseClaimset text;
    secret ← substr (pos + 1) None remain;
    Returns (mk_jwt header claim_set secret).

Definition message (t : JWTObject) : cpp bytes :=
  h ← serialize_root (header_ t); c ← serialize_root (claim_set_ t); Returns (h ++ dot :: c).
Definition verify (key : EVP_PKEY) (t : JWTObject) : cpp bool :=
  type ← getAlgorithmType (header_ t);
  signer ← buildSigner type;
  msg ← message t;
  verify_signature signer key msg (secret_ t).
Definition serialize_token (key : EVP_PKEY) (t : JWTObject) : cpp (bytes * JWTObject) :=
  type ← getAlgorithmType (header_ t);
  signer ← buildSigner type;
  msg ← message t;
  sig ← sign signer key msg;
  Returns (msg ++ dot :: sig, mk_jwt (header_ t) (claim_set_ t) sig).
End Token.

(** ** The text of a parsed tree *)

Lemma land_again t : Z.land (Z.land t 255) 255 = Z.land t 255.
Proof. by rewrite <- Z.land_assoc. Qed.

(** Parsing leaves what is printed as it was. *)
Lemma render_norm fmt j : forall n d k, json_tree n j = true -> render fmt d (norm k j) = render fmt d j.
Proof.
  induction j as [ty vs vi vd k0 ch IH] using cJSON_ind'. intros n d k Hj.
  assert (forall c m, c ∈ ch -> json_tree m c = true -> forall d k, render fmt d (norm k c) = render fmt d c) as Hch.
  { intros c m Hc Hm d' k'. rewrite Forall_forall in IH. by eapply IH. }
  clear IH. cbn [render norm CJson.type valuestring valuedouble child key]. cbv zeta. rewrite land_again.
  set (t := Z.land ty 255) in *.
  destruct (Z.eqb_spec t cJSON_NULL); [done|]. destruct (Z.eqb_spec t cJSON_False); [done|].
  destruct (Z.eqb_spec t cJSON_True); [done|].
  destruct (Z.eqb_spec t cJSON_Number) as [E|]; [done|].
  destruct (Z.eqb_spec t cJSON_Raw) as [E|].
  { cbn [json_tree CJson.type] in Hj. fold t in Hj. rewrite E in Hj. apply andb_prop in Hj as [_ Hj]. done. }
  destruct (Z.eqb_spec t cJSON_String) as [E|]; [by destruct vs|].
  assert (forall c, (t = cJSON_Array \/ t = cJSON_Object) -> c ∈ ch -> exists m, json_tree m c = true) as Hkids.
  { intros c Ht Hc. cbn [json_tree CJson.type child valuestring key valuedouble] in Hj. fold t in Hj. apply andb_prop in Hj as [_ Hj].
    assert (exists m, n = S m /\ forallb (json_tree m) ch = true) as (m & -> & Hall).
    { destruct Ht as [E|E]; rewrite E in Hj; cbn in Hj; destruct n as [|m]; try done; by exists m. }
    exists m. rewrite forallb_forall in Hall. by apply Hall, list_elem_of_In. }
  destruct (Z.eqb_spec t cJSON_Array) as [E|].
  - assert (render_elements fmt (render fmt (d + 1)) (map (norm None) ch) = render_elements fmt (render fmt (d + 1)) ch) as ->; [|done].
    assert (forall c, c ∈ ch -> render fmt (d + 1) (norm None c) = render fmt (d + 1) c) as H.
    { intros c Hc. destruct (Hkids c (or_introl E) Hc) as [m Hm]. by eapply Hch. }
    clear - H. induction ch as [|c ch IH]; [done|]. cbn [map render_elements]. rewrite H, IH by set_solver. by destruct ch.
  - destruct (Z.eqb_spec t cJSON_Object) as [E|]; [|done].
    assert (forall c, c ∈ ch -> render fmt (d + 1) (norm (Some (default "" (key c))) c) = render fmt (d + 1) c) as H.
    { intros c Hc. destruct (Hkids c (or_intror E) Hc) as [m Hm]. by eapply Hch. }
    assert (render_members fmt (render fmt (d + 1)) (d + 1) (map (fun c => norm (Some (default "" (key c))) c) ch) =
      render_members fmt (render fmt (d + 1)) (d + 1) ch) as ->; [|done].
    clear - H. induction ch as [|c ch IH]; [done|]. cbn [map render_members]. rewrite H, IH by set_solver.
    assert (quoted (key (norm (Some (default "" (key c))) c)) = quoted (key c)) as -> by (destruct c as [? ? ? ? []]; done).
    by destruct ch.
Qed.

Lemma norm_c_tree j : forall n k, json_tree n j = true -> (match k with Some s => no_nul s | None => true end) = true ->
  c_tree (norm k j) = true.
Proof.
  induction j as [ty vs vi vd k0 ch IH] using cJSON_ind'. intros n k Hj Hk.
  cbn [json_tree CJson.type child valuestring key valuedouble] in Hj. cbn [norm c_tree CJson.type valuestring key child]. cbv zeta in *.
  rewrite land_again. set (t := Z.land ty 255) in *. apply andb_prop in Hj as [[Hvs Hk0]%andb_prop Hj].
  rewrite Hk, andb_true_r. apply andb_true_intro. split.
  - destruct (Z.eqb_spec t cJSON_String); [by destruct vs|]. destruct (Z.eqb_spec t cJSON_Raw) as [E|]; [|done].
    by rewrite E in Hj.
  - assert (forall c, (t = cJSON_Array \/ t = cJSON_Object) -> c ∈ ch -> exists m, json_tree m c = true) as Hkids.
    { intros c Ht Hc. assert (exists m, n = S m /\ forallb (json_tree m) ch = true) as (m & -> & Hall).
      { destruct Ht as [E|E]; rewrite E in Hj; cbn in Hj; destruct n as [|m]; try done; by exists m. }
      exists m. rewrite forallb_forall in Hall. by apply Hall, list_elem_of_In. }
    rewrite Forall_forall in IH. apply forallb_forall.
    destruct (Z.eqb_spec t cJSON_Array) as [E|]; [|destruct (Z.eqb_spec t cJSON_Object) as [E|]; [|done]];
      intros x Hx%list_elem_of_In; apply list_elem_of_fmap in Hx as (c & -> & Hc).
    + destruct (Hkids c (or_introl E) Hc) as [m Hm]. by apply (IH c Hc m).
    + destruct (Hkids c (or_intror E) Hc) as [m Hm]. apply (IH c Hc m); [done|].
      destruct c as [? ? ? ? [k1|] ?]; [|done]. cbn [json_tree key] in *. cbv zeta in Hm. apply andb_prop in Hm as [[_ Hm]%andb_prop _]. done.
Qed.

(** ** Base64 has no dot *)

Lemma url_no_dot src text :
  base64 BASE64_URL_INDEX src = text ++ replicate (pads (length src)) pad_char -> Forall (fun d => d <> dot) text.
Proof.
  intros E. assert (Forall (fun d => d <> dot) (base64 BASE64_URL_INDEX src)) as H.
  { assert (forall z, 0 <= z < 64 -> digit_at BASE64_URL_INDEX z <> dot) as Hd.
    { intros z Hz. pose proof (digit_known (Dialect := url_dialect) z Hz) as Hk. intros Ed. rewrite Ed in Hk.
      apply list_elem_of_lookup_2, list_elem_of_In in Hk.
      assert (existsb (Ascii.eqb dot) BASE64_URL_INDEX = true) as Hex by (apply existsb_exists; by exists dot).
      by vm_compute in Hex. }
    assert (forall a b c, Forall (fun d => d <> dot) (quad BASE64_URL_INDEX (group a b c))) as Hq.
    { intros a b c. pose proof (group_range a b c). unfold quad. cbn [map].
      repeat (constructor; [apply Hd; Z.div_mod_to_equations; lia|]). constructor. }
    clear E. induction src as [|a|a b|a b c l IH] using list_ind3; cbn [base64].
    - constructor.
    - apply Forall_app. split; [apply Forall_take, Hq|]. by repeat constructor.
    - apply Forall_app. split; [apply Forall_take, Hq|]. by repeat constructor.
    - apply Forall_app. by split. }
  rewrite E in H. by apply Forall_app in H as [H _].
Qed.

(** ** Serializing and parsing *)

(** What a tree needs to be printed and parsed again, and its text. *)
Record printable (j : cJSON) (s : string) : Prop := {
  p_object : Z.land (CJson.type j) 255 = cJSON_Object;
  p_tree : json_tree CJSON_NESTING_LIMIT j = true;
  p_c_tree : c_tree j = true;
  p_text : render true 0 j = Some s;
  p_size : strlen s + 2 <= INT_MAX
}.

Lemma printable_norm j s : printable j s -> c_tree (norm None j) = true /\ render true 0 (norm None j) = Some s.
Proof.
  intros [_ Ht _ Hr _]. split; [by eapply norm_c_tree|]. rewrite <- Hr. by eapply render_norm.
Qed.

Lemma serialize_text j s : c_tree j = true -> render true 0 j = Some s -> strlen s + 2 <= INT_MAX ->
  serialize j = Returns (of_string s ++ [chr 0]).
Proof.
  intros Hc Hr Hs. unfold serialize, snowflake_cJSON_Print. destruct (print_ok libc_hooks j true Hc) as (r & -> & _ & Hall).
  rewrite (Hall s); [done| |done|done]. by split.
Qed.

(** The text of a part, and what the other side reads from it. *)
Lemma serialize_root_spec j s : printable j s ->
  exists text, Forall (fun d => d <> dot) text /\
    (forall j', c_tree j' = true -> render true 0 j' = Some s -> serialize_root j' = Returns text) /\
    parseHeader text = Returns (norm None j) /\ parseClaimset text = Returns (norm None j).
Proof.
  intros [Ho Ht Hc Hr Hs]. destruct (url_spec (of_string s ++ [chr 0])) as (text & He & Htext & _ & Hd).
  { rewrite length_app. unfold of_string. rewrite list_ascii_length. unfold strlen in Hs.
    change minus_one with 18446744073709551615. change INT_MAX with 2147483647 in Hs. cbn [length]. lia. }
  { by destruct (of_string s). }
  exists text. split_and!.
  - by eapply url_no_dot.
  - intros j' Hc' Hr'. unfold serialize_root. rewrite (serialize_text j' s) by done. cbn [mbind cpp_bind]. by rewrite He.
  - unfold parseHeader, decoded. rewrite Hd. cbn [lift or_throw mbind cpp_bind]. unfold parse, of_string. rewrite c_string_app by (by eapply render_no_nul). cbn [deref lift mbind cpp_bind].
    by rewrite (parse_rendered j true s).
  - unfold parseClaimset, decoded. rewrite Hd. cbn [lift or_throw mbind cpp_bind]. unfold parse, of_string. rewrite c_string_app by (by eapply render_no_nul). cbn [deref lift mbind cpp_bind].
    by rewrite (parse_rendered j true s).
Qed.

Lemma find_ci_norm a name ch : code (tolower a) <> 0 ->
  find_ci (map (fun c => norm (Some (default "" (key c))) c) ch) (String a name) = find_ci ch (String a name).
Proof.
  intros Hn. induction ch as [|c ch IH]; [done|]. cbn [map find_ci]. rewrite IH.
  assert (key (norm (Some (default "" (key c))) c) = Some (default "" (key c))) as -> by (by destruct c).
  destruct (key c) as [k|]; [done|]. cbn [default case_insensitive_strcmp case_cmp]. rewrite Z.sub_0_r.
  by destruct (Z.eqb_spec (code (tolower a)) 0).
Qed.

Lemma algorithm_norm h alg :
  Z.land (CJson.type h) 255 = cJSON_Object -> getAlgorithmType h = Returns alg -> alg <> UNKNOWN ->
  getAlgorithmType (norm None h) = Returns alg.
Proof.
  intros Ho Ha Hk. unfold getAlgorithmType, snowflake_cJSON_GetObjectItem in *.
  destruct h as [ty vs vi vd k ch]. cbn [CJson.type child norm] in *. cbv zeta. rewrite Ho. cbn [Z.eqb Pos.eqb cJSON_Object cJSON_Array].
  rewrite find_ci_norm by done. destruct (find_ci ch "alg") as [i|]; [|by injection Ha as <-]. cbn [option_bind mbind] in *.
  rewrite list_lookup_fmap. destruct (ch !! i) as [c|]; [|by injection Ha as <-]. cbn [fmap option_fmap option_map].
  destruct c as [ty' vs' vi' vd' k' ch']. cbn [norm CJson.type valuestring] in *. cbv zeta.
  destruct (Z.eqb_spec ty' cJSON_String) as [->|]; [|by injection Ha as <-]. by destruct vs'.
Qed.

(** The laws of signing with one key and testing with the other. *)
Class KeyPair {K} (rsa_sign : AlgorithmType -> K -> bytes -> option bytes)
    (rsa_verify : AlgorithmType -> K -> bytes -> option (bytes -> bool)) (private public : K) : Prop := {
  signs alg msg : exists sig, rsa_sign alg private msg = Some sig /\ sig <> [] /\ Z.of_nat (length sig) < minus_one /\
    exists test, rsa_verify alg public msg = Some test /\ test sig = true
}.

(** C19: a token that was serialized is read back as the same header and the same claims, and verifies with the
    other key of the pair; what is signed, and tested, is the text before the second dot. *)
Theorem jwt_roundtrip {K} rsa_sign rsa_verify (private public : K) `{!KeyPair rsa_sign rsa_verify private public}
    (t : JWTObject) (hs cs : string) (alg : AlgorithmType) :
  printable (header_ t) hs -> printable (claim_set_ t) cs ->
  getAlgorithmType (header_ t) = Returns alg -> alg = RS256 \/ alg = RS384 \/ alg = RS512 ->
  exists text t' token,
    serialize_token rsa_sign private t = Returns (text, t') /\ buildIJwt text = Returns token /\
    header_ token = norm None (header_ t) /\ claim_set_ token = norm None (claim_set_ t) /\
    verify rsa_verify public token = Returns true /\ verify rsa_verify public t' = Returns true /\
    exists h c, text = h ++ dot :: c ++ dot :: secret_ token /\ message token = Returns (h ++ dot :: c) /\
      Forall (fun d => d <> dot) h /\ Forall (fun d => d <> dot) c.
Proof.
  intros Hh Hc Halg Hrs. assert (alg <> UNKNOWN /\ buildSigner alg = Returns alg) as [Hk Hsigner] by (by destruct Hrs as [->|[->| ->]]).
  destruct (serialize_root_spec _ _ Hh) as (h & Hdot & Hser & Hparse & _).
  destruct (serialize_root_spec _ _ Hc) as (c & Hdot' & Hser' & _ & Hparse').
  destruct (signs alg (h ++ dot :: c)) as (sig & Esig & Hne & Hlen & test & Etest & Htest).
  destruct (url_spec sig Hlen Hne) as (secret & Esec & _ & _ & Edec).
  assert (message t = Returns (h ++ dot :: c)) as Emsg
    by (unfold message; rewrite (Hser _ (p_c_tree _ _ Hh) (p_text _ _ Hh)), (Hser' _ (p_c_tree _ _ Hc) (p_text _ _ Hc)); done).
  set (token := mk_jwt (norm None (header_ t)) (norm None (claim_set_ t)) secret).
  assert (message token = Returns (h ++ dot :: c)) as Emsg'.
  { unfold message. destruct (printable_norm _ _ Hh), (printable_norm _ _ Hc). cbn [header_ claim_set_ token].
    rewrite (Hser (norm None (header_ t))), (Hser' (norm None (claim_set_ t))) by done. done. }
  exists ((h ++ dot :: c) ++ dot :: secret), (mk_jwt (header_ t) (claim_set_ t) secret), token. split_and!.
  - unfold serialize_token. rewrite Halg. cbn. rewrite Hsigner. cbn. rewrite Emsg. cbn. unfold sign. rewrite Esig, Esec. done.
  - unfold buildIJwt. rewrite <- app_assoc. cbn [app].
    destruct (Nat.eqb_spec (length (h ++ dot :: c ++ dot :: secret)) 0) as [E|_]; [rewrite length_app in E; cbn in E; lia|].
    rewrite find_first_app by done. cbn [or_throw mbind cpp_bind]. rewrite substr_prefix, take_app_length. cbn [mbind cpp_bind].
    rewrite Hparse. cbn [mbind cpp_bind]. rewrite substr_rest by (rewrite length_app; cbn; lia).
    rewrite (cons_middle dot h), app_assoc, drop_app_length' by (rewrite length_app; cbn; lia). cbn [mbind cpp_bind].
    rewrite find_first_app by done. cbn [or_throw mbind cpp_bind]. rewrite substr_prefix, take_app_length. cbn [mbind cpp_bind].
    rewrite Hparse'. cbn [mbind cpp_bind]. rewrite substr_rest by (rewrite length_app; cbn; lia).
    by rewrite (cons_middle dot c), app_assoc, drop_app_length' by (rewrite length_app; cbn; lia).
  - done.
  - done.
  - unfold verify. cbn [header_ token]. rewrite (algorithm_norm _ alg (p_object _ _ Hh) Halg Hk). cbn. rewrite Hsigner. cbn.
    rewrite Emsg'. cbn. unfold verify_signature, decoded. rewrite Etest, Edec. cbn. by rewrite Htest.
  - unfold verify. cbn [header_]. rewrite Halg. cbn. rewrite Hsigner. cbn.
    unfold message in *. cbn [header_ claim_set_]. rewrite Emsg. cbn. unfold verify_signature, decoded. rewrite Etest, Edec. cbn. by rewrite Htest.
  - exists h, c. split_and!; [by rewrite <- app_assoc|done..].
Qed.

(** ** A token *)

(** A signature that is a checksum, and a key that only tells its two halves apart. *)
Definition checksum (alg : AlgorithmType) (msg : bytes) : bytes :=
  [chr (Z.of_nat (String.length (toString alg))); chr (foldr (fun c n => (code c + 3 * n) mod 251) 0 msg)].
Definition toy_sign (alg : AlgorithmType) (private : bool) (msg : bytes) : option bytes :=
  if private then Some (checksum alg msg) else None.
Definition toy_verify (alg : AlgorithmType) (private : bool) (msg : bytes) : option (bytes -> bool) :=
  Some (fun sig => bool_decide (sig = checksum alg msg)).
#[export] Instance toy_keys : KeyPair toy_sign toy_verify true false.
Proof.
  split. intros alg msg. exists (checksum alg msg). split_and!; [done..|]. eexists. split; [done|]. by apply bool_decide_eq_true.
Qed.

Definition sample_token : cpp JWTObject :=
  t ← buildIJwt_new;
  h ← setAlgorithm RS256 (header_ t);
  c ← addClaim "iss" "me" (claim_set_ t);
  c ← addClaim_long "exp" 1234 c;
  c ← addClaim "iss" "you" c;
  Returns (mk_jwt h c []).
Definition token_or_empty (c : cpp JWTObject) : JWTObject :=
  match c with Returns t => t | _ => mk_jwt (mk_cJSON 0 None 0 zero_double None []) (mk_cJSON 0 None 0 zero_double None []) [] end.

Lemma jwt_roundtrip_witness :
  exists text t' token, serialize_token toy_sign true (token_or_empty sample_token) = Returns (text, t') /\
    buildIJwt text = Returns token /\ verify toy_verify false token = Returns true /\
    getClaimInString (claim_set_ token) "iss" = Returns "you" /\ getClaimInLong (claim_set_ token) "exp" = Returns 1234.
Proof.
  set (t := token_or_empty sample_token).
  destruct (jwt_roundtrip toy_sign toy_verify true false t (default "" (render true 0 (header_ t))) (default "" (render true 0 (claim_set_ t))) RS256)
    as (text & t' & token & H1 & H2 & H3 & H4 & H5 & _).
  - split; vm_compute; try reflexivity; discriminate.
  - split; vm_compute; try reflexivity; discriminate.
  - vm_compute. reflexivity.
  - left. reflexivity.
  - exists text, t', token. split; [exact H1|]. split; [exact H2|]. split; [exact H5|]. rewrite H4. split; vm_compute; reflexivity.
Defined.

(** A token as others write it, without the NUL: cJSON reads past the end of the vector. *)
Example standard_token : buildIJwt (of_string "eyJhbGciOiJSUzI1NiIsInR5cCI6IkpXVCJ9.e30.AA") = Dies.
Proof. vm_compute. reflexivity. Qed.
(** [verify] means to answer false when it has no signer, but the builder throws. *)
Example unknown_algorithm :
  (t ← buildIJwt_new; verify toy_verify false t) = Throws (JwtException "Algorithm type not implemented").
Proof. vm_compute. reflexivity. Qed.
(** Claims are replaced without regard to case, and read with it. *)
Example claim_case :
  (t ← buildIJwt_new; c ← addClaim "A" "1" (claim_set_ t); c ← addClaim "a" "2" c;
   v ← getClaimInString c "A"; Returns (containsClaim c "A", v)) = Returns (true, "").
Proof. vm_compute. reflexivity. Qed.
(** A [long] beyond 53 bits is rounded; the largest cannot be read back. *)
Example long_claims :
  map (fun n => t ← buildIJwt_new; c ← addClaim_long "n" n (claim_set_ t); getClaimInLong c "n") [2 ^ 53; 2 ^ 53 + 1; LLONG_MAX]
  = [Returns (2 ^ 53); Returns (2 ^ 53); Dies].
Proof. vm_compute. reflexivity. Qed.
Example tampered :
  match serialize_token toy_sign true (token_or_empty sample_token) with
  | Returns (text, _) => match buildIJwt (removelast text ++ ["A"%char]) with Returns t => verify toy_verify false t | _ => Dies end
  | _ => Dies
  end = Returns false.
Proof. vm_compute. reflexivity. Qed.
