(* ===== verification/FileMetadata.v ===== *)
(** * cpp/FileCompressionType, FileMetadataInitializer, StatementPutGet and
    FileTransferExecutionResult: which files a command moves, and what is said of them.

    A pointer to one of the constant compression types is a constructor.  The file system
    is an argument: the first bytes of a file, the entries of a directory, [fnmatch]. *)

From S2P Require Import Prelude CLib CJson CJsonParse Platform PutGet Base64 StreamParts Cpp.

(** ** Compression types *)

Inductive CompressionType :=
| GZIP | DEFLATE | RAW_DEFLATE | BZIP2 | ZSTD | BROTLI | LZIP | LZMA | LZO | XZ | COMPRESS | ORC | PARQUET | NONE.
#[export] Instance CompressionType_eq_dec : EqDecision CompressionType.
Proof. solve_decision. Defined.

Record FileCompressionType := mk_compression {
  m_fileExtension : string; m_name : string;
  m_magicNumbers : option (list bytes); m_magicBytes : nat;
  m_isSupported : bool
}.
Definition magic (l : list Z) : bytes := map chr l.
Definition compression (t : CompressionType) : FileCompressionType :=
  match t with
  | GZIP => mk_compression ".gz" "gzip" (Some [magic [31; 139]]) 2 true
  | DEFLATE => mk_compression ".deflate" "deflate" (Some [magic [120; 1]; magic [120; 156]; magic [120; 218]]) 2 true
  | RAW_DEFLATE => mk_compression ".raw_deflate" "raw_deflate" None 0 true
  | BZIP2 => mk_compression ".bz2" "bzip2" (Some [magic [66; 90]]) 2 true
  | ZSTD => mk_compression ".zst" "zstd" (Some [magic [40; 181; 47; 253]]) 4 true
  | BROTLI => mk_compression ".br" "brotli" (Some [magic [206; 178; 207; 129]]) 4 true
  | LZIP => mk_compression ".lz" "lzip" None 0 false
  | LZMA => mk_compression ".lzma" "lzma" None 0 false
  | LZO => mk_compression ".lzo" "lzop" None 0 false
  | XZ => mk_compression ".xz" "xz" None 0 false
  | COMPRESS => mk_compression ".Z" "compress" None 0 false
  | ORC => mk_compression ".orc" "orc" (Some [magic [79; 82; 67]]) 3 true
  | PARQUET => mk_compression ".parquet" "parquet" (Some [magic [80; 65; 82; 49]]) 4 true
  | NONE => mk_compression "" "none" None 0 true
  end.
Definition types : list CompressionType :=
  [GZIP; DEFLATE; RAW_DEFLATE; BZIP2; ZSTD; BROTLI; LZIP; LZMA; LZO; XZ; COMPRESS; ORC; PARQUET].

Definition MAX_MAGIC_BYTES : nat := 4.
(** [strlen] of a zeroed block that was read into. *)
Definition header_length (header : bytes) : nat := match find_first_of (chr 0) header with Some n => n | None => length header end.
Definition matchMagicNumber (t : CompressionType) (header : bytes) : bool :=
  let c := compression t in
  match m_magicNumbers c with
  | None => false
  | Some numbers =>
      existsb (fun m => (m_magicBytes c <=? header_length header)%nat &&
                        bool_decide (take (m_magicBytes c) header = take (m_magicBytes c) m)) numbers
  end.

(** Five bytes, zero where the file (none: it could not be opened) has no more. *)
Definition read_header (content : option bytes) : bytes :=
  let start := take MAX_MAGIC_BYTES (default [] content) in start ++ replicate (5 - length start) (chr 0).
Definition file_ext (fileFullPath : bytes) : cpp bytes :=
  match find_last_of "."%char fileFullPath with
  | Some pos => substr pos None fileFullPath
  | None => Throws out_of_range            (* substr(npos) *)
  end.
Fixpoint guess_loop (ts : list CompressionType) (fileFullPath header : bytes) : cpp CompressionType :=
  match ts with
  | [] => Returns NONE
  | t :: ts =>
      if matchMagicNumber t header then Returns t
      else if bool_decide (t = BROTLI) then
        ext ← file_ext fileFullPath;
        if bool_decide (ext = of_string (m_fileExtension (compression t))) then Returns t else guess_loop ts fileFullPath header
      else guess_loop ts fileFullPath header
  end.
Definition guessCompressionType (fileFullPath : bytes) (content : option bytes) : cpp CompressionType :=
  guess_loop types fileFullPath (read_header content).

(** [strncmp(name, m_name, sizeof(m_name))]: the size of a pointer. *)
Definition lookUpByName (name : string) : option CompressionType :=
  List.find (fun t => strcmp (str_take 8 name) (str_take 8 (m_name (compression t))) =? 0) types.

(** ** FileMetadata *)

Record EncryptionMetadata := mk_enc {
  iv : bytes; fileKey : bytes;           (* nbBits is eight times its length *)
  enKekEncoded : bytes; matDesc : bytes; cipherStreamSize : Z
}.
Record FileMetadata := mk_file {
  srcFileName : bytes; srcFileSize : Z;
  srcFileToUpload : bytes; srcFileToUploadSize : Z;
  destFileName : bytes; destFileSize : Z;
  requireCompress : bool;
  encryptionMetadata : EncryptionMetadata;
  sha256Digest : bytes;
  sourceCompression : option CompressionType; targetCompression : option CompressionType
}.
Definition no_encryption : EncryptionMetadata := mk_enc [] [] [] [] 0.
Definition new_file : FileMetadata := mk_file [] 0 [] 0 [] 0 false no_encryption [] None None.
Definition set_compression (src target : CompressionType) (require : bool) (dest : bytes) (f : FileMetadata) : FileMetadata :=
  mk_file (srcFileName f) (srcFileSize f) (srcFileToUpload f) (srcFileToUploadSize f) dest (destFileSize f) require
    (encryptionMetadata f) (sha256Digest f) (Some src) (Some target).

Definition DATA_SIZE_THRESHOLD : Z := 5242880.

(** ** FileMetadataInitializer: two lists of files, small and large. *)

Record FileLists := mk_lists { m_smallFilesMeta : list FileMetadata; m_largeFilesMeta : list FileMetadata }.
Definition push (f : FileMetadata) (l : FileLists) : FileLists :=
  if srcFileSize f >? DATA_SIZE_THRESHOLD then mk_lists (m_smallFilesMeta l) (m_largeFilesMeta l ++ [f])
  else mk_lists (m_smallFilesMeta l ++ [f]) (m_largeFilesMeta l).

Section Initializer.
  Context (m_sourceCompression : string) (m_autoCompress : bool).
  (** The file system: the contents of a file, the entries of a directory, and for a path
      whether it is a regular file, and its size. *)
  Context (file : bytes -> option bytes) (readdir : bytes -> option (list bytes)) (stat : bytes -> option (bool * Z)).
  Context (fnmatch : bytes -> bytes -> bool).

Definition same (s t : string) : bool := sf_strncasecmp s t (String.length t + 1) =? 0.

Definition source_compression_of (path : bytes) : cpp CompressionType :=
  if same m_sourceCompression "AUTO_DETECT" || same m_sourceCompression "AUTO" then guessCompressionType path (file path)
  else if same m_sourceCompression "NONE" then Returns NONE
  else or_throw (SnowflakeTransferException COMPRESSION_NOT_SUPPORTED) (lookUpByName m_sourceCompression).

(** An unsupported type meets a [throw] of nothing. *)
Definition initCompressionMetadata (f : FileMetadata) : cpp FileMetadata :=
  source ← source_compression_of (srcFileName f);
  if bool_decide (source = NONE) then
    Returns (set_compression source (if m_autoCompress then GZIP else NONE) m_autoCompress
      (if m_autoCompress then destFileName f ++ of_string (m_fileExtension (compression GZIP)) else destFileName f) f)
  else if m_isSupported (compression source) then Returns (set_compression source source false (destFileName f) f)
  else Dies.

Definition initFileMetadata (fileDir fileName : bytes) (fileSize : Z) (l : FileLists) : cpp FileLists :=
  f ← initCompressionMetadata (mk_file (fileDir ++ fileName) fileSize [] 0 fileName 0 false no_encryption [] None None);
  Returns (push f l).

Fixpoint entries_loop (dirPath filePattern : bytes) (entries : list bytes) (l : FileLists) : cpp FileLists :=
  match entries with
  | [] => Returns l
  | d_name :: entries =>
      if fnmatch filePattern d_name then
        match stat (dirPath ++ d_name) with
        | Some (regular, st_size) =>
            l ← (if regular : bool then initFileMetadata dirPath d_name st_size l else Returns l);
            entries_loop dirPath filePattern entries l
        | None => Throws (SnowflakeTransferException DIR_OPEN_ERROR)
        end
      else entries_loop dirPath filePattern entries l
  end.
Definition populateSrcLocUploadMetadata (sourceLocation : bytes) (l : FileLists) : cpp FileLists :=
  let dirSep := find_last_of "/"%char sourceLocation in
  dirPath ← substr 0 (Some (after dirSep)) sourceLocation;
  filePattern ← substr (after dirSep) None sourceLocation;
  match readdir dirPath with
  | Some entries => entries_loop dirPath filePattern entries l
  | None => Throws (SnowflakeTransferException DIR_OPEN_ERROR)
  end.
End Initializer.

(** ** StatementPutGet: from the C structure to the agent's *)

Inductive StageType := S3 | AZURE | LOCAL_FS | MOCKED_STAGE_TYPE.
Inductive CommandType := UPLOAD | DOWNLOAD | UNKNOWN_COMMAND.
Record EncryptionMaterial := mk_material { queryStageMasterKey : bytes; queryId : bytes; smkId : Z }.
Record StageInfo := mk_stage {
  stageType : StageType; stage_location : bytes; stage_path : bytes; stage_region : bytes;
  credentials : list (string * option string)
}.
Record PutGetParseResponse := mk_response {
  r_parallel : Z; r_autoCompress : bool; r_overwrite : bool; r_clientShowEncryptionParameter : bool;
  r_sourceCompression : string; r_localLocation : option string; r_command : CommandType;
  srcLocations : list bytes; encryptionMaterials : list EncryptionMaterial; stageInfo : StageInfo
}.

(** A [std::string] from a [char *]. *)
Definition std_string (s : option string) : cpp bytes := s ← lift (deref s); Returns (of_string s).
Definition valuestring_of (val : option cJSON) : cpp bytes := v ← lift (deref val); std_string (valuestring v).

Fixpoint src_loop (src : option cJSON) (n i : nat) : cpp (list bytes) :=
  match n with
  | O => Returns []
  | S n =>
      s ← valuestring_of (snowflake_cJSON_GetArrayItem src (Z.of_nat i)); rest ← src_loop src n (S i); Returns (s :: rest)
  end.
Definition material_of (enc_mat : option cJSON) : cpp EncryptionMaterial :=
  key ← valuestring_of (snowflake_cJSON_GetObjectItem enc_mat "queryStageMasterKey");
  id ← valuestring_of (snowflake_cJSON_GetObjectItem enc_mat "queryId");
  smk ← lift (deref (snowflake_cJSON_GetObjectItem enc_mat "smkId"));
  Returns (mk_material key id (valueint smk)).
Fixpoint materials_loop (mats : option cJSON) (n i : nat) : cpp (list EncryptionMaterial) :=
  match n with
  | O => Returns []
  | S n =>
      m ← material_of (snowflake_cJSON_GetArrayItem mats (Z.of_nat i)); rest ← materials_loop mats n (S i); Returns (m :: rest)
  end.
Definition array_size (a : option cJSON) : nat := Z.to_nat (snowflake_cJSON_GetArraySize a).

(** [put_get] is what [snowflake_query] left in the statement; its status is ignored.  The
    lists of the response are appended to; an unknown stage type leaves the last one. *)
Definition parsePutGetCommand (put_get : option SF_PUT_GET_RESPONSE) (old : PutGetParseResponse) : cpp PutGetParseResponse :=
  response ← lift (deref put_get);
  srcs ← src_loop (src_list response) (array_size (src_list response)) 0;
  '(command, materials) ←
    (if sf_strncasecmp (command response) "UPLOAD" 6 =? 0 then
       key ← std_string (query_stage_master_key (enc_mat_put response));
       Returns (UPLOAD, [mk_material key (of_string (query_id (enc_mat_put response))) (smk_id (enc_mat_put response))])
     else if sf_strncasecmp (command response) "DOWNLOAD" 8 =? 0 then
       ms ← materials_loop (enc_mat_get response) (array_size (enc_mat_get response)) 0;
       Returns (DOWNLOAD, ms)
     else Returns (UNKNOWN_COMMAND, []));
  let info := stage_info response in
  loc ← std_string (location info);
  pth ← std_string (path info);
  reg ← std_string (region info);
  type ← lift (deref (location_type info));
  Returns (mk_response (i32 (parallel response)) (auto_compress response) (overwrite response) (client_show_encryption_param response)
    (source_compression response) (localLocation response) command
    (srcLocations old ++ srcs) (encryptionMaterials old ++ materials)
    (mk_stage (if sf_strncasecmp type "s3" 2 =? 0 then S3
               else if sf_strncasecmp type "azure" 5 =? 0 then AZURE
               else if sf_strncasecmp type "local_fs" 8 =? 0 then LOCAL_FS
               else stageType (stageInfo old))
       loc pth reg
       [("AWS_KEY_ID", aws_key_id (stage_cred info)); ("AWS_SECRET_KEY", aws_secret_key (stage_cred info));
        ("AWS_TOKEN", aws_token (stage_cred info))])).

(** ** FileTransferExecutionResult

    An entry points at a file of the agent's lists, here by its position. *)

Definition PUT_COLUMN_NAMES : list string :=
  ["source"; "target"; "source_size"; "target_size"; "source_compression"; "target_compression"; "status"; "encryption"; "message"].
Definition GET_COLUMN_NAMES : list string := ["file"; "size"; "status"; "encryption"; "message"].

Record FileTransferExecutionResult := mk_result {
  m_commandType : CommandType; m_resultEntryNum : Z; m_currentIndex : Z;
  m_fileMetadatas : list (option nat); result_outcomes : list (option RemoteStorageRequestOutcome)
}.
Definition new_result (c : CommandType) (n : nat) : FileTransferExecutionResult :=
  mk_result c (Z.of_nat n) (-1) (replicate n None) (replicate n None).
Definition SetTransferOutCome (o : RemoteStorageRequestOutcome) (i : nat) (r : FileTransferExecutionResult) : outcome FileTransferExecutionResult :=
  if (i <? length (result_outcomes r))%nat then
    Done (mk_result (m_commandType r) (m_resultEntryNum r) (m_currentIndex r) (m_fileMetadatas r) (<[i := Some o]> (result_outcomes r)))
  else Undef.
Definition SetFileMetadata (f i : nat) (r : FileTransferExecutionResult) : outcome FileTransferExecutionResult :=
  if (i <? length (m_fileMetadatas r))%nat then
    Done (mk_result (m_commandType r) (m_resultEntryNum r) (m_currentIndex r) (<[i := Some f]> (m_fileMetadatas r)) (result_outcomes r))
  else Undef.

(** The comparison is of an [unsigned int]. *)
Definition next_result (r : FileTransferExecutionResult) : bool * FileTransferExecutionResult :=
  let i := i32 (m_currentIndex r + 1) in
  (u32 i <? m_resultEntryNum r, mk_result (m_commandType r) (m_resultEntryNum r) i (m_fileMetadatas r) (result_outcomes r)).
Definition fromOutcomeToStr (c : CommandType) (o : RemoteStorageRequestOutcome) : string :=
  match o with
  | SUCCESS => match c with UPLOAD => "UPLOADED" | _ => "DOWNLOADED" end
  | SKIP_UPLOAD_FILE => "SKIPPED"
  | _ => "ERROR"
  end.
Definition column_names (c : CommandType) : list string :=
  match c with UPLOAD => PUT_COLUMN_NAMES | DOWNLOAD => GET_COLUMN_NAMES | UNKNOWN_COMMAND => [] end.
Definition getColumnSize (r : FileTransferExecutionResult) : Z := Z.of_nat (length (column_names (m_commandType r))).
Definition getColumnName (columnIndex : Z) (r : FileTransferExecutionResult) : cpp string :=
  if u32 columnIndex <? getColumnSize r then
    match m_commandType r with
    | UNKNOWN_COMMAND => Returns ""
    | c => or_throw out_of_range (column_names c !! Z.to_nat columnIndex)
    end
  else Throws (SnowflakeTransferException COLUMN_INDEX_OUT_OF_RANGE).
Definition findColumnByName (columnName : string) (columnNameSize : nat) (r : FileTransferExecutionResult) : Z :=
  let names := match m_commandType r with UPLOAD => PUT_COLUMN_NAMES | _ => GET_COLUMN_NAMES end in
  match list_find (fun c => (sf_strncasecmp c columnName columnNameSize =? 0) = true) names with
  | Some (i, _) => Z.of_nat i
  | None => -1
  end.

Definition to_string (z : Z) : bytes := of_string (fmt_d z).
Definition name_of (t : option CompressionType) : cpp bytes := t ← lift (deref t); Returns (of_string (m_name (compression t))).

(** [None]: the index is out of range, or the command unknown, and [value] is left alone. *)
Definition getColumnAsString (files : list FileMetadata) (columnIndex : Z) (r : FileTransferExecutionResult) : cpp (option bytes) :=
  if u32 columnIndex <? getColumnSize r then
    let row := Z.to_nat (m_currentIndex r) in
    let in_row := (0 <=? m_currentIndex r) in
    let f := lift (deref (if in_row then i ← mjoin (m_fileMetadatas r !! row); files !! i else None)) in
    let o := lift (deref (if in_row then mjoin (result_outcomes r !! row) else None)) in
    let status := o ← o; Returns (of_string (fromOutcomeToStr (m_commandType r) o)) in
    v ← (match m_commandType r, Z.to_nat columnIndex with
         | UPLOAD, 0 => f ← f; substr (after (find_last_of "/"%char (srcFileName f))) None (srcFileName f)
         | UPLOAD, 1 | DOWNLOAD, 0 => f ← f; Returns (destFileName f)
         | UPLOAD, 2 | DOWNLOAD, 1 => f ← f; Returns (to_string (srcFileSize f))
         | UPLOAD, 3 => f ← f; Returns (to_string (destFileSize f))
         | UPLOAD, 4 => f ← f; name_of (sourceCompression f)
         | UPLOAD, 5 => f ← f; name_of (targetCompression f)
         | UPLOAD, 6 | DOWNLOAD, 2 => status
         | UPLOAD, 7 => Returns (of_string "ENCRYPTED")
         | DOWNLOAD, 3 => Returns (of_string "DECRYPTED")
         | UPLOAD, 8 =>
             o ← o;
             Returns (of_string (if bool_decide (o = SKIP_UPLOAD_FILE)
                                 then "File with same name and checksum already exists. SKIPPED" else ""))
         | _, _ => Returns []
         end)%nat;
    Returns (Some v)
  else Returns None.

(** ** Detection: the first type whose magic number the file begins with *)

Definition begins_with (m content : bytes) : bool := bool_decide (take (length m) content = m).
Definition magics (t : CompressionType) : list bytes := default [] (m_magicNumbers (compression t)).
Definition detected (ts : list CompressionType) (content : bytes) : option CompressionType :=
  List.find (fun t => existsb (fun m => begins_with m content) (magics t)) ts.

Lemma no_nul_length m s : Forall (fun c => c <> chr 0) m -> take (length m) s = m -> (length m <= header_length s)%nat.
Proof.
  intros Hm Ht. unfold header_length. destruct (find_first_of (chr 0) s) as [i|] eqn:E.
  - destruct (find_first_Some _ _ _ E) as [Es _]. destruct (Nat.le_gt_cases (length m) i); [done|].
    pose proof (find_first_Some _ _ _ E) as [Hs _].
    assert (s !! i = Some (chr 0)) as Hi.
    { rewrite Es. rewrite lookup_app_r, length_take by (rewrite length_take; lia).
      assert (i <= length s)%nat by (apply (f_equal length) in Hs; rewrite length_app, length_take in Hs; cbn [length] in Hs; rewrite length_drop in Hs; lia).
      by rewrite Nat.min_l, Nat.sub_diag by done. }
    assert (m !! i = Some (chr 0)) as Hmi by (rewrite <- Ht, lookup_take_lt by lia; done).
    rewrite Forall_lookup in Hm. by destruct (Hm i _ Hmi).
  - rewrite <- Ht, length_take. lia.
Qed.

(** The five bytes of the header say it of the file itself. *)
Lemma match_spec t content :
  matchMagicNumber t (read_header (Some content)) = existsb (fun m => begins_with m content) (magics t).
Proof.
  assert (forall m, Forall (fun c => c <> chr 0) m -> length m = m_magicBytes (compression t) -> (length m <= MAX_MAGIC_BYTES)%nat ->
    (m_magicBytes (compression t) <=? header_length (read_header (Some content)))%nat &&
      bool_decide (take (m_magicBytes (compression t)) (read_header (Some content)) = take (m_magicBytes (compression t)) m)
    = begins_with m content) as Hm.
  { intros m Hnul Hlen Hmax. unfold begins_with. rewrite <- Hlen, (take_ge m) by done.
    assert (take (length m) (read_header (Some content)) = m <-> take (length m) content = m) as Hiff.
    { unfold read_header, default, id. rewrite take_app, length_take, take_take. unfold MAX_MAGIC_BYTES in *. split; intros H.
      - destruct (Nat.le_gt_cases (length m) (length content)) as [Hc|Hc].
        + rewrite Nat.min_l in H by done. replace (length m - Nat.min 4 (length content))%nat with 0%nat in H by lia. by rewrite app_nil_r in H.
        + exfalso. rewrite (take_ge content) in H by lia.
          assert (m !! length content = Some (chr 0)) as Hz.
          { rewrite <- H, lookup_app_r, Nat.sub_diag by done. rewrite take_replicate. by apply lookup_replicate_2; lia. }
          rewrite Forall_lookup in Hnul. by destruct (Hnul _ _ Hz).
      - pose proof (f_equal length H) as Hl. rewrite length_take in Hl.
        replace (length m - Nat.min 4 (length content))%nat with 0%nat by lia. rewrite app_nil_r. by rewrite Nat.min_l by done. }
    destruct (bool_decide_reflect (take (length m) (read_header (Some content)) = m)) as [H|H].
    - rewrite andb_true_r, (bool_decide_eq_true_2 _ (proj1 Hiff H)). apply Nat.leb_le. by apply no_nul_length.
    - rewrite andb_false_r. symmetry. apply bool_decide_eq_false. by rewrite <- Hiff. }
  unfold matchMagicNumber, magics. destruct (m_magicNumbers (compression t)) as [l|] eqn:E; [|done]. cbn [default].
  assert (Forall (fun m => Forall (fun c => c <> chr 0) m /\ length m = m_magicBytes (compression t) /\ (length m <= MAX_MAGIC_BYTES)%nat) l) as Hl.
  { destruct t; cbn in E; try done; injection E as <-; repeat constructor; vm_compute; congruence. }
  clear E. induction Hl as [|m l (H1 & H2 & H3) _ IH]; [done|]. cbn [existsb]. by rewrite IH, Hm.
Qed.

Lemma find_last_bound c s pos : find_last_of c s = Some pos -> (pos < length s)%nat.
Proof.
  revert pos. induction s as [|d s IH]; intros pos; cbn [find_last_of length]; [done|].
  destruct (find_last_of c s) as [i|]; [|destruct (Ascii.eqb c d); [|done]]; intros [= <-]; [specialize (IH i eq_refl)|]; lia.
Qed.

(** The fallback for brotli looks at the name before the last two types are tried. *)
Lemma guess_spec path content :
  guessCompressionType path (Some content) =
    match detected [GZIP; DEFLATE; BZIP2; ZSTD; BROTLI] content with
    | Some t => Returns t
    | None =>
        match find_last_of "."%char path with
        | None => Throws out_of_range
        | Some pos =>
            if bool_decide (drop pos path = of_string ".br") then Returns BROTLI
            else Returns (default NONE (detected [ORC; PARQUET] content))
        end
    end.
Proof.
  unfold guessCompressionType, types. cbn [guess_loop detected List.find].
  rewrite !match_spec. change (magics RAW_DEFLATE) with (@nil bytes). change (magics LZIP) with (@nil bytes). change (magics LZMA) with (@nil bytes).
  change (magics LZO) with (@nil bytes). change (magics XZ) with (@nil bytes). change (magics COMPRESS) with (@nil bytes). cbn [existsb].
  repeat (rewrite bool_decide_eq_false_2 by done).
  do 5 (destruct (existsb _ _); [done|]).
  rewrite bool_decide_eq_true_2 by done. unfold file_ext. destruct (find_last_of "."%char path) as [pos|] eqn:E; [|done].
  rewrite substr_rest by (apply find_last_bound in E; lia).
  cbn [mbind cpp_bind]. destruct (bool_decide _); [done|]. by repeat destruct (existsb _ _).
Qed.

(** ** The files of a PUT *)

Section Listed.
  Context (m_sourceCompression : string) (m_autoCompress : bool).
  Context (file : bytes -> option bytes) (readdir : bytes -> option (list bytes)) (stat : bytes -> option (bool * Z)).
  Context (fnmatch : bytes -> bytes -> bool).
  #[local] Abbreviation populate := (populateSrcLocUploadMetadata m_sourceCompression m_autoCompress file readdir stat fnmatch).

Definition type_of (path : bytes) : CompressionType :=
  match source_compression_of m_sourceCompression file path with Returns t => t | _ => NONE end.
(** Compressed on the way if it is not yet and the command does not forbid it. *)
Definition described (dir name : bytes) (size : Z) : FileMetadata :=
  let t := type_of (dir ++ name) in
  let compress := bool_decide (t = NONE) && m_autoCompress in
  mk_file (dir ++ name) size [] 0 (if compress then name ++ of_string ".gz" else name) 0 compress no_encryption []
    (Some t) (Some (if compress then GZIP else t)).
Definition listed (dir pattern : bytes) (entries : list bytes) : list FileMetadata :=
  omap (fun d => if fnmatch pattern d then match stat (dir ++ d) with Some (true, size) => Some (described dir d size) | _ => None end
                 else None) entries.
Definition small (f : FileMetadata) : bool := srcFileSize f <=? DATA_SIZE_THRESHOLD.

Definition readable_entry (dir pattern d : bytes) : Prop :=
  fnmatch pattern d = true ->
  exists regular size, stat (dir ++ d) = Some (regular, size) /\
    (regular = true -> exists t, source_compression_of m_sourceCompression file (dir ++ d) = Returns t /\ m_isSupported (compression t) = true).

Lemma initFileMetadata_spec dir name size l t :
  source_compression_of m_sourceCompression file (dir ++ name) = Returns t -> m_isSupported (compression t) = true ->
  initFileMetadata m_sourceCompression m_autoCompress file dir name size l = Returns (push (described dir name size) l).
Proof.
  intros Ht Hs. unfold initFileMetadata, initCompressionMetadata, described, type_of. cbn [srcFileName destFileName]. rewrite Ht.
  cbn [mbind cpp_bind]. case_bool_decide as E; cbn [andb]; [|by rewrite Hs]. subst t. cbn [mbind cpp_bind]. by destruct m_autoCompress.
Qed.

Lemma entries_spec dir pattern entries l :
  Forall (readable_entry dir pattern) entries ->
  entries_loop m_sourceCompression m_autoCompress file stat fnmatch dir pattern entries l =
    Returns (mk_lists (m_smallFilesMeta l ++ List.filter small (listed dir pattern entries))
      (m_largeFilesMeta l ++ List.filter (fun f => negb (small f)) (listed dir pattern entries))).
Proof.
  intros H. revert l. induction H as [|d entries Hd _ IH]; intros l; cbn [entries_loop listed omap list_omap List.filter].
  - rewrite !app_nil_r. by destruct l.
  - destruct (fnmatch pattern d) eqn:Em; [|apply IH]. destruct (Hd Em) as (regular & size & -> & Hreg).
    destruct regular; [|apply IH]. destruct (Hreg eq_refl) as (t & Ht & Hs). rewrite (initFileMetadata_spec dir d size l t Ht Hs).
    cbn [mbind cpp_bind]. rewrite IH. fold (listed dir pattern entries). cbn [List.filter].
    assert (small (described dir d size) = negb (size >? DATA_SIZE_THRESHOLD)) as -> by (unfold small; rewrite Z.gtb_ltb; apply Z.leb_antisym).
    unfold push. change (srcFileSize (described dir d size)) with size.
    destruct (size >? DATA_SIZE_THRESHOLD); cbn [negb m_smallFilesMeta m_largeFilesMeta]; by rewrite <- app_assoc.
Qed.

End Listed.

(** Two of the four entries match, one of them is compressed already. *)
Definition sample_dir : bytes := of_string "/data/".
Definition sample_entries : list bytes := map of_string ["."; "a.csv"; "b.csv"; "c.txt"].
Definition sample_content (path : bytes) : option bytes :=
  if bool_decide (path = of_string "/data/b.csv") then Some (magic [31; 139; 8]) else Some (of_string "1,2").
Definition sample_stat (path : bytes) : option (bool * Z) :=
  if bool_decide (path = of_string "/data/b.csv") then Some (true, DATA_SIZE_THRESHOLD + 1)
  else if bool_decide (path = of_string "/data/.") then Some (false, 4096) else Some (true, 3).
Definition sample_match (pattern name : bytes) : bool := bool_decide (drop 1 pattern = drop 1 name).


(** A file whose path has no dot is not compressed by any of the first types: [substr(npos)]. *)
Example no_dot :
  guessCompressionType (of_string "/data/file") (Some (of_string "1,2")) = Throws out_of_range /\
  guessCompressionType (of_string "/data/file") (Some (of_string "PAR1")) = Throws out_of_range /\
  guessCompressionType (of_string "/da.ta/file") (Some (of_string "PAR1")) = Returns PARQUET.
Proof. split_and!; vm_compute; reflexivity. Qed.
(** The names are compared in their first eight characters, and with their case. *)
Example look_up :
  map lookUpByName ["gzip"; "GZIP"; "gzipped"; "compression"; "raw_deflated"; "bz2"; "none"]
  = [Some GZIP; None; None; Some COMPRESS; Some RAW_DEFLATE; None; None].
Proof. vm_compute. reflexivity. Qed.
Example unsupported : initCompressionMetadata "lzma" true (fun _ => None) new_file = Dies.
Proof. vm_compute. reflexivity. Qed.

(** ** Two commands on one response

    The agent keeps its response and the lists only grow: the second PUT moves the files of
    the first again, with the first one's key (the initializer takes the first material). *)
Definition sample_put (src key : string) : SF_PUT_GET_RESPONSE :=
  mk_put_get (Some (mk_cJSON cJSON_Array None 0 CJson.zero_double None [mk_cJSON cJSON_String (Some src) 0 CJson.zero_double None []]))
    4 true false "auto" false "UPLOAD" (mk_enc_mat (Some key) "id" 7) None
    (mk_stage_info (Some "S3") (Some "bucket/stage/") (Some "stage/") (Some "us-west-2") (mk_stage_cred (Some "i") (Some "s") (Some "t"))) None.
Definition empty_response : PutGetParseResponse :=
  mk_response 0 false false false "" None UNKNOWN_COMMAND [] [] (mk_stage S3 [] [] [] []).
Example second_command :
  (r ← parsePutGetCommand (Some (sample_put "/tmp/a" "k1")) empty_response;
   r ← parsePutGetCommand (Some (sample_put "/tmp/b" "k2")) r;
   Returns (srcLocations r, map queryStageMasterKey (encryptionMaterials r)))
  = Returns (map of_string ["/tmp/a"; "/tmp/b"], map of_string ["k1"; "k2"]).
Proof. vm_compute. reflexivity. Qed.
(** A query that failed leaves no answer in the statement, and its status is not looked at. *)
Example failed_query : parsePutGetCommand None empty_response = Dies.
Proof. reflexivity. Qed.

(** ** Rows of a result *)
Definition sample_files : list FileMetadata :=
  [mk_file (of_string "/data/a.csv") 3 [] 0 (of_string "a.csv.gz") 16 true no_encryption [] (Some NONE) (Some GZIP)].
Definition sample_result : outcome FileTransferExecutionResult :=
  r ← SetFileMetadata 0 0 (new_result UPLOAD 1); SetTransferOutCome SKIP_UPLOAD_FILE 0 r.
Example row_of_put :
  (r ← lift sample_result;
   let '(more, r) := next_result r in
   source ← getColumnAsString sample_files 0 r; size ← getColumnAsString sample_files 3 r; kind ← getColumnAsString sample_files 5 r;
   status ← getColumnAsString sample_files 6 r; beyond ← getColumnAsString sample_files 9 r;
   Returns (more, source, size, kind, status, beyond, fst (next_result r)))
  = Returns (true, Some (of_string "a.csv"), Some (of_string "16"), Some (of_string "gzip"), Some (of_string "SKIPPED"), None, false).
Proof. vm_compute. reflexivity. Qed.
(** Before [next] there is no row; a name is found by the length that is given. *)
Example no_row : (r ← lift sample_result; getColumnAsString sample_files 0 r) = Dies.
Proof. vm_compute. reflexivity. Qed.
Example find_columns :
  map (fun c => findColumnByName (fst c) (snd c) (new_result UPLOAD 1)) [("SOURCE_SIZE", 11%nat); ("source_size", 6%nat); ("x", 0%nat); ("size", 4%nat)]
  = [2; 0; 0; -1].
Proof. vm_compute. reflexivity. Qed.
Example column_range : getColumnName (-1) (new_result DOWNLOAD 1) = Throws (SnowflakeTransferException COLUMN_INDEX_OUT_OF_RANGE).
Proof. reflexivity. Qed.
