(* ===== verification/FileCrypto.v ===== *)
(** * cpp/EncryptionProvider, the digest of FileTransferAgent, and the metadata that goes
    with an encrypted file.

    AES is a class: for each mode and operation a library state as CipherStream has it.
    Both modes pad: [EVP_CIPHER_CTX_set_padding] is called before the [Init], which OpenSSL
    documents as too early ([Init] clears the flag), so that the padding [NONE] of the key's
    cipher has no effect.  Random bytes and SHA-256 are arguments. *)

From S2P Require Import Prelude CLib Base64 CipherStream StreamParts Cpp FileMetadata.

Inductive CryptoMode := CBC | ECB.

Class Aes := {
  aes : CryptoMode -> CryptoOperation -> evp;
  aes_init : forall m o, bytes -> bytes -> evp_state (aes m o)     (* key and IV *)
}.
Definition key_size (n : nat) : bool := (n =? 16)%nat || (n =? 24)%nat || (n =? 32)%nat.
Class AesLaws `{Aes} := {
  encrypt_laws m :: EvpLaws ENCRYPT (aes m ENCRYPT);
  decrypt_laws m :: EvpLaws DECRYPT (aes m DECRYPT);
  encrypt_fresh m k v : evp_kept (aes_init m ENCRYPT k v) = O;
  decrypt_fresh m k v : evp_kept (aes_init m DECRYPT k v) = O;
  aes_encrypts m k v p : key_size (length k) = true -> exists c, whole (aes m ENCRYPT) (aes_init m ENCRYPT k v) p = Some c;
  aes_decrypts m k v v' p c : m = ECB \/ v = v' ->
    whole (aes m ENCRYPT) (aes_init m ENCRYPT k v) p = Some c -> whole (aes m DECRYPT) (aes_init m DECRYPT k v') c = Some p
}.

Section Provider.
  Context `{Aes}.

(** One buffer through a cipher context, into an array of [room] bytes; an unknown key size
    has no cipher. *)
Definition crypt (m : CryptoMode) (o : CryptoOperation) (key v input : bytes) (room : nat) : outcome bytes :=
  if key_size (length key) then
    x ← initialize (aes m o) (aes_init m o key v) o;
    '(x, out) ← next (aes m o) x input;
    if (length out <=? room)%nat then
      '(_, last) ← finalize (aes m o) x;
      if (length (out ++ last) <=? room)%nat then Done (out ++ last) else Undef
    else Undef
  else Undef.

(** A text decoded into a zeroed array; the length is computed apart, and an impossible one
    is the largest [size_t]. *)
Definition decode_array (text : bytes) (room : nat) : outcome bytes :=
  '(_, data) ← decode text (replicate room (chr 0));
  n ← decodedLength_of text;
  if n <=? Z.of_nat room then Done (take (Z.to_nat n) data) else Undef.

Definition set_encryption (e : EncryptionMetadata) (dest : Z) (f : FileMetadata) : FileMetadata :=
  mk_file (srcFileName f) (srcFileSize f) (srcFileToUpload f) (srcFileToUploadSize f) (destFileName f) dest (requireCompress f)
    e (sha256Digest f) (sourceCompression f) (targetCompression f).

Definition populateFileKeyAndIV (random : nat -> bytes) (encryptionMaterial : EncryptionMaterial) (e : EncryptionMetadata) : outcome EncryptionMetadata :=
  n ← decodedLength_of (queryStageMasterKey encryptionMaterial);
  if n <=? 32 then Done (mk_enc (take 16 (random 0%nat)) (take (Z.to_nat n) (random 1%nat)) (enKekEncoded e) (matDesc e) (cipherStreamSize e)) else Undef.

Definition encryptFileKey (encryptionMaterial : EncryptionMaterial) (e : EncryptionMetadata) : outcome EncryptionMetadata :=
  master ← decode_array (queryStageMasterKey encryptionMaterial) 32;
  encryptedFileKey ← crypt ECB ENCRYPT master [] (fileKey e) 32;
  '(_, encoded) ← encode encryptedFileKey (replicate 64 (chr 0));
  Done (mk_enc (iv e) (fileKey e) (take (encodedLength (length encryptedFileKey)) encoded) (matDesc e) (cipherStreamSize e)).

Definition decryptFileKey (encryptionMaterial : EncryptionMaterial) (e : EncryptionMetadata) : outcome EncryptionMetadata :=
  encryptedFileKey ← decode_array (enKekEncoded e) 128;
  master ← decode_array (queryStageMasterKey encryptionMaterial) 32;
  key ← crypt ECB DECRYPT master [] encryptedFileKey 32;
  Done (mk_enc (iv e) key (enKekEncoded e) (matDesc e) (cipherStreamSize e)).

Definition dq : ascii := chr 34.
Definition field (name : string) (value : bytes) : bytes := dq :: of_string name ++ [dq; ":"%char; dq] ++ value ++ [dq].
Definition serializeEncMatDecriptor (encryptionMaterial : EncryptionMaterial) (e : EncryptionMetadata) : EncryptionMetadata :=
  let sep := of_string ", " in
  mk_enc (iv e) (fileKey e) (enKekEncoded e)
    (of_string "{" ++ field "queryId" (queryId encryptionMaterial) ++ sep ++ field "smkId" (to_string (smkId encryptionMaterial)) ++ sep ++
     field "keySize" (to_string (8 * Z.of_nat (length (fileKey e)))) ++ of_string "}")
    (cipherStreamSize e).

Definition initEncryptionMetadata (random : nat -> bytes) (m_encMat : list EncryptionMaterial) (f : FileMetadata) : cpp FileMetadata :=
  mat ← or_throw out_of_range (m_encMat !! 0%nat);
  e ← lift (populateFileKeyAndIV random mat (encryptionMetadata f));
  e ← lift (encryptFileKey mat e);
  let e := serializeEncMatDecriptor mat e in
  let size := u64 (srcFileToUploadSize f + 16) / 16 * 16 in
  Returns (set_encryption (mk_enc (iv e) (fileKey e) (enKekEncoded e) (matDesc e) size) size f).

(** ** The digest *)

Definition CHUNK_SIZE : nat := 65536.
(** [while (fs.read(buffer, CHUNK_SIZE)) next(buffer, CHUNK_SIZE)] *)
Fixpoint digest_loop (fuel : nat) (stream hashed : bytes) : outcome bytes :=
  match fuel with
  | O => NoFuel
  | S fuel =>
      if (CHUNK_SIZE <=? length stream)%nat then digest_loop fuel (drop CHUNK_SIZE stream) (hashed ++ take CHUNK_SIZE stream)
      else Done hashed
  end.
Context (sha256 : bytes -> bytes).
Definition updateFileDigest (content : option bytes) : outcome bytes :=
  let stream := default [] content in
  hashed ← digest_loop (S (length stream)) stream [];
  '(_, digestEncode) ← encode (sha256 hashed) (replicate (encodedLength 32) (chr 0));
  Done (take (encodedLength 32) digestEncode).
End Provider.

(** ** Facts *)

Lemma pads_bound n : (pads n < 3)%nat.
Proof. apply Nat.mod_upper_bound. lia. Qed.

(** The length is that of what was encoded. *)
Lemma decodedLength_base64 l : decodedLength_of (base64 BASE64_INDEX l) = Done (Z.of_nat (length l)).
Proof.
  destruct (decide (l = [])) as [->|Hne]; [done|].
  destruct (base64_split BASE64_INDEX BASE64_REV_INDEX l) as (text & E & Ht). pose proof (pads_bound (length l)) as Hp.
  pose proof (base64_length BASE64_INDEX l) as El. pose proof (base64_nonempty BASE64_INDEX l Hne) as H4.
  assert (length text = (encodedLength (length l) - pads (length l))%nat) as Et
    by (rewrite E, length_app, length_replicate in El; lia).
  assert (encodedLength (length l) = (4 * ((length l + 2) / 3))%nat) as Ee by done.
  unfold decodedLength_of. rewrite El in *.
  destruct (Nat.eqb_spec (encodedLength (length l)) 0); [lia|]. rewrite encodedLength_mod. cbn [Nat.eqb].
  assert (forall i, (i < encodedLength (length l))%nat -> exists c, base64 BASE64_INDEX l !! i = Some c /\
    (c = pad_char <-> (length text <= i)%nat)) as Hc.
  { intros i Hi. destruct (Nat.lt_ge_cases i (length text)) as [Hlt|Hge].
    - destruct (lookup_lt_is_Some_2 text i Hlt) as [c Hc]. exists c. rewrite E, lookup_app_l by done. split; [done|].
      rewrite Forall_lookup in Ht. specialize (Ht i c Hc). split; [done|lia].
    - exists pad_char. rewrite E, lookup_app_r by done. split; [|done]. apply lookup_replicate_2. lia. }
  unfold load. destruct (Hc (encodedLength (length l) - 2)%nat) as (c2 & -> & H2); [lia|]. cbn [deref mbind outcome_bind].
  destruct (Hc (encodedLength (length l) - 1)%nat) as (c1 & -> & H1); [lia|]. cbn [deref mbind outcome_bind].
  assert ((if code c2 =? code pad_char then 2 else if code c1 =? code pad_char then 1 else 0) = Z.of_nat (pads (length l))) as ->.
  { destruct (Z.eqb_spec (code c2) (code pad_char)) as [E2%code_inj|E2].
    - apply H2 in E2. lia.
    - assert (c2 <> pad_char) as N2 by congruence. destruct (Z.eqb_spec (code c1) (code pad_char)) as [E1%code_inj|E1].
      + apply H1 in E1. assert (~ (length text <= encodedLength (length l) - 2)%nat) by tauto. lia.
      + assert (c1 <> pad_char) as N1 by congruence. assert (~ (length text <= encodedLength (length l) - 1)%nat) by tauto. lia. }
  f_equal. rewrite Ee, Nat2Z.inj_mul. change (Z.of_nat 4) with 4. rewrite (Z.mul_comm 4), Z.div_mul by done.
  unfold pads. clear. rewrite Nat2Z.inj_mod, Nat2Z.inj_sub, Nat2Z.inj_mod, Nat2Z.inj_div, Nat2Z.inj_add by (pose proof (Nat.mod_upper_bound (length l) 3); lia).
  change (Z.of_nat 3) with 3. change (Z.of_nat 2) with 2. Z.div_mod_to_equations. lia.
Qed.

Lemma decode_array_spec l room : (length l <= room)%nat -> decode_array (base64 BASE64_INDEX l) room = Done l.
Proof.
  intros Hl. unfold decode_array, decode. rewrite (decodeHelper_spec BASE64_INDEX BASE64_REV_INDEX) by (by rewrite length_replicate). cbn [mbind outcome_bind].
  rewrite decodedLength_base64. cbn [mbind outcome_bind]. destruct (Z.leb_spec (Z.of_nat (length l)) (Z.of_nat room)); [|lia].
  by rewrite Nat2Z.id, take_app_length.
Qed.

(** An encoded text in its array. *)
Lemma encode_array_spec l room : (encodedLength (length l) <= room)%nat ->
  exists n data, encode l (replicate room (chr 0)) = Done (n, data) /\ take (encodedLength (length l)) data = base64 BASE64_INDEX l.
Proof.
  intros Hl. unfold encode. rewrite (encodeHelper_spec BASE64_INDEX BASE64_REV_INDEX) by (by rewrite length_replicate).
  do 2 eexists. split; [done|]. by rewrite <- (base64_length BASE64_INDEX), take_app_length.
Qed.

Section CryptFacts.
  Context `{AesLaws}.

Lemma crypt_spec m o k v input r room `{!EvpLaws o (aes m o)} :
  o <> INVALID -> key_size (length k) = true -> whole (aes m o) (aes_init m o k v) input = Some r -> (length r <= room)%nat ->
  crypt m o k v input room = Done r.
Proof.
  intros Ho Hk Hr Hroom. unfold crypt. rewrite Hk, (initialize_valid _ _ o Ho). cbn [mbind outcome_bind].
  destruct (next_valid o Ho (mk_cipher (aes m o) (aes_init m o k v) o 0 0) input eq_refl) as (i & j & ->). cbn [mbind outcome_bind ctx].
  unfold whole in Hr. destruct (evp_update (aes m o) (aes_init m o k v) input) as [c out]. cbn [fst snd].
  destruct (evp_final (aes m o) c) as [last|] eqn:El; [|done]. injection Hr as <-. rewrite length_app in *.
  destruct (Nat.leb_spec (length out) room); [|lia].
  rewrite (finalize_valid o Ho (mk_cipher (aes m o) c o i j) last eq_refl El). cbn [mbind outcome_bind].
  rewrite length_app. by destruct (Nat.leb_spec (length out + length last) room); [|lia].
Qed.

(** A file's key, encrypted under the master key of the stage, is read back. *)
Lemma file_key_roundtrip master mat e :
  key_size (length master) = true -> queryStageMasterKey mat = base64 BASE64_INDEX master -> length (fileKey e) = 16%nat ->
  exists e', encryptFileKey mat e = Done e' /\ iv e' = iv e /\ fileKey e' = fileKey e /\ matDesc e' = matDesc e /\
    forall e2, enKekEncoded e2 = enKekEncoded e' ->
      decryptFileKey mat e2 = Done (mk_enc (iv e2) (fileKey e) (enKekEncoded e2) (matDesc e2) (cipherStreamSize e2)).
Proof.
  intros Hm Hq Hk. assert (length master <= 32)%nat as Hm32.
  { unfold key_size in Hm. rewrite !orb_true_iff, !Nat.eqb_eq in Hm. lia. }
  destruct (aes_encrypts ECB master [] (fileKey e) Hm) as [c Hc].
  pose proof (encrypted_length _ _ _ (encrypt_fresh ECB master []) Hc) as Hlen. rewrite Hk in Hlen. change ((16 + aes_block) / aes_block * aes_block)%nat with 32%nat in Hlen.
  unfold encryptFileKey. rewrite Hq, decode_array_spec by done. cbn [mbind outcome_bind].
  rewrite (crypt_spec ECB ENCRYPT master [] (fileKey e) c 32); [|done|done|done|lia]. cbn [mbind outcome_bind].
  destruct (encode_array_spec c 64) as (n & data & -> & E); [rewrite Hlen; cbv; lia|]. cbn [mbind outcome_bind].
  eexists. split; [done|]. split_and!; [done..|]. cbn [enKekEncoded]. rewrite E. intros e2 He2.
  unfold decryptFileKey. rewrite He2, decode_array_spec by lia. cbn [mbind outcome_bind].
  rewrite Hq, decode_array_spec by done. cbn [mbind outcome_bind].
  rewrite (crypt_spec ECB DECRYPT master [] c (fileKey e) 32); [done|done|done| |by rewrite Hk; lia].
  by apply (aes_decrypts ECB master [] [] (fileKey e) c (or_introl eq_refl)).
Qed.
End CryptFacts.

(** Only whole chunks are hashed: the rest of the file does not matter. *)
Lemma digest_loop_spec fuel stream hashed : (length stream < fuel)%nat ->
  digest_loop fuel stream hashed = Done (hashed ++ take (length stream / CHUNK_SIZE * CHUNK_SIZE) stream).
Proof.
  revert stream hashed. induction fuel as [|fuel IH]; intros stream hashed Hf; [lia|]. cbn [digest_loop].
  assert (CHUNK_SIZE <> 0)%nat as Hpos by done. assert (0 < CHUNK_SIZE)%nat as Hpos' by (apply Nat.neq_0_lt_0, Hpos).
  destruct (Nat.leb_spec CHUNK_SIZE (length stream)) as [Hge|Hlt].
  - rewrite IH by (rewrite length_drop; lia). rewrite <- app_assoc, length_drop. do 2 f_equal.
    assert (length stream / CHUNK_SIZE = S ((length stream - CHUNK_SIZE) / CHUNK_SIZE))%nat as ->.
    { replace (length stream) with (1 * CHUNK_SIZE + (length stream - CHUNK_SIZE))%nat at 1 by lia. by rewrite Nat.div_add_l by done. }
    cbn [Nat.mul]. by rewrite take_take_drop.
  - by rewrite Nat.div_small, Nat.mul_0_l, app_nil_r by done.
Qed.
Lemma digest_spec sha256 content : (forall s, length (sha256 s) = 32%nat) ->
  updateFileDigest sha256 (Some content) = Done (base64 BASE64_INDEX (sha256 (take (length content / CHUNK_SIZE * CHUNK_SIZE) content))).
Proof.
  intros Hs. unfold updateFileDigest, default, id. rewrite digest_loop_spec by lia. cbn [mbind outcome_bind app].
  destruct (encode_array_spec (sha256 (take (length content / CHUNK_SIZE * CHUNK_SIZE) content)) (encodedLength 32)) as (n & data & E & Et);
    [by rewrite Hs|]. rewrite E. cbn [mbind outcome_bind]. by rewrite <- Et, Hs.
Qed.
