(* ===== verification/S3Client.v ===== *)
(** * cpp/SnowflakeS3Client, and the two functions of FileTransferAgent that move one file.

    S3 is the class [ObjectStore]: its requests over a state of its own.  [GetObject] gives
    the pieces the library writes to the stream it was handed, before it flushes it; a body
    that is sent is read from its stream in pieces of [request_reads].  A part's etag stands
    for the part.  The threads of a large file run by a schedule; one that does not bring
    the main thread through [WaitAll] leaves the call [Unfinished]. *)

From S2P Require Import Prelude CLib Base64 CipherStream ThreadPool StreamParts Cpp FileMetadata FileCrypto.

Abbreviation metadata := (gmap bytes bytes).
(** The files of the local disk. *)
Abbreviation disk := (gmap bytes bytes).
(** An error, by its exception name. *)
Abbreviation S3Error := string.

Class ObjectStore (St : Type) := {
  HeadObject : St -> bytes -> bytes -> S3Error + (Z * metadata);
  PutObject : St -> bytes -> bytes -> metadata -> bytes -> St * option S3Error;
  GetObject : St -> bytes -> bytes -> option (Z * Z) -> option S3Error * list bytes;
  CreateMultipartUpload : St -> bytes -> bytes -> metadata -> St * (S3Error + bytes);
  UploadPart : St -> bytes -> nat -> bytes -> option S3Error;
  CompleteMultipartUpload : St -> bytes -> bytes -> bytes -> list (nat * bytes) -> St * option S3Error
}.

Section Client.
  Context {St : Type} `{ObjectStore St} `{Aes}.
  (** The threshold is [DATA_SIZE_THRESHOLD]; [m_parallel] the threads of the client;
      [m_stage_location] the location of the stage. *)
  Context (threshold : Z) (m_parallel : nat) (m_stage_location : bytes) (request_reads : nat -> list nat).

Definition handleError (error : S3Error) : RemoteStorageRequestOutcome := if String.eqb error "ExpiredToken" then TOKEN_EXPIRED else FAILED.
Definition outcome_of (error : option S3Error) : RemoteStorageRequestOutcome :=
  match error with None => SUCCESS | Some e => handleError e end.

Definition extractBucketAndKey (fileFullPath : bytes) : cpp (bytes * bytes) :=
  let sepIndex := find_first_of "/"%char fileFullPath in
  bucket ← substr 0 sepIndex fileFullPath;
  key ← substr (after sepIndex) None fileFullPath;
  Returns (bucket, key).

Definition AMZ_KEY : bytes := of_string "x-amz-key".
Definition AMZ_IV : bytes := of_string "x-amz-iv".
Definition AMZ_MATDESC : bytes := of_string "x-amz-matdesc".
Definition SFC_DIGEST : bytes := of_string "sfc-digest".

(** [insert] does not replace what is there. *)
Definition map_insert (k v : bytes) (m : metadata) : metadata := match m !! k with Some _ => m | None => <[k := v]> m end.
Definition addUserMetadata (f : FileMetadata) : outcome metadata :=
  let e := encryptionMetadata f in
  '(_, ivEncoded) ← encode (iv e) (replicate 64 (chr 0));
  Done (map_insert SFC_DIGEST (sha256Digest f) (map_insert AMZ_IV (take (encodedLength 16) ivEncoded)
         (map_insert AMZ_MATDESC (matDesc e) (map_insert AMZ_KEY (enKekEncoded e) ∅)))).

(** *** Uploading *)

#[local] Abbreviation input_stream := (CipherStreamBuf (aes CBC ENCRYPT)).
#[local] Abbreviation output_stream := (CipherStreamBuf (aes CBC DECRYPT)).

Definition doSingleUpload (f : FileMetadata) (dataStream : input_stream) (st : St) : cpp (St * RemoteStorageRequestOutcome) :=
  userMetadata ← lift (addUserMetadata f);
  '(bucket, key) ← extractBucketAndKey (m_stage_location ++ destFileName f);
  let contentLength := Z.to_nat (cipherStreamSize (encryptionMetadata f)) in
  '(body, _) ← lift (reads FILE_ENCRYPTION_BLOCK_SIZE (request_reads contentLength) dataStream);
  let '(st, error) := PutObject st bucket key userMetadata (take contentLength body) in
  Returns (st, outcome_of error).

(** The pool's run to the end of the main thread's calls. *)
Definition finish {W Sh} (r : option (pool W Sh)) : cpp Sh :=
  match r with
  | Some s => match prog s with [] => Returns (shared s) | _ => Unfinished end
  | None => Unfinished
  end.

(** Under the splitter's lock each thread reads the next [threshold] bytes, whichever it is:
    together they read this. *)
Definition doMultiPartUpload (es : list event) (f : FileMetadata) (dataStream : input_stream) (st : St) : cpp (St * RemoteStorageRequestOutcome) :=
  userMetadata ← lift (addUserMetadata f);
  '(bucket, key) ← extractBucketAndKey (m_stage_location ++ destFileName f);
  let '(st, created) := CreateMultipartUpload st bucket key userMetadata in
  match created with
  | inl error => Returns (st, handleError error)
  | inr uploadId =>
      let size := cipherStreamSize (encryptionMetadata f) in
      let totalParts := getTotalParts threshold size in
      '(input, _) ← lift (reads FILE_ENCRYPTION_BLOCK_SIZE (replicate totalParts (Z.to_nat threshold)) dataStream);
      s ← finish (upload_run threshold (fun n part => outcome_of (UploadPart st uploadId n part)) es
                    (StreamParts.doMultiPartUpload threshold m_parallel input size));
      if s_crashed s then Dies
      else
        match upload_failure s with
        | Some failed => Returns (st, failed)
        | None =>
            let parts := imap (fun i o => (i + 1, match o with Some (part, _) => part | None => [] end))%nat (sent s) in
            let '(st, error) := CompleteMultipartUpload st bucket key uploadId parts in
            Returns (st, outcome_of error)
        end
  end.

Definition upload (es : list event) (f : FileMetadata) (dataStream : input_stream) (st : St) : cpp (St * RemoteStorageRequestOutcome) :=
  '(bucket, key) ← extractBucketAndKey (m_stage_location ++ destFileName f);
  skip ← (match HeadObject st bucket key with
          | inr (_, m) => sfcDigest ← or_throw out_of_range (m !! SFC_DIGEST); Returns (bool_decide (sfcDigest = sha256Digest f))
          | inl _ => Returns false
          end);
  if skip : bool then Returns (st, SKIP_UPLOAD_FILE)
  else if srcFileSize f >? threshold then doMultiPartUpload es f dataStream st
  else doSingleUpload f dataStream st.

(** *** Downloading *)

Definition GetRemoteFileMetadata (filePathFull : bytes) (f : FileMetadata) (st : St) : cpp (RemoteStorageRequestOutcome * FileMetadata) :=
  '(bucket, key) ← extractBucketAndKey filePathFull;
  match HeadObject st bucket key with
  | inr (contentLength, m) =>
      ivText ← or_throw out_of_range (m !! AMZ_IV);
      '(_, iv_data) ← lift (decode ivText (replicate 16 (chr 0)));
      kek ← or_throw out_of_range (m !! AMZ_KEY);
      let e := encryptionMetadata f in
      Returns (SUCCESS, mk_file (srcFileName f) contentLength (srcFileToUpload f) (srcFileToUploadSize f) (destFileName f) (destFileSize f)
                          (requireCompress f) (mk_enc iv_data (fileKey e) kek (matDesc e) (cipherStreamSize e)) (sha256Digest f)
                          (sourceCompression f) (targetCompression f))
  | inl error => Returns (handleError error, f)
  end.

Definition doSingleDownload (f : FileMetadata) (dataStream : output_stream) (st : St) : cpp (RemoteStorageRequestOutcome * output_stream) :=
  '(bucket, key) ← extractBucketAndKey (srcFileName f);
  let '(error, pieces) := GetObject st bucket key None in
  '(_, dataStream) ← lift (writes FILE_ENCRYPTION_BLOCK_SIZE pieces dataStream);
  Returns (outcome_of error, dataStream).

(** The parts are written one behind the other, and flushed with the last. *)
Definition doMultiPartDownload (es : list event) (f : FileMetadata) (dataStream : output_stream) (st : St) : cpp (RemoteStorageRequestOutcome * output_stream) :=
  '(bucket, key) ← extractBucketAndKey (srcFileName f);
  let get first last := let '(error, pieces) := GetObject st bucket key (Some (first, last)) in (outcome_of error, concat pieces) in
  a ← finish (download_run threshold (srcFileSize f) get es (StreamParts.doMultiPartDownload threshold (srcFileSize f) m_parallel));
  if crashed a then Dies
  else
    dataStream ← lift (if m_flushed a then '(_, s) ← writes FILE_ENCRYPTION_BLOCK_SIZE [m_outputStream a] dataStream; Done s
                       else '(_, s) ← sputn _ FILE_ENCRYPTION_BLOCK_SIZE (m_outputStream a) dataStream; Done s);
    result ← lift (deref (download_outcome a));
    Returns (result, dataStream).

Definition download (es : list event) (f : FileMetadata) (dataStream : output_stream) (st : St) : cpp (RemoteStorageRequestOutcome * output_stream) :=
  if srcFileSize f >? threshold then doMultiPartDownload es f dataStream st else doSingleDownload f dataStream st.

(** ** FileTransferAgent: one file

    [fs] is the disk, [space] what it has room for; [gzip] is zlib through
    CompressionUtil::compressWithGzip, which may refuse; [tmp_dir] is [sf_get_tmp_dir]. *)

Context (gzip : bytes -> option bytes) (sha256 : bytes -> bytes) (tmp_dir : bytes).

Definition set_upload (path : bytes) (size : Z) (f : FileMetadata) : FileMetadata :=
  mk_file (srcFileName f) (srcFileSize f) path size (destFileName f) (destFileSize f) (requireCompress f)
    (encryptionMetadata f) (sha256Digest f) (sourceCompression f) (targetCompression f).
Definition set_digest (d : bytes) (f : FileMetadata) : FileMetadata :=
  mk_file (srcFileName f) (srcFileSize f) (srcFileToUpload f) (srcFileToUploadSize f) (destFileName f) (destFileSize f) (requireCompress f)
    (encryptionMetadata f) d (sourceCompression f) (targetCompression f).

(** A source that does not open is a NULL [FILE *]. *)
Definition compressSourceFile (f : FileMetadata) (fs : disk) : cpp (FileMetadata * disk) :=
  let stagingFile := tmp_dir ++ destFileName f in
  source ← lift (deref (fs !! srcFileName f));
  compressed ← or_throw (SnowflakeTransferException COMPRESSION_ERROR) (gzip source);
  Returns (set_upload stagingFile (Z.of_nat (length compressed)) f, <[stagingFile := compressed]> fs).

Definition cipher_stream (o : CryptoOperation) (e : EncryptionMetadata) (source : bytes) (space : nat) : outcome (CipherStreamBuf (aes CBC o)) :=
  if key_size (length (fileKey e)) then open_stream (aes CBC o) (aes_init CBC o (fileKey e) (iv e)) o source space else Undef.

Definition uploadSingleFile (random : nat -> bytes) (m_encMat : list EncryptionMaterial) (es : list event)
    (f : FileMetadata) (fs : disk) (st : St) : cpp (St * disk * FileMetadata * RemoteStorageRequestOutcome) :=
  '(f, fs) ← (if requireCompress f then compressSourceFile f fs else Returns (set_upload (srcFileName f) (srcFileSize f) f, fs));
  digest ← lift (updateFileDigest sha256 (fs !! srcFileToUpload f));
  f ← initEncryptionMetadata random m_encMat (set_digest digest f);
  stream ← lift (cipher_stream ENCRYPT (encryptionMetadata f) (default [] (fs !! srcFileToUpload f)) 0);
  '(st, outcome) ← upload es f stream st;
  let fs := if requireCompress f then delete (srcFileToUpload f) fs else fs in
  Returns (st, fs, f, outcome).

(** The destination is created, and holds what the cipher stream wrote. *)
Definition downloadSingleFile (localLocation : bytes) (space : nat) (es : list event) (f : FileMetadata) (fs : disk) (st : St)
  : cpp (disk * RemoteStorageRequestOutcome) :=
  let dstNameFull := localLocation ++ of_string "/" ++ destFileName f in
  stream ← lift (cipher_stream DECRYPT (encryptionMetadata f) [] space);
  '(outcome, stream) ← download es f stream st;
  Returns (<[dstNameFull := sink stream]> fs, outcome).

(** FileMetadataInitializer::populateSrcLocDownloadMetadata; [None]: nothing was listed. *)
Definition populateSrcLocDownloadMetadata (sourceLocation remoteLocation : bytes) (encMat : EncryptionMaterial) (l : FileLists) (st : St)
  : cpp (RemoteStorageRequestOutcome * FileLists) :=
  let fullPath := remoteLocation ++ sourceLocation in
  dstFileName ← substr (after (find_last_of "/"%char fullPath)) None fullPath;
  '(outcome, f) ← GetRemoteFileMetadata fullPath new_file st;
  if bool_decide (outcome = SUCCESS) then
    e ← lift (decryptFileKey encMat (encryptionMetadata f));
    let f := mk_file fullPath (srcFileSize f) (srcFileToUpload f) (srcFileToUploadSize f) dstFileName (destFileSize f) (requireCompress f)
               e (sha256Digest f) (sourceCompression f) (targetCompression f) in
    let large := srcFileSize f >? threshold in
    Returns (outcome, if large then mk_lists (m_smallFilesMeta l) (m_largeFilesMeta l ++ [f])
                      else mk_lists (m_smallFilesMeta l ++ [f]) (m_largeFilesMeta l))
  else Returns (outcome, l).
End Client.

(** ** A healthy S3 *)

Class StoreLaws (St : Type) `{ObjectStore St} := {
  (** an object is there, with its metadata and its bytes *)
  stored : St -> bytes -> bytes -> metadata -> bytes -> Prop;
  stored_head st b k m body : stored st b k m body -> HeadObject st b k = inr (Z.of_nat (length body), m);
  stored_get st b k m body : stored st b k m body -> exists pieces, GetObject st b k None = (None, pieces) /\ concat pieces = body;
  stored_range st b k m body first last :
    stored st b k m body -> 0 <= first <= last -> last < Z.of_nat (length body) ->
    exists pieces, GetObject st b k (Some (first, last)) = (None, pieces) /\
      concat pieces = take (Z.to_nat (last - first + 1)) (drop (Z.to_nat first) body);
  put_stores st b k m body : exists st', PutObject st b k m body = (st', None) /\ stored st' b k m body;
  create_stores st b k m : exists st1 id, CreateMultipartUpload st b k m = (st1, inr id) /\
    (forall n part, UploadPart st1 id n part = None) /\
    forall parts, map fst parts = seq 1 (length parts) ->
      exists st2, CompleteMultipartUpload st1 b k id parts = (st2, None) /\ stored st2 b k m (concat (map snd parts))
}.

Section RoundTrip.
  Context {St : Type} `{StoreLaws St} `{AesLaws}.
  Context (threshold : Z) (m_parallel : nat) (location : bytes) (request_reads : nat -> list nat).
  Hypothesis threshold_range : 0 < threshold < 2 ^ 31.
  Hypothesis parallel_range : (0 < m_parallel)%nat /\ Z.of_nat m_parallel < 2 ^ 32.
  Hypothesis reads_enough : forall n, (n <= list_sum (request_reads n))%nat.
Let T := Z.to_nat threshold.

(** Every schedule that ends the call ends it so, and one does. *)
Definition settles {A} (c : list event -> cpp A) (P : A -> Prop) : Prop :=
  (forall es, c es = Unfinished \/ exists a, c es = Returns a /\ P a) /\ exists es, c es <> Unfinished.
Lemma settles_at {A} (c : list event -> cpp A) a (P : A -> Prop) : (forall es, c es = Returns a) -> P a -> settles c P.
Proof. intros Hc HP. split; [intros es; right; by exists a|]. exists []. by rewrite Hc. Qed.
Lemma settles_then {A B} (c : list event -> cpp A) (d : list event -> cpp B) (f : A -> cpp B) (Q : A -> Prop) (P : B -> Prop) :
  settles c Q -> (forall es, d es = c es ≫= f) -> (forall a, Q a -> exists b, f a = Returns b /\ P b) -> settles d P.
Proof.
  intros [Hall [es Hes]] Hd Hf. split.
  - intros es'. rewrite Hd. destruct (Hall es') as [->|(a & -> & Ha)]; [by left|]. right. by apply Hf.
  - exists es. rewrite Hd. destruct (Hall es) as [|(a & -> & Ha)]; [done|]. destruct (Hf a Ha) as (b & E & _). cbn. by rewrite E.
Qed.
Lemma settles_mono {A} (c : list event -> cpp A) (Q P : A -> Prop) : settles c Q -> (forall a, Q a -> P a) -> settles c P.
Proof. intros [Hall Hes] HQ. split; [|done]. intros es. destruct (Hall es) as [|(a & E & Ha)]; [by left|]. right. exists a. auto. Qed.
Lemma settles_run {W Sh} (r : list event -> option (pool W Sh)) (P : Sh -> Prop) :
  (forall es s, r es = Some s -> prog s = [] -> P (shared s)) -> (exists es s, r es = Some s /\ prog s = []) ->
  settles (fun es => finish (r es)) P.
Proof.
  intros Hall (es & s & Hr & Hp). split.
  - intros es'. destruct (r es') as [s'|] eqn:E; [|by left]. cbn. destruct (prog s') eqn:Ep; [|by left]. right. eexists. split; [done|]. by eapply Hall.
  - exists es. rewrite Hr. cbn. by rewrite Hp.
Qed.

(** *** The stream that encrypts *)

Lemma encrypting key v plain cipher :
  key_size (length key) = true -> whole (aes CBC ENCRYPT) (aes_init CBC ENCRYPT key v) plain = Some cipher ->
  exists s, open_stream (aes CBC ENCRYPT) (aes_init CBC ENCRYPT key v) ENCRYPT plain 0 = Done s /\
    forall ns, (length cipher <= list_sum ns)%nat -> exists s', reads FILE_ENCRYPTION_BLOCK_SIZE ns s = Done (cipher, s').
Proof.
  intros Hk Hc. assert (0 < FILE_ENCRYPTION_BLOCK_SIZE)%nat as Hpos by (unfold FILE_ENCRYPTION_BLOCK_SIZE; lia).
  destruct (open_readable (E := aes CBC ENCRYPT) ENCRYPT _ ltac:(done) Hpos (aes_init CBC ENCRYPT key v) plain (encrypt_fresh CBC key v)) as (s & -> & Hs & Hr). exists s. split; [done|].
  intros ns Hns. rewrite Hc in Hr. destruct (reads_spec (E := aes CBC ENCRYPT) ENCRYPT _ ltac:(done) Hpos ns s cipher Hs Hr) as (s' & -> & _).
  exists s'. by rewrite take_ge.
Qed.

Lemma decrypting key v plain cipher space pieces :
  whole (aes CBC DECRYPT) (aes_init CBC DECRYPT key v) cipher = Some plain -> cipher <> [] ->
  (length cipher + aes_block <= space)%nat -> concat pieces = cipher ->
  exists s s', open_stream (aes CBC DECRYPT) (aes_init CBC DECRYPT key v) DECRYPT [] space = Done s /\
    writes FILE_ENCRYPTION_BLOCK_SIZE pieces s = Done (true, s') /\ sink s' = plain.
Proof.
  intros Hp Hne Hspace Hpieces. assert (0 < FILE_ENCRYPTION_BLOCK_SIZE)%nat as Hpos by (unfold FILE_ENCRYPTION_BLOCK_SIZE; lia).
  destruct (open_writable (E := aes CBC DECRYPT) DECRYPT _ ltac:(done) Hpos (aes_init CBC DECRYPT key v) space (decrypt_fresh CBC key v)) as (s & -> & Hs & Hroom & Hsink).
  destruct (writes_spec (E := aes CBC DECRYPT) DECRYPT _ ltac:(done) Hpos (aes_init CBC DECRYPT key v) pieces [] s plain (decrypt_fresh CBC key v)) as (s' & E & Es); cbn [app]; rewrite ?Hpieces; try done.
  - rewrite Hroom, Hsink. cbn. lia.
  - by exists s, s'.
Qed.
(** *** Requests *)

Lemma metadata_spec f : length (iv (encryptionMetadata f)) = 16%nat ->
  exists m, addUserMetadata f = Done m /\ m !! AMZ_IV = Some (base64 BASE64_INDEX (iv (encryptionMetadata f))) /\
    m !! AMZ_KEY = Some (enKekEncoded (encryptionMetadata f)) /\ m !! SFC_DIGEST = Some (sha256Digest f).
Proof.
  intros Hiv. unfold addUserMetadata. destruct (encode_array_spec (iv (encryptionMetadata f)) 64) as (n & data & -> & E); [rewrite Hiv; cbv; lia|].
  cbn [mbind outcome_bind]. rewrite Hiv in E. rewrite E. eexists. split; [done|].
  assert (forall k v (m : metadata), m !! k = None -> map_insert k v m = <[k := v]> m) as Hins by (intros k v m Hm; unfold map_insert; by rewrite Hm).
  assert (AMZ_KEY <> AMZ_MATDESC /\ AMZ_KEY <> AMZ_IV /\ AMZ_KEY <> SFC_DIGEST /\ AMZ_MATDESC <> AMZ_IV /\ AMZ_MATDESC <> SFC_DIGEST /\
    AMZ_IV <> SFC_DIGEST) as (N1 & N2 & N3 & N4 & N5 & N6) by (split_and!; by vm_compute).
  rewrite (Hins AMZ_KEY) by apply lookup_empty. rewrite (Hins AMZ_MATDESC) by (by simplify_map_eq).
  rewrite (Hins AMZ_IV) by (by simplify_map_eq). rewrite (Hins SFC_DIGEST) by (by simplify_map_eq).
  split_and!; by simplify_map_eq.
Qed.

Lemma extract_spec path : exists b k, extractBucketAndKey path = Returns (b, k).
Proof.
  unfold extractBucketAndKey. destruct (find_first_of "/"%char path) as [i|] eqn:E; cbn [after].
  - rewrite substr_prefix. cbn [mbind cpp_bind]. destruct (find_first_Some _ _ _ E) as [Es _]. apply (f_equal length) in Es.
    rewrite length_app, length_take in Es. cbn [length] in Es. rewrite substr_rest by lia. by do 2 eexists.
  - unfold substr. cbn. by do 2 eexists.
Qed.

Lemma single_upload f stream st m b k cipher :
  addUserMetadata f = Done m -> extractBucketAndKey (location ++ destFileName f) = Returns (b, k) ->
  cipherStreamSize (encryptionMetadata f) = Z.of_nat (length cipher) ->
  (forall ns, (length cipher <= list_sum ns)%nat -> exists s', reads FILE_ENCRYPTION_BLOCK_SIZE ns stream = Done (cipher, s')) ->
  exists st', doSingleUpload location request_reads f stream st = Returns (st', SUCCESS) /\ stored st' b k m cipher.
Proof.
  intros Hm Hbk Hsize Hreads. unfold doSingleUpload. rewrite Hm, Hbk, Hsize, Nat2Z.id. cbn [lift mbind cpp_bind].
  destruct (Hreads (request_reads (length cipher)) (reads_enough _)) as [s' ->]. cbn [lift mbind cpp_bind].
  rewrite take_ge by done. destruct (put_stores st b k m cipher) as (st' & -> & Hst). by exists st'.
Qed.

Lemma failure_none parts (l : list bytes) : parts = map (fun p => Some (p, SUCCESS)) l -> forall s, sent s = parts -> upload_failure s = None.
Proof. intros -> s Hs. unfold upload_failure. rewrite Hs. clear. induction l as [|p l IH]; [done|]. exact IH. Qed.

Lemma numbered_parts (l : list bytes) d :
  let parts := imap (fun i o => (i + d, match o with Some (part, _) => part | None => [] end))%nat (map (fun p : bytes => Some (p, SUCCESS)) l) in
  map fst parts = seq d (length l) /\ map snd parts = l.
Proof.
  cbv zeta. revert d. induction l as [|p l IH]; intros d; [done|]. cbn [map]. rewrite imap_cons. cbn [map fst snd length seq].
  destruct (IH (S d)) as [E1 E2].
  assert (imap ((fun i o => (i + d, match o with Some (part, _) => part | None => [] end))%nat ∘ S) (map (fun p : bytes => Some (p, SUCCESS)) l) =
    imap (fun i o => (i + S d, match o with Some (part, _) => part | None => [] end))%nat (map (fun p : bytes => Some (p, SUCCESS)) l)) as ->.
  { apply imap_ext. intros i o _. cbn. f_equal. lia. }
  by rewrite E1, E2.
Qed.

Lemma uploads_settle ask (cipher : bytes) :
  let size := Z.of_nat (length cipher) in
  settles (fun es => finish (upload_run threshold ask es (StreamParts.doMultiPartUpload threshold m_parallel cipher size)))
    (fun s => s_crashed s = false /\ sent s = map (fun q => Some (sent_part threshold ask cipher q)) (seq 0 (getTotalParts threshold size))).
Proof.
  intros size. set (total := getTotalParts threshold size).
  pose proof (upload_jobs threshold ask m_parallel cipher total ltac:(lia)) as Hjobs. apply settles_run.
  - intros es s Er Ep. destruct (batch_runs (Hjobs := Hjobs) (seq 0 total) (StreamSplitter threshold cipher m_parallel total) parallel_range
      (upload_inv_init _ _ _ _ _)) as [bound Hrun].
    destruct (Hrun es s Er) as (Hinv & Hover & _). destruct (Hover Ep) as [Htodo Hidle]. rewrite Htodo in Hinv.
    split; [apply (u_safe _ _ _ _ _ _ _ _ Hinv)|]. by apply (upload_inv_over _ _ _ _ _ _ _ Hinv Hidle).
  - apply (batch_ends (Hjobs := Hjobs) (seq 0 total) (StreamSplitter threshold cipher m_parallel total) parallel_range (upload_inv_init _ _ _ _ _)).
    intros q rs sh i w _ Hw. exists i, w. split; [done|]. by destruct w.
Qed.

Lemma multi_upload f stream st m b k cipher :
  addUserMetadata f = Done m -> extractBucketAndKey (location ++ destFileName f) = Returns (b, k) ->
  cipherStreamSize (encryptionMetadata f) = Z.of_nat (length cipher) ->
  (forall ns, (length cipher <= list_sum ns)%nat -> exists s', reads FILE_ENCRYPTION_BLOCK_SIZE ns stream = Done (cipher, s')) ->
  settles (fun es => doMultiPartUpload threshold m_parallel location es f stream st)
    (fun r => snd r = SUCCESS /\ stored (fst r) b k m cipher).
Proof.
  intros Hm Hbk Hsize Hreads. unfold doMultiPartUpload. rewrite Hm, Hbk, Hsize. cbn [lift mbind cpp_bind].
  destruct (create_stores st b k m) as (st1 & id & -> & Hpart & Hcomplete).
  set (total := getTotalParts threshold (Z.of_nat (length cipher))). pose proof (getTotalParts_enough threshold cipher ltac:(lia)) as Henough.
  assert (forall c x, list_sum (replicate c x) = (c * x)%nat) as Hsum by (intros c x; induction c as [|c IH]; [done|]; cbn; unfold list_sum in IH; by rewrite IH).
  destruct (Hreads (replicate total (Z.to_nat threshold))) as [s' ->]; [by rewrite Hsum|]. cbn [lift mbind cpp_bind].
  set (ask := fun n part => outcome_of (UploadPart st1 id n part)).
  assert (forall n part, ask n part = SUCCESS) as Hask by (intros n part; unfold ask; by rewrite Hpart).
  eapply settles_then; [apply (uploads_settle ask cipher)|intros es; reflexivity|]. intros sp [Hsafe Hsent]. cbv beta. rewrite Hsafe.
  assert (sent sp = map (fun p => Some (p, SUCCESS)) (map (part T cipher) (seq 0 total))) as Hsent'.
  { rewrite Hsent, map_map. apply map_ext. intros q. unfold sent_part. by rewrite Hask. }
  rewrite (failure_none _ _ eq_refl sp Hsent').
  set (parts := imap _ (sent sp)).
  assert (map fst parts = seq 1 (length parts) /\ map snd parts = map (part T cipher) (seq 0 total)) as [Hnum Hparts].
  { unfold parts. rewrite Hsent'. destruct (numbered_parts (map (part T cipher) (seq 0 total)) 1) as [E1 E2].
    split; [|exact E2]. rewrite length_imap, length_map. exact E1. }
  destruct (Hcomplete parts Hnum) as (st2 & -> & Hst2). eexists. split; [done|]. split; [done|].
  rewrite Hparts in Hst2. by rewrite parts_whole in Hst2.
Qed.

Lemma single_download f st m b k key v plain cipher space stream :
  stored st b k m cipher -> extractBucketAndKey (srcFileName f) = Returns (b, k) -> cipher <> [] ->
  whole (aes CBC DECRYPT) (aes_init CBC DECRYPT key v) cipher = Some plain -> (length cipher + aes_block <= space)%nat ->
  open_stream (aes CBC DECRYPT) (aes_init CBC DECRYPT key v) DECRYPT [] space = Done stream ->
  exists stream', doSingleDownload f stream st = Returns (SUCCESS, stream') /\ sink stream' = plain.
Proof.
  intros Hst Hbk Hne Hp Hspace Hopen. unfold doSingleDownload. rewrite Hbk. cbn [mbind cpp_bind].
  destruct (stored_get st b k m cipher Hst) as (pieces & -> & Hpieces).
  destruct (decrypting key v plain cipher space pieces Hp Hne Hspace Hpieces) as (s & s' & Hs & Hw & Hsink).
  rewrite Hs in Hopen. injection Hopen as <-. rewrite Hw. cbn. by exists s'.
Qed.

Lemma downloads_settle get (cipher : bytes) :
  let size := Z.of_nat (length cipher) in
  size < 2 ^ 32 -> size mod threshold <> 0 ->
  (forall a c, 0 <= a <= c -> c < size -> get a c = (SUCCESS, take (Z.to_nat (c - a + 1)) (drop (Z.to_nat a) cipher))) ->
  settles (fun es => finish (download_run threshold size get es (StreamParts.doMultiPartDownload threshold size m_parallel)))
    (fun s => crashed s = false /\ m_outputStream s = cipher /\ m_flushed s = true /\ download_outcome s = Some SUCCESS).
Proof.
  intros size H32 Hmod Hget. set (N := partNum threshold size).
  assert (forall a c, 0 <= a <= c -> c < size -> fst (get a c) = SUCCESS ->
    snd (get a c) = take (Z.to_nat (c - a + 1)) (drop (Z.to_nat a) cipher)) as Hhonest by (intros a c Ha Hc _; by rewrite Hget).
  assert (forall i, (i < N)%nat -> succeeds threshold cipher get i) as Hall.
  { intros i Hi. pose proof (partNum_bounds threshold cipher threshold_range) as [Hlo Hhi]. fold size N in Hlo, Hhi.
    destruct (part_start threshold cipher threshold_range H32 i Hi) as [Hs Hu]. fold size in Hs.
    unfold succeeds, answer. fold size. rewrite Hget; [done|..]; unfold range_first, range_last; fold N; rewrite ?Hu.
    - destruct (Nat.eqb_spec i (N - 1)) as [->|Hlt]; [|rewrite wrapU_small by nia; nia].
      split; [lia|]. assert (Z.of_nat (N - 1) * threshold <> size); [|lia]. intros E. apply Hmod. rewrite <- E. apply Z.mod_mul. lia.
    - destruct (Nat.eqb_spec i (N - 1)) as [->|Hlt]; [lia|]. rewrite wrapU_small by nia. nia. }
  pose proof (download_jobs threshold cipher get m_parallel threshold_range H32 Hhonest) as Hjobs. apply settles_run.
  - intros es s Er Ep. destruct (batch_runs (Hjobs := Hjobs) (seq 0 N) (StreamAppender threshold size m_parallel) parallel_range
      (download_inv_init _ _ _ _ threshold_range)) as [bound Hrun].
    destruct (Hrun es s Er) as (Hinv & Hover & _). destruct (Hover Ep) as [Htodo Hidle]. rewrite Htodo in Hinv.
    by destruct (download_whole threshold cipher get m_parallel threshold_range _ _ Hinv Hidle Hall) as (Hsafe & Hout & Hfl & Hres).
  - apply (batch_ends (Hjobs := Hjobs) (seq 0 N) (StreamAppender threshold size m_parallel) parallel_range (download_inv_init _ _ _ _ threshold_range)).
    apply (download_unblocked threshold cipher get m_parallel threshold_range). intros i j Hij _. apply Hall. fold size N in Hij. lia.
Qed.

Lemma multi_download f st m b k key v plain cipher space stream :
  stored st b k m cipher -> extractBucketAndKey (srcFileName f) = Returns (b, k) -> cipher <> [] ->
  whole (aes CBC DECRYPT) (aes_init CBC DECRYPT key v) cipher = Some plain -> (length cipher + aes_block <= space)%nat ->
  open_stream (aes CBC DECRYPT) (aes_init CBC DECRYPT key v) DECRYPT [] space = Done stream ->
  srcFileSize f = Z.of_nat (length cipher) -> Z.of_nat (length cipher) < 2 ^ 32 -> Z.of_nat (length cipher) mod threshold <> 0 ->
  settles (fun es => doMultiPartDownload threshold m_parallel es f stream st) (fun r => fst r = SUCCESS /\ sink (snd r) = plain).
Proof.
  intros Hst Hbk Hne Hp Hspace Hopen Hsize H32 Hmod. unfold doMultiPartDownload. rewrite Hbk, Hsize. cbn [mbind cpp_bind].
  set (get := fun first last => let '(error, pieces) := GetObject st b k (Some (first, last)) in (outcome_of error, concat pieces)).
  eapply settles_then; [apply (downloads_settle get cipher H32 Hmod)|intros es; reflexivity|].
  - intros a c Ha Hc. unfold get. destruct (stored_range st b k m cipher a c Hst Ha Hc) as (pieces & -> & ->). done.
  - intros s (Hsafe & Hout & Hfl & Hres). cbv beta.
    rewrite Hsafe, Hout, Hfl, Hres. destruct (decrypting key v plain cipher space [cipher] Hp Hne Hspace (app_nil_r _)) as (s1 & s2 & Hs1 & Hw & Hsink).
    rewrite Hs1 in Hopen. injection Hopen as <-. rewrite Hw. cbn. by eexists.
Qed.

(** *** One file there *)

Context (mat : EncryptionMaterial) (master : bytes).
Hypothesis master_key : queryStageMasterKey mat = base64 BASE64_INDEX master /\ length master = 16%nat.

(** What an encrypted file carries. *)
Record encrypted (plain : bytes) (e : EncryptionMetadata) : Prop := {
  e_iv : length (iv e) = 16%nat;
  e_key : length (fileKey e) = 16%nat;
  e_size : cipherStreamSize e = Z.of_nat ((length plain + aes_block) / aes_block * aes_block);
  e_kek : forall e2, enKekEncoded e2 = enKekEncoded e ->
    decryptFileKey mat e2 = Done (mk_enc (iv e2) (fileKey e) (enKekEncoded e2) (matDesc e2) (cipherStreamSize e2))
}.

Lemma init_encryption random mats f plain :
  mats !! 0%nat = Some mat -> (16 <= length (random 0))%nat -> (16 <= length (random 1))%nat ->
  srcFileToUploadSize f = Z.of_nat (length plain) -> Z.of_nat (length plain) + 16 < 2 ^ 64 ->
  exists e, initEncryptionMetadata random mats f = Returns (set_encryption e (cipherStreamSize e) f) /\ encrypted plain e.
Proof.
  intros Hmat H0' H1' Hsize Hlt. destruct master_key as [Hq Hm]. unfold initEncryptionMetadata. rewrite Hmat. cbn [or_throw mbind cpp_bind].
  unfold populateFileKeyAndIV. rewrite Hq, decodedLength_base64, Hm. cbn [lift mbind outcome_bind cpp_bind].
  change (Z.of_nat 16 <=? 32) with true. cbn [lift mbind cpp_bind]. change (Z.to_nat (Z.of_nat 16)) with 16%nat.
  set (e0 := mk_enc _ _ _ _ _). destruct (file_key_roundtrip master mat e0) as (e1 & -> & Hiv & Hkey & _ & Hdec);
    [by rewrite Hm|done|unfold e0; cbn [fileKey]; rewrite length_take; lia|]. cbn [lift mbind cpp_bind].
  set (e2 := serializeEncMatDecriptor mat e1).
  exists (mk_enc (iv e2) (fileKey e2) (enKekEncoded e2) (matDesc e2) (u64 (srcFileToUploadSize f + 16) / 16 * 16)).
  split; [reflexivity|]. unfold e2. split; cbn [iv fileKey enKekEncoded cipherStreamSize serializeEncMatDecriptor].
  - rewrite Hiv. unfold e0. cbn [iv]. rewrite length_take. lia.
  - rewrite Hkey. unfold e0. cbn [fileKey]. rewrite length_take. lia.
  - rewrite Hsize, wrapU_small by lia. rewrite Nat2Z.inj_mul, Nat2Z.inj_div, Nat2Z.inj_add. done.
  - intros e3 He3. rewrite Hkey. by apply Hdec.
Qed.

Definition carried (f : FileMetadata) (m : metadata) : Prop :=
  m !! AMZ_IV = Some (base64 BASE64_INDEX (iv (encryptionMetadata f))) /\
  m !! AMZ_KEY = Some (enKekEncoded (encryptionMetadata f)) /\ m !! SFC_DIGEST = Some (sha256Digest f).

Lemma upload_spec f e plain cipher stream st b k error :
  encryptionMetadata f = e -> encrypted plain e ->
  whole (aes CBC ENCRYPT) (aes_init CBC ENCRYPT (fileKey e) (iv e)) plain = Some cipher ->
  cipher_stream ENCRYPT e plain 0 = Done stream ->
  extractBucketAndKey (location ++ destFileName f) = Returns (b, k) -> HeadObject st b k = inl error ->
  settles (fun es => upload threshold m_parallel location request_reads es f stream st)
    (fun r => snd r = SUCCESS /\ exists m, carried f m /\ stored (fst r) b k m cipher).
Proof.
  intros <- He Hc Hopen Hbk Hhead. destruct (metadata_spec f (e_iv _ _ He)) as (m & Hm & Hcar).
  assert (key_size (length (fileKey (encryptionMetadata f))) = true) as Hk by by rewrite (e_key _ _ He).
  unfold cipher_stream in Hopen. rewrite Hk in Hopen. destruct (encrypting _ _ plain cipher Hk Hc) as (s & Hs & Hreads).
  rewrite Hs in Hopen. injection Hopen as ->.
  assert (cipherStreamSize (encryptionMetadata f) = Z.of_nat (length cipher)) as Hsize.
  { rewrite (e_size _ _ He). f_equal. symmetry. apply (encrypted_length (E := aes CBC ENCRYPT) _ _ _ (encrypt_fresh CBC _ _) Hc). }
  unfold upload. rewrite Hbk. cbn [mbind cpp_bind]. rewrite Hhead. cbn [mbind cpp_bind]. destruct (srcFileSize f >? threshold).
  - eapply settles_mono; [exact (multi_upload f stream st m b k cipher Hm Hbk Hsize Hreads)|]. intros r [Hr Hst]. split; [done|]. by exists m.
  - destruct (single_upload f stream st m b k cipher Hm Hbk Hsize Hreads) as (st' & -> & Hst). eapply settles_at; [done|]. split; [done|]. by exists m.
Qed.

(** *** And back *)

Lemma fetch_spec st b k m f e plain cipher source remote l :
  encryptionMetadata f = e -> encrypted plain e -> carried f m -> stored st b k m cipher ->
  extractBucketAndKey (remote ++ source) = Returns (b, k) ->
  exists g, populateSrcLocDownloadMetadata threshold source remote mat l st =
      Returns (SUCCESS, if Z.of_nat (length cipher) >? threshold then mk_lists (m_smallFilesMeta l) (m_largeFilesMeta l ++ [g])
                        else mk_lists (m_smallFilesMeta l ++ [g]) (m_largeFilesMeta l)) /\
    srcFileName g = remote ++ source /\ srcFileSize g = Z.of_nat (length cipher) /\
    destFileName g = drop (after (find_last_of "/"%char (remote ++ source))) (remote ++ source) /\
    iv (encryptionMetadata g) = iv e /\ fileKey (encryptionMetadata g) = fileKey e.
Proof.
  intros <- He (Hiv & Hkek & _) Hst Hbk. unfold populateSrcLocDownloadMetadata.
  rewrite substr_rest. 2: { destruct (find_last_of _ _) as [i|] eqn:E; cbn [after]; [|lia]. by apply find_last_bound in E. }
  cbn [mbind cpp_bind]. unfold GetRemoteFileMetadata. rewrite Hbk. cbn [mbind cpp_bind]. rewrite (stored_head st b k m cipher Hst), Hiv.
  cbn [or_throw mbind cpp_bind]. unfold decode. rewrite (decodeHelper_spec BASE64_INDEX BASE64_REV_INDEX) by (by rewrite (e_iv _ _ He)).
  rewrite (e_iv _ _ He). change (drop 16 (replicate 16 (chr 0))) with (@nil ascii). rewrite app_nil_r. cbn [lift mbind cpp_bind]. rewrite Hkek. cbn [or_throw mbind cpp_bind].
  rewrite bool_decide_eq_true_2 by done. cbn [encryptionMetadata].
  rewrite (e_kek _ _ He) by done. cbn [lift mbind cpp_bind]. eexists. split; [done|]. by split_and!.
Qed.

Lemma download_spec g st b k m key v plain cipher space stream :
  stored st b k m cipher -> extractBucketAndKey (srcFileName g) = Returns (b, k) -> srcFileSize g = Z.of_nat (length cipher) ->
  whole (aes CBC ENCRYPT) (aes_init CBC ENCRYPT key v) plain = Some cipher -> key_size (length key) = true ->
  (length cipher + aes_block <= space)%nat ->
  cipher_stream DECRYPT (mk_enc v key [] [] 0) [] space = Done stream ->
  Z.of_nat (length cipher) < 2 ^ 32 -> (Z.of_nat (length cipher) > threshold -> Z.of_nat (length cipher) mod threshold <> 0) ->
  settles (fun es => download threshold m_parallel es g stream st) (fun r => fst r = SUCCESS /\ sink (snd r) = plain).
Proof.
  intros Hst Hbk Hsize Hc Hk Hspace Hopen H32 Hmod. unfold cipher_stream in Hopen. cbn [fileKey iv] in Hopen. rewrite Hk in Hopen.
  pose proof (aes_decrypts CBC key v v plain cipher (or_intror eq_refl) Hc) as Hp.
  assert (cipher <> []) as Hne.
  { intros ->. pose proof (encrypted_length (E := aes CBC ENCRYPT) _ _ _ (encrypt_fresh CBC key v) Hc) as E. cbn [length] in E. unfold aes_block in E.
    pose proof (Nat.div_str_pos (length plain + 16) 16 ltac:(lia)). lia. }
  unfold download. rewrite Hsize. destruct (Z.of_nat (length cipher) >? threshold) eqn:E.
  - apply Z.gtb_lt in E. eapply multi_download; try done. apply Hmod. lia.
  - destruct (single_download g st m b k key v plain cipher space stream Hst Hbk Hne Hp Hspace Hopen) as (s' & -> & Hs). by eapply settles_at.
Qed.
End RoundTrip.

(** The file that is sent: the source, or its compressed copy. *)
Lemma staging gzip tmp_dir f fs data body :
  fs !! srcFileName f = Some data -> (if requireCompress f then gzip data else Some data) = Some body ->
  (requireCompress f = false -> srcFileSize f = Z.of_nat (length data)) ->
  exists staged fs1,
    (if requireCompress f then compressSourceFile gzip tmp_dir f fs else Returns (set_upload (srcFileName f) (srcFileSize f) f, fs)) = Returns (staged, fs1) /\
    fs1 !! srcFileToUpload staged = Some body /\ srcFileToUploadSize staged = Z.of_nat (length body) /\
    requireCompress staged = requireCompress f /\ destFileName staged = destFileName f /\
    (if requireCompress f then delete (srcFileToUpload staged) fs1 else fs1) = (if requireCompress f then delete (tmp_dir ++ destFileName f) fs else fs).
Proof.
  intros Hdata Hbody Hplain. unfold compressSourceFile. destruct (requireCompress f) eqn:E.
  - rewrite Hdata. cbn [deref lift mbind cpp_bind]. rewrite Hbody. do 2 eexists. split; [done|]. cbn. rewrite E, lookup_insert_eq, delete_insert_eq. done.
  - injection Hbody as ->. do 2 eexists. split; [done|]. cbn. rewrite E, Hplain by done. done.
Qed.


(** C16: a file that changed is not sent again if the change is in its last, incomplete 64 KiB (any change to a shorter
    file, then): the digest that uploadSingleFile compares with that of the object does not cover it, the call ends
    with SKIP_UPLOAD_FILE, and the store keeps the old file. *)
Theorem changed_file_skipped {St : Type} `{StoreLaws St} `{AesLaws}
    (threshold : Z) (m_parallel : nat) (location : bytes) (request_reads : nat -> list nat)
    (gzip : bytes -> option bytes) (sha256 : bytes -> bytes) (tmp_dir : bytes) (random : nat -> bytes)
    (mats : list EncryptionMaterial) (mat : EncryptionMaterial) (master : bytes)
    (f : FileMetadata) (fs : disk) (st : St) (data body old : bytes) (b k d : bytes) (n : Z) (m : metadata) :
  0 < threshold < 2 ^ 31 -> (0 < m_parallel)%nat /\ Z.of_nat m_parallel < 2 ^ 32 -> (forall s, length (sha256 s) = 32%nat) ->
  (16 <= length (random 0))%nat /\ (16 <= length (random 1))%nat ->
  mats !! 0%nat = Some mat -> queryStageMasterKey mat = base64 BASE64_INDEX master /\ length master = 16%nat ->
  fs !! srcFileName f = Some data -> (if requireCompress f then gzip data else Some data) = Some body ->
  (requireCompress f = false -> srcFileSize f = Z.of_nat (length data)) -> Z.of_nat (length body) + 16 < 2 ^ 64 ->
  extractBucketAndKey (location ++ destFileName f) = Returns (b, k) -> HeadObject st b k = inr (n, m) ->
  m !! SFC_DIGEST = Some d -> updateFileDigest sha256 (Some old) = Done d ->
  take (length old / CHUNK_SIZE * CHUNK_SIZE) old = take (length body / CHUNK_SIZE * CHUNK_SIZE) body ->
  forall es, exists f', uploadSingleFile threshold m_parallel location request_reads gzip sha256 tmp_dir random mats es f fs st =
    Returns (st, (if requireCompress f then delete (tmp_dir ++ destFileName f) fs else fs), f', SKIP_UPLOAD_FILE).
Proof.
  intros Ht Hn Hsha [Hr0 Hr1] Hmat Hmaster Hdata Hbody Hplain Hlt Hbk Hhead Hd Hold Hsame es.
  destruct (staging gzip tmp_dir f fs data body Hdata Hbody Hplain) as (staged & fs1 & Estage & Hfile & Hsize & Ecomp & Edest & Hgone).
  unfold uploadSingleFile. rewrite Estage. cbn [mbind cpp_bind]. rewrite Hfile, digest_spec, <- Hsame, <- digest_spec, Hold by done. cbn [lift mbind cpp_bind].
  set (digested := set_digest d staged).
  destruct (init_encryption threshold m_parallel Ht Hn mat master Hmaster random mats digested body Hmat Hr0 Hr1 Hsize Hlt) as (e & -> & He). cbn [mbind cpp_bind].
  set (ready := set_encryption e (cipherStreamSize e) digested).
  assert (key_size (length (fileKey e)) = true) as Hk by by rewrite (e_key _ _ _ He).
  change (encryptionMetadata ready) with e. change (srcFileToUpload ready) with (srcFileToUpload staged). change (requireCompress ready) with (requireCompress staged).
  rewrite Hfile, Ecomp. cbn [default]. unfold cipher_stream. rewrite Hk.
  destruct (open_readable (E := aes CBC ENCRYPT) ENCRYPT FILE_ENCRYPTION_BLOCK_SIZE ltac:(done) ltac:(unfold FILE_ENCRYPTION_BLOCK_SIZE; lia)
    (aes_init CBC ENCRYPT (fileKey e) (iv e)) body (encrypt_fresh CBC _ _)) as (s & Hs & _). unfold id. rewrite Hs. cbn [lift mbind cpp_bind].
  unfold upload. change (destFileName ready) with (destFileName staged). rewrite Edest, Hbk. cbn [mbind cpp_bind]. rewrite Hhead, Hd. cbn [or_throw mbind cpp_bind].
  change (sha256Digest ready) with d. rewrite bool_decide_eq_true_2 by done. exists ready. by rewrite Hgone.
Qed.
(** ** A cipher and a store *)

(** The cipher of CipherStream, with the key in its state. *)
Definition keyed_encrypt : evp :=
  mk_evp (Z * bytes) (fun '(k, c) s => let '(c', out) := evp_update (toy_encrypt k) c s in ((k, c'), out))
    (fun '(k, c) => evp_final (toy_encrypt k) c).
Definition keyed_decrypt : evp :=
  mk_evp (Z * bytes) (fun '(k, c) s => let '(c', out) := evp_update (toy_decrypt k) c s in ((k, c'), out))
    (fun '(k, c) => evp_final (toy_decrypt k) c).

Ltac keyed_law k c s E := cbn in *; destruct (block_update _ _ c s); cbn in *; exact E.
#[export] Program Instance keyed_encrypt_laws : EvpLaws ENCRYPT keyed_encrypt := { evp_kept := fun c => length c.2 }.
Next Obligation. by intros [k c]. Qed.
Next Obligation.
  intros [k c] s t. pose proof (update_app (EvpLaws := toy_encrypt_laws k) c s t) as E. cbn in *. rewrite E.
  destruct (block_update _ _ c s) as [c1 o1]. cbn. by destruct (block_update _ _ c1 t).
Qed.
Next Obligation. intros [k c] s. pose proof (update_size (EvpLaws := toy_encrypt_laws k) c s) as E. keyed_law k c s E. Qed.
Next Obligation. intros [k c] s. pose proof (update_blocks (EvpLaws := toy_encrypt_laws k) c s) as E. keyed_law k c s E. Qed.
Next Obligation. intros [k c] s Hc. pose proof (update_keeps (EvpLaws := toy_encrypt_laws k) c s Hc) as E. keyed_law k c s E. Qed.
Next Obligation. intros _ [k c] o. apply (final_encrypt (EvpLaws := toy_encrypt_laws k) eq_refl c o). Qed.
Next Obligation. done. Qed.
#[export] Program Instance keyed_decrypt_laws : EvpLaws DECRYPT keyed_decrypt := { evp_kept := fun c => length c.2 }.
Next Obligation. by intros [k c]. Qed.
Next Obligation.
  intros [k c] s t. pose proof (update_app (EvpLaws := toy_decrypt_laws k) c s t) as E. cbn in *. rewrite E.
  destruct (block_update _ _ c s) as [c1 o1]. cbn. by destruct (block_update _ _ c1 t).
Qed.
Next Obligation. intros [k c] s. pose proof (update_size (EvpLaws := toy_decrypt_laws k) c s) as E. keyed_law k c s E. Qed.
Next Obligation. intros [k c] s. pose proof (update_blocks (EvpLaws := toy_decrypt_laws k) c s) as E. keyed_law k c s E. Qed.
Next Obligation. intros [k c] s Hc. pose proof (update_keeps (EvpLaws := toy_decrypt_laws k) c s Hc) as E. keyed_law k c s E. Qed.
Next Obligation. done. Qed.
Next Obligation. intros Hd [k c] o. apply (final_decrypt (EvpLaws := toy_decrypt_laws k) Hd c o). Qed.

(** What it makes of a text, and of that. *)
Definition padding (n : nat) : bytes := replicate (aes_block - n mod aes_block) (chr (Z.of_nat (aes_block - n mod aes_block))).
Lemma keyed_encrypts k p : whole keyed_encrypt (k, []) p = Some (map (shift k) (p ++ padding (length p))).
Proof.
  unfold padding. pose proof (Nat.mod_upper_bound (length p) aes_block ltac:(done)) as Hm.
  assert (exists a b, block_update cut_encrypt (shift k) [] p = (b, map (shift k) a) /\ p = a ++ b /\ length b = (length p mod aes_block)%nat) as (a & b & Hu & Hp & Hb).
  { destruct p as [|x p]; [by exists [], []|]. eexists _, _. split; [reflexivity|]. split; [symmetry; apply take_drop|].
    cbn [app]. rewrite length_drop. unfold cut_encrypt. rewrite cut_mod. pose proof (Nat.Div0.mod_le (length (x :: p)) aes_block). lia. }
  rewrite <- Hb in *. unfold whole. cbn [evp_update evp_final keyed_encrypt toy_encrypt block_evp]. rewrite Hu. unfold pad_last.
  destruct (Nat.ltb_spec (length b) aes_block); [|lia]. cbn [fmap option_fmap option_map]. by rewrite Hp, <- app_assoc, <- map_app.
Qed.
Lemma shift_back k c : shift (- k) (shift k c) = c.
Proof.
  unfold shift. pose proof (code_range c). rewrite code_chr by (apply Z.mod_pos_bound; lia).
  rewrite Zplus_mod_idemp_l. replace (code c + k + - k) with (code c) by lia. rewrite Z.mod_small by done. apply chr_code.
Qed.
Lemma keyed_decrypts k p : whole keyed_decrypt (k, []) (map (shift k) (p ++ padding (length p))) = Some p.
Proof.
  set (n := (aes_block - length p mod aes_block)%nat). set (pad := padding (length p)).
  pose proof (Nat.mod_upper_bound (length p) aes_block ltac:(done)) as Hm. assert (aes_block = 16)%nat as E16 by done.
  assert (length pad = n) as Hpad by apply length_replicate. assert (1 <= n <= 16)%nat as Hn by lia.
  assert (length (p ++ pad) = 16 * S (length p / 16))%nat as Hlen.
  { rewrite length_app, Hpad. unfold n. rewrite E16 in *. pose proof (Nat.div_mod_eq (length p) 16). lia. }
  set (q := map (shift k) (p ++ pad)). assert (length q = 16 * S (length p / 16))%nat as Hq by (unfold q; by rewrite length_map).
  assert (cut_decrypt (length q) = 16 * (length p / 16))%nat as Hcut.
  { unfold cut_decrypt. rewrite E16, Hq. replace (16 * S (length p / 16) - 1)%nat with (length p / 16 * 16 + 15)%nat by lia.
    rewrite Nat.div_add_l by done. change (15 / 16)%nat with 0%nat. lia. }
  unfold whole. cbn [evp_update evp_final keyed_decrypt toy_decrypt block_evp].
  rewrite block_update_some by (intros E; rewrite E in Hq; cbn in Hq; lia). cbn [app]. rewrite Hcut. set (m := (16 * (length p / 16))%nat) in *.
  assert (forall l, map (shift (- k)) (map (shift k) l) = l) as Hback
    by (intros l; rewrite map_map; rewrite <- (map_id l) at 2; apply map_ext, shift_back).
  assert (map (shift (- k)) (drop m q) = drop m (p ++ pad)) as Hd by (unfold q; by rewrite <- skipn_map, Hback).
  assert (map (shift (- k)) (take m q) = take m (p ++ pad)) as Ht by (unfold q; by rewrite <- firstn_map, Hback).
  unfold unpad_last. rewrite Hd, Ht. assert (length (drop m q) = 16)%nat as -> by (rewrite length_drop, Hq; unfold m; lia). cbn [Nat.eqb aes_block].
  assert (m <= length p)%nat as Hmp by (unfold m; apply Nat.Div0.mul_div_le).
  rewrite drop_app_le, take_app_le by done. assert (length (drop m p) = 16 - n)%nat as Hdp.
  { rewrite length_drop. unfold n, m. rewrite E16 in *. pose proof (Nat.div_mod_eq (length p) 16). lia. }
  assert (last (drop m p ++ pad) = Some (chr (Z.of_nat n))) as ->.
  { unfold pad, padding. fold n. rewrite last_app. destruct n as [|n']; [lia|]. rewrite replicate_S_end, last_snoc. done. }
  cbn [fmap option_fmap option_map mbind option_bind compose]. rewrite code_chr, Nat2Z.id by lia.
  assert ((0 <? n)%nat = true /\ (n <=? aes_block)%nat = true) as [-> ->] by (rewrite Nat.ltb_lt, Nat.leb_le; lia). cbn [andb].
  rewrite drop_app_length', bool_decide_eq_true_2, take_app_length' by done. cbn [fmap option_fmap option_map]. by rewrite take_drop.
Qed.

Definition key_of (m : CryptoMode) (k v : bytes) : Z := foldr (fun c n => code c + 2 * n) 0 (match m with CBC => k ++ v | ECB => k end).
#[export] Instance keyed_aes : Aes := {|
  aes m o := match o with ENCRYPT => keyed_encrypt | _ => keyed_decrypt end;
  aes_init m o k v :=
    match o as o' return evp_state (match o' with ENCRYPT => keyed_encrypt | _ => keyed_decrypt end) with
    | ENCRYPT => (key_of m k v, []) | DECRYPT => (key_of m k v, []) | _ => (key_of m k v, [])
    end
|}.
#[export] Program Instance keyed_aes_laws : AesLaws := {
  encrypt_laws m := keyed_encrypt_laws; decrypt_laws m := keyed_decrypt_laws
}.
Next Obligation. done. Qed.
Next Obligation. done. Qed.
Next Obligation. intros m k v p _. eexists. apply keyed_encrypts. Qed.
Next Obligation.
  intros m k v v' p c Hv Hc. cbn in Hc |- *. rewrite keyed_encrypts in Hc. injection Hc as <-.
  assert (key_of m k v' = key_of m k v) as -> by (by destruct Hv as [->| ->]). apply keyed_decrypts.
Qed.

(** Objects by bucket and key; the metadata of an upload in parts waits under its id. *)
Record toy_s3 := mk_s3 { objects : gmap (bytes * bytes) (metadata * bytes); uploads : gmap bytes metadata }.
Definition toy_id : bytes := of_string "id".
#[export] Instance toy_store : ObjectStore toy_s3 := {
  HeadObject st b k := match objects st !! (b, k) with Some (m, body) => inr (Z.of_nat (length body), m) | None => inl "NotFound" end;
  PutObject st b k m body := (mk_s3 (<[(b, k) := (m, body)]> (objects st)) (uploads st), None);
  GetObject st b k range :=
    match objects st !! (b, k), range with
    | Some (_, body), None => (None, [take 5 body; drop 5 body])
    | Some (_, body), Some (first, last) =>
        if (first <=? last) && (last <? Z.of_nat (length body)) then
          (None, [take (Z.to_nat (last - first + 1)) (drop (Z.to_nat first) body)]) else (Some "InvalidRange", [])
    | None, _ => (Some "NoSuchKey", [])
    end;
  CreateMultipartUpload st b k m := (mk_s3 (objects st) (<[toy_id := m]> (uploads st)), inr toy_id);
  UploadPart _ _ _ _ := None;
  CompleteMultipartUpload st b k id parts :=
    match uploads st !! id with
    | Some m => (mk_s3 (<[(b, k) := (m, concat (map snd parts))]> (objects st)) (delete id (uploads st)), None)
    | None => (st, Some "NoSuchUpload")
    end
}.
#[export] Program Instance toy_store_laws : StoreLaws toy_s3 := { stored st b k m body := objects st !! (b, k) = Some (m, body) }.
Next Obligation. intros st b k m body E. cbn. by rewrite E. Qed.
Next Obligation. intros st b k m body E. cbn. rewrite E. eexists. split; [done|]. cbn. by rewrite app_nil_r, take_drop. Qed.
Next Obligation.
  intros st b k m body first last E Hf Hl. cbn. rewrite E. destruct (Z.leb_spec first last), (Z.ltb_spec last (Z.of_nat (length body))); try lia.
  eexists. split; [done|]. apply app_nil_r.
Qed.
Next Obligation. intros st b k m body. eexists. split; [done|]. cbn. apply lookup_insert_eq. Qed.
Next Obligation.
  intros st b k m. cbn. do 2 eexists. split; [done|]. split; [done|]. intros parts _. cbn. rewrite lookup_insert_eq.
  eexists. split; [done|]. cbn. apply lookup_insert_eq.
Qed.

(** A stage with two threads, parts of twenty bytes, and a file of forty, in three parts. *)
Definition toy_master : bytes := of_string "0123456789abcdef".
Definition toy_material (master : bytes) : EncryptionMaterial := mk_material (base64 BASE64_INDEX master) (of_string "q") 7.
Definition toy_random (n : nat) : bytes := replicate 32 (chr (65 + Z.of_nat n)).
Definition toy_sha256 (s : bytes) : bytes := chr (foldr (fun c n => (code c + n) mod 256) 0 s) :: replicate 31 "x"%char.
Definition toy_file (size : Z) : FileMetadata :=
  mk_file (of_string "/data/a") size [] 0 (of_string "a") 0 false no_encryption [] None None.
Definition toy_data : bytes := of_string "The quick brown fox jumps over the dog..".
Definition toy_disk (content : bytes) : disk := {[ of_string "/data/a" := content ]}.
Definition toy_put (mat : EncryptionMaterial) (es : list event) (size : Z) (content : bytes) (st : toy_s3) :=
  uploadSingleFile (St := toy_s3) 20 2 (of_string "bucket/stage/") (fun n => [n]) Some toy_sha256 (of_string "/tmp/") toy_random
    [mat] es (toy_file size) (toy_disk content) st.
Lemma toy_reads n : (n <= list_sum [n])%nat.
Proof. cbn. lia. Qed.
Lemma toy_sha256_size s : length (toy_sha256 s) = 32%nat.
Proof. reflexivity. Qed.
Lemma toy_random_size : (16 <= length (toy_random 0))%nat /\ (16 <= length (toy_random 1))%nat.
Proof. split; apply Nat.leb_le; reflexivity. Qed.
Definition toy_fetch (mat : EncryptionMaterial) (st : toy_s3) :=
  populateSrcLocDownloadMetadata (St := toy_s3) 20 (of_string "a") (of_string "bucket/stage/") mat (mk_lists [] []) st.

Definition toy_get (g : FileMetadata) (st : toy_s3) (es : list event) :=
  downloadSingleFile (St := toy_s3) 20 2 (of_string "/home") 64 es g ∅ st.

Definition unfinished {A} (c : cpp A) : bool := match c with Unfinished => true | _ => false end.
Lemma settled {A} (c : list event -> cpp A) (P : A -> Prop) es : settles c P -> unfinished (c es) = false -> exists a, c es = Returns a /\ P a.
Proof. intros [Hall _] Hes. destruct (Hall es) as [E|]; [by rewrite E in Hes|done]. Qed.
(** Schedules that end. *)
Lemma toy_get_ends :
  match toy_put (toy_material toy_master) upload_schedule 40 toy_data (mk_s3 ∅ ∅) with
  | Returns (st, _, _, _) =>
      match toy_fetch (toy_material toy_master) st with
      | Returns (_, mk_lists [] [g]) => unfinished (toy_get g st download_schedule)
      | _ => true
      end
  | _ => true
  end = false.
Proof. vm_compute. reflexivity. Qed.


(** Two files of the same name, in turn: the second is not sent. *)
Definition old_content : bytes := of_string "old content".
Lemma toy_old_put :
  match toy_put (toy_material toy_master) [] 11 old_content (mk_s3 ∅ ∅) with
  | Returns (st, _, _, o) =>
      o = SUCCESS /\ match HeadObject st (of_string "bucket") (of_string "stage/a") with
                     | inr (_, m) => m !! SFC_DIGEST = Some (base64 BASE64_INDEX (toy_sha256 []))
                     | inl _ => False
                     end
  | _ => False
  end.
Proof. vm_compute. split; reflexivity. Qed.
Lemma changed_file_skipped_witness :
  exists st fs f, toy_put (toy_material toy_master) [] 11 old_content (mk_s3 ∅ ∅) = Returns (st, fs, f, SUCCESS) /\
    exists f', toy_put (toy_material toy_master) [] 3 (of_string "new") st = Returns (st, toy_disk (of_string "new"), f', SKIP_UPLOAD_FILE).
Proof.
  pose proof toy_old_put as Hput. destruct (toy_put _ _ 11 _ _) as [[[[st fs] f] o]| | |]; try done. destruct Hput as [-> Hput].
  destruct (HeadObject st _ _) as [|[n m]] eqn:Hhead; [done|]. exists st, fs, f. split; [reflexivity|].
  exact (changed_file_skipped (St := toy_s3) 20 2 (of_string "bucket/stage/") (fun n => [n]) Some toy_sha256 (of_string "/tmp/") toy_random
    [toy_material toy_master] (toy_material toy_master) toy_master (toy_file 3) (toy_disk (of_string "new")) st (of_string "new") (of_string "new")
    old_content (of_string "bucket") (of_string "stage/a") _ n m
    ltac:(lia) ltac:(lia) toy_sha256_size toy_random_size eq_refl (conj eq_refl eq_refl) eq_refl eq_refl (fun _ => eq_refl) ltac:(reflexivity)
    eq_refl Hhead Hput ltac:(by vm_compute) ltac:(by vm_compute) []).
Defined.

(** The array for the encrypted key of a file has 32 bytes; under a master key of 32 bytes the file's has as many, and with
    its padding 48 (the request for none comes before the initialization that forgets it). *)
Example master_key_of_256_bits :
  populateFileKeyAndIV toy_random (toy_material (toy_random 2)) no_encryption ≫= encryptFileKey (toy_material (toy_random 2)) = Undef.
Proof. vm_compute. reflexivity. Qed.
(** An object that something else put there has no digest: an exception of [std::map::at], not an outcome. *)
Example object_without_digest :
  toy_put (toy_material toy_master) [] 3 (of_string "new") (mk_s3 {[ (of_string "bucket", of_string "stage/a") := (∅, []) ]} ∅) = Throws out_of_range.
Proof. vm_compute. reflexivity. Qed.
