(* ===== verification/FileAgent.v ===== *)
(** * cpp/FileTransferAgent: PUT and GET over all the files of a command.

    What the agent calls is the class [Transfers] over a world of its own: the clock, the
    statement, the listings of FileMetadataInitializer and the transfer of one file.  The
    agent's objects (its clients and results) live in heaps, so that a second [delete] shows.
    A function that throws leaves the agent as it was then: the monad [act] keeps both.
    The transfer of a small file is one step of its thread, and so is a renewal, which the
    code has under a mutex; the pool's threads run by a schedule. *)

From S2P Require Import Prelude CLib CJson Base64 CipherStream ThreadPool StreamParts Cpp PutGet FileMetadata FileCrypto S3Client.

(** What an S3 client was made with. *)
Record client := mk_client { c_stage : StageInfo; c_parallel : Z }.

Class Transfers (W : Type) := {
  clock : W -> W * Z;                                          (* time(NULL) *)
  ask : W -> W * option SF_PUT_GET_RESPONSE;                   (* what snowflake_query leaves in the statement *)
  list_local : PutGetParseResponse -> bytes -> FileLists -> W -> cpp FileLists;
  list_remote : client -> bytes -> bytes -> EncryptionMaterial -> FileLists -> W -> cpp (W * RemoteStorageRequestOutcome * FileLists);
  create_directory : option string -> W -> W * Z;
  upload_one : client -> list EncryptionMaterial -> FileMetadata -> W -> cpp (W * FileMetadata * RemoteStorageRequestOutcome);
  download_one : client -> option string -> FileMetadata -> W -> cpp (W * FileMetadata * RemoteStorageRequestOutcome)
}.

Record agent (W : Type) := mk_agent {
  results : gmap nat FileTransferExecutionResult; clients : gmap nat client; next_id : nat;
  m_executionResults : option nat; m_storageClient : option nat;
  lists : FileLists; response : PutGetParseResponse; m_lastRefreshTokenSec : Z;
  world : W
}.
Arguments mk_agent {W}.
Arguments results {W}. Arguments clients {W}. Arguments next_id {W}. Arguments m_executionResults {W}.
Arguments m_storageClient {W}. Arguments lists {W}. Arguments response {W}. Arguments m_lastRefreshTokenSec {W}. Arguments world {W}.

Definition act (W A : Type) : Type := agent W -> agent W * cpp A.
#[export] Instance act_ret {W} : MRet (act W) := fun A a s => (s, Returns a).
#[export] Instance act_bind {W} : MBind (act W) := fun A B f m s =>
  let '(s, r) := m s in
  match r with
  | Returns a => f a s
  | Throws e => (s, Throws e)
  | Dies => (s, Dies)
  | Unfinished => (s, Unfinished)
  end.

Section Agent.
  Context {W : Type} `{Transfers W}.

Definition get {A} (f : agent W -> A) : act W A := fun s => (s, Returns (f s)).
Definition raw {A} (f : agent W -> agent W * cpp A) : act W A := f.
Definition calls {A} (c : cpp A) : act W A := fun s => (s, c).
Definition throw {A} (e : exn) : act W A := calls (Throws e).

Definition set_results (rs : gmap nat FileTransferExecutionResult) (s : agent W) : agent W :=
  mk_agent rs (clients s) (next_id s) (m_executionResults s) (m_storageClient s) (lists s) (response s) (m_lastRefreshTokenSec s) (world s).
Definition set_clients (cs : gmap nat client) (s : agent W) : agent W :=
  mk_agent (results s) cs (next_id s) (m_executionResults s) (m_storageClient s) (lists s) (response s) (m_lastRefreshTokenSec s) (world s).
Definition set_lists (l : FileLists) (s : agent W) : agent W :=
  mk_agent (results s) (clients s) (next_id s) (m_executionResults s) (m_storageClient s) l (response s) (m_lastRefreshTokenSec s) (world s).
Definition set_response (r : PutGetParseResponse) (s : agent W) : agent W :=
  mk_agent (results s) (clients s) (next_id s) (m_executionResults s) (m_storageClient s) (lists s) r (m_lastRefreshTokenSec s) (world s).
Definition set_refreshed (t : Z) (s : agent W) : agent W :=
  mk_agent (results s) (clients s) (next_id s) (m_executionResults s) (m_storageClient s) (lists s) (response s) t (world s).
Definition set_world (w : W) (s : agent W) : agent W :=
  mk_agent (results s) (clients s) (next_id s) (m_executionResults s) (m_storageClient s) (lists s) (response s) (m_lastRefreshTokenSec s) w.
Definition put (f : agent W -> agent W) : act W () := fun s => (f s, Returns tt).

(** ** Life cycle *)

(** [response] is not initialized; its lists are empty. *)
Definition FileTransferAgent (old : PutGetParseResponse) (w : W) : agent W :=
  mk_agent ∅ ∅ 0 None None (mk_lists [] []) old 0 w.

Definition delete_results : act W () := fun s =>
  match m_executionResults s with
  | None => (s, Returns tt)
  | Some p => match results s !! p with Some _ => (set_results (delete p (results s)) s, Returns tt) | None => (s, Dies) end
  end.
Definition delete_client : act W () := fun s =>
  match m_storageClient s with
  | None => (s, Returns tt)
  | Some p => match clients s !! p with Some _ => (set_clients (delete p (clients s)) s, Returns tt) | None => (s, Dies) end
  end.
(** Also the destructor.  The pointers stay. *)
Definition reset : act W () :=
  _ ← delete_results; _ ← delete_client; put (set_lists (mk_lists [] [])).

(** StorageClientFactory::getClient, into [m_storageClient]. *)
Definition new_client : act W () := fun s =>
  match stageType (stageInfo (response s)) with
  | S3 =>
      (mk_agent (results s) (<[next_id s := mk_client (stageInfo (response s)) (u32 (r_parallel (response s)))]> (clients s)) (S (next_id s))
         (m_executionResults s) (Some (next_id s)) (lists s) (response s) (m_lastRefreshTokenSec s) (world s), Returns tt)
  | _ => (s, Throws (SnowflakeTransferException UNSUPPORTED_FEATURE))
  end.
Definition new_results (c : CommandType) : act W () := fun s =>
  let n := (length (m_largeFilesMeta (lists s)) + length (m_smallFilesMeta (lists s)))%nat in
  (mk_agent (<[next_id s := new_result c n]> (results s)) (clients s) (S (next_id s)) (Some (next_id s)) (m_storageClient s)
     (lists s) (response s) (m_lastRefreshTokenSec s) (world s), Returns tt).

Definition parse_command : act W () := fun s =>
  let '(w, put_get) := ask (world s) in
  match parsePutGetCommand put_get (response s) with
  | Returns r => (set_world w (set_response r s), Returns tt)
  | Throws e => (set_world w s, Throws e)
  | Dies => (set_world w s, Dies)
  | Unfinished => (set_world w s, Unfinished)
  end.

(** Not twice in ten minutes.  The old client is not deleted. *)
Definition renewToken : act W () := fun s =>
  let '(w, now) := clock (world s) in
  let s := set_world w s in
  if now - m_lastRefreshTokenSec s >? 10 * 60 then
    (_ ← parse_command; _ ← new_client; put (set_refreshed now)) s
  else (s, Returns tt).

(** ** Listing the files of the command *)

Definition storage_client : act W client := fun s => (s, lift (deref (p ← m_storageClient s; clients s !! p))).

Definition list_source (i : nat) : act W RemoteStorageRequestOutcome :=
  r ← get response;
  source ← calls (or_throw out_of_range (srcLocations r !! i));
  match r_command r with
  | UPLOAD => raw (fun s =>
      match list_local r source (lists s) (world s) with
      | Returns l => (set_lists l s, Returns SUCCESS)
      | Throws e => (s, Throws e)
      | Dies => (s, Dies)
      | Unfinished => (s, Unfinished)
      end)
  | DOWNLOAD =>
      mat ← calls (or_throw out_of_range (encryptionMaterials r !! i));
      cl ← storage_client;
      raw (fun s =>
        match list_remote cl source (stage_location (stageInfo r)) mat (lists s) (world s) with
        | Returns (w, o, l) => (set_world w (set_lists l s), Returns o)
        | Throws e => (s, Throws e)
        | Dies => (s, Dies)
        | Unfinished => (s, Unfinished)
        end)
  | UNKNOWN_COMMAND => throw (SnowflakeTransferException INTERNAL_ERROR)
  end.

(** The number of locations is read again each time; an expired token does not count. *)
Fixpoint init_loop (fuel i : nat) : act W () := fun s =>
  if (i <? length (srcLocations (response s)))%nat then
    match fuel with
    | O => (s, Unfinished)
    | S fuel =>
        (o ← list_source i;
         if bool_decide (o = TOKEN_EXPIRED) then _ ← renewToken; init_loop fuel i else init_loop fuel (S i)) s
    end
  else (s, Returns tt).
Definition initFileMetadata := init_loop.

(** ** Moving them *)

Definition file_list (large : bool) (l : FileLists) : list FileMetadata := if large then m_largeFilesMeta l else m_smallFilesMeta l.
Definition set_file (large : bool) (i : nat) (f : FileMetadata) (l : FileLists) : FileLists :=
  if large then mk_lists (m_smallFilesMeta l) (<[i := f]> (m_largeFilesMeta l)) else mk_lists (<[i := f]> (m_smallFilesMeta l)) (m_largeFilesMeta l).

(** A function of the results, where [m_executionResults] points. *)
Definition on_results (f : FileTransferExecutionResult -> outcome FileTransferExecutionResult) : act W () := fun s =>
  match p ← m_executionResults s; (p,.) <$> results s !! p with
  | Some (p, r) =>
      match f r with
      | Done r => (set_results (<[p := r]> (results s)) s, Returns tt)
      | _ => (s, Dies)
      end
  | None => (s, Dies)
  end.

(** uploadSingleFile and downloadSingleFile, which write into the file's entry of its list. *)
Definition one_file (c : CommandType) (large : bool) (i : nat) : act W RemoteStorageRequestOutcome :=
  cl ← storage_client;
  raw (fun s =>
    match file_list large (lists s) !! i with
    | None => (s, Dies)
    | Some f =>
        match (match c with
               | UPLOAD => upload_one cl (encryptionMaterials (response s)) f (world s)
               | _ => download_one cl (r_localLocation (response s)) f (world s)
               end) with
        | Returns (w, f, o) => (set_world w (set_lists (set_file large i f (lists s)) s), Returns o)
        | Throws e => (s, Throws e)
        | Dies => (s, Dies)
        | Unfinished => (s, Unfinished)
        end
    end).
Definition SingleFile (c : CommandType) (large : bool) (i resultIndex : nat) : act W RemoteStorageRequestOutcome :=
  o ← one_file c large i; _ ← on_results (SetTransferOutCome o resultIndex); mret o.

(** The large files, one after the other. *)
Fixpoint large_loop (c : CommandType) (fuel i : nat) : act W () := fun s =>
  if (i <? length (m_largeFilesMeta (lists s)))%nat then
    match fuel with
    | O => (s, Unfinished)
    | S fuel =>
        (_ ← on_results (SetFileMetadata i i);
         o ← SingleFile c true i i;
         if bool_decide (o = TOKEN_EXPIRED) then _ ← renewToken; large_loop c fuel i else large_loop c fuel (S i)) s
    end
  else (s, Returns tt).

(** A job is a small file, to be transferred or waiting for a renewal.  What leaves a job
    other than by its end ends the process: the flag. *)
Inductive file_job := Transfer (j : nat) | Renew (j : nat).
Definition job_ends {A} (r : agent W * cpp A) (k : A -> option file_job) : option (option file_job * (agent W * bool) * bool) :=
  Some (match snd r with Returns a => (k a, (fst r, false), false) | _ => (None, (fst r, true), false) end).
Definition file_step (c : CommandType) (job : file_job) (sh : agent W * bool) : option (option file_job * (agent W * bool) * bool) :=
  let '(s, crashed) := sh in
  if crashed then Some (None, sh, false)
  else
    match job with
    | Transfer j =>
        job_ends (SingleFile c false j (j + length (m_largeFilesMeta (lists s))) s)
          (fun o => if bool_decide (o = TOKEN_EXPIRED) then Some (Renew j) else None)
    | Renew j => job_ends (renewToken s) (fun _ => Some (Transfer j))
    end.

(** The entries are set as the jobs are added: no job reads another's. *)
Fixpoint set_entries (first n : nat) : act W () :=
  match n with
  | O => mret tt
  | S n => _ ← set_entries first n; on_results (SetFileMetadata (first + n) (first + n))
  end.
Definition transfer_run (c : CommandType) := run (fun j _ => Transfer j) (file_step c) id.
Definition FilesInParallel (c : CommandType) (es : list event) : act W () :=
  r ← get response;
  l ← get lists;
  _ ← set_entries (length (m_largeFilesMeta l)) (length (m_smallFilesMeta l));
  raw (fun s =>
    let tp := ThreadPool (Z.to_nat (u32 (r_parallel r))) (map AddJob (List.seq 0 (length (m_smallFilesMeta l))) ++ [WaitAll]) (s, false) in
    match finish (transfer_run c es tp) with
    | Returns (s, false) => (s, Returns tt)
    | Returns (s, true) => (s, Dies)
    | _ => (s, Unfinished)
    end).

Definition transfer_all (c : CommandType) (fuel : nat) (es : list event) : act W () :=
  _ ← large_loop c fuel 0;
  l ← get lists;
  if (0 <? length (m_smallFilesMeta l))%nat then FilesInParallel c es else mret tt.
Definition upload (fuel : nat) (es : list event) : act W () := _ ← new_results UPLOAD; transfer_all UPLOAD fuel es.
Definition download (fuel : nat) (es : list event) : act W () :=
  _ ← new_results DOWNLOAD;
  ret ← raw (fun s => let '(w, ret) := create_directory (r_localLocation (response s)) (world s) in (set_world w s, Returns ret));
  if negb (ret =? 0) then throw (SnowflakeTransferException MKDIR_ERROR) else transfer_all DOWNLOAD fuel es.

Definition execute (listing fuel : nat) (es : list event) : act W (option nat) :=
  _ ← reset;
  _ ← parse_command;
  _ ← new_client;
  _ ← initFileMetadata listing 0;
  r ← get response;
  _ ← (match r_command r with
       | UPLOAD => upload fuel es
       | DOWNLOAD => download fuel es
       | UNKNOWN_COMMAND => throw (SnowflakeTransferException INTERNAL_ERROR)
       end);
  get m_executionResults.
End Agent.

(** ** What the services promise: a token does not expire for ever. *)

Class TransferLaws (W : Type) `{Transfers W} := {
  expiries : W -> nat;                                         (* how many times it still can *)
  clock_expiries w : (expiries (fst (clock w)) <= expiries w)%nat;
  ask_expiries w : (expiries (fst (ask w)) <= expiries w)%nat;
  ask_parallel w a : snd (ask w) = Some a -> 0 < u32 (i32 (parallel a));
  create_expiries d w : (expiries (fst (create_directory d w)) <= expiries w)%nat;
  list_expiries cl src loc mat l w w' o l' : list_remote cl src loc mat l w = Returns (w', o, l') ->
    (expiries w' + (if bool_decide (o = TOKEN_EXPIRED) then 1 else 0) <= expiries w)%nat;
  upload_expiries cl mats f w w' f' o : upload_one cl mats f w = Returns (w', f', o) ->
    (expiries w' + (if bool_decide (o = TOKEN_EXPIRED) then 1 else 0) <= expiries w)%nat;
  download_expiries cl dir f w w' f' o : download_one cl dir f w = Returns (w', f', o) ->
    (expiries w' + (if bool_decide (o = TOKEN_EXPIRED) then 1 else 0) <= expiries w)%nat;
  list_local_ends r src l w : list_local r src l w <> Unfinished;
  list_remote_ends cl src loc mat l w : list_remote cl src loc mat l w <> Unfinished;
  upload_ends cl mats f w : upload_one cl mats f w <> Unfinished;
  download_ends cl dir f w : download_one cl dir f w <> Unfinished
}.

Section Facts.
  Context {W : Type} `{TransferLaws W}.
  Implicit Types s : agent W.

(** *** Running an action *)

Lemma bind_run {A B} (m : act W A) (f : A -> act W B) s s' b :
  (m ≫= f) s = (s', Returns b) <-> exists s1 a, m s = (s1, Returns a) /\ f a s1 = (s', Returns b).
Proof.
  unfold mbind, act_bind. destruct (m s) as [s1 [a|e| |]]; split; try done.
  - intros E. by exists s1, a.
  - intros (s2 & a' & [= -> ->] & E). exact E.
  - by intros (? & ? & ? & _).
  - by intros (? & ? & ? & _).
  - by intros (? & ? & ? & _).
Qed.
Lemma bind_ends {A B} (m : act W A) (f : A -> act W B) s :
  snd (m s) <> Unfinished -> (forall s1 a, m s = (s1, Returns a) -> snd (f a s1) <> Unfinished) -> snd ((m ≫= f) s) <> Unfinished.
Proof. intros Hm Hf. unfold mbind, act_bind. destruct (m s) as [s1 [a|e| |]]; try done. by apply Hf. Qed.

(** *** The agent while it transfers [nl] large and [ns] small files *)

Definition the_results s : option FileTransferExecutionResult := p ← m_executionResults s; results s !! p.
Definition recorded s (k : nat) : Prop :=
  exists r o, the_results s = Some r /\ result_outcomes r !! k = Some (Some o) /\ o <> TOKEN_EXPIRED.
Definition entry s (k : nat) : Prop := exists r, the_results s = Some r /\ m_fileMetadatas r !! k = Some (Some k).
Record ready (nl ns : nat) s : Prop := {
  r_results : exists r, the_results s = Some r /\ length (result_outcomes r) = (nl + ns)%nat /\ length (m_fileMetadatas r) = (nl + ns)%nat;
  r_client : exists c cl, m_storageClient s = Some c /\ clients s !! c = Some cl;
  r_large : length (m_largeFilesMeta (lists s)) = nl;
  r_small : length (m_smallFilesMeta (lists s)) = ns
}.

(** The pool of the small files has a thread. *)
Definition threaded s : Prop := 0 < u32 (r_parallel (response s)).

(** What a step leaves, but for the outcome of the files in [touched]. *)
Record keeps (touched : nat -> Prop) s s' : Prop := {
  k_ready : forall nl ns, ready nl ns s -> ready nl ns s';
  k_recorded : forall k, ~ touched k -> recorded s k -> recorded s' k;
  k_entry : forall k, entry s k -> entry s' k;
  k_lengths : length (m_largeFilesMeta (lists s')) = length (m_largeFilesMeta (lists s)) /\
    length (m_smallFilesMeta (lists s')) = length (m_smallFilesMeta (lists s));
  k_threaded : threaded s -> threaded s';
  k_pointer : m_executionResults s' = m_executionResults s /\ dom (results s') = dom (results s);
  k_expiries : (expiries (world s') <= expiries (world s))%nat
}.
Lemma keeps_refl t s : keeps t s s.
Proof. by split. Qed.
Lemma keeps_trans t s1 s2 s3 : keeps t s1 s2 -> keeps t s2 s3 -> keeps t s1 s3.
Proof.
  intros [R1 O1 E1 [L1 S1] T1 [P1 D1] X1] [R2 O2 E2 [L2 S2] T2 [P2 D2] X2]. split; eauto; [..|lia]; split; congruence.
Qed.
Lemma keeps_weaken (t t' : nat -> Prop) s s' : (forall k, t k -> t' k) -> keeps t s s' -> keeps t' s s'.
Proof. intros Ht [R O E L T P X]. split; eauto. Qed.

(** An action that does not write results, pointers to them, the client or the lists' lengths. *)
Lemma keeps_of t s s' :
  results s' = results s -> m_executionResults s' = m_executionResults s ->
  (forall c cl, m_storageClient s = Some c -> clients s !! c = Some cl -> exists c' cl', m_storageClient s' = Some c' /\ clients s' !! c' = Some cl') ->
  length (m_largeFilesMeta (lists s')) = length (m_largeFilesMeta (lists s)) ->
  length (m_smallFilesMeta (lists s')) = length (m_smallFilesMeta (lists s)) ->
  (threaded s -> threaded s') -> (expiries (world s') <= expiries (world s))%nat -> keeps t s s'.
Proof.
  intros Hr Hp Hc Hl Hs Hpar Hx. assert (the_results s' = the_results s) as Ht by (unfold the_results; by rewrite Hr, Hp).
  split; unfold recorded, entry; rewrite ?Ht; try done.
  - intros nl ns [R (c & cl & E1 & E2) L S]. split; [by rewrite Ht|by eapply Hc|congruence..].
  - by rewrite Hr.
Qed.

Lemma parse_response a old r : parsePutGetCommand a old = Returns r -> exists p, a = Some p /\ r_parallel r = i32 (parallel p).
Proof.
  unfold parsePutGetCommand. destruct a as [p|]; [|done]. cbn [deref lift mbind cpp_bind]. intros E. exists p. split; [done|]. revert E.
  destruct (src_loop _ _ _); try done. cbn [mbind cpp_bind]. destruct (if _ =? 0 then _ else _) as [[cmd ms]| | |]; try done.
  cbn [mbind cpp_bind]. destruct (std_string (location _)); try done. cbn [mbind cpp_bind]. destruct (std_string (path _)); try done.
  cbn [mbind cpp_bind]. destruct (std_string (region _)); try done. cbn [mbind cpp_bind]. destruct (lift _); try done. by intros [= <-].
Qed.
Lemma parse_threaded s : (snd (parse_command s) = Returns tt \/ threaded s) -> threaded (fst (parse_command s)).
Proof.
  unfold parse_command. pose proof (ask_parallel (world s)) as Ha. destruct (ask (world s)) as [w a]. cbn in Ha.
  destruct (parsePutGetCommand a (response s)) as [r|x| |] eqn:E; (intros [Hr|Ht]; [try done|try exact Ht]);
    apply parse_response in E as (p & -> & Ep); unfold threaded; cbn; rewrite Ep; by apply Ha.
Qed.
Lemma parse_keeps t s : keeps t s (fst (parse_command s)).
Proof.
  pose proof (parse_threaded s) as Hp. revert Hp. unfold parse_command. pose proof (ask_expiries (world s)) as Hx. destruct (ask (world s)) as [w a].
  destruct (parsePutGetCommand a (response s)); intros Hp; apply keeps_of; cbn; eauto.
Qed.
Lemma new_client_keeps t s : keeps t s (fst (new_client s)).
Proof.
  unfold new_client. destruct (stageType _); try apply keeps_refl. apply keeps_of; try done. intros c cl _ _. cbn.
  exists (next_id s). eexists. split; [done|]. apply lookup_insert_eq.
Qed.
Lemma bind_keeps {A B} t (m : act W A) (f : A -> act W B) s :
  keeps t s (fst (m s)) -> (forall a s1, keeps t s1 (fst (f a s1))) -> keeps t s (fst ((m ≫= f) s)).
Proof.
  intros Hm Hf. unfold mbind, act_bind. destruct (m s) as [s1 [a|e| |]]; cbn in *; try done. eapply keeps_trans; [exact Hm|apply Hf].
Qed.
Lemma renew_keeps t s : keeps t s (fst (renewToken s)).
Proof.
  unfold renewToken. pose proof (clock_expiries (world s)) as Hx. destruct (clock (world s)) as [w now]. cbn in Hx.
  assert (keeps t s (set_world w s)) as Hk by (apply keeps_of; cbn; eauto).
  cbv zeta. destruct (_ >? _); [|exact Hk]. eapply keeps_trans; [exact Hk|]. apply bind_keeps; [apply parse_keeps|]. intros _ s1.
  apply bind_keeps; [apply new_client_keeps|]. intros _ s2. apply keeps_of; cbn; eauto.
Qed.

Lemma on_results_keeps (t : nat -> Prop) f s :
  (forall r r', f r = Done r' -> length (result_outcomes r') = length (result_outcomes r) /\ length (m_fileMetadatas r') = length (m_fileMetadatas r) /\
    (forall k, ~ t k -> result_outcomes r' !! k = result_outcomes r !! k) /\
    (forall k, m_fileMetadatas r !! k = Some (Some k) -> m_fileMetadatas r' !! k = Some (Some k))) ->
  keeps t s (fst (on_results f s)).
Proof.
  intros Hf. unfold on_results. destruct (m_executionResults s) as [p|] eqn:Ep; [|apply keeps_refl]. cbn [mbind option_bind].
  destruct (results s !! p) as [r|] eqn:Er; [|apply keeps_refl]. cbn [fmap option_fmap option_map]. destruct (f r) as [r'| |] eqn:Efr; try apply keeps_refl.
  destruct (Hf r r' Efr) as (L1 & L2 & O & M).
  assert (the_results s = Some r) as Ht by (unfold the_results; by rewrite Ep).
  assert (the_results (set_results (<[p := r']> (results s)) s) = Some r') as Ht'
    by (unfold the_results; cbn; rewrite Ep; cbn; apply lookup_insert_eq).
  split; cbn [fst].
  - intros nl ns [(r0 & E0 & H1 & H2) C L S]. rewrite Ht in E0. injection E0 as <-. split; try done. exists r'. by rewrite L1, L2.
  - intros k Hk (r0 & o & E0 & Ho & Hne). rewrite Ht in E0. injection E0 as <-. exists r', o. by rewrite O.
  - intros k (r0 & E0 & Hm). rewrite Ht in E0. injection E0 as <-. exists r'. auto.
  - done.
  - by unfold threaded.
  - split; [done|]. cbn. rewrite dom_insert_L. assert (p ∈ dom (results s)) by (apply elem_of_dom; by eexists). set_solver.
  - done.
Qed.

Lemma outcome_keeps o k s : keeps (eq k) s (fst (on_results (SetTransferOutCome o k) s)).
Proof.
  apply on_results_keeps. intros r r'. unfold SetTransferOutCome. destruct (_ <? _)%nat; [|done]. intros [= <-]. cbn.
  rewrite length_insert. split_and!; try done. intros k' Hk'. by rewrite list_lookup_insert_ne.
Qed.
Lemma entry_keeps k s : keeps (fun _ => False) s (fst (on_results (SetFileMetadata k k) s)).
Proof.
  apply on_results_keeps. intros r r'. unfold SetFileMetadata. destruct (Nat.ltb_spec k (length (m_fileMetadatas r))); [|done]. intros [= <-]. cbn.
  rewrite length_insert. split_and!; try done. intros k' Hk'. destruct (decide (k = k')) as [->|Hne]; [by apply list_lookup_insert_eq|by rewrite list_lookup_insert_ne].
Qed.
Lemma entry_set k s s' : on_results (SetFileMetadata k k) s = (s', Returns tt) -> entry s' k.
Proof.
  unfold on_results. destruct (m_executionResults s) as [p|] eqn:Ep; [|done]. cbn [mbind option_bind].
  destruct (results s !! p) as [r|] eqn:Er; [|done]. cbn [fmap option_fmap option_map]. unfold SetFileMetadata.
  destruct (Nat.ltb_spec k (length (m_fileMetadatas r))); [|done]. intros [= <-]. eexists. split.
  - unfold the_results. cbn. rewrite Ep. cbn. apply lookup_insert_eq.
  - cbn. by apply list_lookup_insert_eq.
Qed.
Lemma outcome_set o k s s' : on_results (SetTransferOutCome o k) s = (s', Returns tt) -> o <> TOKEN_EXPIRED -> recorded s' k.
Proof.
  unfold on_results. destruct (m_executionResults s) as [p|] eqn:Ep; [|done]. cbn [mbind option_bind].
  destruct (results s !! p) as [r|] eqn:Er; [|done]. cbn [fmap option_fmap option_map]. unfold SetTransferOutCome.
  destruct (Nat.ltb_spec k (length (result_outcomes r))); [|done]. intros [= <-] Ho. eexists _, o. split; [|split; [|done]].
  - unfold the_results. cbn. rewrite Ep. cbn. apply lookup_insert_eq.
  - cbn. by apply list_lookup_insert_eq.
Qed.

(** *** One file *)

Lemma set_file_lengths large i f l :
  length (m_largeFilesMeta (set_file large i f l)) = length (m_largeFilesMeta l) /\
  length (m_smallFilesMeta (set_file large i f l)) = length (m_smallFilesMeta l).
Proof. destruct large; cbn; by rewrite length_insert. Qed.
Lemma one_file_keeps t c large i s : keeps t s (fst (one_file c large i s)) /\ forall s' o, one_file c large i s = (s', Returns o) ->
  (expiries (world s') + (if bool_decide (o = TOKEN_EXPIRED) then 1 else 0) <= expiries (world s))%nat.
Proof.
  unfold one_file, storage_client, raw, mbind at 1 3, act_bind. destruct (lift (deref _)) as [cl|e| |]; try (split; [apply keeps_refl|done]).
  destruct (file_list large (lists s) !! i) as [f|]; [|by split; [apply keeps_refl|]].
  assert (forall w f' o, (expiries w + (if bool_decide (o = TOKEN_EXPIRED) then 1 else 0) <= expiries (world s))%nat ->
    keeps t s (set_world w (set_lists (set_file large i f' (lists s)) s))) as Hk.
  { intros w f' o Hx. destruct (set_file_lengths large i f' (lists s)). apply keeps_of; cbn; eauto. lia. }
  destruct c.
  - destruct (upload_one cl _ f _) as [[[w f'] o]| | |] eqn:E; try (split; [apply keeps_refl|done]).
    apply upload_expiries in E. split; [by eapply Hk|]. by intros s' o' [= <- <-].
  - destruct (download_one cl _ f _) as [[[w f'] o]| | |] eqn:E; try (split; [apply keeps_refl|done]).
    apply download_expiries in E. split; [by eapply Hk|]. by intros s' o' [= <- <-].
  - destruct (download_one cl _ f _) as [[[w f'] o]| | |] eqn:E; try (split; [apply keeps_refl|done]).
    apply download_expiries in E. split; [by eapply Hk|]. by intros s' o' [= <- <-].
Qed.

Lemma single_keeps c large i k s : keeps (eq k) s (fst (SingleFile c large i k s)) /\
  forall s' o, SingleFile c large i k s = (s', Returns o) ->
    (expiries (world s') + (if bool_decide (o = TOKEN_EXPIRED) then 1 else 0) <= expiries (world s))%nat /\
    (o <> TOKEN_EXPIRED -> recorded s' k).
Proof.
  destruct (one_file_keeps (eq k) c large i s) as [Hk Hx]. unfold SingleFile. split.
  - apply bind_keeps; [exact Hk|]. intros o s1. apply bind_keeps; [apply outcome_keeps|]. intros _ s2. apply keeps_refl.
  - intros s' o (s1 & o' & E1 & (s2 & [] & E2 & [= -> ->])%bind_run)%bind_run. specialize (Hx s1 o E1).
    pose proof (outcome_keeps o k s1) as Hk2. rewrite E2 in Hk2. pose proof (k_expiries _ _ _ Hk2) as Hx2. cbn in Hx2.
    split; [lia|]. by eapply outcome_set.
Qed.
Lemma single_ends c large i k s : snd (SingleFile c large i k s) <> Unfinished.
Proof.
  unfold SingleFile. apply bind_ends.
  - unfold one_file, storage_client, raw, mbind at 1, act_bind. destruct (p ← m_storageClient s; clients s !! p) as [cl|]; [|done]. cbn [deref lift].
    destruct (file_list large (lists s) !! i) as [f|]; [|done]. destruct c.
    + pose proof (upload_ends cl (encryptionMaterials (response s)) f (world s)). by destruct (upload_one _ _ _ _) as [[[? ?] ?]| | |].
    + pose proof (download_ends cl (r_localLocation (response s)) f (world s)). by destruct (download_one _ _ _ _) as [[[? ?] ?]| | |].
    + pose proof (download_ends cl (r_localLocation (response s)) f (world s)). by destruct (download_one _ _ _ _) as [[[? ?] ?]| | |].
  - intros s1 o _. apply bind_ends; [|done]. unfold on_results. by repeat case_match.
Qed.

Lemma cpp_bind_ends {A B} (c : cpp A) (f : A -> cpp B) : c <> Unfinished -> (forall a, f a <> Unfinished) -> (c ≫= f) <> Unfinished.
Proof. intros Hc Hf. destruct c; [apply Hf|done..]. Qed.
Lemma deref_ends {A} (p : option A) : lift (deref p) <> Unfinished.
Proof. by destruct p. Qed.
Lemma std_string_ends t : std_string t <> Unfinished.
Proof. by destruct t. Qed.
Lemma valuestring_ends v : valuestring_of v <> Unfinished.
Proof. apply cpp_bind_ends; [apply deref_ends|]. intros c. apply std_string_ends. Qed.
Lemma parse_answer_ends a r : parsePutGetCommand a r <> Unfinished.
Proof.
  assert (forall src n i, src_loop src n i <> Unfinished) as Hsrc.
  { intros src n. induction n as [|n IH]; intros i; [done|]. apply cpp_bind_ends; [apply valuestring_ends|]. intros t. apply cpp_bind_ends; [apply IH|done]. }
  assert (forall m n i, materials_loop m n i <> Unfinished) as Hmat.
  { intros m n. induction n as [|n IH]; intros i; [done|]. apply cpp_bind_ends; [|intros t; apply cpp_bind_ends; [apply IH|done]].
    unfold material_of. repeat (apply cpp_bind_ends; [first [apply valuestring_ends|apply deref_ends]|intros ?]). done. }
  unfold parsePutGetCommand. apply cpp_bind_ends; [apply deref_ends|]. intros p. apply cpp_bind_ends; [apply Hsrc|]. intros srcs.
  apply cpp_bind_ends.
  - destruct (_ =? 0); [apply cpp_bind_ends; [apply std_string_ends|done]|]. destruct (_ =? 0); [apply cpp_bind_ends; [apply Hmat|done]|done].
  - intros [cmd ms]. repeat (apply cpp_bind_ends; [first [apply std_string_ends|apply deref_ends]|intros ?]). done.
Qed.
Lemma parse_ends s : snd (parse_command s) <> Unfinished.
Proof.
  unfold parse_command. destruct (ask (world s)) as [w a]. pose proof (parse_answer_ends a (response s)). by destruct (parsePutGetCommand a (response s)).
Qed.
Lemma renew_ends s : snd (renewToken s) <> Unfinished.
Proof.
  unfold renewToken. destruct (clock (world s)) as [w now]. cbv zeta. destruct (_ >? _); [|done].
  apply bind_ends; [apply parse_ends|]. intros s1 _ _. apply bind_ends; [|done]. unfold new_client. by destruct (stageType _).
Qed.

(** *** The large files *)

Definition moved (n : nat) s : Prop := forall k, (k < n)%nat -> recorded s k /\ entry s k.
Lemma keeps_moved n s s' : keeps (fun k => (n <= k)%nat) s s' -> moved n s -> moved n s'.
Proof. intros Hk Hm k Hlt. destruct (Hm k Hlt) as [Hr He]. split; [|by eapply k_entry]. eapply k_recorded; [exact Hk| |exact Hr]. cbv beta. lia. Qed.

Lemma large_loop_moves c fuel : forall i s s',
  large_loop c fuel i s = (s', Returns tt) -> (i <= length (m_largeFilesMeta (lists s)))%nat -> moved i s ->
  keeps (fun k => (i <= k)%nat) s s' /\ moved (length (m_largeFilesMeta (lists s))) s'.
Proof.
  induction fuel as [|fuel IH]; intros i s s'; cbn [large_loop].
  - destruct (Nat.ltb_spec i (length (m_largeFilesMeta (lists s)))); [done|]. intros [= <-] Hi Hm. split; [apply keeps_refl|].
    by replace (length (m_largeFilesMeta (lists s))) with i by lia.
  - destruct (Nat.ltb_spec i (length (m_largeFilesMeta (lists s)))) as [Hlt|].
    2: { intros [= <-] Hi Hm. split; [apply keeps_refl|]. by replace (length (m_largeFilesMeta (lists s))) with i by lia. }
    intros (s1 & [] & E1 & (s2 & o & E2 & E)%bind_run)%bind_run Hi Hm.
    pose proof (entry_keeps i s) as K1. rewrite E1 in K1. cbn in K1.
    destruct (single_keeps c true i i s1) as [K2 Ho]. rewrite E2 in K2. cbn in K2. destruct (Ho s2 o E2) as [_ Hrec].
    assert (keeps (fun k => (i <= k)%nat) s s2) as K.
    { eapply keeps_trans; [apply (keeps_weaken (fun _ => False)); [done|exact K1]|]. apply (keeps_weaken (eq i)); [|exact K2]. intros k <-. done. }
    assert (forall s2', keeps (fun k => (i <= k)%nat) s s2' -> length (m_largeFilesMeta (lists s2')) = length (m_largeFilesMeta (lists s))) as Hlen
      by (intros s2' K'; apply (k_lengths _ _ _ K')).
    destruct (bool_decide_reflect (o = TOKEN_EXPIRED)) as [->|Hne].
    + apply bind_run in E as (s3 & [] & E3 & E). pose proof (renew_keeps (fun k => (i <= k)%nat) s2) as K3. rewrite E3 in K3. cbn in K3.
      pose proof (keeps_trans _ _ _ _ K K3) as K'. destruct (IH i s3 s' E) as [K4 Hm']; [rewrite Hlen by done; lia|by eapply keeps_moved|].
      split; [by eapply keeps_trans|]. by rewrite Hlen in Hm'.
    + destruct (IH (S i) s2 s' E) as [K4 Hm']; [rewrite Hlen by done; lia| |].
      * intros k Hk. destruct (decide (k = i)) as [->|]; [|apply (keeps_moved i s s2 K Hm k); lia]. split; [by apply Hrec|].
        eapply k_entry; [exact K2|]. by eapply entry_set.
      * split; [|by rewrite Hlen in Hm']. eapply keeps_trans; [exact K|]. eapply keeps_weaken; [|exact K4]. intros k Hk. cbv beta in *. lia.
Qed.
Lemma on_results_ends f s : snd (on_results f s) <> Unfinished.
Proof. unfold on_results. by repeat case_match. Qed.

Lemma large_loop_ends c e : forall k i s, (expiries (world s) <= e)%nat -> (length (m_largeFilesMeta (lists s)) <= k + i)%nat ->
  exists fuel, snd (large_loop c fuel i s) <> Unfinished.
Proof.
  induction e as [e IHe] using lt_wf_ind. induction k as [|k IHk]; intros i s He Hk.
  { exists O. cbn [large_loop]. by destruct (Nat.ltb_spec i (length (m_largeFilesMeta (lists s)))); [lia|]. }
  destruct (Nat.ltb_spec i (length (m_largeFilesMeta (lists s)))) as [Hlt|Hge].
  2: { exists O. cbn [large_loop]. by destruct (Nat.ltb_spec i (length (m_largeFilesMeta (lists s)))); [lia|]. }
  apply Nat.ltb_lt in Hlt.
  pose proof (entry_keeps i s) as K1. pose proof (on_results_ends (SetFileMetadata i i) s) as N1.
  destruct (on_results (SetFileMetadata i i) s) as [s1 r1] eqn:E1. cbn in K1, N1.
  destruct (single_keeps c true i i s1) as [K2 Ho]. pose proof (single_ends c true i i s1) as N2.
  destruct (SingleFile c true i i s1) as [s2 r2] eqn:E2. cbn in K2, N2.
  pose proof (renew_keeps (eq i) s2) as K3. pose proof (renew_ends s2) as N3. destruct (renewToken s2) as [s3 r3] eqn:E3. cbn in K3, N3.
  pose proof (k_lengths _ _ _ K1) as [L1 _]. pose proof (k_lengths _ _ _ K2) as [L2 _]. pose proof (k_lengths _ _ _ K3) as [L3 _].
  pose proof (k_expiries _ _ _ K1) as X1. pose proof (k_expiries _ _ _ K2) as X2. pose proof (k_expiries _ _ _ K3) as X3.
  assert (forall fuel, large_loop c (S fuel) i s = match r1, r2, r3 with
    | Returns _, Returns o, _ => if bool_decide (o = TOKEN_EXPIRED)
        then (match r3 with Returns _ => large_loop c fuel i s3 | Throws x => (s3, Throws x) | Dies => (s3, Dies) | Unfinished => (s3, Unfinished) end)
        else large_loop c fuel (S i) s2
    | Returns _, Throws x, _ => (s2, Throws x) | Returns _, Dies, _ => (s2, Dies) | Returns _, Unfinished, _ => (s2, Unfinished)
    | Throws x, _, _ => (s1, Throws x) | Dies, _, _ => (s1, Dies) | Unfinished, _, _ => (s1, Unfinished) end) as Estep.
  { intros fuel. cbn [large_loop]. rewrite Hlt. unfold mbind, act_bind. rewrite E1. destruct r1; try done. rewrite E2. destruct r2 as [o|?| |]; try done.
    destruct (bool_decide (o = TOKEN_EXPIRED)); [|done]. by rewrite E3. }
  destruct r1 as [[]|x| |]; [|by exists 1%nat; rewrite Estep..]. destruct r2 as [o|x| |]; [|by exists 1%nat; rewrite Estep..].
  destruct (Ho s2 o eq_refl) as [Hx _]. destruct (bool_decide (o = TOKEN_EXPIRED)) eqn:Eo.
  - destruct r3 as [[]|x| |]; [|by exists 1%nat; rewrite Estep..].
    destruct (IHe (e - 1)%nat ltac:(lia) (length (m_largeFilesMeta (lists s3))) i s3 ltac:(lia) ltac:(lia)) as [fuel Hf]. exists (S fuel). by rewrite Estep.
  - destruct (IHk (S i) s2 ltac:(lia) ltac:(lia)) as [fuel Hf]. exists (S fuel). by rewrite Estep.
Qed.

(** *** The small files *)

Section Small.
  Context (c : CommandType) (nl ns n : nat) (s0 : agent W).
  Hypothesis ready0 : ready nl ns s0.

Definition is_job (j : nat) (w : option file_job) : Prop := w = Some (Transfer j) \/ w = Some (Renew j).
Definition small_inv (todo : list nat) (rs : list (option file_job)) (sh : agent W * bool) : Prop :=
  snd sh = true \/
  (keeps (fun k => (nl <= k)%nat) s0 (fst sh) /\
   forall j, (j < ns)%nat -> j ∈ todo \/ (exists t w, rs !! t = Some w /\ is_job j w) \/ recorded (fst sh) (j + nl)).

Lemma small_begin j q rs sh i : small_inv (j :: q) rs sh -> rs !! i = Some None -> small_inv q (<[i := Some (Transfer j)]> rs) sh.
Proof.
  intros [Hc|(K & J)] Hi; [by left|]. right. split; [done|]. intros j' Hj'.
  destruct (J j' Hj') as [[->|Hin]%elem_of_cons|[(t & w & Ht & Hw)|Hrec]]; [|by left| |by right; right].
  - right. left. exists i, (Some (Transfer j)). rewrite list_lookup_insert_eq by (by eapply lookup_lt_Some). split; [done|by left].
  - right. left. exists t, w. rewrite list_lookup_insert_ne; [done|]. intros ->. rewrite Hi in Ht. injection Ht as <-. by destruct Hw.
Qed.

(** What a job does to the agent. *)
Lemma file_step_spec w s w' s' cr b : file_step c w (s, false) = Some (w', (s', cr), b) ->
  b = false /\ (ready nl ns s -> cr = true \/
    exists j, is_job j (Some w) /\ keeps (eq (j + nl)%nat) s s' /\ (is_job j w' \/ (w' = None /\ recorded s' (j + nl))) /\
      (match w, w' with Transfer _, Some _ => 1 | _, _ => 0 end + expiries (world s') <= expiries (world s))%nat /\
      match w, w' with Transfer _, Some (Transfer _) | Renew _, Some (Renew _) | Renew _, None => False | _, _ => True end).
Proof.
  cbn [file_step]. destruct w as [j|j]; unfold job_ends; intros [= E].
  - assert (b = false) as -> by (destruct (snd _); by injection E). split; [done|]. intros R. rewrite (r_large _ _ _ R) in E.
    destruct (single_keeps c false j (j + nl) s) as [K Ho].
    destruct (SingleFile c false j (j + nl) s) as [s1 r] eqn:Er. cbn in K, E. destruct r as [o|x| |]; injection E as <- <- <-; try by left.
    right. destruct (Ho s1 o eq_refl) as [Hx Hrec]. exists j. split; [by left|]. split; [done|].
    destruct (bool_decide_reflect (o = TOKEN_EXPIRED)) as [->|Hne]; (split; [|split; [cbn in *; lia|done]]); [left; by right|right; auto].
  - assert (b = false) as -> by (destruct (snd _); by injection E). split; [done|]. intros R. pose proof (renew_keeps (eq (j + nl)%nat) s) as K.
    destruct (renewToken s) as [s1 r] eqn:Er. cbn in K, E. destruct r as [[]|x| |]; injection E as <- <- <-; try by left.
    right. exists j. split; [by right|]. split; [done|]. split; [left; by left|]. split; [|done]. pose proof (k_expiries _ _ _ K). lia.
Qed.

Lemma small_step q rs sh i w w' sh' b :
  small_inv q rs sh -> rs !! i = Some (Some w) -> file_step c w sh = Some (w', sh', b) ->
  small_inv q (wake_all id b (<[i := w']> rs)) sh' /\ b = false.
Proof.
  intros Hinv Hi Hstep. destruct sh as [s crashed], sh' as [s' cr]. destruct Hinv as [Hc|(K0 & J)].
  { cbn in Hc. subst crashed. injection Hstep as <- <- <- <-. split; [by left|done]. }
  cbn [fst snd] in *. destruct crashed; [injection Hstep as <- <- <- <-; split; [by left|done]|].
  destruct (file_step_spec w s w' s' cr b Hstep) as [-> Hspec]. split; [|done]. destruct (Hspec (k_ready _ _ _ K0 _ _ ready0)) as [->|(j & Hj & K & Hw' & _ & _)]; [by left|].
  right. cbn [fst snd wake_all]. pose proof (lookup_lt_Some _ _ _ Hi) as Hlt. split.
  - eapply keeps_trans; [exact K0|]. eapply keeps_weaken; [|exact K]. intros k <-. lia.
  - intros j' Hj'. destruct (decide (j' = j)) as [->|Hne].
    { destruct Hw' as [Hw'|[-> Hrec]]; [|by right; right]. right. left. exists i, w'. by rewrite list_lookup_insert_eq. }
    destruct (J j' Hj') as [Hin|[(t & v & Ht & Hv)|Hrec]]; [by left| |].
    + right. left. exists t, v. rewrite list_lookup_insert_ne; [done|]. intros ->. rewrite Hi in Ht. injection Ht as <-.
      destruct Hj as [[= ->]|[= ->]], Hv as [[= ->]|[= ->]]; done.
    + right. right. eapply k_recorded; [exact K|lia|done].
Qed.

#[export] Instance file_jobs :
  Jobs n (fun j _ => Transfer j) (file_step c) id small_inv (fun w => match w with Transfer _ => 1 | Renew _ => 2 end)%nat
    (fun sh : agent W * bool => if snd sh then 0 else 2 * expiries (world (fst sh)))%nat 1.
Proof.
  split; try (by intros).
  - intros. by apply small_begin.
  - intros. by eapply small_step.
  - intros w. unfold id. lia.
  - intros q rs [s crashed] i w w' [s' cr] b Hinv Hi Hstep. destruct crashed.
    { injection Hstep as <- <- <- <-. cbn. lia. }
    destruct Hinv as [Hc|(K0 & _)]; [done|]. destruct (file_step_spec w s w' s' cr b Hstep) as [-> Hspec].
    destruct (Hspec (k_ready _ _ _ K0 _ _ ready0)) as [->|(j & Hj & K & _ & Hx & Hshape)]; cbn [fst snd].
    + assert (w' = None) as ->; [|lia]. revert Hstep. cbn [file_step]. destruct w; unfold job_ends;
        (intros [= E]; destruct (snd _); by injection E).
    + destruct cr; [assert (w' = None) as ->; [|lia]; revert Hstep; cbn [file_step]; destruct w; unfold job_ends; (intros [= E]; destruct (snd _); by injection E)|].
      destruct w, w' as [[]|]; try done; cbn in *; lia.
Qed.

Lemma small_unblocked : never_blocked (file_step c) small_inv.
Proof.
  intros q rs [s crashed] i w _ Hw. exists i, w. split; [done|]. cbn [file_step]. destruct crashed; [done|]. by destruct w.
Qed.
End Small.

Lemma set_entries_spec first m : forall s, keeps (fun _ => False) s (fst (set_entries first m s)) /\ snd (set_entries first m s) <> Unfinished /\
  forall s', set_entries first m s = (s', Returns tt) -> forall k, (first <= k < first + m)%nat -> entry s' k.
Proof.
  induction m as [|m IH]; intros s; [split_and!; [apply keeps_refl|done|intros s' _ k Hk; lia]|]. cbn [set_entries].
  destruct (IH s) as (K & N & E). split_and!.
  - apply bind_keeps; [exact K|]. intros _ s1. apply entry_keeps.
  - apply bind_ends; [exact N|]. intros s1 [] _. apply on_results_ends.
  - intros s' (s1 & [] & E1 & E2)%bind_run k Hk. destruct (decide (k = first + m)%nat) as [->|Hne]; [by eapply entry_set|].
    pose proof (entry_keeps (first + m) s1) as K2. rewrite E2 in K2. eapply k_entry; [exact K2|]. apply (E s1 E1). lia.
Qed.

Lemma small_start c nl ns n s : ready nl ns s -> 0 < Z.of_nat n < 2 ^ 32 ->
  let tp := ThreadPool n (map AddJob (List.seq 0 ns) ++ [WaitAll]) (s, false) in
  (forall es s', finish (transfer_run c es tp) = Returns (s', false) ->
    keeps (fun k => (nl <= k)%nat) s s' /\ forall j, (j < ns)%nat -> recorded s' (j + nl)) /\
  exists es r, finish (transfer_run c es tp) = Returns r.
Proof.
  intros R Hn tp. pose proof (file_jobs c nl ns n s R) as Hjobs.
  assert (small_inv nl ns s (List.seq 0 ns) (replicate n None) (s, false)) as Hinit.
  { right. split; [apply keeps_refl|]. intros j Hj. left. apply elem_of_seq. lia. }
  assert ((0 < n)%nat /\ Z.of_nat n < 2 ^ 32) as Hn' by lia. split.
  - intros es s' Hend. unfold transfer_run in Hend. destruct (run _ _ _ es tp) as [e|] eqn:Er; [|done]. cbn [finish] in Hend.
    destruct (prog e) eqn:Ep; [|done]. injection Hend as Hs. destruct (batch_runs (Hjobs := Hjobs) _ _ Hn' Hinit) as [bound Hrun].
    destruct (Hrun es e Er) as (Hinv & Hover & _). destruct (Hover Ep) as [Htodo Hidle]. rewrite Htodo, Hs in Hinv.
    destruct Hinv as [|(K & J)]; [done|]. split; [exact K|]. intros j Hj. destruct (J j Hj) as [Hin|[(t & w & Ht & Hw)|]]; [by apply elem_of_nil in Hin| |done].
    rewrite (Hidle t w Ht) in Hw. by destruct Hw.
  - destruct (batch_ends (Hjobs := Hjobs) _ _ Hn' Hinit (small_unblocked c nl ns s)) as (es & e & Er & Ep).
    exists es, (shared e). unfold transfer_run. unfold tp. rewrite Er. cbn [finish]. by rewrite Ep.
Qed.

(** Every file is moved, for every schedule that ends; and some schedule ends. *)
Lemma parallel_moves c nl ns s : ready nl ns s -> moved nl s -> 0 < u32 (r_parallel (response s)) ->
  (forall es s', FilesInParallel c es s = (s', Returns tt) -> keeps (fun k => (nl <= k)%nat) s s' /\ moved (nl + ns) s') /\
  exists es, snd (FilesInParallel c es s) <> Unfinished.
Proof.
  intros R M Hpar. pose proof (wrapU_range 32 (r_parallel (response s)) ltac:(lia)) as Hmax.
  set (n := Z.to_nat (u32 (r_parallel (response s)))). assert (0 < Z.of_nat n < 2 ^ 32) as Hn by (unfold n; lia).
  destruct (set_entries_spec nl ns s) as (K1 & N1 & E1). destruct (set_entries nl ns s) as [s1 r1] eqn:Eset. cbn in K1, N1.
  assert (forall es, FilesInParallel c es s = match r1 with
    | Returns _ => match finish (transfer_run c es (ThreadPool n (map AddJob (List.seq 0 ns) ++ [WaitAll]) (s1, false))) with
        | Returns (s, false) => (s, Returns tt) | Returns (s, true) => (s, Dies) | _ => (s1, Unfinished) end
    | Throws x => (s1, Throws x) | Dies => (s1, Dies) | Unfinished => (s1, Unfinished) end) as Eq.
  { intros es. unfold FilesInParallel, get, raw, mbind, act_bind. rewrite (r_large _ _ _ R), (r_small _ _ _ R), Eset. by destruct r1. }
  destruct r1 as [[]|x| |]; [|by split; [intros es s'; rewrite Eq|exists []; rewrite Eq]..].
  destruct (small_start c nl ns n s1 (k_ready _ _ _ K1 _ _ R) Hn) as [Hall (es & [s3 b] & Hes)]. split.
  - intros es' s'. rewrite Eq. destruct (finish (transfer_run c es' _)) as [[s2 [|]]|x| |] eqn:Ef; intros E; try done. assert (s2 = s') as -> by congruence. destruct (Hall es' s' Ef) as [K2 Hrec].
    split; [eapply keeps_trans; [|exact K2]; by eapply keeps_weaken; [|exact K1]|].
    intros k Hk. split.
    + destruct (Nat.lt_ge_cases k nl) as [Hlt|Hge].
      * eapply k_recorded; [exact K2|cbv beta; lia|]. eapply k_recorded; [exact K1|by intros []|]. by apply M.
      * replace k with (k - nl + nl)%nat by lia. apply Hrec. lia.
    + eapply k_entry; [exact K2|]. destruct (Nat.lt_ge_cases k nl) as [Hlt|Hge]; [|apply (E1 s1 eq_refl); lia].
      eapply k_entry; [exact K1|]. by apply M.
  - exists es. rewrite Eq, Hes. by destruct b.
Qed.

(** *** The whole command *)

Lemma list_source_keeps i s : (expiries (world (fst (list_source i s))) <= expiries (world s))%nat /\ snd (list_source i s) <> Unfinished /\
  (forall o, snd (list_source i s) = Returns o -> (expiries (world (fst (list_source i s))) + (if bool_decide (o = TOKEN_EXPIRED) then 1 else 0) <= expiries (world s))%nat) /\
  results (fst (list_source i s)) = results s /\ m_executionResults (fst (list_source i s)) = m_executionResults s /\
  clients (fst (list_source i s)) = clients s /\ m_storageClient (fst (list_source i s)) = m_storageClient s /\ response (fst (list_source i s)) = response s.
Proof.
  unfold list_source, get, calls, storage_client, throw, raw. unfold mbind, act_bind.
  destruct (srcLocations (response s) !! i) as [src|]; cbn [or_throw]; [|by split_and!]. destruct (r_command (response s)).
  - pose proof (list_local_ends (response s) src (lists s) (world s)). destruct (list_local _ _ _ _) as [l|x| |]; split_and!; try done.
    cbn. intros o [= <-]. rewrite bool_decide_eq_false_2 by done. lia.
  - destruct (encryptionMaterials (response s) !! i) as [mat|]; cbn [or_throw]; [|by split_and!].
    cbv beta iota. destruct (option_bind _ _ _ _) as [cl|]; cbn [deref lift]; [|by split_and!].
    pose proof (list_remote_ends cl src (stage_location (stageInfo (response s))) mat (lists s) (world s)).
    destruct (list_remote _ _ _ _ _ _) as [[[w o] l]|x| |] eqn:E; try by split_and!. apply list_expiries in E. cbn.
    split_and!; try done; [destruct (bool_decide _); lia|]. by intros o' [= <-].
  - by split_and!.
Qed.

(** What listing leaves: the results and the pointer to them, a client, a pool with threads. *)
Definition client_live s : Prop := exists c cl, m_storageClient s = Some c /\ clients s !! c = Some cl.
Record calm s s' : Prop := {
  c_results : results s' = results s; c_pointer : m_executionResults s' = m_executionResults s;
  c_client : client_live s -> client_live s'; c_threaded : threaded s -> threaded s';
  c_expiries : (expiries (world s') <= expiries (world s))%nat
}.
Lemma calm_refl s : calm s s.
Proof. by split. Qed.
Lemma calm_trans s1 s2 s3 : calm s1 s2 -> calm s2 s3 -> calm s1 s3.
Proof. intros [A1 B1 C1 D1 E1] [A2 B2 C2 D2 E2]. split; [congruence..|auto|auto|lia]. Qed.
Lemma bind_calm {A B} (m : act W A) (f : A -> act W B) s :
  calm s (fst (m s)) -> (forall a s1, calm s1 (fst (f a s1))) -> calm s (fst ((m ≫= f) s)).
Proof.
  intros Hm Hf. unfold mbind, act_bind. destruct (m s) as [s1 [a|e| |]]; cbn in *; try done. eapply calm_trans; [exact Hm|apply Hf].
Qed.
Lemma parse_calm s : calm s (fst (parse_command s)).
Proof.
  pose proof (k_threaded _ _ _ (parse_keeps (fun _ => True) s)) as Ht. pose proof (k_expiries _ _ _ (parse_keeps (fun _ => True) s)) as Hx.
  revert Ht Hx. unfold parse_command. destruct (ask (world s)) as [w a]. by destruct (parsePutGetCommand a (response s)).
Qed.
Lemma new_client_calm s : calm s (fst (new_client s)) /\ (snd (new_client s) = Returns tt -> client_live (fst (new_client s))).
Proof.
  unfold new_client. destruct (stageType _); try (by split; [apply calm_refl|]).
  assert (client_live (mk_agent (results s) (<[next_id s := mk_client (stageInfo (response s)) (u32 (r_parallel (response s)))]> (clients s)) (S (next_id s))
    (m_executionResults s) (Some (next_id s)) (lists s) (response s) (m_lastRefreshTokenSec s) (world s))) as Hc
    by (do 2 eexists; split; [done|apply lookup_insert_eq]).
  by split.
Qed.
Lemma renew_calm s : calm s (fst (renewToken s)).
Proof.
  unfold renewToken. pose proof (clock_expiries (world s)) as Hx. destruct (clock (world s)) as [w now]. cbv zeta.
  assert (calm s (set_world w s)) as Hk by by split. destruct (_ >? _); [|exact Hk].
  eapply calm_trans; [exact Hk|]. apply bind_calm; [apply parse_calm|]. intros _ s1. apply bind_calm; [apply new_client_calm|]. by split.
Qed.
Lemma list_source_calm i s : calm s (fst (list_source i s)).
Proof.
  destruct (list_source_keeps i s) as (Hx & _ & _ & Hr & Hp & Hc & Hm & Ha). split; try done.
  - unfold client_live. by rewrite Hc, Hm.
  - unfold threaded. by rewrite Ha.
Qed.
Lemma init_loop_calm fuel : forall i s, calm s (fst (init_loop fuel i s)).
Proof.
  induction fuel as [|fuel IH]; intros i s; cbn [init_loop]; destruct (_ <? _)%nat; try apply calm_refl.
  apply bind_calm; [apply list_source_calm|]. intros o s1. destruct (bool_decide _); [|apply IH]. apply bind_calm; [apply renew_calm|]. intros _ s2. apply IH.
Qed.
Lemma init_loop_ends e : forall k i s, (expiries (world s) <= e)%nat -> (length (srcLocations (response s)) <= k + i)%nat ->
  exists fuel, snd (init_loop fuel i s) <> Unfinished.
Proof.
  induction e as [e IHe] using lt_wf_ind. induction k as [|k IHk]; intros i s He Hk.
  { exists O. cbn [init_loop]. by destruct (Nat.ltb_spec i (length (srcLocations (response s)))); [lia|]. }
  destruct (Nat.ltb_spec i (length (srcLocations (response s)))) as [Hlt|Hge].
  2: { exists O. cbn [init_loop]. by destruct (Nat.ltb_spec i (length (srcLocations (response s)))); [lia|]. }
  apply Nat.ltb_lt in Hlt. destruct (list_source_keeps i s) as (Hx & Hn & Ho & _ & _ & _ & _ & Ha).
  destruct (list_source i s) as [s1 r1] eqn:E1. cbn [fst snd] in *.
  pose proof (c_expiries _ _ (renew_calm s1)) as Hx2. pose proof (renew_ends s1) as N2. destruct (renewToken s1) as [s2 r2] eqn:E2. cbn [fst snd] in *.
  assert (forall fuel, init_loop (S fuel) i s = match r1 with
    | Returns o => if bool_decide (o = TOKEN_EXPIRED)
        then (match r2 with Returns _ => init_loop fuel i s2 | Throws x => (s2, Throws x) | Dies => (s2, Dies) | Unfinished => (s2, Unfinished) end)
        else init_loop fuel (S i) s1
    | Throws x => (s1, Throws x) | Dies => (s1, Dies) | Unfinished => (s1, Unfinished) end) as Estep.
  { intros fuel. cbn [init_loop]. rewrite Hlt. unfold mbind, act_bind. rewrite E1. destruct r1 as [o|?| |]; try done.
    destruct (bool_decide (o = TOKEN_EXPIRED)); [|done]. by rewrite E2. }
  destruct r1 as [o|x| |]; [|by exists 1%nat; rewrite Estep..]. specialize (Ho o eq_refl). destruct (bool_decide (o = TOKEN_EXPIRED)) eqn:Eo.
  - destruct r2 as [[]|x| |]; [|by exists 1%nat; rewrite Estep..].
    destruct (IHe (e - 1)%nat ltac:(lia) (length (srcLocations (response s2))) i s2 ltac:(lia) ltac:(lia)) as [fuel Hf]. exists (S fuel). by rewrite Estep.
  - destruct (IHk (S i) s1 ltac:(lia) ltac:(by rewrite Ha; lia)) as [fuel Hf]. exists (S fuel). by rewrite Estep.
Qed.

(** Between two commands: no results but those [m_executionResults] points to, or dangles from. *)
Definition tidy s : Prop := dom (results s) = match m_executionResults s with Some p => {[ p ]} | None => ∅ end.

(** *** From the results' creation to the end *)

Lemma transfer_all_moves c nl ns s : ready nl ns s -> threaded s ->
  (forall fuel es s', transfer_all c fuel es s = (s', Returns tt) ->
    moved (nl + ns) s' /\ ready nl ns s' /\ m_executionResults s' = m_executionResults s /\ dom (results s') = dom (results s)) /\
  exists fuel es, snd (transfer_all c fuel es s) <> Unfinished.
Proof.
  intros R T. pose proof (r_large _ _ _ R) as Hl.
  assert (forall fuel s1, large_loop c fuel 0 s = (s1, Returns tt) -> keeps (fun _ => True) s s1 /\ moved nl s1) as Hlarge.
  { intros fuel s1 E1. destruct (large_loop_moves c fuel 0 s s1 E1) as [K M]; [lia|intros k; lia|]. rewrite Hl in M. split; [|done].
    by eapply keeps_weaken; [|exact K]. }
  assert (forall fuel es s1, large_loop c fuel 0 s = (s1, Returns tt) ->
    transfer_all c fuel es s = if (0 <? ns)%nat then FilesInParallel c es s1 else (s1, Returns tt)) as Eq.
  { intros fuel es s1 E1. destruct (Hlarge fuel s1 E1) as [K _]. unfold transfer_all, get, mbind, act_bind. rewrite E1.
    rewrite (proj2 (k_lengths _ _ _ K)), (r_small _ _ _ R). by destruct (0 <? ns)%nat. }
  split.
  - intros fuel es s' E. pose proof E as (s1 & [] & E1 & _)%bind_run. destruct (Hlarge fuel s1 E1) as [K M].
    pose proof (k_ready _ _ _ K _ _ R) as R1. pose proof (k_pointer _ _ _ K) as [P1 D1]. rewrite (Eq fuel es s1 E1) in E.
    destruct (Nat.ltb_spec 0 ns) as [Hpos|Hz].
    + destruct (parallel_moves c nl ns s1 R1 M (k_threaded _ _ _ K T)) as [Hall _]. destruct (Hall es s' E) as [K2 M2].
      pose proof (k_pointer _ _ _ K2) as [P2 D2]. split_and!; [done|by eapply k_ready|congruence|congruence].
    + injection E as <-. split_and!; try done. by replace (nl + ns)%nat with nl by lia.
  - destruct (large_loop_ends c (expiries (world s)) nl 0 s) as [fuel Hf]; [lia|lia|]. exists fuel.
    destruct (large_loop c fuel 0 s) as [s1 r1] eqn:E1. destruct r1 as [[]|x| |].
    2-4: exists []; unfold transfer_all, mbind at 1, act_bind; by rewrite E1.
    destruct (Hlarge fuel s1 E1) as [K M]. pose proof (k_ready _ _ _ K _ _ R) as R1.
    destruct (parallel_moves c nl ns s1 R1 M (k_threaded _ _ _ K T)) as [_ [es Hes]]. exists es. rewrite (Eq fuel es s1 E1). by destruct (0 <? ns)%nat.
Qed.

Lemma new_results_ready c s : client_live s -> results s = ∅ ->
  let s' := fst (new_results c s) in
  ready (length (m_largeFilesMeta (lists s))) (length (m_smallFilesMeta (lists s))) s' /\ (threaded s -> threaded s') /\ tidy s'.
Proof.
  intros Hc Hr. cbn. split_and!; [|done|].
  - split; try done. eexists. split; [unfold the_results; cbn; apply lookup_insert_eq|]. cbn. by rewrite !length_replicate.
  - unfold tidy. cbn. rewrite Hr, insert_empty, dom_singleton_L. done.
Qed.

(** After [reset], [parse_command], [new_client] and the listing. *)
Definition prepare (listing : nat) : act W () := _ ← reset; _ ← parse_command; _ ← new_client; initFileMetadata listing 0.
Lemma execute_prepared listing fuel es s : execute listing fuel es s =
  (_ ← prepare listing;
   r ← get response;
   _ ← (match r_command r with
        | UPLOAD => upload fuel es
        | DOWNLOAD => download fuel es
        | UNKNOWN_COMMAND => throw (SnowflakeTransferException INTERNAL_ERROR)
        end);
   get m_executionResults) s.
Proof.
  unfold execute, prepare, mbind, act_bind. destruct (reset s) as [s1 [[]|x| |]]; try done. destruct (parse_command s1) as [s2 [[]|x| |]]; try done.
  by destruct (new_client s2) as [s3 [[]|x| |]].
Qed.

Lemma delete_results_spec s : tidy s ->
  delete_results s = (s, Dies) \/ exists s', delete_results s = (s', Returns tt) /\ results s' = ∅ /\ m_executionResults s' = m_executionResults s.
Proof.
  unfold tidy, delete_results. intros Hd. destruct (m_executionResults s) as [p|] eqn:Ep.
  - destruct (results s !! p) as [r0|] eqn:Er; [|by left]. right. eexists. split; [done|]. split; [|done]. cbn.
    apply dom_empty_inv_L. rewrite dom_delete_L, Hd. set_solver.
  - right. exists s. apply dom_empty_inv_L in Hd. by rewrite Ep.
Qed.
Lemma delete_client_spec s :
  delete_client s = (s, Dies) \/ exists s', delete_client s = (s', Returns tt) /\ results s' = results s /\ m_executionResults s' = m_executionResults s.
Proof.
  unfold delete_client. destruct (m_storageClient s) as [c|]; [destruct (clients s !! c)|]; [right; by eexists|by left|right; by exists s].
Qed.
Lemma reset_spec s : tidy s ->
  (exists s1, reset s = (s1, Dies)) \/ exists s1, reset s = (s1, Returns tt) /\ results s1 = ∅ /\ m_executionResults s1 = m_executionResults s.
Proof.
  intros Ht. unfold reset, mbind, act_bind. destruct (delete_results_spec s Ht) as [->|(s1 & -> & Hr & Hp)]; [left; by exists s|].
  destruct (delete_client_spec s1) as [->|(s2 & -> & Hr2 & Hp2)]; [left; by exists s1|]. right. eexists. split; [done|]. cbn. by rewrite Hr2, Hp2.
Qed.
Lemma prepare_spec listing s s1 r : tidy s -> prepare listing s = (s1, r) ->
  (forall e, r = Throws e -> results s1 = ∅ /\ m_executionResults s1 = m_executionResults s) /\
  (r = Returns tt -> results s1 = ∅ /\ client_live s1 /\ threaded s1).
Proof.
  intros Ht. unfold prepare, mbind, act_bind. destruct (reset_spec s Ht) as [[s0 ->]|(s0 & -> & Hr0 & Hp0)]; [by intros [= <- <-]|].
  pose proof (parse_calm s0) as C1. pose proof (parse_threaded s0) as T1. destruct (parse_command s0) as [s2 r2]. cbn in C1, T1.
  destruct r2 as [[]|x| |]; [|intros [= <- <-]; (split; [intros e [= <-]; by rewrite (c_results _ _ C1), (c_pointer _ _ C1)|done])|by intros [= <- <-]..].
  destruct (new_client_calm s2) as [C2 L2]. destruct (new_client s2) as [s3 r3]. cbn in C2, L2. pose proof (calm_trans _ _ _ C1 C2) as C12.
  destruct r3 as [[]|x| |]; [|intros [= <- <-]; (split; [intros e [= <-]; by rewrite (c_results _ _ C12), (c_pointer _ _ C12)|done])|by intros [= <- <-]..].
  intros E. pose proof (init_loop_calm listing 0 s3) as C3. unfold initFileMetadata in E. rewrite E in C3. cbn in C3.
  pose proof (calm_trans _ _ _ C12 C3) as C. split; [intros e _; by rewrite (c_results _ _ C), (c_pointer _ _ C)|]. intros _.
  split; [by rewrite (c_results _ _ C)|]. split; [apply (c_client _ _ C3); by apply L2|].
  apply (c_threaded _ _ C3), (c_threaded _ _ C2). apply T1. by left.
Qed.
Lemma prepare_ends s : tidy s -> exists listing, snd (prepare listing s) <> Unfinished.
Proof.
  intros Ht. unfold prepare, mbind, act_bind. destruct (reset_spec s Ht) as [[s0 ->]|(s0 & -> & _)]; [by exists O|].
  pose proof (parse_ends s0). destruct (parse_command s0) as [s2 [[]|x| |]]; try by exists O.
  assert (snd (new_client s2) <> Unfinished) as Hn by (unfold new_client; by destruct (stageType _)).
  destruct (new_client s2) as [s3 [[]|x| |]]; try by exists O.
  apply (init_loop_ends (expiries (world s3)) (length (srcLocations (response s3))) 0 s3); lia.
Qed.

(** The two directions, from prepared files on. *)
Definition all_moved s : Prop :=
  let n := (length (m_largeFilesMeta (lists s)) + length (m_smallFilesMeta (lists s)))%nat in
  exists r, the_results s = Some r /\ length (result_outcomes r) = n /\ length (m_fileMetadatas r) = n /\ moved n s.
Lemma direction_moves c s (m : nat -> list event -> act W ()) (w : W) :
  results s = ∅ -> client_live s -> threaded s -> (expiries w <= expiries (world s))%nat ->
  (forall fuel es, m fuel es s = transfer_all c fuel es (set_world w (fst (new_results c s)))) ->
  (forall fuel es s', m fuel es s = (s', Returns tt) -> all_moved s' /\ tidy s') /\ exists fuel es, snd (m fuel es s) <> Unfinished.
Proof.
  intros Hr Hc Ht Hw Hm. destruct (new_results_ready c s Hc Hr) as (R & T & D). set (s1 := fst (new_results c s)) in *.
  set (nl := length (m_largeFilesMeta (lists s))) in *. set (ns := length (m_smallFilesMeta (lists s))) in *.
  assert (ready nl ns (set_world w s1)) as R' by (destruct R; by split).
  destruct (transfer_all_moves c nl ns (set_world w s1) R' (T Ht)) as [Hall (fuel & es & He)]. split.
  - intros f e s' E. rewrite Hm in E. destruct (Hall f e s' E) as (M & R2 & P & D2). split.
    + destruct R2 as [(r & Er & L1 & L2) _ EL ES]. exists r. rewrite EL, ES. by split_and!.
    + unfold tidy. rewrite P, D2. exact D.
  - exists fuel, es. by rewrite Hm.
Qed.

Lemma download_cases s : snd (create_directory (r_localLocation (response s)) (world s)) = 0 /\
    (forall fuel es, download fuel es s =
      transfer_all DOWNLOAD fuel es (set_world (fst (create_directory (r_localLocation (response s)) (world s))) (fst (new_results DOWNLOAD s)))) \/
  (forall fuel es, snd (download fuel es s) = Throws (SnowflakeTransferException MKDIR_ERROR)).
Proof.
  unfold download, new_results, raw, mbind, act_bind. cbn [response world]. destruct (create_directory (r_localLocation (response s)) (world s)) as [w ret]. cbn [fst snd].
  destruct (Z.eqb_spec ret 0); cbn [negb]; [left|right]; by intros.
Qed.
Lemma command_moves c s : results s = ∅ -> client_live s -> threaded s ->
  let m fuel es := match c with UPLOAD => upload fuel es | DOWNLOAD => download fuel es | UNKNOWN_COMMAND => throw (SnowflakeTransferException INTERNAL_ERROR) end in
  (forall fuel es s', m fuel es s = (s', Returns tt) -> all_moved s' /\ tidy s') /\ exists fuel es, snd (m fuel es s) <> Unfinished.
Proof.
  intros Hr Hc Ht. destruct c; cbv zeta beta iota.
  - by apply (direction_moves UPLOAD s upload (world s)).
  - destruct (download_cases s) as [[_ E]|E].
    + apply (direction_moves DOWNLOAD s download (fst (create_directory (r_localLocation (response s)) (world s))) Hr Hc Ht); [apply create_expiries|exact E].
    + split; [|exists O, []; by rewrite E]. intros fuel es s' E'. specialize (E fuel es). by rewrite E' in E.
  - by split; [|exists O, []].
Qed.
End Facts.


(** C17: after a command that succeeded, one that throws before its files are moved (the stage is not on S3, a directory
    cannot be read, a type of compression is not known) leaves the agent with a pointer to the results it has deleted:
    the next command, and the destructor, delete them again. *)
Theorem failed_execute_deletes_twice {W : Type} `{TransferLaws W} (s s' : agent W) (p : nat) (listing : nat) (e : exn) :
  tidy s -> m_executionResults s = Some p -> prepare listing s = (s', Throws e) ->
  (forall fuel es, execute listing fuel es s = (s', Throws e)) /\ snd (reset s') = Dies /\
  forall listing' fuel es, snd (execute listing' fuel es s') = Dies.
Proof.
  intros Ht Hp E. destruct (prepare_spec listing s s' _ Ht E) as [Hthrow _]. destruct (Hthrow e eq_refl) as [Hr Hp'].
  assert (reset s' = (s', Dies)) as Hd by (unfold reset, delete_results, mbind, act_bind; by rewrite Hp', Hp, Hr, lookup_empty).
  split_and!; [|by rewrite Hd|].
  - intros fuel es. rewrite execute_prepared. unfold mbind at 1, act_bind at 1. by rewrite E.
  - intros listing' fuel es. unfold execute, mbind at 1, act_bind at 1. by rewrite Hd.
Qed.

(** ** The services of S3 *)

Section S3.
  Context {St : Type} `{Aes} (store_of : client -> ObjectStore St).
  Context (threshold : Z) (cores : nat) (request_reads : nat -> list nat) (gzip : bytes -> option bytes) (sha256 : bytes -> bytes) (tmp_dir : bytes)
    (fnmatch : bytes -> bytes -> bool) (space : nat).

(** The local disk with its directories, the store, and what comes from outside: the time,
    the server's answers, random bytes, the schedules of transfers in parts. *)
Record s3_world := mk_world {
  fs : disk; dirs : gmap bytes (list bytes); store : St;
  ticks : list Z; answers : list (option SF_PUT_GET_RESPONSE); random : list (nat -> bytes); schedules : list (list event)
}.
Definition moved_on (fs : disk) (store : St) (w : s3_world) : s3_world :=
  mk_world fs (dirs w) store (ticks w) (answers w) (tail (random w)) (tail (schedules w)).
(** As many threads as the server says and the machine has. *)
Definition m_parallel (cl : client) : nat := Nat.min (Z.to_nat (c_parallel cl)) cores.

#[export] Instance s3_transfers : Transfers s3_world := {
  clock w := (mk_world (fs w) (dirs w) (store w) (tail (ticks w)) (answers w) (random w) (schedules w), default 0 (head (ticks w)));
  ask w := (mk_world (fs w) (dirs w) (store w) (ticks w) (tail (answers w)) (random w) (schedules w), mjoin (head (answers w)));
  list_local r source l w :=
    populateSrcLocUploadMetadata (r_sourceCompression r) (r_autoCompress r) (fun p => fs w !! p) (fun d => dirs w !! d)
      (fun p => (fun content : bytes => (true, Z.of_nat (length content))) <$> fs w !! p) fnmatch source l;
  list_remote cl source location mat l w :=
    '(o, l) ← @populateSrcLocDownloadMetadata St (store_of cl) _ threshold source location mat l (store w); Returns (w, o, l);
  create_directory dir w := (w, 0);
  upload_one cl mats f w :=
    '(st, d, f, o) ← @uploadSingleFile St (store_of cl) _ threshold (m_parallel cl) (stage_location (c_stage cl)) request_reads gzip sha256 tmp_dir
       (default (fun _ => []) (head (random w))) mats (default [] (head (schedules w))) f (fs w) (store w);
    Returns (moved_on d st w, f, o);
  download_one cl dir f w :=
    dir ← std_string dir;
    '(d, o) ← @downloadSingleFile St (store_of cl) _ threshold (m_parallel cl) dir space (default [] (head (schedules w))) f (fs w) (store w);
    Returns (moved_on d (store w) w, f, o)
}.
End S3.

(** A PUT of two files by two threads, and a GET of them by one agent: the second command
    lists what the first sent. *)
Definition put_answer (src : list string) (key : string) : SF_PUT_GET_RESPONSE :=
  mk_put_get (Some (mk_cJSON cJSON_Array None 0 CJson.zero_double None (map (fun s => mk_cJSON cJSON_String (Some s) 0 CJson.zero_double None []) src)))
    2 false false "none" false "UPLOAD" (mk_enc_mat (Some key) "id" 7) None
    (mk_stage_info (Some "S3") (Some "bucket/stage/") (Some "stage/") (Some "us-west-2") (mk_stage_cred (Some "i") (Some "s") (Some "t"))) None.
Definition material_item (key : string) : cJSON :=
  mk_cJSON cJSON_Object None 0 CJson.zero_double None
    [mk_cJSON cJSON_String (Some key) 0 CJson.zero_double (Some "queryStageMasterKey") []; mk_cJSON cJSON_String (Some "id") 0 CJson.zero_double (Some "queryId") [];
     mk_cJSON cJSON_Number None 7 CJson.zero_double (Some "smkId") []].
Definition get_answer (src : list string) (key : string) : SF_PUT_GET_RESPONSE :=
  mk_put_get (Some (mk_cJSON cJSON_Array None 0 CJson.zero_double None (map (fun s => mk_cJSON cJSON_String (Some s) 0 CJson.zero_double None []) src)))
    2 false false "none" false "DOWNLOAD" (mk_enc_mat None "" 0)
    (Some (mk_cJSON cJSON_Array None 0 CJson.zero_double None (map (fun _ => material_item key) src)))
    (mk_stage_info (Some "S3") (Some "bucket/stage/") (Some "stage/") (Some "us-west-2") (mk_stage_cred (Some "i") (Some "s") (Some "t"))) (Some "/home").
Definition sample_key : string := String.string_of_list_ascii (base64 BASE64_INDEX toy_master).
Definition sample_world (a : list (option SF_PUT_GET_RESPONSE)) (st : toy_s3) : s3_world :=
  mk_world {[ of_string "/data/a.x" := of_string "first"; of_string "/data/b.x" := of_string "the second file" ]}
    {[ of_string "/data/" := map of_string ["."; "b.x"; "a.x"] ]} st [] a (replicate 8 toy_random) [].
#[local] Instance sample_transfers : Transfers s3_world :=
  s3_transfers (fun _ => toy_store) 1000 4 (fun n => [n]) Some toy_sha256 (of_string "/tmp/") (fun p n => bool_decide (p = drop 1 n) || bool_decide (p = n)) 64.
(** Two threads take the jobs in turns. *)
Definition two_jobs : list event := [Main 0; Thread 0; Main 0; Thread 1; Thread 0; Thread 1; Thread 0; Thread 1; Main 0].
Definition sample_agent (a : list (option SF_PUT_GET_RESPONSE)) : agent s3_world :=
  FileTransferAgent empty_response (sample_world a (mk_s3 ∅ ∅)).
Definition outcomes_of {W} (s : agent W) : option (list (option RemoteStorageRequestOutcome)) := result_outcomes <$> the_results s.
(** The bytes come back; the GET is another agent's, over the world the PUT left. *)
Example put_then_get :
  let '(s, r) := execute 5 5 two_jobs (sample_agent [Some (put_answer ["/data/a.x"; "/data/b.x"] sample_key); Some (get_answer ["a.x"; "b.x"] sample_key)]) in
  r = Returns (Some 1%nat) /\ outcomes_of s = Some [Some SUCCESS; Some SUCCESS] /\
  let '(s, r) := execute 5 5 two_jobs (FileTransferAgent empty_response (world s)) in
  outcomes_of s = Some [Some SUCCESS; Some SUCCESS] /\
  fs (world s) !! of_string "/home/a.x" = Some (of_string "first") /\ fs (world s) !! of_string "/home/b.x" = Some (of_string "the second file").
Proof. vm_compute. repeat split; reflexivity. Qed.

(** ** Services whose token expires *)

(** [bad] tokens are left; [stage] says where the next answer's files are. *)
Record token_world := mk_token { bad : nat; stage : string; next_command : SF_PUT_GET_RESPONSE }.
Definition use_token {A} (w : token_world) (a : A) : cpp (token_world * A * RemoteStorageRequestOutcome) :=
  match bad w with
  | O => Returns (w, a, SUCCESS)
  | S n => Returns (mk_token n (stage w) (next_command w), a, TOKEN_EXPIRED)
  end.
Definition stage_answer (stage : string) (p : SF_PUT_GET_RESPONSE) : SF_PUT_GET_RESPONSE :=
  mk_put_get (src_list p) 2 (auto_compress p) (overwrite p) (source_compression p) (client_show_encryption_param p) (command p) (enc_mat_put p) (enc_mat_get p)
    (mk_stage_info (Some stage) (location (stage_info p)) (path (stage_info p)) (region (stage_info p)) (stage_cred (stage_info p))) (localLocation p).
Definition named (path : bytes) : FileMetadata := mk_file path 5 [] 0 path 0 false no_encryption [] None None.
#[export] Instance token_transfers : Transfers token_world := {
  clock w := (w, 10000);
  ask w := (w, Some (stage_answer (stage w) (next_command w)));
  list_local r src l w := Returns (push (named src) l);
  list_remote cl src loc mat l w :=
    if String.eqb (String.string_of_list_ascii src) "b" then
      '(w, l', o) ← use_token w (push (named src) l); Returns (w, o, if bool_decide (o = TOKEN_EXPIRED) then l else l')
    else Returns (w, SUCCESS, push (named src) l);
  create_directory d w := (w, 0);
  upload_one cl mats f w := use_token w f;
  download_one cl d f w := use_token w f
}.
Lemma use_token_spec {A} w (a : A) w' a' o : use_token w a = Returns (w', a', o) ->
  (bad w' + (if bool_decide (o = TOKEN_EXPIRED) then 1 else 0) <= bad w)%nat.
Proof. unfold use_token. destruct (bad w) as [|n] eqn:E; intros [= <- <- <-]; [rewrite bool_decide_eq_false_2 by done|rewrite bool_decide_eq_true_2 by done]; cbn; lia. Qed.
Lemma use_token_ends {A} w (a : A) : use_token w a <> Unfinished.
Proof. unfold use_token. by destruct (bad w). Qed.
#[export] Instance token_laws : TransferLaws token_world.
Proof.
  apply (Build_TransferLaws _ _ bad); try (by intros); cbn.
  - by intros w a [= <-].
  - intros cl src loc mat l w w' o l'. destruct (String.eqb _ _); [|intros [= <- <- <-]; rewrite bool_decide_eq_false_2 by done; lia].
    destruct (use_token w _) as [[[w1 a1] o1]| | |] eqn:E; try done. apply use_token_spec in E. by intros [= <- <- <-].
  - intros cl mats f w w' f' o. apply use_token_spec.
  - intros cl d f w w' f' o. apply use_token_spec.
  - intros cl src loc mat l w. destruct (String.eqb _ _); [|done]. pose proof (use_token_ends w (push (named src) l)).
    by destruct (use_token w _) as [[[w1 a1] o1]| | |].
  - intros. apply use_token_ends.
  - intros. apply use_token_ends.
Qed.
Definition token_agent (bad : nat) (stage : string) (p : SF_PUT_GET_RESPONSE) : agent token_world :=
  FileTransferAgent empty_response (mk_token bad stage p).
(** Thread 0 is told to wait for a token and tries again. *)
Definition with_renewal : list event := [Main 0; Thread 0; Thread 0; Thread 0; Thread 0; Thread 0; Thread 1; Main 0].

Lemma fresh_tidy {W} old (w : W) : tidy (FileTransferAgent old w).
Proof. apply dom_empty_L. Qed.
Definition put_agent : agent token_world := token_agent 1 "S3" (put_answer ["/data/x"] sample_key).
Lemma put_ends : snd (execute 5 5 with_renewal put_agent) = Returns (Some 1%nat).
Proof. vm_compute. reflexivity. Qed.


(** The second command's stage is not on S3. *)
Definition after_put : agent token_world :=
  set_world (mk_token 0 "AZURE" (put_answer ["/data/x"] sample_key)) (fst (execute 5 5 with_renewal put_agent)).
Lemma failed_execute_deletes_twice_witness :
  exists s', execute 5 5 [] after_put = (s', Throws (SnowflakeTransferException UNSUPPORTED_FEATURE)) /\ snd (reset s') = Dies.
Proof.
  assert (tidy after_put) as Ht by (vm_compute; reflexivity).
  destruct (prepare 5 after_put) as [s' r] eqn:E. assert (r = Throws (SnowflakeTransferException UNSUPPORTED_FEATURE)) as ->
    by (apply (f_equal snd) in E; vm_compute in E; by symmetry).
  destruct (failed_execute_deletes_twice after_put s' 1 5 _ Ht ltac:(vm_compute; reflexivity) E) as (Hx & Hd & _).
  exists s'. split; [apply Hx|exact Hd].
Defined.

(** A renewal makes a new client and leaves the old one to nobody: [reset] deletes one of the two. *)
Example renewed_client_leaks :
  let s := fst (execute 5 5 with_renewal put_agent) in
  length (map_to_list (clients s)) = 2%nat /\ length (map_to_list (clients (fst (reset s)))) = 1%nat.
Proof. vm_compute. split; reflexivity. Qed.
(** The renewal appends the locations once more: a token that expires while the files of a GET are listed lists them twice. *)
Example listed_twice :
  let '(s, r) := prepare 9 (token_agent 1 "S3" (get_answer ["a"; "b"] sample_key)) in
  r = Returns tt /\ map destFileName (m_smallFilesMeta (lists s)) = map of_string ["a"; "b"; "a"; "b"].
Proof. vm_compute. split; reflexivity. Qed.
(** Within ten minutes of the last renewal the token is not renewed: the files are tried again with the one that expired. *)
Example no_second_renewal :
  let s := set_refreshed 9990 (token_agent 1 "S3" (put_answer [] sample_key)) in renewToken s = (s, Returns tt).
Proof. reflexivity. Qed.
(** A file that is not there is passed over in silence: the GET succeeds, and has no row for it. *)
Example missing_file :
  let '(s, r) := execute 5 5 [] (sample_agent [Some (get_answer ["missing"] sample_key)]) in
  r = Returns (Some 1%nat) /\ outcomes_of s = Some [].
Proof. vm_compute. split; reflexivity. Qed.
