(* ===== verification/Stmt.v ===== *)
(** * lib/client.c: the statement and its small operations (920-1309, 1442-1514,
    1849-1950).

    [SF_STMT] is the C struct; the connection is an argument of the operations that
    read it.  An error is what the error structure says (ErrorCtx proves that the
    code's structures read so).  The parameter store is the one of ParamStore over any
    [Dict].  The names of named parameters are in a block of pointers: a slot past its
    end is out of bounds. *)

From S2P Require Import Prelude CLib Status CJson Results ArrayList RbTree TreeMap ParamStore PutGet.

(** ** Errors *)

Record stmt_error := mk_stmt_error {
  e_code : Z;
  e_msg : option string;
  e_sqlstate : string;
  e_sfqid : string
}.
Definition no_error : stmt_error := mk_stmt_error SF_STATUS_SUCCESS None SF_SQLSTATE_NO_ERROR EmptyString.

(** ** The statement *)

Record SF_BIND_INPUT := mk_bind_input {
  b_idx : Z;
  b_name : option string;
  b_c_type : SF_C_TYPE;
  b_value : option c_value;
  b_len : nat
}.

(** The user's bind inputs, by address: the store keeps their addresses. *)
Abbreviation inputs := (gmap nat SF_BIND_INPUT).

Record NamedParams := mk_named_params {
  np_slots : list (option string);   (* the slots that lie in the block *)
  np_used : Z;
  np_allocd : Z
}.

(** A chunk still to be consumed: what the wait for its turn ends with (its rows, or
    an error or a shutdown), and the row count the server announced for it. *)
Inductive slot_answer := SlotReady (rows : cJSON) | SlotFailed (error_set : bool).
Record slot := mk_slot { s_answer : slot_answer; s_row_count : Z }.
Record SF_CHUNK_DOWNLOADER := mk_downloader {
  consumer_head : Z;
  queue : list slot;
  has_error : bool;
  signal_ok : bool            (* whether _cond_signal succeeds *)
}.

Record SF_STMT {St : Type} := mk_stmt {
  sfqid : string;
  sequence_counter : Z;
  request_id : string;
  error : stmt_error;
  sql_text : option string;
  raw_results : option cJSON;
  cur_row : option cJSON;
  chunk_rowcount : Z;
  total_rowcount : Z;
  total_fieldcount : Z;
  total_row_index : Z;
  params : option (@PARAM_STORE nat St);
  name_list : option NamedParams;
  params_len : Z;
  desc : option (list SF_COLUMN_DESC);
  is_dml : bool;
  user_realloc_func : option nat;
  chunk_downloader : option SF_CHUNK_DOWNLOADER;
  put_get_response : option SF_PUT_GET_RESPONSE
}.
Arguments SF_STMT St : clear implicits.

Section Stmt.
  Context {St : Type} `{Dict nat St}.
  Implicit Type s : SF_STMT St.

Definition set_error (e : stmt_error) s : SF_STMT St :=
  mk_stmt _ (sfqid s) (sequence_counter s) (request_id s) e (sql_text s) (raw_results s) (cur_row s) (chunk_rowcount s) (total_rowcount s)
    (total_fieldcount s) (total_row_index s) (params s) (name_list s) (params_len s) (desc s) (is_dml s) (user_realloc_func s) (chunk_downloader s) (put_get_response s).
Definition set_rows (raw cur : option cJSON) (rowcount index : Z) s : SF_STMT St :=
  mk_stmt _ (sfqid s) (sequence_counter s) (request_id s) (error s) (sql_text s) raw cur rowcount (total_rowcount s)
    (total_fieldcount s) index (params s) (name_list s) (params_len s) (desc s) (is_dml s) (user_realloc_func s) (chunk_downloader s) (put_get_response s).
Definition set_downloader (d : option SF_CHUNK_DOWNLOADER) s : SF_STMT St :=
  mk_stmt _ (sfqid s) (sequence_counter s) (request_id s) (error s) (sql_text s) (raw_results s) (cur_row s) (chunk_rowcount s) (total_rowcount s)
    (total_fieldcount s) (total_row_index s) (params s) (name_list s) (params_len s) (desc s) (is_dml s) (user_realloc_func s) d (put_get_response s).
Definition set_params (ps : option (@PARAM_STORE nat St)) (nl : option NamedParams) (n : Z) s : SF_STMT St :=
  mk_stmt _ (sfqid s) (sequence_counter s) (request_id s) (error s) (sql_text s) (raw_results s) (cur_row s) (chunk_rowcount s) (total_rowcount s)
    (total_fieldcount s) (total_row_index s) ps nl n (desc s) (is_dml s) (user_realloc_func s) (chunk_downloader s) (put_get_response s).
Definition set_sql_text (t : option string) s : SF_STMT St :=
  mk_stmt _ (sfqid s) (sequence_counter s) (request_id s) (error s) t (raw_results s) (cur_row s) (chunk_rowcount s) (total_rowcount s)
    (total_fieldcount s) (total_row_index s) (params s) (name_list s) (params_len s) (desc s) (is_dml s) (user_realloc_func s) (chunk_downloader s) (put_get_response s).
Definition set_desc (d : option (list SF_COLUMN_DESC)) s : SF_STMT St :=
  mk_stmt _ (sfqid s) (sequence_counter s) (request_id s) (error s) (sql_text s) (raw_results s) (cur_row s) (chunk_rowcount s) (total_rowcount s)
    (total_fieldcount s) (total_row_index s) (params s) (name_list s) (params_len s) d (is_dml s) (user_realloc_func s) (chunk_downloader s) (put_get_response s).
Definition set_user_realloc (f : option nat) s : SF_STMT St :=
  mk_stmt _ (sfqid s) (sequence_counter s) (request_id s) (error s) (sql_text s) (raw_results s) (cur_row s) (chunk_rowcount s) (total_rowcount s)
    (total_fieldcount s) (total_row_index s) (params s) (name_list s) (params_len s) (desc s) (is_dml s) f (chunk_downloader s) (put_get_response s).

Definition clear_error s : SF_STMT St := set_error no_error s.
(** SET_SNOWFLAKE_STMT_ERROR(&sfstmt->error, code, text, state, sfstmt->sfqid) *)
Definition stmt_fails (code : Z) (text state : string) s : SF_STMT St :=
  set_error (mk_stmt_error code (Some text) (str_take 5 state) (str_take 36 (sfqid s))) s.
(** SET_SNOWFLAKE_ERROR(&sfstmt->error, code, text, state) *)
Definition call_fails (code : Z) (text state : string) s : SF_STMT St :=
  set_error (mk_stmt_error code (Some text) (str_take 5 state) EmptyString) s.

(** ** Parameters *)

Definition _snowflake_get_param_style (input : option SF_BIND_INPUT) : PARAM_TYPE :=
  match input with
  | None => INVALID_PARAM_TYPE
  | Some i => match b_name i with Some _ => if b_idx i =? 0 then NAMED else POSITIONAL | None => POSITIONAL end
  end.

Definition _snowflake_get_current_param_style s : PARAM_TYPE :=
  match params s with None => INVALID_PARAM_TYPE | Some ps => param_style ps end.

(** Eight slots of eight bytes. *)
Definition _snowflake_allocate_named_param_list : NamedParams := mk_named_params (replicate 8 None) 0 8.

(** SF_REALLOC(name_list, 2 * cur_size): that many BYTES. *)
Definition regrow (np : NamedParams) (cur_size : Z) : NamedParams :=
  let bytes := u32 (2 * cur_size) in
  let slots := Z.to_nat (bytes / 8) in
  mk_named_params (take slots (np_slots np) ++ replicate (slots - length (np_slots np)) None) (np_used np) (u32 (2 * cur_size)).

Definition _snowflake_add_to_named_param_list (names : option NamedParams) (name : option string) (cur_size : Z) : outcome (option NamedParams) :=
  match names with
  | None => Done None
  | Some np =>
      let np := if cur_size =? np_allocd np then regrow np cur_size else np in
      if cur_size <? Z.of_nat (length (np_slots np))
      then Done (Some (mk_named_params (<[Z.to_nat cur_size := name]> (np_slots np)) (np_used np) (np_allocd np)))
      else Undef
  end.

(** The first bind decides the style. *)
Definition start_params (first : option SF_BIND_INPUT) s : SF_STMT St :=
  match params s with
  | Some _ => s
  | None =>
      let s := set_params (Some (sf_param_store_init (_snowflake_get_param_style first))) (name_list s) (params_len s) s in
      match _snowflake_get_current_param_style s with
      | NAMED => set_params (params s) (Some _snowflake_allocate_named_param_list) (params_len s) s
      | _ => s
      end
  end.

(** sf_param_store_set of one input, and the name and the count that go with it. *)
Definition bind_one (mem : inputs) (p : nat) s : outcome (SF_INT_RET_CODE * SF_STMT St) :=
  input ← deref (mem !! p);
  ps ← deref (params s);
  '(retcode, ps) ← sf_param_store_set ps (Some p) (b_idx input) (b_name input);
  let s := set_params (Some ps) (name_list s) (params_len s) s in
  match retcode with
  | SF_INT_RET_CODE_DUPLICATES | SF_INT_RET_CODE_ERROR => Done (retcode, s)
  | _ =>
      names ← (match _snowflake_get_current_param_style s with
               | NAMED => _snowflake_add_to_named_param_list (name_list s) (b_name input) (params_len s)
               | _ => Done (name_list s)
               end);
      Done (retcode, set_params (params s) names (u32 (params_len s + 1)) s)
  end.

(** [p] is the address of the input, NULL is [None]. *)
Definition snowflake_bind_param (mem : inputs) (so : option (SF_STMT St)) (p : option nat) : outcome (Z * option (SF_STMT St)) :=
  match so with
  | None => Done (SF_STATUS_ERROR_STATEMENT_NOT_EXIST, None)
  | Some s =>
      let s := start_params (p ≫= fun a => mem !! a) (clear_error s) in
      p ← deref p;
      '(retcode, s) ← bind_one mem p s;
      Done (match retcode with SF_INT_RET_CODE_ERROR => SF_STATUS_ERROR_OTHER | _ => SF_STATUS_SUCCESS end, Some s)
  end.

Fixpoint bind_loop (mem : inputs) (ps : list nat) s : outcome (Z * SF_STMT St) :=
  match ps with
  | [] => Done (SF_STATUS_SUCCESS, s)
  | p :: ps =>
      '(retcode, s) ← bind_one mem p s;
      match retcode with
      | SF_INT_RET_CODE_ERROR => Done (SF_STATUS_ERROR_OTHER, s)
      | _ => bind_loop mem ps s
      end
  end.

(** [ps] are the addresses of the array's elements; the style is read off the first,
    so an empty array is out of bounds when no parameter was bound before. *)
Definition snowflake_bind_param_array (mem : inputs) (so : option (SF_STMT St)) (ps : list nat) : outcome (Z * option (SF_STMT St)) :=
  match so with
  | None => Done (SF_STATUS_ERROR_STATEMENT_NOT_EXIST, None)
  | Some s =>
      let s := clear_error s in
      first ← (match params s with Some _ => Done None | None => p ← deref (head ps); i ← deref (mem !! p); Done (Some i) end);
      '(ret, s) ← bind_loop mem ps (start_params first s);
      Done (ret, Some s)
  end.

Definition snowflake_bind_input_init (input : SF_BIND_INPUT) : SF_BIND_INPUT :=
  mk_bind_input 0 None (b_c_type input) None (b_len input).

(** ** Life cycle *)

Definition _snowflake_stmt_desc_reset s : outcome (SF_STMT St) :=
  match desc s with
  | Some ds => if total_fieldcount s <=? Z.of_nat (length ds) then Done (set_desc None s) else Undef
  | None => Done (set_desc None s)
  end.

(** The rows, the parameters, the descriptions, the text and the chunk downloader are
    given up. *)
Definition _snowflake_stmt_reset s : outcome (SF_STMT St) :=
  _ ← (match params s with Some ps => sf_param_store_deallocate ps | None => Done None end);
  s ← _snowflake_stmt_desc_reset (clear_error s);
  Done (mk_stmt _ EmptyString (sequence_counter s) EmptyString no_error None None None (-1) (-1) (-1) (-1) None None 0 None
          (is_dml s) (user_realloc_func s) None None).

Definition zero_stmt : SF_STMT St :=
  mk_stmt _ EmptyString 0 EmptyString (mk_stmt_error 0 None EmptyString EmptyString) None None None 0 0 0 0 None None 0 None false None None None.
Definition snowflake_stmt (sf_exists : bool) : outcome (option (SF_STMT St)) :=
  if sf_exists then s ← _snowflake_stmt_reset zero_stmt; Done (Some s) else Done None.
Definition snowflake_stmt_term (so : option (SF_STMT St)) : outcome (option (SF_STMT St)) :=
  match so with Some s => _ ← _snowflake_stmt_reset s; Done None | None => Done None end.

(** memcpy of [command_size] bytes, which may not run past the command's NUL. *)
Definition snowflake_prepare (so : option (SF_STMT St)) (command : option string) (command_size : Z) : outcome (Z * option (SF_STMT St)) :=
  match so with
  | None => Done (SF_STATUS_ERROR_STATEMENT_NOT_EXIST, None)
  | Some s =>
      let s := clear_error s in
      match command with
      | None => Done (SF_STATUS_ERROR_GENERAL, Some s)
      | Some c =>
          s ← _snowflake_stmt_reset s;
          let size := if command_size =? 0 then strlen c else command_size in
          if size <=? strlen c + 1 then Done (SF_STATUS_SUCCESS, Some (set_sql_text (Some (str_take (Z.to_nat size) c)) s)) else Undef
      end
  end.

(** ** Counts and attributes *)

Fixpoint sum_fields (row : option cJSON) (i : Z) (n : nat) (ret : Z) : outcome Z :=
  match n with
  | O => Done ret
  | S n =>
      f ← deref (snowflake_cJSON_GetArrayItem row i);
      v ← deref (valuestring f);
      let r := ret + st_val (strtoll v) in
      if (LLONG_MIN <=? r) && (r <=? LLONG_MAX) then sum_fields row (i + 1) n r else Undef
  end.

(** The error is cleared before the test for NULL.  The loop over a field count that is
    negative, as [size_t], runs off the row. *)
Definition snowflake_affected_rows (so : option (SF_STMT St)) : outcome (Z * option (SF_STMT St)) :=
  s ← deref so;
  let s := clear_error s in
  if snowflake_cJSON_GetArraySize (raw_results s) =? 0 then
    Done (-1, Some (stmt_fails SF_STATUS_ERROR_APPLICATION_ERROR "No results found." SF_SQLSTATE_NO_DATA s))
  else if is_dml s then
    let '(rest, row) := snowflake_cJSON_DetachItemFromArray (raw_results s) 0 in
    n ← (if total_fieldcount s <? 0 then Undef else Done (Z.to_nat (total_fieldcount s)));
    ret ← sum_fields row 0 n 0;
    Done (ret, Some (set_rows rest (cur_row s) (chunk_rowcount s) (total_row_index s) s))
  else Done (total_rowcount s, Some s).

Definition snowflake_num_rows (so : option (SF_STMT St)) : Z := match so with None => -1 | Some s => total_rowcount s end.
Definition snowflake_num_fields (so : option (SF_STMT St)) : Z := match so with None => -1 | Some s => total_fieldcount s end.
(** The parameter store (16 bytes) is read as an ARRAY_LIST, whose [used] is at 16. *)
Definition snowflake_num_params (so : option (SF_STMT St)) : outcome Z := match so with None => Done 0 | Some _ => Undef end.
Definition snowflake_sfqid (so : option (SF_STMT St)) : option string := sfqid <$> so.
Definition snowflake_sqlstate (so : option (SF_STMT St)) : option string := (fun s => e_sqlstate (error s)) <$> so.
Definition snowflake_desc (so : option (SF_STMT St)) : option (list SF_COLUMN_DESC) := so ≫= desc.
Definition snowflake_stmt_error (so : option (SF_STMT St)) : option stmt_error := error <$> so.

Definition SF_STMT_USER_REALLOC_FUNC : Z := 0.
Definition bad_attribute s : SF_STMT St := call_fails SF_STATUS_ERROR_BAD_ATTRIBUTE_TYPE "Invalid attribute type" SF_SQLSTATE_UNABLE_TO_CONNECT s.
Definition snowflake_stmt_get_attr (so : option (SF_STMT St)) (type : Z) (value : option nat) : Z * option nat * option (SF_STMT St) :=
  match so with
  | None => (SF_STATUS_ERROR_STATEMENT_NOT_EXIST, value, None)
  | Some s =>
      let s := clear_error s in
      if type =? SF_STMT_USER_REALLOC_FUNC then (SF_STATUS_SUCCESS, user_realloc_func s, Some s)
      else (SF_STATUS_ERROR_APPLICATION_ERROR, value, Some (bad_attribute s))
  end.
Definition snowflake_stmt_set_attr (so : option (SF_STMT St)) (type : Z) (value : option nat) : Z * option (SF_STMT St) :=
  match so with
  | None => (SF_STATUS_ERROR_STATEMENT_NOT_EXIST, None)
  | Some s =>
      let s := clear_error s in
      if type =? SF_STMT_USER_REALLOC_FUNC then (SF_STATUS_SUCCESS, Some (set_user_realloc value s))
      else (SF_STATUS_ERROR_APPLICATION_ERROR, Some (bad_attribute s))
  end.

(** ** Preparing *)

(** The field count is that of the descriptions, and the parameters are a store. *)
Definition ready_to_reset (s : SF_STMT St) : Prop :=
  match desc s with Some ds => total_fieldcount s <= Z.of_nat (length ds) | None => True end /\
  match params s with Some ps => exists b, store_repr ps b | None => True end.

Lemma prepare_ok (s : SF_STMT St) text : ready_to_reset s ->
  exists s', snowflake_prepare (Some s) (Some text) 0 = Done (SF_STATUS_SUCCESS, Some s') /\ sql_text s' = Some text /\ params s' = None /\
    desc s' = None /\ chunk_downloader s' = None /\ sfqid s' = EmptyString /\ raw_results s' = None.
Proof.
  intros [Hr Hps]. unfold snowflake_prepare, _snowflake_stmt_reset, _snowflake_stmt_desc_reset. change (params (clear_error s)) with (params s).
  assert ((match params s with Some ps => sf_param_store_deallocate ps | None => Done None end) = Done None) as ->.
  { destruct (params s) as [ps|]; [|done]. destruct Hps as [b Hb]. by apply (store_free_ok ps b). }
  change (desc (clear_error (clear_error s))) with (desc s). change (total_fieldcount (clear_error (clear_error s))) with (total_fieldcount s).
  assert (strlen text <=? strlen text + 1 = true) as Hs by lia.
  destruct (desc s) as [ds|]; [replace (total_fieldcount s <=? Z.of_nat (length ds)) with true by lia|]; cbn [Z.eqb]; rewrite !bind_Done_l, Hs;
    (eexists; split; [done|]; split_and!; try done; cbn [sql_text set_sql_text]; unfold strlen; by rewrite Nat2Z.id, str_take_all).
Qed.
End Stmt.
