(* ===== verification/Bind.v ===== *)
(** * lib/client.c: the bindings of a statement (1570-1625), and what binding comes to.

    The parameters bound with snowflake_bind_param and snowflake_bind_param_array become
    the JSON object "bindings" of the request, by position or by name: the theorems say which
    entries it has for which inputs. *)

From S2P Require Import Prelude CLib CFloat Status CJson JsonHelpers Results ArrayList RbTree TreeMap ParamStore Stmt.

Section Bindings.
  Context {St : Type} `{Dict nat St} (hooks : Z -> bool).

(** The text of a value, as the code passes it on. *)
Definition value_text (value : option c_text) : outcome (option string) :=
  match value with
  | None => Done None
  | Some (Heap b) => s ← deref (c_string b); Done (Some s)
  | Some (Literal s) => Done (Some s)
  end.

(** SF_FREE of a literal is undefined. *)
Definition free_text (value : option c_text) : outcome unit :=
  match value with Some (Literal _) => Undef | _ => Done tt end.

Definition binding_type (input : SF_BIND_INPUT) : string :=
  snowflake_type_to_string (c_type_to_snowflake (b_c_type input) SF_DB_TYPE_TIMESTAMP_NTZ).

(** One entry of "bindings": its type and its value. *)
Definition add_binding (mem : inputs) (p : nat) (name : string) (bindings : option cJSON) : outcome (option cJSON) :=
  input ← deref (mem !! p);
  value ← value_to_string (b_value input) (b_len input) (b_c_type input);
  text ← value_text value;
  let binding := snowflake_cJSON_CreateObject hooks in
  let binding := snowflake_cJSON_AddStringToObject hooks binding "type" (Some (binding_type input)) in
  let binding := snowflake_cJSON_AddStringToObject hooks binding "value" text in
  let bindings := snowflake_cJSON_AddItemToObject hooks bindings (Some name) binding in
  _ ← free_text value;
  Done bindings.

(** [n] rounds from [i]: the parameters at the positions i+1, ... that are there. *)
Fixpoint positional_bindings (mem : inputs) (n : nat) (i : Z) (ps : @PARAM_STORE nat St) (bindings : option cJSON)
  : outcome (@PARAM_STORE nat St * option cJSON) :=
  match n with
  | O => Done (ps, bindings)
  | S n =>
      '(input, ps) ← sf_param_store_get ps (i + 1) None;
      bindings ← (match input with None => Done bindings | Some p => add_binding mem p (fmt_d (i + 1)) bindings end);
      positional_bindings mem n (i + 1) ps bindings
  end.

Fixpoint named_bindings (mem : inputs) (slots : list (option string)) (n : nat) (i : nat) (ps : @PARAM_STORE nat St) (bindings : option cJSON)
  : outcome (@PARAM_STORE nat St * option cJSON) :=
  match n with
  | O => Done (ps, bindings)
  | S n =>
      named_param ← deref (slots !! i);
      '(input, ps) ← sf_param_store_get ps 0 named_param;
      bindings ← (match input, named_param with
                  | Some p, Some name => add_binding mem p name bindings
                  | _, _ => Done bindings
                  end);
      named_bindings mem slots n (S i) ps bindings
  end.

(** NULL without parameters. *)
Definition make_bindings (mem : inputs) (s : SF_STMT St) : outcome (option cJSON * SF_STMT St) :=
  match _snowflake_get_current_param_style s with
  | POSITIONAL =>
      ps ← deref (params s);
      '(ps, b) ← positional_bindings mem (Z.to_nat (params_len s)) 0 ps (snowflake_cJSON_CreateObject hooks);
      Done (b, set_params (Some ps) (name_list s) (params_len s) s)
  | NAMED =>
      ps ← deref (params s); names ← deref (name_list s);
      '(ps, b) ← named_bindings mem (np_slots names) (Z.to_nat (params_len s)) 0 ps (snowflake_cJSON_CreateObject hooks);
      Done (b, set_params (Some ps) (name_list s) (params_len s) s)
  | INVALID_PARAM_TYPE => Done (None, s)
  end.
End Bindings.

(** ** The specification *)

Definition json_string (k v : string) : cJSON := mk_cJSON cJSON_String (Some v) 0 zero_double (Some k) [].
Definition json_object (k : option string) (ch : list cJSON) : cJSON := mk_cJSON cJSON_Object None 0 zero_double k ch.

(** What an input whose value can be printed is in the request. *)
Definition binding_json (key : string) (input : SF_BIND_INPUT) (text : option string) : cJSON :=
  json_object (Some key) (json_string "type" (binding_type input) ::
    match text with Some t => [json_string "value" t] | None => [] end).

(** The text of an input that is not a timestamp. *)
Definition input_text (input : SF_BIND_INPUT) (text : option string) : Prop :=
  exists value, value_to_string (b_value input) (b_len input) (b_c_type input) = Done value /\
    value_text value = Done text /\ free_text value = Done tt.

(** The inputs at the addresses [ps] and their keys. *)
Definition spec_entry (mem : inputs) (p : nat) (key : string) (j : cJSON) : Prop :=
  exists input text, mem !! p = Some input /\ input_text input text /\ j = binding_json key input text.

Section Served.
  Context {St : Type} `{Dict nat St}.
  Notation served := (fun _ : Z => true).

Lemma add_string_served k v t ch :
  snowflake_cJSON_AddStringToObject served (Some (json_object t ch)) k (Some v) = Some (json_object t (ch ++ [json_string k v])).
Proof.
  unfold snowflake_cJSON_AddStringToObject. cbn [snowflake_cJSON_CreateString create_string_of_type cJSON_New_Item cJSON_strdup].
  unfold snowflake_cJSON_AddItemToObject. cbn -[last removelast app]. by rewrite last_snoc, removelast_last.
Qed.

Lemma add_binding_served mem p name k ch j :
  spec_entry mem p name j ->
  add_binding served mem p name (Some (json_object k ch)) = Done (Some (json_object k (ch ++ [j]))).
Proof.
  intros (input & text & Hp & (value & H1 & H2 & H3) & ->). unfold add_binding. rewrite Hp. cbn [deref]. rewrite bind_Done_l, H1, bind_Done_l, H2, bind_Done_l.
  change (snowflake_cJSON_CreateObject served) with (Some (json_object None [])).
  rewrite add_string_served. destruct text as [t|].
  - rewrite add_string_served, H3, bind_Done_l. unfold snowflake_cJSON_AddItemToObject. cbn -[last removelast app]. by rewrite last_snoc, removelast_last.
  - change (snowflake_cJSON_AddStringToObject served ?o "value" None) with o. rewrite H3, bind_Done_l.
    unfold snowflake_cJSON_AddItemToObject. cbn -[last removelast app]. by rewrite last_snoc, removelast_last.
Qed.

(** ** Binding, one input at a time *)

Lemma set_refines_at ps b p idx name :
  store_repr ps b -> 0 <= idx < 2 ^ 60 ->
  exists ps', sf_param_store_set ps (Some p) idx name = Done (fst (bindings_set b (Some p) idx name), ps') /\
    store_repr ps' (snd (bindings_set b (Some p) idx name)).
Proof. apply store_set_refines. Qed.

Lemma style_of_repr ps b : store_repr ps b ->
  param_style ps = match b with Unbindable => INVALID_PARAM_TYPE | ByPosition _ => POSITIONAL | ByName _ => NAMED end.
Proof. destruct b; cbn; [intros ->|intros (? & -> & _)|intros (? & -> & _)]; done. Qed.

(** The statement has bound by position: the table and the count. *)
Definition bound_by_position (s : SF_STMT St) (f : Z -> option nat) (n : nat) : Prop :=
  exists ps, params s = Some ps /\ store_repr ps (ByPosition f) /\ params_len s = Z.of_nat n.

Definition at_position (mem : inputs) (f : Z -> option nat) (p : nat) : Z -> option nat :=
  match mem !! p with Some i => fun k => if k =? b_idx i then Some p else f k | None => f end.

Lemma bind_one_position mem p s f n input :
  bound_by_position s f n -> mem !! p = Some input -> 0 <= b_idx input < 2 ^ 60 -> Z.of_nat n + 1 < 2 ^ 32 ->
  exists s', bind_one mem p s = Done (SF_INT_RET_CODE_SUCCESS, s') /\ bound_by_position s' (at_position mem f p) (S n).
Proof.
  intros (ps & Hps & Hr & Hn) Hp Hi Hb. unfold bind_one. rewrite Hp, Hps. cbn [deref]. rewrite !bind_Done_l.
  destruct (set_refines_at ps _ p (b_idx input) (b_name input) Hr Hi) as (ps' & -> & Hr'). rewrite bind_Done_l. cbn [fst snd bindings_set] in *. cbv beta iota.
  unfold _snowflake_get_current_param_style. cbn [params set_params]. rewrite (style_of_repr _ _ Hr'), bind_Done_l.
  eexists. split; [done|]. exists ps'. split; [done|]. split; [unfold at_position; by rewrite Hp|].
  cbn [params_len set_params]. rewrite Hn. unfold wrapU. rewrite Z.mod_small; lia.
Qed.

Lemma bind_loop_position mem ps : forall s f n,
  bound_by_position s f n -> Forall (fun p => exists i, mem !! p = Some i /\ 0 <= b_idx i < 2 ^ 60) ps -> Z.of_nat (n + length ps) < 2 ^ 32 ->
  exists s', bind_loop mem ps s = Done (SF_STATUS_SUCCESS, s') /\ bound_by_position s' (fold_left (at_position mem) ps f) (n + length ps).
Proof.
  induction ps as [|p ps IH]; intros s f n Hs Hps Hn; cbn [bind_loop fold_left length] in *.
  - exists s. by rewrite Nat.add_0_r.
  - apply Forall_cons in Hps as [(i & Hp & Hi) Hps].
    destruct (bind_one_position mem p s f n i Hs Hp Hi) as (s1 & -> & Hs1); [lia|]. rewrite bind_Done_l. cbv beta iota.
    destruct (IH s1 _ (S n) Hs1 Hps) as (s2 & -> & Hs2); [lia|]. exists s2. split; [done|]. by rewrite <- Nat.add_succ_comm.
Qed.

Definition has_position (mem : inputs) (p : nat) (k : Z) : Prop := exists i, mem !! p = Some i /\ b_idx i = k.

Lemma fold_position_other mem ps k : forall f,
  Forall (fun p => exists k', has_position mem p k' /\ k' <> k) ps -> fold_left (at_position mem) ps f k = f k.
Proof.
  induction ps as [|p ps IH]; intros f Hps; cbn [fold_left]; [done|]. apply Forall_cons in Hps as [(k' & (i & Hp & Hi) & Hne) Hps].
  rewrite IH by done. unfold at_position. rewrite Hp. destruct (k =? b_idx i) eqn:E; [lia|done].
Qed.

(** The position of [q] holds [q] when no input bound later has that position. *)
Lemma fold_position_hit mem l1 q l2 k f :
  has_position mem q k -> Forall (fun p => exists k', has_position mem p k' /\ k' <> k) l2 ->
  fold_left (at_position mem) (l1 ++ q :: l2) f k = Some q.
Proof.
  intros (i & Hq & Hi) Hl. rewrite fold_left_app. cbn [fold_left]. rewrite fold_position_other by done.
  unfold at_position at 1. rewrite Hq. destruct (k =? b_idx i) eqn:E; [done|lia].
Qed.

(** [qs] are the inputs of the positions 1, 2, ... *)
Definition in_positions (mem : inputs) (qs : list nat) : Prop :=
  forall j q, qs !! j = Some q -> has_position mem q (Z.of_nat j + 1).

Lemma in_positions_NoDup mem qs : in_positions mem qs -> NoDup qs.
Proof.
  intros Hq. apply NoDup_alt. intros j j' q Hj Hj'. destruct (Hq j q Hj) as (i & Hi & Hk). destruct (Hq j' q Hj') as (i' & Hi' & Hk').
  rewrite Hi in Hi'. injection Hi' as <-. lia.
Qed.

Lemma fold_in_positions mem ps qs f j q :
  in_positions mem qs -> Permutation ps qs -> qs !! j = Some q ->
  fold_left (at_position mem) ps f (Z.of_nat j + 1) = Some q.
Proof.
  intros Hq Hperm Hj. assert (q ∈ ps) as Hin by (rewrite Hperm; by apply list_elem_of_lookup_2 in Hj).
  apply list_elem_of_split in Hin as (l1 & l2 & ->). apply fold_position_hit; [by apply Hq|].
  assert (NoDup (l1 ++ q :: l2)) as Hnd by (rewrite Hperm; by apply (in_positions_NoDup mem)).
  apply NoDup_app in Hnd as (_ & _ & Hnd). apply NoDup_cons in Hnd as [Hnd _].
  apply Forall_forall. intros p Hp. assert (p ∈ qs) as Hpq by (rewrite <- Hperm; set_solver).
  apply list_elem_of_lookup_1 in Hpq as [j' Hj']. exists (Z.of_nat j' + 1). split; [by apply Hq|].
  intros E. assert (j' = j) as -> by lia. rewrite Hj in Hj'. injection Hj' as ->. done.
Qed.

(** ** The object by position *)

Lemma positional_served mem f js n : forall i ps ch k,
  store_repr ps (ByPosition f) -> 0 <= i -> i + Z.of_nat n < 2 ^ 60 -> length js = n ->
  (forall j x, js !! j = Some x -> exists p, f (i + Z.of_nat j + 1) = Some p /\ spec_entry mem p (fmt_d (i + Z.of_nat j + 1)) x) ->
  exists ps', positional_bindings (fun _ => true) mem n i ps (Some (json_object k ch)) = Done (ps', Some (json_object k (ch ++ js))) /\
    store_repr ps' (ByPosition f).
Proof.
  revert js. induction n as [|n IH]; intros js i ps ch k Hr Hi Hb Hl Hjs.
  - destruct js; [|done]. exists ps. by rewrite app_nil_r.
  - destruct js as [|x js]; [done|]. cbn [length] in Hl. cbn [positional_bindings].
    destruct (store_get_refines ps (ByPosition f) (i + 1) None Hr ltac:(lia)) as (ps' & -> & Hr'). rewrite bind_Done_l. cbv beta iota.
    destruct (Hjs O x eq_refl) as (p & Hp & Hx). rewrite Z.add_0_r in Hp, Hx. cbn [bindings_get].
    destruct (i + 1 <? 1) eqn:E; [lia|]. rewrite Hp. rewrite (add_binding_served mem p _ k ch x Hx), bind_Done_l.
    destruct (IH js (i + 1) ps' (ch ++ [x]) k Hr' ltac:(lia) ltac:(lia) ltac:(lia)) as (ps2 & -> & Hr2).
    { intros j y Hy. destruct (Hjs (S j) y Hy) as (p' & H1 & H2). exists p'.
      replace (i + 1 + Z.of_nat j + 1) with (i + Z.of_nat (S j) + 1) by lia. done. }
    exists ps2. by rewrite <- app_assoc.
Qed.

Lemma positional_ok mem s ps qs js :
  params s = None -> params_len s = 0 -> ps <> [] -> Permutation ps qs -> in_positions mem qs -> Z.of_nat (length ps) < 2 ^ 32 ->
  Forall2 (fun jq j => spec_entry mem (snd jq) (fmt_d (Z.of_nat (fst jq) + 1)) j) (imap pair qs) js ->
  exists s' s'', snowflake_bind_param_array mem (Some s) ps = Done (SF_STATUS_SUCCESS, Some s') /\
    make_bindings (fun _ => true) mem s' = Done (Some (json_object None js), s'') /\
    params_len s' = Z.of_nat (length qs).
Proof.
  intros Hp0 Hn0 Hne Hperm Hq Hlen Hjs.
  assert (Forall (fun p => exists i, mem !! p = Some i /\ 0 < b_idx i < 2 ^ 60) ps) as Hps.
  { apply Forall_forall. intros p Hp. rewrite Hperm in Hp. apply list_elem_of_lookup_1 in Hp as [j Hj].
    destruct (Hq j p Hj) as (i & Hi & Hk). exists i. split; [done|]. apply lookup_lt_Some in Hj. rewrite <- (Permutation_length Hperm) in Hj. lia. }
  unfold snowflake_bind_param_array. change (params (clear_error s)) with (params s). rewrite Hp0.
  destruct ps as [|p0 ps]; [done|]. cbn [head deref]. rewrite bind_Done_l. pose proof Hps as Hps'.
  apply Forall_cons in Hps' as [(i0 & Hi0 & Hk0) _]. rewrite Hi0. cbn [deref]. rewrite !bind_Done_l.
  unfold start_params. change (params (clear_error s)) with (params s). rewrite Hp0.
  assert (_snowflake_get_param_style (Some i0) = POSITIONAL) as ->.
  { cbn. destruct (b_name i0); [|done]. destruct (b_idx i0 =? 0) eqn:E; [lia|done]. }
  cbn [_snowflake_get_current_param_style params set_params sf_param_store_init param_style].
  set (s1 := set_params (Some _) _ _ _). 
  assert (bound_by_position s1 (fun _ => None) 0) as Hs1.
  { eexists. split; [done|]. split; [apply (store_init_repr POSITIONAL)|]. cbn. by rewrite Hn0. }
  destruct (bind_loop_position mem (p0 :: ps) s1 _ 0 Hs1) as (s2 & -> & (st & Hst & Hr & Hl)).
  { eapply Forall_impl; [exact Hps|]. intros p (i & ? & ?). exists i. split; [done|lia]. }
  { cbn in *. lia. }
  rewrite bind_Done_l. cbv beta iota. exists s2.
  unfold make_bindings, _snowflake_get_current_param_style. rewrite Hst, (style_of_repr _ _ Hr). cbn [deref]. rewrite bind_Done_l, Hl, Nat.add_0_l, Nat2Z.id.
  apply Forall2_length in Hjs as Hjl. rewrite length_imap, <- (Permutation_length Hperm) in Hjl.
  destruct (positional_served mem _ js (length (p0 :: ps)) 0 st [] None Hr ltac:(lia) ltac:(lia) ltac:(done)) as (st' & Hpb & _).
  { intros j x Hx. apply (Forall2_lookup_r _ _ _ _ _ Hjs) in Hx as ([j' q] & Hjq & Hx). rewrite list_lookup_imap in Hjq.
    destruct (qs !! j) as [q'|] eqn:Eq; [|done]. injection Hjq as <- <-. exists q'. split; [|by rewrite Z.add_0_l].
    rewrite Z.add_0_l. by apply (fold_in_positions mem _ qs). }
  change (snowflake_cJSON_CreateObject (fun _ => true)) with (Some (json_object None [])). rewrite Hpb, bind_Done_l. cbv beta iota.
  eexists. split; [done|]. split; [done|]. by rewrite <- (Permutation_length Hperm).
Qed.

(** Parameters bound by position, in any order, become the entries "1", "2", ... of
    the request's bindings, each with the type and the text of the input bound at that
    position. *)
Theorem positional_bindings_complete mem s ps qs js :
  params s = None -> params_len s = 0 -> ps <> [] -> Permutation ps qs -> in_positions mem qs -> Z.of_nat (length ps) < 2 ^ 32 ->
  Forall2 (fun jq j => spec_entry mem (snd jq) (fmt_d (Z.of_nat (fst jq) + 1)) j) (imap pair qs) js ->
  exists s' s'', snowflake_bind_param_array mem (Some s) ps = Done (SF_STATUS_SUCCESS, Some s') /\
    make_bindings (fun _ => true) mem s' = Done (Some (json_object None js), s'') /\
    params_len s' = Z.of_nat (length qs).
Proof. apply positional_ok. Qed.

(** ** Binding by name *)

(** The names in the order of their first use, and the last input bound to each. *)
Record named_table := mk_named { n_names : list string; n_map : gmap string nat }.
Definition bind_name (mem : inputs) (t : named_table) (p : nat) : named_table :=
  match mem !! p ≫= b_name with
  | None => t
  | Some k => mk_named (match n_map t !! k with Some _ => n_names t | None => n_names t ++ [k] end) (<[k := p]> (n_map t))
  end.
Definition named_all (mem : inputs) (ps : list nat) (t : named_table) : named_table := fold_left (bind_name mem) ps t.

Definition NAME_SLOTS : nat := 8.

(** The statement holds the table; its list of names is the block of eight slots. *)
Definition bound_by_name (s : SF_STMT St) (t : named_table) : Prop :=
  exists ps np, params s = Some ps /\ store_repr ps (ByName (n_map t)) /\ name_list s = Some np /\
    np_slots np = map Some (n_names t) ++ replicate (NAME_SLOTS - length (n_names t)) None /\ np_allocd np = 8 /\
    params_len s = Z.of_nat (length (n_names t)) /\ (length (n_names t) <= NAME_SLOTS)%nat.

Definition named_input (mem : inputs) (p : nat) : Prop := exists i k, mem !! p = Some i /\ b_name i = Some k /\ b_idx i = 0.

Lemma add_name_ok np names k :
  np_slots np = map Some names ++ replicate (NAME_SLOTS - length names) None -> np_allocd np = 8 -> (length names < NAME_SLOTS)%nat ->
  exists np', _snowflake_add_to_named_param_list (Some np) (Some k) (Z.of_nat (length names)) = Done (Some np') /\
    np_slots np' = map Some (names ++ [k]) ++ replicate (NAME_SLOTS - length (names ++ [k])) None /\ np_allocd np' = 8.
Proof.
  unfold NAME_SLOTS. intros Hs Ha Hl. unfold _snowflake_add_to_named_param_list. rewrite Ha. destruct (Z.of_nat (length names) =? 8) eqn:E; [lia|]. cbv iota.
  rewrite Hs, length_app, length_map, length_replicate. destruct (Z.of_nat (length names) <? Z.of_nat (length names + (8 - length names))) eqn:E1; [|apply Z.ltb_ge in E1; lia]. eexists. split; [done|]. cbn [np_slots np_allocd].
  split; [|done]. rewrite Nat2Z.id, insert_app_r_alt by (rewrite length_map; lia). rewrite length_map, Nat.sub_diag.
  rewrite length_app. cbn [length]. replace (8 - length names)%nat with (S (8 - (length names + 1)))%nat by lia.
  cbn [replicate insert list_insert]. by rewrite map_app, <- app_assoc.
Qed.

(** The ninth name: the block is reallocated to sixteen BYTES, and the name is stored
    behind them. *)
Lemma ninth_name np names k :
  np_slots np = map Some names ++ replicate (NAME_SLOTS - length names) None -> np_allocd np = 8 -> length names = NAME_SLOTS ->
  _snowflake_add_to_named_param_list (Some np) (Some k) (Z.of_nat (length names)) = Undef.
Proof.
  unfold NAME_SLOTS. intros Hs Ha Hl. unfold _snowflake_add_to_named_param_list. rewrite Ha, Hl. change (Z.of_nat 8 =? 8) with true. cbv iota.
  unfold regrow. change (u32 (2 * Z.of_nat 8)) with 16. change (Z.to_nat (16 / 8)) with 2%nat. cbn [np_slots].
  destruct (_ <? _) eqn:E; [|done]. rewrite length_app, length_take, length_replicate, Hs, length_app, length_map, length_replicate in E. apply Z.ltb_lt in E. cbn -[Z.of_nat Nat.min] in E. lia.
Qed.

Lemma bind_one_name mem p s t :
  bound_by_name s t -> named_input mem p ->
  if decide (length (n_names (bind_name mem t p)) <= NAME_SLOTS)%nat
  then exists r s', bind_one mem p s = Done (r, s') /\ r <> SF_INT_RET_CODE_ERROR /\ bound_by_name s' (bind_name mem t p)
  else bind_one mem p s = Undef.
Proof.
  intros (ps & np & Hps & Hr & Hnp & Hsl & Ha & Hn & Hle) (i & k & Hp & Hk & Hi).
  unfold bind_one, bind_name. rewrite Hp, Hps. cbn [deref option_bind mbind]. rewrite !bind_Done_l, Hk.
  destruct (set_refines_at ps _ p (b_idx i) (Some k) Hr ltac:(lia)) as (ps' & -> & Hr'). rewrite bind_Done_l. cbn [fst snd bindings_set] in *.
  destruct (n_map t !! k) as [q|] eqn:Eq; cbn [n_names n_map].
  - rewrite decide_True by done. eexists _, _. split; [done|]. split; [done|]. exists ps', np. by split_and!.
  - unfold _snowflake_get_current_param_style. cbn [params set_params name_list params_len]. rewrite (style_of_repr _ _ Hr'), Hnp, Hn.
    rewrite length_app. cbn [length]. unfold NAME_SLOTS in *. destruct (decide _) as [Hd|Hd].
    + destruct (add_name_ok np (n_names t) k Hsl Ha) as (np' & -> & Hsl' & Ha'); [unfold NAME_SLOTS; lia|]. rewrite bind_Done_l.
      eexists _, _. split; [done|]. split; [done|]. exists ps', np'. cbn [n_names n_map params name_list params_len set_params].
      split_and!; try done; [|rewrite length_app; cbn; unfold NAME_SLOTS; lia].
      rewrite length_app. cbn [length]. unfold wrapU. rewrite Z.mod_small; lia.
    + by rewrite (ninth_name np (n_names t) k Hsl Ha) by (unfold NAME_SLOTS; lia).
Qed.

Lemma named_all_grows mem ps t : (length (n_names t) <= length (n_names (named_all mem ps t)))%nat.
Proof.
  revert t. induction ps as [|p ps IH]; intros t; cbn; [lia|]. etransitivity; [|apply IH]. unfold bind_name.
  destruct (mem !! p ≫= b_name) as [k|]; [|lia]. cbn. destruct (n_map t !! k); [lia|]. rewrite length_app. lia.
Qed.

Lemma bind_loop_named mem ps : forall s t,
  bound_by_name s t -> Forall (named_input mem) ps ->
  if decide (length (n_names (named_all mem ps t)) <= NAME_SLOTS)%nat
  then exists s', bind_loop mem ps s = Done (SF_STATUS_SUCCESS, s') /\ bound_by_name s' (named_all mem ps t)
  else bind_loop mem ps s = Undef.
Proof.
  induction ps as [|p ps IH]; intros s t Hs Hps; cbn [bind_loop named_all fold_left].
  - rewrite decide_True by (by destruct Hs as (? & ? & ? & ? & ? & ? & ? & ? & ?)). by exists s.
  - apply Forall_cons in Hps as [Hp Hps]. pose proof (bind_one_name mem p s t Hs Hp) as H1. fold (named_all mem ps (bind_name mem t p)).
    pose proof (named_all_grows mem ps (bind_name mem t p)) as Hg. destruct (decide _) as [Hd|Hd] in H1.
    + destruct H1 as (r & s1 & -> & Hr & Hs1). rewrite bind_Done_l. cbv beta iota. specialize (IH s1 _ Hs1 Hps). destruct r; done.
    + rewrite H1. rewrite decide_False by lia. done.
Qed.
(** ** The object by name *)

Definition empty_table : named_table := mk_named [] ∅.

Lemma named_served mem m slots js : forall i ps ch k,
  store_repr ps (ByName m) -> (i + length js <= length slots)%nat ->
  (forall j x, js !! j = Some x -> exists name p, slots !! (i + j)%nat = Some (Some name) /\ m !! name = Some p /\ spec_entry mem p name x) ->
  exists ps', named_bindings (fun _ => true) mem slots (length js) i ps (Some (json_object k ch)) = Done (ps', Some (json_object k (ch ++ js))) /\
    store_repr ps' (ByName m).
Proof.
  induction js as [|x js IH]; intros i ps ch k Hr Hl Hjs; cbn [length named_bindings] in *; [exists ps; by rewrite app_nil_r|].
  destruct (Hjs O x eq_refl) as (name & p & Hn & Hp & Hx). rewrite Nat.add_0_r in Hn. rewrite Hn. cbn [deref]. rewrite bind_Done_l.
  destruct (store_get_refines ps (ByName m) 0 (Some name) Hr ltac:(lia)) as (ps' & -> & Hr'). rewrite bind_Done_l. cbv beta iota.
  cbn [bindings_get]. rewrite Hp, (add_binding_served mem p _ k ch x Hx), bind_Done_l.
  destruct (IH (S i) ps' (ch ++ [x]) k Hr' ltac:(lia)) as (ps2 & -> & Hr2); [|exists ps2; by rewrite <- app_assoc].
  intros j y Hy. destruct (Hjs (S j) y Hy) as (n' & p' & H1). rewrite Nat.add_succ_r in H1. by exists n', p'.
Qed.

Lemma named_ok mem s ps js :
  let t := named_all mem ps empty_table in
  params s = None -> params_len s = 0 -> ps <> [] -> Forall (named_input mem) ps ->
  Forall2 (fun k j => exists p, n_map t !! k = Some p /\ spec_entry mem p k j) (n_names t) js ->
  if decide (length (n_names t) <= NAME_SLOTS)%nat
  then exists s' s'', snowflake_bind_param_array mem (Some s) ps = Done (SF_STATUS_SUCCESS, Some s') /\
    make_bindings (fun _ => true) mem s' = Done (Some (json_object None js), s'')
  else snowflake_bind_param_array mem (Some s) ps = Undef.
Proof.
  intros t Hp0 Hn0 Hne Hps Hjs. unfold snowflake_bind_param_array. change (params (clear_error s)) with (params s). rewrite Hp0.
  destruct ps as [|p0 ps]; [done|]. cbn [head deref]. rewrite bind_Done_l.
  pose proof (Forall_inv Hps) as (i0 & k0 & Hi0 & Hk0 & Hx0). rewrite Hi0. cbn [deref]. rewrite !bind_Done_l.
  unfold start_params. change (params (clear_error s)) with (params s). rewrite Hp0.
  assert (_snowflake_get_param_style (Some i0) = NAMED) as -> by (cbn; by rewrite Hk0, Hx0).
  cbn [_snowflake_get_current_param_style params set_params sf_param_store_init param_style].
  set (s1 := set_params (Some _) _ _ _).
  assert (bound_by_name s1 empty_table) as Hs1.
  { eexists _, _. split; [done|]. split; [apply (store_init_repr NAMED)|]. split_and!; try done; unfold NAME_SLOTS; cbn; lia. }
  pose proof (bind_loop_named mem (p0 :: ps) s1 _ Hs1 Hps) as Hl. fold t in Hl. destruct (decide _) as [Hd|Hd]; [|by rewrite Hl].
  destruct Hl as (s2 & -> & (st & np & Hst & Hr & Hnp & Hsl & _ & Hn & _)). rewrite bind_Done_l. cbv beta iota. exists s2.
  unfold make_bindings, _snowflake_get_current_param_style. rewrite Hst, (style_of_repr _ _ Hr), Hnp. cbn [deref]. rewrite !bind_Done_l, Hn, Nat2Z.id.
  apply Forall2_length in Hjs as Hjl. rewrite Hjl.
  destruct (named_served mem (n_map t) (np_slots np) js 0 st [] None Hr) as (st' & Hpb & _).
  { rewrite Hsl, length_app, length_map, length_replicate. lia. }
  { intros j x Hx. apply (Forall2_lookup_r _ _ _ _ _ Hjs) in Hx as (k & Hk & (p & Hp & Hx)). exists k, p. split; [|done].
    rewrite Hsl, Nat.add_0_l, lookup_app_l by (rewrite length_map; by eapply lookup_lt_Some). by rewrite list_lookup_fmap, Hk. }
  change (snowflake_cJSON_CreateObject (fun _ => true)) with (Some (json_object None [])). rewrite Hpb, bind_Done_l. by eexists.
Qed.

(** C30: Parameters bound by name become one entry per name, in the order of the names'
    first use, with the type and the text of the input bound last to that name.  That
    holds for up to eight names: binding a ninth is undefined behaviour. *)
Theorem named_bindings_complete mem s ps js :
  let t := named_all mem ps empty_table in
  params s = None -> params_len s = 0 -> ps <> [] -> Forall (named_input mem) ps ->
  Forall2 (fun k j => exists p, n_map t !! k = Some p /\ spec_entry mem p k j) (n_names t) js ->
  if decide (length (n_names t) <= NAME_SLOTS)%nat
  then exists s' s'', snowflake_bind_param_array mem (Some s) ps = Done (SF_STATUS_SUCCESS, Some s') /\
    make_bindings (fun _ => true) mem s' = Done (Some (json_object None js), s'')
  else snowflake_bind_param_array mem (Some s) ps = Undef.
Proof. apply named_ok. Qed.
End Served.

(** ** Concrete statements *)

Definition two_inputs (named : bool) : inputs :=
  <[1%nat := mk_bind_input (if named then 0 else 2) (if named then Some "colour" else None) SF_C_TYPE_INT64 (Some (VInt64 (-7))) 8]>
  (<[2%nat := mk_bind_input (if named then 0 else 1) (if named then Some "shade" else None) SF_C_TYPE_STRING (Some (VBytes (String.list_ascii_of_string "red" ++ [NUL]))) 3]> ∅).

Definition minus_seven (key : string) : cJSON := json_object (Some key) [json_string "type" "FIXED"; json_string "value" "-7"].
Definition red (key : string) : cJSON := json_object (Some key) [json_string "type" "TEXT"; json_string "value" "red"].

Lemma entry_minus_seven named key : spec_entry (two_inputs named) 1 key (minus_seven key).
Proof. eexists _, (Some "-7"). split; [reflexivity|]. split; [|by destruct named]. eexists. split; [reflexivity|]. split; reflexivity. Qed.
Lemma entry_red named key : spec_entry (two_inputs named) 2 key (red key).
Proof. eexists _, (Some "red"). split; [reflexivity|]. split; [|by destruct named]. eexists. split; [reflexivity|]. split; reflexivity. Qed.

Lemma positional_bindings_complete_witness :
  exists s' s'', snowflake_bind_param_array (St := store nat) (two_inputs false) (Some zero_stmt) [1%nat; 2%nat] = Done (SF_STATUS_SUCCESS, Some s') /\
    make_bindings (fun _ => true) (two_inputs false) s' = Done (Some (json_object None [red "1"; minus_seven "2"]), s'') /\
    params_len s' = 2.
Proof.
  apply (positional_bindings_complete (St := store nat) (two_inputs false) zero_stmt [1%nat; 2%nat] [2%nat; 1%nat]); try done.
  - apply perm_swap.
  - intros j q Hj. destruct j as [|[|j]]; cbn in Hj; simplify_eq; eexists; by split.
  - cbn [imap]. apply Forall2_cons. split; [apply entry_red|]. apply Forall2_cons. split; [apply entry_minus_seven|]. apply Forall2_nil. done.
Defined.

Lemma named_bindings_complete_witness :
  exists s' s'', snowflake_bind_param_array (St := store nat) (two_inputs true) (Some zero_stmt) [2%nat; 1%nat] = Done (SF_STATUS_SUCCESS, Some s') /\
    make_bindings (fun _ => true) (two_inputs true) s' = Done (Some (json_object None [red "shade"; minus_seven "colour"]), s'').
Proof.
  apply (named_bindings_complete (St := store nat) (two_inputs true) zero_stmt [2%nat; 1%nat] [red "shade"; minus_seven "colour"]); try done.
  - apply Forall_cons. split; [|apply Forall_cons; split; [|apply Forall_nil; done]]; eexists _, _; by split_and!.
  - cbn. apply Forall2_cons. split; [|apply Forall2_cons; split; [|apply Forall2_nil; done]]; eexists; (split; [reflexivity|]); [apply entry_red|apply entry_minus_seven].
Defined.
