(* ===== verification/Fetch.v ===== *)
(** * snowflake_fetch (lib/client.c, 1328-1415): rows one by one, from the rows of the
    answer and then from the chunks.

    A wait for a chunk is one step with the answer its slot holds: ChunkDownloader
    models the threads behind it and shows that the chunks come in order.  [spec_fetch]
    is what the caller is promised, a list of rows consumed from the front. *)

From S2P Require Import Prelude CLib Status CJson Results ArrayList RbTree TreeMap ParamStore Stmt.

Section Fetch.
  Context {St : Type} `{Dict nat St}.

(** The next chunk of the downloader, if there is one. *)
Inductive chunk_wait := CEof | CFailed | CReady.

Definition next_chunk (d : SF_CHUNK_DOWNLOADER) (s : SF_STMT St) : outcome (chunk_wait * SF_STMT St) :=
  if Z.of_nat (length (queue d)) <=? consumer_head d then
    Done (CEof, set_rows None (cur_row s) (chunk_rowcount s) (total_row_index s) s)
  else
    sl ← deref (queue d !! Z.to_nat (consumer_head d));
    match s_answer sl with
    | SlotFailed error_set => Done (CFailed, set_downloader (Some (mk_downloader (consumer_head d) (queue d) error_set (signal_ok d))) s)
    | SlotReady rows =>
        let d := mk_downloader (consumer_head d + 1) (queue d) (has_error d) (signal_ok d) in
        let s := set_downloader (Some d) (set_rows (Some rows) (cur_row s) (s_row_count sl) (total_row_index s) s) in
        if signal_ok d then Done (CReady, s)
        else Done (CFailed, call_fails SF_STATUS_ERROR_PTHREAD "Unable to send signal using produce_cond" EmptyString s)
    end.

(** The row at the front becomes the current one. *)
Definition take_row (s : SF_STMT St) : SF_STMT St :=
  let '(rest, row) := snowflake_cJSON_DetachItemFromArray (raw_results s) 0 in
  set_rows rest row (chunk_rowcount s - 1) (total_row_index s + 1) s.

Definition snowflake_fetch (so : option (SF_STMT St)) : outcome (Z * option (SF_STMT St)) :=
  match so with
  | None => Done (SF_STATUS_ERROR_STATEMENT_NOT_EXIST, None)
  | Some s =>
      let s := clear_error s in
      let s := set_rows (raw_results s) None (chunk_rowcount s) (total_row_index s) s in
      match chunk_downloader s with
      | Some d =>
          if has_error d then Done (SF_STATUS_ERROR_GENERAL, Some s)
          else if chunk_rowcount s =? 0 then
            '(w, s) ← next_chunk d s;
            match w with
            | CEof => Done (SF_STATUS_EOF, Some s)
            | CFailed => Done (SF_STATUS_ERROR_GENERAL, Some s)
            | CReady => Done (SF_STATUS_SUCCESS, Some (take_row s))
            end
          else Done (SF_STATUS_SUCCESS, Some (take_row s))
      | None =>
          if chunk_rowcount s =? 0 then Done (SF_STATUS_EOF, Some s)
          else Done (SF_STATUS_SUCCESS, Some (take_row s))
      end
  end.

(** [n] calls: the status and the current row after each. *)
Fixpoint fetches (n : nat) (s : SF_STMT St) : outcome (list (Z * option cJSON) * SF_STMT St) :=
  match n with
  | O => Done ([], s)
  | S n =>
      '(ret, so) ← snowflake_fetch (Some s);
      s ← deref so;
      '(rest, s') ← fetches n s;
      Done ((ret, cur_row s) :: rest, s')
  end.

(** ** The rows to come *)

(** Every announced count is right and no chunk of the queue is empty. *)
Definition ready_slot (sl : slot) (rows : list cJSON) : Prop :=
  rows <> [] /\ exists j, s_answer sl = SlotReady j /\ child j = rows /\ s_row_count sl = Z.of_nat (length rows).

(** [rows] of the current chunk, then the chunks of the queue from the consumer on. *)
Definition pending (s : SF_STMT St) (rows : list cJSON) (chunks : list (list cJSON)) : Prop :=
  chunk_rowcount s = Z.of_nat (length rows) /\
  (rows = [] \/ exists j, raw_results s = Some j /\ child j = rows) /\
  match chunk_downloader s with
  | None => chunks = []
  | Some d => has_error d = false /\ signal_ok d = true /\ 0 <= consumer_head d /\
      Forall2 ready_slot (drop (Z.to_nat (consumer_head d)) (queue d)) chunks
  end.

Definition spec_fetch (rows : list cJSON) : Z * option cJSON * list cJSON :=
  match rows with
  | [] => (SF_STATUS_EOF, None, [])
  | r :: rows => (SF_STATUS_SUCCESS, Some r, rows)
  end.

Lemma take_row_pending s r rows chunks :
  pending s (r :: rows) chunks ->
  cur_row (take_row s) = Some r /\ pending (take_row s) rows chunks /\ total_row_index (take_row s) = total_row_index s + 1 /\
  error (take_row s) = error s.
Proof.
  intros (Hc & Hj & Hd). destruct Hj as [|(j & Hj & Hch)]; [done|].
  unfold take_row, snowflake_cJSON_DetachItemFromArray, snowflake_cJSON_DetachItemViaPointer. change (0 <? 0) with false. cbv iota.
  rewrite Hj. change (Z.to_nat 0) with O. rewrite Hch. cbn [lookup list_lookup delete list_delete].
  split; [done|]. split; [|done]. split; [cbn [chunk_rowcount set_rows]; rewrite Hc; cbn [length]; lia|].
  split; [|exact Hd]. right. eexists. split; [done|]. done.
Qed.

Lemma skip_to_chunk d s chunk chunks :
  chunk_downloader s = Some d -> pending s [] (chunk :: chunks) ->
  exists s', next_chunk d s = Done (CReady, s') /\ pending s' chunk chunks /\ chunk <> [] /\ total_row_index s' = total_row_index s /\ error s' = error s.
Proof.
  intros Hd (_ & _ & Hp). rewrite Hd in Hp. destruct Hp as (He & Hsig & Hh & Hq).
  apply Forall2_cons_inv_r in Hq as (sl & rest & (Hne & j & Ha & Hj & Hn) & Hrest & Heq).
  assert (queue d !! Z.to_nat (consumer_head d) = Some sl) as Hl.
  { rewrite <- (Nat.add_0_r (Z.to_nat _)), <- lookup_drop, Heq. done. }
  unfold next_chunk. apply lookup_lt_Some in Hl as Hlt. destruct (_ <=? _) eqn:E; [lia|]. rewrite Hl. cbn [deref]. rewrite bind_Done_l, Ha.
  cbn [signal_ok]. rewrite Hsig. eexists. split; [done|]. split_and!; try done.
  split; [done|]. split; [by right; exists j|]. cbn [chunk_downloader set_downloader has_error signal_ok consumer_head queue].
  split_and!; [done|done|lia|]. replace (Z.to_nat (consumer_head d + 1)) with (S (Z.to_nat (consumer_head d))) by lia.
  rewrite <- Nat.add_1_r, <- drop_drop, Heq. done.
Qed.

(** One call takes the first of the rows to come. *)
Lemma fetch_step s rows chunks :
  pending s rows chunks ->
  let '(ret, row, rest) := spec_fetch (rows ++ concat chunks) in
  exists s' rows' chunks', snowflake_fetch (Some s) = Done (ret, Some s') /\ cur_row s' = row /\ error s' = no_error /\
    pending s' rows' chunks' /\ rows' ++ concat chunks' = rest /\
    total_row_index s' = total_row_index s + (match row with Some _ => 1 | None => 0 end).
Proof.
  intros Hp. unfold snowflake_fetch.
  set (s0 := set_rows (raw_results (clear_error s)) None _ _ _).
  assert (pending s0 rows chunks /\ total_row_index s0 = total_row_index s /\ error s0 = no_error /\ cur_row s0 = None) as (Hp0 & Ht & He & Hcur) by done.
  clearbody s0. clear Hp. rewrite <- Ht. clear Ht. destruct rows as [|r rows]; cbn [app].
  - pose proof Hp0 as (Hc & _ & Hd). cbn [length] in Hc. rewrite Hc. change (Z.of_nat 0 =? 0) with true. cbv iota.
    destruct (chunk_downloader s0) as [d|] eqn:Ed.
    + destruct Hd as (Herr & Hsig & Hh & Hq). rewrite Herr.
      destruct chunks as [|chunk chunks]; cbn [concat spec_fetch].
      * apply Forall2_nil_inv_r in Hq. assert (length (queue d) <= Z.to_nat (consumer_head d))%nat as Hlen.
        { apply (f_equal length) in Hq. rewrite length_drop in Hq. cbn in Hq. lia. }
        unfold next_chunk. destruct (_ <=? _) eqn:E; [|lia]. rewrite bind_Done_l.
        eexists _, [], []. split_and!; [done|done|done| |done|cbn; lia].
        split; [done|]. split; [by left|]. cbn [chunk_downloader set_rows]. rewrite Ed. split_and!; try done. by rewrite Hq.
      * destruct (skip_to_chunk d s0 chunk chunks Ed Hp0) as (s1 & -> & Hp1 & Hne & Ht1 & He1). rewrite bind_Done_l. cbv beta iota.
        destruct chunk as [|r chunk]; [done|]. cbn [app spec_fetch].
        destruct (take_row_pending _ _ _ _ Hp1) as (H1 & H2 & H3 & H4).
        exists (take_row s1), chunk, chunks. split_and!; [done|done|congruence|done|done|lia].
    + subst chunks. cbn [concat spec_fetch]. exists s0, [], []. split_and!; try done; lia.
  - cbn [spec_fetch]. destruct (take_row_pending _ _ _ _ Hp0) as (H1 & H2 & H3 & H4).
    pose proof Hp0 as (Hc & _ & Hd). rewrite Hc. cbn [length]. change (Z.of_nat (S (length rows)) =? 0) with false. cbv iota.
    exists (take_row s0), rows, chunks.
    destruct (chunk_downloader s0) as [d|] eqn:Ed; [destruct Hd as [-> _]|]; (split_and!; [done|done|congruence|done|done|lia]).
Qed.

Fixpoint spec_fetches (n : nat) (rows : list cJSON) : list (Z * option cJSON) :=
  match n with
  | O => []
  | S n => let '(ret, row, rest) := spec_fetch rows in (ret, row) :: spec_fetches n rest
  end.

Lemma fetches_spec n : forall s rows chunks,
  pending s rows chunks -> exists s', fetches n s = Done (spec_fetches n (rows ++ concat chunks), s').
Proof.
  induction n as [|n IH]; intros s rows chunks Hp; [by exists s|]. cbn [fetches spec_fetches].
  pose proof (fetch_step s rows chunks Hp) as Hs. destruct (spec_fetch _) as [[ret row] rest].
  destruct Hs as (s' & rows' & chunks' & -> & Hcur & _ & Hp' & <- & _). rewrite bind_Done_l. cbv beta iota. cbn [deref]. rewrite bind_Done_l.
  destruct (IH s' rows' chunks' Hp') as [s'' ->]. rewrite bind_Done_l. cbv beta iota. rewrite Hcur. by exists s''.
Qed.

Lemma pending_fetches n s rows chunks :
  pending s rows chunks ->
  exists s', fetches n s = Done (
    take n (map (fun r => (SF_STATUS_SUCCESS, Some r)) (rows ++ concat chunks)) ++
    replicate (n - length (rows ++ concat chunks)) (SF_STATUS_EOF, None), s').
Proof.
  intros Hp. destruct (fetches_spec n s rows chunks Hp) as [s' ->]. exists s'. repeat f_equal. clear Hp.
  generalize (rows ++ concat chunks) as all. induction n as [|n IH]; intros [|r all]; cbn; [done|done| |].
  - f_equal. specialize (IH []). cbn in IH. rewrite Nat.sub_0_r, firstn_nil in IH. exact IH.
  - f_equal. apply IH.
Qed.

(** C26: Fetching refines a list of rows consumed from the front: after an answer with
    [rows] whose chunks hold [chunks], any number of calls gives every row once, in
    order, each with success, and from then on the end of the results with no current
    row. *)
Theorem fetch_refines n s rows chunks :
  pending s rows chunks ->
  exists s', fetches n s = Done (
    take n (map (fun r => (SF_STATUS_SUCCESS, Some r)) (rows ++ concat chunks)) ++
    replicate (n - length (rows ++ concat chunks)) (SF_STATUS_EOF, None), s').
Proof. apply pending_fetches. Qed.
End Fetch.

(** ** Examples *)

Definition row_of (n : Z) : cJSON := mk_cJSON cJSON_Array None n zero_double None [].
Definition rowset (rows : list cJSON) : cJSON := mk_cJSON cJSON_Array None 0 zero_double None rows.
Definition fetching (rows : list cJSON) (slots : option (list slot)) : SF_STMT (store nat) :=
  mk_stmt _ EmptyString 1 EmptyString no_error None (Some (rowset rows)) None (Z.of_nat (length rows)) 4 1 0 None None 0 None false None
    ((fun q => mk_downloader 0 q false true) <$> slots) None.

Lemma fetch_refines_witness :
  exists s', fetches 5 (fetching [row_of 1] (Some [mk_slot (SlotReady (rowset [row_of 2; row_of 3])) 2])) =
    Done ([(SF_STATUS_SUCCESS, Some (row_of 1)); (SF_STATUS_SUCCESS, Some (row_of 2)); (SF_STATUS_SUCCESS, Some (row_of 3));
           (SF_STATUS_EOF, None); (SF_STATUS_EOF, None)], s').
Proof.
  apply (fetch_refines 5 _ [row_of 1] [[row_of 2; row_of 3]]). split; [reflexivity|]. split; [right; by eexists|].
  split_and!; [reflexivity|reflexivity|cbn; lia|]. constructor; [|constructor]. split; [discriminate|]. by eexists.
Defined.

(** A chunk announced with no rows: a success without a row, for ever. *)
Example empty_chunk_never_ends :
  exists s', fetches 3 (fetching [] (Some [mk_slot (SlotReady (rowset [])) 0])) = Done (replicate 3 (SF_STATUS_SUCCESS, None), s') /\
    chunk_rowcount s' = -3.
Proof. eexists. split; vm_compute; reflexivity. Qed.

(** Fetching before anything was executed succeeds too. *)
Example fetch_before_execute :
  exists s s', (snowflake_stmt true : outcome (option (SF_STMT (store nat)))) = Done (Some s) /\ snowflake_fetch (Some s) = Done (SF_STATUS_SUCCESS, Some s') /\ cur_row s' = None.
Proof. eexists _, _. split; [vm_compute; reflexivity|]. split; [vm_compute; reflexivity|done]. Qed.
