(* ===== verification/Columns.v ===== *)
(** * lib/client.c, lines 1980-2665: typed reads of a column of the current row.

    Every reader checks its arguments, finds the column and converts its text; the
    value pointer is [None] when it is NULL, and the answer's value is [None] when
    the code does not write through it.  [timezone] is the connection's. *)

From S2P Require Import Prelude CLib CFloat Status CJson JsonHelpers Results ArrayList RbTree TreeMap ParamStore Calendar Timestamp Stmt.

Section Columns.
  Context {St : Type} `{Dict nat St}.

(** ** The column *)

Definition _snowflake_get_cJSON_column (s : SF_STMT St) (idx : Z) : Z * option cJSON * SF_STMT St :=
  if (idx >? snowflake_num_fields (Some s)) || (idx <=? 0) then
    (SF_STATUS_ERROR_OUT_OF_BOUNDS, None,
     stmt_fails SF_STATUS_ERROR_OUT_OF_BOUNDS "Column index must be between 1 and snowflake_num_fields()" EmptyString s)
  else
    match snowflake_cJSON_GetArrayItem (cur_row s) (idx - 1) with
    | None => (SF_STATUS_ERROR_MISSING_COLUMN_IN_ROW, None, stmt_fails SF_STATUS_ERROR_MISSING_COLUMN_IN_ROW "Column is missing from row." EmptyString s)
    | Some column => (SF_STATUS_SUCCESS, Some column, s)
    end.

Definition _snowflake_column_null_checks {A} (so : option (SF_STMT St)) (value_ptr : option A) : Z * option (SF_STMT St) :=
  match so with
  | None => (SF_STATUS_ERROR_STATEMENT_NOT_EXIST, None)
  | Some s =>
      let s := clear_error s in
      match value_ptr with
      | None => (SF_STATUS_ERROR_NULL_POINTER, Some (stmt_fails SF_STATUS_ERROR_NULL_POINTER "value_ptr must not be NULL" EmptyString s))
      | Some _ => (SF_STATUS_SUCCESS, Some s)
      end
  end.

(** The common beginning of the readers; [body] has the column and the old value. *)
Definition column_reader {A} (so : option (SF_STMT St)) (idx : Z) (value_ptr : option A)
    (body : cJSON -> A -> SF_STMT St -> outcome (Z * A * SF_STMT St)) : outcome (Z * option A * option (SF_STMT St)) :=
  let '(status, so) := _snowflake_column_null_checks so value_ptr in
  match status =? SF_STATUS_SUCCESS, so, value_ptr with
  | true, Some s, Some old =>
      let '(status, column, s) := _snowflake_get_cJSON_column s idx in
      match status =? SF_STATUS_SUCCESS, column with
      | true, Some column => '(status, v, s) ← body column old s; Done (status, Some v, Some s)
      | _, _ => Done (status, value_ptr, Some s)
      end
  | _, _, _ => Done (status, value_ptr, so)
  end.

Definition conversion_fails {A} (v : A) (text : string) (s : SF_STMT St) : outcome (Z * A * SF_STMT St) :=
  Done (SF_STATUS_ERROR_CONVERSION_FAILURE, v, stmt_fails SF_STATUS_ERROR_CONVERSION_FAILURE text EmptyString s).
Definition out_of_range {A} (v : A) (text : string) (s : SF_STMT St) : outcome (Z * A * SF_STMT St) :=
  Done (SF_STATUS_ERROR_OUT_OF_RANGE, v, stmt_fails SF_STATUS_ERROR_OUT_OF_RANGE text EmptyString s).

(** The description of the column. *)
Definition column_desc (s : SF_STMT St) (idx : Z) : outcome SF_COLUMN_DESC :=
  ds ← deref (desc s); deref (ds !! Z.to_nat (idx - 1)).

(** ** Numbers *)

Definition is_infinity (d : double) : bool := match d with S754_infinity _ => true | _ => false end.
Definition is_zero (d : double) : bool := match d with S754_zero _ => true | _ => false end.

Definition snowflake_column_as_boolean (so : option (SF_STMT St)) (idx : Z) (value_ptr : option bool) :=
  column_reader so idx value_ptr (fun column _ s =>
    if snowflake_cJSON_IsNull (Some column) then Done (SF_STATUS_SUCCESS, false, s)
    else
      d ← column_desc s idx;
      match d_c_type d with
      | SF_C_TYPE_BOOLEAN => v ← deref (valuestring column); Done (SF_STATUS_SUCCESS, String.eqb "1" v, s)
      | SF_C_TYPE_FLOAT64 =>
          v ← deref (valuestring column);
          let r := strtod v in
          if (sd_end r =? 0)%nat then conversion_fails false "Cannot convert value into boolean from float64" s
          else if sd_erange r || is_infinity (sd_val r) then
            out_of_range false "Value out of range for float64. Cannot convert value into boolean" s
          else Done (SF_STATUS_SUCCESS, negb (is_zero (sd_val r)), s)
      | SF_C_TYPE_INT64 =>
          v ← deref (valuestring column);
          let r := strtoll v in
          if (st_end r =? 0)%nat then conversion_fails false "Cannot convert value into boolean from int64" s
          else if ((st_val r =? LLONG_MAX) || (st_val r =? LLONG_MIN)) && st_erange r then
            out_of_range false "Value out of range for int64. Cannot convert value into boolean" s
          else Done (SF_STATUS_SUCCESS, negb (st_val r =? 0), s)
      | SF_C_TYPE_STRING => v ← deref (valuestring column); Done (SF_STATUS_SUCCESS, negb (strlen v =? 0), s)
      | _ => conversion_fails false "No valid conversion to boolean from data type" s
      end).

(** [valuestring[0]], the terminator of an empty string included. *)
Definition first_char (v : string) : ascii := match v with String c _ => c | EmptyString => NUL end.
Definition as_char (conv : ascii -> Z) (so : option (SF_STMT St)) (idx : Z) (value_ptr : option Z) :=
  column_reader so idx value_ptr (fun column _ s =>
    if snowflake_cJSON_IsNull (Some column) then Done (SF_STATUS_SUCCESS, 0, s)
    else v ← deref (valuestring column); Done (SF_STATUS_SUCCESS, conv (first_char v), s)).
Definition snowflake_column_as_uint8 := as_char code.
Definition snowflake_column_as_int8 := as_char schar.

(** The integer readers: the conversion of the text to a wide integer, the range it
    must lie in and the cast; the value is written in every case. *)
Definition as_integer (parse : string -> strto_result) (out : string -> strto_result -> bool) (cast : string -> Z -> Z)
    (type : string) (so : option (SF_STMT St)) (idx : Z) (value_ptr : option Z) :=
  column_reader so idx value_ptr (fun column _ s =>
    if snowflake_cJSON_IsNull (Some column) then Done (SF_STATUS_SUCCESS, 0, s)
    else
      v ← deref (valuestring column);
      let r := parse v in
      if (st_end r =? 0)%nat then conversion_fails (st_val r) ("Cannot convert value into " +:+ type) s
      else if out v r then out_of_range (cast EmptyString (st_val r)) ("Value out of range for " +:+ type) s
      else Done (SF_STATUS_SUCCESS, cast v (st_val r), s)).

Definition has_minus (v : string) : bool := match strchr v "-" with Some _ => true | None => false end.
Definition uint32_out (v : string) (r : strto_result) : bool :=
  (((st_val r =? ULLONG_MAX) || (st_val r =? 0)) && st_erange r)
  || (negb (has_minus v) && (st_val r >? UINT_MAX))
  || (has_minus v && (st_val r <? ULLONG_MAX - UINT_MAX)).
Definition uint32_cast (v : string) (value : Z) : Z :=
  u32 (if has_minus v && (value >? UINT_MAX) then value - (ULLONG_MAX - UINT_MAX) else value).
Definition uint64_out (r : strto_result) : bool := ((st_val r =? ULLONG_MAX) || (st_val r =? 0)) && st_erange r.
Definition int64_out (r : strto_result) : bool := ((st_val r =? LLONG_MAX) || (st_val r =? LLONG_MIN)) && st_erange r.
Definition int32_out (r : strto_result) : bool := int64_out r || ((st_val r >? INT_MAX) || (st_val r <? INT_MIN)).

Definition snowflake_column_as_uint32 := as_integer strtoull uint32_out uint32_cast "uint32".
Definition snowflake_column_as_uint64 := as_integer strtoull (fun _ => uint64_out) (fun _ z => z) "uint64".
Definition snowflake_column_as_int32 := as_integer strtoll (fun _ => int32_out) (fun _ => i32) "int32".
Definition snowflake_column_as_int64 := as_integer strtoll (fun _ => int64_out) (fun _ z => z) "int64".

Definition as_float (parse : string -> strtod_result) (type : string) (so : option (SF_STMT St)) (idx : Z) (value_ptr : option double) :=
  column_reader so idx value_ptr (fun column _ s =>
    if snowflake_cJSON_IsNull (Some column) then Done (SF_STATUS_SUCCESS, S754_zero false, s)
    else
      v ← deref (valuestring column);
      let r := parse v in
      if (sd_end r =? 0)%nat then conversion_fails (sd_val r) ("Cannot convert value into " +:+ type) s
      else if sd_erange r || is_infinity (sd_val r) then out_of_range (sd_val r) ("Value out of range for " +:+ type) s
      else Done (SF_STATUS_SUCCESS, sd_val r, s)).
Definition snowflake_column_as_float32 := as_float strtof "float32".
Definition snowflake_column_as_float64 := as_float strtod "float64".

(** ** Texts, lengths, nulls *)

Definition snowflake_column_as_const_str (so : option (SF_STMT St)) (idx : Z) (value_ptr : option (option string)) :=
  column_reader so idx value_ptr (fun column _ s =>
    Done (SF_STATUS_SUCCESS, if snowflake_cJSON_IsNull (Some column) then None else valuestring column, s)).
Definition snowflake_column_strlen (so : option (SF_STMT St)) (idx : Z) (value_ptr : option Z) :=
  column_reader so idx value_ptr (fun column _ s =>
    if snowflake_cJSON_IsNull (Some column) then Done (SF_STATUS_SUCCESS, 0, s)
    else v ← deref (valuestring column); Done (SF_STATUS_SUCCESS, strlen v, s)).
Definition snowflake_column_is_null (so : option (SF_STMT St)) (idx : Z) (value_ptr : option bool) :=
  column_reader so idx value_ptr (fun column _ s => Done (SF_STATUS_SUCCESS, snowflake_cJSON_IsNull (Some column), s)).
End Columns.

(** ** A column that is there *)

Section Present.
  Context {St : Type} `{Dict nat St}.

(** The reader reaches its body, with the error cleared. *)
Lemma column_reader_present {A} (s : SF_STMT St) idx (old : A) column body :
  1 <= idx <= total_fieldcount s -> snowflake_cJSON_GetArrayItem (cur_row s) (idx - 1) = Some column ->
  column_reader (Some s) idx (Some old) body = ('(status, v, s) ← body column old (clear_error s); Done (status, Some v, Some s)).
Proof.
  intros Hi Hc. unfold column_reader, _snowflake_column_null_checks, _snowflake_get_cJSON_column, snowflake_num_fields.
  change (SF_STATUS_SUCCESS =? SF_STATUS_SUCCESS) with true. cbv iota. change (total_fieldcount (clear_error s)) with (total_fieldcount s).
  destruct (_ || _) eqn:E; [lia|]. change (cur_row (clear_error s)) with (cur_row s). by rewrite Hc.
Qed.

(** A reader that is given no statement, no place for the value, an index outside the
    columns of the result or a row that is too short says so: the status, the statement's
    error and the value left as it was are the same for every reader. *)
Theorem column_guards {A} (so : option (SF_STMT St)) idx (value_ptr : option A) body :
  match so, value_ptr with
  | None, _ => column_reader so idx value_ptr body = Done (SF_STATUS_ERROR_STATEMENT_NOT_EXIST, value_ptr, None)
  | Some s, None => exists s', column_reader so idx value_ptr body = Done (SF_STATUS_ERROR_NULL_POINTER, None, Some s') /\
      e_code (error s') = SF_STATUS_ERROR_NULL_POINTER /\ cur_row s' = cur_row s
  | Some s, Some old =>
      (~ (1 <= idx <= total_fieldcount s) -> exists s', column_reader so idx value_ptr body = Done (SF_STATUS_ERROR_OUT_OF_BOUNDS, Some old, Some s') /\
         e_code (error s') = SF_STATUS_ERROR_OUT_OF_BOUNDS /\ e_sfqid (error s') = str_take 36 (sfqid s)) /\
      (1 <= idx <= total_fieldcount s -> snowflake_cJSON_GetArrayItem (cur_row s) (idx - 1) = None ->
       exists s', column_reader so idx value_ptr body = Done (SF_STATUS_ERROR_MISSING_COLUMN_IN_ROW, Some old, Some s') /\
         e_code (error s') = SF_STATUS_ERROR_MISSING_COLUMN_IN_ROW)
  end.
Proof.
  unfold column_reader, _snowflake_column_null_checks, _snowflake_get_cJSON_column, snowflake_num_fields.
  destruct so as [s|]; [|by destruct value_ptr]. destruct value_ptr as [old|]; [|by eexists].
  change (SF_STATUS_SUCCESS =? SF_STATUS_SUCCESS) with true. cbv iota. change (total_fieldcount (clear_error s)) with (total_fieldcount s).
  split; intros Hi; [|intros Hc]; destruct (_ || _) eqn:E; try lia; [by eexists|].
  change (cur_row (clear_error s)) with (cur_row s). rewrite Hc. by eexists.
Qed.

(** ** Integers *)

Definition int_text_column (v : Z) (s : SF_STMT St) (idx : Z) : Prop :=
  1 <= idx <= total_fieldcount s /\ exists column, snowflake_cJSON_GetArrayItem (cur_row s) (idx - 1) = Some column /\
    snowflake_cJSON_IsNull (Some column) = false /\ valuestring column = Some (fmt_d v).

(** What a reader answers: the value, or out of range. *)
Definition reads (r : outcome (Z * option Z * option (SF_STMT St))) (in_range : bool) (v : Z) : Prop :=
  if in_range then exists s', r = Done (SF_STATUS_SUCCESS, Some v, Some s') /\ error s' = no_error
  else exists w s', r = Done (SF_STATUS_ERROR_OUT_OF_RANGE, Some w, Some s') /\ e_code (error s') = SF_STATUS_ERROR_OUT_OF_RANGE.

Lemma as_integer_reads parse out cast type s idx old v (in_range : bool) value :
  int_text_column v s idx ->
  (exists n, st_end (parse (fmt_d v)) = S n) -> out (fmt_d v) (parse (fmt_d v)) = negb in_range ->
  (in_range = true -> cast (fmt_d v) (st_val (parse (fmt_d v))) = value) ->
  reads (as_integer parse out cast type (Some s) idx (Some old)) in_range value.
Proof.
  intros (Hi & column & Hc & Hn & Hv) (n & He) Ho Hval. unfold as_integer. rewrite (column_reader_present s idx old column) by done.
  rewrite Hn, Hv. cbn [deref]. rewrite bind_Done_l. cbv zeta. rewrite He. cbn [Nat.eqb]. rewrite Ho. unfold reads, out_of_range.
  destruct in_range; cbn [negb]; [rewrite Hval by done|]; rewrite bind_Done_l; cbv beta iota; eauto.
Qed.

Lemma strtoll_any v :
  exists n, strtoll (fmt_d v) = mk_strto (Z.max LLONG_MIN (Z.min LLONG_MAX v)) (S n) (negb ((LLONG_MIN <=? v) && (v <=? LLONG_MAX))).
Proof.
  destruct (read_integer_fmt_d v) as (k & Hk & Hlen). pose proof (fmt_d_nonempty v). destruct k as [|n]; [lia|]. exists n.
  unfold strtoll. rewrite Hk. replace (if v <? 0 then - Z.abs v else Z.abs v) with v by (destruct (v <? 0) eqn:E; lia).
  unfold LLONG_MAX, LLONG_MIN. destruct (v >? _) eqn:E1; [f_equal; lia|]. destruct (v <? -9223372036854775808) eqn:E2; f_equal; lia.
Qed.

Lemma strtoull_any v :
  exists n, strtoull (fmt_d v) = mk_strto (if Z.abs v <=? ULLONG_MAX then u64 v else ULLONG_MAX) (S n) (negb (Z.abs v <=? ULLONG_MAX)).
Proof.
  destruct (read_integer_fmt_d v) as (k & Hk & Hlen). pose proof (fmt_d_nonempty v). destruct k as [|n]; [lia|]. exists n.
  unfold strtoull. rewrite Hk. destruct (Z.abs v >? ULLONG_MAX) eqn:E; destruct (Z.abs v <=? ULLONG_MAX) eqn:E1; try lia; [done|].
  f_equal. unfold ULLONG_MAX in *. destruct (v <? 0) eqn:E2; [by replace (- Z.abs v) with v by lia|].
  unfold wrapU. rewrite Z.mod_small; lia.
Qed.

Lemma has_minus_fmt_d v : has_minus (fmt_d v) = (v <? 0).
Proof.
  unfold has_minus, fmt_d. destruct (v <? 0) eqn:E; [done|].
  by rewrite strchr_none by (apply digits_avoid; [done|apply dec_digits_all]).
Qed.

#[local] Ltac Zify.zify_post_hook ::= Z.to_euclidean_division_equations.

(** C36: The integer readers on the decimal text of any integer: each answers exactly the
    integers of its type and says out of range for the others, but that the unsigned
    ones answer a negative number by its value modulo 2^32 or 2^64. *)
Theorem integer_columns s idx old v :
  int_text_column v s idx ->
  reads (snowflake_column_as_int64 (Some s) idx (Some old)) ((LLONG_MIN <=? v) && (v <=? LLONG_MAX)) v /\
  reads (snowflake_column_as_int32 (Some s) idx (Some old)) ((INT_MIN <=? v) && (v <=? INT_MAX)) v /\
  reads (snowflake_column_as_uint64 (Some s) idx (Some old)) ((- ULLONG_MAX <=? v) && (v <=? ULLONG_MAX)) (v mod 2 ^ 64) /\
  reads (snowflake_column_as_uint32 (Some s) idx (Some old)) ((- UINT_MAX - 1 <=? v) && (v <=? UINT_MAX)) (v mod 2 ^ 32).
Proof.
  intros Hc. destruct (strtoll_any v) as [n Hs]. destruct (strtoull_any v) as [m Hu].
  split_and!; (apply (as_integer_reads _ _ _ _ _ _ _ v); [done|rewrite ?Hs, ?Hu; by eexists| |]); rewrite ?Hs, ?Hu.
  - unfold int64_out. cbn [st_val st_erange]. unfold LLONG_MAX, LLONG_MIN. lia.
  - cbn [st_val]. unfold LLONG_MAX, LLONG_MIN. lia.
  - unfold int32_out, int64_out. cbn [st_val st_erange]. unfold LLONG_MAX, LLONG_MIN, INT_MAX, INT_MIN. lia.
  - cbn [st_val]. unfold LLONG_MAX, LLONG_MIN, INT_MAX, INT_MIN. intros Hv. rewrite wrapS_small; lia.
  - unfold uint64_out. cbn [st_val st_erange]. destruct (Z.abs v <=? ULLONG_MAX) eqn:E; unfold ULLONG_MAX in *; lia.
  - cbn [st_val]. intros Hv. destruct (Z.abs v <=? ULLONG_MAX) eqn:E; [done|unfold ULLONG_MAX in *; lia].
  - unfold uint32_out. cbn [st_val st_erange]. rewrite has_minus_fmt_d.
    destruct (Z.abs v <=? ULLONG_MAX) eqn:E; unfold ULLONG_MAX, UINT_MAX, wrapU in *; lia.
  - cbn [st_val]. intros Hv. unfold uint32_cast. rewrite has_minus_fmt_d.
    destruct (Z.abs v <=? ULLONG_MAX) eqn:E; unfold ULLONG_MAX, UINT_MAX, wrapU in *; [|lia].
    destruct (v <? 0) eqn:E1; cbn [andb].
    + replace (v mod 2 ^ 64) with (v + 2 ^ 64) by lia. destruct (_ >? _) eqn:E2; [|lia].
      replace (v + 2 ^ 64 - (18446744073709551615 - 4294967295)) with (v + 1 * 2 ^ 32) by lia. by rewrite Z.mod_add.
    + by replace (v mod 2 ^ 64) with v by lia.
Qed.
End Present.

Definition text_column (v : string) : cJSON := mk_cJSON cJSON_String (Some v) 0 zero_double None [].
Definition desc_of (type : SF_DB_TYPE) : SF_COLUMN_DESC := mk_desc 1 None type (snowflake_to_c_type type 9 0) 0 0 9 0 true.
Definition one_column (type : SF_DB_TYPE) (v : string) : SF_STMT (store nat) :=
  mk_stmt _ "01a0" 1 EmptyString no_error None None (Some (mk_cJSON cJSON_Array None 0 zero_double None [text_column v])) 1 1 1 1
    None None 0 (Some [desc_of type]) false None None None.

Lemma integer_columns_witness :
  reads (snowflake_column_as_int64 (Some (one_column SF_DB_TYPE_FIXED "-5")) 1 (Some 7)) true (-5) /\
  reads (snowflake_column_as_uint32 (Some (one_column SF_DB_TYPE_FIXED "-5")) 1 (Some 7)) true 4294967291.
Proof.
  destruct (integer_columns (one_column SF_DB_TYPE_FIXED "-5") 1 7 (-5)) as (H1 & _ & _ & H2).
  - split; [cbn; lia|]. eexists. split; [reflexivity|]. split; reflexivity.
  - split; [exact H1|exact H2].
Defined.

(** A minus sign anywhere in the text counts, and "-0" is out of range. *)
Example uint32_minus_after : exists s,
  snowflake_column_as_uint32 (Some (one_column SF_DB_TYPE_FIXED "5 - 3")) 1 (Some 7) = Done (SF_STATUS_ERROR_OUT_OF_RANGE, Some 5, Some s).
Proof. eexists. vm_compute. reflexivity. Qed.
Example uint32_minus_zero : exists s,
  snowflake_column_as_uint32 (Some (one_column SF_DB_TYPE_FIXED "-0")) 1 (Some 7) = Done (SF_STATUS_ERROR_OUT_OF_RANGE, Some 0, Some s).
Proof. eexists. vm_compute. reflexivity. Qed.
