(* ===== verification/ColumnText.v ===== *)
(** * lib/client.c, lines 2393-2620: columns as timestamps and as text in the caller's
    buffer.

    [char **value_ptr] is the block it points at, [max_value_size] the capacity the
    caller gave and is given back.  The blocks come from the user's allocator. *)

From S2P Require Import Prelude CLib CFloat Status CJson JsonHelpers Results ArrayList RbTree TreeMap ParamStore Calendar Timestamp Stmt Columns.

Definition DATE_STRING_MAX_SIZE : Z := 12.
Definition SF_BOOLEAN_TRUE_STR : string := "1".
Definition SF_BOOLEAN_FALSE_STR : string := EmptyString.

Section ColumnText.
  Context {St : Type} `{Dict nat St} (tz_rules : option string -> zone) (mktime : tm -> Z * tm) (stale : nat -> ascii) (allocate : Z -> bool)
    (timezone : option string).

(** The status of the conversion is returned as it is, and no error is set. *)
Definition snowflake_column_as_timestamp (so : option (SF_STMT St)) (idx : Z) (value_ptr : option SF_TIMESTAMP) (e : env)
  : outcome (Z * option SF_TIMESTAMP * option (SF_STMT St) * env) :=
  r ← column_reader so idx ((fun ts => (ts, e)) <$> value_ptr) (fun column (p : SF_TIMESTAMP * env) s =>
    let '(old, e) := p in
    d ← column_desc s idx;
    if snowflake_cJSON_IsNull (Some column) then
      let '(_, ts) := snowflake_timestamp_from_parts mktime (Some old) 0 0 0 0 1 1 1970 0 9 SF_DB_TYPE_TIMESTAMP_NTZ in
      Done (SF_STATUS_SUCCESS, (default old ts, e), s)
    else if is_date_or_time (d_type d) then
      v ← deref (valuestring column);
      '(status, ts, e) ← snowflake_timestamp_from_epoch_seconds tz_rules (Some old) v timezone (i32 (scale d)) (d_type d) e;
      Done (status, (default old ts, e), s)
    else Done (SF_STATUS_ERROR_CONVERSION_FAILURE, (old, e), s));
  Done (fst (fst r), fst <$> snd (fst r), snd r, match snd (fst r) with Some p => snd p | None => e end).

(** ** Text *)

Record text_state := mk_text {
  t_value : option block;
  t_value_len : Z;
  t_max_size : Z;
  t_env : env;
  t_stmt : SF_STMT St
}.

Definition calloc_block (n : Z) : option block := if allocate n then Some (replicate (Z.to_nat n) NUL) else None.

(** A buffer for [value_len] characters, and the capacity to report. *)
Definition make_room (value : option block) (preallocated : bool) (init_value_len value_len : Z) : option block * Z :=
  if value_len + 1 >? init_value_len then
    (if preallocated then realloc_block stale allocate value (value_len + 1) else calloc_block (value_len + 1), value_len + 1)
  else (value, init_value_len).

(** [strncpy(value, text, n)] *)
Definition copy_text (value : option block) (text : string) (n : Z) : outcome block :=
  b ← deref value;
  if n <=? Z.of_nat (length b) then Done (strncpy_bytes text (Z.to_nat n) ++ drop (Z.to_nat n) b) else Undef.

Definition text_fails (text : string) (s : SF_STMT St) : SF_STMT St :=
  stmt_fails SF_STATUS_ERROR_CONVERSION_FAILURE text SF_SQLSTATE_GENERAL_ERROR s.

Definition give_text (text : string) (value : option block) (preallocated : bool) (init_value_len : Z) (e : env) (s : SF_STMT St) : outcome text_state :=
  let '(value, max) := make_room value preallocated init_value_len (strlen text) in
  b ← copy_text value text (strlen text + 1);
  Done (mk_text (Some b) (strlen text) max e s).

Definition give_date (v : string) (value : option block) (preallocated : bool) (init_value_len : Z) (e : env) (s : SF_STMT St) : outcome text_state :=
  sec ← long (st_val (strtoll v) * 86400);
  match sf_gmtime sec with
  | None => Done (mk_text None 0 0 e (text_fails "Failed to convert a date value to a string." s))
  | Some t =>
      let '(value, max) := make_room value preallocated init_value_len DATE_STRING_MAX_SIZE in
      b ← deref value;
      '(len, b) ← strftime stale b (DATE_STRING_MAX_SIZE + 1) (strftime_date t);
      Done (mk_text (Some b) len max e s)
  end.

(** The conversion is given a capacity of 0, so it always reallocates. *)
Definition give_timestamp (v : string) (type : SF_DB_TYPE) (sc : Z) (value : option block) (preallocated : bool) (init_value_len : Z)
    (e : env) (s : SF_STMT St) : outcome text_state :=
  '(status, ts, e) ← snowflake_timestamp_from_epoch_seconds tz_rules (Some zero_ts) v timezone (i32 sc) type e;
  if negb (status =? 0) then
    Done (mk_text None 0 0 e (text_fails "Failed to convert the response from the server into a SF_TIMESTAMP." s))
  else
    '(status, value, len) ← snowflake_timestamp_to_string stale allocate ts (Some value) 0 true;
    if negb (status =? 0) then
      Done (mk_text (if preallocated then value else None) 0 0 e (text_fails "Failed to convert a SF_TIMESTAMP value to a string." s))
    else Done (mk_text value len (if len + 1 >? init_value_len then len + 1 else init_value_len) e s).

Definition column_text (column : cJSON) (idx : Z) (value_ptr : option block) (max_value_size_ptr : option Z) (e : env) (s : SF_STMT St)
  : outcome text_state :=
  let '(value, init_value_len, preallocated) :=
    match value_ptr, max_value_size_ptr with
    | Some b, Some n => if n =? 0 then (None, 0, false) else (Some b, n, true)
    | _, _ => (None, 0, false)
    end in
  if snowflake_cJSON_IsNull (Some column) then
    let '(value, max) := if init_value_len =? 0 then (calloc_block 1, 1) else (value, init_value_len) in
    b ← copy_text value EmptyString 1;
    Done (mk_text (Some b) 0 max e s)
  else
    d ← column_desc s idx;
    v ← deref (valuestring column);
    match d_type d with
    | SF_DB_TYPE_BOOLEAN =>
        give_text (if String.eqb v "0" then SF_BOOLEAN_FALSE_STR else SF_BOOLEAN_TRUE_STR) value preallocated init_value_len e s
    | SF_DB_TYPE_DATE => give_date v value preallocated init_value_len e s
    | SF_DB_TYPE_TIME | SF_DB_TYPE_TIMESTAMP_NTZ | SF_DB_TYPE_TIMESTAMP_LTZ | SF_DB_TYPE_TIMESTAMP_TZ =>
        give_timestamp v (d_type d) (scale d) value preallocated init_value_len e s
    | _ => give_text v value preallocated init_value_len e s
    end.

(** Where the caller's three results are, NULL being [None]: the value, its length, its
    capacity.  The status of a conversion that fails stays SF_STATUS_SUCCESS. *)
Definition snowflake_column_as_str (so : option (SF_STMT St)) (idx : Z) (value_ptr : option (option block)) (value_len_ptr max_value_size_ptr : option Z)
    (e : env) : outcome (Z * option (option block) * option Z * option Z * option (SF_STMT St) * env) :=
  let old := (default None value_ptr, default 0 value_len_ptr, default 0 max_value_size_ptr, e) in
  r ← column_reader so idx ((fun _ => old) <$> value_ptr) (fun column _ s =>
    t ← column_text column idx (default None value_ptr) max_value_size_ptr e s;
    Done (SF_STATUS_SUCCESS, (t_value t, t_value_len t, t_max_size t, t_env t), t_stmt t));
  let '(value, len, max, e) := default old (snd (fst r)) in
  Done (fst (fst r), (fun _ => value) <$> value_ptr, (fun _ => len) <$> value_len_ptr, (fun _ => max) <$> max_value_size_ptr, snd r, e).
End ColumnText.

(** ** The buffer given back *)

Section Fits.
  Context {St : Type} `{Dict nat St} (tz_rules : option string -> zone) (mktime : tm -> Z * tm) (stale : nat -> ascii) (timezone : option string).

(** The text, its length and a capacity that is there. *)
Definition well_given (t : text_state (St := St)) (text : string) : Prop :=
  exists b, t_value t = Some b /\ holds b text /\ t_value_len t = strlen text /\ strlen text < t_max_size t <= Z.of_nat (length b).

(** The caller's buffer is as large as it says; without one the capacity is 0. *)
Definition honest_buffer (value : option block) (preallocated : bool) (init : Z) : Prop :=
  if preallocated then exists b, value = Some b /\ 0 < init <= Z.of_nat (length b) else init = 0.

Lemma make_room_ok value preallocated init len :
  honest_buffer value preallocated init -> 0 <= len ->
  exists b max, make_room stale (fun _ => true) value preallocated init len = (Some b, max) /\ len < max <= Z.of_nat (length b).
Proof.
  intros Hv Hl. unfold make_room. destruct (len + 1 >? init) eqn:E.
  - destruct preallocated; cbn [honest_buffer] in Hv.
    + destruct Hv as (b & -> & Hb). unfold realloc_block. cbn [default]. eexists _, _. split; [done|].
      rewrite length_app, length_take. unfold garbage. rewrite length_map, length_seq. lia.
    + unfold calloc_block. eexists _, _. split; [done|]. rewrite length_replicate. lia.
  - destruct preallocated; cbn [honest_buffer] in Hv; [|lia]. destruct Hv as (b & -> & Hb). exists b, init. split; [done|lia].
Qed.

Lemma copy_text_ok b text :
  no_nul text = true -> strlen text < Z.of_nat (length b) ->
  exists b', copy_text (Some b) text (strlen text + 1) = Done b' /\ holds b' text /\ length b' = length b.
Proof.
  intros Ht Hl. unfold copy_text, strlen in *. cbn [deref]. rewrite bind_Done_l. destruct (_ <=? _) eqn:E; [|lia].
  replace (Z.to_nat (Z.of_nat (String.length text) + 1)) with (S (String.length text)) by lia.
  eexists. split; [done|]. unfold strncpy_bytes. rewrite take_ge by (rewrite list_ascii_length; lia).
  replace (S (String.length text) - String.length text)%nat with 1%nat by lia. split.
  - eexists. by rewrite <- app_assoc.
  - rewrite !length_app, list_ascii_length, length_drop. cbn [replicate length]. lia.
Qed.

Lemma give_text_ok text value preallocated init e s :
  honest_buffer value preallocated init -> no_nul text = true ->
  exists t, give_text stale (fun _ => true) text value preallocated init e s = Done t /\ well_given t text /\ t_env t = e /\ t_stmt t = s.
Proof.
  intros Hb Ht. unfold give_text. destruct (make_room_ok value preallocated init (strlen text) Hb) as (b & max & -> & Hm); [unfold strlen; lia|].
  destruct (copy_text_ok b text Ht) as (b' & -> & Hh & Hl); [lia|]. rewrite bind_Done_l.
  eexists. split; [done|]. split; [|done]. exists b'. cbn. split_and!; [done|done|done|lia|lia].
Qed.

Lemma give_date_ok v t value preallocated init e s :
  honest_buffer value preallocated init -> Z.abs (st_val (strtoll v)) <= 10 ^ 12 ->
  sf_gmtime (st_val (strtoll v) * 86400) = Some t -> -99999 <= tm_year t + 1900 <= 999999 ->
  exists r, give_date stale (fun _ => true) v value preallocated init e s = Done r /\ well_given r (strftime_date t) /\ t_env r = e /\ t_stmt r = s.
Proof.
  intros Hb Hv Ht Hy. unfold give_date. rewrite long_small by lia. rewrite bind_Done_l, Ht.
  destruct (broken_down_seconds _ _ _ _ Ht) as (_ & Hc & _). destruct (strftime_date_ok t Hc Hy) as [D1 D2].
  destruct (make_room_ok value preallocated init DATE_STRING_MAX_SIZE Hb) as (b & max & -> & Hm); [done|].
  cbn [deref]. rewrite bind_Done_l. unfold strftime, DATE_STRING_MAX_SIZE, strlen in *. destruct (_ <=? _) eqn:E; [|lia].
  destruct (write_str_fresh b (strftime_date t) D2) as (b' & -> & Hh & Hl); [lia|]. rewrite !bind_Done_l. cbv beta iota.
  eexists. split; [done|]. split; [|done]. exists b'. unfold strlen. cbn. split_and!; [done|done|done|lia|lia].
Qed.

(** The text of a column that is no time: what the caller reads. *)
Definition text_of (type : SF_DB_TYPE) (v text : string) : Prop :=
  match type with
  | SF_DB_TYPE_BOOLEAN => text = if String.eqb v "0" then SF_BOOLEAN_FALSE_STR else SF_BOOLEAN_TRUE_STR
  | SF_DB_TYPE_DATE => exists t, Z.abs (st_val (strtoll v)) <= 10 ^ 12 /\ sf_gmtime (st_val (strtoll v) * 86400) = Some t /\
      -99999 <= tm_year t + 1900 <= 999999 /\ text = strftime_date t
  | SF_DB_TYPE_TIME | SF_DB_TYPE_TIMESTAMP_NTZ | SF_DB_TYPE_TIMESTAMP_LTZ | SF_DB_TYPE_TIMESTAMP_TZ => False
  | _ => text = v
  end.

(** A column of the current row, the text it reads as. *)
Definition column_says (s : SF_STMT St) (idx : Z) (text : string) : Prop :=
  1 <= idx <= total_fieldcount s /\ exists column, snowflake_cJSON_GetArrayItem (cur_row s) (idx - 1) = Some column /\
    if snowflake_cJSON_IsNull (Some column) then text = EmptyString
    else exists v d, valuestring column = Some v /\ no_nul v = true /\ column_desc s idx = Done d /\ text_of (d_type d) v text.

Lemma column_text_ok column idx text vp mp e s :
  (match vp, mp with Some b, Some n => 0 <= n <= Z.of_nat (length b) | _, _ => True end) ->
  (if snowflake_cJSON_IsNull (Some column) then text = EmptyString
   else exists v d, valuestring column = Some v /\ no_nul v = true /\ column_desc s idx = Done d /\ text_of (d_type d) v text) ->
  exists t, column_text tz_rules stale (fun _ => true) timezone column idx vp mp e s = Done t /\ well_given t text /\ t_env t = e /\ t_stmt t = s.
Proof.
  intros Hb Hc. unfold column_text.
  set (p := match vp with Some b => _ | None => _ end).
  assert (honest_buffer p.1.1 p.2 p.1.2) as Hp.
  { unfold p. destruct vp as [b|], mp as [n|]; try done. destruct (n =? 0) eqn:E; [done|]. exists b. cbn. split; [done|lia]. }
  destruct p as [[value init] pre]. cbn [fst snd] in Hp. destruct (snowflake_cJSON_IsNull _).
  - subst text. assert (exists b max, (if init =? 0 then (calloc_block (fun _ => true) 1, 1) else (value, init)) = (Some b, max) /\
      0 < max <= Z.of_nat (length b)) as (b & max & -> & Hm).
    { destruct (init =? 0) eqn:E; [by eexists _, _|]. destruct pre; cbn [honest_buffer] in Hp; [|lia]. destruct Hp as (b & -> & Hb'). by exists b, init. }
    destruct (copy_text_ok b EmptyString eq_refl) as (b' & Hcp & Hh & Hl); [unfold strlen; cbn; lia|].
    change (strlen "" + 1) with 1 in Hcp. rewrite Hcp, bind_Done_l. eexists. split; [done|]. split; [|done].
    exists b'. change (strlen EmptyString) with 0. cbn. split_and!; [done|done|done|lia|lia].
  - destruct Hc as (v & d & Hv & Hn & Hd & Ht). rewrite Hd, bind_Done_l, Hv. cbn [deref]. rewrite bind_Done_l.
    destruct (d_type d); cbn [text_of] in Ht; try done; try (subst text; by apply give_text_ok).
    + destruct Ht as (t & H1 & H2 & H3 & ->). by apply give_date_ok.
    + subst text. apply give_text_ok; [done|]. by destruct (String.eqb v "0").
Qed.

End Fits.

Definition utc (_ : option string) : zone := fixed_zone 0.


(** A timestamp into the caller's 100 bytes: the block is reallocated to 22 bytes, and
    the caller is told that it still has 100. *)
Example timestamp_capacity_wrong : exists b s',
  snowflake_column_as_str utc (fun _ => "?"%char) (fun _ => true) None (Some (one_column SF_DB_TYPE_TIMESTAMP_NTZ "1.5")) 1
    (Some (Some (replicate 100 NUL))) (Some 0) (Some 100) (mk_env None None)
  = Done (SF_STATUS_SUCCESS, Some (Some b), Some 19, Some 100, Some s', mk_env None None) /\ length b = 22%nat.
Proof. eexists _, _. split; [vm_compute; reflexivity|]. reflexivity. Qed.

(** A text that is no time: no value, an error in the statement, and success. *)
Example conversion_failure_succeeds : exists s',
  snowflake_column_as_str utc (fun _ => "?"%char) (fun _ => true) None (Some (one_column SF_DB_TYPE_TIME "noon")) 1
    (Some None) (Some 0) (Some 0) (mk_env None None)
  = Done (SF_STATUS_SUCCESS, Some None, Some 0, Some 0, Some s', mk_env None None) /\ e_code (error s') = SF_STATUS_ERROR_CONVERSION_FAILURE.
Proof. eexists. split; [vm_compute; reflexivity|]. reflexivity. Qed.
