(* ===== verification/Http.v ===== *)
(** * lib/connection.c: one HTTP call (http_perform, 765-1002), its retries and the
    back-off that was meant for them (118-124, 426-442, 1215-1237).

    Every attempt meets an [attempt]: the GUID uuid4 makes for it, whether libcurl
    takes the options, and what the transfer brings.  The list of attempts is what
    the network has in store; when it is used up the server cannot be reached.  What
    libcurl is given is kept in [sent].  Of an error only the code, the message and
    the SQL state are kept. *)

From S2P Require Import Prelude CLib CFloat Status CJson CJsonParse JsonHelpers Url.

(** ** Decorrelated jitter *)

Definition uimin (a b : Z) : Z := if a <? b then a else b.
Definition uimax (a b : Z) : Z := if b <? a then a else b.

Record DECORRELATE_JITTER_BACKOFF := mk_djb { base : Z; cap : Z }.
Record RETRY_CONTEXT := mk_retry {
  retry_count : Z;
  retry_timeout : Z;
  sleep_time : Z;
  djb : DECORRELATE_JITTER_BACKOFF
}.

Definition decorrelate_jitter_init (base cap : Z) : DECORRELATE_JITTER_BACKOFF := mk_djb base cap.

(** [rand] is what rand() answers; the product and the cast are 32-bit. *)
Definition decorrelate_jitter_next_sleep (djb : DECORRELATE_JITTER_BACKOFF) (sleep rand : Z) : outcome Z :=
  let m := u32 (sleep * 3) in
  if m =? 0 then Undef else Done (uimin (cap djb) (uimax (base djb) (u32 (u32 rand mod m)))).

Definition retry_ctx_init (timeout : Z) : RETRY_CONTEXT := mk_retry 0 timeout 1 (decorrelate_jitter_init 1 16).

Definition retry_ctx_next_sleep (ctx : RETRY_CONTEXT) (rand : Z) : outcome (Z * RETRY_CONTEXT) :=
  s ← decorrelate_jitter_next_sleep (djb ctx) (sleep_time ctx) rand;
  Done (s, mk_retry (retry_count ctx) (retry_timeout ctx) s (djb ctx)).

Fixpoint next_sleeps (rands : list Z) (ctx : RETRY_CONTEXT) : outcome (list Z) :=
  match rands with
  | [] => Done []
  | r :: rands => '(s, ctx) ← retry_ctx_next_sleep ctx r; ss ← next_sleeps rands ctx; Done (s :: ss)
  end.

(** ** Errors *)

Record error := mk_err { e_code : Z; e_msg : string; e_sqlstate : string }.

(** ** What libcurl is asked and answers *)

Inductive SF_REQUEST_TYPE := NONE_REQUEST_TYPE | GET_REQUEST_TYPE | PUT_REQUEST_TYPE | POST_REQUEST_TYPE | DELETE_REQUEST_TYPE.

Record request_sent := mk_sent {
  s_type : SF_REQUEST_TYPE;
  s_url : string;
  s_header : option (list string);
  s_body : string
}.

Inductive answer :=
| Failed (bad_cafile : bool) (strerror : string)        (* curl_easy_perform is not CURLE_OK *)
| NoCode                                                (* no response code *)
| Response (http_code : Z) (pieces : list (list ascii)).

Record attempt := mk_attempt {
  a_guid : option string;      (* uuid4_generate_non_terminated; None when it fails *)
  a_setup : bool;              (* every curl_easy_setopt is CURLE_OK *)
  a_answer : answer
}.

Definition no_guid : string := "00000000-0000-4000-8000-000000000000".
Definition unreachable : attempt := mk_attempt (Some no_guid) true (Failed false "Couldn't connect to server").

Record world := mk_world {
  answers : list attempt;
  sent : list request_sent;
  err : option error;
  token : option string;
  master_token : option string
}.
Definition set_err (code : Z) (msg state : string) (w : world) : world :=
  mk_world (answers w) (sent w) (Some (mk_err code msg state)) (token w) (master_token w).
Definition set_answers (a : list attempt) (w : world) : world :=
  mk_world a (sent w) (err w) (token w) (master_token w).
Definition add_sent (r : request_sent) (w : world) : world :=
  mk_world (answers w) (sent w ++ [r]) (err w) (token w) (master_token w).

Definition is_retryable_http_code (code : Z) : bool :=
  ((500 <=? code) && (code <? 600)) || (code =? 400) || (code =? 403) || (code =? 408).

(** ** The request GUID in the URL

    [strstr] is [String.index]. *)

Definition REQUEST_GUID_KEY_SIZE : nat := 13.
Definition request_guid_ptr (url : string) : option nat := (fun k => (k + REQUEST_GUID_KEY_SIZE)%nat) <$> String.index 0 "request_guid=" url.

(** The GUID is written over the URL where it stands. *)
Definition write_guid (k : nat) (guid url : string) : outcome string :=
  if (k + String.length guid <=? String.length url)%nat
  then Done (str_take k url +:+ guid +:+ str_drop (k + String.length guid) url)
  else Undef.

(** ** http_perform *)

Section Http.
  Context (hooks : Z -> bool) (CA_BUNDLE_FILE : option string).

(** How an attempt ends: [break], one more round, a failure, a body to parse. *)
Inductive verdict := VBreak | VAgain | VFail | VBody (b : RAW_JSON_BUFFER).

Definition curl_error (bad_cafile : bool) (strerror : string) : string :=
  str_take 1023
    (if bad_cafile then "curl_easy_perform() failed. err: " +:+ strerror +:+ ", CA Cert file: " +:+ default "Not Specified" CA_BUNDLE_FILE
     else "curl_easy_perform() failed: " +:+ strerror).

(** "[" goes before the body of a chunk. *)
Definition first_buffer (chunk_downloader : bool) : RAW_JSON_BUFFER :=
  if chunk_downloader then mk_raw [Some "["%char; Some NUL] 1 else mk_raw [] 0.

(** One round of the loop with its attempt: the verdict, the URL and the world. *)
Definition one_attempt (a : attempt) (guid_ptr : option nat) (request_type : SF_REQUEST_TYPE) (url : string) (header : option (list string))
    (body : option string) (chunk_downloader : bool) (w : world) : outcome (verdict * string * world) :=
  let go url :=
    if negb (a_setup a) then Done (VBreak, url, w)
    else
      let text := match request_type with POST_REQUEST_TYPE => default EmptyString body | _ => EmptyString end in
      let w := add_sent (mk_sent request_type url header text) w in
      match a_answer a with
      | Failed bad_cafile strerror =>
          Done (VFail, url, set_err SF_STATUS_ERROR_CURL (curl_error bad_cafile strerror) SF_SQLSTATE_UNABLE_TO_CONNECT w)
      | NoCode => Done (VFail, url, set_err SF_STATUS_ERROR_CURL "Unable to get http response code" SF_SQLSTATE_UNABLE_TO_CONNECT w)
      | Response http_code pieces =>
          b ← receive pieces (first_buffer chunk_downloader);
          if http_code =? 200 then Done (VBody b, url, w)
          else if is_retryable_http_code http_code then Done (VAgain, url, w)
          else Done (VFail, url, set_err SF_STATUS_ERROR_RETRY "Received unretryable http code" SF_SQLSTATE_UNABLE_TO_CONNECT w)
      end in
  match guid_ptr with
  | None => go url
  | Some k => match a_guid a with None => Done (VBreak, url, w) | Some guid => url ← write_guid k guid url; go url end
  end.

Fixpoint http_loop (todo : list attempt) guid_ptr request_type url header body chunk_downloader (w : world) : outcome (verdict * string * world) :=
  match todo with
  | [] => one_attempt unreachable guid_ptr request_type url header body chunk_downloader (set_answers [] w)
  | a :: todo =>
      '(v, url, w) ← one_attempt a guid_ptr request_type url header body chunk_downloader (set_answers todo w);
      match v with
      | VAgain => http_loop todo guid_ptr request_type url header body chunk_downloader w
      | _ => Done (v, url, w)
      end
  end.

(** The C string a block starts with; reading an unwritten byte is undefined. *)
Fixpoint raw_string (b : list (option ascii)) : outcome string :=
  match b with
  | [] | None :: _ => Undef
  | Some c :: b => if code c =? 0 then Done EmptyString else s ← raw_string b; Done (String c s)
  end.

(** The closing bracket of a chunk and its terminator. *)
Definition close_buffer (chunk_downloader : bool) (b : RAW_JSON_BUFFER) : outcome RAW_JSON_BUFFER :=
  if chunk_downloader then
    let blk := realloc_bytes (Z.to_nat (u64 (raw_size b + 2))) (buffer b) in
    blk ← write_bytes (Z.to_nat (raw_size b)) ["]"%char] blk;
    let n := u64 (raw_size b + 1) in
    blk ← write_bytes (Z.to_nat n) [NUL] blk;
    Done (mk_raw blk n)
  else Done b.

(** The result, the URL with its last GUID, [*json] and the world. *)
Definition http_perform (curl : bool) (request_type : SF_REQUEST_TYPE) (url : string) (header : option (list string))
    (body : option string) (json : option cJSON) (chunk_downloader : bool) (w : world) : outcome (bool * string * option cJSON * world) :=
  if negb curl then Done (false, url, json, w)
  else
    '(v, url, w) ← http_loop (answers w) (request_guid_ptr url) request_type url header body chunk_downloader w;
    match v with
    | VBody b =>
        b ← close_buffer chunk_downloader b;
        text ← (match buffer b with [] => Done None | blk => s ← raw_string blk; Done (Some s) end);
        json ← snowflake_cJSON_Parse hooks text;
        match json with
        | Some _ => Done (true, url, json, w)
        | None => Done (false, url, None, set_err SF_STATUS_ERROR_BAD_JSON "Unable to parse JSON text response." SF_SQLSTATE_UNABLE_TO_CONNECT w)
        end
    | _ => Done (false, url, json, w)
    end.

(** ** What a call comes to *)

(** The C string at the start of bytes that a NUL follows. *)
Fixpoint text_of (bytes : list ascii) : string :=
  match bytes with
  | [] => EmptyString
  | c :: bytes => if code c =? 0 then EmptyString else String c (text_of bytes)
  end.

(** The text that is parsed; NULL when libcurl never called back. *)
Definition body_text (chunk_downloader : bool) (pieces : list (list ascii)) : option string :=
  if chunk_downloader then Some (text_of ("["%char :: concat pieces ++ ["]"%char]))
  else match pieces with [] => None | _ => Some (text_of (concat pieces)) end.

Definition guid_url (k : option nat) (a : attempt) (url : string) : string :=
  match k, a_guid a with
  | Some k, Some g => str_take k url +:+ g +:+ str_drop (k + String.length g) url
  | _, _ => url
  end.

(** What the attempt that is not repeated leaves. *)
Definition conclude (a : attempt) (url : string) (json : option cJSON) (chunk_downloader : bool) (w : world)
  : outcome (bool * string * option cJSON * world) :=
  match a_answer a with
  | Failed bad_cafile strerror =>
      Done (false, url, json, set_err SF_STATUS_ERROR_CURL (curl_error bad_cafile strerror) SF_SQLSTATE_UNABLE_TO_CONNECT w)
  | NoCode => Done (false, url, json, set_err SF_STATUS_ERROR_CURL "Unable to get http response code" SF_SQLSTATE_UNABLE_TO_CONNECT w)
  | Response http_code pieces =>
      if http_code =? 200 then
        json ← snowflake_cJSON_Parse hooks (body_text chunk_downloader pieces);
        match json with
        | Some _ => Done (true, url, json, w)
        | None => Done (false, url, None, set_err SF_STATUS_ERROR_BAD_JSON "Unable to parse JSON text response." SF_SQLSTATE_UNABLE_TO_CONNECT w)
        end
      else Done (false, url, json, set_err SF_STATUS_ERROR_RETRY "Received unretryable http code" SF_SQLSTATE_UNABLE_TO_CONNECT w)
  end.

(** The attempt is made: the options are taken, the GUID has the length of the one
    it replaces, and the body fits the address space. *)
Definition ready (k : option nat) (url : string) (a : attempt) : Prop :=
  a_setup a = true /\
  match k with
  | None => True
  | Some k => exists g, a_guid a = Some g /\ String.length g = 36%nat /\ (k + 36 <= String.length url)%nat
  end /\
  match a_answer a with Response _ pieces => Z.of_nat (length (concat pieces)) + 4 < 2 ^ 64 | _ => True end.
Definition transient (a : attempt) : bool :=
  match a_answer a with Response c _ => negb (c =? 200) && is_retryable_http_code c | _ => false end.

Definition request_of (k : option nat) (rt : SF_REQUEST_TYPE) (url : string) (header : option (list string)) (body : option string)
    (a : attempt) : request_sent :=
  mk_sent rt (guid_url k a url) header (match rt with POST_REQUEST_TYPE => default EmptyString body | _ => EmptyString end).

(** ** Proofs *)

Lemma raw_string_text bytes rest : raw_string (map Some (bytes ++ [NUL]) ++ rest) = Done (text_of bytes).
Proof.
  induction bytes as [|c bytes IH]; [done|]. cbn [map app raw_string text_of]. destruct (code c =? 0); [done|]. by rewrite IH.
Qed.

(** The buffer a body leaves, and the text read from it. *)
Lemma received chunk_downloader pieces :
  Z.of_nat (length (concat pieces)) + 4 < 2 ^ 64 ->
  exists b b', receive pieces (first_buffer chunk_downloader) = Done b /\ close_buffer chunk_downloader b = Done b' /\
    (match buffer b' with [] => Done None | blk => s ← raw_string blk; Done (Some s) end) = Done (body_text chunk_downloader pieces).
Proof.
  intros Hl.
  assert (forall bytes, bytes ++ [NUL] <> []) as Hne by (by intros []).
  assert (forall bytes : list ascii, (match map Some (bytes ++ [NUL]) with [] => Done None | blk => s ← raw_string blk; Done (Some s) end)
    = Done (Some (text_of bytes))) as Hread.
  { intros bytes. pose proof (raw_string_text bytes []) as E. rewrite app_nil_r in E.
    destruct bytes as [|c bytes]; [done|]. cbn [map app] in *. by rewrite E. }
  destruct chunk_downloader; unfold first_buffer, close_buffer, body_text.
  - assert (exists rest, receive pieces (mk_raw [Some "["%char; Some NUL] 1) =
      Done (mk_raw (map Some ("["%char :: concat pieces) ++ rest) (Z.of_nat (length ("["%char :: concat pieces))))) as [rest E].
    { destruct pieces as [|p pieces]; [by exists [Some NUL]|]. exists [Some NUL].
      apply (receive_all (p :: pieces) ["["%char] [Some NUL]); [done|cbn [length] in *; lia]. }
    rewrite E. set (bytes := "["%char :: concat pieces). assert (Z.of_nat (length bytes) + 3 < 2 ^ 64) as Hb by (cbn [length bytes]; lia).
    destruct (realloc_prefix (length bytes + 2) bytes rest) as [tail Et]; [lia|].
    assert (length tail = 2%nat) as Ht.
    { pose proof (f_equal length Et) as El. rewrite realloc_bytes_length, length_app, length_map in El. lia. }
    do 2 eexists. split; [reflexivity|]. cbn [raw_size buffer]. rewrite !wrapU_small by lia.
    replace (Z.to_nat (Z.of_nat (length bytes) + 2)) with (length bytes + 2)%nat by lia. rewrite Et, Nat2Z.id.
    rewrite write_bytes_prefix by (cbn; lia). rewrite bind_Done_l.
    replace (Z.to_nat (Z.of_nat (length bytes) + 1)) with (length (bytes ++ ["]"%char])) by (rewrite length_app; cbn; lia).
    rewrite write_bytes_end by (rewrite length_drop; cbn; lia). rewrite bind_Done_l. split; [reflexivity|]. cbn [buffer].
    rewrite Hread. done.
  - destruct pieces as [|p pieces]; [by do 2 eexists|]. do 2 eexists. split.
    { apply (receive_all (p :: pieces) [] []); [done|cbn [length]; lia]. }
    split; [reflexivity|]. cbn [buffer app]. change [Some NUL] with (map Some [NUL]). rewrite <- map_app, Hread. done.
Qed.

Definition made (k : option nat) rt url header body (a : attempt) (w : world) : world := add_sent (request_of k rt url header body a) w.

Lemma one_attempt_ready k url a rt header body chunk_downloader w :
  ready k url a ->
  one_attempt a k rt url header body chunk_downloader w =
    let url' := guid_url k a url in
    let w := made k rt url header body a w in
    match a_answer a with
    | Failed bad_cafile strerror =>
        Done (VFail, url', set_err SF_STATUS_ERROR_CURL (curl_error bad_cafile strerror) SF_SQLSTATE_UNABLE_TO_CONNECT w)
    | NoCode => Done (VFail, url', set_err SF_STATUS_ERROR_CURL "Unable to get http response code" SF_SQLSTATE_UNABLE_TO_CONNECT w)
    | Response http_code pieces =>
        b ← receive pieces (first_buffer chunk_downloader);
        if http_code =? 200 then Done (VBody b, url', w)
        else if is_retryable_http_code http_code then Done (VAgain, url', w)
        else Done (VFail, url', set_err SF_STATUS_ERROR_RETRY "Received unretryable http code" SF_SQLSTATE_UNABLE_TO_CONNECT w)
    end.
Proof.
  intros (Hs & Hk & _). unfold one_attempt, made, request_of, guid_url. rewrite Hs. cbn [negb]. destruct k as [k|]; [|done].
  destruct Hk as (g & -> & Hg & Hlen). unfold write_guid. rewrite (proj2 (Nat.leb_le _ _)) by lia. done.
Qed.

(** The GUID of a later attempt replaces the one before. *)
Lemma guid_url_again k url a0 a : ready k url a0 -> ready k url a ->
  guid_url k a (guid_url k a0 url) = guid_url k a url /\ ready k (guid_url k a0 url) a.
Proof.
  intros (_ & H0 & _) (Hs & H1 & Hp). unfold ready, guid_url in *. destruct k as [k|]; [|done].
  destruct H0 as (g0 & -> & Hg0 & Hl), H1 as (g & -> & Hg & _). rewrite Hg, Hg0.
  assert (String.length (str_take k url) = k) as Hk by (rewrite str_take_min; lia).
  rewrite <- Hk at 1. rewrite str_take_app_exact. split.
  - do 2 f_equal. rewrite <- (str_app_assoc (str_take k url)). apply str_drop_app_exact. rewrite str_length_app. lia.
  - split_and!; [done| |done]. exists g. split_and!; [done..|]. rewrite !str_length_app, str_drop_length. lia.
Qed.

Lemma made_answers k rt url header body a w l :
  set_answers l (made k rt url header body a w) = made k rt url header body a (set_answers l w).
Proof. done. Qed.

Lemma made_guid k rt url header body a0 a w : ready k url a0 -> ready k url a ->
  made k rt (guid_url k a0 url) header body a w = made k rt url header body a w.
Proof. intros H0 H1. unfold made, request_of. by rewrite (proj1 (guid_url_again k url a0 a H0 H1)). Qed.

Lemma transient_code c : negb (c =? 200) && is_retryable_http_code c = true -> (c =? 200) = false /\ is_retryable_http_code c = true.
Proof. by intros [?%negb_true_iff ?]%andb_prop. Qed.

(** Transient answers are requests made and nothing else. *)
Lemma http_loop_transient k rt header body chunk_downloader errs : forall todo url w,
  Forall (fun a => ready k url a /\ transient a = true) errs ->
  exists url', (forall a, ready k url a -> guid_url k a url' = guid_url k a url /\ ready k url' a) /\
    (errs = [] -> url' = url) /\
    http_loop (errs ++ todo) k rt url header body chunk_downloader w =
      http_loop todo k rt url' header body chunk_downloader
        (mk_world (match errs with [] => answers w | _ => todo end) (sent w ++ map (request_of k rt url header body) errs) (err w) (token w) (master_token w)).
Proof.
  induction errs as [|a errs IH]; intros todo url w Hall; cbn [app http_loop map].
  { exists url. split_and!; [done..|]. rewrite app_nil_r. by destruct w. }
  apply Forall_cons in Hall as [[Ha Ht] Hall]. rewrite one_attempt_ready by done. unfold transient in Ht. cbn zeta.
  destruct (a_answer a) as [| |c pieces] eqn:Ea; try done. apply transient_code in Ht as [-> ->].
  pose proof Ha as (_ & _ & Hp). rewrite Ea in Hp. destruct (received chunk_downloader pieces Hp) as (b & _ & -> & _). rewrite !bind_Done_l.
  assert (forall a', ready k url a' -> guid_url k a' (guid_url k a url) = guid_url k a' url /\ ready k (guid_url k a url) a') as Hg.
  { intros a' Ha'. by apply guid_url_again. }
  destruct (IH todo (guid_url k a url) (made k rt url header body a (set_answers (errs ++ todo) w))) as (url' & Hu & _ & E).
  - eapply Forall_impl; [exact Hall|]. cbn. intros a' [Ha' ?]. split; [by apply Hg|done].
  - exists url'. split_and!; [|done|].
    + intros a' Ha'. destruct (Hg a' Ha') as [E1 R1]. destruct (Hu a' R1) as [E2 R2]. split; [congruence|done].
    + rewrite E. f_equal. cbn. rewrite <- app_assoc. cbn. f_equal; [by destruct errs|]. do 2 f_equal.
      apply map_ext_in. intros a' Ha'%list_elem_of_In. rewrite Forall_forall in Hall. unfold request_of.
      by rewrite (proj1 (Hg a' (proj1 (Hall a' Ha')))).
Qed.

Lemma perform_concludes errs a rest rt url header body json chunk_downloader w :
  let k := request_guid_ptr url in
  answers w = errs ++ a :: rest ->
  Forall (fun a => ready k url a /\ transient a = true) errs -> ready k url a -> transient a = false ->
  http_perform true rt url header body json chunk_downloader w =
    conclude a (guid_url k a url) json chunk_downloader
      (mk_world rest (sent w ++ map (request_of k rt url header body) (errs ++ [a])) (err w) (token w) (master_token w)).
Proof.
  intros k Ha Hall Hr Ht. unfold http_perform. cbn [negb]. rewrite Ha. fold k.
  destruct (http_loop_transient k rt header body chunk_downloader errs (a :: rest) url w Hall) as (url' & Hu & _ & ->).
  destruct (Hu a Hr) as [E Hr']. cbn [http_loop]. rewrite one_attempt_ready by done. cbn zeta. rewrite E.
  set (w1 := mk_world _ _ _ _ _). set (w2 := mk_world rest _ _ _ _).
  assert (made k rt url' header body a (set_answers rest w1) = w2) as ->.
  { unfold made, w1, w2, add_sent, set_answers. cbn [answers sent err token master_token]. rewrite map_app, app_assoc. unfold request_of at 2 4. by rewrite E. }
  unfold conclude, transient in *. destruct (a_answer a) as [| |c pieces] eqn:Ea; [done..|].
  pose proof Hr as (_ & _ & Hp). rewrite Ea in Hp. destruct (received chunk_downloader pieces Hp) as (b & b' & -> & Eb & Et).
  rewrite bind_Done_l. destruct (c =? 200) eqn:Ec; cbn [negb andb] in Ht.
  - rewrite !bind_Done_l. cbv beta iota. rewrite Eb, bind_Done_l, Et, bind_Done_l. done.
  - rewrite Ht. done.
Qed.

(** C33: An HTTP call repeats its request, with a new GUID in the URL each time, as
    long as the server answers with a retryable code, and comes to what the first
    other attempt brings: the JSON value parsed from exactly the body of that attempt
    (between brackets for a chunk), or the error for its failure, code or text.  The
    bodies of repeated attempts leave no trace, and there is no limit to the
    repetitions and no pause between them. *)
Theorem http_perform_correct errs a rest rt url header body json chunk_downloader w :
  let k := request_guid_ptr url in
  answers w = errs ++ a :: rest ->
  Forall (fun a => ready k url a /\ transient a = true) errs -> ready k url a -> transient a = false ->
  http_perform true rt url header body json chunk_downloader w =
    conclude a (guid_url k a url) json chunk_downloader
      (mk_world rest (sent w ++ map (request_of k rt url header body) (errs ++ [a])) (err w) (token w) (master_token w)).
Proof. apply perform_concludes. Qed.
End Http.

(** ** The back-off *)

Lemma next_sleep_ok base cap s r :
  0 < base <= cap -> cap <= 16 -> 1 <= s <= 16 -> 0 <= r <= INT_MAX ->
  exists t, decorrelate_jitter_next_sleep (mk_djb base cap) s r = Done t /\ base <= t <= cap /\ t <= Z.max base (3 * s - 1).
Proof.
  intros Hb Hc Hs Hr. unfold decorrelate_jitter_next_sleep, INT_MAX in *. rewrite (wrapU_small 32 (s * 3)) by lia.
  destruct (s * 3 =? 0) eqn:E; [lia|]. rewrite (wrapU_small 32 r) by lia. pose proof (Z.mod_pos_bound r (s * 3)).
  rewrite wrapU_small by lia. eexists. split; [done|]. cbn. unfold uimin, uimax. repeat case_match; lia.
Qed.

(** The jittered back-off never divides by zero: whatever rand() answers, every
    pause is between 1 and 16 seconds. *)
Theorem retry_sleeps_bounded timeout rands :
  Forall (fun r => 0 <= r <= INT_MAX) rands ->
  exists ss, next_sleeps rands (retry_ctx_init timeout) = Done ss /\ length ss = length rands /\ Forall (fun s => 1 <= s <= 16) ss.
Proof.
  intros Hr. assert (forall c, djb c = mk_djb 1 16 -> 1 <= sleep_time c <= 16 ->
    exists ss, next_sleeps rands c = Done ss /\ length ss = length rands /\ Forall (fun s => 1 <= s <= 16) ss) as H; [|by apply H].
  induction Hr as [|r rands Hr _ IH]; intros c Hd Hs; [by exists []|]. cbn [next_sleeps]. unfold retry_ctx_next_sleep. rewrite Hd.
  destruct (next_sleep_ok 1 16 (sleep_time c) r) as (t & -> & Ht & _); [lia..|]. rewrite !bind_Done_l.
  destruct (IH (mk_retry (retry_count c) (retry_timeout c) t (mk_djb 1 16))) as (ss & E & Hl & Hf); [done|done|].
  exists (t :: ss). cbv beta iota. rewrite E, bind_Done_l. split_and!; [done|cbn; lia|]. by constructor.
Qed.

(** ** Witnesses *)

Definition body_bytes : list ascii := String.list_ascii_of_string "[1, true]".
Definition two_rounds : world :=
  mk_world [mk_attempt (Some "11111111-1111-4111-8111-111111111111") true (Response 503 [["x"%char]]);
            mk_attempt (Some "22222222-2222-4222-8222-222222222222") true (Response 200 [take 3 body_bytes; drop 3 body_bytes])]
    [] None None None.
Definition guid_sample_url : string := "https://h/q?request_guid=00000000-0000-0000-0000-000000000000".

Lemma http_perform_correct_witness :
  exists w j, http_perform all_hooks None true GET_REQUEST_TYPE guid_sample_url None None None false two_rounds =
    Done (true, "https://h/q?request_guid=22222222-2222-4222-8222-222222222222", Some j, w) /\ length (sent w) = 2%nat.
Proof.
  do 2 eexists. erewrite (http_perform_correct all_hooks None (take 1 (answers two_rounds)) _ []); [|reflexivity|..].
  - split; [vm_compute; reflexivity|]. reflexivity.
  - repeat constructor; vm_compute; eauto 10.
  - repeat constructor; vm_compute; eauto 10.
  - reflexivity.
Defined.

Lemma retry_sleeps_bounded_witness :
  exists ss, next_sleeps [7; 2147483647; 0] (retry_ctx_init 60) = Done ss /\ length ss = 3%nat /\ Forall (fun s => 1 <= s <= 16) ss.
Proof. apply (retry_sleeps_bounded 60 [7; 2147483647; 0]). repeat constructor; vm_compute; congruence. Defined.

(** ** What the caller may meet *)

(** When libcurl refuses an option the call fails and no error is set. *)
Example setup_failure_silent :
  http_perform all_hooks None true GET_REQUEST_TYPE "https://h/c" None None None true
    (mk_world [mk_attempt None false NoCode] [] None None None) =
  Done (false, "https://h/c", None, mk_world [] [] None None None).
Proof. reflexivity. Qed.

(** A server that keeps answering 503 is asked again as often as it does so. *)
Example retries_unbounded :
  (fun '(_, _, _, w) => length (sent w)) <$>
    (match http_perform all_hooks None true GET_REQUEST_TYPE "https://h/c" None None None false
             (mk_world (replicate 300 (mk_attempt None true (Response 503 []))) [] None None None) with Done r => Some r | _ => None end)
  = Some 301%nat.
Proof. vm_compute. reflexivity. Qed.
