(* ===== verification/Session.v ===== *)
(** * lib/connection.c: requests of a session (127-424, 1009-1210, 1239-1262).

    The request bodies and headers, curl_post_call and curl_get_call with the codes
    of a response, request, renew_session and set_tokens.  These call each other: a
    response that says the session has expired renews it and repeats the call, one
    that says the query is in progress asks again at the URL it gives.  [fuel] bounds
    the depth of the calls; three times the attempts the network has in store, and a
    few, are enough ([request_ends]).

    libcurl's escaping, curl_easy_init and uuid4_generate are parameters, the last two
    by the number of requests sent before. *)

From S2P Require Import Prelude CLib CFloat Status CJson CJsonPrint CJsonParse JsonHelpers Url Http.

Definition SESSION_EXPIRE_CODE : string := "390112".
Definition QUERY_IN_PROGRESS_CODE : string := "333333".
Definition QUERY_IN_PROGRESS_ASYNC_CODE : string := "333334".
Definition QUERYCODE_LEN : nat := 7.
Definition RENEW_SESSION_URL : string := "/session/token-request".
Definition REQUEST_TYPE_RENEW : string := "RENEW".
Definition HEADER_CONTENT_TYPE_APPLICATION_JSON : string := "Content-Type: application/json".
Definition HEADER_ACCEPT_TYPE_APPLICATION_SNOWFLAKE : string := "accept: application/snowflake".
Definition HEADER_ACCEPT_TYPE_APPLICATION_JSON : string := "accept: application/json".
Definition HEADER_C_API_USER_AGENT : string := "User-Agent: c_api/0.1".

(** ** Headers *)

(** [calloc(strlen(format) - 2 + strlen(arg) + 1)] and [snprintf] of a format with
    one %s between [before] and [after]. *)
Definition format_header (before after arg : string) : string :=
  let size := u64 (u64 (strlen before + 2 + strlen after - 2) + strlen arg + 1) in
  str_take (Z.to_nat (size - 1)) (before +:+ arg +:+ after).
Definition quote_string : string := String (chr 34) EmptyString.
Definition snowflake_token_header : string -> string := format_header ("Authorization: Snowflake Token=" +:+ quote_string) quote_string.
Definition direct_query_token_header : string -> string := format_header "Authorization: " EmptyString.

Definition create_header_no_token (use_application_json_accept_type : bool) : list string :=
  [HEADER_CONTENT_TYPE_APPLICATION_JSON;
   if use_application_json_accept_type then HEADER_ACCEPT_TYPE_APPLICATION_JSON else HEADER_ACCEPT_TYPE_APPLICATION_SNOWFLAKE;
   HEADER_C_API_USER_AGENT].
Definition create_header_token (header_token : string) (use_application_json_accept_type : bool) : list string :=
  [header_token; HEADER_CONTENT_TYPE_APPLICATION_JSON;
   if use_application_json_accept_type then HEADER_ACCEPT_TYPE_APPLICATION_JSON else HEADER_ACCEPT_TYPE_APPLICATION_SNOWFLAKE;
   HEADER_C_API_USER_AGENT].

(** The part of SF_CONNECT that a request reads and never changes. *)
Record config := mk_config {
  account : option string;
  host : option string;
  port : option string;
  protocol : string;
  directURL : option string;
  directURL_param : option string;
  direct_query_token : option string
}.

Section Session.
  Context (ph : internal_hooks) (CA_BUNDLE_FILE : option string) (curl_easy_escape : string -> string)
    (curl_easy_init : nat -> bool) (uuid4_generate : nat -> string) (sf : config).

(** ** Request bodies *)

Definition add_string (name : string) (v : option string) (o : option cJSON) : option cJSON :=
  snowflake_cJSON_AddStringToObject (allocate ph) o name v.

Definition create_auth_json_body (user password : option string) (application int_app_name int_app_version timezone : option string)
    (autocommit : bool) (os_name os_version : string) : option cJSON :=
  let client_env := add_string "OS_VERSION" (Some os_version) (add_string "OS" (Some os_name)
    (add_string "APPLICATION" application (snowflake_cJSON_CreateObject (allocate ph)))) in
  let session_parameters := add_string "TIMEZONE" timezone
    (add_string "AUTOCOMMIT" (Some (if autocommit then "true" else "false")) (snowflake_cJSON_CreateObject (allocate ph))) in
  let data := add_string "LOGIN_NAME" user (add_string "ACCOUNT_NAME" (account sf)
    (add_string "CLIENT_APP_VERSION" int_app_version (add_string "CLIENT_APP_ID" int_app_name (snowflake_cJSON_CreateObject (allocate ph))))) in
  let data := if is_string_empty password then data else add_string "PASSWORD" password data in
  let data := snowflake_cJSON_AddItemToObject (allocate ph) data (Some "CLIENT_ENVIRONMENT") client_env in
  let data := snowflake_cJSON_AddItemToObject (allocate ph) data (Some "SESSION_PARAMETERS") session_parameters in
  snowflake_cJSON_AddItemToObject (allocate ph) (snowflake_cJSON_CreateObject (allocate ph)) (Some "data") data.

(** [now] is time(NULL). *)
Definition create_query_json_body (sql_text : option string) (sequence_id now : Z) (request_id : option string) : option cJSON :=
  let body := add_string "sqlText" sql_text (snowflake_cJSON_CreateObject (allocate ph)) in
  let body := snowflake_cJSON_AddBoolToObject (allocate ph) body "asyncExec" false in
  let body := snowflake_cJSON_AddNumberToObject (allocate ph) body "sequenceId" (double_of_Z sequence_id) in
  let body := snowflake_cJSON_AddNumberToObject (allocate ph) body "querySubmissionTime" (SFmul 53 1024 (double_of_Z now) (double_of_Z 1000)) in
  match request_id with Some _ => add_string "requestId" request_id body | None => body end.

Definition create_renew_session_json_body (old_token : option string) : option cJSON :=
  add_string "requestType" (Some REQUEST_TYPE_RENEW) (add_string "oldSessionToken" old_token (snowflake_cJSON_CreateObject (allocate ph))).

(** ** Tokens *)

Definition set_token (t : option string) (w : world) : world := mk_world (answers w) (sent w) (err w) t (master_token w).
Definition set_master_token (t : option string) (w : world) : world := mk_world (answers w) (sent w) (err w) (token w) t.

Definition set_tokens (data : option cJSON) (session_token_str master_token_str : string) (w : world) : outcome (bool * world) :=
  '(e, t) ← json_copy_string (token w) data session_token_str;
  if bool_decide (e <> SF_JSON_ERROR_NONE) then
    Done (false, set_err SF_STATUS_ERROR_BAD_JSON "Cannot find valid session token in response" SF_SQLSTATE_UNABLE_TO_CONNECT w)
  else
    let w := set_token t w in
    '(e, t) ← json_copy_string (master_token w) data master_token_str;
    if bool_decide (e <> SF_JSON_ERROR_NONE) then
      Done (false, set_err SF_STATUS_ERROR_BAD_JSON "Cannot find valid master token in response" SF_SQLSTATE_UNABLE_TO_CONNECT w)
    else Done (true, set_master_token t w).

(** ** Calls *)

(** The code of a response: [query_code], or the error that stops the call. *)
Definition read_code (json : option cJSON) : outcome (SF_JSON_ERROR * string) :=
  '(e, query_code) ← json_copy_string_no_alloc (replicate QUERYCODE_LEN NUL) json "code" QUERYCODE_LEN;
  code ← deref (c_string query_code);
  Done (e, code).
Definition code_missing (e : SF_JSON_ERROR) : bool := bool_decide (e <> SF_JSON_ERROR_NONE /\ e <> SF_JSON_ERROR_ITEM_NULL).
Definition bad_json (e : SF_JSON_ERROR) (item : string) (w : world) : world :=
  set_err SF_STATUS_ERROR_BAD_JSON (JSON_ERROR_MSG e item) SF_SQLSTATE_UNABLE_TO_CONNECT w.
Definition in_progress_code (code : string) : bool :=
  String.eqb code QUERY_IN_PROGRESS_CODE || String.eqb code QUERY_IN_PROGRESS_ASYNC_CODE.
Definition perform := http_perform (allocate ph) CA_BUNDLE_FILE true.

(** Each function, given the ones it calls. *)
Section Bodies.
  Context (curl_post_call : string -> list string -> option string -> option cJSON -> world -> outcome (bool * option cJSON * world))
    (curl_get_call : string -> list string -> option cJSON -> world -> outcome (bool * option cJSON * world))
    (ping_pong : string -> list string -> option cJSON -> SF_JSON_ERROR -> world -> outcome (bool * option cJSON * world))
    (request : option cJSON -> string -> list URL_KEY_VALUE -> option string -> option (list string) -> SF_REQUEST_TYPE -> bool ->
       world -> outcome (bool * option cJSON * world))
    (renew_session : world -> outcome (bool * world)).

Definition curl_post_call_body (url : string) (header : list string) (body : option string) (json : option cJSON) (w : world)
  : outcome (bool * option cJSON * world) :=
  '(ok, url, json, w) ← perform POST_REQUEST_TYPE url (Some header) body json false w;
  if negb ok || bool_decide (json = None) then Done (false, json, w)
  else
    '(json_error, code) ← read_code json;
    if code_missing json_error then Done (false, json, bad_json json_error "Query code" w)
    else if is_string_empty (Some code) then Done (true, json, w)
    else
      '(ok, json, w) ←
        (if String.eqb code SESSION_EXPIRE_CODE then
           '(ok, w) ← renew_session w;
           if negb ok then Done (false, json, w)
           else t ← deref (token w); curl_post_call url (create_header_token (snowflake_token_header t) false) body json w
         else Done (true, json, w));
      if negb ok then Done (false, json, w)
      else
        '(stop, json, w) ← ping_pong code header json json_error w;
        Done (negb stop, json, w).

(** The loop while the query is in progress: whether to stop. *)
Definition ping_pong_body (code : string) (header : list string) (json : option cJSON) (json_error : SF_JSON_ERROR) (w : world)
  : outcome (bool * option cJSON * world) :=
  if in_progress_code code then
    let data := snowflake_cJSON_GetObjectItem json "data" in
    '(e, result_url) ← json_copy_string None data "getResultUrl";
    if bool_decide (e <> SF_JSON_ERROR_NONE) then Done (true, json, bad_json json_error "Result URL" w)
    else
      result_url ← deref result_url;
      '(ok, json, w) ← request json result_url [] None (Some header) GET_REQUEST_TYPE false w;
      if negb ok then Done (true, json, w)
      else
        '(json_error, code) ← read_code json;
        if code_missing json_error then Done (true, json, bad_json json_error "Query code" w)
        else ping_pong code header json json_error w
  else Done (false, json, w).

Definition curl_get_call_body (url : string) (header : list string) (json : option cJSON) (w : world)
  : outcome (bool * option cJSON * world) :=
  '(ok, url, json, w) ← perform GET_REQUEST_TYPE url (Some header) None json false w;
  if negb ok || bool_decide (json = None) then Done (false, json, w)
  else
    '(json_error, code) ← read_code json;
    if code_missing json_error then Done (false, json, bad_json json_error "Query code" w)
    else if is_string_empty (Some code) then Done (true, json, w)
    else if String.eqb code SESSION_EXPIRE_CODE then
      '(ok, w) ← renew_session w;
      if negb ok then Done (false, json, w)
      else t ← deref (token w); curl_get_call url (create_header_token (snowflake_token_header t) false) json w
    else Done (true, json, w).

Definition request_body (json : option cJSON) (url : string) (url_params : list URL_KEY_VALUE) (body : option string)
    (header : option (list string)) (request_type : SF_REQUEST_TYPE) (use_application_json_accept_type : bool) (w : world)
  : outcome (bool * option cJSON * world) :=
  if negb (curl_easy_init (length (sent w))) then Done (false, json, w)
  else
    let my_header :=
      match header, token w, direct_query_token sf with
      | Some h, _, _ => h
      | None, Some t, _ => create_header_token (snowflake_token_header t) use_application_json_accept_type
      | None, None, Some t => create_header_token (direct_query_token_header t) use_application_json_accept_type
      | None, None, None => create_header_no_token use_application_json_accept_type
      end in
    block ← encode_url curl_easy_escape (protocol sf) (account sf) (host sf) (port sf) url url_params (directURL_param sf);
    encoded_url ← deref (c_string block);
    match request_type with
    | POST_REQUEST_TYPE => curl_post_call encoded_url my_header body json w
    | GET_REQUEST_TYPE => curl_get_call encoded_url my_header json w
    | _ => Done (false, json, set_err SF_STATUS_ERROR_BAD_REQUEST
             "An unknown request type was passed to the request function" SF_SQLSTATE_UNABLE_TO_CONNECT w)
    end.

Definition renew_session_body (w : world) : outcome (bool * world) :=
  if negb (is_string_empty (directURL sf)) then
    Done (false, set_err SF_STATUS_ERROR_BAD_REQUEST "Attempt to renew session with XPR direct URL" SF_SQLSTATE_GENERAL_ERROR w)
  else if is_string_empty (master_token w) then
    Done (false, set_err SF_STATUS_ERROR_BAD_REQUEST
      "Missing master token when trying to renew session. Are you sure your connection was properly setup?"
      SF_SQLSTATE_UNABLE_TO_CONNECT w)
  else
    master ← deref (master_token w);
    let header := create_header_token (snowflake_token_header master) false in
    s_body ← (match create_renew_session_json_body (token w) with Some b => snowflake_cJSON_Print ph b | None => Done None end);
    block ← encode_url curl_easy_escape (protocol sf) (account sf) (host sf) (port sf) RENEW_SESSION_URL
              [mk_var "request_id=" (Some (uuid4_generate (length (sent w))))] (directURL_param sf);
    encoded_url ← deref (c_string block);
    '(ok, json, w) ← curl_post_call encoded_url header s_body None w;
    if negb ok || bool_decide (json = None) then Done (false, w)
    else
      let '(e, success) := json_copy_bool false json "success" in
      if bool_decide (e <> SF_JSON_ERROR_NONE) then Done (false, bad_json e "Success" w)
      else if negb success then
        Done (false, set_err SF_STATUS_ERROR_BAD_RESPONSE "Request returned as being unsuccessful" SF_SQLSTATE_UNABLE_TO_CONNECT w)
      else
        match snowflake_cJSON_GetObjectItem json "data" with
        | None => Done (false, set_err SF_STATUS_ERROR_BAD_JSON "No data object in JSON response" SF_SQLSTATE_UNABLE_TO_CONNECT w)
        | Some data =>
            if negb (snowflake_cJSON_HasObjectItem (Some data) "sessionToken") then
              Done (false, set_err SF_STATUS_ERROR_BAD_JSON "No session token in JSON response" SF_SQLSTATE_UNABLE_TO_CONNECT w)
            else set_tokens (Some data) "sessionToken" "masterToken" w
        end.
End Bodies.

Fixpoint curl_post_call (fuel : nat) url header body json w {struct fuel} :=
  match fuel with
  | O => NoFuel
  | S fuel => curl_post_call_body (curl_post_call fuel) (ping_pong fuel) (renew_session fuel) url header body json w
  end
with ping_pong (fuel : nat) code header json json_error w {struct fuel} :=
  match fuel with O => NoFuel | S fuel => ping_pong_body (ping_pong fuel) (request fuel) code header json json_error w end
with curl_get_call (fuel : nat) url header json w {struct fuel} :=
  match fuel with O => NoFuel | S fuel => curl_get_call_body (curl_get_call fuel) (renew_session fuel) url header json w end
with request (fuel : nat) json url url_params body header request_type use_application_json_accept_type w {struct fuel} :=
  match fuel with
  | O => NoFuel
  | S fuel => request_body (curl_post_call fuel) (curl_get_call fuel) json url url_params body header request_type use_application_json_accept_type w
  end
with renew_session (fuel : nat) w {struct fuel} :=
  match fuel with O => NoFuel | S fuel => renew_session_body (curl_post_call fuel) w end.
End Session.
