(* ===== verification/SessionTotal.v ===== *)
(** * Requests always come to a result

    Whatever the network brings, a request of Session.v ends without reading or
    writing where it must not: every response is parsed or refused, every code is
    read inside its array, every URL fits its block, and the calls that a response
    causes each use up an attempt.  [ph] may refuse any allocation of the parser. *)

From S2P Require Import Prelude CLib CFloat Status CJson CJsonPrint CJsonParse CJsonType JsonHelpers Url Http Session Uuid4.

(** ** A URL with room for its GUID *)

Definition guid_key : string := "request_guid=".

(** The key stands behind [A] and 36 characters or more follow it. *)
Definition guided_at (A url : string) : Prop :=
  exists B, url = A +:+ guid_key +:+ B /\ (36 <= String.length B)%nat.

Lemma prefix_split p s : String.prefix p s = true -> exists t, s = p +:+ t.
Proof.
  revert s. induction p as [|a p IH]; intros s H; [by exists s|]. destruct s as [|b s]; [done|]. cbn in H.
  destruct (ascii_dec a b) as [->|]; [|done]. destruct (IH s H) as [t ->]. by exists t.
Qed.

Lemma app_prefix p t : String.prefix p (p +:+ t) = true.
Proof. induction p as [|a p IH]; cbn; [by destruct t|]. by destruct (ascii_dec a a). Qed.

Lemma index_found s B : exists j A B', String.index 0 guid_key (s +:+ guid_key +:+ B) = Some j /\
  s +:+ guid_key +:+ B = A +:+ guid_key +:+ B' /\ String.length A = j /\ (String.length B <= String.length B')%nat.
Proof.
  induction s as [|c s IH].
  - exists O, EmptyString, B. split_and!; try done. by destruct B.
  - cbn [append String.index]. destruct (String.prefix guid_key (String c (s +:+ guid_key +:+ B))) eqn:E.
    + destruct (prefix_split _ _ E) as [t Et]. exists O, EmptyString, t. split_and!; [done|exact Et|done|].
      pose proof (f_equal String.length Et) as El. cbn [String.length] in El. rewrite !str_length_app in El. lia.
    + destruct IH as (j & A & B' & -> & EA & Hj & HB). exists (S j), (String c A), B'. split_and!; [done|exact (f_equal (String c) EA)|cbn; lia|done].
Qed.

Lemma guided_ptr A url : guided_at A url ->
  exists A', request_guid_ptr url = Some (String.length A' + 13)%nat /\ guided_at A' url.
Proof.
  intros (B & -> & HB). destruct (index_found A B) as (j & A' & B' & Hi & E & Hj & Hl). exists A'. unfold request_guid_ptr.
  change "request_guid=" with guid_key. rewrite Hi. cbn. split; [by rewrite Hj|]. exists B'. split; [done|lia].
Qed.

Lemma write_guided A url g : guided_at A url -> String.length g = 36%nat ->
  exists url', write_guid (String.length A + 13) g url = Done url' /\ guided_at A url'.
Proof.
  intros (B & -> & HB) Hg. unfold write_guid. rewrite Hg.
  assert (String.length (A +:+ guid_key +:+ B) = String.length A + 13 + String.length B)%nat as Hl by (rewrite !str_length_app; cbn; lia).
  rewrite (proj2 (Nat.leb_le _ _)) by lia. eexists. split; [reflexivity|]. rewrite <- (str_app_assoc A guid_key B).
  replace (String.length A + 13)%nat with (String.length (A +:+ guid_key)) by (rewrite str_length_app; cbn; lia).
  rewrite str_take_app_exact. exists (g +:+ str_drop (String.length (A +:+ guid_key) + 36) ((A +:+ guid_key) +:+ B)).
  split; [by rewrite !str_app_assoc|]. rewrite str_length_app. lia.
Qed.

(** ** The network and the session's state *)

(** What is asked of an attempt: a GUID has 36 characters, a body fits. *)
Definition good (a : attempt) : Prop :=
  (forall g, a_guid a = Some g -> String.length g = 36%nat) /\
  match a_answer a with Response _ pieces => Z.of_nat (length (concat pieces)) < 2 ^ 60 | _ => True end.

Definition fine (w : world) : Prop := Forall good (answers w) /\ plain (token w) /\ plain (master_token w).

Definition parsed (json : option cJSON) : Prop :=
  match json with Some j => exists N, well_typed N j = true /\ Z.of_nat N <= 2 ^ 60 + 2 | None => True end.

Definition same_tokens (w w' : world) : Prop := token w' = token w /\ master_token w' = master_token w.

Lemma text_of_ok bytes : no_nul (text_of bytes) = true /\ (String.length (text_of bytes) <= length bytes)%nat.
Proof.
  induction bytes as [|c bytes [IH1 IH2]]; cbn; [done|]. destruct (code c =? 0) eqn:E; cbn; [split; [done|lia]|]. rewrite E. split; [done|lia].
Qed.

(** ** Reading a response *)

Lemma item_parsed json name c : parsed json -> snowflake_cJSON_GetObjectItem json name = Some c -> parsed (Some c).
Proof.
  destruct json as [j|]; [|done]. intros (N & Hw & HN) H. exists N. split; [|done]. cbn in H.
  destruct (find_ci (child j) name) as [i|]; [|done]. cbn in H. destruct j as [t vs vi vd k ch]. cbn in *.
  apply andb_prop in Hw as [_ Hw]. rewrite forallb_forall in Hw. apply Hw. apply list_elem_of_In. by eapply list_elem_of_lookup_2.
Qed.

Lemma string_parsed j : parsed (Some j) -> snowflake_cJSON_IsString (Some j) = true ->
  exists v, valuestring j = Some v /\ no_nul v = true /\ strlen v <= 2 ^ 60 + 2.
Proof.
  intros (N & Hw & HN) Hs. destruct j as [t vs vi vd k ch]. cbn in *.
  assert (t = cJSON_String) as ->.
  { repeat (apply andb_prop in Hw as [Hw _]). unfold json_type in Hw. repeat (apply orb_prop in Hw as [Hw|Hw]); apply Z.eqb_eq in Hw; subst t; done. }
  repeat (apply andb_prop in Hw as [Hw ?]). destruct vs as [v|]; [|done]. exists v. unfold text_ok in *.
  match goal with H : _ && (no_nul v && _) = true |- _ => apply andb_prop in H as [_ H]; apply andb_prop in H as [-> H]; apply Nat.leb_le in H end.
  split_and!; [done..|]. unfold strlen. lia.
Qed.

Lemma classify_none is_type blob : json_classify is_type blob = SF_JSON_ERROR_NONE -> exists j, blob = Some j /\ is_type (Some j) = true.
Proof. destruct blob as [j|]; unfold json_classify; [|done]. destruct (snowflake_cJSON_IsNull (Some j)); [done|]. destruct (is_type (Some j)) eqn:E; [|done]. eauto. Qed.

Lemma copy_string_total dest data item : parsed data ->
  exists e v, json_copy_string dest data item = Done (e, v) /\
    (e = SF_JSON_ERROR_NONE -> exists s, v = Some s /\ no_nul s = true /\ strlen s <= 2 ^ 60 + 2).
Proof.
  intros Hp. unfold json_copy_string. destruct (json_classify _ _) eqn:E; try (do 2 eexists; by split).
  destruct (classify_none _ _ E) as (j & Ej & Hs). rewrite Ej. cbn [deref]. rewrite bind_Done_l.
  destruct (string_parsed j (item_parsed _ _ _ Hp Ej) Hs) as (v & -> & Hv). cbn [deref]. rewrite bind_Done_l.
  do 2 eexists. split; [reflexivity|]. intros _. by exists v.
Qed.

Lemma read_code_total json : parsed json -> exists e code, read_code json = Done (e, code).
Proof.
  intros Hp. unfold read_code.
  assert (exists e bytes code, json_copy_string_no_alloc (replicate QUERYCODE_LEN NUL) json "code" QUERYCODE_LEN = Done (e, bytes) /\
    c_string bytes = Some code) as (e & bytes & code & -> & E).
  { destruct (json_classify snowflake_cJSON_IsString (snowflake_cJSON_GetObjectItem json "code")) eqn:E.
    - destruct (classify_none _ _ E) as (j & Ej & Hs). destruct (string_parsed j (item_parsed _ _ _ Hp Ej) Hs) as (v & Ev & Hv & _).
      destruct (no_alloc_bounded (replicate QUERYCODE_LEN NUL) json "code" QUERYCODE_LEN j v) as (dest & -> & _ & _ & Ec); try done.
      { unfold QUERYCODE_LEN. rewrite length_replicate. lia. } eauto.
    - all: unfold json_copy_string_no_alloc; rewrite E; by do 3 eexists.
    - all: unfold json_copy_string_no_alloc; rewrite E; by do 3 eexists.
    - all: unfold json_copy_string_no_alloc; rewrite E; by do 3 eexists.
    - all: unfold json_copy_string_no_alloc; rewrite E; by do 3 eexists. }
  rewrite bind_Done_l. rewrite E. cbn [deref]. rewrite bind_Done_l. by do 2 eexists.
Qed.

Section Total.
  Context (ph : internal_hooks) (CA_BUNDLE_FILE : option string).

Lemma attempt_total A a rt url header body w : guided_at A url -> good a ->
  exists v url' w', one_attempt CA_BUNDLE_FILE a (Some (String.length A + 13)%nat) rt url header body false w = Done (v, url', w') /\
    guided_at A url' /\ answers w' = answers w /\ same_tokens w w' /\
    (forall b, v = VBody b -> exists pieces, Z.of_nat (length (concat pieces)) < 2 ^ 60 /\ receive pieces (first_buffer false) = Done b).
Proof.
  intros Hu [Hg Hp]. unfold one_attempt. destruct (a_guid a) as [g|] eqn:Eg.
  2:{ exists VBreak, url, w. by split_and!. }
  destruct (write_guided A url g Hu (Hg g eq_refl)) as (url' & -> & Hu'). rewrite bind_Done_l.
  destruct (a_setup a); cbn [negb].
  2:{ exists VBreak, url', w. by split_and!. }
  destruct (a_answer a) as [bad strerror| |c pieces].
  - do 3 eexists. by split_and!.
  - do 3 eexists. by split_and!.
  - destruct (received false pieces) as (b & _ & E & _); [lia|]. rewrite E, bind_Done_l.
    destruct (c =? 200); [|destruct (is_retryable_http_code c)]; do 3 eexists; (split; [reflexivity|]); split_and!; try done.
    intros b0 [= <-]. by exists pieces.
Qed.

Lemma loop_total A rt header body todo : forall url w, guided_at A url -> Forall good todo ->
  exists v url' w', http_loop CA_BUNDLE_FILE todo (Some (String.length A + 13)%nat) rt url header body false w = Done (v, url', w') /\
    guided_at A url' /\ Forall good (answers w') /\ same_tokens w w' /\ (length (answers w') <= length todo)%nat /\
    (forall b, v = VBody b -> exists pieces, Z.of_nat (length (concat pieces)) < 2 ^ 60 /\ receive pieces (first_buffer false) = Done b) /\
    (forall b, v = VBody b -> (length (answers w') < length todo)%nat).
Proof.
  induction todo as [|a todo IH]; intros url w Hu Hall; cbn [http_loop].
  - destruct (write_guided A url no_guid Hu eq_refl) as (url' & E & Hu'). unfold one_attempt. cbn [a_guid unreachable]. rewrite E, bind_Done_l.
    cbn. do 3 eexists. by split_and!.
  - apply Forall_cons in Hall as [Ha Hall].
    destruct (attempt_total A a rt url header body (set_answers todo w) Hu Ha) as (v & url1 & w1 & E & Hu1 & Ea & Ht & Hb).
    rewrite E, bind_Done_l. cbn in Ea. destruct v.
    1,3,4: do 3 eexists; split; [reflexivity|]; rewrite Ea; split_and!; try done; cbn; lia.
    destruct (IH url1 w1 Hu1 Hall) as (v' & url2 & w2 & E2 & Hu2 & Ha2 & Ht2 & Hl2 & Hb2 & Hs2). exists v', url2, w2. split; [done|].
    split_and!; [done|done| |cbn; lia|done|].
    + destruct Ht2, Ht. cbn in *; split; congruence.
    + intros b Hv. specialize (Hs2 b Hv). cbn. lia.
Qed.

(** A call returns; one that succeeds has used up an attempt and has a value. *)
Lemma perform_total rt A url header body json w : guided_at A url -> fine w -> parsed json ->
  exists ok url' json' w', perform ph CA_BUNDLE_FILE rt url header body json false w = Done (ok, url', json', w') /\
    (exists A', guided_at A' url') /\ fine w' /\ parsed json' /\ (length (answers w') <= length (answers w))%nat /\
    (ok = true -> (length (answers w') < length (answers w))%nat /\ json' <> None).
Proof.
  intros Hu (Hg & Ht & Hm) Hj. unfold perform, http_perform. cbn [negb]. destruct (guided_ptr A url Hu) as (A' & -> & Hu').
  destruct (loop_total A' rt header body (answers w) url w Hu' Hg) as (v & url1 & w1 & -> & Hu1 & Hg1 & [Et Em] & Hl & Hb & Hs).
  rewrite bind_Done_l. assert (fine w1) as Hf1 by (split_and!; [done|by rewrite Et|by rewrite Em]).
  assert (exists A', guided_at A' url1) as Hu2 by eauto.
  destruct v; try (do 4 eexists; split; [reflexivity|]; by split_and!).
  destruct (Hb b eq_refl) as (pieces & Hp & Er). destruct (received false pieces) as (b1 & b2 & Er' & Ec & Etext); [lia|].
  rewrite Er in Er'. injection Er' as <-. cbv beta iota. rewrite Ec, bind_Done_l, Etext, bind_Done_l.
  assert (exists json2, snowflake_cJSON_Parse (allocate ph) (body_text false pieces) = Done json2 /\ parsed json2) as (json2 & -> & Hj2).
  { unfold body_text. destruct pieces as [|p pieces]; [by exists None|]. set (bytes := concat _) in *.
    destruct (text_of_ok bytes) as [Hn Hlen]. destruct (parse_returns (allocate ph) (text_of bytes) false Hn) as (r & pos & E & _).
    exists r. assert (snowflake_cJSON_Parse (allocate ph) (Some (text_of bytes)) = Done r) as Ep by (unfold snowflake_cJSON_Parse; by rewrite E).
    split; [done|]. destruct r as [j|]; [|done]. destruct (parse_typed _ _ _ Ep) as [Hw _]. exists (String.length (text_of bytes) + 1)%nat.
    split; [done|]. lia. }
  rewrite bind_Done_l. destruct json2 as [j|]; do 4 eexists; (split; [reflexivity|]); split_and!; try done.
  intros _. split; [by eapply Hs|done].
Qed.

(** ** Requests *)

Context (curl_easy_escape : string -> string) (curl_easy_init : nat -> bool) (uuid4_generate : nat -> string) (sf : config).

(** libcurl escapes none of the unreserved characters. *)
Context (escape_unreserved : forall s, str_all unreserved s = true -> curl_easy_escape s = s).
Context (escape_c_string : forall s, no_nul (curl_easy_escape s) = true).
Context (uuid_ok : forall i, str_all unreserved (uuid4_generate i) = true /\ String.length (uuid4_generate i) = 36%nat).

Definition short (s : option string) : Prop := match s with Some s => strlen s < 2 ^ 60 | None => True end.
Context (config_ok : no_nul (protocol sf) = true /\ strlen (protocol sf) < 2 ^ 60 /\
  plain (account sf) /\ short (account sf) /\ plain (host sf) /\ short (host sf) /\ plain (port sf) /\ short (port sf) /\
  plain (directURL_param sf) /\ short (directURL_param sf) /\ (is_string_empty (host sf) = true -> account sf <> None)).

Lemma short_default s : short s -> strlen (default EmptyString s) < 2 ^ 60.
Proof. by destruct s. Qed.

(** The URL of a request is built and has room for its GUID. *)
Lemma url_total url vars : no_nul url = true -> strlen url <= 2 ^ 60 + 2 -> Forall plain_var vars ->
  strlen (vars_text curl_easy_escape vars) < 2 ^ 60 ->
  exists block u, encode_url curl_easy_escape (protocol sf) (account sf) (host sf) (port sf) url vars (directURL_param sf) = Done block /\
    c_string block = Some u /\ exists A, guided_at A u.
Proof.
  destruct config_ok as (Hpr & Lpr & Ha & La & Hh & Lh & Hp & Lp & Hx & Lx & Hacc). intros Hu Lu Hv Lv.
  assert (fst (format_var curl_easy_escape request_guid) = guid_key /\
    snd (format_var curl_easy_escape request_guid) = "00000000-0000-0000-0000-000000000000") as [Ek Ev].
  { split; [done|]. cbn. by apply escape_unreserved. }
  destruct (encode_url_ok curl_easy_escape escape_c_string (protocol sf) (account sf) (host sf) (port sf) url vars (directURL_param sf))
    as (block & E & Ec & _); try done.
  - unfold url_text. rewrite Ek, Ev. unfold authority, extra_text. rewrite !strlen_app.
    pose proof (short_default _ La). pose proof (short_default _ Lh). pose proof (short_default _ Lp). unfold short in Lx.
    destruct (is_string_empty (host sf)), (is_string_empty (port sf)), (directURL_param sf) as [e|] eqn:Ee; rewrite ?strlen_app;
      try destruct (is_string_empty (Some e)); try destruct vars; rewrite ?strlen_app;
      change (strlen guid_key) with 13; change (strlen "00000000-0000-0000-0000-000000000000") with 36;
      change (strlen DEFAULT_SNOWFLAKE_BASE_URL) with 22; change (strlen ".") with 1; change (strlen ":") with 1; change (strlen "://") with 3;
      change (strlen "?") with 1; change (strlen URL_PARAM_DELIM) with 1; change (strlen EmptyString) with 0; lia.
  - exists block. eexists. split_and!; [exact E|exact Ec|]. unfold url_text. rewrite Ek, Ev.
    exists (((protocol sf) +:+ "://" +:+ authority (account sf) (host sf) (port sf) +:+ url) +:+ "?" +:+ vars_text curl_easy_escape vars).
    exists ("00000000-0000-0000-0000-000000000000" +:+ extra_text vars (directURL_param sf)). split; [by rewrite !str_app_assoc|].
    rewrite str_length_app. cbn. lia.
Qed.

(** ** The body that renews a session *)

Definition c_tree_opt (o : option cJSON) : Prop := match o with Some j => c_tree j = true | None => True end.

Lemma add_string_tree name v o : no_nul name = true -> plain v -> c_tree_opt o -> c_tree_opt (add_string ph name v o).
Proof.
  intros Hn Hv Ho. unfold add_string, snowflake_cJSON_AddStringToObject, snowflake_cJSON_CreateString, create_string_of_type.
  destruct (cJSON_New_Item (allocate ph)) as [it|] eqn:Ei; [|done]. unfold cJSON_New_Item in Ei. destruct (allocate ph _); [|done].
  injection Ei as <-. unfold cJSON_strdup at 1. destruct v as [v|]; [|done]. destruct (allocate ph (strlen v + 1)); [|done].
  unfold snowflake_cJSON_AddItemToObject. cbn [key valueint valuedouble child]. set (item := mk_cJSON _ _ _ _ _ _).
  unfold cJSON_strdup. destruct (allocate ph (strlen name + 1)); [|done]. destruct o as [j|]; [|done].
  cbn [snowflake_cJSON_AddItemToObjectCS snowflake_cJSON_AddItemToArray c_tree_opt child set_child]. rewrite last_snoc, removelast_last.
  destruct j as [t vs vi vd k ch]. cbn in Ho |- *. apply andb_prop in Ho as [Ho Hch]. rewrite Ho, forallb_app, Hch. cbn. by rewrite Hn, Hv.
Qed.

Lemma renew_body_total t : plain t ->
  exists r, (match create_renew_session_json_body ph t with Some b => snowflake_cJSON_Print ph b | None => Done None end) = Done r.
Proof.
  intros Ht. assert (c_tree_opt (create_renew_session_json_body ph t)) as Hc.
  { apply add_string_tree; [done|done|]. apply add_string_tree; [done|done|]. unfold snowflake_cJSON_CreateObject, cJSON_New_Item.
    destruct (allocate ph sizeof_cJSON); [reflexivity|done]. }
  destruct (create_renew_session_json_body ph t) as [b|]; [|by eexists]. destruct (print_ok ph b true Hc) as (r & E & _). by exists r.
Qed.

Lemma set_tokens_total data w : fine w -> parsed data ->
  exists ok w', set_tokens data "sessionToken" "masterToken" w = Done (ok, w') /\ fine w' /\ answers w' = answers w /\
    (ok = true -> token w' <> None).
Proof.
  intros (Hg & Ht & Hm) Hp. unfold set_tokens. destruct (copy_string_total (token w) data "sessionToken" Hp) as (e & t & -> & He).
  rewrite bind_Done_l. case_bool_decide as Hb; [do 2 eexists; by split_and!|].
  destruct He as (s & -> & Hs & _); [by first [done|apply dec_stable]|].
  destruct (copy_string_total (master_token (set_token (Some s) w)) data "masterToken" Hp) as (e' & t' & -> & He'). rewrite bind_Done_l.
  case_bool_decide as Hb'; [do 2 eexists; by split_and!|].
  destruct He' as (s' & -> & Hs' & _); [by first [done|apply dec_stable]|]. do 2 eexists. by split_and!.
Qed.

(** ** The calls *)

(** A call returns; one that succeeds has used up an attempt and has a value. *)
Definition returns (w : world) (o : outcome (bool * option cJSON * world)) : Prop :=
  exists ok json w', o = Done (ok, json, w') /\ fine w' /\ parsed json /\ (length (answers w') <= length (answers w))%nat /\
    (ok = true -> (length (answers w') < length (answers w))%nat /\ json <> None).
(** The loop returns; it may stop without another attempt. *)
Definition loops (w : world) (o : outcome (bool * option cJSON * world)) : Prop :=
  exists stop json w', o = Done (stop, json, w') /\ fine w' /\ parsed json /\ (length (answers w') <= length (answers w))%nat /\
    (stop = false -> json <> None).

Abbreviation post := (curl_post_call ph CA_BUNDLE_FILE curl_easy_escape curl_easy_init uuid4_generate sf).
Abbreviation pong := (ping_pong ph CA_BUNDLE_FILE curl_easy_escape curl_easy_init uuid4_generate sf).
Abbreviation get := (curl_get_call ph CA_BUNDLE_FILE curl_easy_escape curl_easy_init uuid4_generate sf).
Abbreviation req := (request ph CA_BUNDLE_FILE curl_easy_escape curl_easy_init uuid4_generate sf).
Abbreviation renew := (renew_session ph CA_BUNDLE_FILE curl_easy_escape curl_easy_init uuid4_generate sf).

Definition post_ok (fuel : nat) : Prop := forall A url header body json w,
  guided_at A url -> fine w -> parsed json -> (3 * length (answers w) + 1 <= fuel)%nat -> returns w (post fuel url header body json w).
Definition get_ok (fuel : nat) : Prop := forall A url header json w,
  guided_at A url -> fine w -> parsed json -> (3 * length (answers w) + 1 <= fuel)%nat -> returns w (get fuel url header json w).
Definition request_ok (fuel : nat) : Prop := forall json url vars body header rt accept w,
  no_nul url = true -> strlen url <= 2 ^ 60 + 2 -> Forall plain_var vars -> strlen (vars_text curl_easy_escape vars) < 2 ^ 60 ->
  fine w -> parsed json -> (3 * length (answers w) + 2 <= fuel)%nat -> returns w (req fuel json url vars body header rt accept w).
Definition pong_ok (fuel : nat) : Prop := forall code header json e w,
  fine w -> parsed json -> json <> None -> (3 * length (answers w) + 3 <= fuel)%nat -> loops w (pong fuel code header json e w).
Definition renew_ok (fuel : nat) : Prop := forall w, fine w -> (3 * length (answers w) + 2 <= fuel)%nat ->
  exists ok w', renew fuel w = Done (ok, w') /\ fine w' /\ (length (answers w') <= length (answers w))%nat /\ (ok = true -> token w' <> None).

Lemma post_S fuel : post (S fuel) = curl_post_call_body ph CA_BUNDLE_FILE (post fuel) (pong fuel) (renew fuel).
Proof. reflexivity. Qed.
Lemma get_S fuel : get (S fuel) = curl_get_call_body ph CA_BUNDLE_FILE (get fuel) (renew fuel).
Proof. reflexivity. Qed.
Lemma pong_S fuel : pong (S fuel) = ping_pong_body (pong fuel) (req fuel).
Proof. reflexivity. Qed.
Lemma req_S fuel : req (S fuel) = request_body curl_easy_escape curl_easy_init sf (post fuel) (get fuel).
Proof. reflexivity. Qed.
Lemma renew_S fuel : renew (S fuel) = renew_session_body ph curl_easy_escape uuid4_generate sf (post fuel).
Proof. reflexivity. Qed.

Lemma post_step fuel : post_ok fuel -> renew_ok fuel -> pong_ok fuel -> post_ok (S fuel).
Proof.
  intros IHpost IHrenew IHpong A url header body json w Hu Hf Hj Hfu. rewrite post_S. unfold curl_post_call_body.
  destruct (perform_total POST_REQUEST_TYPE A url (Some header) body json w Hu Hf Hj) as (ok & u1 & j1 & w1 & -> & [A1 Hu1] & Hf1 & Hj1 & Hl1 & Hok1).
  rewrite bind_Done_l. cbv beta iota. destruct ok; cbn [negb orb]; [|do 3 eexists; by split_and!].
  destruct (Hok1 eq_refl) as [Hlt Hne]. rewrite bool_decide_false by done.
  destruct (read_code_total j1 Hj1) as (e & code & ->). rewrite bind_Done_l. cbv beta iota.
  destruct (code_missing e); [do 3 eexists; by split_and!|].
  destruct (is_string_empty (Some code)); [do 3 eexists; by split_and!|].
  assert (exists ok2 j2 w2, (if String.eqb code SESSION_EXPIRE_CODE then
      '(ok, w) ← renew fuel w1;
      if negb ok then Done (false, j1, w)
      else t ← deref (token w); post fuel u1 (create_header_token (snowflake_token_header t) false) body j1 w
    else Done (true, j1, w1)) = Done (ok2, j2, w2) /\ fine w2 /\ parsed j2 /\ (length (answers w2) <= length (answers w1))%nat /\ (ok2 = true -> j2 <> None))
    as (ok2 & j2 & w2 & -> & Hf2 & Hj2 & Hl2 & Hok2).
  { destruct (String.eqb code SESSION_EXPIRE_CODE); [|do 3 eexists; by split_and!].
    destruct (IHrenew w1 Hf1) as (okr & wr & -> & Hfr & Hlr & Ht); [lia|]. rewrite bind_Done_l. cbv beta iota.
    destruct okr; cbn [negb]; [|do 3 eexists; by split_and!]. specialize (Ht eq_refl). destruct (token wr) as [t|]; [|done]. cbn [deref].
    rewrite bind_Done_l. destruct (IHpost A1 u1 (create_header_token (snowflake_token_header t) false) body j1 wr) as (ok2 & j2 & w2 & -> & ? & ? & ? & Hx);
      [done..|lia|]. do 3 eexists. split_and!; [reflexivity|done|done|lia|]. intros ->. by apply Hx. }
  rewrite bind_Done_l. cbv beta iota. destruct ok2; cbn [negb]; [|do 3 eexists; split_and!; try done; lia].
  destruct (IHpong code header j2 e w2) as (stop & j3 & w3 & -> & Hf3 & Hj3 & Hl3 & Hs); [done|done|by apply Hok2|lia|].
  rewrite bind_Done_l. cbv beta iota. exists (negb stop), j3, w3. split_and!; [done|done|done|lia|]. intros Hst. split; [lia|].
  by destruct stop; [|apply Hs].
Qed.

Lemma get_step fuel : get_ok fuel -> renew_ok fuel -> get_ok (S fuel).
Proof.
  intros IHget IHrenew A url header json w Hu Hf Hj Hfu. rewrite get_S. unfold curl_get_call_body.
  destruct (perform_total GET_REQUEST_TYPE A url (Some header) None json w Hu Hf Hj) as (ok & u1 & j1 & w1 & -> & [A1 Hu1] & Hf1 & Hj1 & Hl1 & Hok1).
  rewrite bind_Done_l. cbv beta iota. destruct ok; cbn [negb orb]; [|do 3 eexists; by split_and!].
  destruct (Hok1 eq_refl) as [Hlt Hne]. rewrite bool_decide_false by done.
  destruct (read_code_total j1 Hj1) as (e & code & ->). rewrite bind_Done_l. cbv beta iota.
  destruct (code_missing e); [do 3 eexists; by split_and!|].
  destruct (is_string_empty (Some code)); [do 3 eexists; by split_and!|].
  destruct (String.eqb code SESSION_EXPIRE_CODE); [|do 3 eexists; by split_and!].
  destruct (IHrenew w1 Hf1) as (okr & wr & -> & Hfr & Hlr & Ht); [lia|]. rewrite bind_Done_l. cbv beta iota.
  destruct okr; cbn [negb]; [|do 3 eexists; split_and!; try done; lia]. specialize (Ht eq_refl). destruct (token wr) as [t|]; [|done]. cbn [deref].
  rewrite bind_Done_l. destruct (IHget A1 u1 (create_header_token (snowflake_token_header t) false) j1 wr) as (ok2 & j2 & w2 & -> & ? & ? & ? & Hx);
    [done..|lia|]. do 3 eexists. split_and!; [reflexivity|done|done|lia|]. intros ->. split; [lia|by apply Hx].
Qed.

Lemma pong_step fuel : request_ok fuel -> pong_ok fuel -> pong_ok (S fuel).
Proof.
  intros IHreq IHpong code header json e w Hf Hj Hne Hfu. rewrite pong_S. unfold ping_pong_body.
  destruct (in_progress_code code); [|do 3 eexists; by split_and!].
  assert (parsed (snowflake_cJSON_GetObjectItem json "data")) as Hd.
  { destruct (snowflake_cJSON_GetObjectItem json "data") as [c|] eqn:Ec; [|done]. by eapply item_parsed. }
  destruct (copy_string_total None _ "getResultUrl" Hd) as (e1 & v & -> & Hv). rewrite bind_Done_l. cbv beta iota.
  case_bool_decide as He; [do 3 eexists; by split_and!|]. destruct Hv as (u & -> & Hu & Hlu); [by first [done|apply dec_stable]|].
  cbn [deref]. rewrite bind_Done_l.
  destruct (IHreq json u [] None (Some header) GET_REQUEST_TYPE false w) as (ok & j1 & w1 & -> & Hf1 & Hj1 & Hl1 & Hok); [done|done|constructor|done..|lia|].
  rewrite bind_Done_l. cbv beta iota. destruct ok; cbn [negb]; [|do 3 eexists; by split_and!]. destruct (Hok eq_refl) as [Hlt Hne1].
  destruct (read_code_total j1 Hj1) as (e2 & code2 & ->). rewrite bind_Done_l. cbv beta iota.
  destruct (code_missing e2); [do 3 eexists; by split_and!|].
  destruct (IHpong code2 header j1 e2 w1) as (stop & j3 & w3 & -> & Hf3 & Hj3 & Hl3 & Hs); [done|done|done|lia|].
  do 3 eexists. split_and!; [reflexivity|done|done|lia|done].
Qed.

Lemma request_step fuel : post_ok fuel -> get_ok fuel -> request_ok (S fuel).
Proof.
  intros IHpost IHget json url vars body header rt accept w Hu Lu Hv Lv Hf Hj Hfu. rewrite req_S. unfold request_body.
  destruct (curl_easy_init _); cbn [negb]; [|do 3 eexists; by split_and!].
  destruct (url_total url vars Hu Lu Hv Lv) as (block & u & -> & Ec & [A HA]). rewrite bind_Done_l, Ec. cbn [deref]. rewrite bind_Done_l.
  destruct rt; try (do 3 eexists; by split_and!); [eapply IHget|eapply IHpost]; try done; lia.
Qed.

Lemma renew_step fuel : post_ok fuel -> renew_ok (S fuel).
Proof.
  intros IHpost w Hf Hfu. rewrite renew_S. unfold renew_session_body.
  destruct (is_string_empty (directURL sf)); cbn [negb]; [|do 2 eexists; by split_and!].
  destruct (is_string_empty (master_token w)) eqn:Em; [do 2 eexists; by split_and!|].
  destruct (nonempty_string _ Em) as [m ->]. cbn [deref]. rewrite bind_Done_l. pose proof Hf as (_ & Ht & _).
  destruct (renew_body_total (token w) Ht) as [r ->]. rewrite bind_Done_l.
  destruct (uuid_ok (length (sent w))) as [Hun Hul].
  destruct (url_total RENEW_SESSION_URL [mk_var "request_id=" (Some (uuid4_generate (length (sent w))))]) as (block & u & -> & Ec & [A HA]); try done.
  { repeat constructor. }
  { unfold vars_text, var_text, format_var. cbn [v_key v_value map]. destruct (String.eqb _ _); cbn [fst snd String.concat].
    - rewrite (escape_unreserved EmptyString eq_refl). done.
    - rewrite (escape_unreserved _ Hun). unfold strlen. rewrite !str_length_app, Hul. done. }
  rewrite bind_Done_l, Ec. cbn [deref]. rewrite bind_Done_l.
  destruct (IHpost A u (create_header_token (snowflake_token_header m) false) r None w HA Hf I) as (ok & j1 & w1 & -> & Hf1 & Hj1 & Hl1 & Hok); [lia|].
  rewrite bind_Done_l. cbv beta iota. destruct ok; cbn [negb orb]; [|do 2 eexists; by split_and!]. destruct (Hok eq_refl) as [Hlt Hne].
  rewrite bool_decide_false by done. destruct (json_copy_bool false j1 "success") as [e success].
  case_bool_decide; [do 2 eexists; by split_and!|]. destruct success; cbn [negb]; [|do 2 eexists; by split_and!].
  destruct (snowflake_cJSON_GetObjectItem j1 "data") as [data|] eqn:Ed; [|do 2 eexists; by split_and!].
  destruct (snowflake_cJSON_HasObjectItem _ _); cbn [negb]; [|do 2 eexists; by split_and!].
  destruct (set_tokens_total (Some data) w1 Hf1 (item_parsed _ _ _ Hj1 Ed)) as (ok & w2 & -> & Hf2 & Ea & Hok2).
  do 2 eexists. split_and!; [reflexivity|done|by rewrite Ea|done].
Qed.

Lemma all_ok fuel : post_ok fuel /\ get_ok fuel /\ request_ok fuel /\ pong_ok fuel /\ renew_ok fuel.
Proof.
  induction fuel as [|fuel (IH1 & IH2 & IH3 & IH4 & IH5)].
  - split_and!; repeat intro; lia.
  - split_and!; [by apply post_step|by apply get_step|by apply request_step|by apply pong_step|by apply renew_step].
Qed.

Lemma request_ends fuel json url vars body header rt accept w :
  no_nul url = true -> strlen url <= 2 ^ 60 + 2 -> Forall plain_var vars -> strlen (vars_text curl_easy_escape vars) < 2 ^ 60 ->
  fine w -> parsed json -> (3 * length (answers w) + 2 <= fuel)%nat ->
  returns w (req fuel json url vars body header rt accept w).
Proof. destruct (all_ok fuel) as (_ & _ & H & _). apply H. Qed.

(** C8: Whatever attempts the network has in store, a request over a properly set-up
    connection comes to a result: it never reads or writes out of bounds, parses what
    it cannot, or calls itself more than three times per attempt and a few more.  The
    tokens stay C strings, and a request that succeeds has used up an attempt and
    returns a JSON value with the types every reader relies on. *)
Theorem request_total fuel json url vars body header rt accept w :
  no_nul url = true -> strlen url <= 2 ^ 60 + 2 -> Forall plain_var vars -> strlen (vars_text curl_easy_escape vars) < 2 ^ 60 ->
  fine w -> parsed json -> (3 * length (answers w) + 2 <= fuel)%nat ->
  returns w (request ph CA_BUNDLE_FILE curl_easy_escape curl_easy_init uuid4_generate sf fuel json url vars body header rt accept w).
Proof. apply request_ends. Qed.
End Total.

(** ** An expired session *)

Section Renewal.
  Context (ph : internal_hooks) (CA_BUNDLE_FILE : option string) (curl_easy_escape : string -> string)
    (curl_easy_init : nat -> bool) (uuid4_generate : nat -> string) (sf : config).

(** An attempt that brings the JSON value [j]. *)
Definition brings (url : string) (a : attempt) (j : cJSON) : Prop :=
  ready (request_guid_ptr url) url a /\
  exists pieces, a_answer a = Response 200 pieces /\ snowflake_cJSON_Parse (allocate ph) (body_text false pieces) = Done (Some j).
Definition accepted (j : cJSON) : Prop := exists e, read_code (Some j) = Done (e, EmptyString) /\ code_missing e = false.

Definition post_sent (url : string) (header : list string) (body : option string) (a : attempt) : request_sent :=
  request_of (request_guid_ptr url) POST_REQUEST_TYPE url (Some header) body a.

Lemma perform_brings url header body json w a rest j : answers w = a :: rest -> brings url a j ->
  perform ph CA_BUNDLE_FILE POST_REQUEST_TYPE url (Some header) body json false w =
    Done (true, guid_url (request_guid_ptr url) a url, Some j,
          mk_world rest (sent w ++ [post_sent url header body a]) (err w) (token w) (master_token w)).
Proof.
  intros Ha (Hr & pieces & Hp & Hj). unfold perform.
  rewrite (perform_concludes (allocate ph) CA_BUNDLE_FILE [] a rest) by (first [done|by constructor|unfold transient; by rewrite Hp]).
  unfold conclude. rewrite Hp. cbn [Z.eqb Pos.eqb]. rewrite Hj, bind_Done_l. done.
Qed.

Lemma post_accepted fuel url header body json w a rest j : answers w = a :: rest -> brings url a j -> accepted j ->
  curl_post_call ph CA_BUNDLE_FILE curl_easy_escape curl_easy_init uuid4_generate sf (S fuel) url header body json w =
    Done (true, Some j, mk_world rest (sent w ++ [post_sent url header body a]) (err w) (token w) (master_token w)).
Proof.
  intros Ha Hb (e & He & Hm). rewrite post_S. unfold curl_post_call_body. rewrite (perform_brings _ _ _ _ _ _ _ _ Ha Hb), bind_Done_l.
  cbv beta iota. cbn [negb orb]. rewrite bool_decide_false by done. rewrite He, bind_Done_l. cbv beta iota. by rewrite Hm.
Qed.

(** An answer that neither ends the session nor says that the query is still running:
    its code, if any, is the server's word on the statement. *)
Definition settled (j : cJSON) : Prop :=
  exists e code, read_code (Some j) = Done (e, code) /\ code_missing e = false /\ code <> SESSION_EXPIRE_CODE /\ in_progress_code code = false.

Lemma post_settled fuel url header body json w a rest j : answers w = a :: rest -> brings url a j -> settled j ->
  curl_post_call ph CA_BUNDLE_FILE curl_easy_escape curl_easy_init uuid4_generate sf (S (S fuel)) url header body json w =
    Done (true, Some j, mk_world rest (sent w ++ [post_sent url header body a]) (err w) (token w) (master_token w)).
Proof.
  intros Ha Hb (e & code & He & Hm & Hne & Hip). rewrite post_S. unfold curl_post_call_body. rewrite (perform_brings _ _ _ _ _ _ _ _ Ha Hb), bind_Done_l.
  cbv beta iota. cbn [negb orb]. rewrite bool_decide_false by done. rewrite He, bind_Done_l. cbv beta iota. rewrite Hm.
  destruct (is_string_empty (Some code)); [done|]. destruct (String.eqb_spec code SESSION_EXPIRE_CODE); [done|]. rewrite bind_Done_l. cbv beta iota. cbn [negb].
  rewrite pong_S. unfold ping_pong_body. rewrite Hip, bind_Done_l. done.
Qed.

(** C29: When the server answers that the session has expired, the session is renewed
    with the master token and the call repeated with the new one: exactly three
    requests go out, the caller gets the answer to the last, and the connection holds
    the new tokens. *)
Theorem expired_session_renewed fuel url header body json w a1 a2 a3 rest e1 j1 j2 j3 data t m t' m' s_body block renew_url :
  answers w = a1 :: a2 :: a3 :: rest -> token w = Some t -> master_token w = Some m -> is_string_empty (Some m) = false ->
  is_string_empty (directURL sf) = true ->
  brings url a1 j1 -> read_code (Some j1) = Done (e1, SESSION_EXPIRE_CODE) -> code_missing e1 = false ->
  (match create_renew_session_json_body ph (Some t) with Some b => snowflake_cJSON_Print ph b | None => Done None end) = Done s_body ->
  encode_url curl_easy_escape (protocol sf) (account sf) (host sf) (port sf) RENEW_SESSION_URL
    [mk_var "request_id=" (Some (uuid4_generate (S (length (sent w)))))] (directURL_param sf) = Done block ->
  c_string block = Some renew_url ->
  brings renew_url a2 j2 -> accepted j2 -> json_copy_bool false (Some j2) "success" = (SF_JSON_ERROR_NONE, true) ->
  snowflake_cJSON_GetObjectItem (Some j2) "data" = Some data ->
  (forall d, json_copy_string d (Some data) "sessionToken" = Done (SF_JSON_ERROR_NONE, Some t')) ->
  (forall d, json_copy_string d (Some data) "masterToken" = Done (SF_JSON_ERROR_NONE, Some m')) ->
  let url' := guid_url (request_guid_ptr url) a1 url in
  brings url' a3 j3 -> accepted j3 ->
  curl_post_call ph CA_BUNDLE_FILE curl_easy_escape curl_easy_init uuid4_generate sf (S (S (S fuel))) url header body json w =
    Done (true, Some j3,
      mk_world rest
        (sent w ++ [post_sent url header body a1;
                    post_sent renew_url (create_header_token (snowflake_token_header m) false) s_body a2;
                    post_sent url' (create_header_token (snowflake_token_header t') false) body a3])
        (err w) (Some t') (Some m')).
Proof.
  intros Ha Ht Hm Hme Hd Hb1 Hc1 Hm1 Hbody Hurl Hblock Hb2 Hok2 Hs Hdata Ht' Hm' url' Hb3 Hok3.
  rewrite post_S. unfold curl_post_call_body. rewrite (perform_brings _ _ _ _ _ _ _ _ Ha Hb1), bind_Done_l. cbv beta iota. cbn [negb orb].
  rewrite bool_decide_false by done. rewrite Hc1, bind_Done_l. cbv beta iota. rewrite Hm1. change (is_string_empty (Some SESSION_EXPIRE_CODE)) with false.
  change (String.eqb SESSION_EXPIRE_CODE SESSION_EXPIRE_CODE) with true. cbv iota.
  set (w1 := mk_world (a2 :: a3 :: rest) _ _ _ _).
  assert (renew_session ph CA_BUNDLE_FILE curl_easy_escape curl_easy_init uuid4_generate sf (S (S fuel)) w1 =
    Done (true, mk_world (a3 :: rest) (sent w1 ++ [post_sent renew_url (create_header_token (snowflake_token_header m) false) s_body a2])
                  (err w) (Some t') (Some m'))) as ->.
  { rewrite renew_S. unfold renew_session_body. rewrite Hd. cbn [negb w1 master_token token sent]. rewrite Hm, Hme, Ht. cbn [deref].
    rewrite bind_Done_l, Hbody, bind_Done_l. rewrite length_app, Nat.add_1_r, Hurl, bind_Done_l, Hblock. cbn [deref]. rewrite bind_Done_l.
    rewrite (post_accepted fuel renew_url _ s_body None _ a2 (a3 :: rest) j2) by done. rewrite bind_Done_l. cbv beta iota. cbn [negb orb].
    rewrite bool_decide_false by done. rewrite Hs. rewrite bool_decide_false by (by intros []). cbn [negb]. rewrite Hdata.
    assert (snowflake_cJSON_HasObjectItem (Some data) "sessionToken" = true) as ->.
    { specialize (Ht' None). unfold json_copy_string in Ht'. unfold snowflake_cJSON_HasObjectItem.
      destruct (snowflake_cJSON_GetObjectItem (Some data) "sessionToken"); [reflexivity|discriminate Ht']. }
    cbn [negb]. unfold set_tokens. rewrite Ht', bind_Done_l. cbv beta iota. rewrite bool_decide_false by (by intros []).
    rewrite Hm', bind_Done_l. cbv beta iota. rewrite bool_decide_false by (by intros []). done. }
  rewrite bind_Done_l. cbv beta iota. cbn [negb token deref]. rewrite bind_Done_l.
  rewrite (post_accepted (S fuel) url' _ body _ _ a3 rest j3) by done. rewrite bind_Done_l. cbv beta iota. cbn [negb].
  rewrite pong_S. unfold ping_pong_body. change (in_progress_code SESSION_EXPIRE_CODE) with false. cbv iota. rewrite bind_Done_l.
  cbv beta iota. cbn [negb sent w1 err token master_token]. by rewrite <- !app_assoc.
Qed.
End Renewal.

(** ** Witnesses *)

Lemma keep_unreserved s : str_all unreserved s = true -> keep s = s.
Proof.
  intros H. unfold keep. assert (no_nul s = true) as ->; [|done]. unfold no_nul. induction s as [|c s IH]; [done|]. cbn in *.
  apply andb_prop in H as [Hc Hs]. rewrite (IH Hs), andb_true_r. destruct (code c =? 0) eqn:E; [|done]. apply Z.eqb_eq in E.
  unfold unreserved, is_digit in Hc. by rewrite E in Hc.
Qed.

Definition sample_config : config := mk_config (Some "acct") None None "https" None None None.
Definition sample_uuid (n : nat) : string := no_guid.
Definition reply (s : string) : attempt := mk_attempt (Some no_guid) true (Response 200 [String.list_ascii_of_string s]).
Definition dq (s : string) : string := quote_string +:+ s +:+ quote_string.
Definition expired_reply : attempt := reply ("{" +:+ dq "code" +:+ ":" +:+ dq SESSION_EXPIRE_CODE +:+ "}").
Definition renewed_reply : attempt :=
  reply ("{" +:+ dq "code" +:+ ":null," +:+ dq "success" +:+ ":true," +:+ dq "data" +:+ ":{" +:+ dq "sessionToken" +:+ ":" +:+ dq "T2" +:+ ","
    +:+ dq "masterToken" +:+ ":" +:+ dq "M2" +:+ "}}").
Definition ok_reply : attempt := reply ("{" +:+ dq "code" +:+ ":null}").
Definition sample_world : world := mk_world [expired_reply; renewed_reply; ok_reply] [] None (Some "T1") (Some "M1").

Lemma request_total_witness :
  returns sample_world (request copy_hooks None keep (fun _ => true) (identifiers (1, 2)) sample_config 11 None "/queries/v1/query-request" [] (Some "{}") None
    POST_REQUEST_TYPE false sample_world).
Proof.
  apply (request_total copy_hooks None keep (fun _ => true) (identifiers (1, 2)) sample_config keep_unreserved keep_c_string (identifiers_ok (1, 2))).
  - cbn. split_and!; try done; vm_compute; reflexivity.
  - reflexivity.
  - vm_compute. congruence.
  - constructor.
  - vm_compute. reflexivity.
  - split_and!; [|reflexivity..]. repeat constructor; try (intros g [= <-]; reflexivity); vm_compute; reflexivity.
  - exact I.
  - cbn. lia.
Defined.

Definition sample_url : string := "https://acct.snowflakecomputing.com/q?request_guid=00000000-0000-0000-0000-000000000000".

Definition value_of (a : attempt) : cJSON :=
  match a_answer a with
  | Response _ pieces =>
      match snowflake_cJSON_Parse all_hooks (body_text false pieces) with Done (Some j) => j | _ => mk_cJSON 0 None 0 zero_double None [] end
  | _ => mk_cJSON 0 None 0 zero_double None []
  end.
Definition renewed_data : cJSON := default (value_of ok_reply) (snowflake_cJSON_GetObjectItem (Some (value_of renewed_reply)) "data").
Definition renew_body : option string :=
  match create_renew_session_json_body copy_hooks (Some "T1") with
  | Some b => match snowflake_cJSON_Print copy_hooks b with Done r => r | _ => None end
  | None => None
  end.
Definition renew_block : list ascii :=
  match encode_url keep "https" (Some "acct") None None RENEW_SESSION_URL [mk_var "request_id=" (Some no_guid)] None with Done b => b | _ => [] end.
Definition sample_renew_url : string := default EmptyString (c_string renew_block).

Lemma expired_session_renewed_witness :
  exists w, curl_post_call copy_hooks None keep (fun _ => true) sample_uuid sample_config 4 sample_url [] None None sample_world =
      Done (true, Some (value_of ok_reply), w) /\ token w = Some "T2" /\ length (sent w) = 3%nat.
Proof.
  eexists. split.
  - apply (expired_session_renewed copy_hooks None keep (fun _ => true) sample_uuid sample_config 1 sample_url [] None None sample_world
      expired_reply renewed_reply ok_reply [] SF_JSON_ERROR_NONE (value_of expired_reply) (value_of renewed_reply) (value_of ok_reply)
      renewed_data "T1" "M1" "T2" "M2" renew_body renew_block sample_renew_url).
    all: try (split; [repeat split; vm_compute; eauto 10; lia|eexists; split; [reflexivity|vm_compute; reflexivity]]).
    all: try (eexists; split; [vm_compute; reflexivity|reflexivity]).
    all: try (intros d; vm_compute; reflexivity).
    all: vm_compute; reflexivity.
  - split; reflexivity.
Defined.
