(* ===== verification/ChunkDownload.v ===== *)
(** * lib/chunk_downloader.c (202-218): the download of one chunk.

    A chunk is asked for with one HTTP GET and the headers of the downloader; its body is
    the rows with commas between them and no brackets, which http_perform adds. *)

From S2P Require Import Prelude CLib CFloat Status CJson CJsonPrint CJsonParse JsonHelpers Url Http Stmt Fetch.

Section Download.
  Context (hooks : Z -> bool) (CA_BUNDLE_FILE : option string).

(** [curl]: curl_easy_init answers a handle.  No headers are a NULL list. *)
Definition download_chunk (curl : bool) (url : string) (headers : list string) (w : world) : outcome (bool * option cJSON * world) :=
  '(ok, _, chunk, w) ← http_perform hooks CA_BUNDLE_FILE curl GET_REQUEST_TYPE url
    (match headers with [] => None | _ => Some headers end) None None true w;
  Done (ok, chunk, w).
End Download.

(** ** The body of a chunk *)

(** The rows as the server writes them: their texts with commas between. *)
Definition chunk_body (rows : list cJSON) : option string := render_elements false (render false 1) rows.

Definition chunk_array (rows : list cJSON) : cJSON := mk_cJSON cJSON_Array None 0 zero_double None rows.

Lemma text_of_string s : no_nul s = true -> text_of (String.list_ascii_of_string s) = s.
Proof.
  induction s as [|c s IH]; [done|]. unfold no_nul. cbn [str_all String.list_ascii_of_string text_of]. intros [Hc Hs]%andb_prop.
  apply negb_true_iff in Hc. rewrite Hc. by rewrite IH.
Qed.

(** A row that JSON can say. *)
Definition row_tree (r : cJSON) : Prop := json_tree 999 r = true /\ c_tree r = true.

(** What reading such a body, in any pieces, comes to. *)
Lemma chunk_body_parsed rows body pieces : 
  Forall row_tree rows -> chunk_body rows = Some body ->
  concat pieces = String.list_ascii_of_string body ->
  snowflake_cJSON_Parse all_hooks (body_text true pieces) = Done (Some (chunk_array (map (norm None) rows))).
Proof.
  intros Hr Hb Hp. unfold body_text. rewrite Hp.
  assert (no_nul body = true) as Hn.
  { apply (render_elements_no_nul _ _ _ (fun x s Hx E => render_no_nul _ x ltac:(rewrite Forall_forall in Hr; by apply Hr) _ s E) _ Hb). }
  assert (text_of ("["%char :: String.list_ascii_of_string body ++ ["]"%char]) = "[" +:+ body +:+ "]") as ->.
  { rewrite <- (text_of_string ("[" +:+ body +:+ "]")); [|rewrite !no_nul_app, Hn; done]. f_equal. cbn. by rewrite list_ascii_app. }
  assert (json_tree CJSON_NESTING_LIMIT (chunk_array rows) = true) as Ht.
  { unfold chunk_array. change CJSON_NESTING_LIMIT with (S 999). cbn [json_tree type valuestring key child]. cbn [andb].
    change (Z.land cJSON_Array 255) with cJSON_Array. cbn. apply forallb_forall. intros x Hx. rewrite Forall_forall in Hr. by apply Hr, list_elem_of_In. }
  erewrite (parse_rendered (chunk_array rows) false _ Ht); [done|]. cbn [render chunk_array type child]. unfold chunk_body in Hb.
  change (render false (0 + 1)) with (render false 1). rewrite Hb. reflexivity.
Qed.

(** ** The download *)

Section Network.
  Context (CA_BUNDLE_FILE : option string).

(** The network brings the rows [rows]: after any number of passing refusals, their text
    in some pieces. *)
Definition brings_rows (url : string) (w : world) (rows : list cJSON) : Prop :=
  exists errs a rest pieces body, answers w = errs ++ a :: rest /\
    Forall (fun a => ready (request_guid_ptr url) url a /\ transient a = true) errs /\ ready (request_guid_ptr url) url a /\
    a_answer a = Response 200 pieces /\ concat pieces = String.list_ascii_of_string body /\ chunk_body rows = Some body.

Lemma download_ok errs a rest url headers w rows pieces body :
  let k := request_guid_ptr url in
  answers w = errs ++ a :: rest ->
  Forall (fun a => ready k url a /\ transient a = true) errs -> ready k url a -> a_answer a = Response 200 pieces ->
  Forall row_tree rows -> chunk_body rows = Some body -> concat pieces = String.list_ascii_of_string body ->
  download_chunk all_hooks CA_BUNDLE_FILE true url headers w =
    Done (true, Some (chunk_array (map (norm None) rows)),
      mk_world rest (sent w ++ map (request_of k GET_REQUEST_TYPE url (match headers with [] => None | _ => Some headers end) None) (errs ++ [a]))
        (err w) (token w) (master_token w)).
Proof.
  intros k Ha He Hready Hp Hr Hb Hc. unfold download_chunk.
  rewrite (perform_concludes all_hooks CA_BUNDLE_FILE errs a rest) by first [done|unfold transient; by rewrite Hp].
  unfold conclude. rewrite Hp. change (200 =? 200) with true. by rewrite (chunk_body_parsed rows body pieces Hr Hb Hc), !bind_Done_l.
Qed.

Lemma download_brings url headers w rows :
  Forall row_tree rows -> brings_rows url w rows ->
  exists w', download_chunk all_hooks CA_BUNDLE_FILE true url headers w = Done (true, Some (chunk_array (map (norm None) rows)), w').
Proof. intros Hr (errs & a & rest & pieces & body & Ha & He & Hready & Hp & Hc & Hb). eexists. by apply (download_ok errs a rest url headers w rows pieces body). Qed.

(** The rows of a chunk survive the network: for every list of rows, when the server
    sends their JSON texts with commas between them, cut into any pieces and after any
    number of passing refusals, the download gives the array of exactly these rows; the
    requests are GETs of the chunk's URL with the downloader's headers, one per answer. *)
Theorem download_chunk_correct errs a rest url headers w rows pieces body :
  let k := request_guid_ptr url in
  answers w = errs ++ a :: rest ->
  Forall (fun a => ready k url a /\ transient a = true) errs -> ready k url a -> a_answer a = Response 200 pieces ->
  Forall row_tree rows -> chunk_body rows = Some body -> concat pieces = String.list_ascii_of_string body ->
  download_chunk all_hooks CA_BUNDLE_FILE true url headers w =
    Done (true, Some (chunk_array (map (norm None) rows)),
      mk_world rest (sent w ++ map (request_of k GET_REQUEST_TYPE url (match headers with [] => None | _ => Some headers end) None) (errs ++ [a]))
        (err w) (token w) (master_token w)).
Proof. apply download_ok. Qed.
End Network.

(** ** Two rows in two pieces, at the second attempt *)

Definition sample_row (s : string) : cJSON := chunk_array [mk_cJSON cJSON_String (Some s) 0 zero_double None []].
Definition sample_rows : list cJSON := [sample_row "1"; sample_row "a b"].
Definition sample_pieces : list (list ascii) :=
  let b := String.list_ascii_of_string (default EmptyString (chunk_body sample_rows)) in [take 4 b; drop 4 b].
Definition sample_net : world :=
  mk_world [mk_attempt None true (Response 503 []); mk_attempt None true (Response 200 sample_pieces)] [] None None None.

Lemma download_chunk_correct_witness :
  exists w', download_chunk all_hooks None true "https://c/0" ["k: v"] sample_net = Done (true, Some (chunk_array sample_rows), w') /\
    length (sent w') = 2%nat.
Proof.
  eexists. split; [apply (download_chunk_correct None [mk_attempt None true (Response 503 [])] (mk_attempt None true (Response 200 sample_pieces)) []
    "https://c/0" ["k: v"] sample_net sample_rows sample_pieces (default EmptyString (chunk_body sample_rows)))|].
  - reflexivity.
  - apply Forall_singleton. split; [split_and!; [reflexivity|exact I|vm_compute; reflexivity]|reflexivity].
  - split_and!; [reflexivity|exact I|vm_compute; reflexivity].
  - reflexivity.
  - apply Forall_cons. split; [split; vm_compute; reflexivity|]. apply Forall_singleton. split; vm_compute; reflexivity.
  - vm_compute. reflexivity.
  - vm_compute. reflexivity.
  - reflexivity.
Defined.
