(* ===== verification/ChunkDownloader.v ===== *)
(** * lib/chunk_downloader.c and the consumer half of snowflake_fetch
    (lib/client.c, 1342-1414): the threads that download result chunks.

    The worker threads and the application's thread share one structure.  [state]
    is that structure with the program counter of every thread; [worker_step] and
    [main_step] run one thread up to its next interaction with the others: between
    two of them it only touches its own locals or holds [queue_lock].  A blocked
    thread has no step.  The attribute lock protects single reads and writes of the
    two flags, so each is one access here.

    A condition wait releases the lock and waits for a signal; a signal wakes one
    waiter of the scheduler's choosing.  Wake-ups without a signal are events of
    their own.  pthread calls on initialised objects do not fail.  What a download
    brings is the event's choice: [None] is a failure. *)

From S2P Require Import Prelude.

Section ChunkDownloader.
  Context {Chunk : Type}.

Record SF_QUEUE_ITEM := mk_item {
  url : string;
  row_count : Z;
  chunk : option Chunk
}.
Definition set_chunk (c : option Chunk) (q : SF_QUEUE_ITEM) : SF_QUEUE_ITEM := mk_item (url q) (row_count q) c.

(** Where a worker is in chunk_downloader_thread. *)
Inductive worker_pc :=
| WTop                           (* 409: about to take queue_lock *)
| WTest                          (* 415: the condition of the wait loop *)
| WWait                          (* 418: in _cond_wait *)
| WWoken                         (* 418: signalled, about to take the lock back *)
| WCheck                         (* 422 *)
| WDown (index : Z)              (* 433: download_chunk *)
| WGot (index : Z) (c : Chunk)   (* 445: about to take the lock back *)
| WStore (index : Z) (c : Chunk) (* 447 *)
| WUnlock                        (* 467 *)
| WExit                          (* 470 *)
| WDone.

Inductive fetch_result := FChunk | FEof | FError.

(** Where the application's thread is: in chunk_downloader_init, between calls, in
    snowflake_fetch, or in chunk_downloader_term. *)
Inductive main_pc :=
| MInit                          (* init 290: the loop that creates the threads *)
| MInitInc                       (* init 302: thread_count++ *)
| MIdle
| MFetch                         (* fetch 1351: about to take queue_lock *)
| MHold                          (* fetch 1353 *)
| MLoop                          (* fetch 1364: the condition of the wait loop *)
| MWait                          (* fetch 1368: in _cond_wait *)
| MWoken
| MTake                          (* fetch 1373 *)
| MEnd (r : fetch_result)        (* fetch 1403: unlock *)
| MTermLock                      (* term 328 *)
| MTerm                          (* term 341 *)
| MJoin                          (* term 361 *)
| MFreed.

Inductive owner := ByMain | ByWorker (w : nat).

Record state := mk_state {
  queue : list SF_QUEUE_ITEM;
  producer_head : Z;
  consumer_head : Z;
  queue_size : Z;
  thread_count : Z;
  is_shutdown : bool;
  has_error : bool;
  queue_lock : option owner;
  workers : list worker_pc;
  main : main_pc;
  requested : nat;                                  (* init's argument thread_count *)
  delivered : list (Z * option Chunk);              (* the chunks fetch took over, in order *)
  results : list fetch_result                       (* what every fetch answered *)
}.

Definition set_pc (w : nat) (pc : worker_pc) (s : state) : state :=
  mk_state (queue s) (producer_head s) (consumer_head s) (queue_size s) (thread_count s) (is_shutdown s) (has_error s)
    (queue_lock s) (<[w := pc]> (workers s)) (main s) (requested s) (delivered s) (results s).
Definition set_workers (ws : list worker_pc) (s : state) : state :=
  mk_state (queue s) (producer_head s) (consumer_head s) (queue_size s) (thread_count s) (is_shutdown s) (has_error s)
    (queue_lock s) ws (main s) (requested s) (delivered s) (results s).
Definition set_main (pc : main_pc) (s : state) : state :=
  mk_state (queue s) (producer_head s) (consumer_head s) (queue_size s) (thread_count s) (is_shutdown s) (has_error s)
    (queue_lock s) (workers s) pc (requested s) (delivered s) (results s).
Definition set_lock (l : option owner) (s : state) : state :=
  mk_state (queue s) (producer_head s) (consumer_head s) (queue_size s) (thread_count s) (is_shutdown s) (has_error s)
    l (workers s) (main s) (requested s) (delivered s) (results s).
Definition set_flags (shutdown error : bool) (s : state) : state :=
  mk_state (queue s) (producer_head s) (consumer_head s) (queue_size s) (thread_count s) shutdown error
    (queue_lock s) (workers s) (main s) (requested s) (delivered s) (results s).
Definition set_heads (p c : Z) (s : state) : state :=
  mk_state (queue s) p c (queue_size s) (thread_count s) (is_shutdown s) (has_error s)
    (queue_lock s) (workers s) (main s) (requested s) (delivered s) (results s).
Definition set_thread_count (n : Z) (s : state) : state :=
  mk_state (queue s) (producer_head s) (consumer_head s) (queue_size s) n (is_shutdown s) (has_error s)
    (queue_lock s) (workers s) (main s) (requested s) (delivered s) (results s).
Definition set_queue (q : list SF_QUEUE_ITEM) (s : state) : state :=
  mk_state q (producer_head s) (consumer_head s) (queue_size s) (thread_count s) (is_shutdown s) (has_error s)
    (queue_lock s) (workers s) (main s) (requested s) (delivered s) (results s).
Definition set_delivered (d : list (Z * option Chunk)) (s : state) : state :=
  mk_state (queue s) (producer_head s) (consumer_head s) (queue_size s) (thread_count s) (is_shutdown s) (has_error s)
    (queue_lock s) (workers s) (main s) (requested s) d (results s).
Definition add_result (r : fetch_result) (s : state) : state :=
  mk_state (queue s) (producer_head s) (consumer_head s) (queue_size s) (thread_count s) (is_shutdown s) (has_error s)
    (queue_lock s) (workers s) (main s) (requested s) (delivered s) (results s ++ [r]).

(** ** Locks, flags and conditions *)

Definition get_shutdown_or_error (s : state) : bool := is_shutdown s || has_error s.
Definition get_shutdown (s : state) : bool := is_shutdown s.
Definition get_error (s : state) : bool := has_error s.

Definition acquire (o : owner) (s : state) : option state :=
  match queue_lock s with None => Some (set_lock (Some o) s) | Some _ => None end.
(** [_critical_section_unlock] does not look at who holds the lock. *)
Definition unlock (s : state) : state := set_lock None s.

Definition wake (pc : worker_pc) : worker_pc := match pc with WWait => WWoken | _ => pc end.
Fixpoint wake_first (ws : list worker_pc) : list worker_pc :=
  match ws with
  | [] => []
  | WWait :: ws => WWoken :: ws
  | pc :: ws => pc :: wake_first ws
  end.
(** [_cond_signal(&producer_cond)]: the waiter [pick], or the first there is. *)
Definition signalled (pick : nat) (ws : list worker_pc) : list worker_pc :=
  match ws !! pick with Some WWait => <[pick := WWoken]> ws | _ => wake_first ws end.
Definition signal_producers (pick : nat) (s : state) : state := set_workers (signalled pick (workers s)) s.
Definition broadcast_producers (s : state) : state := set_workers (map wake (workers s)) s.
(** [_cond_signal(&consumer_cond)]: only the application's thread waits there. *)
Definition signal_consumer (s : state) : state := match main s with MWait => set_main MWoken s | _ => s end.

Definition queue_chunk (s : state) (i : Z) : option Chunk := queue s !! Z.to_nat i ≫= chunk.
Definition store_chunk (i : Z) (c : option Chunk) (s : state) : state :=
  set_queue (alter (set_chunk c) (Z.to_nat i) (queue s)) s.

(** ** chunk_downloader_thread *)

Definition worker_step (w : nat) (answer : option Chunk) (s : state) : option state :=
  match workers s !! w with
  | None => None
  | Some pc =>
      match pc with
      | WTop | WWoken => set_pc w WTest <$> acquire (ByWorker w) s
      | WTest =>
          if (thread_count s <=? u64 (producer_head s - consumer_head s)) && (producer_head s <? queue_size s)
             && negb (get_shutdown_or_error s)
          then Some (set_pc w WWait (unlock s))
          else Some (set_pc w WCheck s)
      | WWait => None
      | WCheck =>
          if get_shutdown_or_error s || (queue_size s <=? producer_head s) then Some (set_pc w WExit s)
          else Some (set_pc w (WDown (producer_head s)) (unlock (set_heads (u64 (producer_head s + 1)) (consumer_head s) s)))
      | WDown index =>
          match answer with
          | None => Some (set_pc w WExit (set_flags (is_shutdown s) true s))
          | Some c => Some (set_pc w (WGot index c) s)
          end
      | WGot index c => set_pc w (WStore index c) <$> acquire (ByWorker w) s
      | WStore index c =>
          if get_error s then Some (set_pc w WExit s)
          else Some (set_pc w WUnlock (signal_consumer (store_chunk index (Some c) s)))
      | WUnlock => Some (set_pc w WTop (unlock s))
      | WExit => Some (set_pc w WDone (unlock s))
      | WDone => None
      end
  end.

(** ** The application's thread *)

Inductive call := Fetch | Term.

Definition all_done (ws : list worker_pc) : bool := forallb (fun pc => match pc with WDone => true | _ => false end) ws.

(** The loop of chunk_downloader_init; [created]: whether _thread_init succeeds. *)
Definition init_step (created : bool) (s : state) : option state :=
  match main s with
  | MInit =>
      if (length (workers s) <? requested s)%nat then
        if created then Some (set_main MInitInc (set_workers (workers s ++ [WTop]) s))
        else Some (set_main MTermLock s)
      else Some (set_main MIdle s)
  | MInitInc => Some (set_main MInit (set_thread_count (u64 (thread_count s + 1)) s))
  | _ => None
  end.

(** snowflake_fetch at the end of a chunk; [pick]: the waiter its signal wakes. *)
Definition fetch_step (pick : nat) (s : state) : option state :=
  match main s with
  | MIdle => if get_error s then Some (add_result FError s) else Some (set_main MFetch s)
  | MFetch => set_main MHold <$> acquire ByMain s
  | MHold =>
      if queue_size s <=? consumer_head s then Some (set_main (MEnd FEof) s) else Some (set_main MLoop s)
  | MLoop =>
      match queue_chunk s (consumer_head s) with
      | None => if get_shutdown_or_error s then Some (set_main MTake s) else Some (set_main MWait (unlock s))
      | Some _ => Some (set_main MTake s)
      end
  | MWait => None
  | MWoken => set_main MLoop <$> acquire ByMain s
  | MTake =>
      if get_error s then Some (set_main (MEnd FError) s)
      else if get_shutdown s then Some (set_main (MEnd FError) s)
      else
        let index := consumer_head s in
        let taken := (default 0 (row_count <$> queue s !! Z.to_nat index), queue_chunk s index) in
        Some (set_main (MEnd FChunk) (signal_producers pick
                (set_delivered (delivered s ++ [taken])
                  (store_chunk index None (set_heads (producer_head s) (u64 (index + 1)) s)))))
  | MEnd r => Some (set_main MIdle (unlock (add_result r s)))
  | _ => None
  end.

(** chunk_downloader_term. *)
Definition term_step (s : state) : option state :=
  match main s with
  | MTermLock => set_main MTerm <$> acquire ByMain s
  | MTerm =>
      if get_shutdown s then Some (set_main MIdle s)
      else Some (set_main MJoin (unlock (broadcast_producers (set_flags true (has_error s) s))))
  | MJoin => if all_done (workers s) then Some (set_main MFreed s) else None
  | _ => None
  end.

(** [cmd]: the next call when the thread is outside the three functions. *)
Definition main_step (created : bool) (cmd : call) (pick : nat) (s : state) : option state :=
  match main s with
  | MInit | MInitInc => init_step created s
  | MIdle => match cmd with Fetch => fetch_step pick s | Term => Some (set_main MTermLock s) end
  | MFetch | MHold | MLoop | MWait | MWoken | MTake | MEnd _ => fetch_step pick s
  | MTermLock | MTerm | MJoin | MFreed => term_step s
  end.

(** What chunk_downloader_init leaves before it creates the threads. *)
Definition initial (items : list (string * Z)) (n : nat) : state :=
  mk_state (map (fun '(u, r) => mk_item u r None) items) 0 0 (Z.of_nat (length items)) 0 false false None [] MInit n [] [].

(** ** Executions *)

Inductive event :=
| EWorker (w : nat) (answer : option Chunk)
| EMain (created : bool) (cmd : call) (pick : nat)
| ESpurious (w : nat)       (* a worker's wait ends without a signal *)
| ESpuriousMain.

Definition event_step (e : event) (s : state) : option state :=
  match e with
  | EWorker w answer => worker_step w answer s
  | EMain created cmd pick => main_step created cmd pick s
  | ESpurious w => match workers s !! w with Some WWait => Some (set_pc w WWoken s) | _ => None end
  | ESpuriousMain => match main s with MWait => Some (set_main MWoken s) | _ => None end
  end.

Fixpoint run (es : list event) (s : state) : option state :=
  match es with
  | [] => Some s
  | e :: es => s' ← event_step e s; run es s'
  end.

(** Downloads answer what the server has for the URL of the chunk. *)
Context (serves : string -> Chunk -> Prop).

Definition honest (e : event) (s : state) : Prop :=
  match e with
  | EWorker w (Some c) =>
      match workers s !! w with
      | Some (WDown i) => forall q, queue s !! Z.to_nat i = Some q -> serves (url q) c
      | _ => True
      end
  | _ => True
  end.

Inductive reachable (items : list (string * Z)) (n : nat) : state -> Prop :=
| reach_init : reachable items n (initial items n)
| reach_step s e s' : reachable items n s -> honest e s -> event_step e s = Some s' -> reachable items n s'.

(** ** Views of a program counter *)

Definition holding (pc : worker_pc) : bool :=
  match pc with WTest | WCheck | WStore _ _ | WUnlock | WExit => true | _ => false end.
Definition main_holding (pc : main_pc) : bool :=
  match pc with MHold | MLoop | MTake | MEnd _ | MTerm => true | _ => false end.
Definition index_of (pc : worker_pc) : option Z :=
  match pc with WDown i | WGot i _ | WStore i _ => Some i | _ => None end.
Definition got (pc : worker_pc) : option Chunk :=
  match pc with WGot _ c | WStore _ c => Some c | _ => None end.
Definition active (pc : worker_pc) : bool := match pc with WWait | WDone => false | _ => true end.
Definition fetching (pc : main_pc) : bool := match pc with MLoop | MWait | MWoken | MTake => true | _ => false end.
Definition terminating (pc : main_pc) : bool := match pc with MJoin | MFreed => true | _ => false end.
Definition started (pc : main_pc) : bool :=
  match pc with MIdle | MFetch | MHold | MEnd _ => true | _ => fetching pc end.

(** A signal or a broadcast only turns waiting workers into woken ones. *)
Definition woken (pc pc' : worker_pc) : Prop := pc' = pc \/ (pc = WWait /\ pc' = WWoken).

Lemma woken_refl ws : Forall2 woken ws ws.
Proof. induction ws; constructor; [by left|done]. Qed.

Lemma wake_first_woken ws : Forall2 woken ws (wake_first ws).
Proof. induction ws as [|[] ws IH]; cbn; constructor; try (by left); try apply IH; [by right|apply woken_refl]. Qed.

Lemma wake_map_woken ws : Forall2 woken ws (map wake ws).
Proof. induction ws as [|[] ws IH]; cbn; constructor; try (by left); try apply IH. by right. Qed.

Lemma signalled_woken pick ws : Forall2 woken ws (signalled pick ws).
Proof.
  unfold signalled. destruct (ws !! pick) as [[]|] eqn:E; try apply wake_first_woken.
  revert pick E. induction ws as [|pc ws IH]; intros [|pick] E; cbn in *; [done|done| |].
  - injection E as ->. constructor; [by right|apply woken_refl].
  - constructor; [by left|by apply IH].
Qed.

(** If a waiter is left after a signal, the signal woke another. *)
Lemma wake_first_one ws w : wake_first ws !! w = Some WWait -> exists w', wake_first ws !! w' = Some WWoken.
Proof.
  revert w. induction ws as [|pc ws IH]; intros w E; [done|].
  destruct pc; try (by exists O); destruct w as [|w]; try done; cbn in *; destruct (IH w E) as [w' H]; by exists (S w').
Qed.

Lemma signalled_one pick ws w : signalled pick ws !! w = Some WWait -> exists w', signalled pick ws !! w' = Some WWoken.
Proof.
  unfold signalled. destruct (ws !! pick) as [[]|] eqn:E; try apply wake_first_one.
  intros _. exists pick. apply list_lookup_insert_eq. by eapply lookup_lt_Some.
Qed.

Lemma woken_lookup ws ws' w pc' : Forall2 woken ws ws' -> ws' !! w = Some pc' -> exists pc, ws !! w = Some pc /\ woken pc pc'.
Proof. intros H E. by eapply Forall2_lookup_r in E. Qed.

Lemma woken_lookup_l ws ws' w pc : Forall2 woken ws ws' -> ws !! w = Some pc -> exists pc', ws' !! w = Some pc' /\ woken pc pc'.
Proof. intros H E. by eapply Forall2_lookup_l in E. Qed.

(** ** Locking *)

Record locked (s : state) : Prop := {
  l_w : forall w pc, workers s !! w = Some pc -> (holding pc = true <-> queue_lock s = Some (ByWorker w));
  l_m : main_holding (main s) = true <-> queue_lock s = Some ByMain;
  l_dom : forall w, queue_lock s = Some (ByWorker w) -> is_Some (workers s !! w)
}.

Lemma woken_holding pc pc' : woken pc pc' -> holding pc' = holding pc.
Proof. intros [->|[-> ->]]; done. Qed.

Lemma locked_woken s ws m : locked s -> Forall2 woken (workers s) ws -> main_holding m = main_holding (main s) ->
  locked (set_main m (set_workers ws s)).
Proof.
  intros [Hw Hm Hd] Hws Hmh. split; cbn.
  - intros w pc' H. destruct (woken_lookup _ _ _ _ Hws H) as (pc & Hpc & Hwk). rewrite (woken_holding _ _ Hwk). by apply Hw.
  - by rewrite Hmh.
  - intros w H. destruct (Hd w H) as [pc Hpc]. destruct (woken_lookup_l _ _ _ _ Hws Hpc) as (? & ? & _). by eexists.
Qed.

(** One worker moves on and the lock changes hands accordingly. *)
Lemma locked_move s s' w pc pc' :
  locked s -> workers s !! w = Some pc -> workers s' = <[w := pc']> (workers s) ->
  main_holding (main s') = main_holding (main s) ->
  queue_lock s' = (if holding pc' then Some (ByWorker w) else if holding pc then None else queue_lock s) ->
  (holding pc' = true -> holding pc = true \/ queue_lock s = None) ->
  locked s'.
Proof.
  intros [Hw Hm Hd] Hpc Hws Hmm Hl Hacq. pose proof (Hw w pc Hpc) as Hwp. pose proof (lookup_lt_Some _ _ _ Hpc) as Hlt.
  split.
  - intros w' q Hq. rewrite Hws in Hq. rewrite Hl. apply list_lookup_insert_Some in Hq as [(<- & <- & _)|[Hne Hq]].
    + destruct (holding pc'); [done|]. destruct (holding pc); [done|]. rewrite <- Hwp. done.
    + rewrite (Hw w' q Hq). destruct (holding pc') eqn:E1.
      * destruct (Hacq eq_refl) as [E2|E2]; [rewrite (proj1 Hwp E2)|rewrite E2]; split; congruence.
      * destruct (holding pc); [|done]. rewrite (proj1 Hwp eq_refl). split; congruence.
  - rewrite Hmm, Hm, Hl. destruct (holding pc') eqn:E1.
    + destruct (Hacq eq_refl) as [E2|E2]; [rewrite (proj1 Hwp E2)|rewrite E2]; split; congruence.
    + destruct (holding pc); [|done]. rewrite (proj1 Hwp eq_refl). split; congruence.
  - intros w' Hq. rewrite Hws. rewrite Hl in Hq. destruct (decide (w' = w)) as [->|Hne].
    { exists pc'. by apply list_lookup_insert_eq. }
    rewrite list_lookup_insert_ne by done. apply Hd. destruct (holding pc'); [congruence|]. by destruct (holding pc).
Qed.

(** The application's thread moves on. *)
Lemma locked_main s s' ws :
  locked s -> Forall2 woken (workers s) ws -> workers s' = ws ->
  queue_lock s' = (if main_holding (main s') then Some ByMain else if main_holding (main s) then None else queue_lock s) ->
  (main_holding (main s') = true -> main_holding (main s) = true \/ queue_lock s = None) ->
  locked s'.
Proof.
  intros [Hw Hm Hd] Hwk Hws Hl Hacq. subst ws. split.
  - intros w pc' Hq. destruct (woken_lookup _ _ _ _ Hwk Hq) as (pc & Hpc & Hk). rewrite (woken_holding _ _ Hk).
    rewrite (Hw w pc Hpc), Hl. destruct (main_holding (main s')) eqn:E1.
    + destruct (Hacq eq_refl) as [E2|E2]; [rewrite (proj1 Hm E2)|rewrite E2]; split; congruence.
    + destruct (main_holding (main s)); [|done]. rewrite (proj1 Hm eq_refl). split; congruence.
  - rewrite Hl. destruct (main_holding (main s')) eqn:E1; [done|]. destruct (main_holding (main s)); [done|].
    split; [done|]. intros Hq. apply Hm in Hq. done.
  - intros w Hq. assert (is_Some (workers s !! w)) as [pc Hpc].
    { apply Hd. rewrite Hl in Hq. destruct (main_holding (main s')); [done|]. by destruct (main_holding (main s)). }
    destruct (woken_lookup_l _ _ _ _ Hwk Hpc) as (? & ? & _). by eexists.
Qed.

Ltac worker_cases H Hw :=
  unfold worker_step in H; destruct (workers _ !! _) as [pc|] eqn:Hw; [|discriminate H];
  destruct pc; unfold acquire in H; repeat case_match; try discriminate H; cbn in H; injection H as <-.
Ltac main_cases H :=
  unfold main_step, init_step, fetch_step, term_step in H; destruct (main _) eqn:Hmain; unfold acquire in H; repeat case_match; try discriminate H; cbn in H; injection H as <-.

Lemma signal_consumer_main s : main_holding (main (signal_consumer s)) = main_holding (main s).
Proof. unfold signal_consumer. by destruct (main s) eqn:E; cbn; rewrite ?E. Qed.
Lemma signal_consumer_workers s : workers (signal_consumer s) = workers s.
Proof. unfold signal_consumer. by destruct (main s). Qed.
Lemma signal_consumer_lock s : queue_lock (signal_consumer s) = queue_lock s.
Proof. unfold signal_consumer. by destruct (main s). Qed.
Lemma signal_consumer_error s : has_error (signal_consumer s) = has_error s.
Proof. unfold signal_consumer. by destruct (main s). Qed.

Lemma worker_locked w a s s' : worker_step w a s = Some s' -> has_error s' = false -> locked s -> locked s'.
Proof.
  intros H He Hl.
  worker_cases H Hw; try discriminate He; pose proof (proj1 (l_w s Hl _ _ Hw)) as Hh; cbn in Hh;
    (eapply locked_move; [exact Hl|exact Hw|cbn; rewrite ?signal_consumer_workers; reflexivity
      |cbn; rewrite ?signal_consumer_main; done|cbn; rewrite ?signal_consumer_lock; cbn; rewrite ?Hh by done; done|cbn; auto]).
Qed.

Lemma main_locked created cmd pick s s' :
  main_step created cmd pick s = Some s' -> locked s -> (main s = MTerm -> is_shutdown s = false) -> locked s'.
Proof.
  intros H Hl Hsh.
  main_cases H; unfold get_shutdown in *; try (specialize (Hsh eq_refl); congruence); pose proof (proj1 (l_m s Hl)) as Hlm; rewrite Hmain in Hlm; cbn in Hlm.
  all: try (eapply locked_main; [exact Hl|apply woken_refl|reflexivity|cbn; rewrite ?Hmain; cbn; rewrite ?Hlm by done; done|cbn; rewrite ?Hmain; auto]).
  - destruct Hl as [Hw Hm Hd]. split; cbn.
    + intros w pc [Hpc|[Hlen Hpc]]%lookup_app_Some; [by apply Hw|]. destruct (w - length (workers s))%nat eqn:E; [|done].
      injection Hpc as <-. split; [done|]. intros Hq. apply Hd in Hq as [? Hq]. apply lookup_lt_Some in Hq. lia.
    + rewrite <- Hm, ?Hmain. done.
    + intros w Hq. destruct (Hd w Hq) as [pc Hpc]. exists pc. by apply lookup_app_l_Some.
  - eapply locked_main; [exact Hl|apply signalled_woken|reflexivity| |]; cbn; rewrite ?Hmain; auto.
  - eapply locked_main; [exact Hl|apply wake_map_woken|reflexivity| |]; cbn; rewrite ?Hmain; auto.
Qed.

(** ** Heads, flags and the number of threads *)

Context (items : list (string * Z)) (n : nat) (items_int : Z.of_nat (length items) <= INT_MAX) (n_int : Z.of_nat n <= INT_MAX).

Definition creating (pc : main_pc) : Z := match pc with MInitInc => 1 | _ => 0 end.

Record counted (s : state) : Prop := {
  c_items : map (fun q => (url q, row_count q)) (queue s) = items;
  c_size : queue_size s = Z.of_nat (length items);
  c_heads : 0 <= consumer_head s <= producer_head s /\ producer_head s <= queue_size s;
  c_threads : thread_count s = Z.of_nat (length (workers s)) - creating (main s);
  c_created : (creating (main s) <= Z.of_nat (length (workers s)) <= Z.of_nat n) /\ requested s = n;
  c_out : producer_head s - consumer_head s <= thread_count s;
  c_check : forall w, workers s !! w = Some WCheck ->
    producer_head s - consumer_head s < thread_count s \/ queue_size s <= producer_head s \/ is_shutdown s = true;
  c_done : forall w pc, workers s !! w = Some pc -> pc = WExit \/ pc = WDone ->
    queue_size s <= producer_head s \/ is_shutdown s = true;
  c_shut : is_shutdown s = terminating (main s);
  c_nowait : is_shutdown s = true -> forall w, workers s !! w <> Some WWait;
  c_fetch : fetching (main s) = true -> consumer_head s < queue_size s;
  c_started : started (main s) = true -> length (workers s) = n
}.

Lemma counted_u64 s : counted s ->
  u64 (producer_head s - consumer_head s) = producer_head s - consumer_head s /\ u64 (producer_head s + 1) = producer_head s + 1 /\
  u64 (consumer_head s + 1) = consumer_head s + 1 /\ u64 (thread_count s + 1) = thread_count s + 1.
Proof.
  intros [_ Hs [[H0 H1] H2] Ht [[H3 H4] _] _ _ _ _ _ _ _]. unfold INT_MAX in *.
  assert (0 <= creating (main s) <= 1) by (by destruct (main s)). rewrite !wrapU_small; lia.
Qed.

Lemma alter_items i c q : map (fun q => (url q, row_count q)) (alter (set_chunk c) i q) = map (fun q => (url q, row_count q)) q.
Proof. revert i. induction q as [|a q IH]; intros [|i]; cbn; [done|done|done|]. by rewrite IH. Qed.

Lemma counted_set_lock l s : counted s -> counted (set_lock l s).
Proof. intros []. by split. Qed.
Lemma counted_set_error e s : counted s -> counted (set_flags (is_shutdown s) e s).
Proof. intros []. by split. Qed.
Lemma counted_store i c s : counted s -> counted (store_chunk i c s).
Proof. intros []. split; cbn; rewrite ?alter_items; done. Qed.
Lemma counted_set_delivered d s : counted s -> counted (set_delivered d s).
Proof. intros []. by split. Qed.
Lemma counted_add_result r s : counted s -> counted (add_result r s).
Proof. intros []. by split. Qed.
Lemma counted_woken ws s : counted s -> Forall2 woken (workers s) ws -> counted (set_workers ws s).
Proof.
  intros [] Hws. pose proof (Forall2_length _ _ _ Hws) as Hl. split; cbn; rewrite <- ?Hl; try done.
  - intros w Hq. destruct (woken_lookup _ _ _ _ Hws Hq) as (pc & Hpc & [E|[_ E]]); [subst|done]. by eapply c_check0.
  - intros w pc' Hq Hpc'. destruct (woken_lookup _ _ _ _ Hws Hq) as (pc & Hpc & [->|[_ ->]]); [by eapply c_done0|].
    by destruct Hpc'.
  - intros Hsh w Hq. destruct (woken_lookup _ _ _ _ Hws Hq) as (pc & Hpc & [E|[_ E]]); [subst|done]. by eapply c_nowait0.
Qed.

Lemma counted_set_pc w pc s :
  counted s ->
  (pc = WCheck -> producer_head s - consumer_head s < thread_count s \/ queue_size s <= producer_head s \/ is_shutdown s = true) ->
  (pc = WExit \/ pc = WDone -> queue_size s <= producer_head s \/ is_shutdown s = true) ->
  (pc = WWait -> is_shutdown s = false) ->
  counted (set_pc w pc s).
Proof.
  intros [] Hck Hdn Hwt. split; cbn; rewrite ?length_insert; try done.
  - intros w' Hq. apply list_lookup_insert_Some in Hq as [(_ & E & _)|[_ Hq]]; [by apply Hck|by eapply c_check0].
  - intros w' pc' Hq Hpc'. apply list_lookup_insert_Some in Hq as [(_ & -> & _)|[_ Hq]]; [by apply Hdn|by eapply c_done0].
  - intros Hsh w' Hq. apply list_lookup_insert_Some in Hq as [(_ & E & _)|[_ Hq]]; [|by eapply c_nowait0].
    rewrite Hwt in Hsh; done.
Qed.

(** Some worker takes the next index. *)
Lemma counted_set_heads p s :
  counted s -> producer_head s <= p <= queue_size s -> p - consumer_head s <= thread_count s ->
  (forall w, workers s !! w <> Some WCheck) -> counted (set_heads p (consumer_head s) s).
Proof.
  intros [] Hp Ht Hw. split; cbn; try done; [lia| |].
  - intros w Hq. by apply Hw in Hq.
  - intros w pc Hq Hpc. destruct (c_done0 w pc Hq Hpc); [left; lia|by right].
Qed.

(** The application's thread moves without creating or ending anything. *)
Lemma counted_set_main m s :
  counted s -> creating m = creating (main s) -> terminating m = terminating (main s) ->
  (fetching m = true -> consumer_head s < queue_size s) -> (started m = true -> length (workers s) = n) ->
  counted (set_main m s).
Proof. intros [] Hc Ht Hf Hst. split; cbn; rewrite ?Hc, ?Ht; done. Qed.

Lemma counted_signal s : counted s -> counted (signal_consumer s).
Proof.
  intros Hc. unfold signal_consumer. destruct (main s) eqn:E; try done. apply counted_set_main; rewrite ?E; try done.
  - intros _. apply (c_fetch s Hc). by rewrite E.
  - intros _. apply (c_started s Hc). by rewrite E.
Qed.

Lemma one_holder s w1 w2 pc1 pc2 : locked s -> workers s !! w1 = Some pc1 -> workers s !! w2 = Some pc2 ->
  holding pc1 = true -> holding pc2 = true -> w1 = w2.
Proof. intros Hl H1 H2 E1 E2. apply (l_w s Hl _ _ H1) in E1. apply (l_w s Hl _ _ H2) in E2. congruence. Qed.

Lemma worker_counted w a s s' : worker_step w a s = Some s' -> has_error s' = false -> locked s -> counted s -> counted s'.
Proof.
  intros H He Hl Hc. pose proof (counted_u64 s Hc) as (U1 & U2 & _). unfold get_shutdown_or_error, get_error in *.
  worker_cases H Hw; try discriminate He; rewrite ?U1, ?U2 in *.
  all: try (apply counted_set_pc; [by repeat apply counted_set_lock|done|try naive_solver|done]; fail).
  - apply counted_set_pc; [by apply counted_set_lock|done..|naive_solver|]. intros _. cbn. unfold get_shutdown_or_error in *.
    destruct (is_shutdown s); [|done]. by rewrite andb_false_r in H0.
  - apply counted_set_pc; [done| |naive_solver|done]. intros _. unfold get_shutdown_or_error in *. cbn in He. rewrite He, orb_false_r in H0.
    apply andb_false_iff in H0 as [H0|H0]; [|right; right; by apply negb_false_iff].
    apply andb_false_iff in H0 as [H0|H0]; [apply Z.leb_gt in H0; by left|apply Z.ltb_ge in H0; auto].
  - apply counted_set_pc; [done..| |done]. intros _. unfold get_shutdown_or_error in *. cbn in He. rewrite He, orb_false_r in H0.
    apply orb_true_iff in H0 as [H0|H0]; [auto|apply Z.leb_le in H0; auto].
  - unfold get_shutdown_or_error in *. apply orb_false_iff in H0 as [H0 Hle].
    apply orb_false_iff in H0 as [Hsh _]. apply Z.leb_gt in Hle.
    pose proof (c_check s Hc w Hw) as Hck. assert (counted (set_pc w (WDown (producer_head s)) s)) as Hc'.
    { apply counted_set_pc; [done|done|naive_solver|done]. }
    apply (counted_set_heads (producer_head s + 1) (set_lock None (set_pc w (WDown (producer_head s)) s))); [by apply counted_set_lock|cbn; lia|cbn; destruct Hck as [?|[?|?]]; [lia|lia|congruence]|cbn].
    intros w' Hq. apply list_lookup_insert_Some in Hq as [(_ & E & _)|[Hne Hq]]; [done|].
    apply Hne. by eapply one_holder.
  - unfold get_error in *. cbn in He. congruence.
  - apply counted_set_pc; [by apply counted_signal, counted_store|done|naive_solver|done].
  - apply counted_set_pc; [by apply counted_set_lock|done| |done]. intros _. cbn. apply (c_done s Hc w WExit); auto.
Qed.

Lemma main_counted created cmd pick s s' :
  main_step created cmd pick s = Some s' -> has_error s = false -> (main s = MTake -> consumer_head s < producer_head s) ->
  counted s -> counted s'.
Proof.
  intros H He Htake Hc. pose proof (counted_u64 s Hc) as (_ & _ & U3 & U4).
  pose proof (c_shut s Hc) as Hsh. pose proof (c_created s Hc) as Hcr.
  main_cases H; rewrite ?U3, ?U4 in *; cbn in Hsh, Hcr.
  all: try (apply counted_set_main; [try done; by first [apply counted_set_lock, counted_add_result|apply counted_set_lock]
    |cbn; rewrite Hmain; done|cbn; rewrite Hmain; done|cbn; try done; intros _; apply (c_fetch s Hc); by rewrite Hmain
    |cbn; try done; intros _; apply (c_started s Hc); by rewrite Hmain]; fail).
  - apply Nat.ltb_lt in H0. destruct Hc. split; cbn; rewrite ?length_app; cbn; try done; try lia.
    + rewrite c_threads0, Hmain. cbn. lia.
    + intros w [Hq|[_ Hq]]%lookup_app_Some; [by eapply c_check0|]. by apply list_lookup_singleton_Some in Hq as [_ ?].
    + intros w pc [Hq|[_ Hq]]%lookup_app_Some Hpc; [by eapply c_done0|].
      apply list_lookup_singleton_Some in Hq as [_ <-]. by destruct Hpc.
    + by rewrite Hsh.
  - apply Nat.ltb_ge in H0. apply counted_set_main; [done|by rewrite Hmain..|done|]. intros _. lia.
  - destruct Hc. rewrite Hmain in *. split; cbn in *; try done; lia.
  - unfold get_error in *. congruence.
  - apply Z.leb_gt in H0. apply counted_set_main; [done|by rewrite Hmain..|done|].
    intros _. apply (c_started s Hc). by rewrite Hmain.
  - specialize (Htake eq_refl).
    apply (counted_woken _ (set_delivered _ (store_chunk _ None (set_heads (producer_head s) (consumer_head s + 1) (set_main (MEnd FChunk) s)))));
      [|apply signalled_woken].
    apply counted_set_delivered, counted_store. destruct Hc. rewrite Hmain in *. split; cbn in *; try done; lia.
  - unfold get_shutdown in *. congruence.
  - apply (counted_set_lock None (set_main MJoin (broadcast_producers (set_flags true (has_error s) s)))).
    assert (counted (broadcast_producers s)) as Hb by (apply counted_woken; [done|apply wake_map_woken]).
    destruct Hb. split; cbn in *; try done; rewrite ?Hmain in *; try done.
    + intros w Hq. right. by right.
    + intros w pc Hq Hpc. by right.
    + intros _ w Hq. apply list_lookup_fmap_Some in Hq as (pc & Hq & _). by destruct pc.
Qed.

(** ** The chunks *)

(** Every index between the two heads is in the hands of exactly one worker or its
    chunk is in the queue; what was delivered is what the server has, in order. *)
Record chunked (s : state) : Prop := {
  k_index : forall w pc i, workers s !! w = Some pc -> index_of pc = Some i ->
    consumer_head s <= i < producer_head s /\ queue_chunk s i = None;
  k_unique : forall w1 w2 pc1 pc2 i, workers s !! w1 = Some pc1 -> workers s !! w2 = Some pc2 ->
    index_of pc1 = Some i -> index_of pc2 = Some i -> w1 = w2;
  k_cover : forall i, consumer_head s <= i < producer_head s -> queue_chunk s i = None ->
    exists w pc, workers s !! w = Some pc /\ index_of pc = Some i;
  k_chunk : forall i q c, queue s !! i = Some q -> chunk q = Some c ->
    consumer_head s <= Z.of_nat i < producer_head s /\ serves (url q) c;
  k_got : forall w pc i c q, workers s !! w = Some pc -> index_of pc = Some i -> got pc = Some c ->
    queue s !! Z.to_nat i = Some q -> serves (url q) c;
  k_delivered : Forall2 (fun it d => fst d = snd it /\ exists c, snd d = Some c /\ serves (fst it) c)
    (take (Z.to_nat (consumer_head s)) items) (delivered s)
}.

(** The workers' indices and chunks are all that matters of them. *)
Definition same_work (ws ws' : list worker_pc) : Prop :=
  (forall w pc', ws' !! w = Some pc' -> index_of pc' = None \/
     exists pc, ws !! w = Some pc /\ index_of pc' = index_of pc /\ got pc' = got pc) /\
  (forall w pc i, ws !! w = Some pc -> index_of pc = Some i -> exists pc', ws' !! w = Some pc' /\ index_of pc' = Some i).

Lemma chunked_frame s s' :
  chunked s -> queue s' = queue s -> producer_head s' = producer_head s -> consumer_head s' = consumer_head s ->
  delivered s' = delivered s -> same_work (workers s) (workers s') -> chunked s'.
Proof.
  intros [K1 K2 K3 K4 K5 K6] Eq Ep Ec Ed [Hw Hw']. unfold queue_chunk in *.
  split; unfold queue_chunk; rewrite ?Eq, ?Ep, ?Ec, ?Ed; [| | |done| |done].
  - intros w pc i Hpc Hi. destruct (Hw w pc Hpc) as [E|(pc0 & H0 & E & _)]; [congruence|]. by apply (K1 w pc0); [|congruence].
  - intros w1 w2 pc1 pc2 i H1 H2 E1 E2. destruct (Hw w1 pc1 H1) as [?|(q1 & ? & ? & _)]; [congruence|].
    destruct (Hw w2 pc2 H2) as [?|(q2 & ? & ? & _)]; [congruence|]. by apply (K2 w1 w2 q1 q2 i); congruence.
  - intros i Hi Hn. destruct (K3 i Hi Hn) as (w & pc & Hpc & E). destruct (Hw' w pc i Hpc E) as (pc' & ? & ?). by exists w, pc'.
  - intros w pc i c q Hpc Hi Hg Hq. destruct (Hw w pc Hpc) as [?|(pc0 & ? & ? & ?)]; [congruence|].
    by apply (K5 w pc0 i c q); congruence.
Qed.

Lemma same_work_refl ws : same_work ws ws.
Proof. split; eauto 10. Qed.

Lemma same_work_pc ws w pc pc' :
  ws !! w = Some pc -> index_of pc' = index_of pc -> got pc' = got pc -> same_work ws (<[w := pc']> ws).
Proof.
  intros Hpc Hi Hg. split.
  - intros w' q Hq. apply list_lookup_insert_Some in Hq as [(<- & <- & _)|[_ Hq]]; right; eauto.
  - intros w' q i Hq Hqi. destruct (decide (w' = w)) as [->|Hne].
    + exists pc'. split; [apply list_lookup_insert_eq; by eapply lookup_lt_Some|]. congruence.
    + exists q. by rewrite list_lookup_insert_ne.
Qed.

Lemma same_work_woken ws ws' : Forall2 woken ws ws' -> same_work ws ws'.
Proof.
  intros H. split.
  - intros w pc' Hpc. destruct (woken_lookup _ _ _ _ H Hpc) as (pc & Hq & [->|[_ ->]]); [right; eauto|by left].
  - intros w pc i Hpc Hi. destruct (woken_lookup_l _ _ _ _ H Hpc) as (pc' & Hq & [->|[-> _]]); [eauto|done].
Qed.

Lemma same_work_new ws : same_work ws (ws ++ [WTop]).
Proof.
  split.
  - intros w pc [Hq|[_ Hq]]%lookup_app_Some; [right; eauto|]. apply list_lookup_singleton_Some in Hq as [_ <-]. by left.
  - intros w pc i Hq Hi. exists pc. split; [by apply lookup_app_l_Some|done].
Qed.

Lemma chunked_signal s : chunked s -> chunked (signal_consumer s).
Proof. intros Hk. unfold signal_consumer. destruct (main s); try done. eapply chunked_frame; [exact Hk|done..|apply same_work_refl]. Qed.

(** A worker takes the next index. *)
Lemma chunked_take w s :
  chunked s -> 0 <= consumer_head s <= producer_head s -> workers s !! w = Some WCheck ->
  chunked (set_pc w (WDown (producer_head s)) (set_heads (producer_head s + 1) (consumer_head s) s)).
Proof.
  intros [K1 K2 K3 K4 K5 K6] Hh Hw. pose proof (lookup_lt_Some _ _ _ Hw) as Hlt.
  assert (queue_chunk s (producer_head s) = None) as Hnone.
  { unfold queue_chunk. destruct (queue s !! Z.to_nat (producer_head s)) as [q|] eqn:E; [|done]. cbn.
    destruct (chunk q) as [c|] eqn:Ec; [|done]. destruct (K4 _ _ _ E Ec) as [? _]. lia. }
  split; cbn.
  - intros w' pc i Hq Hi. apply list_lookup_insert_Some in Hq as [(_ & <- & _)|[_ Hq]].
    + injection Hi as <-. split; [lia|exact Hnone].
    + destruct (K1 w' pc i Hq Hi). split; [lia|done].
  - intros w1 w2 pc1 pc2 i H1 H2 E1 E2.
    apply list_lookup_insert_Some in H1 as [(<- & <- & _)|[? H1]]; apply list_lookup_insert_Some in H2 as [(<- & <- & _)|[? H2]];
      [done| | |by eapply K2].
    + injection E1 as <-. destruct (K1 _ _ _ H2 E2). lia.
    + injection E2 as <-. destruct (K1 _ _ _ H1 E1). lia.
  - intros i Hi Hn. destruct (decide (i = producer_head s)) as [->|Hne].
    + exists w, (WDown (producer_head s)). split; [by apply list_lookup_insert_eq|done].
    + destruct (K3 i ltac:(lia) Hn) as (w' & pc & Hpc & E). exists w', pc. split; [|done].
      rewrite list_lookup_insert_ne; [done|]. intros ->. rewrite Hw in Hpc. by injection Hpc as <-.
  - intros i q c Hq Hc. destruct (K4 i q c Hq Hc). split; [lia|done].
  - intros w' pc i c q Hq Hi Hg. apply list_lookup_insert_Some in Hq as [(_ & <- & _)|[_ Hq]]; [done|by eapply K5].
  - done.
Qed.

Lemma queue_chunk_alter i c s j :
  0 <= j -> queue_chunk (store_chunk i c s) j =
    if decide (Z.to_nat i = Z.to_nat j) then (queue s !! Z.to_nat j) ≫= (fun _ => c) else queue_chunk s j.
Proof.
  intros Hj. unfold queue_chunk, store_chunk. cbn. case_decide as E.
  - rewrite E, list_lookup_alter_eq. by destruct (queue s !! Z.to_nat j).
  - by rewrite list_lookup_alter_ne.
Qed.

Lemma chunked_store w i c s :
  chunked s -> 0 <= consumer_head s -> producer_head s <= Z.of_nat (length (queue s)) ->
  workers s !! w = Some (WStore i c) ->
  chunked (set_pc w WUnlock (store_chunk i (Some c) s)).
Proof.
  intros [K1 K2 K3 K4 K5 K6] Hh Hlen Hw. destruct (K1 _ _ _ Hw eq_refl) as [Hi Hnone].
  assert (forall w' pc j, <[w:=WUnlock]> (workers s) !! w' = Some pc -> index_of pc = Some j -> workers s !! w' = Some pc /\ j <> i) as Hother.
  { intros w' pc j Hq Hj. apply list_lookup_insert_Some in Hq as [(_ & <- & _)|[Hne Hq]]; [done|]. split; [done|].
    intros ->. by apply Hne, (K2 w w' _ _ _ Hw Hq eq_refl Hj). }
  split; cbn.
  - intros w' pc j Hq Hj. destruct (Hother _ _ _ Hq Hj) as [Hq' Hne]. destruct (K1 w' pc j Hq' Hj) as [? Hn]. split; [done|].
    change (queue_chunk (store_chunk i (Some c) s) j = None). rewrite queue_chunk_alter, decide_False by lia. done.
  - intros w1 w2 pc1 pc2 j H1 H2 E1 E2. destruct (Hother _ _ _ H1 E1), (Hother _ _ _ H2 E2). by eapply K2.
  - intros j Hj Hn. change (queue_chunk (store_chunk i (Some c) s) j = None) in Hn. rewrite queue_chunk_alter in Hn by lia.
    case_decide as E.
    + assert (is_Some (queue s !! Z.to_nat j)) as [q Hq] by (apply lookup_lt_is_Some_2; lia). by rewrite Hq in Hn.
    + destruct (K3 j Hj Hn) as (w' & pc & Hpc & Ei). exists w', pc. split; [|done]. rewrite list_lookup_insert_ne; [done|].
      intros ->. rewrite Hw in Hpc. injection Hpc as <-. by injection Ei as <-.
  - intros j q c' Hq Hc. rewrite list_lookup_alter in Hq. case_decide as E; [|by eapply K4].
    destruct (queue s !! Z.to_nat i) as [q0|] eqn:E0; [|done]. injection Hq as <-. cbn in Hc. injection Hc as <-. split; [lia|].
    by apply (K5 _ _ _ _ q0 Hw eq_refl eq_refl).
  - intros w' pc j c' q Hq Hj Hg Hqq. destruct (Hother _ _ _ Hq Hj) as [Hq' Hne]. destruct (K1 w' pc j Hq' Hj) as [? _].
    rewrite list_lookup_alter_ne in Hqq by lia. by eapply K5.
  - done.
Qed.

Lemma chunked_got w i c s :
  chunked s -> workers s !! w = Some (WDown i) -> (forall q, queue s !! Z.to_nat i = Some q -> serves (url q) c) ->
  chunked (set_pc w (WGot i c) s).
Proof.
  intros [K1 K2 K3 K4 K5 K6] Hw Hs.
  assert (forall w' pc j, <[w:=WGot i c]> (workers s) !! w' = Some pc -> index_of pc = Some j ->
    exists pc0, workers s !! w' = Some pc0 /\ index_of pc0 = Some j /\ ((pc0 = pc) \/ (w' = w /\ pc = WGot i c /\ j = i))) as Hold.
  { intros w' pc j Hq Hj. apply list_lookup_insert_Some in Hq as [(<- & <- & _)|[Hne Hq]]; [|eauto].
    injection Hj as <-. exists (WDown i). eauto 6. }
  split; cbn; [| | |done| |done].
  - intros w' pc j Hq Hj. destruct (Hold _ _ _ Hq Hj) as (pc0 & H0 & E0 & _). by eapply K1.
  - intros w1 w2 pc1 pc2 j H1 H2 E1 E2. destruct (Hold _ _ _ H1 E1) as (? & ? & ? & _), (Hold _ _ _ H2 E2) as (? & ? & ? & _).
    by eapply K2.
  - intros j Hj Hn. destruct (K3 j Hj Hn) as (w' & pc & Hpc & E). destruct (decide (w' = w)) as [->|Hne].
    + exists w, (WGot i c). split; [apply list_lookup_insert_eq; by eapply lookup_lt_Some|].
      rewrite Hw in Hpc. by injection Hpc as <-.
    + exists w', pc. by rewrite list_lookup_insert_ne.
  - intros w' pc j c' q Hq Hj Hg Hqq. destruct (Hold _ _ _ Hq Hj) as (pc0 & H0 & E0 & [->|(-> & -> & ->)]); [by eapply K5|].
    injection Hg as <-. by apply Hs.
Qed.

Lemma chunked_consume c s :
  chunked s -> counted s -> queue_chunk s (consumer_head s) = Some c ->
  chunked (set_delivered (delivered s ++
      [(default 0 (row_count <$> queue s !! Z.to_nat (consumer_head s)), queue_chunk s (consumer_head s))])
    (store_chunk (consumer_head s) None (set_heads (producer_head s) (consumer_head s + 1) s))).
Proof.
  intros [K1 K2 K3 K4 K5 K6] Hc Hq. pose proof (c_heads s Hc) as [Hh _]. set (C := consumer_head s) in *.
  assert (exists q, queue s !! Z.to_nat C = Some q /\ chunk q = Some c) as (q & Eq & Ec).
  { unfold queue_chunk in Hq. destruct (queue s !! Z.to_nat C) as [q|]; [by exists q|done]. }
  destruct (K4 _ _ _ Eq Ec) as [_ Hs].
  assert (forall w pc i, workers s !! w = Some pc -> index_of pc = Some i -> i <> C) as Hne.
  { intros w pc i Hw Hi ->. destruct (K1 w pc C Hw Hi). congruence. }
  split; cbn.
  - intros w pc i Hw Hi. destruct (K1 w pc i Hw Hi) as [? Hn]. pose proof (Hne _ _ _ Hw Hi). split; [lia|].
    change (queue_chunk (store_chunk C None s) i = None). rewrite queue_chunk_alter, decide_False by lia. done.
  - done.
  - intros i Hi Hn. change (queue_chunk (store_chunk C None s) i = None) in Hn. rewrite queue_chunk_alter, decide_False in Hn by lia.
    apply K3; [lia|done].
  - intros i q' c' Hq' Hc'. rewrite list_lookup_alter in Hq'. case_decide as E.
    + destruct (queue s !! Z.to_nat C); [|done]. by injection Hq' as <-.
    + destruct (K4 _ _ _ Hq' Hc') as [? ?]. split; [|done]. assert (Z.of_nat i <> C) by lia. lia.
  - intros w pc i c' q' Hw Hi Hg Hqq. destruct (K1 w pc i Hw Hi) as [? _]. pose proof (Hne _ _ _ Hw Hi).
    rewrite list_lookup_alter_ne in Hqq by lia. by eapply K5.
  - rewrite Eq, Hq. cbn [fmap option_fmap option_map default id].
    pose proof (c_items s Hc) as Hitems. assert (items !! Z.to_nat C = Some (url q, row_count q)) as Hit.
    { rewrite <- Hitems, list_lookup_fmap, Eq. done. }
    replace (Z.to_nat (C + 1)) with (S (Z.to_nat C)) by lia. rewrite (take_S_r _ _ _ Hit). apply Forall2_app; [done|].
    constructor; [|constructor]. cbn. eauto.
Qed.

(** ** The invariant *)

Record inv (s : state) : Prop := {
  inv_locked : locked s;
  inv_counted : counted s;
  inv_chunked : chunked s;
  inv_take : main s = MTake -> is_Some (queue_chunk s (consumer_head s));
  inv_wait : forall w, workers s !! w = Some WWait -> (2 <= length (workers s))%nat ->
    1 <= producer_head s - consumer_head s \/ queue_size s <= producer_head s \/
    exists w' pc, workers s !! w' = Some pc /\ active pc = true;
  inv_freed : main s = MFreed -> forall w pc, workers s !! w = Some pc -> pc = WDone;
  inv_empty : main s = MWait -> queue_chunk s (consumer_head s) = None;
  inv_eof : main s = MEnd FEof -> queue_size s <= consumer_head s
}.

Lemma queue_length s : counted s -> Z.of_nat (length (queue s)) = queue_size s.
Proof. intros Hc. rewrite (c_size s Hc), <- (c_items s Hc), length_map. done. Qed.

Lemma take_chunk s : inv s -> main s = MTake -> exists c, queue_chunk s (consumer_head s) = Some c /\ consumer_head s < producer_head s.
Proof.
  intros Hi Hm. destruct (inv_take s Hi Hm) as [c Hc]. exists c. split; [done|].
  pose proof (c_heads s (inv_counted s Hi)) as [Hh _]. unfold queue_chunk in Hc.
  destruct (queue s !! Z.to_nat (consumer_head s)) as [q|] eqn:Eq; [|done].
  destruct (k_chunk s (inv_chunked s Hi) _ _ _ Eq Hc) as [? _]. lia.
Qed.

(** What a worker's step leaves of the rest. *)
Lemma worker_step_frame w a s s' : worker_step w a s = Some s' ->
  (exists pc pc', workers s !! w = Some pc /\ workers s' = <[w := pc']> (workers s) /\ pc <> WDone /\ pc <> WWait /\
     (pc' = WWait -> pc = WTest /\ thread_count s <= u64 (producer_head s - consumer_head s)) /\ (pc' = WDone -> pc = WExit)) /\
  (main s' = main s \/ (main s = MWait /\ main s' = MWoken)) /\
  consumer_head s' = consumer_head s /\ queue_size s' = queue_size s /\ is_shutdown s' = is_shutdown s /\
  (has_error s' = false -> has_error s = false) /\
  (queue s' = queue s \/ exists i c, workers s !! w = Some (WStore i c)).
Proof.
  intros H. worker_cases H Hw; unfold signal_consumer; cbn;
    try match goal with |- context [match main s with _ => _ end] => destruct (main s) eqn:Hm; cbn; rewrite ?Hm end;
    (split; [do 2 eexists; split_and!; [reflexivity|rewrite ?Hw; reflexivity|done|done|intros ?; try done|done]|]); try naive_solver.
  split; [done|]. apply andb_prop in H0 as [H0 _]. apply andb_prop in H0 as [H0 _]. by apply Z.leb_le.
Qed.

Lemma worker_chunked w a s s' :
  worker_step w a s = Some s' -> honest (EWorker w a) s -> has_error s' = false -> counted s -> chunked s -> chunked s'.
Proof.
  intros H Hon He Hc Hk. pose proof (counted_u64 s Hc) as (_ & U2 & _). pose proof (c_heads s Hc) as [Hh1 Hh2].
  pose proof (queue_length s Hc) as Hlen.
  assert (forall i c, a = Some c -> workers s !! w = Some (WDown i) ->
    forall q, queue s !! Z.to_nat i = Some q -> serves (url q) c) as Hserved.
  { intros i c -> Hw. unfold honest in Hon. by rewrite Hw in Hon. }
  clear Hon. worker_cases H Hw; try discriminate He; rewrite ?U2 in *.
  all: try (eapply chunked_frame; [exact Hk|done..|cbn; by eapply same_work_pc]; fail).
  - pose proof (chunked_take w s Hk Hh1 Hw) as Hk'. eapply chunked_frame; [exact Hk'|done..|apply same_work_refl].
  - apply chunked_got; [done..|]. by apply Hserved.
  - unfold get_error in *. cbn in He. congruence.
  - assert (chunked (set_pc w WUnlock (store_chunk index (Some c) s))) as Hk' by (apply chunked_store; [done|lia|lia|done]).
    apply chunked_signal in Hk'. eapply chunked_frame; [exact Hk'|..]; unfold signal_consumer; cbn;
      destruct (main s); try done; apply same_work_refl.
Qed.

Lemma main_chunked created cmd pick s s' :
  main_step created cmd pick s = Some s' -> has_error s = false -> inv s -> chunked s'.
Proof.
  intros H He Hi. pose proof (inv_chunked s Hi) as Hk. pose proof (inv_counted s Hi) as Hc.
  pose proof (counted_u64 s Hc) as (_ & _ & U3 & _). pose proof (take_chunk s Hi) as Htake.
  main_cases H; rewrite ?U3 in *.
  all: try (eapply chunked_frame; [exact Hk|done..|apply same_work_refl]; fail).
  - eapply chunked_frame; [exact Hk|done..|apply same_work_new].
  - destruct (Htake eq_refl) as (c & Hq & _).
    eapply chunked_frame; [exact (chunked_consume c s Hk Hc Hq)|done..|apply same_work_woken, signalled_woken].
  - eapply chunked_frame; [exact Hk|done..|apply same_work_woken, wake_map_woken].
Qed.

Lemma worker_inv w a s s' :
  worker_step w a s = Some s' -> honest (EWorker w a) s -> has_error s' = false -> inv s -> inv s'.
Proof.
  intros H Hon He Hi. pose proof Hi as [Hl Hc Hk Ht Hwt Hf Hem Hef].
  destruct (worker_step_frame w a s s' H) as ((pc & pc' & Hpc & Hws & Hnd & Hnw & Hwait & Hdone) & Hm & EC & ES & Esh & Herr & Hq).
  pose proof (worker_locked w a s s' H He Hl) as Hl'. pose proof (worker_counted w a s s' H He Hl Hc) as Hc'.
  pose proof (worker_chunked w a s s' H Hon He Hc Hk) as Hk'. split; [done|done|done| | | | |].
  - intros Hm'. destruct Hm as [Hm|[_ Hm]]; [|congruence]. rewrite Hm in Hm'. unfold queue_chunk. rewrite EC.
    destruct Hq as [->|(i & c & Hst)]; [by apply Ht|].
    assert (queue_lock s = Some (ByWorker w)) as E1 by (by apply (l_w s Hl _ _ Hst)).
    assert (queue_lock s = Some ByMain) as E2 by (apply (l_m s Hl); by rewrite Hm'). congruence.
  - intros w' Hw' Hlen. rewrite Hws in Hw'. rewrite Hws, length_insert in Hlen.
    assert (pc' = WWait \/ pc' <> WWait) as [->|Hnw'] by (destruct pc'; auto; right; discriminate).
    + destruct (Hwait eq_refl) as [-> Htc]. left. rewrite (proj1 (counted_u64 s Hc)) in Htc.
      assert (producer_head s' = producer_head s) as EP.
      { clear -H Hpc. worker_cases H Hw; try done; discriminate Hpc. }
      pose proof (c_threads s Hc). assert (creating (main s) <= 1) by (by destruct (main s)). lia.
    + apply list_lookup_insert_Some in Hw' as [(_ & E & _)|[Hne Hw']]; [congruence|].
      assert (pc' = WDone \/ pc' <> WDone) as [->|Hnd'] by (destruct pc'; auto; right; discriminate).
      * right; left. rewrite (Hdone eq_refl) in Hpc. assert (workers s' !! w = Some WDone) as Hw0.
        { rewrite Hws. apply list_lookup_insert_eq. by eapply lookup_lt_Some. }
        destruct (c_done s' Hc' w WDone Hw0) as [?|Hsh]; [by right|done|].
        exfalso. apply (c_nowait s' Hc' Hsh w'). rewrite Hws. by rewrite list_lookup_insert_ne.
      * right; right. exists w, pc'. rewrite Hws. split; [apply list_lookup_insert_eq; by eapply lookup_lt_Some|]. by destruct pc'.
  - intros Hm' w' q Hq'. destruct Hm as [Hm|[_ Hm]]; [|congruence]. exfalso. apply Hnd. rewrite Hm in Hm'. by eapply Hf.
  - intros Hm'. clear -H Hm' Hem Hm. worker_cases H Hw; cbn in Hm'; try (by apply Hem).
    clear Hm. unfold signal_consumer in Hm'. cbn in Hm'. destruct (main s) eqn:E; cbn in Hm'; congruence.
  - intros Hm'. destruct Hm as [Hm|[_ Hm]]; [|congruence]. rewrite Hm in Hm'. specialize (Hef Hm').
    clear -H Hef ES EC. by rewrite ES, EC.
Qed.

(** Waiting workers that stay, with nothing else they wait for changed. *)
Lemma wait_kept s s' :
  inv s -> workers s' = workers s -> producer_head s' = producer_head s -> consumer_head s' = consumer_head s ->
  queue_size s' = queue_size s ->
  forall w, workers s' !! w = Some WWait -> (2 <= length (workers s'))%nat ->
    1 <= producer_head s' - consumer_head s' \/ queue_size s' <= producer_head s' \/
    exists w' pc, workers s' !! w' = Some pc /\ active pc = true.
Proof. intros Hi -> -> -> ->. apply (inv_wait s Hi). Qed.

Lemma main_inv created cmd pick s s' :
  main_step created cmd pick s = Some s' -> has_error s' = false -> inv s -> inv s'.
Proof.
  intros H He Hi. assert (has_error s = false) as He0.
  { clear -H He. main_cases H; done. }
  pose proof (inv_counted s Hi) as Hc. pose proof (c_shut s Hc) as Hsh.
  assert (main s = MTerm -> is_shutdown s = false) as Hterm by (intros Hm; by rewrite Hsh, Hm).
  assert (main s = MTake -> consumer_head s < producer_head s) as Htk.
  { intros Hm. by destruct (take_chunk s Hi Hm) as (? & _ & ?). }
  split.
  - by eapply main_locked; [exact H|apply Hi|].
  - by eapply main_counted.
  - by eapply main_chunked.
  - main_cases H; try done; intros Hm; cbn in Hm; try congruence.
    unfold get_shutdown_or_error in *. rewrite He0, Hsh in H1. done.
  - main_cases H; try (by apply (wait_kept s)).
    + intros w _ _. right; right. exists (length (workers s)), WTop. cbn. by rewrite lookup_app_r, Nat.sub_diag by lia.
    + intros w Hw _. right; right. cbn in *. destruct (signalled_one pick _ w Hw) as [w' Hw']. by exists w', WWoken.
    + intros w Hw _. cbn in Hw. apply list_lookup_fmap_Some in Hw as (pc & Hw & _). by destruct pc.
  - main_cases H; try done; intros Hm w pc Hw; cbn in Hm, Hw; try congruence.
    match goal with Hd : all_done _ = true |- _ => unfold all_done in Hd; rewrite forallb_forall in Hd;
      specialize (Hd pc); rewrite <- list_elem_of_In in Hd; specialize (Hd (list_elem_of_lookup_2 _ _ _ Hw)) end.
    by destruct pc.
  - main_cases H; try done; intros Hm; cbn in Hm; congruence.
  - main_cases H; try done; intros Hm; cbn in Hm; try congruence. by apply Z.leb_le.
Qed.

Lemma spurious_inv w s : workers s !! w = Some WWait -> inv s -> inv (set_pc w WWoken s).
Proof.
  intros Hw Hi. pose proof Hi as [Hl Hc Hk Ht Hwt Hf Hem Hef]. split.
  - eapply locked_move; [exact Hl|exact Hw|done..].
  - apply counted_set_pc; [done|done|naive_solver|done].
  - eapply chunked_frame; [exact Hk|done..|by eapply same_work_pc].
  - done.
  - intros w' _ _. right; right. exists w, WWoken. split; [|done]. apply list_lookup_insert_eq. by eapply lookup_lt_Some.
  - intros Hm. cbn in Hm. by discriminate (Hf Hm _ _ Hw).
  - exact Hem.
  - exact Hef.
Qed.

Lemma spurious_main_inv s : main s = MWait -> inv s -> inv (set_main MWoken s).
Proof.
  intros Hm Hi. pose proof Hi as [Hl Hc Hk Ht Hwt Hf Hem Hef]. split; try done.
  - eapply locked_main; [exact Hl|apply woken_refl|done|cbn; by rewrite Hm|done].
  - apply counted_set_main; [done|by rewrite Hm..| |]; intros _; [apply (c_fetch s Hc)|apply (c_started s Hc)]; by rewrite Hm.
  - eapply chunked_frame; [exact Hk|done..|apply same_work_refl].
Qed.

Lemma start_inv : inv (initial items n).
Proof.
  unfold INT_MAX in *. split; [| | |done..].
  - by split.
  - split; cbn; try done; try lia. rewrite map_map. rewrite <- (map_id items) at 2. apply map_ext. by intros [].
  - split; cbn; try done; [lia|]. intros i q c Hq Hc.
    apply list_lookup_fmap_Some in Hq as ([u r] & -> & _). done.
Qed.

Lemma reachable_inv s : reachable items n s -> has_error s = false -> inv s.
Proof.
  intros Hr. induction Hr as [|s e s' Hr IH Hon Hstep]; intros He; [exact start_inv|].
  destruct e as [w a|created cmd pick|w|]; cbn in Hstep.
  - destruct (worker_step_frame w a s s' Hstep) as (_ & _ & _ & _ & _ & Herr & _). eapply worker_inv; eauto.
  - assert (has_error s = false) as He0 by (clear -Hstep He; main_cases Hstep; done). eapply main_inv; eauto.
  - destruct (workers s !! w) as [[]|] eqn:Hw; try discriminate. injection Hstep as <-. apply spurious_inv; auto.
  - destruct (main s) eqn:Hm; try discriminate. injection Hstep as <-. apply spurious_main_inv; auto.
Qed.

(** A released structure belongs to no thread any more, whatever failed before. *)
Lemma reachable_freed s : reachable items n s -> main s = MFreed -> all_done (workers s) = true.
Proof.
  intros Hr. induction Hr as [|s e s' Hr IH Hon Hstep]; [done|]. intros Hm.
  destruct e as [w a|created cmd pick|w|]; cbn in Hstep.
  - destruct (worker_step_frame w a s s' Hstep) as ((pc & pc' & Hpc & _ & Hnd & _) & [Hm'|[_ Hm']] & _); [|congruence].
    rewrite Hm' in Hm. specialize (IH Hm). unfold all_done in IH. rewrite forallb_forall in IH.
    apply list_elem_of_lookup_2, list_elem_of_In, IH in Hpc. by destruct pc.
  - main_cases Hstep; try done; cbn in Hm; congruence.
  - destruct (workers s !! w) as [[]|] eqn:Hw; try discriminate. injection Hstep as <-. specialize (IH Hm).
    unfold all_done in IH. rewrite forallb_forall in IH. by apply list_elem_of_lookup_2, list_elem_of_In, IH in Hw.
  - destruct (main s); try discriminate. by injection Hstep as <-.
Qed.

Lemma run_reachable es s s' :
  (forall e s, honest e s) -> reachable items n s -> run es s = Some s' -> reachable items n s'.
Proof.
  intros Hon. revert s. induction es as [|e es IH]; cbn; intros s Hr H; [by injection H as <-|].
  destruct (event_step e s) as [s1|] eqn:E; [|done]. eapply IH; [|exact H]. by eapply reach_step.
Qed.

(** The chunk of an item as the server has it. *)
Definition delivers (it : string * Z) (d : Z * option Chunk) : Prop :=
  fst d = snd it /\ exists c, snd d = Some c /\ serves (fst it) c.

(** C12: While no download has failed, fetch has taken over exactly the chunks before
    [consumer_head], each with its row count and with what the server has for its
    URL, in the order of the result set; at most [thread_count] chunks, never more
    than the threads asked for, are downloading or waiting to be fetched; and fetch
    answers end of data only when every chunk has been delivered. *)
Theorem delivered_in_order s :
  reachable items n s -> has_error s = false ->
  Forall2 delivers (take (Z.to_nat (consumer_head s)) items) (delivered s) /\
  (0 <= consumer_head s <= producer_head s /\ producer_head s <= Z.of_nat (length items)) /\
  producer_head s - consumer_head s <= thread_count s <= Z.of_nat n /\
  (main s = MEnd FEof -> Forall2 delivers items (delivered s)).
Proof.
  intros Hr He. pose proof (reachable_inv s Hr He) as Hi. pose proof (inv_counted s Hi) as Hc.
  pose proof (k_delivered s (inv_chunked s Hi)) as Hd. pose proof (c_size s Hc) as Hs.
  pose proof (c_threads s Hc). pose proof (c_created s Hc) as [? _]. pose proof (c_out s Hc). pose proof (c_heads s Hc).
  assert (0 <= creating (main s)) by (by destruct (main s)). split_and!; [exact Hd|lia..|].
  intros Hm. pose proof (inv_eof s Hi Hm). by rewrite take_ge in Hd by lia.
Qed.

(** While no download has failed, one thread at a time is between taking and
    releasing [queue_lock], the application's thread included. *)
Theorem lock_exclusive s w1 w2 pc1 pc2 :
  reachable items n s -> has_error s = false ->
  workers s !! w1 = Some pc1 -> holding pc1 = true ->
  main_holding (main s) = false /\ (workers s !! w2 = Some pc2 -> holding pc2 = true -> w1 = w2).
Proof.
  intros Hr He H1 E1. pose proof (inv_locked s (reachable_inv s Hr He)) as Hl. split; [|intros H2 E2; by eapply one_holder].
  apply (l_w s Hl _ _ H1) in E1. destruct (main_holding (main s)) eqn:E; [|done]. apply (l_m s Hl) in E. congruence.
Qed.

(** Once chunk_downloader_term has released the structure no thread runs that
    could touch it, whether or not a download failed. *)
Theorem freed_is_quiescent s e : reachable items n s -> main s = MFreed -> event_step e s = None.
Proof.
  intros Hr Hm. pose proof (reachable_freed s Hr Hm) as Hd. unfold all_done in Hd. rewrite forallb_forall in Hd.
  assert (forall w pc, workers s !! w = Some pc -> pc = WDone) as Hall.
  { intros w pc Hw. apply list_elem_of_lookup_2, list_elem_of_In, Hd in Hw. by destruct pc. }
  destruct e as [w a|created cmd pick|w|]; cbn; unfold worker_step, main_step, term_step; rewrite ?Hm; try done;
    destruct (workers s !! w) as [pc|] eqn:Hw; try done; by rewrite (Hall _ _ Hw).
Qed.
End ChunkDownloader.

(** ** Executions that hang

    No thread has a step: only a wake-up nobody sent could go on. *)
Definition deadlocked {Chunk} (s : @state Chunk) : Prop :=
  (forall w a, worker_step w a s = None) /\ (forall created cmd pick, main_step created cmd pick s = None).

Definition three_chunks : list (string * Z) := [("u0", 10); ("u1", 10); ("u2", 5)].
Abbreviation go := (EMain true Fetch 0).
Abbreviation work w := (EWorker w (Some tt)).

(** The thread reads [thread_count] before chunk_downloader_init has incremented it. *)
Definition early_worker : list (@event unit) :=
  [go; work 0; work 0] ++ [go; go] ++ [go; go; go; go].

(** Both threads download while fetch waits; one download fails. *)
Definition failed_download : list (@event unit) :=
  [go; go; go; go; go] ++ [work 0; work 0; work 0] ++ [go; go; go; go]
  ++ [EWorker 0 None; work 0; work 1; work 1; work 1; work 1].

(** A download fails while fetch is inside the critical section. *)
Definition failed_while_held : list (@event unit) :=
  [go; go; go; go; go] ++ [work 0; work 0; work 0; EWorker 0 None] ++ [go; EMain true Term 0; EMain true Term 0; work 0; work 1].

Lemma deadlocked_by {Chunk} (s : @state Chunk) :
  (forall pc, pc ∈ workers s -> pc = WWait \/ pc = WDone) -> main s = MWait -> deadlocked s.
Proof.
  intros Hw Hm. split; intros; unfold worker_step, main_step, fetch_step; [|by rewrite Hm].
  destruct (workers s !! w) as [pc|] eqn:E; [|done]. by destruct (Hw pc (list_elem_of_lookup_2 _ _ _ E)) as [-> | ->].
Qed.

(** With one thread a result set of three chunks can hang without any failure:
    the thread finds [thread_count] still 0, waits for a chunk to be consumed, and
    fetch then waits for the thread. *)
Theorem single_thread_deadlock :
  exists s, run early_worker (initial three_chunks 1) = Some s /\ main s = MWait /\ has_error s = false /\ deadlocked s.
Proof.
  eexists. split; [vm_compute; reflexivity|]. split_and!; [done..|]. apply deadlocked_by; [|done].
  cbn. intros pc ->%list_elem_of_singleton. by left.
Qed.

(** When a download fails while fetch waits for the chunk, both threads end, the
    error is recorded and nobody signals fetch: it waits for good. *)
Theorem failed_download_deadlock :
  exists s, run failed_download (initial three_chunks 2) = Some s /\
    main s = MWait /\ has_error s = true /\ all_done (workers s) = true /\ deadlocked s.
Proof.
  eexists. split; [vm_compute; reflexivity|]. split_and!; [done..|]. apply deadlocked_by; [|done].
  cbn. set_solver.
Qed.

(** A thread whose download failed releases [queue_lock] without holding it, so a
    thread and the application can be in the critical section together. *)
Theorem failed_download_unlocks :
  exists s w pc, run failed_while_held (initial three_chunks 2) = Some s /\
    main_holding (main s) = true /\ workers s !! w = Some pc /\ holding pc = true.
Proof. eexists _, 1%nat, _. split; [vm_compute; reflexivity|]. split_and!; reflexivity. Qed.

(** ** Witnesses *)

Definition anything (u : string) (c : unit) : Prop := True.
Definition delivers_one : list (@event unit) :=
  [go; go; go; go; go] ++ [work 0; work 0; work 0; work 0; work 0; work 0; work 0] ++ [go; go; go; go; go; go].

Lemma anything_honest e (s : @state unit) : honest anything e s.
Proof. destruct e as [w [c|]| | |]; cbn; try done. by destruct (workers s !! w) as [[]|]. Qed.

Lemma three_reachable es s n : run es (initial three_chunks n) = Some s -> reachable anything three_chunks n s.
Proof. apply run_reachable; [apply anything_honest|constructor]. Qed.

Lemma delivered_in_order_witness : exists s, run delivers_one (initial three_chunks 2) = Some s /\
  Forall2 (delivers anything) (take 1 three_chunks) (delivered s).
Proof.
  eexists. split; [vm_compute; reflexivity|].
  match goal with |- context [delivered ?s] => refine (proj1 (delivered_in_order anything three_chunks 2 _ _ s _ _)) end; [vm_compute; congruence..| |reflexivity].
  apply (three_reachable delivers_one). vm_compute. reflexivity.
Defined.

Lemma lock_exclusive_witness : exists s, run [go; go; go; work 0; go; go] (initial three_chunks 2) = Some s /\
  main_holding (main s) = false.
Proof.
  eexists. split; [vm_compute; reflexivity|].
  match goal with |- context [main ?s] => refine (proj1 (lock_exclusive anything three_chunks 2 _ _ s 0 0 WTest WTest _ _ _ _)) end; try (vm_compute; congruence).
  apply (three_reachable [go; go; go; work 0; go; go]). vm_compute. reflexivity.
Defined.

Definition ending : list (@event unit) :=
  [EMain true Fetch 0; EMain true Fetch 0; EMain true Fetch 0; EMain true Term 0; EMain true Term 0; EMain true Term 0; work 0; work 0; work 0; work 0; go].

Lemma freed_is_quiescent_witness : exists s, run ending (initial three_chunks 1) = Some s /\ event_step (work 0) s = None.
Proof.
  eexists. split; [vm_compute; reflexivity|]. apply (freed_is_quiescent anything three_chunks 1); [|reflexivity].
  apply (three_reachable ending). vm_compute. reflexivity.
Defined.
