(* ===== verification/ChunkLiveness.v ===== *)
(** * Every call on the chunk downloader returns

    With at least two threads, downloads that succeed and no wake-up that was not
    sent, chunk_downloader_init, snowflake_fetch and chunk_downloader_term return
    under every scheduling: some thread can always go on ([some_step]) and every
    step lowers [measure].  ChunkDownloader.v shows that two threads and successful
    downloads are needed. *)

From S2P Require Import Prelude ChunkDownloader.

Section Liveness.
  Context {Chunk : Type} (serves : string -> Chunk -> Prop) (items : list (string * Z)) (n : nat).
  Context (items_int : Z.of_nat (length items) <= INT_MAX) (n_int : Z.of_nat n <= INT_MAX) (two : (2 <= n)%nat).
  Context (served : forall it, it ∈ items -> exists c, serves (fst it) c).

(** The events of a run without failures: every download answers, honestly. *)
Definition good (e : event) (s : @state Chunk) : Prop :=
  honest serves e s /\
  match e with
  | EWorker _ (Some _) | EMain _ _ _ => True
  | EWorker w None => forall i, workers s !! w <> Some (WDown i)
  | ESpurious _ | ESpuriousMain => False
  end.

(** Whatever is scheduled, a state with [P] is reached: some good event can happen
    and every one leads on. *)
Inductive eventually (P : @state Chunk -> Prop) (s : @state Chunk) : Prop :=
| eventually_now : P s -> eventually P s
| eventually_later :
    (exists e s', good e s /\ event_step e s = Some s') ->
    (forall e s', good e s -> event_step e s = Some s' -> eventually P s') ->
    eventually P s.

(** The application's thread is outside the three functions. *)
Definition returned (s : @state Chunk) : Prop := main s = MIdle \/ main s = MFreed.

Definition worker_rank (pc : @worker_pc Chunk) : Z :=
  match pc with
  | WDown _ => 40 | WGot _ _ => 39 | WStore _ _ => 38 | WUnlock => 20 | WTop => 19 | WWoken => 19
  | WTest => 18 | WCheck => 17 | WWait => 5 | WExit => 1 | WDone => 0
  end.
Definition main_rank (pc : main_pc) : Z :=
  match pc with
  | MFetch => 32 | MHold => 31 | MWoken => 30 | MLoop => 29 | MTake => 28 | MWait => 25 | MEnd _ => 1
  | MIdle | MFreed => 0 | MJoin => 1
  | MTerm => 20 * Z.of_nat n + 2 | MTermLock => 20 * Z.of_nat n + 3
  | MInit => 20 * Z.of_nat n + 5 | MInitInc => 20 * Z.of_nat n + 6
  end.
Fixpoint ranks (ws : list (@worker_pc Chunk)) : Z := match ws with [] => 0 | pc :: ws => worker_rank pc + ranks ws end.
Definition measure (s : @state Chunk) : Z :=
  100 * (queue_size s - producer_head s) + ranks (workers s) + main_rank (main s)
  + 100 * (Z.of_nat n - Z.of_nat (length (workers s))).

Lemma worker_rank_nonneg pc : 0 <= worker_rank pc.
Proof. by destruct pc. Qed.

Lemma ranks_nonneg ws : 0 <= ranks ws.
Proof. induction ws as [|pc ws IH]; cbn; [done|]. pose proof (worker_rank_nonneg pc). lia. Qed.

Lemma ranks_insert ws w pc pc' : ws !! w = Some pc -> ranks (<[w := pc']> ws) = ranks ws - worker_rank pc + worker_rank pc'.
Proof.
  revert w. induction ws as [|q ws IH]; intros [|w] H; [done|done|injection H as ->; cbn; lia|].
  change (worker_rank q + ranks (<[w := pc']> ws) = worker_rank q + ranks ws - worker_rank pc + worker_rank pc'). rewrite (IH w H). lia.
Qed.

Lemma ranks_app ws pc : ranks (ws ++ [pc]) = ranks ws + worker_rank pc.
Proof. induction ws as [|q ws IH]; cbn; lia. Qed.

Lemma ranks_woken (ws ws' : list (@worker_pc Chunk)) : Forall2 woken ws ws' -> ranks ws' <= ranks ws + 14 * Z.of_nat (length ws).
Proof. induction 1 as [|pc pc' ws ws' [->|[-> ->]] _ IH]; cbn [ranks length worker_rank]; lia. Qed.

Lemma ranks_signalled pick (ws : list (@worker_pc Chunk)) : ranks (signalled pick ws) <= ranks ws + 14.
Proof.
  assert (ranks (wake_first ws) <= ranks ws + 14) as H.
  { induction ws as [|[] ws IH]; cbn in *; lia. }
  unfold signalled. destruct (ws !! pick) as [[]|] eqn:E; try done. rewrite (ranks_insert _ _ _ _ E). cbn [worker_rank]. lia.
Qed.

Lemma measure_nonneg s : inv serves items n s -> 0 <= measure s.
Proof.
  intros Hi. pose proof (inv_counted _ _ _ _ Hi) as Hc. pose proof (c_heads _ _ _ Hc). pose proof (c_created _ _ _ Hc).
  pose proof (ranks_nonneg (workers s)). assert (0 <= main_rank (main s)) by (destruct (main s); cbn; lia).
  unfold measure. lia.
Qed.

(** ** No deadlock *)

Lemma good_worker s w pc :
  inv serves items n s -> workers s !! w = Some pc -> exists a, good (EWorker w a) s /\ (forall i, pc = WDown i -> a <> None).
Proof.
  intros Hi Hw. destruct pc; try (exists None; split; [split; [done|intros i; rewrite Hw; congruence]|congruence]).
  pose proof (k_index _ _ _ (inv_chunked _ _ _ _ Hi) w _ index Hw eq_refl) as [Hr _].
  pose proof (inv_counted _ _ _ _ Hi) as Hc. pose proof (c_heads _ _ _ Hc). pose proof (queue_length _ _ _ Hc).
  destruct (lookup_lt_is_Some_2 (queue s) (Z.to_nat index)) as [q Hq]; [lia|].
  assert (items !! Z.to_nat index = Some (url q, row_count q)) as Hit.
  { rewrite <- (c_items _ _ _ Hc), list_lookup_fmap, Hq. done. }
  destruct (served _ (list_elem_of_lookup_2 _ _ _ Hit)) as [c Hs]. exists (Some c). split; [|done]. split; [|done]. cbn. rewrite Hw.
  intros q' Hq'. rewrite Hq in Hq'. by injection Hq' as <-.
Qed.

(** A worker that is not waiting has a step when the lock is free or its own. *)
Lemma worker_can s w pc :
  inv serves items n s -> workers s !! w = Some pc -> active pc = true -> queue_lock s = None \/ holding pc = true ->
  exists e s', good e s /\ event_step e s = Some s'.
Proof.
  intros Hi Hw Ha Hl. destruct (good_worker s w pc Hi Hw) as (a & Hg & Hd). exists (EWorker w a).
  assert (exists s', event_step (EWorker w a) s = Some s') as [s' Hs']; [|by exists s'].
  cbn. unfold worker_step, acquire. rewrite Hw. destruct pc; try done; repeat case_match; try (by eexists);
    first [by destruct Hl|by destruct (Hd _ eq_refl)].
Qed.

(** Whoever wants to go on can, or the holder of the lock can. *)
Lemma active_can s w pc :
  inv serves items n s -> workers s !! w = Some pc -> active pc = true -> main_holding (main s) = false ->
  exists e s', good e s /\ event_step e s = Some s'.
Proof.
  intros Hi Hw Ha Hm. pose proof (inv_locked _ _ _ _ Hi) as Hl. destruct (queue_lock s) as [[|w']|] eqn:E.
  - apply (l_m _ Hl) in E. congruence.
  - destruct (l_dom _ Hl w' E) as [pc' Hw']. pose proof (proj2 (l_w _ Hl _ _ Hw') E) as Hh.
    eapply (worker_can s w' pc'); auto. by destruct pc'.
  - eapply (worker_can s w pc); auto.
Qed.

(** The application's thread gets the lock, or its holder goes on. *)
Lemma lock_can s :
  inv serves items n s -> main_holding (main s) = false ->
  (queue_lock s = None -> exists s', main_step true Fetch 0 s = Some s') ->
  exists e s', good e s /\ event_step e s = Some s'.
Proof.
  intros Hi Hm Hfree. pose proof (inv_locked _ _ _ _ Hi) as Hl. destruct (queue_lock s) as [[|w']|] eqn:E.
  - apply (l_m _ Hl) in E. congruence.
  - destruct (l_dom _ Hl w' E) as [pc' Hw']. pose proof (proj2 (l_w _ Hl _ _ Hw') E) as Hh.
    eapply (worker_can s w' pc'); auto. by destruct pc'.
  - destruct (Hfree eq_refl) as [s' Hs']. by exists (EMain true Fetch 0), s'.
Qed.

(** While fetch waits some worker is at work. *)
Lemma waited_for s : inv serves items n s -> main s = MWait -> exists w pc, workers s !! w = Some pc /\ active pc = true.
Proof.
  intros Hi Hm. pose proof (inv_counted _ _ _ _ Hi) as Hc. pose proof (inv_chunked _ _ _ _ Hi) as Hk.
  pose proof (c_fetch _ _ _ Hc) as Hf. pose proof (c_started _ _ _ Hc) as Hst. pose proof (c_shut _ _ _ Hc) as Hsh.
  pose proof (c_heads _ _ _ Hc) as [Hh _]. rewrite Hm in *. specialize (Hf eq_refl). specialize (Hst eq_refl). cbn in Hsh.
  destruct (decide (consumer_head s < producer_head s)) as [Hlt|Hge].
  - destruct (k_cover _ _ _ Hk (consumer_head s)) as (w & pc & Hw & Hx); [lia|by apply (inv_empty _ _ _ _ Hi)|].
    exists w, pc. split; [done|]. by destruct pc.
  - destruct (lookup_lt_is_Some_2 (workers s) 0) as [pc Hw]; [lia|]. destruct (active pc) eqn:Ha; [by exists O, pc|].
    destruct pc; try done.
    + destruct (inv_wait _ _ _ _ Hi 0 Hw) as [?|[?|?]]; [lia|lia|lia|done].
    + destruct (c_done _ _ _ Hc 0 WDone Hw) as [?|?]; [by right|lia|congruence].
Qed.

Lemma some_step s : inv serves items n s -> ~ returned s -> exists e s', good e s /\ event_step e s = Some s'.
Proof.
  intros Hi Hr. unfold returned in Hr. destruct (main s) eqn:Hm; try (by exfalso; auto).
  all: try (apply lock_can; [done|by rewrite Hm|intros E; unfold main_step, init_step, fetch_step, term_step, acquire; rewrite Hm, E; by eexists]).
  all: try (exists (EMain true Fetch 0); cbn; unfold main_step, init_step, fetch_step, term_step; rewrite Hm; repeat case_match; by eexists).
  - destruct (waited_for s Hi Hm) as (w & pc & Hw & Ha). eapply active_can; [done|exact Hw|done|by rewrite Hm].
  - destruct (all_done (workers s)) eqn:Hd.
    { exists (EMain true Fetch 0). cbn. unfold main_step, term_step. rewrite Hm, Hd. by eexists. }
    assert (exists w pc, workers s !! w = Some pc /\ pc <> WDone) as (w & pc & Hw & Hnd).
    { clear -Hd. induction (workers s) as [|pc ws IH]; [done|]. cbn in Hd. destruct pc; try (by exists O; eexists).
      destruct (IH Hd) as (w & pc & ? & ?). by exists (S w), pc. }
    eapply (active_can s w pc); [done..| |by rewrite Hm].
    pose proof (inv_counted _ _ _ _ Hi) as Hc. pose proof (c_shut _ _ _ Hc) as Hsh. rewrite Hm in Hsh.
    pose proof (c_nowait _ _ _ Hc Hsh w). destruct pc; try done; congruence.
Qed.

(** ** Every step counts *)

Ltac worker_cases H Hw :=
  unfold worker_step in H; destruct (workers _ !! _) as [pc|] eqn:Hw; [|discriminate H];
  destruct pc; unfold acquire in H; repeat case_match; try discriminate H; cbn in H; injection H as <-.
Ltac main_cases H :=
  unfold main_step, init_step, fetch_step, term_step in H; destruct (main _) eqn:Hmain; unfold acquire in H; repeat case_match; try discriminate H; cbn in H; injection H as <-.

Lemma worker_measure w a s s' :
  good (EWorker w a) s -> inv serves items n s -> worker_step w a s = Some s' -> measure s' < measure s.
Proof.
  intros Hg Hi H. pose proof (counted_u64 _ _ items_int n_int _ (inv_counted _ _ _ _ Hi)) as (_ & U2 & _).
  worker_cases H Hw; unfold measure; cbn; rewrite ?signal_consumer_workers; cbn; rewrite ?(ranks_insert _ _ _ _ Hw), ?length_insert; cbn;
    try lia.
  unfold signal_consumer. cbn. destruct (main s) eqn:Hm; cbn; rewrite ?Hm; cbn; lia.
Qed.

Lemma main_measure created cmd pick s s' :
  inv serves items n s -> has_error s = false -> ~ returned s -> main_step created cmd pick s = Some s' -> measure s' < measure s.
Proof.
  intros Hi He Hr H. unfold returned in Hr. pose proof (inv_counted _ _ _ _ Hi) as Hc. pose proof (c_created _ _ _ Hc) as [Hn Hreq].
  pose proof (c_shut _ _ _ Hc) as Hsh.
  main_cases H; unfold measure; cbn; rewrite ?Hmain in *; cbn in *; rewrite ?ranks_app, ?length_app; cbn; try lia;
    try (by exfalso; auto).
  - pose proof (ranks_signalled pick (workers s)). rewrite (Forall2_length _ _ _ (signalled_woken pick (workers s))). lia.
  - pose proof (ranks_woken _ _ (wake_map_woken (workers s))). rewrite length_map. lia.
Qed.

Lemma good_step_inv e s s' :
  good e s -> inv serves items n s -> has_error s = false -> event_step e s = Some s' -> inv serves items n s' /\ has_error s' = false.
Proof.
  intros [Hon Hg] Hi He Hs. destruct e as [w a|created cmd pick|w|]; cbn in Hs; try done.
  - assert (has_error s' = false) as He'.
    { clear Hon. worker_cases Hs Hw; cbn; rewrite ?signal_consumer_error; try done. by destruct (Hg index). }
    split; [|done]. eapply worker_inv; eauto.
  - assert (has_error s' = false) as He' by (clear Hon; main_cases Hs; done). split; [|done]. eapply main_inv; eauto.
Qed.

Lemma returns s : inv serves items n s -> has_error s = false -> eventually returned s.
Proof.
  remember (Z.to_nat (measure s)) as m eqn:Em. revert s Em. induction (lt_wf m) as [m _ IH]. intros s -> Hi He.
  assert (returned s \/ ~ returned s) as [Hr|Hr] by (unfold returned; destruct (main s); auto; right; intros [|]; discriminate).
  { by apply eventually_now. }
  apply eventually_later; [by apply some_step|]. intros e s' Hg Hs.
  destruct (good_step_inv e s s' Hg Hi He Hs) as [Hi' He'].
  assert (measure s' < measure s) as Hlt.
  { destruct e as [w a|created cmd pick|w|]; cbn in Hs; [by eapply worker_measure|by eapply main_measure|by destruct Hg..]. }
  pose proof (measure_nonneg _ Hi'). apply (IH (Z.to_nat (measure s'))); [lia|done..].
Qed.

(** C13: With two threads or more, as long as no download fails, the function the
    application is in (chunk_downloader_init, snowflake_fetch or
    chunk_downloader_term) returns, whatever the scheduler does and whichever waiter
    a signal wakes. *)
Theorem calls_return s :
  reachable serves items n s -> has_error s = false -> eventually returned s.
Proof. intros Hr He. apply returns; [|done]. by eapply reachable_inv. Qed.
End Liveness.

Lemma calls_return_witness : eventually anything returned (initial three_chunks 2).
Proof.
  apply (calls_return anything three_chunks 2); try (vm_compute; congruence); [lia| |constructor].
  intros it _. by exists tt.
Defined.

