(* ===== verification/ChunkSetup.v ===== *)
(** * lib/chunk_downloader.c (83-207, 226-324): setting up the chunk downloader.

    The chunk headers, the queue and chunk_downloader_init up to the threads: what
    ChunkDownloader's [initial] starts from.  Whether the locks and the threads can be
    made is an argument, [Some] with the message of the pthread error. *)

From S2P Require Import Prelude CLib CFloat Status CJson JsonHelpers ArrayList.

(** ** Headers *)

(** [i] of [used]; the list of libcurl is a list of strings.  [None]: the error for a
    header that cannot be found. *)
Fixpoint headers_loop (json_headers : option cJSON) (n : nat) (i : Z) (keys : ARRAY_LIST string) (headers : list string)
  : outcome (option (list string)) :=
  match n with
  | O => Done (Some headers)
  | S n =>
      '(key, keys) ← sf_array_list_get keys i;
      item ← snowflake_cJSON_GetObjectItemCaseSensitive json_headers key;
      match item with
      | None => Done None
      | Some it =>
          k ← deref key; v ← deref (valuestring it);
          headers_loop json_headers n (i + 1) keys (headers ++ [k +:+ ": " +:+ v])
      end
  end.

(** keys->used of what is not an object is a NULL dereference. *)
Definition create_chunk_headers (json_headers : option cJSON) : outcome (option (list string)) :=
  keys ← json_get_object_keys json_headers;
  keys ← deref keys;
  headers_loop json_headers (Z.to_nat (used keys)) 0 keys [].

(** ** The queue *)

(** [None]: an element is no object or has no url or no rowCount. *)
Fixpoint fill_queue (chunks : option cJSON) (chunk_count : nat) (queue : list (string * Z)) : outcome (option (list (string * Z))) :=
  match chunk_count with
  | O => Done (Some queue)
  | S n =>
      let d := json_detach_object_from_array None chunks 0 in
      if bool_decide (d_error d <> SF_JSON_ERROR_NONE) then Done None
      else
        '(e, url) ← json_copy_string None (d_dest d) "url";
        if bool_decide (e <> SF_JSON_ERROR_NONE) then Done None
        else
          '(e, row_count) ← json_copy_int 0 (d_dest d) "rowCount";
          if bool_decide (e <> SF_JSON_ERROR_NONE) then Done None
          else url ← deref url; fill_queue (d_data d) n (queue ++ [(url, row_count)])
  end.

(** ** chunk_downloader_init *)

Record setup := mk_setup {
  q_items : list (string * Z);
  q_headers : list string;
  q_qrmk : option string
}.

(** What pthread refuses. *)
Record pthread_answers := mk_pthread { lock_refused : option string; thread_refused : option string }.

(** The error is the message it sets, if it sets one; its code is SF_STATUS_ERROR_BAD_JSON
    for a header, SF_STATUS_ERROR_PTHREAD otherwise. *)
Definition setup_error : Type := option (Z * string).

Definition chunk_downloader_init (pt : pthread_answers) (qrmk : option string) (chunk_headers chunks : option cJSON)
    (thread_count fetch_slots : Z) : outcome (setup + setup_error) :=
  if (thread_count <=? 0) || (fetch_slots <=? 0) then Done (inr None)
  else
    match chunks with
    | None => Done (inr None)
    | Some c =>
        if negb (snowflake_cJSON_IsArray chunks) then Done (inr None)
        else
          name ← deref (key c);
          if negb (String.eqb name "chunks") then Done (inr None)
          else
            headers ← (match chunk_headers with Some _ => create_chunk_headers chunk_headers | None => Done (Some []) end);
            match headers with
            | None => Done (inr (Some (SF_STATUS_ERROR_BAD_JSON, "Could not find critical chunk header item")))
            | Some headers =>
                let qrmk := match chunk_headers with Some _ => None | None => qrmk end in
                match lock_refused pt with
                | Some text => Done (inr (Some (SF_STATUS_ERROR_PTHREAD, text)))
                | None =>
                    queue ← fill_queue chunks (Z.to_nat (snowflake_cJSON_GetArraySize chunks)) [];
                    match queue, thread_refused pt with
                    | None, _ => Done (inr None)
                    | Some _, Some text => Done (inr (Some (SF_STATUS_ERROR_PTHREAD, text)))
                    | Some items, None => Done (inl (mk_setup items headers qrmk))
                    end
                end
            end
    end.

(** ** What is set up *)

Definition chunk_object (c : cJSON) (it : string * Z) : Prop :=
  snowflake_cJSON_IsObject (Some c) = true /\ json_copy_string None (Some c) "url" = Done (SF_JSON_ERROR_NONE, Some (fst it)) /\
  json_copy_int 0 (Some c) "rowCount" = Done (SF_JSON_ERROR_NONE, snd it).

Lemma detach_first j c rest : child j = c :: rest -> snowflake_cJSON_IsObject (Some c) = true ->
  json_detach_object_from_array None (Some j) 0 = mk_detached SF_JSON_ERROR_NONE (Some c) (Some (set_child rest j)) None.
Proof.
  intros Hc Ho. unfold json_detach_object_from_array, snowflake_cJSON_DetachItemFromArray, snowflake_cJSON_DetachItemViaPointer.
  change (0 <? 0) with false. cbv iota. change (Z.to_nat 0) with O. rewrite Hc. cbn [lookup list_lookup delete list_delete].
  unfold json_detach, json_classify. rewrite Ho. unfold snowflake_cJSON_IsObject in Ho. unfold snowflake_cJSON_IsNull.
  destruct c as [t ? ? ? ? ?]. unfold has_type in *. cbn [CJson.type] in *.
  destruct (_ =? cJSON_NULL) eqn:E; [|done]. apply Z.eqb_eq in E. rewrite E in Ho. discriminate.
Qed.

Lemma fill_queue_ok items : forall j queue, Forall2 chunk_object (child j) items ->
  fill_queue (Some j) (length items) queue = Done (Some (queue ++ items)).
Proof.
  induction items as [|[u n] items IH]; intros j queue Hj; cbn [length fill_queue]; [by rewrite app_nil_r|].
  apply Forall2_cons_inv_r in Hj as (c & rest & (Ho & Hu & Hn) & Hrest & Hc). rewrite (detach_first j c rest Hc Ho). cbn [d_error d_dest d_data].
  rewrite !bool_decide_false by (by intros []). rewrite Hu, bind_Done_l. cbv beta iota. rewrite bool_decide_false by (by intros []).
  rewrite Hn, bind_Done_l. cbv beta iota. rewrite bool_decide_false by (by intros []). cbn [deref fst snd]. rewrite bind_Done_l, IH.
  - by rewrite <- app_assoc.
  - by destruct j.
Qed.

(** A member that is a text, by its name and its text. *)
Definition text_member (c : cJSON) (kv : string * string) : Prop := key c = Some (fst kv) /\ valuestring c = Some (snd kv).

Lemma find_member ch kvs : Forall2 text_member ch kvs -> NoDup (map fst kvs) -> forall i kv, kvs !! i = Some kv ->
  object_index ch (fst kv) true = Done (Some i).
Proof.
  induction 1 as [|c [k v] ch kvs [Hk Hv] Hall IH]; intros Hnd i kv Hi; [done|]. cbn [map] in Hnd. apply NoDup_cons in Hnd as [Hnew Hnd].
  cbn [object_index]. rewrite Hk. cbn [deref]. rewrite !bind_Done_l. cbn [fst]. destruct i as [|i]; cbn in Hi.
  - injection Hi as <-. by rewrite String.eqb_refl.
  - destruct (String.eqb_spec (fst kv) k) as [E|_].
    + destruct Hnew. rewrite <- E. apply list_elem_of_fmap. exists kv. split; [done|]. by eapply list_elem_of_lookup_2.
    + by rewrite (IH Hnd i kv Hi).
Qed.

Definition header_text (kv : string * string) : string := fst kv +:+ ": " +:+ snd kv.

Lemma headers_loop_ok h kvs : Forall2 text_member (child h) kvs -> NoDup (map fst kvs) -> Z.of_nat (length kvs) < 2 ^ 60 ->
  forall rest pre al headers, kvs = pre ++ rest -> wf al -> (forall i : nat, slot al (Z.of_nat i) = map fst kvs !! i) ->
  headers_loop (Some h) (length rest) (Z.of_nat (length pre)) al headers = Done (Some (headers ++ map header_text rest)).
Proof.
  intros Hall Hnd Hlen. induction rest as [|kv rest IH]; intros pre al headers Hkvs Hwf Hs; cbn [length headers_loop map]; [by rewrite app_nil_r|].
  assert (kvs !! length pre = Some kv) as Hi by (by rewrite Hkvs, lookup_app_r, Nat.sub_diag).
  destruct (array_get_ok al (Z.of_nat (length pre)) Hwf) as (al' & -> & Hwf' & _ & Hs').
  { rewrite Hkvs, length_app in Hlen. lia. }
  rewrite bind_Done_l. cbv beta iota. rewrite Hs, list_lookup_fmap, Hi. cbn [fmap option_fmap option_map].
  unfold snowflake_cJSON_GetObjectItemCaseSensitive, get_object_item. rewrite (find_member _ _ Hall Hnd _ _ Hi), !bind_Done_l.
  destruct (Forall2_lookup_r _ _ _ _ _ Hall Hi) as (c & Hc & Hk & Hv). rewrite Hc, Hv. cbn [deref]. rewrite !bind_Done_l.
  replace (Z.of_nat (length pre) + 1) with (Z.of_nat (length (pre ++ [kv]))) by (rewrite length_app; cbn; lia).
  rewrite (IH (pre ++ [kv])); [by rewrite <- app_assoc|by rewrite <- app_assoc|done|]. intros i. by rewrite Hs'.
Qed.

Lemma init_slots (i : nat) : slot (A := string) sf_array_list_init (Z.of_nat i) = [] !! i.
Proof.
  unfold slot, sf_array_list_init. cbn [data]. rewrite Nat2Z.id, lookup_nil.
  destruct (decide (i < 8)%nat); [by rewrite lookup_replicate_2|by rewrite lookup_ge_None_2 by (rewrite length_replicate; lia)].
Qed.

(** The key list has the names in their order and nothing behind them. *)
Lemma keys_loop_filled next : forall al ks, wf al -> (forall i : nat, slot al (Z.of_nat i) = ks !! i) ->
  forall names, map key next = map Some names -> Z.of_nat (length ks + length names) <= 2 ^ 60 ->
  exists al', keys_loop next al (Z.of_nat (length ks)) = Done al' /\ wf al' /\ forall i : nat, slot al' (Z.of_nat i) = (ks ++ names) !! i.
Proof.
  induction next as [|c next IH]; intros al ks Hwf Hs names Hn Hl; destruct names as [|k names]; try done.
  - exists al. by rewrite app_nil_r.
  - cbn [map length keys_loop] in *. injection Hn as Hk Hn.
    destruct (array_set_ok al (key c) (Z.of_nat (length ks)) Hwf) as (al1 & -> & Hwf1 & Hnew & _ & Hold); [lia|].
    rewrite bind_Done_l, wrapU_small by lia. replace (Z.of_nat (length ks) + 1) with (Z.of_nat (length (ks ++ [k]))) by (rewrite length_app; cbn; lia).
    destruct (IH al1 (ks ++ [k]) Hwf1) with (names := names) as (al2 & -> & Hwf2 & Hs2); [|done|rewrite length_app; cbn; lia|].
    + intros i. destruct (decide (i = length ks)) as [-> |Hne].
      * rewrite Hnew, Hk. by rewrite lookup_app_r, Nat.sub_diag.
      * rewrite Hold by lia. rewrite Hs. destruct (decide (i < length ks)%nat); [by rewrite lookup_app_l|].
        rewrite lookup_ge_None_2 by lia. symmetry. apply lookup_ge_None_2. rewrite length_app. cbn. lia.
    + exists al2. split; [done|]. split; [done|]. intros i. by rewrite Hs2, <- app_assoc.
Qed.

Lemma create_chunk_headers_ok h kvs :
  snowflake_cJSON_IsObject (Some h) = true -> Forall2 text_member (child h) kvs -> NoDup (map fst kvs) -> Z.of_nat (length kvs) < 2 ^ 60 ->
  create_chunk_headers (Some h) = Done (Some (map header_text kvs)).
Proof.
  intros Ho Hall Hnd Hlen. unfold create_chunk_headers, json_get_object_keys. rewrite Ho.
  destruct (keys_loop_filled (child h) sf_array_list_init [] init_wf) with (names := map fst kvs) as (al & E & Hwf & Hs).
  - apply init_slots.
  - clear -Hall. induction Hall as [|c kv ch kvs [Hk _] _ IH]; [done|]. cbn [map]. by rewrite Hk, IH.
  - rewrite length_map. cbn [length]. lia.
  - change (Z.of_nat (length [])) with 0 in E. rewrite E, !bind_Done_l. cbn [deref app] in *. rewrite bind_Done_l.
    rewrite (used_filled al (map fst kvs)) by done. rewrite length_map, Nat2Z.id.
    by apply (headers_loop_ok h kvs Hall Hnd Hlen kvs []).
Qed.

Lemma setup_ok pt qrmk h c kvs items n m :
  0 < n -> 0 < m -> lock_refused pt = None -> thread_refused pt = None ->
  snowflake_cJSON_IsArray (Some c) = true -> key c = Some "chunks" -> Forall2 chunk_object (child c) items -> Z.of_nat (length items) <= INT_MAX ->
  match h with
  | None => kvs = []
  | Some h => snowflake_cJSON_IsObject (Some h) = true /\ Forall2 text_member (child h) kvs /\ NoDup (map fst kvs) /\ Z.of_nat (length kvs) < 2 ^ 60
  end ->
  chunk_downloader_init pt qrmk h (Some c) n m =
    Done (inl (mk_setup items (map header_text kvs) (match h with None => qrmk | Some _ => None end))).
Proof.
  intros Hn Hm Hlk Hth Ha Hk Hall Hlen Hh. unfold chunk_downloader_init.
  destruct ((n <=? 0) || (m <=? 0)) eqn:E; [lia|]. rewrite Ha. cbn [negb]. rewrite Hk. cbn [deref]. rewrite bind_Done_l, String.eqb_refl. cbn [negb].
  assert (match h with Some _ => create_chunk_headers h | None => Done (Some []) end = Done (Some (map header_text kvs))) as ->.
  { destruct h as [h|]; [|by subst]. destruct Hh as (H1 & H2 & H3 & H4). by apply create_chunk_headers_ok. }
  rewrite bind_Done_l, Hlk. unfold snowflake_cJSON_GetArraySize. rewrite (Forall2_length _ _ _ Hall), wrapS_small by (unfold INT_MAX in *; lia).
  rewrite Nat2Z.id, fill_queue_ok by done. rewrite bind_Done_l, Hth. done.
Qed.

(** The downloader is set up with the chunks of the answer in their order, each with
    its URL and row count, and with one header per member of chunkHeaders; the qrmk
    counts only without them. *)
Theorem chunk_setup_correct pt qrmk h c kvs items n m :
  0 < n -> 0 < m -> lock_refused pt = None -> thread_refused pt = None ->
  snowflake_cJSON_IsArray (Some c) = true -> key c = Some "chunks" -> Forall2 chunk_object (child c) items -> Z.of_nat (length items) <= INT_MAX ->
  match h with
  | None => kvs = []
  | Some h => snowflake_cJSON_IsObject (Some h) = true /\ Forall2 text_member (child h) kvs /\ NoDup (map fst kvs) /\ Z.of_nat (length kvs) < 2 ^ 60
  end ->
  chunk_downloader_init pt qrmk h (Some c) n m =
    Done (inl (mk_setup items (map header_text kvs) (match h with None => qrmk | Some _ => None end))).
Proof. apply setup_ok. Qed.

(** ** Examples *)

Definition text_node (k v : string) : cJSON := mk_cJSON cJSON_String (Some v) 0 zero_double (Some k) [].
Definition number_node (k : string) (n : Z) : cJSON := mk_cJSON cJSON_Number None n (double_of_Z n) (Some k) [].
Definition chunk_node (u : string) (n : Z) : cJSON := mk_cJSON cJSON_Object None 0 zero_double None [text_node "url" u; number_node "rowCount" n].
Definition chunks_node (cs : list cJSON) : cJSON := mk_cJSON cJSON_Array None 0 zero_double (Some "chunks") cs.
Definition headers_node (hs : list cJSON) : cJSON := mk_cJSON cJSON_Object None 0 zero_double (Some "chunkHeaders") hs.
Definition all_made : pthread_answers := mk_pthread None None.

Lemma chunk_setup_correct_witness :
  chunk_downloader_init all_made (Some "key") (Some (headers_node [text_node "a" "1"; text_node "b" "2"]))
    (Some (chunks_node [chunk_node "https://x/0" 3; chunk_node "https://x/1" 5])) 2 4 =
  Done (inl (mk_setup [("https://x/0", 3); ("https://x/1", 5)] ["a: 1"; "b: 2"] None)).
Proof.
  apply (chunk_setup_correct all_made (Some "key") (Some (headers_node [text_node "a" "1"; text_node "b" "2"])) _ [("a", "1"); ("b", "2")]);
    try done.
  - apply Forall2_cons. split; [split_and!; vm_compute; reflexivity|]. apply Forall2_cons. split; [split_and!; vm_compute; reflexivity|]. apply Forall2_nil. done.
  - split_and!; [reflexivity| |by apply (bool_decide_unpack _); vm_compute|cbn; lia].
    apply Forall2_cons. split; [by split|]. apply Forall2_cons. split; [by split|]. apply Forall2_nil. done.
Defined.

(** "chunkHeaders":null is a NULL dereference. *)
Example null_headers_crash :
  chunk_downloader_init all_made None (Some (mk_cJSON cJSON_NULL None 0 zero_double (Some "chunkHeaders") [])) (Some (chunks_node [])) 2 4 = Undef.
Proof. reflexivity. Qed.

(** A chunk without a row count: no downloader and no error. *)
Example bad_chunk_unreported :
  chunk_downloader_init all_made None None (Some (chunks_node [mk_cJSON cJSON_Object None 0 zero_double None [text_node "url" "u"]])) 2 4 = Done (inr None).
Proof. vm_compute. reflexivity. Qed.
