(* ===== verification/Connect.v ===== *)
(** * lib/client.c: the connection (113-125, 158-220, 374-461, 496-935).

    [SF_CONNECT] is the C struct.  Its [char *] members are named by [char_member]; the
    error and the two tokens, which requests change, are in the [world] of Http, with
    the network.  A [void *] attribute is an [attribute]: what it points at; reading it
    as another type is undefined. *)

From stdpp Require Import functions.
From S2P Require Import Prelude CLib CFloat Status CJson CJsonPrint CJsonParse JsonHelpers Url Http Session.

(** ** The struct *)

Inductive char_member :=
| Account | Region | User | Password | Database | Schema | Warehouse | Role | Host | Port | Protocol | Passcode | Timezone
| Authenticator | Application_name | Application_version | DirectURL | DirectURL_param | Direct_query_token.
#[export] Instance char_member_eq_dec : EqDecision char_member.
Proof. solve_decision. Defined.

Record SF_CONNECT := mk_connection {
  member : char_member -> option string;
  passcode_in_password : bool;
  insecure_mode : bool;
  autocommit : bool;
  login_timeout : Z;
  network_timeout : Z;
  c_sequence_counter : Z;
  c_request_id : string
}.

Definition set_member (m : char_member) (v : option string) (sf : SF_CONNECT) : SF_CONNECT :=
  mk_connection (<[m := v]> (member sf)) (passcode_in_password sf) (insecure_mode sf) (autocommit sf) (login_timeout sf)
    (network_timeout sf) (c_sequence_counter sf) (c_request_id sf).
Definition set_flags (in_password insecure auto : bool) (sf : SF_CONNECT) : SF_CONNECT :=
  mk_connection (member sf) in_password insecure auto (login_timeout sf) (network_timeout sf) (c_sequence_counter sf) (c_request_id sf).
Definition set_timeouts (login network : Z) (sf : SF_CONNECT) : SF_CONNECT :=
  mk_connection (member sf) (passcode_in_password sf) (insecure_mode sf) (autocommit sf) login network (c_sequence_counter sf) (c_request_id sf).
Definition set_request (counter : Z) (id : string) (sf : SF_CONNECT) : SF_CONNECT :=
  mk_connection (member sf) (passcode_in_password sf) (insecure_mode sf) (autocommit sf) (login_timeout sf) (network_timeout sf) counter id.

(** alloc_buffer_and_copy(&sf->m, str): the old text is freed, a copy of the new one
    takes its place; NULL for NULL. *)
Definition alloc_buffer_and_copy (m : char_member) (str : option string) (sf : SF_CONNECT) : SF_CONNECT := set_member m str sf.

Lemma set_member_eq m v sf : member (set_member m v sf) m = v.
Proof. apply fn_lookup_insert. Qed.
Lemma set_member_ne m m' v sf : m' <> m -> member (set_member m v sf) m' = member sf m'.
Proof. intros Hne. by apply fn_lookup_insert_ne. Qed.

(** What a request reads of it; a NULL protocol would be passed to strlen. *)
Definition config_of (sf : SF_CONNECT) : outcome config :=
  protocol ← deref (member sf Protocol);
  Done (mk_config (member sf Account) (member sf Host) (member sf Port) protocol (member sf DirectURL) (member sf DirectURL_param)
          (member sf Direct_query_token)).

Definition clear_err (w : world) : world := mk_world (answers w) (sent w) None (token w) (master_token w).

(** ** Making a connection *)

Definition SF_AUTHENTICATOR_DEFAULT : string := "snowflake".
Definition SF_API_NAME : string := "C API".
Definition SF_API_VERSION : string := "0.2.8".
Definition SF_LOGIN_TIMEOUT : Z := 120.

Definition snowflake_init : SF_CONNECT :=
  alloc_buffer_and_copy Application_version (Some SF_API_VERSION) (alloc_buffer_and_copy Application_name (Some SF_API_NAME)
    (alloc_buffer_and_copy Authenticator (Some SF_AUTHENTICATOR_DEFAULT) (alloc_buffer_and_copy Protocol (Some "https")
      (mk_connection (fun _ => None) false false true SF_LOGIN_TIMEOUT 0 0 EmptyString)))).

(** ** Attributes *)

Inductive attribute := AText (s : string) | ABool (b : bool) | AInt64 (n : Z).
Definition as_text (v : option attribute) : outcome (option string) :=
  match v with None => Done None | Some (AText s) => Done (Some s) | _ => Undef end.
Definition as_bool (v : option attribute) : outcome bool := match v with Some (ABool b) => Done b | _ => Undef end.
Definition as_int64 (v : option attribute) : outcome Z := match v with Some (AInt64 n) => Done n | _ => Undef end.

(** The enumeration; the last constructor is any other integer. *)
Inductive SF_ATTRIBUTE :=
| SF_CON_ACCOUNT | SF_CON_REGION | SF_CON_USER | SF_CON_PASSWORD | SF_CON_DATABASE | SF_CON_SCHEMA | SF_CON_WAREHOUSE
| SF_CON_ROLE | SF_CON_HOST | SF_CON_PORT | SF_CON_PROTOCOL | SF_CON_PASSCODE | SF_CON_PASSCODE_IN_PASSWORD
| SF_CON_APPLICATION_NAME | SF_CON_APPLICATION_VERSION | SF_CON_AUTHENTICATOR | SF_CON_INSECURE_MODE | SF_CON_LOGIN_TIMEOUT
| SF_CON_NETWORK_TIMEOUT | SF_CON_TIMEZONE | SF_CON_AUTOCOMMIT | SF_DIR_QUERY_URL | SF_DIR_QUERY_URL_PARAM | SF_DIR_QUERY_TOKEN
| SF_CON_UNKNOWN.

(** The cases that copy a text. *)
Definition text_attribute (type : SF_ATTRIBUTE) : option char_member :=
  match type with
  | SF_CON_ACCOUNT => Some Account | SF_CON_REGION => Some Region | SF_CON_USER => Some User | SF_CON_PASSWORD => Some Password
  | SF_CON_DATABASE => Some Database | SF_CON_SCHEMA => Some Schema | SF_CON_WAREHOUSE => Some Warehouse | SF_CON_ROLE => Some Role
  | SF_CON_HOST => Some Host | SF_CON_PORT => Some Port | SF_CON_PROTOCOL => Some Protocol | SF_CON_PASSCODE => Some Passcode
  | SF_CON_APPLICATION_NAME => Some Application_name | SF_CON_APPLICATION_VERSION => Some Application_version
  | SF_CON_AUTHENTICATOR => Some Authenticator | SF_CON_TIMEZONE => Some Timezone
  | SF_DIR_QUERY_URL => Some DirectURL | SF_DIR_QUERY_URL_PARAM => Some DirectURL_param | SF_DIR_QUERY_TOKEN => Some Direct_query_token
  | _ => None
  end.

Definition snowflake_set_attribute (so : option SF_CONNECT) (type : SF_ATTRIBUTE) (value : option attribute) (w : world)
  : outcome (Z * option SF_CONNECT * world) :=
  match so with
  | None => Done (SF_STATUS_ERROR_CONNECTION_NOT_EXIST, None, w)
  | Some sf =>
      let w := clear_err w in
      match text_attribute type, type with
      | Some m, _ => s ← as_text value; Done (SF_STATUS_SUCCESS, Some (alloc_buffer_and_copy m s sf), w)
      | None, SF_CON_PASSCODE_IN_PASSWORD =>
          b ← as_bool value; Done (SF_STATUS_SUCCESS, Some (set_flags b (insecure_mode sf) (autocommit sf) sf), w)
      | None, SF_CON_INSECURE_MODE =>
          b ← (match value with None => Done false | _ => as_bool value end);
          Done (SF_STATUS_SUCCESS, Some (set_flags (passcode_in_password sf) b (autocommit sf) sf), w)
      | None, SF_CON_AUTOCOMMIT =>
          b ← (match value with None => Done true | _ => as_bool value end);
          Done (SF_STATUS_SUCCESS, Some (set_flags (passcode_in_password sf) (insecure_mode sf) b sf), w)
      | None, SF_CON_LOGIN_TIMEOUT =>
          n ← (match value with None => Done SF_LOGIN_TIMEOUT | _ => as_int64 value end);
          Done (SF_STATUS_SUCCESS, Some (set_timeouts n (network_timeout sf) sf), w)
      | None, SF_CON_NETWORK_TIMEOUT =>
          n ← (match value with None => Done SF_LOGIN_TIMEOUT | _ => as_int64 value end);
          Done (SF_STATUS_SUCCESS, Some (set_timeouts (login_timeout sf) n sf), w)
      | None, _ =>
          Done (SF_STATUS_ERROR_APPLICATION_ERROR, Some sf,
                set_err SF_STATUS_ERROR_BAD_ATTRIBUTE_TYPE "Invalid attribute type" SF_SQLSTATE_UNABLE_TO_CONNECT w)
      end
  end.

(** It answers nothing yet. *)
Definition snowflake_get_attribute (so : option SF_CONNECT) (type : SF_ATTRIBUTE) (value : option attribute) (w : world)
  : Z * option attribute * world :=
  match so with
  | None => (SF_STATUS_ERROR_CONNECTION_NOT_EXIST, value, w)
  | Some _ => (SF_STATUS_SUCCESS, value, clear_err w)
  end.

(** ** Checking the parameters *)

Definition ERR_MSG_ACCOUNT_PARAMETER_IS_MISSING : string := "account parameter is missing".
Definition ERR_MSG_USER_PARAMETER_IS_MISSING : string := "user parameter is missing".
Definition ERR_MSG_PASSWORD_PARAMETER_IS_MISSING : string := "password parameter is missing".
Definition ERR_MSG_CONNECTION_ALREADY_EXISTS : string := "Connection already exists.".
Definition SF_SQLSTATE_CONNECTION_ALREADY_EXIST : string := "08002".

(** snprintf into 1024 bytes. *)
Definition default_host (account : string) (region : option string) : string :=
  str_take 1023 (match region with
                 | Some r => account +:+ "." +:+ r +:+ ".snowflakecomputing.com"
                 | None => account +:+ ".snowflakecomputing.com"
                 end).

Definition with_default (m : char_member) (v : string) (sf : SF_CONNECT) : SF_CONNECT :=
  match member sf m with None => alloc_buffer_and_copy m (Some v) sf | Some _ => sf end.

(** "account.region" is taken apart at its first dot. *)
Definition split_account (sf : SF_CONNECT) : outcome SF_CONNECT :=
  a ← deref (member sf Account);
  match strchr a "."%char with
  | Some k => Done (set_member Region (Some (str_drop (S k) a)) (set_member Account (Some (str_take k a)) sf))
  | None => Done sf
  end.

Definition _snowflake_check_connection_parameters (sf : SF_CONNECT) (w : world) : outcome (Z * SF_CONNECT * world) :=
  let missing text := Done (SF_STATUS_ERROR_GENERAL, sf, set_err SF_STATUS_ERROR_BAD_CONNECTION_PARAMS text SF_SQLSTATE_UNABLE_TO_CONNECT w) in
  if is_string_empty (member sf Account) then missing ERR_MSG_ACCOUNT_PARAMETER_IS_MISSING
  else if is_string_empty (member sf User) then missing ERR_MSG_USER_PARAMETER_IS_MISSING
  else if is_string_empty (member sf Password) then missing ERR_MSG_PASSWORD_PARAMETER_IS_MISSING
  else
    a ← deref (member sf Account);
    let sf := with_default Host (default_host a (member sf Region)) sf in
    sf ← split_account sf;
    Done (SF_STATUS_SUCCESS, with_default Port "443" (with_default Protocol "https" sf), w).

(** ** Reading the server's parameters *)

Definition set_parameter (p1 : option cJSON) (sf : SF_CONNECT) : outcome SF_CONNECT :=
  name ← deref (snowflake_cJSON_GetObjectItem p1 "name");
  s ← deref (valuestring name);
  if String.eqb s "TIMEZONE" then
    value ← deref (snowflake_cJSON_GetObjectItem p1 "value");
    match member sf Timezone with
    | None => Done (alloc_buffer_and_copy Timezone (valuestring value) sf)
    | Some tz => v ← deref (valuestring value); if String.eqb tz v then Done sf else Done (alloc_buffer_and_copy Timezone (Some v) sf)
    end
  else Done sf.

Fixpoint set_parameters (parameters : option cJSON) (n : nat) (i : Z) (sf : SF_CONNECT) : outcome SF_CONNECT :=
  match n with
  | O => Done sf
  | S n => sf ← set_parameter (snowflake_cJSON_GetArrayItem parameters i) sf; set_parameters parameters n (i + 1) sf
  end.

(** database, schema and warehouse: what the application asked for must be there.  The
    message is printed into 1024 bytes. *)
Definition reset_object (do_validate : bool) (m : char_member) (what : string) (item : option cJSON) (sf : SF_CONNECT) (w : world)
  : outcome (bool * SF_CONNECT * world) :=
  item ← deref item;
  match member sf m, valuestring item with
  | Some v, None =>
      if do_validate && negb (String.eqb v EmptyString) then
        let msg := "Specified " +:+ what +:+ " doesn't exists: [" +:+ v +:+ "]" in
        if strlen msg <? 1024 then Done (false, sf, set_err SF_STATUS_ERROR_APPLICATION_ERROR msg SF_SQLSTATE_UNABLE_TO_CONNECT w) else Undef
      else Done (true, alloc_buffer_and_copy m None sf, w)
  | _, v => Done (true, alloc_buffer_and_copy m v sf, w)
  end.

Definition reset_session (session_info : option cJSON) (do_validate : bool) (sf : SF_CONNECT) (w : world) : outcome (bool * SF_CONNECT * world) :=
  let item name := snowflake_cJSON_GetObjectItem session_info name in
  '(ok, sf, w) ← reset_object do_validate Database "database" (item "databaseName") sf w;
  if negb ok then Done (false, sf, w)
  else
    '(ok, sf, w) ← reset_object do_validate Schema "schema" (item "schemaName") sf w;
    if negb ok then Done (false, sf, w)
    else
      '(ok, sf, w) ← reset_object do_validate Warehouse "warehouse" (item "warehouseName") sf w;
      if negb ok then Done (false, sf, w)
      else role ← deref (item "roleName"); Done (true, alloc_buffer_and_copy Role (valuestring role) sf, w).

Definition _reset_connection_parameters (parameters session_info : option cJSON) (do_validate : bool) (sf : SF_CONNECT) (w : world)
  : outcome (Z * SF_CONNECT * world) :=
  sf ← (match parameters with
        | Some _ => set_parameters parameters (Z.to_nat (snowflake_cJSON_GetArraySize parameters)) 0 sf
        | None => Done sf
        end);
  match session_info with
  | None => Done (SF_STATUS_SUCCESS, sf, w)
  | Some _ =>
      '(ok, sf, w) ← reset_session session_info do_validate sf w;
      Done (if (ok : bool) then SF_STATUS_SUCCESS else SF_STATUS_ERROR_GENERAL, sf, w)
  end.

Definition _set_parameters_session_info (data : option cJSON) (sf : SF_CONNECT) (w : world) : outcome (Z * SF_CONNECT * world) :=
  _reset_connection_parameters (snowflake_cJSON_GetObjectItem data "parameters") (snowflake_cJSON_GetObjectItem data "sessionInfo") true sf w.

(** Missing members of the answer leave the old text. *)
Definition set_current (m : char_member) (item : string) (data : option cJSON) (sf : SF_CONNECT) : outcome SF_CONNECT :=
  '(_, v) ← json_copy_string (member sf m) data item; Done (set_member m v sf).
Definition _set_current_objects (data : option cJSON) (sf : SF_CONNECT) : outcome SF_CONNECT :=
  sf ← set_current Database "finalDatabaseName" data sf;
  sf ← set_current Schema "finalSchemaName" data sf;
  sf ← set_current Warehouse "finalWarehouseName" data sf;
  set_current Role "finalRoleName" data sf.

(** ** Logging in and out *)

Definition SESSION_URL : string := "/session/v1/login-request".
Definition DELETE_SESSION_URL : string := "/session".

Section Connect.
  Context (ph : internal_hooks) (CA_BUNDLE_FILE : option string) (curl_easy_escape : string -> string)
    (curl_easy_init : nat -> bool) (uuid4_generate : nat -> string) (os_name os_version : string).

Definition send (fuel : nat) (sf : config) (url : string) (vars : list URL_KEY_VALUE) (body : option string) (w : world)
  : outcome (bool * option cJSON * world) :=
  request ph CA_BUNDLE_FILE curl_easy_escape curl_easy_init uuid4_generate sf fuel None url vars body None POST_REQUEST_TYPE false w.

Definition login_vars (sf : SF_CONNECT) : list URL_KEY_VALUE :=
  [mk_var "request_id=" (Some (c_request_id sf)); mk_var "databaseName=" (member sf Database); mk_var "schemaName=" (member sf Schema);
   mk_var "warehouse=" (member sf Warehouse); mk_var "roleName=" (member sf Role)].

(** [application_name] is passed twice. *)
Definition login_body (sf : SF_CONNECT) (conf : config) : outcome (option string) :=
  match create_auth_json_body ph conf (member sf User) (member sf Password) (member sf Application_name) (member sf Application_name)
          (member sf Application_version) (member sf Timezone) (autocommit sf) os_name os_version with
  | Some body => snowflake_cJSON_Print ph body
  | None => Done None
  end.

(** The server refused: its message and its code, -1 without one. *)
Definition refused (resp : option cJSON) (w : world) : outcome world :=
  let message := snowflake_cJSON_GetObjectItem resp "message" ≫= valuestring in
  code ← (match snowflake_cJSON_GetObjectItem resp "code" with
          | None => Done (-1)
          | Some j => s ← deref (valuestring j); Done (i32 (st_val (strtoll s)))
          end);
  Done (set_err code (default "Query was not successful" message) SF_SQLSTATE_UNABLE_TO_CONNECT w).

(** From the answer on. *)
Definition logged_in (sf : SF_CONNECT) (resp : option cJSON) (w : world) : outcome (Z * SF_CONNECT * world) :=
  let '(json_error, success) := json_copy_bool false resp "success" in
  if bool_decide (json_error <> SF_JSON_ERROR_NONE) then
    Done (SF_STATUS_ERROR_GENERAL, sf, set_err SF_STATUS_ERROR_BAD_JSON "No valid JSON response" SF_SQLSTATE_UNABLE_TO_CONNECT w)
  else if negb success then w ← refused resp w; Done (SF_STATUS_ERROR_GENERAL, sf, w)
  else
    let data := snowflake_cJSON_GetObjectItem resp "data" in
    '(ok, w) ← set_tokens data "token" "masterToken" w;
    if negb ok then Done (SF_STATUS_ERROR_GENERAL, sf, w) else _set_parameters_session_info data sf w.

Definition log_in (fuel : nat) (sf : SF_CONNECT) (w : world) : outcome (Z * SF_CONNECT * world) :=
  '(ret, sf, w) ← _snowflake_check_connection_parameters sf w;
  if negb (ret =? SF_STATUS_SUCCESS) then Done (ret, sf, w)
  else
    let sf := set_request (c_sequence_counter sf) (uuid4_generate (length (sent w))) sf in
    conf ← config_of sf;
    s_body ← login_body sf conf;
    '(ok, resp, w) ← send fuel conf SESSION_URL (login_vars sf) s_body w;
    if (ok : bool) then logged_in sf resp w
    else Done (SF_STATUS_ERROR_GENERAL, sf,
           match err w with
           | None => set_err SF_STATUS_ERROR_BAD_JSON "No valid JSON response" SF_SQLSTATE_UNABLE_TO_CONNECT w
           | Some e => if e_code e =? SF_STATUS_SUCCESS
                       then set_err SF_STATUS_ERROR_BAD_JSON "No valid JSON response" SF_SQLSTATE_UNABLE_TO_CONNECT w else w
           end).

Definition wipe (sf : SF_CONNECT) : SF_CONNECT := set_member Passcode None (set_member Password None sf).

Definition snowflake_connect (fuel : nat) (so : option SF_CONNECT) (w : world) : outcome (Z * option SF_CONNECT * world) :=
  match so with
  | None => Done (SF_STATUS_ERROR_CONNECTION_NOT_EXIST, None, w)
  | Some sf =>
      match token w, master_token w with
      | None, None =>
          let w := clear_err w in
          if negb (is_string_empty (member sf DirectURL)) then
            Done (if is_string_empty (member sf DirectURL_param) || is_string_empty (member sf Direct_query_token)
                  then SF_STATUS_ERROR_BAD_CONNECTION_PARAMS else SF_STATUS_SUCCESS, Some sf, w)
          else '(ret, sf, w) ← log_in fuel sf w; Done (ret, Some (wipe sf), w)
      | _, _ =>
          Done (SF_STATUS_ERROR_GENERAL, Some sf,
            set_err SF_STATUS_ERROR_APPLICATION_ERROR ERR_MSG_CONNECTION_ALREADY_EXISTS SF_SQLSTATE_CONNECTION_ALREADY_EXIST w)
      end
  end.

(** The session is deleted when there is one; whatever comes of it, everything is freed. *)
Definition snowflake_term (fuel : nat) (so : option SF_CONNECT) (w : world) : outcome (Z * option SF_CONNECT * world) :=
  match so with
  | None => Done (SF_STATUS_ERROR_CONNECTION_NOT_EXIST, None, w)
  | Some sf =>
      let w := clear_err w in
      w ← (match token w, master_token w return outcome world with
           | Some _, Some _ =>
               conf ← config_of sf;
               '(_, _, w) ← send fuel conf DELETE_SESSION_URL [mk_var "delete=" (Some "true")] None w; Done w
           | _, _ => Done w
           end);
      Done (SF_STATUS_SUCCESS, None, mk_world (answers w) (sent w) None None None)
  end.
End Connect.

(** ** What connecting promises *)

Definition established (w : world) : Prop := token w <> None /\ master_token w <> None.

Lemma reset_object_err v m what item sf w ok sf' w' : reset_object v m what item sf w = Done (ok, sf', w') ->
  token w' = token w /\ master_token w' = master_token w /\ (ok = false -> err w' <> None).
Proof. unfold reset_object. intros E. destruct item as [i|]; [|done]. cbn [deref] in E. rewrite bind_Done_l in E. repeat case_match; by simplify_eq. Qed.

Lemma reset_session_err si v sf w ok sf' w' : reset_session si v sf w = Done (ok, sf', w') ->
  token w' = token w /\ master_token w' = master_token w /\ (ok = false -> err w' <> None).
Proof.
  unfold reset_session. intros E. apply bind_Done in E as ([[ok1 sf1] w1] & (Ht1 & Hm1 & He1)%reset_object_err & E). cbv beta iota in E.
  destruct ok1; cbn [negb] in E; [|by injection E as <- <- <-]. apply bind_Done in E as ([[ok2 sf2] w2] & (Ht2 & Hm2 & He2)%reset_object_err & E).
  cbv beta iota in E. destruct ok2; cbn [negb] in E; [|injection E as <- <- <-; split_and!; try congruence; by auto].
  apply bind_Done in E as ([[ok3 sf3] w3] & (Ht3 & Hm3 & He3)%reset_object_err & E). cbv beta iota in E.
  destruct ok3; cbn [negb] in E; [|injection E as <- <- <-; split_and!; try congruence; by auto].
  apply bind_Done in E as (role & _ & E). injection E as <- <- <-. split_and!; congruence.
Qed.

Lemma parameters_err data sf w r sf' w' : _set_parameters_session_info data sf w = Done (r, sf', w') ->
  token w' = token w /\ master_token w' = master_token w /\ (r <> SF_STATUS_SUCCESS -> err w' <> None).
Proof.
  unfold _set_parameters_session_info, _reset_connection_parameters. intros E. apply bind_Done in E as (sf1 & _ & E).
  destruct (snowflake_cJSON_GetObjectItem data "sessionInfo"); [|by injection E as <- <- <-].
  apply bind_Done in E as ([[ok sf2] w2] & (Ht & Hm & He)%reset_session_err & E). cbv beta iota in E. injection E as <- <- <-.
  split_and!; [done|done|]. destruct ok; [done|auto].
Qed.

Lemma copied_text dest data item v : json_copy_string dest data item = Done (SF_JSON_ERROR_NONE, v) -> v <> None.
Proof.
  unfold json_copy_string. destruct (json_classify _ _); try done. intros E. apply bind_Done in E as (j & _ & E). apply bind_Done in E as (s & _ & E).
  by injection E as <-.
Qed.

Lemma set_tokens_err data a b w ok w' : set_tokens data a b w = Done (ok, w') -> if ok then established w' else err w' <> None.
Proof.
  unfold set_tokens. intros E. apply bind_Done in E as ([e1 t] & E1 & E). cbv beta iota in E. case_bool_decide as H1; [by injection E as <- <-|].
  apply bind_Done in E as ([e2 m] & E2 & E). cbv beta iota in E. case_bool_decide as H2; [by injection E as <- <-|]. injection E as <- <-.
  destruct (decide (e1 = SF_JSON_ERROR_NONE)) as [->|?]; [|done]. destruct (decide (e2 = SF_JSON_ERROR_NONE)) as [->|?]; [|done].
  split; cbn; by eapply copied_text.
Qed.

Section Contract.
  Context (ph : internal_hooks) (CA_BUNDLE_FILE : option string) (curl_easy_escape : string -> string)
    (curl_easy_init : nat -> bool) (uuid4_generate : nat -> string) (os_name os_version : string).
  Abbreviation connect := (snowflake_connect ph CA_BUNDLE_FILE curl_easy_escape curl_easy_init uuid4_generate os_name os_version).

Lemma logged_in_err sf resp w r sf' w' : logged_in sf resp w = Done (r, sf', w') ->
  (r = SF_STATUS_SUCCESS -> established w') /\ (r <> SF_STATUS_SUCCESS -> err w' <> None).
Proof.
  unfold logged_in. intros E. destruct (json_copy_bool false resp "success") as [je ok]. case_bool_decide; [by injection E as <- <- <-|].
  destruct ok; cbn [negb] in E.
  - apply bind_Done in E as ([tok w1] & Ht%set_tokens_err & E). cbv beta iota in E. destruct tok; cbn [negb] in E; [|by injection E as <- <- <-].
    apply parameters_err in E as (E1 & E2 & E3). split; [|done]. intros _. unfold established in *. by rewrite E1, E2.
  - apply bind_Done in E as (w1 & Hr & E). injection E as <- <- <-. unfold refused in Hr. apply bind_Done in Hr as (code & _ & Hr).
    by injection Hr as <-.
Qed.

Lemma log_in_err fuel sf w r sf' w' : log_in ph CA_BUNDLE_FILE curl_easy_escape curl_easy_init uuid4_generate os_name os_version fuel sf w = Done (r, sf', w') ->
  (r = SF_STATUS_SUCCESS -> established w') /\ (r <> SF_STATUS_SUCCESS -> err w' <> None).
Proof.
  unfold log_in. intros E. apply bind_Done in E as ([[ret sf1] w1] & Hc & E). cbv beta iota in E.
  destruct (ret =? SF_STATUS_SUCCESS) eqn:Er; cbn [negb] in E.
  - cbv zeta in E. apply bind_Done in E as (conf & _ & E). apply bind_Done in E as (body & _ & E). apply bind_Done in E as ([[ok resp] w2] & _ & E).
    cbv beta iota in E. destruct ok; [by apply logged_in_err in E|]. injection E as <- <- <-. split; [done|]. intros _. repeat case_match; cbn; congruence.
  - injection E as <- <- <-. unfold _snowflake_check_connection_parameters in Hc. cbv zeta in Hc.
    destruct (is_string_empty (member sf Account)); [by injection Hc as <- <- <-|]. destruct (is_string_empty (member sf User)); [by injection Hc as <- <- <-|].
    destruct (is_string_empty (member sf Password)); [by injection Hc as <- <- <-|].
    apply bind_Done in Hc as (a & _ & Hc). apply bind_Done in Hc as (sf2 & _ & Hc). by injection Hc as <- <- <-.
Qed.

End Contract.

(** ** Checking the parameters: the connection it leaves *)

(** The first parameter that is missing. *)
Definition missing_parameter (sf : SF_CONNECT) : option string :=
  if is_string_empty (member sf Account) then Some ERR_MSG_ACCOUNT_PARAMETER_IS_MISSING
  else if is_string_empty (member sf User) then Some ERR_MSG_USER_PARAMETER_IS_MISSING
  else if is_string_empty (member sf Password) then Some ERR_MSG_PASSWORD_PARAMETER_IS_MISSING
  else None.

(** The members after a check of a connection with the account [a]. *)
Definition checked_member (sf : SF_CONNECT) (a : string) (m : char_member) : option string :=
  match m with
  | Account => Some (match strchr a "."%char with Some k => str_take k a | None => a end)
  | Region => match strchr a "."%char with Some k => Some (str_drop (S k) a) | None => member sf Region end
  | Host => Some (default (default_host a (member sf Region)) (member sf Host))
  | Protocol => Some (default "https" (member sf Protocol))
  | Port => Some (default "443" (member sf Port))
  | _ => member sf m
  end.

Lemma with_default_member m v sf m' :
  member (with_default m v sf) m' = if decide (m = m') then Some (default v (member sf m)) else member sf m'.
Proof.
  unfold with_default. destruct (member sf m) as [x|] eqn:E; cbn [member alloc_buffer_and_copy set_member default].
  - case_decide; [by subst|done].
  - unfold alloc_buffer_and_copy, set_member. cbn [member]. unfold insert, fn_insert. by repeat case_decide.
Qed.

Lemma check_ok sf w a : member sf Account = Some a -> missing_parameter sf = None ->
  exists sf', _snowflake_check_connection_parameters sf w = Done (SF_STATUS_SUCCESS, sf', w) /\ forall m, member sf' m = checked_member sf a m.
Proof.
  intros Ha Hm. unfold _snowflake_check_connection_parameters, missing_parameter in *. cbv zeta. rewrite Ha in *.
  destruct (is_string_empty (Some a)); [done|]. destruct (is_string_empty (member sf User)); [done|]. destruct (is_string_empty (member sf Password)); [done|].
  cbn [deref]. rewrite bind_Done_l. unfold split_account. rewrite with_default_member. cbn [decide]. rewrite decide_False by done. rewrite Ha. cbn [deref].
  rewrite bind_Done_l. assert (forall (s0 : SF_CONNECT), member s0 Port = member sf Port -> member s0 Protocol = member sf Protocol ->
    (forall m, m <> Port -> m <> Protocol -> member s0 m = checked_member sf a m) ->
    forall m, member (with_default Port "443" (with_default Protocol "https" s0)) m = checked_member sf a m) as Hfin.
  { intros s0 Hp1 Hp2 Hm0 m. rewrite !with_default_member. repeat case_decide; subst; try done; cbn; rewrite ?Hp1, ?Hp2; try done. by apply Hm0. }
  destruct (strchr a "."%char) as [k|] eqn:Ek; rewrite bind_Done_l; (eexists; split; [done|]); apply Hfin;
    unfold set_member; cbn [member]; unfold insert, fn_insert; rewrite ?with_default_member; repeat case_decide; try done;
    intros m H1 H2; rewrite ?with_default_member; repeat case_decide; subst; try done; unfold checked_member; rewrite Ek; try done;
    by destruct m.
Qed.

Lemma before_dot a k : strchr a "."%char = Some k -> strchr (str_take k a) "."%char = None.
Proof.
  revert k. induction a as [|c a IH]; intros k E; cbn in E; [done|]. destruct (Ascii.eqb c ".") eqn:Ec; [by injection E as <-|].
  destruct (strchr a "."%char) as [j|]; [|done]. injection E as <-. cbn. rewrite Ec. by rewrite IH.
Qed.

(** Checking a connection names the first parameter that is missing and changes
    nothing, or it completes the connection: a host made of account and region, the
    account cut at its first dot with the region behind it, https and port 443 where
    nothing is given; what was given stays.  Checking again changes nothing more. *)
Theorem check_parameters_correct sf w :
  match missing_parameter sf with
  | Some text =>
      _snowflake_check_connection_parameters sf w =
        Done (SF_STATUS_ERROR_GENERAL, sf, set_err SF_STATUS_ERROR_BAD_CONNECTION_PARAMS text SF_SQLSTATE_UNABLE_TO_CONNECT w)
  | None =>
      exists a sf', member sf Account = Some a /\ _snowflake_check_connection_parameters sf w = Done (SF_STATUS_SUCCESS, sf', w) /\
        (forall m, member sf' m = checked_member sf a m) /\
        (strchr a "."%char <> Some O -> exists sf'', _snowflake_check_connection_parameters sf' w = Done (SF_STATUS_SUCCESS, sf'', w) /\
           forall m, member sf'' m = member sf' m)
  end.
Proof.
  destruct (missing_parameter sf) as [text|] eqn:Em.
  - unfold _snowflake_check_connection_parameters, missing_parameter in *. repeat case_match; by simplify_eq.
  - assert (exists a, member sf Account = Some a /\ a <> EmptyString) as (a & Ha & Hne).
    { unfold missing_parameter in Em. destruct (member sf Account) as [[|c a]|]; try done. by eexists. }
    destruct (check_ok sf w a Ha Em) as (sf' & E & Hm). exists a, sf'. split_and!; [done|done|done|]. intros Hdot.
    set (a' := match strchr a "."%char with Some k => str_take k a | None => a end).
    assert (member sf' Account = Some a') as Ha' by apply (Hm Account).
    assert (strchr a' "."%char = None) as Hn by (unfold a'; destruct (strchr a "."%char) eqn:Ek; [by eapply before_dot|done]).
    assert (missing_parameter sf' = None) as Em'.
    { unfold missing_parameter in *. rewrite Ha', !Hm. cbn [checked_member]. rewrite Ha in Em. cbn [is_string_empty] in *.
      assert (String.eqb a' "" = false) as ->; [|by destruct (String.eqb a ""); [done|]].
      apply String.eqb_neq. unfold a'. destruct (strchr a "."%char) as [[|k]|]; [done| |done]. by destruct a. }
    destruct (check_ok sf' w a' Ha' Em') as (sf'' & E' & Hm'). exists sf''. split; [done|]. intros m. rewrite Hm'.
    destruct m; cbn [checked_member]; rewrite ?Hn, ?Ha'; try done; by rewrite !Hm.
Qed.

(** ** A login *)

Definition dquoted (s : string) : string := String (chr 34) (s +:+ String (chr 34) EmptyString).
Definition login_answer (data : string) : attempt :=
  mk_attempt (Some no_guid) true (Response 200 [String.list_ascii_of_string
    ("{" +:+ dquoted "data" +:+ ":{" +:+ dquoted "token" +:+ ":" +:+ dquoted "T1" +:+ "," +:+ dquoted "masterToken" +:+ ":" +:+ dquoted "M1" +:+ data
     +:+ "}," +:+ dquoted "code" +:+ ":null," +:+ dquoted "success" +:+ ":true}")]).
Definition named_object (name value : string) : string := dquoted name +:+ ":" +:+ value.
Definition session_info (db : string) : string :=
  "," +:+ named_object "sessionInfo" ("{" +:+ named_object "databaseName" db +:+ "," +:+ named_object "schemaName" "null" +:+ ","
    +:+ named_object "warehouseName" "null" +:+ "," +:+ named_object "roleName" (dquoted "R") +:+ "}").
Definition applicant : SF_CONNECT :=
  set_member Database (Some "DB") (set_member Password (Some "pw") (set_member User (Some "u") (set_member Account (Some "acct.eu") snowflake_init))).
Definition log_in_with (data : string) : outcome (Z * option SF_CONNECT * world) :=
  snowflake_connect copy_hooks None (fun s => s) (fun _ => true) (fun _ => no_guid) "Linux" "4" 3 (Some applicant)
    (mk_world [login_answer data] [] None None None).

(** The server knows the database: the connection has its names and its tokens. *)
Example login_succeeds :
  exists sf w, log_in_with (session_info (dquoted "DB")) = Done (SF_STATUS_SUCCESS, Some sf, w) /\
    map (member sf) [Account; Region; Host; Database; Schema; Role; Password] =
      [Some "acct"; Some "eu"; Some "acct.eu.snowflakecomputing.com"; Some "DB"; None; Some "R"; None] /\
    (token w, master_token w) = (Some "T1", Some "M1") /\ length (sent w) = 1%nat.
Proof. eexists _, _. split; [vm_compute; reflexivity|]. split_and!; vm_compute; reflexivity. Qed.

(** It does not: the login fails, but its tokens stay, and connecting again is refused. *)
Example failed_login_keeps_tokens :
  exists sf w, log_in_with (session_info "null") = Done (SF_STATUS_ERROR_GENERAL, Some sf, w) /\
    err w = Some (mk_err SF_STATUS_ERROR_APPLICATION_ERROR "Specified database doesn't exists: [DB]" SF_SQLSTATE_UNABLE_TO_CONNECT) /\
    token w = Some "T1" /\
    exists w', snowflake_connect copy_hooks None (fun s => s) (fun _ => true) (fun _ => no_guid) "Linux" "4" 3 (Some sf) w =
      Done (SF_STATUS_ERROR_GENERAL, Some sf, w').
Proof.
  eexists _, _. split; [vm_compute; reflexivity|]. split; [vm_compute; reflexivity|]. split; [vm_compute; reflexivity|].
  eexists. reflexivity.
Qed.

(** An answer without the names is a NULL dereference. *)
Example login_without_names : log_in_with ("," +:+ named_object "sessionInfo" "{}") = Undef.
Proof. vm_compute. reflexivity. Qed.

