(* ===== verification/ConnectTotal.v ===== *)
(** * Connecting always comes to a result

    snowflake_connect over any network: the parameters are checked, the login body is
    printed, the request ends (SessionTotal), and its answer is read; reading it fails
    only where the code dereferences what the server left out ([readable]). *)

From S2P Require Import Prelude CLib CFloat Status CJson CJsonPrint CJsonParse CJsonType JsonHelpers Url Http Session SessionTotal Connect.

(** ** Printing what AddItemToObject builds *)

Lemma const_flag_kept t : Z.land (clear_flag cJSON_StringIsConst (Z.lor t cJSON_StringIsConst)) 255 = Z.land t 255.
Proof.
  unfold clear_flag. apply Z.bits_inj'. intros n Hn. rewrite !Z.land_spec, Z.ldiff_spec, Z.lor_spec. change cJSON_StringIsConst with (2 ^ 9). change 255 with (Z.ones 8).
  destruct (decide (n = 9)) as [->|Hne]; [rewrite Z.ones_spec_high by lia; by rewrite !andb_false_r|].
  rewrite (Z.pow2_bits_false 9 n) by lia. by rewrite orb_false_r, andb_true_r.
Qed.

Lemma add_item_tree hooks name o it : no_nul name = true -> c_tree_opt o -> c_tree_opt it ->
  c_tree_opt (snowflake_cJSON_AddItemToObject hooks o (Some name) it).
Proof.
  intros Hn Ho Hit. unfold snowflake_cJSON_AddItemToObject, cJSON_strdup. destruct it as [it|]; [|done].
  destruct (hooks (strlen name + 1)); [|done]. destruct o as [j|]; [|done].
  destruct it as [t vs vi vd k ch]. unfold snowflake_cJSON_AddItemToObjectCS, snowflake_cJSON_AddItemToArray. cbn [child set_child].
  rewrite last_snoc, removelast_last. destruct j as [t' vs' vi' vd' k' ch']. unfold set_child, set_type, set_key.
  cbn [c_tree_opt c_tree valuestring CJson.type key child valueint valuedouble] in *.
  apply andb_prop in Ho as [Ho Hch']. apply andb_prop in Hit as [Hit Hch]. apply andb_prop in Hit as [Hvs _].
  rewrite Ho, forallb_app, Hch'. cbn [forallb c_tree valuestring CJson.type key child andb]. rewrite const_flag_kept, Hn, Hch, Hvs. done.
Qed.

Lemma add_text_tree ph name v o : no_nul name = true -> plain v -> c_tree_opt o -> c_tree_opt (add_string ph name v o).
Proof.
  intros Hn Hv Ho. apply add_item_tree; [done|done|]. unfold snowflake_cJSON_CreateString, create_string_of_type, cJSON_New_Item.
  destruct (allocate ph sizeof_cJSON); [|done]. unfold cJSON_strdup. destruct v as [v|]; [|done]. destruct (allocate ph (strlen v + 1)); [|done].
  cbn in *. by rewrite Hv.
Qed.

Lemma object_tree hooks : c_tree_opt (snowflake_cJSON_CreateObject hooks).
Proof. unfold snowflake_cJSON_CreateObject, cJSON_New_Item. by destruct (hooks sizeof_cJSON). Qed.

Lemma print_total ph o : c_tree_opt o -> exists r, (match o with Some b => snowflake_cJSON_Print ph b | None => Done None end) = Done r.
Proof. destruct o as [b|]; [|by eexists]. intros Hc. destruct (print_ok ph b true Hc) as (r & E & _). by exists r. Qed.

(** ** What the code needs of an answer *)

Definition has_text (j : option cJSON) : bool := match j with Some j => match valuestring j with Some _ => true | None => false end | None => false end.
Definition readable_parameter (p : cJSON) : bool :=
  has_text (snowflake_cJSON_GetObjectItem (Some p) "name") && has_text (snowflake_cJSON_GetObjectItem (Some p) "value").
Definition readable_info (si : option cJSON) : bool :=
  match si with
  | None => true
  | Some _ => forallb (snowflake_cJSON_HasObjectItem si) ["databaseName"; "schemaName"; "warehouseName"; "roleName"]
  end.
Definition readable_parameters (data : option cJSON) : bool :=
  match snowflake_cJSON_GetObjectItem data "parameters" with Some ps => forallb readable_parameter (child ps) | None => true end.
(** A code, if there is one, is a text. *)
Definition readable_code (resp : option cJSON) : bool :=
  match snowflake_cJSON_GetObjectItem resp "code" with Some c => has_text (Some c) | None => true end.
(** A refusal has a readable code; in an acceptance the parameters have names and values
    and the session's names are there. *)
Definition readable (resp : option cJSON) : bool :=
  let data := snowflake_cJSON_GetObjectItem resp "data" in
  if snd (json_copy_bool false resp "success")
  then readable_parameters data && readable_info (snowflake_cJSON_GetObjectItem data "sessionInfo")
  else readable_code resp.

Lemma set_parameters_total ps n : forall i sf, (forall k, (k < n)%nat -> exists p, snowflake_cJSON_GetArrayItem ps (i + Z.of_nat k) = Some p /\ readable_parameter p = true) ->
  exists sf', set_parameters ps n i sf = Done sf' /\ forall m, m <> Timezone -> member sf' m = member sf m.
Proof.
  induction n as [|n IH]; intros i sf Hps; cbn [set_parameters]; [by exists sf|].
  destruct (Hps O ltac:(lia)) as (p & Hp & Hr). rewrite Z.add_0_r in Hp. rewrite Hp.
  assert (exists sf1, set_parameter (Some p) sf = Done sf1 /\ forall m, m <> Timezone -> member sf1 m = member sf m) as (sf1 & -> & Hk).
  { unfold set_parameter, readable_parameter, has_text in *. apply andb_prop in Hr as [Hn Hv].
    destruct (snowflake_cJSON_GetObjectItem (Some p) "name") as [nm|]; [|done]. destruct (valuestring nm) as [s|] eqn:En; [|done].
    destruct (snowflake_cJSON_GetObjectItem (Some p) "value") as [v|]; [|done]. destruct (valuestring v) as [t|] eqn:Ev; [|done].
    cbn [deref]. rewrite bind_Done_l, En. cbn [deref]. rewrite bind_Done_l. assert (forall x m, m <> Timezone -> member (alloc_buffer_and_copy Timezone x sf) m = member sf m) as Hal.
    { intros x m Hm. by apply set_member_ne. }
    destruct (String.eqb s "TIMEZONE"); [|by exists sf]. rewrite bind_Done_l, Ev. cbn [deref].
    destruct (member sf Timezone) as [tz|]; rewrite ?bind_Done_l.
    - destruct (String.eqb tz t); [by exists sf|]. eexists. split; [done|]. apply Hal.
    - eexists. split; [done|]. apply Hal. }
  rewrite bind_Done_l. destruct (IH (i + 1) sf1) as (sf2 & -> & Hk2).
  - intros k Hlt. destruct (Hps (S k) ltac:(lia)) as (p' & Hp' & Hr'). exists p'. split; [|done].
    by replace (i + 1 + Z.of_nat k) with (i + Z.of_nat (S k)) by lia.
  - exists sf2. split; [done|]. intros m Hm. rewrite Hk2 by done. by apply Hk.
Qed.

(** The names the application asks for fit the message of 1024 bytes. *)
Definition names_fit (sf : SF_CONNECT) : Prop :=
  forall m v, m = Database \/ m = Schema \/ m = Warehouse -> member sf m = Some v -> strlen v < 980.

Lemma reset_object_total v m what item sf w :
  item <> None -> (forall x, member sf m = Some x -> strlen x < 980) -> strlen what <= 10 ->
  exists ok sf' w', reset_object v m what item sf w = Done (ok, sf', w') /\ forall m', m' <> m -> member sf' m' = member sf m'.
Proof.
  intros Hi Hf Hw. destruct item as [it|]; [|done]. unfold reset_object. cbn [deref]. rewrite bind_Done_l.
  assert (forall x m', m' <> m -> member (alloc_buffer_and_copy m x sf) m' = member sf m') as Hal.
  { intros x m' Hm. by apply set_member_ne. }
  destruct (member sf m) as [x|] eqn:Em; [|do 3 eexists; split; [done|apply Hal]]. destruct (valuestring it); [do 3 eexists; split; [done|apply Hal]|].
  destruct (v && negb (String.eqb x "")); [|do 3 eexists; split; [done|apply Hal]].
  rewrite (proj2 (Z.ltb_lt _ _)); [by do 3 eexists|]. specialize (Hf x eq_refl). rewrite !strlen_app.
  change (strlen "Specified ") with 10. change (strlen " doesn't exists: [") with 18. change (strlen "]") with 1. lia.
Qed.

Lemma item_there si name : snowflake_cJSON_HasObjectItem si name = true -> snowflake_cJSON_GetObjectItem si name <> None.
Proof. unfold snowflake_cJSON_HasObjectItem. by destruct (snowflake_cJSON_GetObjectItem si name). Qed.

Lemma reset_session_total si v sf w : readable_info (Some si) = true -> names_fit sf ->
  exists ok sf' w', reset_session (Some si) v sf w = Done (ok, sf', w').
Proof.
  intros Hr Hf. unfold readable_info in Hr. cbn [forallb] in Hr. repeat (apply andb_prop in Hr as [?Hi%item_there Hr]). unfold reset_session.
  destruct (reset_object_total v Database "database" _ sf w Hi (fun x => Hf Database x (or_introl eq_refl))) as (ok1 & sf1 & w1 & -> & Hk1); [done|].
  rewrite bind_Done_l. cbv beta iota. destruct ok1; [|by do 3 eexists]. cbn [negb].
  destruct (reset_object_total v Schema "schema" _ sf1 w1 Hi0) as (ok2 & sf2 & w2 & -> & Hk2);
    [intros x; rewrite Hk1 by done; apply Hf; auto|done|]. rewrite bind_Done_l. cbv beta iota. destruct ok2; [|by do 3 eexists]. cbn [negb].
  destruct (reset_object_total v Warehouse "warehouse" _ sf2 w2 Hi1) as (ok3 & sf3 & w3 & -> & Hk3);
    [intros x; rewrite Hk2, Hk1 by done; apply Hf; auto|done|]. rewrite bind_Done_l. cbv beta iota. destruct ok3; [|by do 3 eexists]. cbn [negb].
  destruct (snowflake_cJSON_GetObjectItem (Some si) "roleName"); [|done]. cbn [deref]. rewrite bind_Done_l. by do 3 eexists.
Qed.

Lemma array_items ps k : (k < Z.to_nat (snowflake_cJSON_GetArraySize (Some ps)))%nat ->
  exists p, snowflake_cJSON_GetArrayItem (Some ps) (0 + Z.of_nat k) = Some p /\ In p (child ps).
Proof.
  intros Hk. unfold snowflake_cJSON_GetArraySize, snowflake_cJSON_GetArrayItem, get_array_item in *.
  assert (i32 (Z.of_nat (length (child ps))) <= Z.of_nat (length (child ps))) as Hw.
  { unfold wrapS. pose proof (Z.mod_le (Z.of_nat (length (child ps)) + 2 ^ (32 - 1)) (2 ^ 32)). lia. }
  destruct (0 + Z.of_nat k <? 0) eqn:E; [lia|]. rewrite Z.add_0_l, Nat2Z.id.
  destruct (lookup_lt_is_Some_2 (child ps) k ltac:(lia)) as [p Hp]. exists p. split; [done|]. apply list_elem_of_In. by eapply list_elem_of_lookup_2.
Qed.

Lemma parameters_total data sf w : readable_info (snowflake_cJSON_GetObjectItem data "sessionInfo") = true ->
  readable_parameters data = true -> names_fit sf -> exists r sf' w', _set_parameters_session_info data sf w = Done (r, sf', w').
Proof.
  intros Hi Hp Hf. unfold _set_parameters_session_info, _reset_connection_parameters, readable_parameters in *.
  assert (exists sf1, match snowflake_cJSON_GetObjectItem data "parameters" with
    | Some _ => set_parameters (snowflake_cJSON_GetObjectItem data "parameters") (Z.to_nat (snowflake_cJSON_GetArraySize (snowflake_cJSON_GetObjectItem data "parameters"))) 0 sf
    | None => Done sf end = Done sf1 /\ names_fit sf1) as (sf1 & -> & Hf1).
  { destruct (snowflake_cJSON_GetObjectItem data "parameters") as [ps|]; [|by exists sf].
    destruct (set_parameters_total (Some ps) (Z.to_nat (snowflake_cJSON_GetArraySize (Some ps))) 0 sf) as (sf1 & -> & Hk).
    - intros k Hk. destruct (array_items ps k Hk) as (p & Hg & Hin). exists p. split; [done|]. rewrite forallb_forall in Hp. by apply Hp.
    - exists sf1. split; [done|]. intros m v Hm. rewrite Hk by (by destruct Hm as [->|[->| ->]]). by apply Hf. }
  rewrite bind_Done_l. destruct (snowflake_cJSON_GetObjectItem data "sessionInfo") as [si|]; [|by do 3 eexists].
  destruct (reset_session_total si true sf1 w Hi Hf1) as (ok & sf2 & w2 & ->). rewrite bind_Done_l. cbv beta iota. by do 3 eexists.
Qed.

Lemma tokens_total data a b w : parsed data -> exists ok w', set_tokens data a b w = Done (ok, w').
Proof.
  intros Hd. unfold set_tokens. destruct (copy_string_total (token w) data a Hd) as (e & t & -> & _). rewrite bind_Done_l. cbv beta iota.
  case_bool_decide; [by do 2 eexists|]. destruct (copy_string_total (master_token (set_token t w)) data b Hd) as (e' & m & -> & _). rewrite bind_Done_l. cbv beta iota.
  case_bool_decide; by do 2 eexists.
Qed.

Lemma data_parsed resp : parsed resp -> parsed (snowflake_cJSON_GetObjectItem resp "data").
Proof. intros Hp. destruct (snowflake_cJSON_GetObjectItem resp "data") as [d|] eqn:Ed; [by eapply item_parsed|done]. Qed.

Lemma read_code_text resp : readable_code resp = true ->
  exists n, (match snowflake_cJSON_GetObjectItem resp "code" with
             | None => Done (-1)
             | Some j => s ← deref (valuestring j); Done (i32 (st_val (strtoll s)))
             end) = Done n.
Proof.
  unfold readable_code, has_text. destruct (snowflake_cJSON_GetObjectItem resp "code") as [c|]; [|by eexists].
  destruct (valuestring c); [|done]. cbn [deref]. rewrite bind_Done_l. by eexists.
Qed.

Lemma logged_in_total sf resp w : parsed resp -> readable resp = true -> names_fit sf -> exists r sf' w', logged_in sf resp w = Done (r, sf', w').
Proof.
  intros Hp Hr Hf. unfold readable in Hr. cbv zeta in Hr. unfold logged_in.
  destruct (json_copy_bool false resp "success") as [e ok]. cbn [snd] in Hr. case_bool_decide; [by do 3 eexists|]. destruct ok; cbn [negb]; cbv zeta.
  - apply andb_prop in Hr as [Hps Hi].
    destruct (tokens_total _ "token" "masterToken" w (data_parsed _ Hp)) as (tok & w1 & ->). rewrite bind_Done_l. cbv beta iota. destruct tok; [|by do 3 eexists].
    cbn [negb]. by apply parameters_total.
  - unfold refused. destruct (read_code_text resp Hr) as [n ->]. rewrite !bind_Done_l. by do 3 eexists.
Qed.

(** ** Connecting *)

Section Connecting.
  Context (ph : internal_hooks) (CA_BUNDLE_FILE : option string) (curl_easy_escape : string -> string)
    (curl_easy_init : nat -> bool) (uuid4_generate : nat -> string) (os_name os_version : string).
  Context (escape_unreserved : forall s, str_all unreserved s = true -> curl_easy_escape s = s).
  Context (escape_c_string : forall s, no_nul (curl_easy_escape s) = true).
  (** An escaped character takes three. *)
  Context (escape_grows : forall s, strlen (curl_easy_escape s) <= 3 * strlen s).
  Context (uuid_ok : forall i, str_all unreserved (uuid4_generate i) = true /\ String.length (uuid4_generate i) = 36%nat).
  Context (os_ok : no_nul os_name = true /\ no_nul os_version = true).

(** The members are C strings that fit in memory. *)
Definition c_string_member (v : option string) : Prop := plain v /\ match v with Some s => strlen s < 2 ^ 50 | None => True end.
Definition c_strings (sf : SF_CONNECT) : Prop := forall m, c_string_member (member sf m).

Lemma take_member n a : c_string_member (Some a) -> c_string_member (Some (str_take n a)).
Proof.
  intros [Hn Hl]. split; [by apply str_all_take|]. unfold strlen in *. pose proof (str_take_length n a).
  destruct (decide (String.length a <= n)%nat); [by rewrite str_take_all|lia].
Qed.
Lemma drop_length n a : (String.length (str_drop n a) <= String.length a)%nat.
Proof. revert a. induction n as [|n IH]; intros [|c a]; cbn; try lia. specialize (IH a). lia. Qed.
Lemma drop_member n a : c_string_member (Some a) -> c_string_member (Some (str_drop n a)).
Proof. intros [Hn Hl]. split; [by apply str_all_drop|]. unfold strlen in *. pose proof (drop_length n a). lia. Qed.

Lemma host_member a r : plain (Some a) -> plain r -> c_string_member (Some (default_host a r)).
Proof.
  intros Ha Hr. unfold default_host. split.
  - apply str_all_take. destruct r as [r|].
    + change (no_nul (a +:+ "." +:+ r +:+ ".snowflakecomputing.com") = true). by rewrite !no_nul_app, Ha, Hr.
    + change (no_nul (a +:+ ".snowflakecomputing.com") = true). by rewrite no_nul_app, Ha.
  - unfold strlen. pose proof (str_take_length 1023 (match r with Some r => a +:+ "." +:+ r +:+ ".snowflakecomputing.com" | None => a +:+ ".snowflakecomputing.com" end)). lia.
Qed.

Lemma checked_c_strings sf a : c_strings sf -> member sf Account = Some a -> forall m, c_string_member (checked_member sf a m).
Proof.
  intros Hc Ha. pose proof (Hc Account) as Hac. rewrite Ha in Hac. intros []; cbn [checked_member]; try apply Hc.
  - destruct (strchr a "."%char); [by apply take_member|done].
  - destruct (strchr a "."%char); [by apply drop_member|apply Hc].
  - pose proof (Hc Host) as Hh. destruct (member sf Host); [done|]. apply host_member; [apply Hac|apply (Hc Region)].
  - pose proof (Hc Port) as Hh. by destruct (member sf Port).
  - pose proof (Hc Protocol) as Hh. by destruct (member sf Protocol).
Qed.

Lemma var_length k v : strlen k <= 20 -> c_string_member v -> strlen (var_text curl_easy_escape (mk_var k v)) < 2 ^ 53.
Proof.
  intros Hk [_ Hv]. unfold var_text, format_var. cbn [v_key v_value]. change (strlen amp) with 1. rewrite !strlen_app. change (strlen amp) with 1.
  pose proof (escape_grows EmptyString) as H0. change (strlen EmptyString) with 0 in *.
  destruct v as [v|]; [pose proof (escape_grows v); destruct (String.eqb v EmptyString)|]; cbn [fst snd]; change (strlen EmptyString) with 0; lia.
Qed.

Lemma vars_length vars : Forall (fun v => strlen (v_key v) <= 20 /\ c_string_member (v_value v)) vars -> (length vars <= 10)%nat ->
  strlen (vars_text curl_easy_escape vars) < 2 ^ 60.
Proof.
  intros Hv Hl. assert (strlen (vars_text curl_easy_escape vars) <= Z.of_nat (length vars) * 2 ^ 53) as Hb; [|lia]. clear Hl.
  induction Hv as [|[k v] vars [Hk Hm] _ IH]; [done|]. rewrite vars_text_cons, strlen_app. pose proof (var_length k v Hk Hm). cbn [length]. lia.
Qed.

Lemma login_body_total sf conf : c_strings sf -> plain (account conf) -> exists r, login_body ph os_name os_version sf conf = Done r.
Proof.
  intros Hc Ha. unfold login_body. destruct os_ok as [Hos Hov]. assert (forall m, plain (member sf m)) as Hp by (intros m; apply Hc).
  destruct (print_total ph (create_auth_json_body ph conf (member sf User) (member sf Password) (member sf Application_name)
    (member sf Application_name) (member sf Application_version) (member sf Timezone) (autocommit sf) os_name os_version)) as [r Hr]; [|by exists r].
  unfold create_auth_json_body. cbv zeta. apply add_item_tree; [done|apply object_tree|]. apply add_item_tree; [done| |].
  - apply add_item_tree; [done| |]; repeat (apply add_text_tree; [done|done|]); try apply object_tree.
    destruct (is_string_empty (member sf Password)); repeat (apply add_text_tree; [done|by try apply Hp|]); apply object_tree.
  - repeat (apply add_text_tree; [done|first [by destruct (autocommit sf)|by apply Hp]|]). apply object_tree.
Qed.
(** The connection has a protocol and a host or an account. *)
Definition usable (sf : SF_CONNECT) : Prop :=
  member sf Protocol <> None /\ (is_string_empty (member sf Host) = true -> member sf Account <> None).

Lemma config_usable sf : usable sf -> c_strings sf ->
  exists conf, config_of sf = Done conf /\ (no_nul (protocol conf) = true /\ strlen (protocol conf) < 2 ^ 60 /\
    plain (account conf) /\ short (account conf) /\ plain (host conf) /\ short (host conf) /\ plain (port conf) /\ short (port conf) /\
    plain (directURL_param conf) /\ short (directURL_param conf) /\ (is_string_empty (host conf) = true -> account conf <> None)).
Proof.
  intros [Hp Ha] Hc. unfold config_of. destruct (member sf Protocol) as [p|] eqn:Ep; [|done]. cbn [deref]. rewrite bind_Done_l.
  eexists. split; [done|]. cbn [protocol account host port directURL_param].
  assert (forall m, plain (member sf m) /\ short (member sf m)) as Hs.
  { intros m. destruct (Hc m) as [H1 H2]. split; [done|]. unfold short. destruct (member sf m); [lia|done]. }
  destruct (Hs Protocol) as [H1 H2]. rewrite Ep in H1, H2. split_and!; try apply Hs; done.
Qed.

Lemma checked_usable sf1 sf a : (forall m, member sf1 m = checked_member sf a m) -> usable sf1.
Proof. intros Hm. split; [by rewrite Hm|]. intros _. by rewrite Hm. Qed.

Lemma id_member i : c_string_member (Some (uuid4_generate i)).
Proof.
  destruct (uuid_ok i) as [Hu Hl]. split; [|unfold strlen; rewrite Hl; lia].
  unfold plain. pose proof (escape_c_string (uuid4_generate i)) as He. by rewrite escape_unreserved in He.
Qed.

Lemma log_in_total fuel sf w : c_strings sf -> names_fit sf -> fine w -> (3 * length (answers w) + 2 <= fuel)%nat ->
  (exists r sf' w', log_in ph CA_BUNDLE_FILE curl_easy_escape curl_easy_init uuid4_generate os_name os_version fuel sf w = Done (r, sf', w')) \/
  (exists conf vars body resp w1, send ph CA_BUNDLE_FILE curl_easy_escape curl_easy_init uuid4_generate fuel conf SESSION_URL vars body w = Done (true, Some resp, w1) /\
     readable (Some resp) = false).
Proof.
  intros Hc Hf Hw Hfuel. unfold log_in. destruct (missing_parameter sf) as [text|] eqn:Em.
  - left. unfold _snowflake_check_connection_parameters, missing_parameter in *. cbv zeta.
    destruct (is_string_empty (member sf Account)); [by do 3 eexists|]. destruct (is_string_empty (member sf User)); [by do 3 eexists|].
    destruct (is_string_empty (member sf Password)); [by do 3 eexists|done].
  - assert (exists a, member sf Account = Some a) as [a Ha].
    { unfold missing_parameter in Em. destruct (member sf Account) as [a|]; [by exists a|done]. }
    destruct (check_ok sf w a Ha Em) as (sf1 & -> & Hm). rewrite bind_Done_l. cbv beta iota zeta. change (SF_STATUS_SUCCESS =? SF_STATUS_SUCCESS) with true. cbn [negb].
    set (sf2 := set_request _ _ sf1). assert (forall m, member sf2 m = checked_member sf a m) as Hm2 by done.
    assert (c_strings sf2) as Hc2 by (intros m; rewrite Hm2; by apply checked_c_strings).
    destruct (config_usable sf2 (checked_usable sf2 sf a Hm2) Hc2) as (conf & -> & Hconf). rewrite bind_Done_l.
    destruct (login_body_total sf2 conf Hc2 ltac:(apply Hconf)) as [body ->]. rewrite bind_Done_l.
    assert (names_fit sf2) as Hf2.
    { intros m v Hin. rewrite Hm2. destruct Hin as [->|[->| ->]]; cbn [checked_member]; apply Hf; auto. }
    assert (Forall (fun v => strlen (v_key v) <= 20 /\ c_string_member (v_value v)) (login_vars sf2)) as Hvars.
    { unfold login_vars. pose proof (id_member (length (sent w))) as Hid.
      repeat (apply Forall_cons; split; [split; [done|first [exact Hid|apply Hc2]]|]). apply Forall_nil. done. }
    assert (Forall plain_var (login_vars sf2)) as Hplain by (repeat (apply Forall_cons; split; [done|]); by apply Forall_nil).
    pose proof (vars_length (login_vars sf2) Hvars ltac:(cbn; lia)) as Hlen.
    pose proof (request_ends ph CA_BUNDLE_FILE curl_easy_escape curl_easy_init uuid4_generate conf escape_unreserved escape_c_string uuid_ok Hconf
      fuel None SESSION_URL (login_vars sf2) body None POST_REQUEST_TYPE false w eq_refl ltac:(vm_compute; congruence) Hplain Hlen Hw I Hfuel) as Hr.
    destruct Hr as (ok & resp & w2 & Hr & _ & Hp & _ & Hok). fold (send ph CA_BUNDLE_FILE curl_easy_escape curl_easy_init uuid4_generate fuel conf SESSION_URL (login_vars sf2) body w) in Hr.
    rewrite Hr, bind_Done_l. cbv beta iota. destruct ok; [|left; by do 3 eexists]. destruct (Hok eq_refl) as [_ Hsome].
    destruct resp as [resp|]; [|done]. destruct (readable (Some resp)) eqn:Ere; [left; by apply logged_in_total|].
    right. by exists conf, (login_vars sf2), body, resp, w2.
Qed.

End Connecting.

(** ** A login over a network that is not there *)

Lemma keep_grows s : strlen (keep s) <= 3 * strlen s.
Proof. unfold keep, strlen. destruct (no_nul s); cbn [String.length]; lia. Qed.

Lemma applicant_c_strings : c_strings applicant.
Proof. intros []; vm_compute; split; first [reflexivity|exact I]. Qed.

