(* ===== verification/Execute.v ===== *)
(** * lib/client.c: executing a statement (59-75, 1311-1326, 1425-1463, 1531-1852,
    1952-1977).

    [_snowflake_execute_ex] sends the text and the bindings and reads the answer into the
    statement; the connection it belongs to is shared and passed along.  The request
    reports its errors in the statement, so the world it runs in starts without one and
    the connection's error comes back after it.  What becomes of the chunks of a large
    result is [chunk_answer], by position and URL; ChunkDownloader models how. *)

From S2P Require Import Prelude CLib CFloat Status CJson CJsonPrint CJsonParse JsonHelpers ArrayList RbTree TreeMap ParamStore Url Http Session Connect.
From S2P Require Import Results PutGet ChunkSetup Stmt Bind Fetch.

(** ** The type of a statement *)

Definition _SF_STMT_TYPE_DML : Z := 12288.
Definition detect_stmt_type (stmt_type_id : Z) : bool :=
  existsb (Z.eqb stmt_type_id)
    [_SF_STMT_TYPE_DML; _SF_STMT_TYPE_DML + 256; _SF_STMT_TYPE_DML + 512; _SF_STMT_TYPE_DML + 768; _SF_STMT_TYPE_DML + 1024; _SF_STMT_TYPE_DML + 1280].

Definition QUERY_URL : string := "/queries/v1/query-request".

Section Execute.
  Context {St : Type} `{Dict nat St}.
  Context (ph : internal_hooks) (CA_BUNDLE_FILE : option string) (curl_easy_escape : string -> string)
    (curl_easy_init : nat -> bool) (uuid4_generate : nat -> string) (now : Z)
    (pt : pthread_answers) (chunk_answer : nat -> string -> slot_answer).

(** ** Parts of the statement *)

Definition set_call (id qid : string) (counter : Z) (s : SF_STMT St) : SF_STMT St :=
  mk_stmt _ qid counter id (error s) (sql_text s) (raw_results s) (cur_row s) (chunk_rowcount s) (total_rowcount s)
    (total_fieldcount s) (total_row_index s) (params s) (name_list s) (params_len s) (desc s) (is_dml s) (user_realloc_func s) (chunk_downloader s) (put_get_response s).
Definition set_counts (total fields : Z) (dml : bool) (s : SF_STMT St) : SF_STMT St :=
  mk_stmt _ (sfqid s) (sequence_counter s) (request_id s) (error s) (sql_text s) (raw_results s) (cur_row s) (chunk_rowcount s) total
    fields (total_row_index s) (params s) (name_list s) (params_len s) (desc s) dml (user_realloc_func s) (chunk_downloader s) (put_get_response s).
Definition set_put_get (r : option SF_PUT_GET_RESPONSE) (s : SF_STMT St) : SF_STMT St :=
  mk_stmt _ (sfqid s) (sequence_counter s) (request_id s) (error s) (sql_text s) (raw_results s) (cur_row s) (chunk_rowcount s) (total_rowcount s)
    (total_fieldcount s) (total_row_index s) (params s) (name_list s) (params_len s) (desc s) (is_dml s) (user_realloc_func s) (chunk_downloader s) r.

(** The error a request left is the statement's. *)
Definition take_error (e : option Http.error) (s : SF_STMT St) : SF_STMT St :=
  match e with Some e => call_fails (Http.e_code e) (Http.e_msg e) (Http.e_sqlstate e) s | None => s end.
Definition with_err (e : option Http.error) (w : world) : world := mk_world (answers w) (sent w) e (token w) (master_token w).

(** ** The answer *)

(** The description of the columns; the old one is given up with the new field count. *)
Definition read_rowtype (data : option cJSON) (s : SF_STMT St) : outcome (SF_STMT St) :=
  let rowtype := snowflake_cJSON_GetObjectItem data "rowtype" in
  if snowflake_cJSON_IsArray rowtype then
    s ← _snowflake_stmt_desc_reset (set_counts (total_rowcount s) (snowflake_cJSON_GetArraySize rowtype) (is_dml s) s);
    d ← set_description rowtype;
    Done (set_desc d s)
  else Done s.

(** A downloader for the chunks, if there are any; the old one is overwritten. *)
Definition start_chunks (data : option cJSON) (s : SF_STMT St) : outcome (bool * SF_STMT St) :=
  match snowflake_cJSON_GetObjectItem data "chunks" with
  | None => Done (true, s)
  | Some chunks =>
      '(_, qrmk) ← json_copy_string None data "qrmk";
      r ← chunk_downloader_init pt qrmk (snowflake_cJSON_GetObjectItem data "chunkHeaders") (Some chunks) 2 4;
      match r with
      | inl su =>
          Done (true, set_downloader
            (Some (mk_downloader 0 (imap (fun i '(u, n) => mk_slot (chunk_answer i u) n) (q_items su)) false true)) s)
      | inr e => Done (false, set_downloader None (match e with Some (code, text) => call_fails code text EmptyString s | None => s end))
      end
  end.

Definition read_rowset (data : option cJSON) (s : SF_STMT St) : outcome (bool * SF_STMT St) :=
  let d := json_detach_array_from_object (raw_results s) data "rowset" in
  let s := set_rows (d_dest d) (cur_row s) (chunk_rowcount s) (total_row_index s) s in
  if bool_decide (d_error d <> SF_JSON_ERROR_NONE) then
    Done (false, stmt_fails SF_STATUS_ERROR_BAD_JSON "Missing rowset from response. No results found." SF_SQLSTATE_APP_REJECT_CONNECTION s)
  else
    '(e, total) ← json_copy_int (total_rowcount s) (d_data d) "total";
    let size := snowflake_cJSON_GetArraySize (raw_results s) in
    let s := set_counts (if bool_decide (e <> SF_JSON_ERROR_NONE) then size else total) (total_fieldcount s) (is_dml s) s in
    start_chunks (d_data d) (set_rows (raw_results s) (cur_row s) size 0 s).

Definition query_answer (data : option cJSON) (s : SF_STMT St) (sf : SF_CONNECT) (w : world) : outcome (bool * SF_STMT St * SF_CONNECT * world) :=
  sf ← _set_current_objects data sf;
  '(_, sf, w) ← _set_parameters_session_info data sf w;
  '(e, stmt_type_id) ← json_copy_int 0 data "statementTypeId";
  let dml := if bool_decide (e <> SF_JSON_ERROR_NONE) then false else detect_stmt_type stmt_type_id in
  s ← read_rowtype data (set_counts (total_rowcount s) (total_fieldcount s) dml s);
  '(ok, s) ← read_rowset data s;
  Done (ok, s, sf, w).

(** The server refused: its SQL state, message and code. *)
Definition query_refused (resp data : option cJSON) (s : SF_STMT St) : outcome (SF_STMT St) :=
  '(_, state) ← copy_array SF_SQLSTATE_LEN (e_sqlstate (error s)) data "sqlState";
  let message := snowflake_cJSON_GetObjectItem resp "message" ≫= valuestring in
  code ← (match snowflake_cJSON_GetObjectItem resp "code" with
          | None => Done (-1)
          | Some j => t ← deref (valuestring j); Done (i32 (st_val (strtoll t)))
          end);
  Done (set_error (mk_stmt_error code (Some (default "Query was not successful" message)) state (str_take 36 (sfqid s))) s).

Definition read_answer (is_put_get_command : bool) (resp : option cJSON) (s : SF_STMT St) (sf : SF_CONNECT) (w : world)
  : outcome (bool * SF_STMT St * SF_CONNECT * world) :=
  let data := snowflake_cJSON_GetObjectItem resp "data" in
  '(_, qid) ← copy_array SF_UUID4_LEN (sfqid s) data "queryId";
  let s := set_call (request_id s) qid (sequence_counter s) s in
  let '(json_error, success) := json_copy_bool false resp "success" in
  if bool_decide (json_error <> SF_JSON_ERROR_NONE) then
    Done (false, stmt_fails SF_STATUS_ERROR_BAD_JSON (JSON_ERROR_MSG json_error "Success code") SF_SQLSTATE_APP_REJECT_CONNECTION s, sf, w)
  else if negb success then s ← query_refused resp data s; Done (false, s, sf, w)
  else if is_put_get_command then r ← read_put_get data; Done (true, set_put_get (Some r) s, sf, w)
  else query_answer data s sf w.
(** ** The call *)

(** The body: the text, the counter, and the bindings when there are parameters. *)
Definition query_body (sql_text : option string) (counter : Z) (direct : option string) (bindings : option cJSON) : option cJSON :=
  let body := create_query_json_body ph sql_text counter now direct in
  match bindings with Some _ => snowflake_cJSON_AddItemToObject (allocate ph) body (Some "bindings") bindings | None => body end.

Definition execute_stmt (fuel : nat) (mem : inputs) (s : SF_STMT St) (sf : SF_CONNECT) (w : world) (is_put_get_command : bool)
  : outcome (Z * SF_STMT St * SF_CONNECT * world) :=
  let id := uuid4_generate (length (sent w)) in
  if LLONG_MAX <=? c_sequence_counter sf then Undef
  else
    let counter := c_sequence_counter sf + 1 in
    let sf := set_request counter (c_request_id sf) sf in
    let s := set_call id (sfqid s) counter (clear_error s) in
    '(bindings, s) ← make_bindings (allocate ph) mem s;
    let direct := negb (is_string_empty (member sf DirectURL)) in
    if negb direct && (is_string_empty (master_token w) || is_string_empty (token w)) then
      Done (SF_STATUS_ERROR_GENERAL,
            call_fails SF_STATUS_ERROR_BAD_CONNECTION_PARAMS "Missing session or master token. Try running snowflake_connect."
              SF_SQLSTATE_UNABLE_TO_CONNECT s, sf, w)
    else
      let body := query_body (sql_text s) counter (if direct then Some id else None) bindings in
      s_body ← (match body with Some b => snowflake_cJSON_Print ph b | None => Done None end);
      queryURL ← (if direct then deref (member sf DirectURL) else Done QUERY_URL);
      conf ← config_of sf;
      '(ok, resp, w') ← request ph CA_BUNDLE_FILE curl_easy_escape curl_easy_init uuid4_generate conf fuel None queryURL
                          (if direct then [] else [mk_var "requestId=" (Some id)]) s_body None POST_REQUEST_TYPE is_put_get_command (with_err None w);
      let s := take_error (err w') s in
      let w := with_err (err w) w' in
      if (ok : bool) then
        '(ok, s, sf, w) ← read_answer is_put_get_command resp s sf w;
        Done (if (ok : bool) then SF_STATUS_SUCCESS else SF_STATUS_ERROR_GENERAL, s, sf, w)
      else Done (SF_STATUS_ERROR_GENERAL, s, sf, w).

Definition _snowflake_execute_ex (fuel : nat) (mem : inputs) (so : option (SF_STMT St)) (sf : SF_CONNECT) (w : world) (is_put_get_command : bool)
  : outcome (Z * option (SF_STMT St) * SF_CONNECT * world) :=
  match so with
  | None => Done (SF_STATUS_ERROR_STATEMENT_NOT_EXIST, None, sf, w)
  | Some s => '(ret, s, sf, w) ← execute_stmt fuel mem s sf w is_put_get_command; Done (ret, Some s, sf, w)
  end.

(** The text is read before the statement is tested for NULL. *)
Definition snowflake_execute (fuel : nat) (mem : inputs) (so : option (SF_STMT St)) (sf : SF_CONNECT) (w : world)
  : outcome (Z * option (SF_STMT St) * SF_CONNECT * world) :=
  s ← deref so;
  put_get ← _is_put_get_command (sql_text s);
  _snowflake_execute_ex fuel mem so sf w put_get.

Definition snowflake_query (fuel : nat) (mem : inputs) (so : option (SF_STMT St)) (command : option string) (command_size : Z) (sf : SF_CONNECT) (w : world)
  : outcome (Z * option (SF_STMT St) * SF_CONNECT * world) :=
  match so with
  | None => Done (SF_STATUS_ERROR_STATEMENT_NOT_EXIST, None, sf, w)
  | Some s =>
      '(ret, so) ← snowflake_prepare (Some (clear_error s)) command command_size;
      if negb (ret =? SF_STATUS_SUCCESS) then Done (ret, so, sf, w) else snowflake_execute fuel mem so sf w
  end.

(** ** Transactions *)

(** The statement's error becomes the connection's; a code without a message is a NULL
    dereference. *)
Definition snowflake_propagate_error (s : SF_STMT St) (w : world) : outcome world :=
  let e := error s in
  if e_code e =? 0 then Done (with_err ((fun m => Http.mk_err 0 m (e_sqlstate e)) <$> e_msg e) w)
  else m ← deref (e_msg e); Done (with_err (Some (Http.mk_err (e_code e) m (e_sqlstate e))) w).

Definition _snowflake_internal_query (fuel : nat) (so : option SF_CONNECT) (sql : string) (w : world) : outcome (Z * option SF_CONNECT * world) :=
  match so with
  | None => Done (SF_STATUS_ERROR_CONNECTION_NOT_EXIST, None, w)
  | Some sf =>
      st ← snowflake_stmt true;
      '(ret, st, sf, w) ← snowflake_query fuel ∅ st (Some sql) 0 sf w;
      w ← (if ret =? SF_STATUS_SUCCESS then Done w else s ← deref st; snowflake_propagate_error s w);
      _ ← snowflake_stmt_term st;
      Done (ret, Some sf, w)
  end.

Definition _SF_STMT_SQL_BEGIN : string := "begin".
Definition _SF_STMT_SQL_COMMIT : string := "commit".
Definition _SF_STMT_SQL_ROLLBACK : string := "rollback".
Definition snowflake_trans_begin fuel so w := _snowflake_internal_query fuel so _SF_STMT_SQL_BEGIN w.
Definition snowflake_trans_commit fuel so w := _snowflake_internal_query fuel so _SF_STMT_SQL_COMMIT w.
Definition snowflake_trans_rollback fuel so w := _snowflake_internal_query fuel so _SF_STMT_SQL_ROLLBACK w.
End Execute.
