(* ===== verification/ExecuteTotal.v ===== *)
(** * Executing a statement always comes to a result

    A query over any network: its body is printed, the request ends (SessionTotal), and
    its answer is read field by field; reading it is undefined only where the code
    dereferences what the server left out or converts a number that does not fit
    ([readable_query]). *)

From S2P Require Import Prelude RbTree TreeMap ParamStore CLib CFloat Status CJson CJsonPrint CJsonParse CJsonType JsonHelpers ArrayList Url Http Session SessionTotal.
From S2P Require Import Connect ConnectTotal Results PutGet ChunkSetup Stmt Bind Fetch Execute.

(** ** What the code needs of an answer *)

(** A number is in the range of int64. *)
Definition int_readable (data : option cJSON) (name : string) : bool :=
  match snowflake_cJSON_GetObjectItem data name with
  | Some j => negb (snowflake_cJSON_IsNumber (Some j)) || is_done (cast_to_range LLONG_MIN LLONG_MAX (valuedouble j))
  | None => true
  end.
Definition readable_column (c : cJSON) : bool := forallb (int_readable (Some c)) ["byteLength"; "length"; "precision"; "scale"].
Definition readable_rowtype (data : option cJSON) : bool :=
  match snowflake_cJSON_GetObjectItem data "rowtype" with Some rt => forallb readable_column (child rt) | None => true end.
(** The chunk headers are an object of texts, at most 2^60 of them. *)
Definition readable_headers (h : option cJSON) : bool :=
  match h with
  | Some h => snowflake_cJSON_IsObject (Some h) && forallb (fun c => has_text (Some c)) (child h) && (Z.of_nat (length (child h)) <? 2 ^ 60)
  | None => true
  end.
Definition readable_chunks (data : option cJSON) : bool :=
  match snowflake_cJSON_GetObjectItem data "chunks" with
  | Some c => forallb (fun x => int_readable (Some x) "rowCount") (child c) && readable_headers (snowflake_cJSON_GetObjectItem data "chunkHeaders")
  | None => true
  end.
(** The session's objects fit the message of 1024 bytes. *)
Definition short_text (data : option cJSON) (name : string) : bool :=
  match snowflake_cJSON_GetObjectItem data name ≫= valuestring with Some s => strlen s <? 980 | None => true end.
Definition readable_rows (data : option cJSON) : bool :=
  forallb (short_text data) ["finalDatabaseName"; "finalSchemaName"; "finalWarehouseName"]
  && readable_parameters data && readable_info (snowflake_cJSON_GetObjectItem data "sessionInfo")
  && int_readable data "statementTypeId" && readable_rowtype data && int_readable data "total" && readable_chunks data.
Definition readable_transfer (data : option cJSON) : bool :=
  int_readable data "parallel" && int_readable (snowflake_cJSON_GetObjectItem data "encryptionMaterial") "smkId".
Definition readable_query (is_put_get_command : bool) (resp : option cJSON) : bool :=
  let data := snowflake_cJSON_GetObjectItem resp "data" in
  if snd (json_copy_bool false resp "success")
  then if is_put_get_command then readable_transfer data else readable_rows data
  else readable_code resp.

(** ** Reads *)

Lemma copy_int_total dest data name : int_readable data name = true -> exists e n, json_copy_int dest data name = Done (e, n).
Proof.
  unfold int_readable, json_copy_int. destruct (snowflake_cJSON_GetObjectItem data name) as [j|]; [|by do 2 eexists]. intros Hr.
  unfold json_classify. destruct (snowflake_cJSON_IsNull (Some j)); [by do 2 eexists|]. destruct (snowflake_cJSON_IsNumber (Some j)); [|by do 2 eexists].
  cbn [deref]. rewrite bind_Done_l. cbn [negb orb] in Hr. destruct (cast_to_range _ _ _); try done. rewrite bind_Done_l. by do 2 eexists.
Qed.

Lemma strncpy_terminated v n : (String.length v < n)%nat -> exists t, c_string (strncpy_bytes v n) = Some t.
Proof.
  intros Hl. unfold strncpy_bytes. rewrite take_ge by (rewrite list_ascii_length; lia). replace (n - String.length v)%nat with (S (n - String.length v - 1)) by lia.
  cbn [replicate]. generalize (replicate (n - String.length v - 1) NUL). intros r.
  induction (String.list_ascii_of_string v) as [|c l [t IH]]; [by eexists|]. cbn [app c_string]. destruct (code c =? 0); [by eexists|].
  rewrite IH. by eexists.
Qed.

Lemma copy_array_total size dest data item : parsed data -> (String.length dest < size)%nat -> exists e v, copy_array size dest data item = Done (e, v).
Proof.
  intros Hp Hl. unfold copy_array.
  assert (exists e bytes t, json_copy_string_no_alloc (strncpy_bytes dest size) data item size = Done (e, bytes) /\ c_string bytes = Some t) as (e & bytes & t & -> & E).
  { destruct (strncpy_terminated dest size Hl) as [t0 Ht0].
    destruct (json_classify snowflake_cJSON_IsString (snowflake_cJSON_GetObjectItem data item)) eqn:E.
    - destruct (classify_none _ _ E) as (j & Ej & Hs). destruct (string_parsed j (item_parsed _ _ _ Hp Ej) Hs) as (v & Ev & Hv & _).
      destruct (no_alloc_bounded (strncpy_bytes dest size) data item size j v) as (dest' & -> & _ & _ & Ec); try done; [rewrite strncpy_bytes_length; lia|].
      by do 3 eexists.
    - all: unfold json_copy_string_no_alloc; rewrite E; by do 3 eexists.
    - all: unfold json_copy_string_no_alloc; rewrite E; by do 3 eexists.
    - all: unfold json_copy_string_no_alloc; rewrite E; by do 3 eexists.
    - all: unfold json_copy_string_no_alloc; rewrite E; by do 3 eexists. }
  rewrite bind_Done_l, E. cbn [deref]. rewrite bind_Done_l. by do 2 eexists.
Qed.

(** A tree that loses children stays one the parser could return. *)
Lemma parsed_fewer o l : parsed (Some o) -> (forall x, In x l -> In x (child o)) -> parsed (Some (set_child l o)).
Proof.
  intros (N & Hw & HN) Hl. exists N. split; [|done]. destruct o as [t vs vi vd k ch]. cbn [set_child well_typed type valuestring key child] in *.
  apply andb_prop in Hw as [Hw Hch]. apply andb_prop in Hw as [Hw Hnames]. rewrite Hw. rewrite forallb_forall in Hch.
  apply andb_true_intro. split; [|apply forallb_forall; intros x Hx; by apply Hch, Hl]. cbn [andb].
  destruct (t =? cJSON_Object); [|destruct (t =? cJSON_Array)].
  - rewrite forallb_forall in Hnames |- *. intros x Hx. by apply Hnames, Hl.
  - rewrite forallb_forall in Hnames |- *. intros x Hx. by apply Hnames, Hl.
  - destruct l as [|x l]; [done|]. destruct ch as [|y ch]; [|done]. destruct (Hl x ltac:(by left)).
Qed.

Lemma delete_in {A} (l : list A) i x : In x (delete i l) -> In x l.
Proof. revert i. induction l as [|y l IH]; intros [|i]; cbn; try done; [by right|]. intros [->|H]; [by left|right; by eapply IH]. Qed.

Lemma detach_parsed o i : parsed o -> parsed (fst (snowflake_cJSON_DetachItemViaPointer o i)) /\ parsed (snd (snowflake_cJSON_DetachItemViaPointer o i)).
Proof.
  intros Hp. unfold snowflake_cJSON_DetachItemViaPointer. destruct o as [o|]; [|done]. destruct i as [i|]; [|done].
  destruct (child o !! i) as [c|] eqn:E; [|done]. cbn [fst snd]. split; [apply parsed_fewer; [done|]; intros x; apply delete_in|].
  destruct Hp as (N & Hw & HN). exists N. split; [|done]. destruct o as [t vs vi vd k ch]. cbn [well_typed child] in *.
  apply andb_prop in Hw as [_ Hw]. rewrite forallb_forall in Hw. apply Hw. apply list_elem_of_In. by eapply list_elem_of_lookup_2.
Qed.

Lemma child_parsed o x : parsed (Some o) -> In x (child o) -> parsed (Some x).
Proof.
  intros (N & Hw & HN) Hx. exists N. split; [|done]. destruct o as [t vs vi vd k ch]. cbn [well_typed child] in *.
  apply andb_prop in Hw as [_ Hw]. rewrite forallb_forall in Hw. by apply Hw.
Qed.

(** ** The answer to a file transfer *)

Lemma read_text_total data item : parsed data -> exists v, read_text data item = Done v.
Proof. intros Hp. unfold read_text. destruct (copy_string_total None data item Hp) as (e & v & -> & _). rewrite bind_Done_l. by eexists. Qed.
Lemma read_field_total size data item : parsed data -> (0 < size)%nat -> exists v, read_field size data item = Done v.
Proof. intros Hp Hs. unfold read_field. destruct (copy_array_total size EmptyString data item Hp Hs) as (e & v & ->). rewrite bind_Done_l. by eexists. Qed.
Lemma read_int_total data item : int_readable data item = true -> exists v, read_int data item = Done v.
Proof. intros Hr. unfold read_int. destruct (copy_int_total 0 data item Hr) as (e & v & ->). rewrite bind_Done_l. by eexists. Qed.

Lemma item_parsed_opt data name : parsed data -> parsed (snowflake_cJSON_GetObjectItem data name).
Proof. intros Hp. destruct (snowflake_cJSON_GetObjectItem data name) eqn:E; [by eapply item_parsed|done]. Qed.

Lemma d_data_parsed is_type dest data name : parsed data -> parsed (d_data (json_detach is_type dest (snowflake_cJSON_DetachItemFromObject data name))).
Proof.
  intros Hp. unfold snowflake_cJSON_DetachItemFromObject. set (i := match data with Some o => _ | None => None end).
  pose proof (detach_parsed data i Hp) as [H _]. destruct (snowflake_cJSON_DetachItemViaPointer data i) as [o c]. unfold json_detach. by destruct (json_classify is_type c).
Qed.
Lemma d_data_same is_type dest data a b : no_nul a = true -> no_nul b = true -> case_cmp a b <> 0 ->
  snowflake_cJSON_GetObjectItem (d_data (json_detach is_type dest (snowflake_cJSON_DetachItemFromObject data a))) b = snowflake_cJSON_GetObjectItem data b.
Proof.
  intros Ha Hb Hab. destruct data as [o|].
  - pose proof (get_detach_other o a b Ha Hb Hab) as H. destruct (snowflake_cJSON_DetachItemFromObject (Some o) a) as [o' c]. unfold json_detach.
    by destruct (json_classify is_type c).
  - unfold snowflake_cJSON_DetachItemFromObject, snowflake_cJSON_DetachItemViaPointer, json_detach. by destruct (json_classify is_type None).
Qed.

Lemma read_put_get_total data : parsed data -> readable_transfer data = true -> exists r, read_put_get data = Done r.
Proof.
  intros Hp Hr. apply andb_prop in Hr as [Hpar Hsmk]. unfold read_put_get. set (src := json_detach_array_from_object None data "src_locations"). cbv zeta.
  assert (parsed (d_data src)) as Hd by by apply d_data_parsed.
  assert (snowflake_cJSON_GetObjectItem (d_data src) "parallel" = snowflake_cJSON_GetObjectItem data "parallel") as Epar by by apply d_data_same.
  assert (snowflake_cJSON_GetObjectItem (d_data src) "encryptionMaterial" = snowflake_cJSON_GetObjectItem data "encryptionMaterial") as Eenc by by apply d_data_same.
  destruct (read_field_total SF_COMMAND_LEN (d_data src) "command" Hd ltac:(unfold SF_COMMAND_LEN; lia)) as [cmd ->]. rewrite bind_Done_l.
  destruct (read_int_total (d_data src) "parallel") as [par ->]; [unfold int_readable in *; by rewrite Epar|]. rewrite bind_Done_l.
  destruct (read_field_total SF_SOURCE_COMPRESSION_TYPE_LEN (d_data src) "sourceCompression" Hd ltac:(unfold SF_SOURCE_COMPRESSION_TYPE_LEN; lia)) as [comp ->]. rewrite bind_Done_l.
  assert (exists e, read_enc_mat (d_data src) = Done e) as [[put get] ->].
  { unfold read_enc_mat. rewrite Eenc. cbv zeta. destruct (snowflake_cJSON_IsArray _); [by eexists|].
    assert (parsed (snowflake_cJSON_GetObjectItem data "encryptionMaterial")) as He by by apply item_parsed_opt.
    destruct (read_text_total _ "queryStageMasterKey" He) as [key ->]. rewrite bind_Done_l.
    destruct (read_field_total SF_UUID4_LEN _ "queryId" He ltac:(unfold SF_UUID4_LEN; lia)) as [id ->]. rewrite bind_Done_l.
    destruct (read_int_total _ "smkId" Hsmk) as [smk ->]. rewrite bind_Done_l. by eexists. }
  rewrite bind_Done_l. cbv beta iota.
  assert (exists st, read_stage_info (d_data src) = Done st) as [st ->].
  { unfold read_stage_info. cbv zeta. pose proof (item_parsed_opt _ "stageInfo" Hd) as H1. pose proof (item_parsed_opt _ "creds" H1) as H2.
    repeat match goal with |- context [read_text ?o ?i ≫= _] => destruct (read_text_total o i) as [? ->]; [done|]; rewrite bind_Done_l end. by eexists. }
  rewrite bind_Done_l. destruct (read_text_total (d_data src) "localLocation" Hd) as [loc ->]. rewrite bind_Done_l. by eexists.
Qed.

(** ** The answer to a query *)

Lemma describe_total i c : parsed c -> match c with Some c => readable_column c | None => true end = true -> exists d, describe_column i c = Done d.
Proof.
  intros Hp Hr. unfold describe_column. destruct (copy_string_total None c "name" Hp) as (e & v & -> & _). rewrite bind_Done_l.
  assert (forall name, name ∈ ["byteLength"; "length"; "precision"; "scale"] -> int_readable c name = true) as Hint.
  { intros name Hn. destruct c as [c|]; [|done]. unfold readable_column in Hr. rewrite forallb_forall in Hr. by apply Hr, list_elem_of_In. }
  do 4 (match goal with |- context [json_copy_int 0 c ?n] => destruct (copy_int_total 0 c n) as (? & ? & ->); [apply Hint; set_solver|]; rewrite bind_Done_l end).
  cbv zeta. destruct (snowflake_cJSON_IsString (snowflake_cJSON_GetObjectItem c "type")) eqn:Es; [|rewrite bind_Done_l; by eexists].
  destruct (snowflake_cJSON_GetObjectItem c "type") as [j|] eqn:Ej; [|done]. destruct (string_parsed j (item_parsed _ _ _ Hp Ej) Es) as (t & Et & _).
  cbn [deref]. rewrite bind_Done_l, Et. cbn [deref]. rewrite !bind_Done_l. by eexists.
Qed.

Lemma describe_loop_total rt n : forall i, parsed (Some rt) -> forallb readable_column (child rt) = true ->
  exists ds, describe_loop (Some rt) i n = Done ds.
Proof.
  induction n as [|n IH]; intros i Hp Hr; cbn [describe_loop]; [by eexists|].
  destruct (describe_total i (snowflake_cJSON_GetArrayItem (Some rt) i)) as [d ->].
  - destruct (snowflake_cJSON_GetArrayItem (Some rt) i) as [c|] eqn:E; [|done]. apply (child_parsed rt); [done|].
    apply list_elem_of_In. unfold snowflake_cJSON_GetArrayItem, get_array_item in E. destruct (i <? 0); [done|]. by eapply list_elem_of_lookup_2.
  - destruct (snowflake_cJSON_GetArrayItem (Some rt) i) as [c|] eqn:E; [|done]. rewrite forallb_forall in Hr. apply Hr.
    apply list_elem_of_In. unfold snowflake_cJSON_GetArrayItem, get_array_item in E. destruct (i <? 0); [done|]. by eapply list_elem_of_lookup_2.
  - rewrite bind_Done_l. destruct (IH (i + 1) Hp Hr) as [ds ->]. rewrite bind_Done_l. by eexists.
Qed.

(** ** The chunks *)

Lemma find_ci_key ch name i c : find_ci ch name = Some i -> ch !! i = Some c -> key c <> None.
Proof.
  revert i. induction ch as [|d ch IH]; intros i; cbn [find_ci]; [done|]. destruct (case_insensitive_strcmp (Some name) (key d) =? 0) eqn:E.
  - intros [= <-] [= <-]. destruct (key d); [done|]. discriminate.
  - destruct (find_ci ch name) as [k|]; [|done]. intros [= <-] H. by apply (IH k).
Qed.

Lemma member_key data name c : snowflake_cJSON_GetObjectItem data name = Some c -> key c <> None.
Proof.
  destruct data as [o|]; [|done]. cbn. destruct (find_ci (child o) name) as [i|] eqn:E; [|done]. cbn. intros H. by apply (find_ci_key _ _ _ _ E).
Qed.

Lemma object_index_total ch name : Forall (fun c => key c <> None) ch ->
  exists r, object_index ch name true = Done r.
Proof.
  induction 1 as [|c ch Hc _ [r IH]]; cbn [object_index]; [by exists None|]. destruct (key c) as [k|]; [|done].
  cbn [deref]. rewrite !bind_Done_l. destruct (String.eqb name k); [by eexists|]. rewrite IH, bind_Done_l. by eexists.
Qed.

Lemma headers_total h keys : Forall (fun c => key c <> None) (child h) -> forallb (fun c => has_text (Some c)) (child h) = true ->
  Z.of_nat (length keys) < 2 ^ 60 ->
  forall n i al headers, wf al -> (i + n = length keys)%nat -> (forall j : nat, ArrayList.slot al (Z.of_nat j) = keys !! j) ->
  exists r, headers_loop (Some h) n (Z.of_nat i) al headers = Done r.
Proof.
  intros Hk Ht Hlen. induction n as [|n IH]; intros i al headers Hwf Hi Hs; cbn [headers_loop]; [by eexists|].
  destruct (array_get_ok al (Z.of_nat i) Hwf) as (al' & -> & Hwf' & _ & Hs'); [lia|]. rewrite bind_Done_l. cbv beta iota. rewrite Hs.
  destruct (lookup_lt_is_Some_2 keys i ltac:(lia)) as [k ->]. unfold snowflake_cJSON_GetObjectItemCaseSensitive, get_object_item.
  destruct (object_index_total (child h) k Hk) as [r ->]. rewrite !bind_Done_l. destruct r as [m|]; [|by eexists].
  destruct (child h !! m) as [c|] eqn:Ec; [|by eexists]. cbn [deref]. rewrite !bind_Done_l.
  rewrite forallb_forall in Ht. assert (has_text (Some c) = true) as Hc by (apply Ht, list_elem_of_In; by eapply list_elem_of_lookup_2).
  unfold has_text in Hc. destruct (valuestring c) as [v|]; [|done]. cbn [deref]. rewrite bind_Done_l.
  replace (Z.of_nat i + 1) with (Z.of_nat (S i)) by lia. apply IH; [done|lia|]. intros j. by rewrite Hs'.
Qed.

Lemma create_chunk_headers_total h : parsed (Some h) -> readable_headers (Some h) = true -> exists r, create_chunk_headers (Some h) = Done r.
Proof.
  intros (N & Hw & _) Hr. cbn [readable_headers] in Hr. apply andb_prop in Hr as [Hr Hlen]. apply andb_prop in Hr as [Ho Ht]. apply Z.ltb_lt in Hlen.
  unfold create_chunk_headers, json_get_object_keys. rewrite Ho.
  assert (exists names, map key (child h) = map Some names) as [names Hn].
  { destruct h as [t vs vi vd k ch]. cbn [well_typed child CJson.type valuestring key] in *. unfold snowflake_cJSON_IsObject, has_type in Ho. cbn [CJson.type] in Ho.
    repeat (apply andb_prop in Hw as [Hw ?]). assert (forallb named ch = true) as Hna.
    { assert (t = cJSON_Object) as ->; [|done]. unfold json_type in Hw. repeat (apply orb_prop in Hw as [Hw|Hw]); apply Z.eqb_eq in Hw; subst t; done. }
    clear -Hna. induction ch as [|c ch IH]; [by exists []|]. cbn [forallb] in Hna. apply andb_prop in Hna as [Hc Hna]. destruct (IH Hna) as [ns E].
    unfold named in Hc. destruct (key c) as [k|] eqn:Ek; [|done]. exists (k :: ns). cbn [map]. by rewrite Ek, E. }
  assert (length names = length (child h)) as Hln by (rewrite <- (length_map key), Hn; by rewrite length_map).
  destruct (keys_loop_filled (child h) sf_array_list_init [] init_wf) with (names := names) as (al & E & Hwf & Hs).
  - apply init_slots.
  - done.
  - cbn [length]. lia.
  - change (Z.of_nat (length [])) with 0 in E. rewrite E, !bind_Done_l. cbn [deref app] in *. rewrite bind_Done_l.
    rewrite (used_filled al names) by done. rewrite Nat2Z.id. apply (headers_total h names) with (i := O); try done; [|lia].
    assert (forall l names, map key l = map Some names -> Forall (fun c => key c <> None) l) as Hk; [|by eapply Hk].
    clear. induction l as [|c l IH]; intros [|n ns]; try done; cbn [map]; intros [= E1 E2]; constructor; [by rewrite E1|by eapply IH].
Qed.

Lemma fill_queue_total n : forall c queue, parsed (Some c) -> forallb (fun x => int_readable (Some x) "rowCount") (child c) = true ->
  exists r, fill_queue (Some c) n queue = Done r.
Proof.
  induction n as [|n IH]; intros c queue Hp Hr; cbn [fill_queue]; [by eexists|].
  unfold json_detach_object_from_array, snowflake_cJSON_DetachItemFromArray, snowflake_cJSON_DetachItemViaPointer.
  change (0 <? 0) with false. cbv iota. change (Z.to_nat 0) with O. destruct (child c !! O) as [x|] eqn:Ex.
  2:{ unfold json_detach. cbn [json_classify d_error]. rewrite bool_decide_true by done. by eexists. }
  unfold json_detach. destruct (json_classify _ (Some x)) eqn:Ec; cbn [d_error d_dest d_data]; [|rewrite bool_decide_true by done; by eexists..].
  rewrite bool_decide_false by (by intros []). assert (In x (child c)) as Hx by (apply list_elem_of_In; by eapply list_elem_of_lookup_2).
  pose proof (child_parsed c x Hp Hx) as Hpx. destruct (copy_string_total None (Some x) "url" Hpx) as (e & u & -> & Hu). rewrite bind_Done_l. cbv beta iota.
  case_bool_decide as He; [by eexists|]. rewrite forallb_forall in Hr.
  destruct (copy_int_total 0 (Some x) "rowCount" (Hr x Hx)) as (e2 & k & ->). rewrite bind_Done_l. cbv beta iota. case_bool_decide; [by eexists|].
  destruct (Hu ltac:(by destruct e; try done; exfalso; apply He)) as (t & -> & _). cbn [deref]. rewrite bind_Done_l.
  apply IH; [apply parsed_fewer; [done|]; intros y; apply delete_in|]. apply forallb_forall. intros y Hy. apply Hr.
  destruct c as [? ? ? ? ? ch]. cbn [set_child child] in *. by eapply delete_in.
Qed.

Section Answers.
  Context {St : Type} `{Dict nat St} (pt : pthread_answers) (chunk_answer : nat -> string -> slot_answer).

Lemma start_chunks_total data (s : SF_STMT St) : parsed data -> readable_chunks data = true -> exists ok s', start_chunks pt chunk_answer data s = Done (ok, s').
Proof.
  intros Hp Hr. unfold start_chunks, readable_chunks in *. destruct (snowflake_cJSON_GetObjectItem data "chunks") as [c|] eqn:Ec; [|by do 2 eexists].
  apply andb_prop in Hr as [Hr Hh]. destruct (copy_string_total None data "qrmk" Hp) as (e & q & -> & _). rewrite bind_Done_l. cbv beta iota.
  assert (exists r, chunk_downloader_init pt q (snowflake_cJSON_GetObjectItem data "chunkHeaders") (Some c) 2 4 = Done r) as [r ->].
  { unfold chunk_downloader_init. change ((2 <=? 0) || (4 <=? 0)) with false. cbv iota. destruct (snowflake_cJSON_IsArray (Some c)); [|by eexists]. cbn [negb].
    pose proof (member_key _ _ _ Ec) as Hk. destruct (key c) as [k|]; [|done]. cbn [deref]. rewrite bind_Done_l. destruct (String.eqb k "chunks"); [|by eexists]. cbn [negb].
    assert (exists hs, match snowflake_cJSON_GetObjectItem data "chunkHeaders" with
      | Some _ => create_chunk_headers (snowflake_cJSON_GetObjectItem data "chunkHeaders") | None => Done (Some []) end = Done hs) as [hs ->].
    { pose proof (item_parsed_opt data "chunkHeaders" Hp) as Hph. destruct (snowflake_cJSON_GetObjectItem data "chunkHeaders") as [h|]; [by apply create_chunk_headers_total|by eexists]. }
    rewrite bind_Done_l. destruct hs as [hs|]; [|by eexists]. cbv zeta. destruct (lock_refused pt); [by eexists|].
    destruct (fill_queue_total (Z.to_nat (snowflake_cJSON_GetArraySize (Some c))) c [] (item_parsed _ _ _ Hp Ec) Hr) as [qs ->]. rewrite bind_Done_l.
    destruct qs, (thread_refused pt); by eexists. }
  rewrite bind_Done_l. destruct r; by do 2 eexists.
Qed.

Lemma read_rowset_total data (s : SF_STMT St) : parsed data -> int_readable data "total" = true -> readable_chunks data = true ->
  exists ok s', read_rowset pt chunk_answer data s = Done (ok, s').
Proof.
  intros Hp Ht Hc. unfold read_rowset. cbv zeta. set (d := json_detach_array_from_object (raw_results s) data "rowset").
  assert (forall name, no_nul name = true -> case_cmp "rowset" name <> 0 -> snowflake_cJSON_GetObjectItem (d_data d) name = snowflake_cJSON_GetObjectItem data name) as Hs.
  { intros name Hn Hne. by apply d_data_same. }
  case_bool_decide; [by do 2 eexists|]. match goal with |- context [json_copy_int ?n (d_data d) "total"] => destruct (copy_int_total n (d_data d) "total") as (e & n' & ->) end.
  { unfold int_readable in *. by rewrite Hs. }
  rewrite bind_Done_l. cbv beta iota. apply start_chunks_total; [by apply d_data_parsed|]. unfold readable_chunks in *. by rewrite !Hs.
Qed.

(** The connection's objects after an answer. *)
Lemma set_current_total m item data sf : parsed data ->
  exists sf', set_current m item data sf = Done sf' /\ (forall m', m' <> m -> member sf' m' = member sf m') /\
    (short_text data item = true -> (forall v, member sf m = Some v -> strlen v < 980) -> forall v, member sf' m = Some v -> strlen v < 980).
Proof.
  intros Hp. unfold set_current. destruct (copy_string_total (member sf m) data item Hp) as (e & v & E & _). rewrite E, bind_Done_l. cbv beta iota.
  eexists. split; [done|]. split; [intros m' Hm; by apply set_member_ne|]. intros Hs Hold t. rewrite set_member_eq. intros ->.
  unfold json_copy_string, short_text in *. destruct (snowflake_cJSON_GetObjectItem data item) as [j|]; [|injection E as <- E; by apply Hold].
  unfold json_classify in E. destruct (snowflake_cJSON_IsNull (Some j)); [injection E as <- E; by apply Hold|].
  destruct (snowflake_cJSON_IsString (Some j)); [|injection E as <- E; by apply Hold]. cbn [deref] in E. rewrite bind_Done_l in E. cbn [mbind option_bind] in Hs.
  destruct (valuestring j) as [u|]; [|done]. cbn [deref] in E. rewrite bind_Done_l in E. injection E as <- <-. by apply Z.ltb_lt.
Qed.

Lemma current_objects_total data sf : parsed data -> names_fit sf ->
  forallb (short_text data) ["finalDatabaseName"; "finalSchemaName"; "finalWarehouseName"] = true ->
  exists sf', _set_current_objects data sf = Done sf' /\ names_fit sf'.
Proof.
  intros Hp Hf Hs. cbn [forallb] in Hs. repeat (apply andb_prop in Hs as [?Hs Hs]). unfold _set_current_objects.
  destruct (set_current_total Database "finalDatabaseName" data sf Hp) as (sf1 & -> & Hk1 & Hn1). rewrite bind_Done_l.
  destruct (set_current_total Schema "finalSchemaName" data sf1 Hp) as (sf2 & -> & Hk2 & Hn2). rewrite bind_Done_l.
  destruct (set_current_total Warehouse "finalWarehouseName" data sf2 Hp) as (sf3 & -> & Hk3 & Hn3). rewrite bind_Done_l.
  destruct (set_current_total Role "finalRoleName" data sf3 Hp) as (sf4 & -> & Hk4 & _). exists sf4. split; [done|].
  intros m v [->|[->| ->]]; rewrite Hk4 by done.
  - rewrite Hk3, Hk2 by done. apply Hn1; [done|]. intros u. apply Hf. auto.
  - rewrite Hk3 by done. apply Hn2; [done|]. intros u. rewrite Hk1 by done. apply Hf. auto.
  - apply Hn3; [done|]. intros u. rewrite Hk2, Hk1 by done. apply Hf. auto.
Qed.

Lemma rowtype_total data (s : SF_STMT St) : parsed data -> desc s = None -> readable_rowtype data = true -> exists s', read_rowtype data s = Done s'.
Proof.
  intros Hp Hd Hr. unfold read_rowtype, readable_rowtype in *. cbv zeta. destruct (snowflake_cJSON_GetObjectItem data "rowtype") as [rt|] eqn:E; [|by eexists].
  destruct (snowflake_cJSON_IsArray (Some rt)); [|by eexists]. unfold _snowflake_stmt_desc_reset. cbn [desc set_counts]. rewrite Hd, bind_Done_l.
  assert (exists d, set_description (Some rt) = Done d) as [d ->]; [|rewrite bind_Done_l; by eexists].
  unfold set_description. destruct (_ =? 0); [by eexists|].
  destruct (describe_loop_total rt (Z.to_nat (snowflake_cJSON_GetArraySize (Some rt))) 0 (item_parsed _ _ _ Hp E) Hr) as [ds ->]. rewrite bind_Done_l. by eexists.
Qed.

Lemma query_answer_total data (s : SF_STMT St) sf w : parsed data -> desc s = None -> names_fit sf -> readable_rows data = true ->
  exists ok s' sf' w', query_answer pt chunk_answer data s sf w = Done (ok, s', sf', w').
Proof.
  intros Hp Hd Hf Hr. unfold readable_rows in Hr. do 6 (apply andb_prop in Hr as [Hr ?Hr]). unfold query_answer.
  destruct (current_objects_total data sf Hp Hf Hr) as (sf1 & -> & Hf1). rewrite bind_Done_l.
  destruct (parameters_total data sf1 w) as (r & sf2 & w2 & ->); [done..|]. rewrite bind_Done_l. cbv beta iota.
  destruct (copy_int_total 0 data "statementTypeId") as (e & n & ->); [done|]. rewrite bind_Done_l. cbv beta iota zeta.
  match goal with |- context [read_rowtype data ?s1] => destruct (rowtype_total data s1 Hp Hd) as [s2 ->]; [done|] end. rewrite bind_Done_l.
  destruct (read_rowset_total data s2 Hp) as (ok & s3 & ->); [done..|]. rewrite bind_Done_l. cbv beta iota. by do 4 eexists.
Qed.

Lemma read_answer_total pg resp (s : SF_STMT St) sf w : parsed resp -> desc s = None -> names_fit sf ->
  (String.length (sfqid s) < SF_UUID4_LEN)%nat -> (String.length (e_sqlstate (error s)) < SF_SQLSTATE_LEN)%nat -> readable_query pg resp = true ->
  exists ok s' sf' w', read_answer pt chunk_answer pg resp s sf w = Done (ok, s', sf', w').
Proof.
  intros Hp Hd Hf Hq Hst Hr. pose proof (data_parsed resp Hp) as Hpd. unfold read_answer, readable_query in *. cbv zeta in *.
  destruct (copy_array_total SF_UUID4_LEN (sfqid s) (snowflake_cJSON_GetObjectItem resp "data") "queryId" Hpd Hq) as (e & qid & ->). rewrite bind_Done_l. cbv beta iota.
  destruct (json_copy_bool false resp "success") as [je ok]. cbn [snd] in Hr. case_bool_decide; [by do 4 eexists|]. destruct ok; cbn [negb].
  - destruct pg.
    + destruct (read_put_get_total _ Hpd Hr) as [r ->]. rewrite bind_Done_l. by do 4 eexists.
    + by apply query_answer_total.
  - unfold query_refused.
    match goal with |- context [copy_array SF_SQLSTATE_LEN ?x ?y "sqlState"] => destruct (copy_array_total SF_SQLSTATE_LEN x y "sqlState" Hpd Hst) as (e2 & st & ->) end.
    rewrite bind_Done_l. cbv beta iota zeta. destruct (read_code_text resp Hr) as [n ->]. rewrite !bind_Done_l. by do 4 eexists.
Qed.
End Answers.

(** ** The call *)

Lemma number_tree hooks n : c_tree_opt (snowflake_cJSON_CreateNumber hooks n).
Proof. unfold snowflake_cJSON_CreateNumber, cJSON_New_Item. by destruct (hooks sizeof_cJSON). Qed.
Lemma bool_tree hooks b : c_tree_opt (snowflake_cJSON_CreateBool hooks b).
Proof. unfold snowflake_cJSON_CreateBool, cJSON_New_Item. by destruct (hooks sizeof_cJSON), b. Qed.

Lemma query_body_total ph text counter now id : plain (Some text) -> plain id ->
  exists r, (match query_body ph now (Some text) counter id None with Some b => snowflake_cJSON_Print ph b | None => Done None end) = Done r.
Proof.
  intros Ht Hi. destruct (print_total ph (query_body ph now (Some text) counter id None)) as [r Hr]; [|by exists r].
  unfold query_body, create_query_json_body. cbv zeta. assert (forall o, c_tree_opt o -> c_tree_opt (snowflake_cJSON_AddNumberToObject (allocate ph)
    (snowflake_cJSON_AddNumberToObject (allocate ph) (snowflake_cJSON_AddBoolToObject (allocate ph) o "asyncExec" false) "sequenceId" (double_of_Z counter))
    "querySubmissionTime" (SFmul 53 1024 (double_of_Z now) (double_of_Z 1000)))) as Hn.
  { intros o Ho. apply add_item_tree; [done| |apply number_tree]. apply add_item_tree; [done| |apply number_tree]. apply add_item_tree; [done|done|apply bool_tree]. }
  destruct id as [id|]; [apply add_text_tree; [done|done|]|]; apply Hn; (apply add_text_tree; [done|done|apply object_tree]).
Qed.


Section Query.
  Context {St : Type} `{Dict nat St}.
  Context (ph : internal_hooks) (CA_BUNDLE_FILE : option string) (curl_easy_escape : string -> string)
    (curl_easy_init : nat -> bool) (uuid4_generate : nat -> string) (now : Z)
    (pt : pthread_answers) (chunk_answer : nat -> string -> slot_answer).
  Context (escape_unreserved : forall s, str_all unreserved s = true -> curl_easy_escape s = s).
  Context (escape_c_string : forall s, no_nul (curl_easy_escape s) = true).
  Context (escape_grows : forall s, strlen (curl_easy_escape s) <= 3 * strlen s).
  Context (uuid_ok : forall i, str_all unreserved (uuid4_generate i) = true /\ String.length (uuid4_generate i) = 36%nat).

(** A request of the query, with the counter already advanced. *)
Definition query_request (fuel : nat) (conf : config) (url : string) (vars : list URL_KEY_VALUE) (body : option string) (pg : bool) (w : world)
  : outcome (bool * option cJSON * world) :=
  request ph CA_BUNDLE_FILE curl_easy_escape curl_easy_init uuid4_generate conf fuel None url vars body None POST_REQUEST_TYPE pg w.

Lemma state_short e (s : SF_STMT St) : (String.length (e_sqlstate (error s)) < SF_SQLSTATE_LEN)%nat ->
  (String.length (e_sqlstate (error (take_error e s))) < SF_SQLSTATE_LEN)%nat.
Proof.
  unfold SF_SQLSTATE_LEN. destruct e as [e|]; [|done]. intros _. cbn -[str_take]. rewrite str_take_min. lia.
Qed.

Lemma execute_total fuel mem (s : SF_STMT St) text sf w pg :
  params s = None -> desc s = None -> sfqid s = EmptyString -> sql_text s = Some text -> no_nul text = true ->
  c_strings sf -> usable sf -> names_fit sf -> c_sequence_counter sf < LLONG_MAX -> fine w -> (3 * length (answers w) + 2 <= fuel)%nat ->
  (exists r s' sf' w', execute_stmt ph CA_BUNDLE_FILE curl_easy_escape curl_easy_init uuid4_generate now pt chunk_answer fuel mem s sf w pg = Done (r, s', sf', w')) \/
  (exists conf url vars body resp w1, query_request fuel conf url vars body pg (with_err None w) = Done (true, Some resp, w1) /\ readable_query pg (Some resp) = false).
Proof.
  intros Hpa Hd Hq Hsql Ht Hc Hu Hf Hcnt Hw Hfuel. unfold execute_stmt. destruct (LLONG_MAX <=? c_sequence_counter sf) eqn:Ec; [lia|]. cbv zeta.
  set (id := uuid4_generate (length (sent w))). set (sf1 := set_request _ _ sf).
  assert (c_strings sf1) as Hc1 by exact Hc. assert (usable sf1) as Hu1 by exact Hu. assert (names_fit sf1) as Hf1 by exact Hf.
  pose proof (id_member curl_easy_escape uuid4_generate escape_unreserved escape_c_string uuid_ok (length (sent w))) as Hid. fold id in Hid.
  unfold make_bindings, _snowflake_get_current_param_style. cbn [params set_call clear_error set_error]. rewrite Hpa, bind_Done_l. cbv beta iota.
  destruct (negb (negb (is_string_empty (member sf1 DirectURL))) && (is_string_empty (master_token w) || is_string_empty (token w))); [left; by do 4 eexists|].
  cbn [sql_text set_call clear_error set_error]. rewrite Hsql.
  set (direct := negb (is_string_empty (member sf1 DirectURL))).
  destruct (query_body_total ph text (c_sequence_counter sf + 1) now (if direct then Some id else None)) as [body ->].
  { exact Ht. } { destruct direct; [apply Hid|done]. }
  rewrite bind_Done_l.
  assert (exists url, (if direct then deref (member sf1 DirectURL) else Done QUERY_URL) = Done url /\ no_nul url = true /\ strlen url <= 2 ^ 60 + 2) as (url & -> & Hurl1 & Hurl2).
  { destruct direct eqn:Ed; [|by exists QUERY_URL]. pose proof (Hc1 DirectURL) as [H1 H2]. unfold direct in Ed. destruct (member sf1 DirectURL) as [u|]; [|done].
    exists u. split_and!; [done|done|lia]. }
  rewrite bind_Done_l. destruct (config_usable sf1 Hu1 Hc1) as (conf & -> & Hconf). rewrite bind_Done_l.
  set (vars := if direct then [] else _).
  assert (Forall plain_var vars /\ strlen (vars_text curl_easy_escape vars) < 2 ^ 60) as [Hv1 Hv2].
  { unfold vars. destruct direct; [split; [by apply Forall_nil|done]|]. split; [by apply Forall_singleton|].
    apply (vars_length curl_easy_escape escape_grows); [|cbn; lia]. apply Forall_singleton. by split. }
  destruct (request_ends ph CA_BUNDLE_FILE curl_easy_escape curl_easy_init uuid4_generate conf escape_unreserved escape_c_string uuid_ok Hconf
    fuel None url vars body None POST_REQUEST_TYPE pg (with_err None w) Hurl1 Hurl2 Hv1 Hv2 Hw I Hfuel) as (ok & resp & w2 & Hr & _ & Hp & _ & Hok).
  fold (query_request fuel conf url vars body pg (with_err None w)) in Hr. unfold query_request in *. rewrite Hr, bind_Done_l. cbv beta iota.
  destruct ok; [|left; by do 4 eexists]. destruct (Hok eq_refl) as [_ Hsome]. destruct resp as [resp|]; [|done].
  destruct (readable_query pg (Some resp)) eqn:Ere; [|right; by exists conf, url, vars, body, resp, w2].
  left. match goal with |- context [read_answer pt chunk_answer pg (Some resp) ?s2 sf1 ?w3] =>
    destruct (read_answer_total pt chunk_answer pg (Some resp) s2 sf1 w3) as (ok' & s' & sf' & w' & ->) end; try done.
  - by destruct (err w2).
  - destruct (err w2); cbn; rewrite Hq; unfold SF_UUID4_LEN; cbn; lia.
  - apply state_short. unfold SF_SQLSTATE_LEN. cbn. lia.
  - rewrite bind_Done_l. cbv beta iota. by do 4 eexists.
Qed.

End Query.

(** ** A query over a session that has expired everywhere *)

