(* ===== verification/QueryText.v ===== *)
(** * The text of a query's request, as the server reads it

    Binding (Stmt, Bind), the body of the request (Session, Execute), its printing
    (CJsonPrint) and its reading (CJsonParse) together: what the application binds and
    executes is what a reader of the posted JSON finds. *)

From S2P Require Import Prelude RbTree TreeMap ParamStore CLib CFloat Status CJson CJsonPrint CJsonParse JsonHelpers ArrayList Url Http Session.
From S2P Require Import Connect Results PutGet ChunkSetup Stmt Bind Fetch Execute.

(** ** Nodes the printer and the parser agree on *)

Definition json_number (k : string) (n : double) : cJSON := mk_cJSON cJSON_Number None (saturate_int n) n (Some k) [].
Definition json_false (k : string) : cJSON := mk_cJSON cJSON_False None 0 zero_double (Some k) [].

(** A named node that is read back as it is, nested at most [n] deep. *)
Definition stable (n : nat) (j : cJSON) : Prop := json_tree n j = true /\ c_tree j = true /\ norm (key j) j = j /\ key j <> None.

Lemma stable_string n k v : no_nul k = true -> no_nul v = true -> stable n (json_string k v).
Proof. intros Hk Hv. unfold stable, json_string. cbn. by rewrite Hk, Hv. Qed.

Lemma stable_number n k d : no_nul k = true -> reads_back d = true -> stable n (json_number k d).
Proof. intros Hk Hd. unfold stable, json_number. cbn. by rewrite Hk, Hd. Qed.

Lemma stable_object n k ch : no_nul k = true -> Forall (stable n) ch -> stable (S n) (json_object (Some k) ch).
Proof.
  intros Hk Hch. unfold stable, json_object. cbn [json_tree c_tree norm type valuestring key child].
  change (Z.land cJSON_Object 255) with cJSON_Object. cbn [Z.eqb orb andb]. rewrite Hk. split_and!; try done.
  - cbn. apply forallb_forall. intros x Hx. rewrite Forall_forall in Hch. by apply Hch, list_elem_of_In.
  - cbn. apply forallb_forall. intros x Hx. rewrite Forall_forall in Hch. by apply Hch, list_elem_of_In.
  - cbn. f_equal. induction Hch as [|x ch (_ & _ & Hn & Hx) _ IH]; [done|]. cbn. rewrite IH. f_equal. by destruct (key x).
Qed.

Lemma stable_tree n ch : Forall (stable n) ch ->
  json_tree (S n) (json_object None ch) = true /\ c_tree (json_object None ch) = true /\ norm None (json_object None ch) = json_object None ch.
Proof.
  intros Hch. destruct (stable_object n "" ch eq_refl Hch) as (H1 & H2 & H3 & _). split_and!; [exact H1|exact H2|].
  unfold json_object in *. cbn in *. injection H3 as H3. by rewrite H3.
Qed.

(** What the printer makes of the members [ch], the parser reads back. *)
Lemma members_read_back ph n ch fmt text : S n = CJSON_NESTING_LIMIT -> Forall (stable n) ch ->
  print ph (json_object None ch) fmt = Done (Some text) ->
  snowflake_cJSON_Parse all_hooks (Some text) = Done (Some (json_object None ch)).
Proof.
  intros Hn Hch Hp. destruct (stable_tree n ch Hch) as (Ht & Hc & Hnorm). rewrite Hn in Ht.
  destruct (print_ok ph (json_object None ch) fmt Hc) as (r & E & Hr & _). rewrite E in Hp. injection Hp as ->.
  rewrite (parse_rendered _ fmt text Ht (Hr text eq_refl)). by rewrite Hnorm.
Qed.

(** ** The body *)

(** The members of a query's body. *)
Definition query_members (text : string) (counter now : Z) (id : option string) (bindings : option (list cJSON)) : list cJSON :=
  json_string "sqlText" text :: json_false "asyncExec" :: json_number "sequenceId" (double_of_Z counter) ::
  json_number "querySubmissionTime" (SFmul 53 1024 (double_of_Z now) (double_of_Z 1000)) ::
  match id with Some id => [json_string "requestId" id] | None => [] end ++
  match bindings with Some js => [json_object (Some "bindings") js] | None => [] end.

Section Built.
  Context (re : option (Z -> bool)) (now : Z).
Let ph : internal_hooks := mk_hooks (fun _ => true) re.

Lemma query_body_members text counter id bindings :
  query_body ph now (Some text) counter id (json_object None <$> bindings) = Some (json_object None (query_members text counter now id bindings)).
Proof.
  unfold query_body, create_query_json_body, add_string. change (allocate ph) with (fun _ : Z => true).
  destruct id as [id|], bindings as [js|]; reflexivity.
Qed.

Lemma query_members_stable text counter id bindings :
  no_nul text = true -> match id with Some id => no_nul id = true | None => True end ->
  reads_back (double_of_Z counter) = true -> reads_back (SFmul 53 1024 (double_of_Z now) (double_of_Z 1000)) = true ->
  match bindings with Some js => Forall (stable 998) js | None => True end ->
  Forall (stable 999) (query_members text counter now id bindings).
Proof.
  intros Ht Hi Hc Hn Hb. unfold query_members. repeat apply Forall_cons_2.
  - by apply stable_string.
  - by repeat split.
  - by apply stable_number.
  - by apply stable_number.
  - apply Forall_app. split; [destruct id|destruct bindings]; first [by apply Forall_nil|apply Forall_singleton].
    + by apply stable_string.
    + by apply (stable_object 998).
Qed.
End Built.

(** The entries of bound inputs. *)
Lemma c_string_no_nul b s : c_string b = Some s -> no_nul s = true.
Proof.
  revert s. induction b as [|c b IH]; intros s; cbn; [done|]. destruct (code c =? 0) eqn:E; [by intros [= <-]|].
  destruct (c_string b) as [t|]; [|done]. intros [= <-]. cbn. by rewrite E, IH.
Qed.

Lemma type_name_no_nul t : no_nul (snowflake_type_to_string t) = true.
Proof. by destruct t. Qed.

Lemma entry_stable mem p key j n : no_nul key = true -> spec_entry mem p key j -> stable (S n) j.
Proof.
  intros Hk (input & text & _ & (value & _ & Ht & Hf) & ->). apply stable_object; [done|]. apply Forall_cons.
  split; [apply stable_string; [done|apply type_name_no_nul]|]. destruct text as [t|]; [|done]. apply Forall_singleton, stable_string; [done|].
  destruct value as [[b|lit]|]; cbn in Ht, Hf; try done. destruct (c_string b) as [t'|] eqn:E; [|done]. injection Ht as <-. by apply c_string_no_nul in E.
Qed.

Section Sent.
  Context {St : Type} `{Dict nat St} (re : option (Z -> bool)) (now : Z).
Let ph : internal_hooks := mk_hooks (fun _ => true) re.

Lemma query_text_ok text counter id bindings :
  no_nul text = true -> match id with Some id => no_nul id = true | None => True end ->
  reads_back (double_of_Z counter) = true -> reads_back (SFmul 53 1024 (double_of_Z now) (double_of_Z 1000)) = true ->
  match bindings with Some js => Forall (stable 998) js | None => True end ->
  exists b r, query_body ph now (Some text) counter id (json_object None <$> bindings) = Some b /\ snowflake_cJSON_Print ph b = Done r /\
    forall printed, r = Some printed ->
      snowflake_cJSON_Parse all_hooks (Some printed) = Done (Some (json_object None (query_members text counter now id bindings))).
Proof.
  intros Ht Hi Hc Hn Hb. unfold ph. rewrite query_body_members. pose proof (query_members_stable now text counter id bindings Ht Hi Hc Hn Hb) as Hs.
  destruct (stable_tree 999 _ Hs) as (_ & Hct & _). destruct (print_ok (mk_hooks (fun _ => true) re) _ true Hct) as (r & E & _).
  eexists _, r. split; [done|]. split; [exact E|]. intros printed ->. by eapply (members_read_back _ 999).
Qed.

(** C7: Parameters bound by position reach the server: binding the inputs [qs] of the
    positions 1, 2, ... in any order, making the bindings, building the body of the
    request and printing it never fails to be defined, and whoever parses the text that
    is posted finds exactly the statement's text, the synchronous flag, the sequence
    number, the submission time and one entry per position with its input's type and
    text, in the order of the positions. *)
Theorem bound_query_read_back mem (s : SF_STMT St) ps qs js text counter :
  params s = None -> params_len s = 0 -> ps <> [] -> Permutation ps qs -> in_positions mem qs -> Z.of_nat (length ps) < 2 ^ 32 ->
  Forall2 (fun jq j => spec_entry mem (snd jq) (fmt_d (Z.of_nat (fst jq) + 1)) j) (imap pair qs) js ->
  no_nul text = true -> reads_back (double_of_Z counter) = true -> reads_back (SFmul 53 1024 (double_of_Z now) (double_of_Z 1000)) = true ->
  exists s' bindings s'' b r, snowflake_bind_param_array mem (Some s) ps = Done (SF_STATUS_SUCCESS, Some s') /\
    make_bindings (allocate ph) mem s' = Done (bindings, s'') /\ query_body ph now (Some text) counter None bindings = Some b /\
    snowflake_cJSON_Print ph b = Done r /\
    forall printed, r = Some printed -> snowflake_cJSON_Parse all_hooks (Some printed) =
      Done (Some (json_object None (query_members text counter now None (Some js)))).
Proof.
  intros Hp0 Hn0 Hne Hperm Hq Hlen Hjs Ht Hc Hn.
  destruct (positional_ok mem s ps qs js Hp0 Hn0 Hne Hperm Hq Hlen Hjs) as (s' & s'' & Hbind & Hmake & _).
  destruct (query_text_ok text counter None (Some js)) as (b & r & Hb & Hr & Hparse); try done.
  - apply Forall_forall. intros j Hj. apply list_elem_of_lookup_1 in Hj as [i Hi].
    apply (Forall2_lookup_r _ _ _ _ _ Hjs) in Hi as ([i' q] & _ & Hi). by apply (entry_stable mem q _ j 997) in Hi; [|apply fmt_d_no_nul].
  - by exists s', (Some (json_object None js)), s'', b, r.
Qed.
End Sent.

(** ** A statement with two parameters *)

Lemma bound_query_read_back_witness :
  exists s' bindings s'' b printed, snowflake_bind_param_array (St := RbTree.store nat) (two_inputs false) (Some zero_stmt) [1%nat; 2%nat] = Done (SF_STATUS_SUCCESS, Some s') /\
    make_bindings (fun _ => true) (two_inputs false) s' = Done (bindings, s'') /\
    query_body copy_hooks 1500000000 (Some "insert into t values (?, ?)") 7 None bindings = Some b /\ snowflake_cJSON_Print copy_hooks b = Done (Some printed) /\
    snowflake_cJSON_Parse all_hooks (Some printed) = Done (Some (json_object None
      (query_members "insert into t values (?, ?)" 7 1500000000 None (Some [red "1"; minus_seven "2"])))).
Proof.
  destruct (bound_query_read_back (St := RbTree.store nat) None 1500000000 (two_inputs false) zero_stmt [1%nat; 2%nat] [2%nat; 1%nat] [red "1"; minus_seven "2"]
    "insert into t values (?, ?)" 7) as (s' & bindings & s'' & b & r & H1 & H2 & H3 & H4 & H5); try done.
  - apply perm_swap.
  - intros j q Hj. destruct j as [|[|j]]; cbn in Hj; simplify_eq; eexists; by split.
  - cbn [imap]. apply Forall2_cons. split; [apply entry_red|]. apply Forall2_cons. split; [apply entry_minus_seven|]. apply Forall2_nil. done.
  - exists s', bindings, s'', b. destruct r as [printed|].
    + exists printed. split_and!; try done. by apply H5.
    + exfalso. vm_compute in H1. injection H1 as <-. vm_compute in H2. injection H2 as <- <-. vm_compute in H3. injection H3 as <-. vm_compute in H4. discriminate.
Defined.
