(* ===== verification/ExecuteRows.v ===== *)
(** * What executing a statement comes to

    From the answer of the server to the rows that fetching gives: the composition of
    Session, Execute, ChunkSetup and Fetch. *)

From S2P Require Import Prelude RbTree TreeMap ParamStore CLib CFloat Status CJson CJsonPrint CJsonParse JsonHelpers ArrayList Url Http Session SessionTotal.
From S2P Require Import Connect Results PutGet ChunkSetup Stmt Bind Fetch Execute.

Section Rows.
  Context {St : Type} `{Dict nat St}.
  Context (ph : internal_hooks) (CA_BUNDLE_FILE : option string) (curl_easy_escape : string -> string)
    (curl_easy_init : nat -> bool) (uuid4_generate : nat -> string) (now : Z)
    (pt : pthread_answers) (chunk_answer : nat -> string -> slot_answer).

(** ** The parts of an answer *)

Definition headers_of (h : option cJSON) : Prop :=
  match h with
  | None => True
  | Some h => exists kvs, snowflake_cJSON_IsObject (Some h) = true /\ Forall2 text_member (child h) kvs /\ NoDup (map fst kvs) /\ Z.of_nat (length kvs) < 2 ^ 60
  end.

(** [items]: the chunks that are announced. *)
Definition chunks_of (data : option cJSON) (items : list (string * Z)) : Prop :=
  match snowflake_cJSON_GetObjectItem data "chunks" with
  | None => items = []
  | Some c =>
      snowflake_cJSON_IsArray (Some c) = true /\ key c = Some "chunks" /\ Forall2 chunk_object (child c) items /\ Z.of_nat (length items) <= INT_MAX /\
      (exists e q, json_copy_string None data "qrmk" = Done (e, q)) /\ headers_of (snowflake_cJSON_GetObjectItem data "chunkHeaders")
  end.

(** The downloads of these chunks succeed and bring [chunks]. *)
Definition downloads (items : list (string * Z)) (chunks : list (list cJSON)) : Prop :=
  Forall2 ready_slot (imap (fun i '(u, n) => mk_slot (chunk_answer i u) n) items) chunks.

Lemma start_chunks_ok data (s : SF_STMT St) items chunks :
  lock_refused pt = None -> thread_refused pt = None -> chunk_downloader s = None -> chunks_of data items -> downloads items chunks ->
  exists d, start_chunks pt chunk_answer data s = Done (true, set_downloader d s) /\
    match d with
    | None => chunks = []
    | Some d => has_error d = false /\ signal_ok d = true /\ 0 <= consumer_head d /\
        Forall2 ready_slot (drop (Z.to_nat (consumer_head d)) (queue d)) chunks
    end.
Proof.
  intros Hl Ht Hd Hc Hdl. unfold start_chunks, chunks_of in *. destruct (snowflake_cJSON_GetObjectItem data "chunks") as [c|].
  - destruct Hc as (Ha & Hk & Hall & Hlen & (e & q & Hq) & Hh). rewrite Hq, bind_Done_l. cbv beta iota.
    assert (exists kvs, match snowflake_cJSON_GetObjectItem data "chunkHeaders" with
      | None => kvs = []
      | Some h => snowflake_cJSON_IsObject (Some h) = true /\ Forall2 text_member (child h) kvs /\ NoDup (map fst kvs) /\ Z.of_nat (length kvs) < 2 ^ 60
      end) as [kvs Hkvs].
    { unfold headers_of in Hh. destruct (snowflake_cJSON_GetObjectItem data "chunkHeaders"); [exact Hh|by exists []]. }
    rewrite (setup_ok pt q _ c kvs items 2 4) by (done || lia). rewrite bind_Done_l. cbn [q_items].
    eexists. split; [done|]. cbn [has_error signal_ok consumer_head queue]. split_and!; [done|done|lia|exact Hdl].
  - subst items. exists None. apply Forall2_nil_inv_l in Hdl as ->. split; [|done]. by destruct s; cbn in *; subst.
Qed.

Lemma rowset_detached data rs dest : snowflake_cJSON_GetObjectItem (Some data) "rowset" = Some rs -> snowflake_cJSON_IsArray (Some rs) = true ->
  exists data', json_detach_array_from_object dest (Some data) "rowset" = mk_detached SF_JSON_ERROR_NONE (Some rs) data' None /\
    forall name, no_nul name = true -> case_cmp "rowset" name <> 0 ->
      snowflake_cJSON_GetObjectItem data' name = snowflake_cJSON_GetObjectItem (Some data) name.
Proof.
  intros Hg Ha. exists (fst (snowflake_cJSON_DetachItemFromObject (Some data) "rowset")). split; [|intros name Hn Hne; by apply get_detach_other].
  unfold json_detach_array_from_object. assert (snd (snowflake_cJSON_DetachItemFromObject (Some data) "rowset") = Some rs) as Hs.
  { unfold snowflake_cJSON_DetachItemFromObject, snowflake_cJSON_DetachItemViaPointer, snowflake_cJSON_GetObjectItem in *.
    destruct (find_ci (child data) "rowset") as [i|]; [|done]. cbn in Hg. by rewrite Hg. }
  destruct (snowflake_cJSON_DetachItemFromObject (Some data) "rowset") as [o c]. cbn [snd fst] in *. subst c.
  unfold json_detach, json_classify. rewrite Ha. unfold snowflake_cJSON_IsArray, snowflake_cJSON_IsNull, has_type in *.
  destruct (Z.land (CJson.type rs) 255 =? cJSON_NULL) eqn:E; [|done]. apply Z.eqb_eq in E. rewrite E in Ha. discriminate.
Qed.
(** ** The rows *)

Record rows_answer (data : cJSON) (rows : list cJSON) (total : Z) (items : list (string * Z)) : Prop := {
  ra_rowset : exists rs, snowflake_cJSON_GetObjectItem (Some data) "rowset" = Some rs /\ snowflake_cJSON_IsArray (Some rs) = true /\ child rs = rows;
  ra_length : Z.of_nat (length rows) <= INT_MAX;
  ra_total : json_copy_int 0 (Some data) "total" = Done (SF_JSON_ERROR_NONE, total);
  ra_chunks : chunks_of (Some data) items
}.

Lemma copy_int_dest dest data item n : json_copy_int 0 data item = Done (SF_JSON_ERROR_NONE, n) -> json_copy_int dest data item = Done (SF_JSON_ERROR_NONE, n).
Proof. unfold json_copy_int. destruct (json_classify _ _); congruence. Qed.

Lemma chunks_of_same data data' items :
  (forall name, no_nul name = true -> case_cmp "rowset" name <> 0 -> snowflake_cJSON_GetObjectItem data' name = snowflake_cJSON_GetObjectItem data name) ->
  chunks_of data items -> chunks_of data' items.
Proof.
  intros Hs. unfold chunks_of. rewrite (Hs "chunks"), (Hs "chunkHeaders") by done. destruct (snowflake_cJSON_GetObjectItem data "chunks"); [|done].
  intros (H1 & H2 & H3 & H4 & H5 & H6). split_and!; try done. destruct H5 as (e & q & Hq). exists e, q. unfold json_copy_string in *. by rewrite Hs.
Qed.

Lemma read_rowset_ok data (s : SF_STMT St) rows total items chunks :
  lock_refused pt = None -> thread_refused pt = None -> chunk_downloader s = None -> rows_answer data rows total items -> downloads items chunks ->
  exists s', read_rowset pt chunk_answer (Some data) s = Done (true, s') /\ pending s' rows chunks /\
    total_rowcount s' = total /\ total_row_index s' = 0 /\ desc s' = desc s /\ total_fieldcount s' = total_fieldcount s /\ is_dml s' = is_dml s /\
    error s' = error s /\ sfqid s' = sfqid s /\ sequence_counter s' = sequence_counter s /\ request_id s' = request_id s.
Proof.
  intros Hl Ht Hd [(rs & Hg & Ha & Hch) Hlen Htot Hc] Hdl. unfold read_rowset.
  destruct (rowset_detached data rs (raw_results s) Hg Ha) as (data' & -> & Hsame). cbn [d_error d_dest d_data].
  rewrite bool_decide_false by (by intros []). cbv zeta.
  assert (forall d, json_copy_int d data' "total" = Done (SF_JSON_ERROR_NONE, total)) as Ht'.
  { intros d. apply copy_int_dest. unfold json_copy_int in *. by rewrite Hsame. }
  rewrite Ht', bind_Done_l. cbv beta iota. rewrite bool_decide_false by (by intros []).
  match goal with |- exists _, start_chunks _ _ _ ?s1 = _ /\ _ => set (s1' := s1) end.
  destruct (start_chunks_ok data' s1' items chunks Hl Ht) as (d & -> & Hq); [done|by eapply chunks_of_same|done|].
  eexists. split; [done|]. split; [|by split_and!]. split; [|split].
  - cbn. rewrite Hch. apply wrapS_small; [unfold INT_MAX in *|]; lia.
  - right. by exists rs.
  - exact Hq.
Qed.

(** The rest of the answer, as reading it comes out. *)
Record shape (data : cJSON) (columns : option (list SF_COLUMN_DESC)) (fields : Z) (dml : bool) : Prop := {
  sh_rowtype : exists rt, snowflake_cJSON_GetObjectItem (Some data) "rowtype" = Some rt /\ snowflake_cJSON_IsArray (Some rt) = true /\
    fields = snowflake_cJSON_GetArraySize (Some rt) /\ set_description (Some rt) = Done columns;
  sh_type : exists e n, json_copy_int 0 (Some data) "statementTypeId" = Done (e, n) /\
    dml = if bool_decide (e <> SF_JSON_ERROR_NONE) then false else detect_stmt_type n
}.

Lemma query_answer_ok data (s : SF_STMT St) sf w columns fields dml rows total items chunks sf1 r sf2 w2 :
  lock_refused pt = None -> thread_refused pt = None -> desc s = None -> chunk_downloader s = None ->
  shape data columns fields dml -> rows_answer data rows total items -> downloads items chunks ->
  _set_current_objects (Some data) sf = Done sf1 -> _set_parameters_session_info (Some data) sf1 w = Done (r, sf2, w2) ->
  exists s', query_answer pt chunk_answer (Some data) s sf w = Done (true, s', sf2, w2) /\ pending s' rows chunks /\
    desc s' = columns /\ total_fieldcount s' = fields /\ total_rowcount s' = total /\ total_row_index s' = 0 /\ is_dml s' = dml /\
    error s' = error s /\ sfqid s' = sfqid s /\ sequence_counter s' = sequence_counter s /\ request_id s' = request_id s.
Proof.
  intros Hl Ht Hds Hd [(rt & Hrt & Hart & -> & Hcol) (e & n & Hty & ->)] Hr Hdl Hcur Hset. unfold query_answer.
  rewrite Hcur, bind_Done_l, Hset, bind_Done_l. cbv beta iota. rewrite Hty, bind_Done_l. cbv beta iota zeta.
  unfold read_rowtype. rewrite Hrt, Hart. unfold _snowflake_stmt_desc_reset. cbn [desc set_counts]. rewrite Hds, bind_Done_l, Hcol, !bind_Done_l.
  match goal with |- context [read_rowset _ _ _ ?s1] => set (s1' := s1) end.
  destruct (read_rowset_ok data s1' rows total items chunks Hl Ht) as (s' & -> & Hp & H1 & H2 & H3 & H4 & H5 & H6 & H7 & H8 & H9); [done..|].
  rewrite bind_Done_l. cbv beta iota. exists s'. split; [done|]. split_and!; first [done|congruence].
Qed.
(** ** One request *)

(** The answer [j] says that the statement succeeded. *)
Record success_answer (j data : cJSON) (qid : string) : Prop := {
  sa_success : json_copy_bool false (Some j) "success" = (SF_JSON_ERROR_NONE, true);
  sa_data : snowflake_cJSON_GetObjectItem (Some j) "data" = Some data;
  sa_qid : exists e, copy_array SF_UUID4_LEN EmptyString (Some data) "queryId" = Done (e, qid)
}.

Lemma request_accepted fuel conf url vars body w a rest j t block full :
  curl_easy_init (length (sent w)) = true -> token w = Some t -> answers w = a :: rest ->
  encode_url curl_easy_escape (protocol conf) (account conf) (host conf) (port conf) url vars (directURL_param conf) = Done block ->
  c_string block = Some full -> brings ph full a j -> settled j ->
  request ph CA_BUNDLE_FILE curl_easy_escape curl_easy_init uuid4_generate conf (S (S (S fuel))) None url vars body None POST_REQUEST_TYPE false w =
    Done (true, Some j, mk_world rest (sent w ++ [post_sent full (create_header_token (snowflake_token_header t) false) body a])
                          (err w) (token w) (master_token w)).
Proof.
  intros Hc Ht Ha Hu Hb Hbr Hacc. rewrite req_S. unfold request_body. rewrite Hc. cbn [negb]. rewrite Ht, Hu, bind_Done_l, Hb. cbn [deref].
  rewrite bind_Done_l. rewrite (post_settled ph CA_BUNDLE_FILE curl_easy_escape curl_easy_init uuid4_generate conf fuel full _ body None w a rest j) by done. by rewrite Ht.
Qed.

(** A query over a session, up to the answer [j] of the server: the statement is fresh and
    [j] is read into it. *)
Record query_sent (s : SF_STMT St) (text p t m : string) (sf : SF_CONNECT) (w : world) (a : attempt) (rest : list attempt) (j : cJSON)
    (s_body : option string) (block : list ascii) (url : string) : Prop := {
  qs_reset : ready_to_reset s;
  qs_command : _is_put_get_command (Some text) = Done false;
  qs_counter : c_sequence_counter sf + 1 <= LLONG_MAX;
  qs_direct : is_string_empty (member sf DirectURL) = true;
  qs_protocol : member sf Protocol = Some p;
  qs_token : token w = Some t /\ is_string_empty (Some t) = false;
  qs_master : master_token w = Some m /\ is_string_empty (Some m) = false;
  qs_curl : curl_easy_init (length (sent w)) = true;
  qs_body : (match query_body ph now (Some text) (c_sequence_counter sf + 1) None None with Some b => snowflake_cJSON_Print ph b | None => Done None end)
    = Done s_body;
  qs_url : encode_url curl_easy_escape p (member sf Account) (member sf Host) (member sf Port) QUERY_URL
    [mk_var "requestId=" (Some (uuid4_generate (length (sent w))))] (member sf DirectURL_param) = Done block /\ c_string block = Some url;
  qs_answer : answers w = a :: rest /\ brings ph url a j /\ settled j
}.

Lemma query_answered fuel mem (s : SF_STMT St) text p t m sf w a rest j s_body block url :
  query_sent s text p t m sf w a rest j s_body block url ->
  let c := c_sequence_counter sf + 1 in
  let id := uuid4_generate (length (sent w)) in
  let w1 := mk_world rest (sent w ++ [post_sent url (create_header_token (snowflake_token_header t) false) s_body a]) (err w) (Some t) (Some m) in
  exists s0, snowflake_query ph CA_BUNDLE_FILE curl_easy_escape curl_easy_init uuid4_generate now pt chunk_answer (S (S (S fuel))) mem
      (Some s) (Some text) 0 sf w =
    ('(ok, s', sf', w') ← read_answer pt chunk_answer false (Some j) s0 (set_request c (c_request_id sf) sf) w1;
     Done (if (ok : bool) then SF_STATUS_SUCCESS else SF_STATUS_ERROR_GENERAL, Some s', sf', w')) /\
    error s0 = no_error /\ sfqid s0 = EmptyString /\ sequence_counter s0 = c /\ request_id s0 = id /\ desc s0 = None /\ raw_results s0 = None /\
    chunk_downloader s0 = None.
Proof.
  intros [Hs Hpg Hc Hd Hp [Ht Hte] [Hm Hme] Hci Hbody [Henc Hblk] (Ha & Hbr & Hacc)] c id w1.
  unfold snowflake_query. destruct (prepare_ok (clear_error s) text) as (s1 & -> & Htx & Hpa & Hde & Hcd & Hqi & Hraw); [exact Hs|].
  rewrite bind_Done_l. cbv beta iota. change (SF_STATUS_SUCCESS =? SF_STATUS_SUCCESS) with true. cbn [negb].
  unfold snowflake_execute. cbn [deref]. rewrite bind_Done_l, Htx, Hpg, bind_Done_l. unfold _snowflake_execute_ex, execute_stmt.
  destruct (LLONG_MAX <=? c_sequence_counter sf) eqn:Ec; [lia|]. fold c id. cbv zeta.
  unfold make_bindings, _snowflake_get_current_param_style. change (params (set_call id (sfqid s1) c (clear_error s1))) with (params s1).
  rewrite Hpa, bind_Done_l. cbv beta iota. change (member (set_request c (c_request_id sf) sf)) with (member sf). rewrite Hd, Ht, Hm, Hte, Hme. cbn [negb andb orb].
  change (sql_text (set_call id (sfqid s1) c (clear_error s1))) with (sql_text s1). rewrite Htx. fold c in Hbody. rewrite Hbody, !bind_Done_l.
  unfold config_of. change (member (set_request c (c_request_id sf) sf)) with (member sf). rewrite Hp. cbn [deref]. rewrite !bind_Done_l.
  rewrite (request_accepted fuel _ _ _ _ (with_err None w) a rest j t block url) by done. rewrite bind_Done_l. cbv beta iota zeta.
  cbn [err with_err take_error answers sent token master_token]. rewrite Ht, Hm.
  exists (set_call id (sfqid s1) c (clear_error s1)). split; [|by split_and!].
  match goal with |- context [with_err ?e ?x] => change (with_err e x) with w1 end.
  destruct (read_answer _ _ _ _ _ _ _) as [[[[ok s'] sf'] w']| |]; done.
Qed.

Lemma query_rows fuel mem (s : SF_STMT St) sf w text p t m a rest j data qid s_body block url columns fields dml rows total items chunks sf1 r sf2 w2 n :
  let c := c_sequence_counter sf + 1 in
  let id := uuid4_generate (length (sent w)) in
  let w1 := mk_world rest (sent w ++ [post_sent url (create_header_token (snowflake_token_header t) false) s_body a]) (err w) (Some t) (Some m) in
  query_sent s text p t m sf w a rest j s_body block url ->
  lock_refused pt = None -> thread_refused pt = None ->
  success_answer j data qid -> shape data columns fields dml -> rows_answer data rows total items -> downloads items chunks ->
  _set_current_objects (Some data) (set_request c (c_request_id sf) sf) = Done sf1 ->
  _set_parameters_session_info (Some data) sf1 w1 = Done (r, sf2, w2) ->
  exists s', snowflake_query ph CA_BUNDLE_FILE curl_easy_escape curl_easy_init uuid4_generate now pt chunk_answer (S (S (S fuel))) mem
      (Some s) (Some text) 0 sf w = Done (SF_STATUS_SUCCESS, Some s', sf2, w2) /\
    desc s' = columns /\ total_fieldcount s' = fields /\ total_rowcount s' = total /\ is_dml s' = dml /\ error s' = no_error /\
    sfqid s' = qid /\ sequence_counter s' = c /\ request_id s' = id /\
    exists s'', fetches n s' = Done (
      take n (map (fun x => (SF_STATUS_SUCCESS, Some x)) (rows ++ concat chunks)) ++
      replicate (n - length (rows ++ concat chunks)) (SF_STATUS_EOF, None), s'').
Proof.
  intros c id w1 Hsent Hl Hth [Hsu Hda (eq & Hq)] Hsh Hra Hdl Hcur Hset.
  destruct (query_answered fuel mem s text p t m sf w a rest j s_body block url Hsent) as (s0 & -> & He & Hqi & Hsc & Hrid & Hde & _ & Hcd).
  fold c id w1. unfold read_answer. cbv zeta. rewrite Hda, Hqi, Hq, bind_Done_l. cbv beta iota. rewrite Hsu.
  rewrite bool_decide_false by (by intros []). cbn [negb].
  match goal with |- context [query_answer _ _ _ ?s2 _ _] => set (s2' := s2) end.
  destruct (query_answer_ok data s2' (set_request c (c_request_id sf) sf) w1 columns fields dml rows total items chunks sf1 r sf2 w2)
    as (s' & -> & Hpe & H1 & H2 & H3 & H4 & H5 & H6 & H7 & H8 & H9); [done..|].
  rewrite bind_Done_l. cbv beta iota. exists s'. split; [done|]. split_and!; try done; try (etransitivity; [eassumption|done]). by apply pending_fetches.
Qed.

(** C4: A query, end to end: with a session, the text of a statement that is no file
    transfer goes out in one request, with the session's token and the next number of
    the connection's counter; from the server's answer the statement has its columns,
    counts and query id, and any number of fetches gives the answer's rows and then the
    rows of every announced chunk, each once and in order, and then the end. *)
Theorem query_then_fetch fuel mem (s : SF_STMT St) sf w text p t m a rest j data qid s_body block url columns fields dml rows total items chunks sf1 r sf2 w2 n :
  let c := c_sequence_counter sf + 1 in
  let id := uuid4_generate (length (sent w)) in
  let w1 := mk_world rest (sent w ++ [post_sent url (create_header_token (snowflake_token_header t) false) s_body a]) (err w) (Some t) (Some m) in
  query_sent s text p t m sf w a rest j s_body block url ->
  lock_refused pt = None -> thread_refused pt = None ->
  success_answer j data qid -> shape data columns fields dml -> rows_answer data rows total items -> downloads items chunks ->
  _set_current_objects (Some data) (set_request c (c_request_id sf) sf) = Done sf1 ->
  _set_parameters_session_info (Some data) sf1 w1 = Done (r, sf2, w2) ->
  exists s', snowflake_query ph CA_BUNDLE_FILE curl_easy_escape curl_easy_init uuid4_generate now pt chunk_answer (S (S (S fuel))) mem
      (Some s) (Some text) 0 sf w = Done (SF_STATUS_SUCCESS, Some s', sf2, w2) /\
    desc s' = columns /\ total_fieldcount s' = fields /\ total_rowcount s' = total /\ is_dml s' = dml /\ error s' = no_error /\
    sfqid s' = qid /\ sequence_counter s' = c /\ request_id s' = id /\
    exists s'', fetches n s' = Done (
      take n (map (fun x => (SF_STATUS_SUCCESS, Some x)) (rows ++ concat chunks)) ++
      replicate (n - length (rows ++ concat chunks)) (SF_STATUS_EOF, None), s'').
Proof. apply query_rows. Qed.
End Rows.


(** ** A sample session *)

Definition q (s : string) : string := dq s +:+ ":".
Definition rows_reply : attempt := reply
  ("{" +:+ q "data" +:+ "{" +:+ q "queryId" +:+ dq "q1" +:+ "," +:+ q "rowtype" +:+ "[{" +:+ q "name" +:+ dq "N" +:+ "," +:+ q "type" +:+ dq "text"
   +:+ "}]," +:+ q "rowset" +:+ "[[" +:+ dq "1" +:+ "],[" +:+ dq "2" +:+ "]]," +:+ q "total" +:+ "3," +:+ q "chunks" +:+ "[{" +:+ q "url" +:+ dq "u0"
   +:+ "," +:+ q "rowCount" +:+ "1}]}," +:+ q "success" +:+ "true," +:+ q "code" +:+ "null}").
Definition member_of (name : string) (j : cJSON) : cJSON := default (mk_cJSON 0 None 0 zero_double None []) (snowflake_cJSON_GetObjectItem (Some j) name).
Definition rows_data : cJSON := member_of "data" (value_of rows_reply).
Definition last_row : cJSON := mk_cJSON cJSON_Array None 0 zero_double None [mk_cJSON cJSON_String (Some "3") 0 zero_double None []].
Definition sample_chunk (i : nat) (url : string) : slot_answer := SlotReady (mk_cJSON cJSON_Array None 0 zero_double None [last_row]).

Definition connected : SF_CONNECT := set_member Account (Some "acct") snowflake_init.
Definition session_world : world := mk_world [rows_reply] [] None (Some "T1") (Some "M1").
Definition done_or {A} (d : A) (o : outcome A) : A := match o with Done a => a | _ => d end.
Definition sample_query_body : option string :=
  match query_body copy_hooks 1500000000 (Some "select 1") 1 None None with Some b => done_or None (snowflake_cJSON_Print copy_hooks b) | None => None end.
Definition sample_query_block : list ascii :=
  done_or [] (encode_url keep "https" (Some "acct") None None QUERY_URL [mk_var "requestId=" (Some no_guid)] None).
Definition sample_query_url : string := default EmptyString (c_string sample_query_block).
Definition after_request : world :=
  mk_world [] [post_sent sample_query_url (create_header_token (snowflake_token_header "T1") false) sample_query_body rows_reply] None (Some "T1") (Some "M1").
Definition sample_columns : option (list SF_COLUMN_DESC) := done_or None (set_description (Some (member_of "rowtype" rows_data))).

Definition after_objects : SF_CONNECT := done_or connected (_set_current_objects (Some rows_data) (set_request 1 "" connected)).

Lemma sample_chunks_of : chunks_of (Some rows_data) [("u0", 1)].
Proof.
  unfold chunks_of. assert (snowflake_cJSON_GetObjectItem (Some rows_data) "chunks" = Some (member_of "chunks" rows_data)) as -> by (vm_compute; reflexivity).
  split; [vm_compute; reflexivity|]. split; [vm_compute; reflexivity|]. split.
  { assert (child (member_of "chunks" rows_data) = [chunk_node "u0" 1]) as -> by (vm_compute; reflexivity).
    apply Forall2_cons. split; [split_and!; vm_compute; reflexivity|apply Forall2_nil; done]. }
  split; [vm_compute; congruence|]. split; [exists SF_JSON_ERROR_ITEM_MISSING, None; vm_compute; reflexivity|vm_compute; exact I].
Defined.

Lemma query_then_fetch_witness :
  exists s' sf' w', snowflake_query copy_hooks None keep (fun _ => true) sample_uuid 1500000000 all_made sample_chunk 3 ∅
      (Some (zero_stmt : SF_STMT (RbTree.store nat))) (Some "select 1") 0 connected session_world = Done (SF_STATUS_SUCCESS, Some s', sf', w') /\
    total_rowcount s' = 3 /\ length (sent w') = 1%nat /\
    exists s'', fetches 4 s' = Done (map (fun x => (SF_STATUS_SUCCESS, Some x)) (child (member_of "rowset" rows_data) ++ [last_row]) ++ [(SF_STATUS_EOF, None)], s'').
Proof.
  edestruct (query_then_fetch (St := RbTree.store nat) copy_hooks None keep (fun _ => true) sample_uuid 1500000000 all_made sample_chunk 0 ∅ zero_stmt
    connected session_world "select 1" "https" "T1" "M1" rows_reply [] (value_of rows_reply) rows_data "q1" sample_query_body sample_query_block
    sample_query_url sample_columns 1 false (child (member_of "rowset" rows_data)) 3 [("u0", 1)] [[last_row]]
    after_objects SF_STATUS_SUCCESS after_objects after_request 4) as (s' & E & _ & _ & Ht & _ & _ & _ & _ & _ & s'' & Hf).
  all: try lazymatch goal with |- _ = _ => vm_compute; reflexivity end.
  - split; try lazymatch goal with |- _ = _ => vm_compute; reflexivity end.
    + split; exact I.
    + vm_compute. congruence.
    + split; vm_compute; reflexivity.
    + split; vm_compute; reflexivity.
    + split; vm_compute; reflexivity.
    + split; [reflexivity|]. split; [|do 2 eexists; split_and!; [vm_compute; reflexivity|reflexivity|discriminate|reflexivity]].
      split; [repeat split; vm_compute; eauto 10; lia|eexists; split; [reflexivity|vm_compute; reflexivity]].
  - split; [vm_compute; reflexivity..|eexists; vm_compute; reflexivity].
  - split; [|do 2 eexists; split; [vm_compute; reflexivity|vm_compute; reflexivity]].
    exists (member_of "rowtype" rows_data). split_and!; vm_compute; reflexivity.
  - split; [exists (member_of "rowset" rows_data); split_and!; vm_compute; reflexivity|vm_compute; congruence|vm_compute; reflexivity|].
    exact sample_chunks_of.
  - apply Forall2_cons. split; [|apply Forall2_nil; done]. split; [discriminate|]. eexists. split_and!; reflexivity.
  - exists s', after_objects, after_request. split; [exact E|]. split; [exact Ht|]. split; [reflexivity|]. exists s''. exact Hf.
Defined.
