(* ===== verification/Conversation.v ===== *)
(** * A whole conversation with the server

    Logging in, a query with its rows, logging out: the composition of Connect, Session,
    Execute, the downloader's set-up and Fetch over one sequence of answers.  What one
    call leaves in the connection and in the network is what the next one starts from. *)

From S2P Require Import Prelude RbTree TreeMap ParamStore CLib CFloat Status CJson CJsonPrint CJsonParse JsonHelpers ArrayList Url Http Session SessionTotal.
From S2P Require Import Connect Results PutGet ChunkSetup Stmt Bind Fetch Execute ExecuteRows.

(** The header of a request that is given none. *)
Definition session_header (conf : config) (w : world) : list string :=
  match token w, direct_query_token conf with
  | Some t, _ => create_header_token (snowflake_token_header t) false
  | None, Some t => create_header_token (direct_query_token_header t) false
  | None, None => create_header_no_token false
  end.

Section Talk.
  Context {St : Type} `{Dict nat St}.
  Context (ph : internal_hooks) (CA_BUNDLE_FILE : option string) (curl_easy_escape : string -> string)
    (curl_easy_init : nat -> bool) (uuid4_generate : nat -> string) (os_name os_version : string) (now : Z)
    (pt : pthread_answers) (chunk_answer : nat -> string -> slot_answer).

(** ** One exchange

    The next answer of the network, [a], brings [j], which asks for nothing more. *)
Record exchange (conf : config) (url : string) (vars : list URL_KEY_VALUE) (w : world) (full : string) (a : attempt) (rest : list attempt) (j : cJSON) : Prop := {
  ex_curl : curl_easy_init (length (sent w)) = true;
  ex_url : exists block, encode_url curl_easy_escape (protocol conf) (account conf) (host conf) (port conf) url vars (directURL_param conf) = Done block /\
    c_string block = Some full;
  ex_answers : answers w = a :: rest;
  ex_brings : brings ph full a j;
  ex_settled : settled j
}.

Lemma exchange_ok fuel conf url vars body w full a rest j : exchange conf url vars w full a rest j ->
  request ph CA_BUNDLE_FILE curl_easy_escape curl_easy_init uuid4_generate conf (S (S (S fuel))) None url vars body None POST_REQUEST_TYPE false w =
    Done (true, Some j, mk_world rest (sent w ++ [post_sent full (session_header conf w) body a]) (err w) (token w) (master_token w)).
Proof.
  intros [Hc (block & Hu & Hb) Ha Hbr Hs]. rewrite req_S. unfold request_body. rewrite Hc. cbn [negb]. cbv zeta. rewrite Hu, bind_Done_l, Hb. cbn [deref].
  rewrite bind_Done_l. match goal with |- curl_post_call _ _ _ _ _ _ _ _ ?h _ _ _ = _ => replace h with (session_header conf w) end.
  - by apply (post_settled ph CA_BUNDLE_FILE curl_easy_escape curl_easy_init uuid4_generate conf fuel full _ body None w a rest j).
  - unfold session_header. by destruct (token w), (direct_query_token conf).
Qed.

(** ** Logging in *)

(** The server accepts: its tokens, and its parameters read into the connection. *)
Record welcome (j data : cJSON) (t m : string) : Prop := {
  we_success : json_copy_bool false (Some j) "success" = (SF_JSON_ERROR_NONE, true);
  we_data : snowflake_cJSON_GetObjectItem (Some j) "data" = Some data;
  we_token : json_copy_string None (Some data) "token" = Done (SF_JSON_ERROR_NONE, Some t);
  we_master : json_copy_string None (Some data) "masterToken" = Done (SF_JSON_ERROR_NONE, Some m)
}.

Definition checked (sf sf1 : SF_CONNECT) (w : world) : Prop :=
  _snowflake_check_connection_parameters sf (clear_err w) = Done (SF_STATUS_SUCCESS, sf1, clear_err w).
Definition applying (sf1 : SF_CONNECT) (w : world) : SF_CONNECT := set_request (c_sequence_counter sf1) (uuid4_generate (length (sent w))) sf1.

Record login (sf sf1 : SF_CONNECT) (conf : config) (s_body : option string) (w : world) (full : string) (a : attempt) (rest : list attempt) (j : cJSON) : Prop := {
  lo_direct : is_string_empty (member sf DirectURL) = true;
  lo_tokens : token w = None /\ master_token w = None;
  lo_checked : checked sf sf1 w;
  lo_conf : config_of (applying sf1 w) = Done conf;
  lo_body : login_body ph os_name os_version (applying sf1 w) conf = Done s_body;
  lo_exchange : exchange conf SESSION_URL (login_vars (applying sf1 w)) (clear_err w) full a rest j
}.

Lemma login_ok fuel sf sf1 conf s_body w full a rest j data t m sf2 :
  login sf sf1 conf s_body w full a rest j -> welcome j data t m ->
  let w1 := mk_world rest (sent w ++ [post_sent full (session_header conf w) s_body a]) None (Some t) (Some m) in
  _set_parameters_session_info (Some data) (applying sf1 w) w1 = Done (SF_STATUS_SUCCESS, sf2, w1) ->
  snowflake_connect ph CA_BUNDLE_FILE curl_easy_escape curl_easy_init uuid4_generate os_name os_version (S (S (S fuel))) (Some sf) w =
    Done (SF_STATUS_SUCCESS, Some (wipe sf2), w1).
Proof.
  intros [Hd [Ht Hm] Hck Hcf Hb Hex] [Hsu Hda Hto Hma] w1 Hset. unfold snowflake_connect. rewrite Ht, Hm, Hd. cbn [negb]. cbv zeta.
  unfold log_in. rewrite Hck, bind_Done_l. cbv beta iota. change (SF_STATUS_SUCCESS =? SF_STATUS_SUCCESS) with true. cbn [negb].
  change (sent (clear_err w)) with (sent w). fold (applying sf1 w). rewrite Hcf, bind_Done_l, Hb, bind_Done_l. unfold send.
  rewrite (exchange_ok fuel conf SESSION_URL _ s_body _ full a rest j Hex), bind_Done_l. cbv beta iota. unfold logged_in. rewrite Hsu.
  rewrite bool_decide_false by (by intros []). cbn [negb]. rewrite Hda. unfold set_tokens. cbn [token master_token clear_err sent err]. rewrite Ht, Hto, bind_Done_l. cbv beta iota.
  rewrite bool_decide_false by (by intros []). cbn [master_token set_token]. rewrite Hm, Hma, !bind_Done_l. cbv beta iota. rewrite bool_decide_false by (by intros []).
  rewrite bind_Done_l. cbv beta iota. cbn [negb]. unfold set_master_token. cbn [answers sent err token set_token].
  match goal with |- context [_set_parameters_session_info _ _ ?x] => replace x with w1 end; [by rewrite Hset, bind_Done_l|].
  unfold w1, session_header. cbn [token clear_err]. by rewrite Ht.
Qed.

(** ** Logging out *)

Lemma logout_ok fuel sf conf w full a rest j t m :
  token w = Some t -> master_token w = Some m -> config_of sf = Done conf ->
  exchange conf DELETE_SESSION_URL [mk_var "delete=" (Some "true")] (clear_err w) full a rest j ->
  snowflake_term ph CA_BUNDLE_FILE curl_easy_escape curl_easy_init uuid4_generate (S (S (S fuel))) (Some sf) w =
    Done (SF_STATUS_SUCCESS, None, mk_world rest (sent w ++ [post_sent full (create_header_token (snowflake_token_header t) false) None a]) None None None).
Proof.
  intros Ht Hm Hcf Hex. unfold snowflake_term. cbv zeta. change (token (clear_err w)) with (token w). change (master_token (clear_err w)) with (master_token w). rewrite Ht, Hm, Hcf, bind_Done_l. unfold send.
  rewrite (exchange_ok fuel conf _ _ _ _ full a rest j Hex), !bind_Done_l. cbn [answers sent]. unfold session_header. cbn [token clear_err]. by rewrite Ht.
Qed.

(** ** From login to logout *)

(** C1: A conversation.  On a network whose next three answers accept the login, answer the
    query and acknowledge the logout, an application that connects, executes a statement,
    fetches [n] times and terminates gets success from each call, and the rows of the
    answer followed by those of every announced chunk, in order, then the end.  Exactly
    three requests are sent: the login without a session, the other two with the token the
    login brought; at the end no token is left. *)
Theorem conversation fuel1 fuel2 fuel3 mem n (s : SF_STMT St) sf sf1 sf2 sf3 sf4 conf1 conf3 text w p t m s_body1 s_body2 block2
    url1 url2 url3 a1 a2 a3 rest j1 j2 j3 data1 data2 qid columns fields dml rows total items chunks r :
  lock_refused pt = None -> thread_refused pt = None ->
  (* the login *)
  login sf sf1 conf1 s_body1 w url1 a1 (a2 :: a3 :: rest) j1 -> welcome j1 data1 t m ->
  let w1 := mk_world (a2 :: a3 :: rest) (sent w ++ [post_sent url1 (session_header conf1 w) s_body1 a1]) None (Some t) (Some m) in
  _set_parameters_session_info (Some data1) (applying sf1 w) w1 = Done (SF_STATUS_SUCCESS, sf2, w1) ->
  (* the query *)
  query_sent ph curl_easy_escape curl_easy_init uuid4_generate now s text p t m (wipe sf2) w1 a2 (a3 :: rest) j2 s_body2 block2 url2 ->
  success_answer j2 data2 qid -> shape data2 columns fields dml -> rows_answer data2 rows total items -> downloads chunk_answer items chunks ->
  let c := c_sequence_counter sf2 + 1 in
  let w2 := mk_world (a3 :: rest) (sent w1 ++ [post_sent url2 (create_header_token (snowflake_token_header t) false) s_body2 a2]) None (Some t) (Some m) in
  _set_current_objects (Some data2) (set_request c (c_request_id sf2) (wipe sf2)) = Done sf3 ->
  _set_parameters_session_info (Some data2) sf3 w2 = Done (r, sf4, w2) ->
  (* the logout *)
  config_of sf4 = Done conf3 -> exchange conf3 DELETE_SESSION_URL [mk_var "delete=" (Some "true")] w2 url3 a3 rest j3 ->
  exists s' s'',
    snowflake_connect ph CA_BUNDLE_FILE curl_easy_escape curl_easy_init uuid4_generate os_name os_version (S (S (S fuel1))) (Some sf) w =
      Done (SF_STATUS_SUCCESS, Some (wipe sf2), w1) /\
    snowflake_query ph CA_BUNDLE_FILE curl_easy_escape curl_easy_init uuid4_generate now pt chunk_answer (S (S (S fuel2))) mem
      (Some s) (Some text) 0 (wipe sf2) w1 = Done (SF_STATUS_SUCCESS, Some s', sf4, w2) /\
    fetches n s' = Done (take n (map (fun x => (SF_STATUS_SUCCESS, Some x)) (rows ++ concat chunks)) ++
      replicate (n - length (rows ++ concat chunks)) (SF_STATUS_EOF, None), s'') /\
    snowflake_term ph CA_BUNDLE_FILE curl_easy_escape curl_easy_init uuid4_generate (S (S (S fuel3))) (Some sf4) w2 =
      Done (SF_STATUS_SUCCESS, None, mk_world rest
        (sent w ++ [post_sent url1 (session_header conf1 w) s_body1 a1; post_sent url2 (create_header_token (snowflake_token_header t) false) s_body2 a2;
                    post_sent url3 (create_header_token (snowflake_token_header t) false) None a3]) None None None).
Proof.
  intros Hl Hth Hlo Hwe w1 Hset1 Hq Hsu Hsh Hra Hdl c w2 Hcur Hset2 Hcf Hex.
  pose proof (login_ok fuel1 sf sf1 conf1 s_body1 w url1 a1 _ j1 data1 t m sf2 Hlo Hwe Hset1) as E1.
  destruct (query_rows ph CA_BUNDLE_FILE curl_easy_escape curl_easy_init uuid4_generate now pt chunk_answer fuel2 mem s (wipe sf2) w1 text p t m a2 (a3 :: rest) j2 data2 qid
    s_body2 block2 url2 columns fields dml rows total items chunks sf3 r sf4 w2 n Hq Hl Hth Hsu Hsh Hra Hdl Hcur Hset2) as (s' & E2 & _ & _ & _ & _ & _ & _ & _ & _ & s'' & Ef).
  exists s', s''. split; [exact E1|]. split; [exact E2|]. split; [exact Ef|].
  rewrite (logout_ok fuel3 sf4 conf3 w2 url3 a3 rest j3 t m eq_refl eq_refl Hcf Hex). unfold w2, w1. cbn [sent]. by rewrite <- !app_assoc.
Qed.
End Talk.

(** ** A sample conversation *)

Definition welcome_reply : attempt := login_answer (session_info (dquoted "DB")).
Definition talk_world : world := mk_world [welcome_reply; rows_reply; ok_reply] [] None None None.
Definition talk_sf1 : SF_CONNECT :=
  match _snowflake_check_connection_parameters applicant (clear_err talk_world) with Done (_, sf, _) => sf | _ => applicant end.
Definition talk_applying : SF_CONNECT := applying sample_uuid talk_sf1 talk_world.
Definition no_config : config := mk_config None None None EmptyString None None None.
Definition talk_conf1 : config := done_or no_config (config_of talk_applying).
Definition talk_body1 : option string := done_or None (login_body copy_hooks "Linux" "4" talk_applying talk_conf1).
Definition url_of (conf : config) (url : string) (vars : list URL_KEY_VALUE) : list ascii :=
  done_or [] (encode_url keep (protocol conf) (account conf) (host conf) (port conf) url vars (directURL_param conf)).
Definition talk_url1 : string := default EmptyString (c_string (url_of talk_conf1 SESSION_URL (login_vars talk_applying))).
Definition talk_w1 : world :=
  mk_world [rows_reply; ok_reply] [post_sent talk_url1 (session_header talk_conf1 talk_world) talk_body1 welcome_reply] None (Some "T1") (Some "M1").
Definition welcome_data : cJSON := member_of "data" (value_of welcome_reply).
Definition talk_sf2 : SF_CONNECT := match _set_parameters_session_info (Some welcome_data) talk_applying talk_w1 with Done (_, sf, _) => sf | _ => applicant end.
Definition talk_block2 : list ascii := url_of (done_or no_config (config_of (wipe talk_sf2))) QUERY_URL [mk_var "requestId=" (Some no_guid)].
Definition talk_url2 : string := default EmptyString (c_string talk_block2).
Definition talk_w2 : world :=
  mk_world [ok_reply] (sent talk_w1 ++ [post_sent talk_url2 (create_header_token (snowflake_token_header "T1") false) sample_query_body rows_reply]) None (Some "T1") (Some "M1").
Definition talk_sf3 : SF_CONNECT := done_or applicant (_set_current_objects (Some rows_data) (set_request 1 (c_request_id talk_sf2) (wipe talk_sf2))).
Definition talk_conf3 : config := done_or no_config (config_of talk_sf3).
Definition talk_url3 : string := default EmptyString (c_string (url_of talk_conf3 DELETE_SESSION_URL [mk_var "delete=" (Some "true")])).

Definition readyb (url : string) (a : attempt) : bool :=
  a_setup a &&
  match request_guid_ptr url with
  | None => true
  | Some k => match a_guid a with Some g => (String.length g =? 36)%nat && (k + 36 <=? String.length url)%nat | None => false end
  end &&
  match a_answer a with Response c pieces => (c =? 200) && (Z.of_nat (length (concat pieces)) + 4 <? 2 ^ 64) | _ => false end.
Definition brought (a : attempt) : outcome (option cJSON) :=
  match a_answer a with Response _ pieces => snowflake_cJSON_Parse (allocate copy_hooks) (body_text false pieces) | _ => Undef end.
Lemma brings_run url a j : readyb url a = true -> brought a = Done (Some j) -> brings copy_hooks url a j.
Proof.
  unfold readyb, brought, brings, ready. intros [[-> Hg]%andb_prop Hr]%andb_prop Hj. destruct (a_answer a) as [| |c pieces] eqn:Ea; try done. apply andb_prop in Hr as [Hc Hl].
  split; [|exists pieces; split; [f_equal; lia|done]]. split_and!; [done| |lia]. destruct (request_guid_ptr url) as [k|]; [|done].
  destruct (a_guid a) as [g|]; [|done]. apply andb_prop in Hg as [Hg Hk]. exists g. split_and!; [done|by apply Nat.eqb_eq|by apply Nat.leb_le].
Qed.
Lemma settled_null j : read_code (Some j) = Done (SF_JSON_ERROR_ITEM_NULL, EmptyString) -> settled j.
Proof. intros E. exists SF_JSON_ERROR_ITEM_NULL, EmptyString. by split_and!. Qed.

Lemma conversation_witness :
  exists s' s'' w3,
    snowflake_connect copy_hooks None keep (fun _ => true) sample_uuid "Linux" "4" 3 (Some applicant) talk_world = Done (SF_STATUS_SUCCESS, Some (wipe talk_sf2), talk_w1) /\
    snowflake_query copy_hooks None keep (fun _ => true) sample_uuid 1500000000 all_made sample_chunk 3 ∅ (Some (zero_stmt : SF_STMT (RbTree.store nat)))
      (Some "select 1") 0 (wipe talk_sf2) talk_w1 = Done (SF_STATUS_SUCCESS, Some s', talk_sf3, talk_w2) /\
    fetches 4 s' = Done (map (fun x => (SF_STATUS_SUCCESS, Some x)) (child (member_of "rowset" rows_data) ++ [last_row]) ++ [(SF_STATUS_EOF, None)], s'') /\
    snowflake_term copy_hooks None keep (fun _ => true) sample_uuid 3 (Some talk_sf3) talk_w2 = Done (SF_STATUS_SUCCESS, None, w3) /\
    length (sent w3) = 3%nat /\ token w3 = None.
Proof.
  edestruct (conversation (St := RbTree.store nat) copy_hooks None keep (fun _ => true) sample_uuid "Linux" "4" 1500000000 all_made sample_chunk 0 0 0 ∅ 4 zero_stmt
    applicant talk_sf1 talk_sf2 talk_sf3 talk_sf3 talk_conf1 talk_conf3 "select 1" talk_world "https" "T1" "M1" talk_body1 sample_query_body talk_block2
    talk_url1 talk_url2 talk_url3 welcome_reply rows_reply ok_reply [] (value_of welcome_reply) (value_of rows_reply) (value_of ok_reply) welcome_data rows_data "q1"
    sample_columns 1 false (child (member_of "rowset" rows_data)) 3 [("u0", 1)] [[last_row]] SF_STATUS_SUCCESS) as (s' & s'' & E1 & E2 & E3 & E4).
  all: try lazymatch goal with |- _ = _ => vm_compute; reflexivity end.
  - split; try lazymatch goal with |- _ = _ => vm_compute; reflexivity end; [split; reflexivity|vm_compute; reflexivity|].
    split; [reflexivity|eexists; split; vm_compute; reflexivity|reflexivity|apply brings_run; vm_compute; reflexivity|apply settled_null; vm_compute; reflexivity].
  - split; vm_compute; reflexivity.
  - split; try lazymatch goal with |- _ = _ => vm_compute; reflexivity end.
    + split; exact I.
    + vm_compute. congruence.
    + split; vm_compute; reflexivity.
    + split; vm_compute; reflexivity.
    + split; vm_compute; reflexivity.
    + split; [reflexivity|]. split; [apply brings_run|apply settled_null]; vm_compute; reflexivity.
  - split; [vm_compute; reflexivity..|eexists; vm_compute; reflexivity].
  - split; [|do 2 eexists; split; [vm_compute; reflexivity|vm_compute; reflexivity]].
    exists (member_of "rowtype" rows_data). split_and!; vm_compute; reflexivity.
  - split; [exists (member_of "rowset" rows_data); split_and!; vm_compute; reflexivity|vm_compute; congruence|vm_compute; reflexivity|exact sample_chunks_of].
  - apply Forall2_cons. split; [|apply Forall2_nil; done]. split; [discriminate|]. eexists. split_and!; reflexivity.
  - split; [reflexivity|eexists; split; vm_compute; reflexivity|reflexivity|apply brings_run; vm_compute; reflexivity|apply settled_null; vm_compute; reflexivity].
  - exists s', s''. eexists. split; [exact E1|]. split; [exact E2|]. split; [exact E3|]. split; [exact E4|]. split; reflexivity.
Defined.
