(* ===== verification/ChunkRows.v ===== *)
(** * From the announced chunks to their rows

    The set-up of the downloader (ChunkSetup, Execute), the download of every chunk over
    the network (ChunkDownload, Http) and the fetching of the rows (Fetch) together. *)

From S2P Require Import Prelude RbTree TreeMap ParamStore CLib CFloat Status CJson CJsonPrint CJsonParse JsonHelpers ArrayList Url Http Session.
From S2P Require Import Connect Results PutGet ChunkSetup Stmt Bind Fetch ChunkDownload Execute ExecuteRows.

Section Network.
  Context {St : Type} `{Dict nat St} (CA_BUNDLE_FILE : option string) (pt : pthread_answers).
  (** What the network has in store for the download of the i-th chunk. *)
  Context (net : nat -> world) (chunk_answer : nat -> string -> slot_answer).

(** What a finished download puts into its slot. *)
Definition slot_of (o : outcome (bool * option cJSON * world)) : option slot_answer :=
  match o with
  | Done (true, Some c, _) => Some (SlotReady c)
  | Done (_, _, w) => Some (SlotFailed (match err w with Some _ => true | None => false end))
  | _ => None
  end.

(** The slots of the chunks [items] hold what downloading them with [headers] comes to. *)
Definition answers_from_network (headers : list string) (items : list (string * Z)) : Prop :=
  forall i item, items !! i = Some item ->
    slot_of (download_chunk all_hooks CA_BUNDLE_FILE true (fst item) headers (net i)) = Some (chunk_answer i (fst item)).

(** The i-th chunk as announced and as the server has it. *)
Definition chunk_served (i : nat) (item : string * Z) (rows : list cJSON) : Prop :=
  rows <> [] /\ Forall row_tree rows /\ brings_rows (fst item) (net i) rows /\ snd item = Z.of_nat (length rows).

Lemma served_slot headers items i item rows : answers_from_network headers items -> items !! i = Some item -> chunk_served i item rows ->
  ready_slot (mk_slot (chunk_answer i (fst item)) (snd item)) (map (norm None) rows).
Proof.
  intros Hn Hi (Hne & Hr & Hb & Hlen). destruct (download_brings CA_BUNDLE_FILE (fst item) headers (net i) rows Hr Hb) as [w' Hd].
  specialize (Hn i item Hi). rewrite Hd in Hn. injection Hn as Hn. split; [by destruct rows|].
  exists (chunk_array (map (norm None) rows)). cbn [s_answer s_row_count]. by rewrite Hn, length_map.
Qed.

Lemma network_downloads headers items chunks : answers_from_network headers items -> length items = length chunks ->
  (forall i item rows, items !! i = Some item -> chunks !! i = Some rows -> chunk_served i item rows) ->
  downloads chunk_answer items (map (map (norm None)) chunks).
Proof.
  intros Hn Hlen Hs. unfold downloads. apply Forall2_same_length_lookup_2; [by rewrite length_imap, length_map|].
  intros i sl rows Hsl Hrows. rewrite list_lookup_imap in Hsl. destruct (items !! i) as [[u n]|] eqn:Ei; [|done]. injection Hsl as <-.
  change (map ?f ?l) with (f <$> l) in Hrows. rewrite list_lookup_fmap in Hrows. destruct (chunks !! i) as [r|] eqn:Er; [|done]. injection Hrows as <-.
  apply (served_slot headers items i (u, n)); [done..|]. by apply (Hs i).
Qed.

(** C6: Announced chunks become rows: when the answer announces the chunks [items] and the
    server has the rows [chunks] behind their URLs, with passing refusals and in whatever
    pieces, then setting up the downloader and fetching to the end gives exactly those
    rows, chunk after chunk, and then the end of the results. *)
Theorem announced_chunks_fetched data (s : SF_STMT St) headers items chunks n :
  let rows := map (norm None) (concat chunks) in
  lock_refused pt = None -> thread_refused pt = None -> chunk_downloader s = None -> chunk_rowcount s = 0 ->
  chunks_of data items -> answers_from_network headers items -> length items = length chunks ->
  (forall i item rows, items !! i = Some item -> chunks !! i = Some rows -> chunk_served i item rows) ->
  exists s' s'', start_chunks pt chunk_answer data s = Done (true, s') /\
    fetches n s' = Done (take n (map (fun x => (SF_STATUS_SUCCESS, Some x)) rows) ++
      replicate (n - length rows) (SF_STATUS_EOF, None), s'').
Proof.
  intros rows Hl Ht Hd Hc Hch Hn Hlen Hs. pose proof (network_downloads headers items chunks Hn Hlen Hs) as Hdl.
  destruct (start_chunks_ok pt chunk_answer data s items _ Hl Ht Hd Hch Hdl) as (d & E & Hq).
  assert (pending (set_downloader d s) [] (map (map (norm None)) chunks)) as Hp by (split; [done|split; [by left|exact Hq]]).
  destruct (pending_fetches n _ _ _ Hp) as (s'' & Hf). cbn [app] in Hf. exists (set_downloader d s), s''. split; [exact E|].
  unfold rows. rewrite concat_map. exact Hf.
Qed.
End Network.

(** ** One chunk of two rows, at the second attempt *)

Definition one_chunk : option cJSON := Some (json_object None [chunks_node [chunk_node "https://c/0" 2]]).
Definition sample_slots (i : nat) (url : string) : slot_answer :=
  default (SlotFailed false) (slot_of (download_chunk all_hooks None true url [] sample_net)).

Lemma announced_chunks_fetched_witness :
  exists s' s'', start_chunks all_made sample_slots one_chunk (zero_stmt : SF_STMT (RbTree.store nat)) = Done (true, s') /\
    fetches 3 s' = Done ([(SF_STATUS_SUCCESS, Some (sample_row "1")); (SF_STATUS_SUCCESS, Some (sample_row "a b")); (SF_STATUS_EOF, None)], s'').
Proof.
  apply (announced_chunks_fetched (St := RbTree.store nat) None all_made (fun _ => sample_net) sample_slots one_chunk zero_stmt [] [("https://c/0", 2)] [sample_rows] 3); try reflexivity.
  - unfold chunks_of. split; [reflexivity|]. split; [reflexivity|]. split; [apply Forall2_cons; split; [split_and!; vm_compute; reflexivity|by apply Forall2_nil]|].
    split; [vm_compute; congruence|]. split; [exists SF_JSON_ERROR_ITEM_MISSING, None; vm_compute; reflexivity|vm_compute; exact I].
  - intros i item Hi. destruct i as [|i]; [|done]. injection Hi as <-. vm_compute. reflexivity.
  - intros i item rows Hi Hr. destruct i as [|i]; [|done]. injection Hi as <-. injection Hr as <-. split; [discriminate|]. split; [|split; [|reflexivity]].
    + apply Forall_cons. split; [split; vm_compute; reflexivity|]. apply Forall_singleton. split; vm_compute; reflexivity.
    + exists [mk_attempt None true (Response 503 [])], (mk_attempt None true (Response 200 sample_pieces)), [], sample_pieces, (default EmptyString (chunk_body sample_rows)).
      split; [reflexivity|]. split; [apply Forall_singleton; split; [split_and!; [reflexivity|exact I|vm_compute; reflexivity]|reflexivity]|].
      split; [split_and!; [reflexivity|exact I|vm_compute; reflexivity]|]. split_and!; vm_compute; reflexivity.
Defined.
