(* ===== verification/ExecuteErrors.v ===== *)
(** * What executing a statement reports

    The refusals of the server and the missing session, and how a transaction call passes
    its statement's error on to the connection. *)

From S2P Require Import Prelude RbTree TreeMap ParamStore CLib CFloat Status CJson CJsonPrint CJsonParse JsonHelpers ArrayList Url Http Session SessionTotal.
From S2P Require Import Connect Results PutGet ChunkSetup Stmt Bind Fetch Execute ExecuteRows.

(** The answer [j] refuses the statement. *)
Record refusal (j : cJSON) (code : Z) (message state qid : string) : Prop := {
  rf_success : json_copy_bool false (Some j) "success" = (SF_JSON_ERROR_NONE, false);
  rf_code : exists c t, snowflake_cJSON_GetObjectItem (Some j) "code" = Some c /\ valuestring c = Some t /\ i32 (st_val (strtoll t)) = code;
  rf_message : default "Query was not successful" (snowflake_cJSON_GetObjectItem (Some j) "message" ≫= valuestring) = message;
  rf_state : exists e, copy_array SF_SQLSTATE_LEN SF_SQLSTATE_NO_ERROR (snowflake_cJSON_GetObjectItem (Some j) "data") "sqlState" = Done (e, state);
  rf_qid : exists e, copy_array SF_UUID4_LEN EmptyString (snowflake_cJSON_GetObjectItem (Some j) "data") "queryId" = Done (e, qid)
}.

Section Errors.
  Context {St : Type} `{Dict nat St}.
  Context (ph : internal_hooks) (CA_BUNDLE_FILE : option string) (curl_easy_escape : string -> string)
    (curl_easy_init : nat -> bool) (uuid4_generate : nat -> string) (now : Z)
    (pt : pthread_answers) (chunk_answer : nat -> string -> slot_answer).

Lemma query_refused_ok j code message state qid (s : SF_STMT St) : refusal j code message state qid -> e_sqlstate (error s) = SF_SQLSTATE_NO_ERROR ->
  query_refused (Some j) (snowflake_cJSON_GetObjectItem (Some j) "data") s =
    Done (set_error (mk_stmt_error code (Some message) state (str_take 36 (sfqid s))) s).
Proof.
  intros [_ (c & t & Hc & Ht & Hn) Hm (e & Hst) _] Hs. unfold query_refused. rewrite Hs, Hst, bind_Done_l. cbv beta iota zeta.
  rewrite Hc, Ht. cbn [deref]. by rewrite !bind_Done_l, Hm, Hn.
Qed.

(** C11: A statement the server refuses fails with the server's own code, message, SQL state
    and query id in its error, whatever the statement held before; it has no rows, no
    columns and no chunks, and the connection, its tokens and its error stay as they were
    but for the counter. *)
Theorem refused_query_reported fuel mem (s : SF_STMT St) sf w text p t m a rest j code message state qid s_body block url :
  let c := c_sequence_counter sf + 1 in
  query_sent ph curl_easy_escape curl_easy_init uuid4_generate now s text p t m sf w a rest j s_body block url -> refusal j code message state qid ->
  exists s', snowflake_query ph CA_BUNDLE_FILE curl_easy_escape curl_easy_init uuid4_generate now pt chunk_answer (S (S (S fuel))) mem
      (Some s) (Some text) 0 sf w =
    Done (SF_STATUS_ERROR_GENERAL, Some s', set_request c (c_request_id sf) sf,
      mk_world rest (sent w ++ [post_sent url (create_header_token (snowflake_token_header t) false) s_body a]) (err w) (Some t) (Some m)) /\
    error s' = mk_stmt_error code (Some message) state (str_take 36 qid) /\ sfqid s' = qid /\ raw_results s' = None /\ desc s' = None /\
    chunk_downloader s' = None.
Proof.
  intros c Hsent Href.
  destruct (query_answered ph CA_BUNDLE_FILE curl_easy_escape curl_easy_init uuid4_generate now pt chunk_answer fuel mem s text p t m sf w a rest j
    s_body block url Hsent) as (s0 & -> & He & Hqi & _ & _ & Hde & Hraw & Hcd).
  fold c. unfold read_answer. cbv zeta. pose proof Href as [Hsu _ _ _ (eq & Hq)]. rewrite Hqi, Hq, bind_Done_l. cbv beta iota. rewrite Hsu.
  rewrite bool_decide_false by (by intros []). cbn [negb]. rewrite (query_refused_ok j code message state qid); [|done|cbn; by rewrite He].
  rewrite !bind_Done_l. cbv beta iota. eexists. split; [done|]. by split_and!.
Qed.

(** ** Without a session *)

Lemma stmt_without_session fuel mem (s : SF_STMT St) text sf w :
  ready_to_reset s -> c_sequence_counter sf < LLONG_MAX -> is_string_empty (member sf DirectURL) = true ->
  is_string_empty (token w) = true \/ is_string_empty (master_token w) = true ->
  exists s', snowflake_query ph CA_BUNDLE_FILE curl_easy_escape curl_easy_init uuid4_generate now pt chunk_answer fuel mem (Some s) (Some text) 0 sf w =
    Done (SF_STATUS_ERROR_GENERAL, Some s', set_request (c_sequence_counter sf + 1) (c_request_id sf) sf, w) /\
    error s' = mk_stmt_error SF_STATUS_ERROR_BAD_CONNECTION_PARAMS (Some "Missing session or master token. Try running snowflake_connect.")
      SF_SQLSTATE_UNABLE_TO_CONNECT EmptyString /\ desc s' = None /\ chunk_downloader s' = None /\ params s' = None.
Proof.
  intros Hs Hc Hd Ht. unfold snowflake_query. destruct (prepare_ok (clear_error s) text) as (s1 & -> & Htx & Hpa & Hde & Hcd & Hqi & Hraw); [exact Hs|].
  rewrite bind_Done_l. cbv beta iota. change (SF_STATUS_SUCCESS =? SF_STATUS_SUCCESS) with true. cbn [negb]. unfold snowflake_execute. cbn [deref].
  rewrite bind_Done_l, Htx. unfold _is_put_get_command. cbn [deref]. rewrite !bind_Done_l. unfold _snowflake_execute_ex, execute_stmt.
  destruct (LLONG_MAX <=? c_sequence_counter sf) eqn:Ec; [lia|]. cbv zeta. unfold make_bindings, _snowflake_get_current_param_style.
  cbn [params set_call clear_error set_error]. rewrite Hpa, bind_Done_l. cbv beta iota. change (member (set_request _ _ sf)) with (member sf).
  rewrite Hd. replace (is_string_empty (master_token w) || is_string_empty (token w)) with true by (destruct Ht as [-> | ->]; by rewrite ?orb_true_r).
  cbn [negb andb]. rewrite bind_Done_l. cbv beta iota. eexists. split; [done|]. split_and!; done.
Qed.

(** The connection's error then. *)
Definition no_session_error : Http.error :=
  Http.mk_err SF_STATUS_ERROR_BAD_CONNECTION_PARAMS "Missing session or master token. Try running snowflake_connect." SF_SQLSTATE_UNABLE_TO_CONNECT.

Lemma internal_without_session fuel sql sf w :
  c_sequence_counter sf < LLONG_MAX -> is_string_empty (member sf DirectURL) = true ->
  is_string_empty (token w) = true \/ is_string_empty (master_token w) = true ->
  _snowflake_internal_query ph CA_BUNDLE_FILE curl_easy_escape curl_easy_init uuid4_generate now pt chunk_answer fuel (Some sf) sql w =
    Done (SF_STATUS_ERROR_GENERAL, Some (set_request (c_sequence_counter sf + 1) (c_request_id sf) sf), with_err (Some no_session_error) w).
Proof.
  intros Hc Hd Ht. unfold _snowflake_internal_query.
  assert (exists s, snowflake_stmt true = Done (Some (s : SF_STMT St)) /\ ready_to_reset s) as (s & -> & Hs) by (eexists; by split).
  rewrite bind_Done_l. destruct (stmt_without_session fuel ∅ s sql sf w Hs Hc Hd Ht) as (s' & -> & He & Hde & Hcd & Hpa). rewrite bind_Done_l. cbv beta iota.
  change (SF_STATUS_ERROR_GENERAL =? SF_STATUS_SUCCESS) with false. cbn [deref]. rewrite bind_Done_l. unfold snowflake_propagate_error. rewrite He.
  cbn [e_code e_msg e_sqlstate deref]. change (SF_STATUS_ERROR_BAD_CONNECTION_PARAMS =? 0) with false. rewrite !bind_Done_l.
  unfold snowflake_stmt_term, _snowflake_stmt_reset, _snowflake_stmt_desc_reset. rewrite Hpa, bind_Done_l. change (desc (clear_error s')) with (desc s'). rewrite Hde, !bind_Done_l. done.
Qed.

(** Without a session (and without a direct URL) the transaction calls fail before
    anything is sent: the network and the tokens are as before, the connection has only
    spent a sequence number, and its error says what is missing. *)
Theorem transaction_without_session fuel sf w :
  c_sequence_counter sf < LLONG_MAX -> is_string_empty (member sf DirectURL) = true ->
  is_string_empty (token w) = true \/ is_string_empty (master_token w) = true ->
  let fails := Done (SF_STATUS_ERROR_GENERAL, Some (set_request (c_sequence_counter sf + 1) (c_request_id sf) sf), with_err (Some no_session_error) w) in
  snowflake_trans_begin ph CA_BUNDLE_FILE curl_easy_escape curl_easy_init uuid4_generate now pt chunk_answer fuel (Some sf) w = fails /\
  snowflake_trans_commit ph CA_BUNDLE_FILE curl_easy_escape curl_easy_init uuid4_generate now pt chunk_answer fuel (Some sf) w = fails /\
  snowflake_trans_rollback ph CA_BUNDLE_FILE curl_easy_escape curl_easy_init uuid4_generate now pt chunk_answer fuel (Some sf) w = fails.
Proof. intros Hc Hd Ht fails. split_and!; by apply internal_without_session. Qed.
End Errors.

(** ** A statement that does not compile, and a connection without tokens *)

Definition refusal_reply : attempt := reply
  ("{" +:+ q "data" +:+ "{" +:+ q "sqlState" +:+ dq "42000" +:+ "," +:+ q "queryId" +:+ dq "q7" +:+ "}," +:+ q "success" +:+ "false,"
   +:+ q "code" +:+ dq "001003" +:+ "," +:+ q "message" +:+ dq "SQL compilation error" +:+ "}").
Definition refusal_world : world := mk_world [refusal_reply] [] None (Some "T1") (Some "M1").

Lemma refused_query_reported_witness :
  exists s' sf' w', snowflake_query copy_hooks None keep (fun _ => true) sample_uuid 1500000000 all_made (fun _ _ => SlotFailed true) 3 ∅
      (Some (zero_stmt : SF_STMT (RbTree.store nat))) (Some "select 1") 0 connected refusal_world = Done (SF_STATUS_ERROR_GENERAL, Some s', sf', w') /\
    error s' = mk_stmt_error 1003 (Some "SQL compilation error") "42000" "q7" /\ token w' = Some "T1".
Proof.
  edestruct (refused_query_reported (St := RbTree.store nat) copy_hooks None keep (fun _ => true) sample_uuid 1500000000 all_made (fun _ _ => SlotFailed true)
    0 ∅ zero_stmt connected refusal_world "select 1" "https" "T1" "M1" refusal_reply [] (value_of refusal_reply) 1003 "SQL compilation error" "42000" "q7"
    sample_query_body sample_query_block sample_query_url) as (s' & E & He & _).
  - split; try lazymatch goal with |- _ = _ => vm_compute; reflexivity end.
    + split; exact I.
    + vm_compute. congruence.
    + split; vm_compute; reflexivity.
    + split; vm_compute; reflexivity.
    + split; vm_compute; reflexivity.
    + split; [reflexivity|]. split; [|do 2 eexists; split_and!; [vm_compute; reflexivity|reflexivity|discriminate|reflexivity]].
      split; [repeat split; vm_compute; eauto 10; lia|eexists; split; [reflexivity|vm_compute; reflexivity]].
  - split; [vm_compute; reflexivity|do 2 eexists; split_and!; [vm_compute; reflexivity|reflexivity|vm_compute; reflexivity]|vm_compute; reflexivity| |];
      eexists; vm_compute; reflexivity.
  - do 3 eexists. split; [exact E|]. split; [exact He|reflexivity].
Defined.

Lemma transaction_without_session_witness :
  exists sf' w', snowflake_trans_begin (St := RbTree.store nat) copy_hooks None keep (fun _ => true) sample_uuid 1500000000 all_made (fun _ _ => SlotFailed true) 2
      (Some connected) (mk_world [] [] None None None) = Done (SF_STATUS_ERROR_GENERAL, Some sf', w') /\ sent w' = [] /\ err w' = Some no_session_error.
Proof.
  destruct (transaction_without_session (St := RbTree.store nat) copy_hooks None keep (fun _ => true) sample_uuid 1500000000 all_made (fun _ _ => SlotFailed true)
    2 connected (mk_world [] [] None None None)) as (E & _ & _); [vm_compute; reflexivity|reflexivity|left; reflexivity|].
  do 2 eexists. split; [exact E|]. split; reflexivity.
Defined.
